(* ===== verification/_CoqProject ===== *)
-Q . S2P
Prelude.v
JsString.v
JsNumber.v
JsRound.v
Base64.v
UriCodec.v
FormCodec.v
JsDate.v
Json.v
Tables.v
Effects.v
Tasks.v
Faults.v
Scripts.v
Decode.v
Hashing.v
OfflineQueue.v
TransactionService.v
MobileHooks.v
MobileApi.v
WalletSecurity.v
Sep0007.v
SdpDeepLink.v
Notifications.v
Retry.v
StellarWallet.v
StellarPayments.v
MobileServices.v
Contacts.v
BiometricAuth.v
BiometricScreens.v
DeviceAuth.v
TransferScreen.v
HomeScreen.v
HistoryScreen.v
HistoryRows.v
Merchant.v
Deposits.v
SetupScreens.v
ProfileSetup.v
MobileSettings.v
ScanScreen.v
WalletScreens.v
AppShell.v
TapToPay.v
Receipts.v
DashboardApi.v
Export.v
SearchBox.v
DashboardShell.v
ContractAdmin.v
PaymentDetails.v
Payouts.v
PayoutTables.v
DashboardPages.v
DashboardNav.v
AuditLog.v
Disbursement.v
UploadReview.v
DashboardAuth.v
DashboardLogin.v
YieldVault.v
AuditLedger.v
YieldViews.v
