(* ===== verification/Prelude.v ===== *)
(** * Zaps clients: verification library

    Zaps is a payment application on Stellar. This library models the TypeScript clients: the
    services, utilities and screens of the mobile application ([mobileapp]) and the client
    library and pages of the operator dashboard ([dashboard]), and proves what makes them
    correct. Every definition is executable; the modules [Runs] evaluate them
    on concrete worlds.

    ** Foundations

    - [Prelude] (this file): strings as UTF-16 code units ([str]), thrown values ([js_error]),
      settled promises ([res]), and the monad [M W] of an async function over a world [W],
      with [throw], [try_catch], [try_finally] and the [for ... of] loop; the lemmas [run_*]
      that step a monadic computation; array operations of the language.
    - [JsString], [JsNumber], [JsRound], [Base64], [JsDate], [UriCodec], [FormCodec], [Json],
      [Hashing]: what the code uses of the language: string methods, doubles as [m * 2^e] with
      correct rounding, [Number], [parseFloat], [toFixed] and printing, [btoa], ISO dates,
      percent and form encoding, JSON text. Their round trips ([parse_stringify],
      [decode_encode], [parse_params_text]) carry the
      persistence and query theorems above them.
    - [Effects]: the class [Host] is all that lies outside: four key-value stores
      (AsyncStorage, the secure store, [localStorage] and the cookies), [fetch], connectivity,
      clock and random source. [HostLaws] states what is relied on: a live store reads back
      what was written, [fetch] may settle in any way and leaves a trace entry, times are
      valid, random numbers lie in [0, 1). Module variables are a record beside the world
      ([host], [get_state], [modify_state]). [scripted] is an implementation that satisfies
      the laws, so no theorem is vacuous.
      [within f m] runs [m] on a part of a larger state; the frame lemmas ([stores_kept] and
      the [_frame] lemmas of the components) say what a call leaves alone.
    - [Tables]: stable sorting by a column, pages and the row filter the tables share.
    - [Decode]: the class [Codec] between a stored type and its JSON; an unchecked cast that
      meets another type stops the model with a marker. [Scripts]: worlds for the examples.
    - [Tasks]: handlers cut at each [await] into tasks that take turns. [Faults]: a host whose
      reads and writes fail on a schedule, which satisfies [HostLaws] like any other.

    ** Services of the mobile application

    - [OfflineQueue] (mobileapp/src/services/offlineQueue.ts). [flushQueue] is specified by
      the fate of every item ([queue_flushed]); requests per item are bounded;
      [Interleaving] is the step relation of enqueues and a replay at their await points:
      without overlap nothing is lost or duplicated, the code refines the steps with the
      requests it makes, and the overlap that loses a transaction is exhibited.
    - [TransactionService] (transactionService.ts, types/transaction.ts): the merged,
      filtered and sorted history; following the cursors enumerates it exactly; distinct
      requests have distinct cache keys.
    - [MobileApi] (api.ts): session, [apiFetch] and its 401, username resolution with coded
      errors, sending with the queue as fallback, recovery through Privy.
    - [Notifications] (notificationService.ts): registration and tap routing.
    - [WalletSecurity] (walletSecurity.ts): mnemonic, accounts, restoration, deletion.
    - [Sep0007] (utils/sep0007.ts) and [SdpDeepLink] (both sdpDeepLink.ts): payment and claim
      links: build/parse round trip, soundness of what is accepted.
    - [Contacts] (contacts.ts), [Retry] (utils/retry.ts), [BiometricAuth] (biometricAuth.ts):
      hashed matching in any task order, back-off, the PIN and its lock-out as a refinement
      of an abstract lock.
    - [StellarWallet] (stellarWallet.ts): balances, fees, the fee bump of a stuck transaction;
      [StellarPayments]: [submitPayment] against a network that keeps a ledger: a payment
      reported as made was included as asked, one whose answer is lost may be included too.
      [MobileServices]: crash reports, the claim screen, likes and comments,
      avatars. [MobileHooks]: the feed with its overlapping loads, connectivity, debounce, theme.
    - [TapToPay] (nfcTapToPay.ts, app/tap-to-pay.tsx), [Receipts] (receiptGenerator.ts,
      formatting.ts, app/transaction): the payload a terminal reads back, the texts of a payment.

    ** Screens of the mobile application ([mobileapp/app])

    - [TransferScreen] (transfer.tsx): the CSV of a batch payout, the recipient field, and the
      steps from wallet to sent payment, whose handlers run on while the screen is used, cut at
      each [await]: what every step finds filled in, and what leaving a step during a send or a
      batch upload breaks. [ScanScreen] (scan.tsx) hands payments to it.
    - [HomeScreen] ((personal)/home.tsx), [HistoryScreen] and [HistoryRows] ((personal)/history.tsx):
      feed, yield card, display currency; days, searches, filters and rows of the history.
    - [DeviceAuth] (biometric.tsx), [BiometricScreens] (src/hooks/useBiometric.ts and the guard,
      payment and settings components, PrivySocialButtons.tsx): token rotation in two slots, whatever
      write of it fails, PIN hashing, what opens a guarded screen and confirms a payment.
    - [WalletScreens] (mnemonic-backup.tsx, wallet-recovery.tsx), [SetupScreens] (username.tsx,
      fund.tsx), [ProfileSetup] (onboarding-start.tsx): creating, restoring, naming and funding.
    - [Merchant] (merchant): withdrawal, PIN, sale, payment code and history of the point of
      sale. [Deposits]: yield-transaction.tsx and receive.tsx.
    - [AppShell] (_layout.tsx, Toast.tsx): version gate, start and links, toasts and timers.
      [MobileSettings] (useNotificationPreferences.ts, i18n.ts, LanguageSelector.tsx, Avatar.tsx,
      ErrorBoundary.tsx): as [Tasks], run alone (the switch stays in step with the store) or in
      turns (it does not).

    ** The dashboard

    - [DashboardApi] (dashboard/lib/api.ts): session, token exchange, the single retry, the
      endpoints; [SharedRefresh] is the step relation of calls that meet a 401 together: a refresh
      token whose exchange was read is never posted again against a rotating server, one whose
      answer could not be read is; [authedFetch] refines the steps of its request, and a logout
      during a pending exchange is undone.
    - [Disbursement] (dashboard/app/dashboard/payouts/page.tsx): a row is accepted exactly
      when it can be paid, the header check, the summary, and the gate of the upload.
    - [DashboardAuth] (dashboard/lib/auth-context.tsx, middleware.ts, lib/freighter.ts,
      lib/wallet-context.tsx): sign-in and the route guard, and the invariant between the
      wallet shown and the persisted flag. [DashboardLogin] (login/page.tsx, app/page.tsx,
      dashboard/layout.tsx) composes them over time: signing in, and what signing out leaves open, Privy's own
      session being part of the world.
    - [UploadReview], [Payouts], [PayoutTables] (the same page): the review before an upload, the
      payout form and its amounts, retries, the tables and logs shown.
    - [AuditLog], [YieldVault], [AuditLedger], [YieldViews] (dashboard/app/dashboard/yield/page.tsx):
      the audit table against a reference query and the types of its rows, whatever the backend
      answers and is told, the configuration form with its integer index arithmetic,
      and what the page shows of both, with the rate history and its cancelled visits.
    - [ContractAdmin] (contracts/page.tsx, EmergencyPauseControl.tsx), [PaymentDetails]
      (PaymentDetailDialog.tsx): fees, blacklist, freezing behind two checks made anew for every
      change; decoded XDR, and loads of which only the latest counts.
    - [Export], [SearchBox], [DashboardShell]: CSV and JSON exports read back, the debounced user
      search with its overlapping requests, polling, alerts, health and the transactions page.
    - [DashboardPages] (analytics/page.tsx, qr/page.tsx, StatCard.tsx): what the charts sum, a code
      for an exact amount. [DashboardNav] (lib/nav.ts, layout.tsx, CommandPalette,
      MobileNavDrawer, NotificationBell, TruncatedAddress, ThemeSelector): the current link, the
      focus and scrolling that a drawer takes and gives back, keys, bell, clipboard and theme.

    A component that calls another one requires its file: [MobileApi] enqueues through
    [OfflineQueue] and reads history through [TransactionService]; [Contacts] and
    [Notifications] fetch through [MobileApi]; [Disbursement] and [DashboardAuth] go through
    [DashboardApi]. Clients are proved against the [_run] lemmas of what they call.

    ** Conventions and bounds

    A call is a function from the state to a result and a state; calls that overlap are
    step relations. [Promise.all] over independent calls runs them in order, except in
    [Contacts], where the order is arbitrary. Recursion on text uses fuel equal to the
    length of the text plus one, and every step consumes a unit; loops with a retry count
    recurse on it. The theorems about results state that a result exists.

    Values outside their declared type are met only where the code tests for them; an answer
    field used in a string is printed as the language prints it, which differs from the
    declared type only for arrays that print as the empty text.

    ** Not modelled

    Layout and styling, the parts of a screen that render constants, and screens that only
    navigate; the bodies of third-party modules (Stellar SDK, bip39, Expo, Papa Parse, Freighter,
    Privy, date-fns), which are parameters with laws; the Rust backend and contracts; tests.
    Of [dashboard/app/dashboard/page.tsx] only the export and the search are modelled: the file
    does not parse at this commit, so the page itself has no behaviour. The geometry of the charts
    (home.tsx) and the keyboard layout of the phone are left out. *)

From stdpp Require Export base option list strings gmap.
From Stdlib Require Export ZArith NArith Lia Sorted.
From Stdlib Require Ascii String.

#[export] Set Default Goal Selector "!".

(** ** Scope and notations *)

Declare Scope zaps_scope.
Delimit Scope zaps_scope with zaps.

(** JavaScript strings are sequences of UTF-16 code units. *)
Abbreviation str := (list N).

Definition js (s : string) : str := Ascii.N_of_ascii <$> String.list_ascii_of_string s.
Arguments js s%_string : simpl never.

(** ** Completion values *)

(** The value a JavaScript [throw] carries, as far as the code inspects it:
    the message, the [code] tag and the HTTP status some services attach. *)
Record js_error := JsError {
  err_message : str;
  err_code : option str;
  err_status : option Z;
}.

#[export] Instance js_error_eq_dec : EqDecision js_error.
Proof. solve_decision. Defined.

(** [new Error(message)] *)
Definition new_error (m : str) : js_error := JsError m None None.

(** A promise settles with a value or a rejection. *)
Inductive res (A : Type) : Type :=
  | Ok (a : A)
  | Throw (e : js_error).
Arguments Ok {A} a.
Arguments Throw {A} e.

(** An async function over a world [W]: explicit state passing with rejection. *)
Definition M (W A : Type) : Type := W → res A * W.

#[export] Instance M_ret {W} : MRet (M W) := λ A a w, (Ok a, w).
#[export] Instance M_bind {W} : MBind (M W) := λ A B f m w,
  match m w with
  | (Ok a, w') => f a w'
  | (Throw e, w') => (Throw e, w')
  end.

Definition throw {W A} (e : js_error) : M W A := λ w, (Throw e, w).

(** [try { m } catch (e) { h e }] *)
Definition try_catch {W A} (m : M W A) (h : js_error → M W A) : M W A := λ w,
  match m w with
  | (Ok a, w') => (Ok a, w')
  | (Throw e, w') => h e w'
  end.

(** [try { m } finally { f }] for a finaliser that cannot itself reject. *)
Definition try_finally {W A} (m : M W A) (f : W → W) : M W A := λ w,
  let '(r, w') := m w in (r, f w').

(** Sequential [for ... of] loop with an accumulator. *)
Fixpoint for_each {W A B} (f : B → A → M W B) (acc : B) (l : list A) : M W B :=
  match l with
  | [] => mret acc
  | a :: l' => acc' ← f acc a; for_each f acc' l'
  end.

Section MonadLaws.
Context {W A B C : Type}.

Lemma run_ret (a : A) (w : W) : (mret a : M W A) w = (Ok a, w).
Proof. reflexivity. Qed.

Lemma run_bind (m : M W A) (f : A → M W B) (w : W) :
  (m ≫= f) w = match m w with
               | (Ok a, w') => f a w'
               | (Throw e, w') => (Throw e, w')
               end.
Proof. reflexivity. Qed.

Lemma run_bind_ok (m : M W A) (f : A → M W B) (w w' : W) (a : A) :
  m w = (Ok a, w') → (m ≫= f) w = f a w'.
Proof. intros H. by rewrite run_bind, H. Qed.

Lemma run_bind_throw (m : M W A) (f : A → M W B) (w w' : W) e :
  m w = (Throw e, w') → (m ≫= f) w = (Throw e, w').
Proof. intros H. by rewrite run_bind, H. Qed.

Lemma run_bind_inv (m : M W A) (f : A → M W B) (w w' : W) (b : B) :
  (m ≫= f) w = (Ok b, w') →
  ∃ a w1, m w = (Ok a, w1) ∧ f a w1 = (Ok b, w').
Proof. rewrite run_bind. destruct (m w) as [[a|e] w1]; naive_solver. Qed.

Lemma run_try_ok (m : M W A) h (w w' : W) a :
  m w = (Ok a, w') → try_catch m h w = (Ok a, w').
Proof. intros H. unfold try_catch. by rewrite H. Qed.

Lemma run_try_throw (m : M W A) h (w w' : W) e :
  m w = (Throw e, w') → try_catch m h w = h e w'.
Proof. intros H. unfold try_catch. by rewrite H. Qed.
End MonadLaws.

(** [run_step H] advances a monadic computation in the goal by the known run [H]
    of its first action. *)
Ltac run_step H :=
  first [ rewrite (run_bind_ok _ _ _ _ _ H)
        | rewrite (run_bind_throw _ _ _ _ _ H)
        | rewrite (run_try_ok _ _ _ _ _ H)
        | rewrite (run_try_throw _ _ _ _ _ H)
        | rewrite H ].

Create HintDb zaps discriminated.
Create Rewrite HintDb zaps_rw.

(** Case analysis on the innermost scrutinee of the goal or of a hypothesis. *)
Ltac case_goal :=
  match goal with
  | |- context [match ?x with _ => _ end] => destruct x eqn:?
  end.
Ltac case_hyp H :=
  match type of H with
  | context [match ?x with _ => _ end] => destruct x eqn:?
  end.

(** ** Generic lemmas shared by the components *)

Section ListFacts.
Context {A : Type}.

Lemma filter_Forall_id (P : A → Prop) `{∀ x, Decision (P x)} (l : list A) :
  Forall P l → filter P l = l.
Proof. induction 1; [done|]. rewrite filter_cons_True by done. by f_equal. Qed.

Lemma filter_Forall_nil (P : A → Prop) `{∀ x, Decision (P x)} (l : list A) :
  Forall (λ x, ¬ P x) l → filter P l = [].
Proof. induction 1; [done|]. by rewrite filter_cons_False by done. Qed.

Lemma NoDup_fmap_filter {B} (f : A → B) (P : A → Prop) `{∀ x, Decision (P x)} (l : list A) :
  NoDup (f <$> l) → NoDup (f <$> filter P l).
Proof.
  induction l as [|x l IH]; [done|]. rewrite fmap_cons, NoDup_cons. intros [Hx Hl].
  rewrite filter_cons. destruct (decide (P x)); [|auto]. rewrite fmap_cons, NoDup_cons. split; [|auto].
  intros Hin. apply Hx. apply list_elem_of_fmap in Hin as (y & -> & Hy). apply list_elem_of_filter in Hy as [_ Hy].
  by apply list_elem_of_fmap_2.
Qed.

Lemma Forall_take_le (P : A → Prop) n (l : list A) : Forall P l → Forall P (take n l).
Proof. apply Forall_take. Qed.

Lemma sublist_length_le (l k : list A) : l `sublist_of` k → (length l ≤ length k)%nat.
Proof. apply sublist_length. Qed.
End ListFacts.

(** ** Array operations of the language *)

(** [xs.findIndex(p)], [None] standing for -1. *)
Fixpoint find_index {A} (p : A → bool) (l : list A) : option nat :=
  match l with
  | [] => None
  | x :: l' => if p x then Some 0 else S <$> find_index p l'
  end.

Lemma find_index_spec {A} (p : A → bool) (l : list A) i :
  find_index p l = Some i →
  ∃ x, l !! i = Some x ∧ p x = true ∧ ∀ j y, j < i → l !! j = Some y → p y = false.
Proof.
  revert i. induction l as [|x l IH]; intros i; cbn; [done|].
  destruct (p x) eqn:Px.
  - intros [= <-]. exists x. split; [done|]. split; [done|]. lia.
  - intros H. apply fmap_Some in H as (i' & H & ->).
    destruct (IH i' H) as (y & Hy & Py & Hlt). exists y. split; [done|]. split; [done|].
    intros [|j] z Hj; cbn; [by intros [= <-]|]. apply Hlt. lia.
Qed.

Lemma find_index_unique {A B} (f : A → B) (p : A → bool) (l : list A) i x :
  NoDup (f <$> l) → l !! i = Some x → p x = true →
  (∀ y, p y = true → f y = f x) → find_index p l = Some i.
Proof.
  revert i. induction l as [|y l IH]; intros i Hnd Hi Px Hp; [done|]. cbn.
  apply NoDup_cons in Hnd as [Hy Hnd]. destruct i as [|i]; cbn in Hi.
  - injection Hi as ->. by rewrite Px.
  - destruct (p y) eqn:Py.
    + exfalso. apply Hy. rewrite (Hp y Py). apply list_elem_of_fmap. exists x.
      split; [done|]. by eapply list_elem_of_lookup_2.
    + by rewrite (IH i Hnd Hi Px Hp).
Qed.

(** [xs.sort((a, b) => ...)]: the sort of the language is stable; [gt a b] says
    that the comparator answers a positive number. *)
Fixpoint sort_insert {A} (gt : A → A → bool) (x : A) (l : list A) : list A :=
  match l with
  | [] => [x]
  | y :: l' => if gt x y then y :: sort_insert gt x l' else x :: l
  end.

Definition stable_sort {A} (gt : A → A → bool) (l : list A) : list A := foldr (sort_insert gt) [] l.

Section SortFacts.
Context {A : Type} (gt : A → A → bool).

Lemma sort_insert_perm x l : sort_insert gt x l ≡ₚ x :: l.
Proof.
  induction l as [|y l IH]; cbn; [done|]. destruct (gt x y); [|done].
  rewrite IH. by apply Permutation_swap.
Qed.

Lemma stable_sort_perm l : stable_sort gt l ≡ₚ l.
Proof. induction l as [|x l IH]; cbn; [done|]. by rewrite sort_insert_perm, IH. Qed.

Context (P : A → Prop) (le : A → A → Prop).
Context (gt_true : ∀ x y, P x → P y → gt x y = true → le y x).
Context (gt_false : ∀ x y, P x → P y → gt x y = false → le x y).
Context (le_trans : ∀ x y z, P x → P y → P z → le x y → le y z → le x z).

Lemma sort_insert_sorted x l : P x → Forall P l →
  StronglySorted le l → StronglySorted le (sort_insert gt x l).
Proof.
  intros Px Pl. induction 1 as [|y l Hs IH Hy]; cbn; [by repeat constructor|].
  apply Forall_cons in Pl as [Py Pl]. destruct (gt x y) eqn:G.
  - constructor; [by apply IH|]. rewrite sort_insert_perm. constructor; [by apply gt_true|done].
  - constructor; [by constructor|]. constructor; [by apply gt_false|].
    rewrite Forall_forall in *. intros z Hz. apply le_trans with y; auto.
Qed.

Lemma stable_sort_sorted l : Forall P l → StronglySorted le (stable_sort gt l).
Proof.
  induction 1 as [|x l Px Pl IH]; cbn; [constructor|]. apply sort_insert_sorted; [done| |done].
  fold (stable_sort gt l). by rewrite stable_sort_perm.
Qed.
End SortFacts.
