(* ===== verification/JsString.v ===== *)
(** * JavaScript strings

    The string methods the clients call, on sequences of UTF-16 code units:
    [trim], [startsWith], [includes], [indexOf], [slice], [split], [join],
    [toLowerCase]/[toUpperCase], [padStart] and the character classes of the
    regular expressions of the source. *)

From S2P Require Import Prelude.

(** ** Case mapping

    ASCII is mapped exactly; a string with a unit outside ASCII goes through
    the Unicode tables of the host, which are a parameter. *)
Class UnicodeCase := {
  unicode_lower : str → str;
  unicode_upper : str → str;
}.

Definition is_ascii (c : N) : bool := (c <? 128)%N.
Definition is_digit (c : N) : bool := ((48 <=? c) && (c <=? 57))%N.
Definition is_upper (c : N) : bool := ((65 <=? c) && (c <=? 90))%N.
Definition is_lower (c : N) : bool := ((97 <=? c) && (c <=? 122))%N.
Definition is_alpha (c : N) : bool := is_upper c || is_lower c.

Definition ascii_lower (c : N) : N := if is_upper c then (c + 32)%N else c.
Definition ascii_upper (c : N) : N := if is_lower c then (c - 32)%N else c.

Section CaseMapping.
Context `{UC : UnicodeCase}.

(** [s.toLowerCase()] *)
Definition to_lower (s : str) : str :=
  if forallb is_ascii s then ascii_lower <$> s else unicode_lower s.

(** [s.toUpperCase()] *)
Definition to_upper (s : str) : str :=
  if forallb is_ascii s then ascii_upper <$> s else unicode_upper s.
End CaseMapping.

(** ** Predicates and searching *)

(** [Boolean(s)] of a string: only the empty string is falsy. *)
Definition truthy (s : str) : bool := match s with [] => false | _ => true end.

(** [Boolean(o)] of an optional string ([undefined], [null] and [""] are falsy). *)
Definition truthy_opt (o : option str) : bool :=
  match o with Some s => truthy s | None => false end.

Definition str_eqb (s t : str) : bool := bool_decide (s = t).

(** [s.startsWith(p)] *)
Fixpoint starts_with (p s : str) : bool :=
  match p, s with
  | [], _ => true
  | a :: p', b :: s' => (a =? b)%N && starts_with p' s'
  | _ :: _, [] => false
  end.

(** [s.indexOf(p)], [None] standing for -1. *)
Fixpoint index_of (p s : str) : option nat :=
  if starts_with p s then Some 0%nat
  else match s with
       | [] => None
       | _ :: s' => S <$> index_of p s'
       end.

(** [s.includes(p)] *)
Definition includes (p s : str) : bool :=
  match index_of p s with Some _ => true | None => false end.

(** White space and line terminators as [trim] and [\s] know them. *)
Definition is_ws (c : N) : bool :=
  (((9 <=? c) && (c <=? 13)) || (c =? 32) || (c =? 160) || (c =? 5760)
   || ((8192 <=? c) && (c <=? 8202)) || (c =? 8232) || (c =? 8233)
   || (c =? 8239) || (c =? 8287) || (c =? 12288) || (c =? 65279))%N.

Fixpoint drop_while (f : N → bool) (s : str) : str :=
  match s with
  | c :: s' => if f c then drop_while f s' else s
  | [] => []
  end.

Fixpoint span (f : N → bool) (s : str) : str * str :=
  match s with
  | c :: s' => if f c then let '(a, b) := span f s' in (c :: a, b) else ([], s)
  | [] => ([], [])
  end.

Definition trim_start (s : str) : str := drop_while is_ws s.
Definition trim_end (s : str) : str := rev (drop_while is_ws (rev s)).

(** [s.trim()] *)
Definition trim (s : str) : str := trim_end (trim_start s).

(** The names an object literal inherits. *)
Definition inherited_names : list str :=
  js <$> ["constructor"; "__defineGetter__"; "__defineSetter__"; "hasOwnProperty"; "__lookupGetter__"; "__lookupSetter__";
          "isPrototypeOf"; "propertyIsEnumerable"; "toString"; "valueOf"; "toLocaleString"; "__proto__"]%string.
Definition inherited (k : str) : bool := bool_decide (k ∈ inherited_names).

(** [s.slice(-n)] for [n > 0] *)
Definition slice_last (n : nat) (s : str) : str := drop (length s - n) s.

(** [s.split(c)] on a one-unit separator *)
Fixpoint split_on (c : N) (s : str) : list str :=
  match s with
  | [] => [[]]
  | a :: s' =>
      if (a =? c)%N then [] :: split_on c s'
      else match split_on c s' with
           | p :: ps => (a :: p) :: ps
           | [] => [[a]]
           end
  end.

(** [xs.join(sep)] *)
Fixpoint join (sep : str) (l : list str) : str :=
  match l with
  | [] => []
  | [s] => s
  | s :: l' => s ++ sep ++ join sep l'
  end.

(** [s.replace(/\s+/g, " ")] *)
Fixpoint collapse_ws (in_ws : bool) (s : str) : str :=
  match s with
  | [] => []
  | c :: s' =>
      if is_ws c then (if in_ws then collapse_ws true s' else 32%N :: collapse_ws true s')
      else c :: collapse_ws false s'
  end.

(** [s.padStart(n, c)] *)
Definition pad_start (n : nat) (c : N) (s : str) : str := replicate (n - length s) c ++ s.

(** Lower-case hexadecimal digit of a value below 16. *)
Definition hex_lower (d : N) : N := if (d <? 10)%N then (48 + d)%N else (87 + d)%N.
Definition hex_upper (d : N) : N := if (d <? 10)%N then (48 + d)%N else (55 + d)%N.

(** Value of a hexadecimal digit of either case. *)
Definition hex_val (c : N) : option N :=
  if is_digit c then Some (c - 48)%N
  else if ((65 <=? c) && (c <=? 70))%N then Some (c - 55)%N
  else if ((97 <=? c) && (c <=? 102))%N then Some (c - 87)%N
  else None.

(** Digits of a natural number in base 10, most significant first. *)
Fixpoint N_digits_fuel (fuel : nat) (n : N) (acc : str) : str :=
  match fuel with
  | O => acc
  | S fuel' =>
      let acc' := (48 + n mod 10)%N :: acc in
      if (n <? 10)%N then acc' else N_digits_fuel fuel' (n / 10) acc'
  end.
Definition N_to_str (n : N) : str := N_digits_fuel (S (N.to_nat (N.log2 n))) n [].

(** [String(z)] of a safe integer *)
Definition Z_to_str (z : Z) : str :=
  match z with
  | Zneg p => 45%N :: N_to_str (Npos p)
  | _ => N_to_str (Z.to_N z)
  end.

(** Value of a digit string, most significant first. *)
Definition digits_val (acc : N) (s : str) : N := foldl (λ a c, (10 * a + (c - 48))%N) acc s.

(** ** Lemmas *)

Lemma str_eqb_true s t : str_eqb s t = true ↔ s = t.
Proof. apply bool_decide_eq_true. Qed.
Lemma str_eqb_false s t : str_eqb s t = false ↔ s ≠ t.
Proof. apply bool_decide_eq_false. Qed.
Lemma str_eqb_refl s : str_eqb s s = true.
Proof. by apply str_eqb_true. Qed.
#[export] Hint Rewrite str_eqb_refl : zaps_rw.

Lemma truthy_true s : truthy s = true ↔ s ≠ [].
Proof. by destruct s. Qed.
Lemma truthy_false s : truthy s = false ↔ s = [].
Proof. by destruct s. Qed.

Lemma starts_with_app p s : starts_with p (p ++ s) = true.
Proof. induction p as [|c p IH]; simpl; [done|]. by rewrite N.eqb_refl, IH. Qed.
#[export] Hint Rewrite starts_with_app : zaps_rw.

Lemma starts_with_spec p s : starts_with p s = true ↔ ∃ t, s = p ++ t.
Proof.
  split; [|intros [t ->]; apply starts_with_app].
  revert s. induction p as [|c p IH]; intros s; simpl; [by exists s|].
  destruct s as [|d s]; [done|].
  intros [->%N.eqb_eq [t ->]%IH]%andb_true_iff. by exists t.
Qed.

Lemma drop_while_head f s : ∀ c t, drop_while f s = c :: t → f c = false.
Proof.
  induction s as [|d s IH]; simpl; [done|]. intros c t.
  destruct (f d) eqn:E; [apply IH|]. by intros [= -> ->].
Qed.

Lemma drop_while_id f s : (∀ c t, s = c :: t → f c = false) → drop_while f s = s.
Proof. destruct s as [|c s]; simpl; [done|]. intros H. by rewrite (H c s). Qed.

Lemma drop_while_idem f s : drop_while f (drop_while f s) = drop_while f s.
Proof. apply drop_while_id. apply drop_while_head. Qed.

Lemma drop_while_all f s : forallb f s = true → drop_while f s = [].
Proof. induction s as [|c s IH]; simpl; [done|]. by intros [-> ?%IH]%andb_true_iff. Qed.

Lemma trim_nil : trim [] = [].
Proof. done. Qed.

(** A string whose first and last units are not white space is its own trim. *)
Lemma trim_id s :
  (∀ c t, s = c :: t → is_ws c = false) →
  (∀ c t, s = t ++ [c] → is_ws c = false) → trim s = s.
Proof.
  intros H1 H2. unfold trim, trim_start, trim_end.
  rewrite (drop_while_id _ s) by done.
  rewrite drop_while_id; [apply rev_involutive|].
  intros c t E. apply (H2 c (rev t)).
  by rewrite <-(rev_involutive s), E.
Qed.

(** A string that begins and ends with a unit that is not white space. *)
Definition tight (s : str) : Prop :=
  (∃ c t, s = c :: t ∧ is_ws c = false) ∧ ∃ c t, s = t ++ [c] ∧ is_ws c = false.

Lemma tight_trim s : tight s → trim s = s.
Proof.
  intros [(c & t & E1 & W1) (d & u & E2 & W2)]. apply trim_id; intros a r E.
  - rewrite E1 in E. by injection E as <- _.
  - rewrite E2 in E. by apply app_inj_2 in E as [_ [= <-]].
Qed.

Lemma tight_app a m b : tight a → tight b → tight (a ++ m ++ b).
Proof.
  intros [(c & t & -> & W1) _] [_ (d & u & -> & W2)]. split; [by eexists c, _|].
  exists d, ((c :: t) ++ m ++ u). by rewrite <-!app_assoc.
Qed.

Lemma tight_join sep l : l ≠ [] → Forall tight l → tight (join sep l).
Proof.
  induction l as [|s l IH]; [done|]. intros _ [Hs Hl]%Forall_cons.
  destruct l as [|t l]; [done|]. apply tight_app; [done|by apply IH].
Qed.

(** Trimming keeps a first unit that is not white space. *)
Lemma trim_head c s : is_ws c = false → ∃ t, trim (c :: s) = c :: t.
Proof.
  intros Hc. unfold trim, trim_start. cbn [drop_while]. rewrite Hc. unfold trim_end. cbn [rev].
  assert (K : ∀ l, ∃ r, drop_while is_ws (l ++ [c]) = r ++ [c]).
  { induction l as [|a l IH]; cbn [app drop_while]; [rewrite Hc; by exists []|].
    destruct (is_ws a); [done|by exists (a :: l)]. }
  destruct (K (rev s)) as (r & ->). exists (rev r). by rewrite rev_unit.
Qed.

Lemma tight_nonempty s : tight s → truthy s = true.
Proof. by intros [(c & t & -> & _) _]. Qed.

Lemma trim_id_forall s : Forall (λ c, is_ws c = false) s → trim s = s.
Proof.
  intros H. apply trim_id; intros c t ->.
  - by inversion H.
  - by apply Forall_app in H as [_ [? _]%Forall_cons].
Qed.

Lemma span_app f s t c :
  forallb f s = true → f c = false → span f (s ++ c :: t) = (s, c :: t).
Proof.
  induction s as [|d s IH]; simpl; [by intros _ ->|].
  intros [-> Hs]%andb_true_iff Hc. by rewrite IH.
Qed.

Lemma span_all f s : forallb f s = true → span f s = (s, []).
Proof.
  induction s as [|d s IH]; simpl; [done|].
  intros [-> Hs]%andb_true_iff. by rewrite IH.
Qed.

Lemma span_forall f s : Forall (λ c, f c = true) (span f s).1.
Proof. induction s as [|c s IH]; cbn; [constructor|]. destruct (f c) eqn:E; [|constructor]. destruct (span f s). by constructor. Qed.

Lemma span_join f s : let '(a, b) := span f s in s = a ++ b.
Proof.
  induction s as [|c s IH]; simpl; [done|].
  destruct (f c); [|done]. destruct (span f s) as [a b]. simpl. by f_equal.
Qed.

Lemma split_on_nonempty c s : split_on c s ≠ [].
Proof. destruct s as [|a s]; simpl; [done|]. destruct (a =? c)%N; [done|]. by destruct (split_on c s). Qed.

Lemma split_on_free c s : c ∉ s → split_on c s = [s].
Proof.
  induction s as [|a s IH]; simpl; [done|]. intros [Ha Hs]%not_elem_of_cons.
  destruct (N.eqb_spec a c); [congruence|]. by rewrite IH.
Qed.

Lemma split_on_app c s t : c ∉ s → split_on c (s ++ c :: t) = s :: split_on c t.
Proof.
  induction s as [|a s IH]; simpl; [by rewrite N.eqb_refl|].
  intros [Ha Hs]%not_elem_of_cons.
  destruct (N.eqb_spec a c); [congruence|]. by rewrite IH.
Qed.

(** Splitting inverts joining when no part contains the separator. *)
Lemma split_join c l :
  l ≠ [] → Forall (λ s, c ∉ s) l → split_on c (join [c] l) = l.
Proof.
  induction l as [|s l IH]; [done|]. intros _ [Hs Hl]%Forall_cons.
  destruct l as [|t l]; [by apply split_on_free|].
  cbn [join app]. change ([c] ++ join [c] (t :: l)) with (c :: join [c] (t :: l)).
  rewrite split_on_app by done. f_equal. by apply IH.
Qed.

Lemma join_split c s : join [c] (split_on c s) = s.
Proof.
  induction s as [|a s IH]; [done|]. cbn [split_on].
  destruct (N.eqb_spec a c) as [->|]; cbn.
  - destruct (split_on c s) eqn:E; [by apply split_on_nonempty in E|]. cbn in *. by f_equal.
  - destruct (split_on c s) as [|p ps] eqn:E; [by apply split_on_nonempty in E|].
    destruct ps; cbn in *; by f_equal.
Qed.

Lemma elem_of_join x sep l : x ∈ join sep l → x ∈ sep ∨ ∃ s, s ∈ l ∧ x ∈ s.
Proof.
  induction l as [|s l IH]; cbn; [by intros ?%not_elem_of_nil|].
  destruct l as [|t l].
  - intros H. right. exists s. by split; [apply elem_of_cons; left|].
  - intros [H|[H|H]%elem_of_app]%elem_of_app; [|by left|].
    + right. exists s. split; [by apply elem_of_cons; left|done].
    + destruct (IH H) as [?|(u & Hu & Hx)]; [by left|].
      right. exists u. split; [by apply elem_of_cons; right|done].
Qed.

Lemma index_of_spec p s n : index_of p s = Some n → ∃ u v, s = u ++ p ++ v ∧ length u = n.
Proof.
  revert n. induction s as [|c s IH]; intros n; cbn [index_of].
  - destruct (starts_with p []) eqn:E; [|done]. apply starts_with_spec in E as [t Ht].
    intros [= <-]. exists [], t. split; [exact Ht|done].
  - destruct (starts_with p (c :: s)) eqn:E.
    + apply starts_with_spec in E as [t Ht]. intros [= <-]. exists [], t. split; [exact Ht|done].
    + intros (m & Hm & ->)%fmap_Some. destruct (IH m Hm) as (u & v & -> & <-).
      by exists (c :: u), v.
Qed.

Lemma digits_val_app acc s t : digits_val acc (s ++ t) = digits_val (digits_val acc s) t.
Proof. apply foldl_app. Qed.

Lemma N_digits_fuel_app fuel n acc :
  N_digits_fuel fuel n acc = N_digits_fuel fuel n [] ++ acc.
Proof.
  revert n acc. induction fuel as [|fuel IH]; intros n acc; [done|]. simpl.
  destruct (n <? 10)%N; [done|]. rewrite IH, (IH _ [_]). by rewrite <-app_assoc.
Qed.

Lemma N_digits_fuel_val fuel n :
  (N.to_nat (N.log2 n) < fuel)%nat →
  digits_val 0 (N_digits_fuel fuel n []) = n ∧
  Forall (λ c, is_digit c = true) (N_digits_fuel fuel n []).
Proof.
  revert n. induction fuel as [|fuel IH]; intros n Hf; [lia|]. simpl.
  assert (Hd : is_digit (48 + n mod 10) = true).
  { unfold is_digit. pose proof (N.mod_lt n 10 ltac:(lia)) as Hm.
    revert Hm. generalize (n mod 10)%N. intros m Hm. apply andb_true_iff.
    rewrite !N.leb_le. lia. }
  destruct (N.ltb_spec n 10) as [Hn|Hn].
  - split; [|by repeat constructor]. unfold digits_val. cbn [foldl].
    rewrite N.mod_small by done. lia.
  - rewrite N_digits_fuel_app, digits_val_app.
    assert (Hlog : (N.to_nat (N.log2 (n / 10)) < fuel)%nat).
    { assert (N.log2 (n / 10) < N.log2 n)%N; [|lia].
      apply N.log2_lt_pow2; [apply N.div_str_pos; lia|].
      apply N.Div0.div_lt_upper_bound.
      destruct (N.log2_spec n) as [_ Hs]; [lia|]. rewrite N.pow_succ_r' in Hs.
      clear -Hs. revert Hs. generalize (2 ^ N.log2 n)%N. intros k Hk. lia. }
    destruct (IH (n / 10)%N Hlog) as [Hv Ha]. rewrite Hv. split.
    + unfold digits_val. cbn [foldl]. rewrite (N.add_comm 48), N.add_sub. symmetry. by apply N.div_mod.
    + apply Forall_app. split; [done|by repeat constructor].
Qed.

Lemma N_to_str_val n : digits_val 0 (N_to_str n) = n.
Proof. apply N_digits_fuel_val. lia. Qed.

Lemma N_to_str_digits n : Forall (λ c, is_digit c = true) (N_to_str n).
Proof. apply N_digits_fuel_val. lia. Qed.

Lemma N_to_str_nonempty n : N_to_str n ≠ [].
Proof.
  unfold N_to_str. cbn [N_digits_fuel]. destruct (n <? 10)%N; [done|].
  rewrite N_digits_fuel_app. by destruct (N_digits_fuel _ _ []).
Qed.

#[export] Instance N_to_str_inj : Inj (=) (=) N_to_str.
Proof. intros n m E. by rewrite <-(N_to_str_val n), <-(N_to_str_val m), E. Qed.

#[export] Instance Z_to_str_inj : Inj (=) (=) Z_to_str.
Proof.
  intros x y E.
  assert (Hneg : ∀ n, N_to_str n ≠ 45%N :: tail (N_to_str n)).
  { intros n En. pose proof (N_to_str_digits n) as H. rewrite En in H. by apply Forall_cons in H as [? _]. }
  destruct x as [|p|p], y as [|q|q]; unfold Z_to_str in E; simpl Z.to_N in E;
    try (apply (inj N_to_str) in E; congruence);
    try (exfalso; first [eapply Hneg; rewrite E; reflexivity
                        |eapply Hneg; rewrite <-E; reflexivity]).
  injection E as E%(inj N_to_str). congruence.
Qed.
