(* ===== verification/JsNumber.v ===== *)
(** * JavaScript numbers

    IEEE 754 binary64 values with correct rounding (ties to even), the
    arithmetic and comparisons the clients use, and the numeric literals that
    [Number(...)], [parseFloat] and [parseInt] accept. A finite value is
    [m * 2^e] with [e <= 0], an integer being [Fin z 0]; the sign of zero is
    not represented. *)

From S2P Require Import Prelude JsString.
Local Open Scope Z_scope.

Inductive num : Type :=
  | NaN
  | Inf (neg : bool)
  | Fin (m e : Z).

#[export] Instance num_eq_dec : EqDecision num.
Proof. solve_decision. Defined.

(** ** Rounding *)

(** Strip common factors of two from [m * 2^(-k)]. *)
Fixpoint strip (k : nat) (m : Z) : num :=
  match k with
  | O => Fin m 0
  | S k' => if Z.even m then strip k' (m / 2) else Fin m (- Z.of_nat k)
  end.

(** Canonical form of [m * 2^e]. *)
Definition norm (m e : Z) : num :=
  if 0 <=? e then Fin (m * 2 ^ e) 0 else strip (Z.to_nat (- e)) m.

(** The integer nearest to [p / q], ties to even ([q > 0]). *)
Definition round_half_even (p q : Z) : Z :=
  let d := p / q in
  match Z.compare (2 * (p mod q)) q with
  | Lt => d
  | Gt => d + 1
  | Eq => if Z.even d then d else d + 1
  end.

(** The exponent [E] with [2^E <= a / d < 2^(E+1)]. *)
Definition ratio_exponent (a d : Z) : Z :=
  let l := Z.log2 a - Z.log2 d in
  if d * 2 ^ Z.max 0 l <=? a * 2 ^ Z.max 0 (- l) then l else l - 1.

(** The exponent of the last place of the double nearest to [a / d]. *)
Definition ratio_ulp (a d : Z) : Z := Z.max (ratio_exponent a d - 52) (-1074).

(** Its significand, possibly [2^53] after a carry. *)
Definition ratio_significand (a d : Z) : Z :=
  let u := ratio_ulp a d in
  round_half_even (a * 2 ^ Z.max 0 (- u)) (d * 2 ^ Z.max 0 u).

(** The double nearest to [n / d] ([d > 0]). *)
Definition round_ratio (n d : Z) : num :=
  if n =? 0 then Fin 0 0
  else
    let a := Z.abs n in
    let q := ratio_significand a d in
    let u := ratio_ulp a d in
    if 1024 <=? Z.log2 q + u then Inf (n <? 0) else norm (Z.sgn n * q) u.

Definition num_of_Z (z : Z) : num := round_ratio z 1.
Definition num_of_nat (n : nat) : num := num_of_Z (Z.of_nat n).

(** ** Arithmetic and comparison *)

Definition num_sign (x : num) : bool :=
  match x with NaN => false | Inf s => s | Fin m _ => m <? 0 end.

Definition num_add (x y : num) : num :=
  match x, y with
  | NaN, _ | _, NaN => NaN
  | Inf s, Inf t => if Bool.eqb s t then Inf s else NaN
  | Inf s, Fin _ _ | Fin _ _, Inf s => Inf s
  | Fin m e, Fin m' e' =>
      round_ratio (m * 2 ^ (- e') + m' * 2 ^ (- e)) (2 ^ (- e) * 2 ^ (- e'))
  end.

Definition num_opp (x : num) : num :=
  match x with NaN => NaN | Inf s => Inf (negb s) | Fin m e => Fin (- m) e end.
Definition num_sub (x y : num) : num := num_add x (num_opp y).

Definition num_mul (x y : num) : num :=
  match x, y with
  | NaN, _ | _, NaN => NaN
  | Inf s, Inf t => Inf (xorb s t)
  | Inf s, Fin m _ | Fin m _, Inf s => if m =? 0 then NaN else Inf (xorb s (m <? 0))
  | Fin m e, Fin m' e' => round_ratio (m * m') (2 ^ (- e) * 2 ^ (- e'))
  end.

Definition num_div (x y : num) : num :=
  match x, y with
  | NaN, _ | _, NaN => NaN
  | Inf _, Inf _ => NaN
  | Inf s, Fin m _ => Inf (xorb s (m <? 0))
  | Fin _ _, Inf _ => Fin 0 0
  | Fin m e, Fin m' e' =>
      if m' =? 0 then (if m =? 0 then NaN else Inf (m <? 0))
      else round_ratio (Z.sgn m' * (m * 2 ^ (- e'))) (Z.abs m' * 2 ^ (- e))
  end.

(** [x < y]; every comparison with [NaN] is false. *)
Definition num_ltb (x y : num) : bool :=
  match x, y with
  | NaN, _ | _, NaN => false
  | Inf s, Inf t => s && negb t
  | Inf s, Fin _ _ => s
  | Fin _ _, Inf t => negb t
  | Fin m e, Fin m' e' => m * 2 ^ (- e') <? m' * 2 ^ (- e)
  end.

Definition num_leb (x y : num) : bool :=
  match x, y with
  | NaN, _ | _, NaN => false
  | Inf s, Inf t => s || negb t
  | Inf s, Fin _ _ => s
  | Fin _ _, Inf t => negb t
  | Fin m e, Fin m' e' => m * 2 ^ (- e') <=? m' * 2 ^ (- e)
  end.

Lemma num_ltb_not_leb x y : num_ltb x y = true → num_leb y x = false.
Proof. destruct x as [|[]|m e], y as [|[]|m' e']; try done. cbn. lia. Qed.

Definition is_nan (x : num) : bool := match x with NaN => true | _ => false end.
Definition is_finite (x : num) : bool := match x with Fin _ _ => true | _ => false end.

(** [Boolean(x)] of a number *)
Definition num_truthy (x : num) : bool :=
  match x with NaN => false | Inf _ => true | Fin m _ => negb (m =? 0) end.

(** [Math.min] / [Math.max] *)
Definition num_min (x y : num) : num :=
  if is_nan x || is_nan y then NaN else if num_ltb y x then y else x.
Definition num_max (x y : num) : num :=
  if is_nan x || is_nan y then NaN else if num_ltb x y then y else x.

(** [Math.floor] *)
Definition num_floor (x : num) : num :=
  match x with Fin m e => Fin (m / 2 ^ (- e)) 0 | _ => x end.

(** [Math.abs] *)
Definition num_abs (x : num) : num :=
  match x with NaN => NaN | Inf _ => Inf false | Fin m e => Fin (Z.abs m) e end.

(** [Math.pow(b, k)] for a base [b] whose powers are computed exactly before rounding. *)
Definition num_pow_Z (b : Z) (k : nat) : num := num_of_Z (b ^ Z.of_nat k).

(** ** Numeric literals *)

(** Decimal [m * 10^e]. *)
Definition dec_value (neg : bool) (m : N) (e : Z) : num :=
  let z := (if neg then - Z.of_N m else Z.of_N m) in
  if 0 <=? e then round_ratio (z * 10 ^ e) 1 else round_ratio z (10 ^ (- e)).

Definition take_sign (s : str) : bool * str :=
  match s with
  | 43%N :: s' => (false, s')
  | 45%N :: s' => (true, s')
  | _ => (false, s)
  end.

(** Optional exponent part; not consumed when it has no digits. *)
Definition take_exponent (s : str) : Z * str :=
  match s with
  | c :: s' =>
      if ((c =? 101) || (c =? 69))%N then
        let '(neg, s1) := take_sign s' in
        match span is_digit s1 with
        | ([], _) => (0, s)
        | (ds, r) => ((if neg then - Z.of_N (digits_val 0 ds) else Z.of_N (digits_val 0 ds)), r)
        end
      else (0, s)
  | [] => (0, s)
  end.

(** Fraction part after the integer digits; the point alone is consumed only
    when there are digits on one side of it. *)
Definition take_fraction (ip : str) (s : str) : str * str :=
  match s with
  | 46%N :: s' =>
      let '(fp, r) := span is_digit s' in
      match ip, fp with [], [] => ([], s) | _, _ => (fp, r) end
  | _ => ([], s)
  end.

(** The longest [StrDecimalLiteral] prefix and the rest of the text. *)
Definition parse_decimal (s : str) : option (num * str) :=
  let '(neg, s1) := take_sign s in
  if starts_with (js "Infinity") s1 then Some (Inf neg, drop 8 s1)
  else
    let '(ip, s2) := span is_digit s1 in
    let '(fp, s3) := take_fraction ip s2 in
    match ip ++ fp with
    | [] => None
    | ds =>
        let '(e, s4) := take_exponent s3 in
        Some (dec_value neg (digits_val 0 ds) (e - Z.of_nat (length fp)), s4)
    end.

(** Digits of a radix-[b] literal, [None] on any other unit. *)
Fixpoint radix_val (b : N) (acc : N) (s : str) : option N :=
  match s with
  | [] => Some acc
  | c :: s' =>
      match hex_val c with
      | Some d => if (d <? b)%N then radix_val b (b * acc + d) s' else None
      | None => None
      end
  end.

Definition parse_radix (b : N) (s : str) : num :=
  match s with
  | [] => NaN
  | _ => match radix_val b 0 s with Some n => num_of_Z (Z.of_N n) | None => NaN end
  end.

(** [Number(s)] *)
Definition Number (s : str) : num :=
  let t := trim s in
  match t with
  | [] => Fin 0 0
  | 48%N :: c :: t' =>
      if ((c =? 120) || (c =? 88))%N then parse_radix 16 t'
      else if ((c =? 111) || (c =? 79))%N then parse_radix 8 t'
      else if ((c =? 98) || (c =? 66))%N then parse_radix 2 t'
      else match parse_decimal t with Some (v, []) => v | _ => NaN end
  | _ => match parse_decimal t with Some (v, []) => v | _ => NaN end
  end.

(** [parseFloat(s)] *)
Definition parseFloat (s : str) : num :=
  match parse_decimal (trim_start s) with Some (v, _) => v | None => NaN end.

(** [parseInt(s, 10)] *)
Definition parseInt10 (s : str) : num :=
  let '(neg, s1) := take_sign (trim_start s) in
  match span is_digit s1 with
  | ([], _) => NaN
  | (ds, _) => dec_value neg (digits_val 0 ds) 0
  end.

(** ** 32-bit integers *)

(** [ToUint32] of a double and [ToInt32] of an integer *)
Definition to_uint32 (x : num) : Z :=
  match x with Fin m e => (Z.quot m (2 ^ (- e)) mod 4294967296)%Z | _ => 0%Z end.
Definition to_int32 (z : Z) : Z :=
  let u := (z mod 4294967296)%Z in if (u <? 2147483648)%Z then u else (u - 4294967296)%Z.

Lemma to_int32_mod z : to_int32 z mod 4294967296 = z mod 4294967296.
Proof.
  unfold to_int32. destruct (Z.ltb_spec (z mod 4294967296) 2147483648); [by rewrite Z.mod_mod|].
  rewrite Zminus_mod, Z.mod_mod, Z_mod_same_full, Z.sub_0_r, Z.mod_mod; done.
Qed.

Lemma to_int32_range z : -2147483648 <= to_int32 z < 2147483648.
Proof.
  unfold to_int32. pose proof (Z.mod_pos_bound z 4294967296 ltac:(lia)).
  destruct (Z.ltb_spec (z mod 4294967296) 2147483648); lia.
Qed.

(** ** Number to string *)

(** The decimal point position [n]: the least [n >= n0] with [p / q < 10^n]. *)
Fixpoint point_position (fuel : nat) (p q n : Z) : Z :=
  match fuel with
  | O => n
  | S fuel' =>
      if p * 10 ^ Z.max 0 (- n) <? q * 10 ^ Z.max 0 n then n
      else point_position fuel' p q (n + 1)
  end.

(** The shortest digit string that rounds back to [x = p / q], with [k] digits
    or more: [Number::toString] of the language. *)
Fixpoint shortest_digits (fuel : nat) (k : Z) (x : num) (p q n : Z) : Z * Z * Z :=
  let sp := p * 10 ^ Z.max 0 (k - n) in
  let sq := q * 10 ^ Z.max 0 (n - k) in
  let s := round_half_even sp sq in
  let result s := if s =? 10 ^ k then (10 ^ (k - 1), k, n + 1) else (s, k, n) in
  match fuel with
  | O => result s
  | S fuel' =>
      if bool_decide (dec_value false (Z.to_N s) (n - k) = x) then result s
      else let s' := sp / sq in
      if bool_decide (dec_value false (Z.to_N s') (n - k) = x) then result s'
      else shortest_digits fuel' (k + 1) x p q n
  end.

Definition format_digits (ds : str) (n : Z) : str :=
  let k := Z.of_nat (length ds) in
  if (k <=? n) && (n <=? 21) then ds ++ replicate (Z.to_nat (n - k)) 48%N
  else if (0 <? n) && (n <=? 21) then take (Z.to_nat n) ds ++ js "." ++ drop (Z.to_nat n) ds
  else if (-6 <? n) && (n <=? 0) then js "0." ++ replicate (Z.to_nat (- n)) 48%N ++ ds
  else
    let e := n - 1 in
    take 1 ds ++ (if k =? 1 then [] else js "." ++ drop 1 ds)
      ++ js "e" ++ (if e <? 0 then js "-" else js "+") ++ Z_to_str (Z.abs e).

(** [String(x)] *)
Definition num_to_str (x : num) : str :=
  match x with
  | NaN => js "NaN"
  | Inf s => if s then js "-Infinity" else js "Infinity"
  | Fin m e =>
      if (e =? 0) && (Z.abs m <? 10 ^ 21) then Z_to_str m
      else
        let p := Z.abs m * 2 ^ Z.max 0 e in
        let q := 2 ^ Z.max 0 (- e) in
        let n := point_position 800 p q ((Z.log2 p - Z.log2 q) * 3 / 10 - 2) in
        let '(s, k, n) := shortest_digits 17 1 (num_abs x) p q n in
        (if m <? 0 then js "-" else []) ++ format_digits (pad_start (Z.to_nat k) 48 (Z_to_str s)) n
  end.

Arguments num_to_str : simpl never.

(** ** Lemmas *)

(** An integer below [10^21] prints as its digits. *)
Lemma num_to_str_int z : Z.abs z < 2 ^ 53 → num_to_str (Fin z 0) = Z_to_str z.
Proof.
  intros Hz. unfold num_to_str. rewrite (proj2 (Z.ltb_lt (Z.abs z) (10 ^ 21))); [done|].
  etrans; [exact Hz|]. by vm_compute.
Qed.

(** The bound below which every integer is a double. *)
Definition safe_int (z : Z) : Prop := Z.abs z < 2 ^ 53.

#[export] Instance safe_int_dec z : Decision (safe_int z) := Z_lt_dec _ _.

Lemma round_half_even_exact p q : 0 < q → round_half_even (p * q) q = p.
Proof.
  intros Hq. unfold round_half_even. rewrite Z.mod_mul, Z.div_mul by lia.
  by rewrite (proj2 (Z.compare_lt_iff (2 * 0) q)) by lia.
Qed.

Lemma round_half_even_lower p q k : 0 < q → k * q <= p → k <= round_half_even p q.
Proof.
  intros Hq Hk. unfold round_half_even.
  assert (k <= p / q) by (apply Z.div_le_lower_bound; lia).
  destruct (2 * (p mod q) ?= q); [destruct (Z.even (p / q))| |]; lia.
Qed.

Lemma round_half_even_upper p q k : 0 < q → p <= k * q → round_half_even p q <= k.
Proof.
  intros Hq Hk. unfold round_half_even.
  pose proof (Z.div_mod p q ltac:(lia)) as Hd. pose proof (Z.mod_pos_bound p q Hq) as Hm.
  assert (p / q <= k) by nia.
  destruct (Z.compare_spec (2 * (p mod q)) q);
    [destruct (Z.even (p / q))| |]; try lia; nia.
Qed.

Lemma strip_pow k m : strip k (m * 2 ^ Z.of_nat k) = Fin m 0.
Proof.
  induction k as [|k IH]; cbn [strip]; [by rewrite Z.mul_1_r|].
  replace (m * 2 ^ Z.of_nat (S k)) with (m * 2 ^ Z.of_nat k * 2) by
    (rewrite Nat2Z.inj_succ, Z.pow_succ_r by lia; ring).
  rewrite Z.even_mul. change (Z.even 2) with true. rewrite orb_true_r.
  by rewrite Z.div_mul by lia.
Qed.

(** [strip] keeps the value: [m' * 2^k = m * 2^(-e')]. *)
Lemma strip_value k m m' e' :
  strip k m = Fin m' e' → - Z.of_nat k <= e' <= 0 ∧ m = m' * 2 ^ (Z.of_nat k + e').
Proof.
  revert m. induction k as [|k IH]; intros m; cbn [strip].
  - intros [= <- <-]. split; [lia|]. by rewrite Z.mul_1_r.
  - destruct (Z.even m) eqn:E; cycle 1.
    + intros [= <- <-]. split; [lia|]. replace (_ + _) with 0 by lia. by rewrite Z.mul_1_r.
    + intros [He Hm]%IH. split; [lia|].
      replace (Z.of_nat (S k) + e') with (Z.succ (Z.of_nat k + e')) by lia.
      rewrite Z.pow_succ_r by lia. apply Z.even_spec in E as [h ->].
      rewrite (Z.mul_comm 2 h), Z.div_mul in Hm by lia. rewrite Hm. ring.
Qed.

Lemma strip_fin k m : ∃ m' e', strip k m = Fin m' e'.
Proof. revert m. induction k as [|k IH]; intros m; cbn [strip]; [eauto|]. destruct (Z.even m); eauto. Qed.

(** A ratio below [2^53] has an exponent below 53. *)
Lemma ratio_exponent_le n d hi :
  0 < n → 0 < d → n <= hi * d → hi < 2 ^ 53 → ratio_exponent n d <= 52.
Proof.
  intros Hn Hd Hle Hhi. assert (Hhi0 : 0 < hi) by nia.
  destruct (Z.log2_spec n Hn) as [Hn1 Hn2]. destruct (Z.log2_spec d Hd) as [Hd1 Hd2].
  unfold ratio_exponent. set (l := Z.log2 n - Z.log2 d).
  destruct (Z_le_gt_dec l 52) as [|Hl]; [case_match; lia|].
  assert (Hl53 : l <= 53).
  { destruct (Z_le_gt_dec l 53); [done|exfalso].
    assert (Hp : 2 ^ 54 * 2 ^ Z.log2 d <= 2 ^ Z.log2 n).
    { rewrite <-Z.pow_add_r by (pose proof (Z.log2_nonneg d); lia).
      apply Z.pow_le_mono_r; lia. }
    rewrite Z.pow_succ_r in Hd2 by apply Z.log2_nonneg. nia. }
  destruct (_ <=? _) eqn:Hc; [exfalso|lia].
  apply Z.leb_le in Hc. replace (Z.max 0 l) with 53 in Hc by lia.
  replace (Z.max 0 (- l)) with 0 in Hc by lia. nia.
Qed.

(** The rounding of a positive rational below [2^53], with its precision exponent. *)
Lemma round_ratio_units n d hi :
  0 < n → 0 < d → n <= hi * d → hi < 2 ^ 53 →
  -1074 <= ratio_ulp n d <= 0 ∧
  round_ratio n d = norm (round_half_even (n * 2 ^ (- ratio_ulp n d)) d) (ratio_ulp n d).
Proof.
  intros Hn Hd Hle Hhi.
  assert (HE : ratio_exponent n d <= 52) by (eapply ratio_exponent_le; eauto).
  unfold round_ratio. destruct (Z.eqb_spec n 0); [lia|]. rewrite Z.abs_eq by lia.
  assert (Hu : -1074 <= ratio_ulp n d <= 0) by (unfold ratio_ulp; lia).
  split; [done|].
  assert (Hsig : ratio_significand n d = round_half_even (n * 2 ^ (- ratio_ulp n d)) d).
  { unfold ratio_significand. replace (Z.max 0 (- ratio_ulp n d)) with (- ratio_ulp n d) by lia.
    replace (Z.max 0 (ratio_ulp n d)) with 0 by lia. by rewrite Z.mul_1_r. }
  rewrite Hsig, Z.sgn_pos, Z.mul_1_l by lia.
  set (u := ratio_ulp n d) in *. set (q := round_half_even _ _).
  assert (0 < 2 ^ (- u)) by (apply Z.pow_pos_nonneg; lia).
  assert (Hq : q <= hi * 2 ^ (- u)) by (apply round_half_even_upper; nia).
  destruct (Z.leb_spec 1024 (Z.log2 q + u)) as [Hbig|]; [exfalso|done].
  assert (Z.log2 q <= Z.log2 (hi * 2 ^ (- u))) as Hl by (by apply Z.log2_le_mono).
  assert (0 < hi) by nia.
  rewrite Z.log2_mul_pow2 in Hl by lia.
  assert (Z.log2 hi < 53) by (apply Z.log2_lt_pow2; lia). lia.
Qed.

Lemma round_ratio_pos n d hi :
  0 < n → 0 < d → n <= hi * d → hi < 2 ^ 53 →
  ∃ u, -1074 <= u <= 0 ∧
    round_ratio n d = norm (round_half_even (n * 2 ^ (- u)) d) u.
Proof. intros. eexists. by eapply round_ratio_units. Qed.

(** A finite value between two integers. *)
Definition between (lo hi : Z) (x : num) : Prop :=
  match x with
  | Fin m e => e <= 0 ∧ lo * 2 ^ (- e) <= m <= hi * 2 ^ (- e)
  | _ => False
  end.

Lemma norm_between lo hi m u :
  u <= 0 → lo * 2 ^ (- u) <= m <= hi * 2 ^ (- u) → between lo hi (norm m u).
Proof.
  intros Hu Hm. unfold norm. destruct (Z.leb_spec 0 u).
  - replace u with 0 in * by lia. cbn. rewrite !Z.mul_1_r in *. lia.
  - destruct (strip_fin (Z.to_nat (- u)) m) as (m' & e' & E). rewrite E. cbn.
    destruct (strip_value _ _ _ _ E) as [He Hv]. rewrite Z2Nat.id in * by lia.
    split; [lia|].
    assert (Hs : 2 ^ (- u) = 2 ^ (- e') * 2 ^ (- u + e')) by (rewrite <-Z.pow_add_r by lia; f_equal; lia).
    assert (0 < 2 ^ (- u + e')) by (apply Z.pow_pos_nonneg; lia).
    rewrite Hs in Hm. nia.
Qed.

(** Correct rounding never crosses an integer bound below [2^53]. *)
Lemma round_ratio_between lo hi n d :
  0 <= lo → 0 < d → lo * d <= n <= hi * d → hi < 2 ^ 53 → between lo hi (round_ratio n d).
Proof.
  intros Hlo Hd Hn Hhi. destruct (Z.eq_dec n 0) as [->|Hn0].
  - unfold round_ratio. cbn. nia.
  - destruct (round_ratio_pos n d hi) as (u & Hu & ->); [nia|lia|lia|lia|].
    assert (0 < 2 ^ (- u)) by (apply Z.pow_pos_nonneg; lia).
    apply norm_between; [lia|]. split.
    + apply round_half_even_lower; [lia|]. nia.
    + apply round_half_even_upper; [lia|]. nia.
Qed.

Lemma num_mul_between a b x y :
  between 0 a x → between 0 b y → a * b < 2 ^ 53 → between 0 (a * b) (num_mul x y).
Proof.
  destruct x as [| |m e], y as [| |m' e']; cbn; try done. intros [He Hm] [He' Hm'] Hab.
  assert (0 < 2 ^ (- e)) by (apply Z.pow_pos_nonneg; lia).
  assert (0 < 2 ^ (- e')) by (apply Z.pow_pos_nonneg; lia).
  apply round_ratio_between; nia.
Qed.

Lemma num_add_between l h l' h' x y :
  0 <= l → 0 <= l' → between l h x → between l' h' y → h + h' < 2 ^ 53 →
  between (l + l') (h + h') (num_add x y).
Proof.
  destruct x as [| |m e], y as [| |m' e']; cbn; try done. intros Hl Hl' [He Hm] [He' Hm'] Hh.
  assert (0 < 2 ^ (- e)) by (apply Z.pow_pos_nonneg; lia).
  assert (0 < 2 ^ (- e')) by (apply Z.pow_pos_nonneg; lia).
  apply round_ratio_between; nia.
Qed.

Lemma num_floor_between lo hi x : between lo hi x →
  ∃ z, num_floor x = Fin z 0 ∧ lo <= z <= hi.
Proof.
  destruct x as [| |m e]; cbn; try done. intros [He Hm].
  assert (0 < 2 ^ (- e)) by (apply Z.pow_pos_nonneg; lia).
  eexists. split; [done|]. split.
  - apply Z.div_le_lower_bound; lia.
  - apply Z.div_le_upper_bound; lia.
Qed.

(** *** A random index: [Math.floor(Math.random() * n)] *)

Lemma ratio_exponent_ge a d : 0 < a → 0 < d →
  d * 2 ^ Z.max 0 (ratio_exponent a d) <= a * 2 ^ Z.max 0 (- ratio_exponent a d).
Proof.
  intros Ha Hd. unfold ratio_exponent. set (l := Z.log2 a - Z.log2 d).
  destruct (Z.leb_spec (d * 2 ^ Z.max 0 l) (a * 2 ^ Z.max 0 (- l))) as [|_]; [done|].
  destruct (Z.log2_spec a Ha) as [Ha1 _], (Z.log2_spec d Hd) as [_ Hd2].
  pose proof (Z.log2_nonneg a). pose proof (Z.log2_nonneg d).
  transitivity (2 ^ (Z.succ (Z.log2 d) + Z.max 0 (l - 1))).
  - rewrite Z.pow_add_r by lia. apply Z.mul_le_mono_nonneg_r; lia.
  - transitivity (2 ^ (Z.log2 a + Z.max 0 (- (l - 1)))).
    + apply Z.pow_le_mono_r; [lia|]. unfold l. lia.
    + rewrite Z.pow_add_r by lia. apply Z.mul_le_mono_nonneg_r; lia.
Qed.

Lemma round_half_even_strict p q k : 0 < q → 2 * p < (2 * k - 1) * q → round_half_even p q < k.
Proof.
  intros Hq Hk. unfold round_half_even.
  pose proof (Z.div_mod p q ltac:(lia)). pose proof (Z.mod_pos_bound p q Hq).
  assert (p / q < k) by (apply Z.div_lt_upper_bound; lia).
  destruct (Z.compare_spec (2 * (p mod q)) q); [destruct (Z.even (p / q))| |]; try lia; nia.
Qed.

Lemma num_floor_norm m u : u <= 0 → num_floor (norm m u) = Fin (m / 2 ^ (- u)) 0.
Proof.
  intros Hu. unfold norm. destruct (Z.leb_spec 0 u).
  - replace u with 0 by lia. cbn. by rewrite !Z.div_1_r, Z.mul_1_r.
  - destruct (strip_fin (Z.to_nat (- u)) m) as (m' & e' & E). rewrite E.
    destruct (strip_value _ _ _ _ E) as [He Hv]. rewrite Z2Nat.id in * by lia. cbn. f_equal.
    assert (0 < 2 ^ (- e')) by (apply Z.pow_pos_nonneg; lia).
    assert (0 < 2 ^ (- u + e')) by (apply Z.pow_pos_nonneg; lia).
    replace (2 ^ (- u)) with (2 ^ (- e') * 2 ^ (- u + e')) by (rewrite <-Z.pow_add_r by lia; f_equal; lia).
    rewrite Hv. by rewrite Z.div_mul_cancel_r by lia.
Qed.

(** A 53-bit factor below 1 is at least half an ulp of the product below it. *)
Lemma unit_gap m k : 0 <= k → 0 <= m < 2 ^ k → m < 2 ^ 53 → 2 ^ k <= 2 ^ 53 * (2 ^ k - m).
Proof.
  intros Hk Hm Hp. destruct (Z_le_gt_dec k 53) as [H|H].
  - assert (2 ^ k <= 2 ^ 53) by (apply Z.pow_le_mono_r; lia). nia.
  - assert (E : 2 ^ k = 2 ^ 54 * 2 ^ (k - 54)) by (rewrite <-Z.pow_add_r by lia; f_equal; lia).
    assert (0 < 2 ^ (k - 54)) by (apply Z.pow_pos_nonneg; lia). nia.
Qed.

(** The product of a random number and [n], rounded, stays below [n]. *)
Lemma random_index m e n : e <= 0 → 0 <= m < 2 ^ (- e) → m < 2 ^ 53 → 0 < n < 2 ^ 53 →
  ∃ j, num_floor (num_mul (Fin m e) (Fin n 0)) = Fin j 0 ∧ 0 <= j < n.
Proof.
  intros He Hm Hp Hn. set (d := 2 ^ (- e)) in *. assert (0 < d) by lia.
  destruct (Z.eq_dec m 0) as [->|Hm0]; [exists 0; split; [done|lia]|].
  pose proof (unit_gap m (- e) ltac:(lia) Hm Hp) as G. fold d in G.
  assert (Ha : 0 < m * n) by nia.
  assert (Em : num_mul (Fin m e) (Fin n 0) = round_ratio (m * n) d).
  { cbn -[Z.pow]. by rewrite Z.mul_1_r. }
  destruct (round_ratio_units (m * n) d n) as (Hu & E); [lia|lia|nia|lia|].
  pose proof (ratio_exponent_ge (m * n) d Ha ltac:(lia)) as L.
  rewrite Em, E, num_floor_norm by lia. set (u := ratio_ulp (m * n) d) in *.
  assert (0 < 2 ^ (- u)) by (apply Z.pow_pos_nonneg; lia).
  eexists. split; [reflexivity|]. split; [apply Z.div_pos; [apply round_half_even_lower; nia|lia]|].
  apply Z.div_lt_upper_bound; [lia|]. apply round_half_even_strict; [lia|].
  enough (d < 2 * 2 ^ (- u) * (n * (d - m))) by nia.
  replace (2 * 2 ^ (- u)) with (2 ^ (1 - u)) by (rewrite <-Z.pow_succ_r by lia; f_equal; lia).
  destruct (Z_le_gt_dec 0 (ratio_exponent (m * n) d)) as [HE|HE].
  - assert (u = ratio_exponent (m * n) d - 52) as Eu by (unfold u, ratio_ulp; lia).
    rewrite Z.max_r, (Z.max_l 0 (- _)), Z.mul_1_r in L by lia.
    set (x := ratio_exponent (m * n) d) in *. assert (0 < 2 ^ x) by (apply Z.pow_pos_nonneg; lia).
    assert (E53 : 2 ^ 53 = 2 ^ (1 - u) * 2 ^ x) by (rewrite <-Z.pow_add_r by lia; f_equal; lia).
    assert (0 < 2 ^ (1 - u)) by (apply Z.pow_pos_nonneg; lia).
    assert (X : 2 ^ x + 1 <= n).
    { apply Z.le_succ_l, (Z.mul_lt_mono_pos_l d); [lia|]. apply (Z.le_lt_trans _ _ _ L), Z.mul_lt_mono_pos_r; lia. }
    rewrite E53 in G. apply (Z.lt_le_trans _ (2 ^ (1 - u) * ((2 ^ x + 1) * (d - m)))).
    + assert (0 < 2 ^ (1 - u) * (d - m)) by (apply Z.mul_pos_pos; lia). lia.
    + apply Z.mul_le_mono_nonneg_l; [lia|]. apply Z.mul_le_mono_nonneg_r; lia.
  - assert (2 ^ 54 <= 2 ^ (1 - u)) by (apply Z.pow_le_mono_r; [lia|]; unfold u, ratio_ulp in *; lia).
    apply (Z.lt_le_trans _ (2 ^ 54 * (1 * (d - m)))); [lia|].
    apply Z.mul_le_mono_nonneg; [lia|done|lia|]. apply Z.mul_le_mono_nonneg_r; lia.
Qed.

Lemma between_exact z x : between z z x → x = Fin (z * 2 ^ (- match x with Fin _ e => e | _ => 0 end))
                                               (match x with Fin _ e => e | _ => 0 end).
Proof. destruct x; cbn; try done. intros. f_equal; lia. Qed.

Lemma norm_opp m u : norm (- m) u = match norm m u with
  | NaN => NaN | Inf s => Inf (negb s) | Fin m e => Fin (- m) e end.
Proof.
  unfold norm. destruct (0 <=? u); [by rewrite Z.mul_opp_l|].
  generalize (Z.to_nat (- u)). intros k. revert m.
  induction k as [|k IH]; intros m; cbn [strip]; [done|].
  rewrite Z.even_opp. destruct (Z.even m) eqn:Ev; [|done]. rewrite <-IH. f_equal.
  apply Z.even_spec in Ev as [h ->].
  by rewrite <-Z.mul_opp_r, !(Z.mul_comm 2), !Z.div_mul by lia.
Qed.

Lemma round_ratio_opp n d : 
  round_ratio (- n) d = match round_ratio n d with
                        | NaN => NaN | Inf s => Inf (negb s) | Fin m e => Fin (- m) e end.
Proof.
  unfold round_ratio. destruct (Z.eqb_spec n 0) as [->|Hn]; [done|].
  destruct (Z.eqb_spec (- n) 0); [lia|]. rewrite Z.abs_opp.
  destruct (1024 <=? _).
  - f_equal. destruct (Z.ltb_spec (- n) 0), (Z.ltb_spec n 0); cbn; lia || done.
  - rewrite Z.sgn_opp, Z.mul_opp_l. apply norm_opp.
Qed.

(** Integers below [2^53] are represented exactly. *)
Lemma num_of_Z_safe z : safe_int z → num_of_Z z = Fin z 0.
Proof.
  assert (Hpos : ∀ z, 0 <= z < 2 ^ 53 → num_of_Z z = Fin z 0).
  { clear z. intros z [H0 H1]. destruct (Z.eq_dec z 0) as [->|]; [done|].
    unfold num_of_Z.
    destruct (round_ratio_pos z 1 z) as (u & Hu & ->); [lia..|].
    rewrite <-(Z.mul_1_r (z * _)), round_half_even_exact by lia.
    unfold norm. destruct (Z.leb_spec 0 u).
    - replace u with 0 by lia. by rewrite !Z.mul_1_r.
    - pose proof (strip_pow (Z.to_nat (- u)) z) as Hp. by rewrite Z2Nat.id in Hp by lia. }
  unfold safe_int. intros Hs. destruct (Z_le_gt_dec 0 z); [apply Hpos; lia|].
  unfold num_of_Z. rewrite <-(Z.opp_involutive z), round_ratio_opp.
  unfold num_of_Z in Hpos. by rewrite Hpos by lia.
Qed.

(** Subtraction of exact integers is exact. *)
Lemma num_sub_safe a b : safe_int (a - b) → num_sub (Fin a 0) (Fin b 0) = Fin (a - b) 0.
Proof.
  intros Hs. rewrite <-(num_of_Z_safe _ Hs). unfold num_sub. cbn [num_opp num_add].
  change (2 ^ (- 0)) with 1. rewrite !Z.mul_1_r. by rewrite Z.add_opp_r.
Qed.

Lemma is_digit_not_ws c : is_digit c = true → is_ws c = false.
Proof.
  unfold is_digit. intros [H1%N.leb_le H2%N.leb_le]%andb_true_iff.
  unfold is_ws. repeat match goal with
  | |- context [(?a <=? ?b)%N] => destruct (N.leb_spec a b); try lia
  | |- context [(?a =? ?b)%N] => destruct (N.eqb_spec a b); try lia
  end; done.
Qed.

Lemma digits_forallb s : Forall (λ c, is_digit c = true) s → forallb is_digit s = true.
Proof. induction 1; simpl; [done|]. by rewrite H, IHForall. Qed.

Lemma digit_head s c t : Forall (λ c, is_digit c = true) s → s = c :: t → (48 <= c <= 57)%N.
Proof.
  intros H ->. apply Forall_cons in H as [[H1%N.leb_le H2%N.leb_le]%andb_true_iff _]. done.
Qed.

(** Reading back the digits of an integer. *)
(** Unsigned digits: no sign and no [Infinity]. *)
Lemma digits_unsigned s r : Forall (λ c, is_digit c = true) s → s ≠ [] →
  take_sign (s ++ r) = (false, s ++ r) ∧ starts_with (js "Infinity") (s ++ r) = false.
Proof.
  intros Hd Hne. destruct s as [|c t]; [done|]. pose proof (digit_head _ c t Hd eq_refl). split.
  - cbn [app take_sign]. repeat case_match; simplify_eq; done || lia.
  - change (js "Infinity") with (73%N :: js "nfinity"). cbn [app starts_with]. destruct (N.eqb_spec 73 c); [lia|done].
Qed.

Lemma parse_decimal_digits s : Forall (λ c, is_digit c = true) s → s ≠ [] →
  parse_decimal s = Some (num_of_Z (Z.of_N (digits_val 0 s)), []).
Proof.
  intros Hd Hne. destruct (digits_unsigned s [] Hd Hne) as [E1 E2]. rewrite app_nil_r in E1, E2.
  unfold parse_decimal. rewrite E1, E2. rewrite span_all by (by apply digits_forallb). cbn [take_fraction].
  rewrite app_nil_r. destruct s as [|c t]; [done|]. cbn [take_exponent length]. do 2 f_equal.
  unfold dec_value, num_of_Z. cbn. by rewrite Z.mul_1_r.
Qed.

Lemma Number_digits s : Forall (λ c, is_digit c = true) s → s ≠ [] →
  Number s = num_of_Z (Z.of_N (digits_val 0 s)).
Proof.
  intros Hd Hne. unfold Number.
  rewrite trim_id_forall by (eapply Forall_impl; [exact Hd|apply is_digit_not_ws]).
  rewrite parse_decimal_digits by done.
  destruct s as [|c [|c' t]]; [done|by repeat case_match|].
  assert (Hc' : (48 <= c' <= 57)%N).
  { apply Forall_cons in Hd as [_ Hd]. by apply (digit_head (c' :: t) c' t). }
  repeat match goal with
  | |- context [(?a =? ?b)%N] => destruct (N.eqb_spec a b); [lia|]
  end. cbn [orb].
  repeat case_match; done.
Qed.

Lemma parse_decimal_nat n :
  parse_decimal (N_to_str n) = Some (num_of_Z (Z.of_N n), []).
Proof.
  rewrite parse_decimal_digits by (apply N_to_str_digits || apply N_to_str_nonempty). by rewrite N_to_str_val.
Qed.

Lemma Number_nat n : Number (N_to_str n) = num_of_Z (Z.of_N n).
Proof. rewrite Number_digits by (apply N_to_str_digits || apply N_to_str_nonempty). by rewrite N_to_str_val. Qed.

Lemma parseInt10_nat n : parseInt10 (N_to_str n) = num_of_Z (Z.of_N n).
Proof.
  pose proof (N_to_str_digits n) as Hd. unfold parseInt10, trim_start.
  rewrite drop_while_id; cycle 1.
  { intros c t E. rewrite E in Hd. apply is_digit_not_ws. by apply Forall_cons in Hd as [? _]. }
  pose proof (N_to_str_nonempty n) as Hne.
  assert (take_sign (N_to_str n) = (false, N_to_str n)) as ->.
  { destruct (N_to_str n) as [|c t] eqn:E; [done|]. pose proof (digit_head _ c t Hd eq_refl).
    unfold take_sign. repeat case_match; simplify_eq; done || lia. }
  rewrite span_all by (by apply digits_forallb).
  destruct (N_to_str n) as [|c t] eqn:E; [done|]. rewrite <-E, N_to_str_val.
  unfold dec_value, num_of_Z. cbn. by rewrite Z.mul_1_r.
Qed.

(** [String] then [parseInt] of a count. *)
Lemma parseInt10_count n :
  (Z.of_nat n < 2 ^ 53) → parseInt10 (Z_to_str (Z.of_nat n)) = Fin (Z.of_nat n) 0.
Proof.
  intros Hn. assert (Z_to_str (Z.of_nat n) = N_to_str (N.of_nat n)) as ->.
  { destruct n; [done|]. cbn. by f_equal. }
  rewrite parseInt10_nat, nat_N_Z. apply num_of_Z_safe. unfold safe_int. lia.
Qed.
