(* ===== verification/JsRound.v ===== *)
(** * Rounding of JavaScript numbers

    [toFixed], and what correct rounding preserves below [2^53]: order, values already
    representable, and the digits of short decimals. *)

From S2P Require Import Prelude JsString JsNumber.
Local Open Scope Z_scope.

(** The integer [n] nearest to [x * 10^f], the larger one on a tie. *)
Definition fixed_units (f : nat) (m e : Z) : Z :=
  (2 * m * 10 ^ Z.of_nat f + 2 ^ (- e)) / (2 * 2 ^ (- e)).

Definition fixed_text (f : nat) (n : Z) : str :=
  let ds := pad_start (S f) 48 (Z_to_str n) in
  match f with
  | O => ds
  | _ => take (length ds - f) ds ++ [46%N] ++ slice_last f ds
  end.

(** [x.toFixed(f)] *)
Definition num_to_fixed (f : nat) (x : num) : str :=
  match x with
  | Fin m e =>
      if 10 ^ 21 * 2 ^ (- e) <=? Z.abs m then num_to_str x
      else (if m <? 0 then [45%N] else []) ++ fixed_text f (fixed_units f (Z.abs m) e)
  | _ => num_to_str x
  end.

Arguments num_to_fixed : simpl never.

Example to_fixed_demo :
  num_to_fixed 2 (round_ratio 314159 100000) = js "3.14" ∧ num_to_fixed 2 (Fin (-1) (-3)) = js "-0.13" ∧
  num_to_fixed 8 (Fin 1 0) = js "1.00000000" ∧ num_to_fixed 2 (round_ratio 1005 1000) = js "1.00".
Proof. repeat split; vm_compute; reflexivity. Qed.

(** ** Powers of two *)

Lemma pow2_pos k : 0 < 2 ^ Z.max 0 k.
Proof. apply Z.pow_pos_nonneg; lia. Qed.

(** [2^E <= a / d < 2^(E+1)], scaled by any large enough power. *)
Lemma ratio_exponent_spec a d K :
  0 < a → 0 < d → 0 <= K → 0 <= ratio_exponent a d + K →
  d * 2 ^ (ratio_exponent a d + K) <= a * 2 ^ K < d * 2 ^ (ratio_exponent a d + 1 + K).
Proof.
  intros Ha Hd HK. destruct (Z.log2_spec a Ha) as [A1 A2]. destruct (Z.log2_spec d Hd) as [D1 D2].
  pose proof (Z.log2_nonneg a). pose proof (Z.log2_nonneg d).
  unfold ratio_exponent. set (l := Z.log2 a - Z.log2 d).
  assert (HS : ∀ S, 0 <= S → 0 <= S + l →
    (d * 2 ^ Z.max 0 l <= a * 2 ^ Z.max 0 (- l) ↔ d * 2 ^ (l + S) <= a * 2 ^ S)).
  { intros S HS0 HSl. destruct (Z_le_gt_dec 0 l).
    - rewrite (Z.max_r 0 l), (Z.max_l 0 (- l)), Z.pow_add_r by lia.
      assert (0 < 2 ^ S) by (apply Z.pow_pos_nonneg; lia). split; nia.
    - rewrite (Z.max_l 0 l), (Z.max_r 0 (- l)) by lia. replace (2 ^ S) with (2 ^ (l + S) * 2 ^ (- l))
        by (rewrite <-Z.pow_add_r by lia; f_equal; lia).
      assert (0 < 2 ^ (l + S)) by (apply Z.pow_pos_nonneg; lia). split; nia. }
  assert (Hhi : ∀ S, 0 <= S → 0 <= S + l + 1 → a * 2 ^ S < d * 2 ^ (l + 1 + S)).
  { intros S HS0 HSl. apply Z.lt_le_trans with (2 ^ Z.succ (Z.log2 a) * 2 ^ S).
    - apply Z.mul_lt_mono_pos_r; [apply Z.pow_pos_nonneg; lia|done].
    - rewrite <-Z.pow_add_r by lia. replace (Z.succ (Z.log2 a) + S) with (Z.log2 d + (l + 1 + S)) by (unfold l; lia).
      rewrite Z.pow_add_r by lia. apply Z.mul_le_mono_nonneg_r; [apply Z.pow_nonneg; lia|done]. }
  assert (Hlo : ∀ S, 0 <= S → 0 <= S + l - 1 → d * 2 ^ (l - 1 + S) <= a * 2 ^ S).
  { intros S HS0 HSl. apply Z.le_trans with (2 ^ Z.succ (Z.log2 d) * 2 ^ (l - 1 + S)).
    - apply Z.mul_le_mono_nonneg_r; [apply Z.pow_nonneg; lia|lia].
    - rewrite <-Z.pow_add_r by lia. replace (Z.succ (Z.log2 d) + (l - 1 + S)) with (Z.log2 a + S) by (unfold l; lia).
      rewrite Z.pow_add_r by lia. apply Z.mul_le_mono_nonneg_r; [apply Z.pow_nonneg; lia|done]. }
  destruct (Z.leb_spec (d * 2 ^ Z.max 0 l) (a * 2 ^ Z.max 0 (- l))) as [C|C]; intros HE.
  - split; [apply HS; [lia..|exact C]|apply Hhi; lia].
  - split; [apply Hlo; lia|]. replace (l - 1 + 1 + K) with (l + K) by lia.
    destruct (Z_lt_le_dec (a * 2 ^ K) (d * 2 ^ (l + K))) as [|Hge]; [done|].
    apply HS in Hge; lia.
Qed.

Lemma ratio_exponent_mono a d a' d' :
  0 < a → 0 < d → 0 < a' → 0 < d' → a * d' <= a' * d → ratio_exponent a d <= ratio_exponent a' d'.
Proof.
  intros Ha Hd Ha' Hd' Hle. set (E := ratio_exponent a d). set (E' := ratio_exponent a' d').
  destruct (Z_le_gt_dec E E') as [|Hgt]; [done|exfalso].
  set (K := Z.max 0 (Z.max (- E) (- E'))).
  destruct (ratio_exponent_spec a d K) as [L _]; [unfold E, E' in *; lia..|].
  destruct (ratio_exponent_spec a' d' K) as [_ U]; [unfold E, E' in *; lia..|]. fold E in L. fold E' in U.
  assert (2 ^ (E' + 1 + K) <= 2 ^ (E + K)) by (apply Z.pow_le_mono_r; lia).
  assert (0 < 2 ^ K) by (apply Z.pow_pos_nonneg; lia).
  assert (0 < 2 ^ (E + K)) by (apply Z.pow_pos_nonneg; lia).
  assert (d * 2 ^ (E + K) * d' <= a * 2 ^ K * d') by nia.
  assert (a' * 2 ^ K * d < d' * 2 ^ (E' + 1 + K) * d) by nia.
  assert (d' * 2 ^ (E' + 1 + K) * d <= d' * 2 ^ (E + K) * d) by nia. nia.
Qed.

Lemma round_half_even_error p q : 0 < q → Z.abs (2 * (round_half_even p q * q - p)) <= q.
Proof.
  intros Hq. unfold round_half_even. pose proof (Z.div_mod p q ltac:(lia)) as D. pose proof (Z.mod_pos_bound p q Hq).
  set (a := p / q) in *. set (r := p mod q) in *. clearbody a r. subst p.
  destruct (Z.compare_spec (2 * r) q); [destruct (Z.even a)| |]; lia.
Qed.

Lemma round_half_even_mono p q p' q' :
  0 < q → 0 < q' → p * q' <= p' * q → round_half_even p q <= round_half_even p' q'.
Proof.
  intros Hq Hq' Hle. unfold round_half_even.
  pose proof (Z.div_mod p q ltac:(lia)) as D. pose proof (Z.mod_pos_bound p q Hq) as B.
  pose proof (Z.div_mod p' q' ltac:(lia)) as D'. pose proof (Z.mod_pos_bound p' q' Hq') as B'.
  set (a := p / q) in *. set (r := p mod q) in *. set (a' := p' / q') in *. set (r' := p' mod q') in *.
  clearbody a r a' r'. subst p p'.
  assert (a <= a').
  { assert (q * q' * a < q * q' * (a' + 1)) by nia. assert (0 < q * q') by nia. nia. }
  destruct (Z.eq_dec a a') as [<-|].
  - assert (r * q' <= r' * q) by nia. clear Hle.
    destruct (Z.compare_spec (2 * r) q), (Z.compare_spec (2 * r') q'); destruct (Z.even a); nia.
  - destruct (Z.compare_spec (2 * r) q), (Z.compare_spec (2 * r') q'); destruct (Z.even a), (Z.even a'); lia.
Qed.

(** ** Order *)

Lemma norm_value m u : u <= 0 → ∃ m' e', norm m u = Fin m' e' ∧ u <= e' <= 0 ∧ m = m' * 2 ^ (e' - u).
Proof.
  intros Hu. unfold norm. destruct (Z.leb_spec 0 u).
  - replace u with 0 by lia. exists m, 0. split; [f_equal; lia|]. split; [lia|]. cbn. lia.
  - destruct (strip_fin (Z.to_nat (- u)) m) as (m' & e' & E). destruct (strip_value _ _ _ _ E) as [He Hv].
    exists m', e'. rewrite Z2Nat.id in * by lia. split; [done|]. split; [lia|]. rewrite Hv. do 2 f_equal. lia.
Qed.

Lemma norm_leb q u q' u' :
  u <= 0 → u' <= 0 → num_leb (norm q u) (norm q' u') = (q * 2 ^ (- u') <=? q' * 2 ^ (- u)).
Proof.
  intros Hu Hu'. destruct (norm_value q u Hu) as (m & e & -> & He & ->).
  destruct (norm_value q' u' Hu') as (m' & e' & -> & He' & ->). cbn.
  replace (- u') with ((e' - u') + (- e')) by lia. replace (- u) with ((e - u) + (- e)) by lia.
  rewrite !Z.pow_add_r by lia.
  assert (0 < 2 ^ (e - u)) by (apply Z.pow_pos_nonneg; lia).
  assert (0 < 2 ^ (e' - u')) by (apply Z.pow_pos_nonneg; lia).
  assert (H2 : 0 < 2 ^ (e - u) * 2 ^ (e' - u')) by nia.
  replace (m * 2 ^ (e - u) * (2 ^ (e' - u') * 2 ^ (- e')))
    with (2 ^ (e - u) * 2 ^ (e' - u') * (m * 2 ^ (- e'))) by ring.
  replace (m' * 2 ^ (e' - u') * (2 ^ (e - u) * 2 ^ (- e)))
    with (2 ^ (e - u) * 2 ^ (e' - u') * (m' * 2 ^ (- e))) by ring.
  destruct (Z.leb_spec (m * 2 ^ (- e')) (m' * 2 ^ (- e))), (Z.leb_spec
    (2 ^ (e - u) * 2 ^ (e' - u') * (m * 2 ^ (- e'))) (2 ^ (e - u) * 2 ^ (e' - u') * (m' * 2 ^ (- e)))); nia.
Qed.

Lemma ratio_ulp_mono a d a' d' :
  0 < a → 0 < d → 0 < a' → 0 < d' → a * d' <= a' * d → ratio_ulp a d <= ratio_ulp a' d'.
Proof. intros. unfold ratio_ulp. pose proof (ratio_exponent_mono a d a' d'). lia. Qed.

(** Correct rounding keeps the order. *)
Lemma round_ratio_mono n d n' d' hi :
  0 <= n → 0 < d → 0 < d' → n * d' <= n' * d → n' <= hi * d' → hi < 2 ^ 53 →
  num_leb (round_ratio n d) (round_ratio n' d') = true.
Proof.
  intros Hn Hd Hd' Hle Hhi Hb. assert (0 <= n') by nia. destruct (Z.eq_dec n 0) as [->|Hn0].
  { pose proof (round_ratio_between 0 hi n' d' ltac:(lia) Hd' ltac:(lia) Hb) as B.
    destruct (round_ratio n' d') as [| |m e]; cbn in *; try done. apply Z.leb_le. lia. }
  assert (0 < n') by nia. assert (n <= hi * d) by nia.
  destruct (round_ratio_units n d hi) as [Hu ->]; [lia..|].
  destruct (round_ratio_units n' d' hi) as [Hu' ->]; [lia..|].
  rewrite norm_leb by lia. apply Z.leb_le.
  pose proof (ratio_ulp_mono n d n' d' ltac:(lia) Hd ltac:(lia) Hd' Hle) as Hm.
  destruct (Z.eq_dec (ratio_ulp n d) (ratio_ulp n' d')) as [Eu|Nu].
  - rewrite <-Eu. apply Z.mul_le_mono_nonneg_r; [apply Z.pow_nonneg; lia|].
    assert (0 < 2 ^ (- ratio_ulp n d)) by (apply Z.pow_pos_nonneg; lia).
    apply round_half_even_mono; [lia|lia|nia].
  - set (u := ratio_ulp n d) in *. set (u' := ratio_ulp n' d') in *. set (E' := ratio_exponent n' d').
    assert (HE' : E' = u' + 52) by (unfold u', u, ratio_ulp in *; lia).
    assert (HE : ratio_exponent n d + 1 <= E') by (unfold u', u, ratio_ulp in *; lia).
    set (K := Z.max 1200 (- ratio_exponent n d)).
    destruct (ratio_exponent_spec n d K) as [_ U]; [lia..|].
    destruct (ratio_exponent_spec n' d' K) as [L _]; [lia..|]. fold E' in L.
    assert (U' : n * 2 ^ K < d * 2 ^ (E' + K)).
    { eapply Z.lt_le_trans; [exact U|]. apply Z.mul_le_mono_nonneg_l; [lia|]. apply Z.pow_le_mono_r; lia. }
    assert (Q : round_half_even (n * 2 ^ (- u)) d <= 2 ^ (E' - u)).
    { apply round_half_even_upper; [lia|]. assert (0 < 2 ^ (K + u)) by (apply Z.pow_pos_nonneg; lia).
      replace (2 ^ K) with (2 ^ (- u) * 2 ^ (K + u)) in U' by (rewrite <-Z.pow_add_r by lia; f_equal; lia).
      replace (2 ^ (E' + K)) with (2 ^ (E' - u) * 2 ^ (K + u)) in U' by (rewrite <-Z.pow_add_r by lia; f_equal; lia). nia. }
    assert (Q' : 2 ^ (E' - u') <= round_half_even (n' * 2 ^ (- u')) d').
    { apply round_half_even_lower; [lia|]. assert (0 < 2 ^ (K + u')) by (apply Z.pow_pos_nonneg; lia).
      replace (2 ^ K) with (2 ^ (- u') * 2 ^ (K + u')) in L by (rewrite <-Z.pow_add_r by lia; f_equal; lia).
      replace (2 ^ (E' + K)) with (2 ^ (E' - u') * 2 ^ (K + u')) in L by (rewrite <-Z.pow_add_r by lia; f_equal; lia). nia. }
    assert (0 < 2 ^ (- u)) by (apply Z.pow_pos_nonneg; lia). assert (0 < 2 ^ (- u')) by (apply Z.pow_pos_nonneg; lia).
    assert (2 ^ (E' - u) * 2 ^ (- u') = 2 ^ (E' - u') * 2 ^ (- u)) by (rewrite <-!Z.pow_add_r by lia; f_equal; lia).
    nia.
Qed.

(** ** Values already representable *)

Lemma ratio_exponent_scale a d b c :
  0 < a → 0 < d → 0 < b → 0 < c → a * c = b * d → ratio_exponent a d = ratio_exponent b c.
Proof.
  intros. pose proof (ratio_exponent_mono a d b c). pose proof (ratio_exponent_mono b c a d). lia.
Qed.

Lemma round_ratio_scale n d n' d' hi :
  0 < n → 0 < d → 0 < d' → n * d' = n' * d → n <= hi * d → hi < 2 ^ 53 → round_ratio n d = round_ratio n' d'.
Proof.
  intros Hn Hd Hd' He Hhi Hb. assert (0 < n') by nia. assert (n' <= hi * d') by nia.
  destruct (round_ratio_units n d hi) as [Hu ->]; [lia..|].
  destruct (round_ratio_units n' d' hi) as [Hu' ->]; [lia..|].
  assert (Eu : ratio_ulp n d = ratio_ulp n' d') by (unfold ratio_ulp; by rewrite (ratio_exponent_scale n d n' d') by lia).
  rewrite Eu. f_equal. assert (0 < 2 ^ (- ratio_ulp n' d')) by (apply Z.pow_pos_nonneg; lia).
  apply Z.le_antisymm; apply round_half_even_mono; nia.
Qed.

Lemma round_half_even_scale p q k : 0 < q → 0 < k → round_half_even (p * k) (q * k) = round_half_even p q.
Proof. intros. apply Z.le_antisymm; apply round_half_even_mono; nia. Qed.

Lemma strip_shift k j q : strip (k + j) (q * 2 ^ Z.of_nat k) = strip j q.
Proof.
  induction k as [|k IH]; cbn [Nat.add strip]; [by rewrite Z.mul_1_r|].
  replace (q * 2 ^ Z.of_nat (S k)) with (q * 2 ^ Z.of_nat k * 2) by
    (rewrite Nat2Z.inj_succ, Z.pow_succ_r by lia; ring).
  rewrite Z.even_mul. change (Z.even 2) with true. by rewrite orb_true_r, Z.div_mul by lia.
Qed.

Lemma norm_shift q u v : v <= u <= 0 → norm (q * 2 ^ (u - v)) v = norm q u.
Proof.
  intros Hu. replace (2 ^ (u - v)) with (2 ^ Z.of_nat (Z.to_nat (u - v))) by (rewrite Z2Nat.id by lia; done).
  unfold norm. destruct (Z.leb_spec 0 u), (Z.leb_spec 0 v).
  - replace u with 0 by lia. replace v with 0 by lia. change (2 ^ _) with 1 at 1. f_equal. lia.
  - replace u with 0 by lia. replace (0 - v) with (- v) by lia. rewrite strip_pow. f_equal. change (2 ^ 0) with 1. lia.
  - lia.
  - replace (Z.to_nat (- v)) with (Z.to_nat (u - v) + Z.to_nat (- u))%nat by lia. apply strip_shift.
Qed.

(** A significand of at most 53 bits is not rounded. *)
Lemma round_units_exact q u :
  0 < q < 2 ^ 53 → -1074 <= u <= 0 → round_ratio q (2 ^ (- u)) = norm q u.
Proof.
  intros Hq Hu. assert (0 < 2 ^ (- u)) by (apply Z.pow_pos_nonneg; lia).
  assert (HE : ratio_exponent q (2 ^ (- u)) <= 52 + u).
  { unfold ratio_exponent. rewrite Z.log2_pow2 by lia.
    assert (Z.log2 q < 53) by (apply Z.log2_lt_pow2; lia). case_match; lia. }
  destruct (round_ratio_units q (2 ^ (- u)) q) as [Hv ->]; [lia|lia|nia|lia|].
  set (v := ratio_ulp q (2 ^ (- u))) in *. assert (Hvu : v <= u) by (unfold v, ratio_ulp; lia).
  replace (- v) with ((u - v) + (- u)) by lia. rewrite Z.pow_add_r, Z.mul_assoc, round_half_even_exact by lia.
  apply norm_shift; lia.
Qed.

(** A double: rounding its value changes nothing. *)
Definition double (x : num) : Prop :=
  match x with Fin m e => e <= 0 ∧ round_ratio m (2 ^ (- e)) = x | _ => False end.

Lemma norm_0 u : u <= 0 → norm 0 u = Fin 0 0.
Proof.
  intros Hu. unfold norm. destruct (0 <=? u); [done|].
  generalize (Z.to_nat (- u)). intros k. by induction k.
Qed.

Lemma norm_double q u : 0 <= q < 2 ^ 53 → -1074 <= u <= 0 → double (norm q u).
Proof.
  intros Hq Hu. destruct (norm_value q u) as (m & e & E & He & Hm); [lia|]. rewrite E. cbn. split; [lia|].
  destruct (Z.eq_dec q 0) as [->|Hq0].
  { rewrite norm_0 in E by lia. by injection E as <- <-. }
  rewrite <-E, <-(round_units_exact q u) by lia.
  assert (0 < 2 ^ (e - u)) by (apply Z.pow_pos_nonneg; lia).
  assert (0 < m) by nia. assert (m <= q) by nia.
  assert (0 < 2 ^ (- e)) by (apply Z.pow_pos_nonneg; lia).
  apply round_ratio_scale with m; [lia..|apply Z.pow_pos_nonneg; lia| |nia|lia].
  rewrite Hm. replace (- u) with ((e - u) + - e) by lia. rewrite Z.pow_add_r by lia. ring.
Qed.

Lemma double_exponent x hi :
  double x → between 0 hi x → hi < 2 ^ 53 → match x with Fin _ e => -1074 <= e <= 0 | _ => True end.
Proof.
  destruct x as [| |m e]; cbn; try done. intros [He E] [_ Hm] Hb.
  destruct (Z.eq_dec m 0) as [->|Hm0]; [injection E as <-; lia|].
  assert (0 < 2 ^ (- e)) by (apply Z.pow_pos_nonneg; lia).
  destruct (round_ratio_units m (2 ^ (- e)) hi) as [Hu Eu]; [lia..|]. rewrite E in Eu.
  edestruct norm_value as (m' & e' & En & He' & _); [exact (proj2 Hu)|]. rewrite En in Eu. injection Eu as -> ->. lia.
Qed.

Lemma round_ratio_double n d hi : 0 <= n → 0 < d → n <= hi * d → hi < 2 ^ 53 → double (round_ratio n d).
Proof.
  intros Hn Hd Hle Hb. destruct (Z.eq_dec n 0) as [->|Hn0]; [done|].
  destruct (round_ratio_units n d hi) as [Hu ->]; [lia..|]. set (u := ratio_ulp n d) in *.
  assert (0 < 2 ^ (- u)) by (apply Z.pow_pos_nonneg; lia).
  assert (Hq0 : 0 <= round_half_even (n * 2 ^ (- u)) d) by (apply round_half_even_lower; nia).
  assert (Hq : round_half_even (n * 2 ^ (- u)) d <= 2 ^ 53).
  { apply round_half_even_upper; [lia|]. set (E := ratio_exponent n d). set (K := Z.max 1200 (- E)).
    destruct (ratio_exponent_spec n d K) as [_ U]; [lia..|]. fold E in U.
    assert (HE : E + 1 <= 53 + u) by (unfold u, ratio_ulp, E; lia).
    assert (U' : n * 2 ^ K < d * 2 ^ (53 + u + K)).
    { eapply Z.lt_le_trans; [exact U|]. apply Z.mul_le_mono_nonneg_l; [lia|]. apply Z.pow_le_mono_r; lia. }
    assert (0 < 2 ^ (K + u)) by (apply Z.pow_pos_nonneg; lia).
    replace (2 ^ K) with (2 ^ (- u) * 2 ^ (K + u)) in U' by (rewrite <-Z.pow_add_r by lia; f_equal; lia).
    replace (53 + u + K) with (53 + (K + u)) in U' by lia. rewrite (Z.pow_add_r 2 53 (K + u)) in U' by lia.
    apply Zmult_le_reg_r with (2 ^ (K + u)); [lia|]. lia. }
  destruct (Z.eq_dec (round_half_even (n * 2 ^ (- u)) d) (2 ^ 53)) as [E|]; [|apply norm_double; lia].
  assert (Hu0 : u < 0).
  { destruct (Z_lt_le_dec u 0); [done|exfalso]. replace u with 0 in E by lia.
    assert (round_half_even (n * 2 ^ (- 0)) d <= hi) by (apply round_half_even_upper; cbn; lia). lia. }
  rewrite E.
  replace (2 ^ 53) with (2 ^ 52 * 2 ^ (u + 1 - u)) by (replace (u + 1 - u) with 1 by lia; reflexivity).
  rewrite norm_shift by lia. apply norm_double; lia.
Qed.

(** ** Order and arithmetic *)

Lemma num_leb_trans l h x y z :
  between l h y → num_leb x y = true → num_leb y z = true → num_leb x z = true.
Proof.
  destruct x as [|[]|m e], y as [|[]|m' e'], z as [|[]|m'' e'']; cbn; try done.
  rewrite !Z.leb_le. intros [He' _] A B.
  assert (0 <= 2 ^ (- e)) by (apply Z.pow_nonneg; lia). assert (0 <= 2 ^ (- e'')) by (apply Z.pow_nonneg; lia).
  assert (0 < 2 ^ (- e')) by (apply Z.pow_pos_nonneg; lia).
  apply (Zmult_le_reg_r _ _ (2 ^ (- e'))); [lia|]. nia.
Qed.

Lemma num_mul_mono a b x y x' y' :
  between 0 a x' → between 0 b y' → a * b < 2 ^ 53 → between 0 a x → between 0 b y →
  num_leb x x' = true → num_leb y y' = true → num_leb (num_mul x y) (num_mul x' y') = true.
Proof.
  destruct x as [| |m e], y as [| |n f], x' as [| |m' e'], y' as [| |n' f']; cbn [between]; try done.
  intros [He' Hm'] [Hf' Hn'] Hab [He Hm] [Hf Hn]. cbn [num_leb num_mul]. rewrite !Z.leb_le. intros Hx Hy.
  assert (P : ∀ k, k <= 0 → 0 < 2 ^ (- k)) by (intros; apply Z.pow_pos_nonneg; lia).
  pose proof (P e He). pose proof (P e' He'). pose proof (P f Hf). pose proof (P f' Hf').
  apply round_ratio_mono with (a * b); [nia|nia|nia| |nia|lia].
  assert (m * 2 ^ (- e') * (n * 2 ^ (- f')) <= m' * 2 ^ (- e) * (n' * 2 ^ (- f))) by nia. nia.
Qed.

Lemma num_mul_1 x : double x → num_mul x (Fin 1 0) = x.
Proof. destruct x as [| |m e]; cbn; try done. intros [He E]. by rewrite !Z.mul_1_r. Qed.

Lemma num_leb_refl x : is_nan x = false → num_leb x x = true.
Proof. destruct x as [|[]|m e]; cbn; try done. intros _. apply Z.leb_refl. Qed.

(** Multiplying by at least one does not make a double smaller. *)
Lemma num_mul_grows a b x y :
  double x → between 0 a x → between 1 b y → a * b < 2 ^ 53 → num_leb x (num_mul x y) = true.
Proof.
  intros Dx Bx By Hab. rewrite <-(num_mul_1 x Dx) at 1.
  destruct x as [| |m e], y as [| |n f]; try done.
  assert (P : ∀ k, k <= 0 → 0 < 2 ^ (- k)) by (intros; apply Z.pow_pos_nonneg; lia).
  cbn in Bx, By. pose proof (P f (proj1 By)). pose proof (P e (proj1 Bx)). assert (1 <= b) by nia.
  apply num_mul_mono with a b; [done| |lia|done|cbn; nia|by apply num_leb_refl|]; cbn; [nia|].
  apply Z.leb_le. lia.
Qed.

Lemma num_add_mono a b x y x' y' :
  between 0 a x' → between 0 b y' → a + b < 2 ^ 53 → between 0 a x → between 0 b y →
  num_leb x x' = true → num_leb y y' = true → num_leb (num_add x y) (num_add x' y') = true.
Proof.
  destruct x as [| |m e], y as [| |n f], x' as [| |m' e'], y' as [| |n' f']; cbn [between]; try done.
  intros [He' Hm'] [Hf' Hn'] Hab [He Hm] [Hf Hn]. cbn [num_leb num_add]. rewrite !Z.leb_le. intros Hx Hy.
  assert (P : ∀ k, k <= 0 → 0 < 2 ^ (- k)) by (intros; apply Z.pow_pos_nonneg; lia).
  pose proof (P e He). pose proof (P e' He'). pose proof (P f Hf). pose proof (P f' Hf').
  assert (A1 : m * 2 ^ (- e') * (2 ^ (- f) * 2 ^ (- f')) <= m' * 2 ^ (- e) * (2 ^ (- f) * 2 ^ (- f')))
    by (apply Z.mul_le_mono_nonneg_r; nia).
  assert (A2 : n * 2 ^ (- f') * (2 ^ (- e) * 2 ^ (- e')) <= n' * 2 ^ (- f) * (2 ^ (- e) * 2 ^ (- e')))
    by (apply Z.mul_le_mono_nonneg_r; nia).
  apply round_ratio_mono with (a + b); [nia|nia|nia|lia| |lia].
  assert (B1 : m' * 2 ^ (- f') <= a * 2 ^ (- e') * 2 ^ (- f')) by (apply Z.mul_le_mono_nonneg_r; lia).
  assert (B2 : n' * 2 ^ (- e') <= b * 2 ^ (- f') * 2 ^ (- e')) by (apply Z.mul_le_mono_nonneg_r; lia). lia.
Qed.

Lemma num_div_between a c x : between 0 (a * c) x → 0 <= a < 2 ^ 53 → 0 < c → between 0 a (num_div x (Fin c 0)).
Proof.
  destruct x as [| |m e]; try done. cbn [between num_div]. intros [He Hm] Ha Hc.
  rewrite (proj2 (Z.eqb_neq c 0)), Z.sgn_pos, Z.abs_eq by lia. change (2 ^ (- 0)) with 1.
  assert (0 < 2 ^ (- e)) by (apply Z.pow_pos_nonneg; lia). apply round_ratio_between; nia.
Qed.

Lemma num_div_double a c x : between 0 (a * c) x → 0 <= a < 2 ^ 53 → 0 < c → double (num_div x (Fin c 0)).
Proof.
  destruct x as [| |m e]; try done. cbn [between num_div]. intros [He Hm] Ha Hc.
  rewrite (proj2 (Z.eqb_neq c 0)), Z.sgn_pos, Z.abs_eq by lia. change (2 ^ (- 0)) with 1.
  assert (0 < 2 ^ (- e)) by (apply Z.pow_pos_nonneg; lia). apply (round_ratio_double _ _ a); nia.
Qed.

Lemma between_weaken lo hi lo' hi' x : lo' <= lo → hi <= hi' → between lo hi x → between lo' hi' x.
Proof.
  destruct x as [| |m e]; try done. cbn. intros H1 H2 [He Hm]. split; [done|].
  assert (0 < 2 ^ (- e)) by (apply Z.pow_pos_nonneg; lia). nia.
Qed.

(** Every number has the canonical exponent sign. *)
Lemma norm_exponent q u : match norm q u with Fin _ e => e <= 0 | _ => True end.
Proof.
  unfold norm. destruct (0 <=? u); [lia|]. generalize (Z.to_nat (- u)). intros k. revert q.
  induction k as [|k IH]; intros q; cbn [strip]; [lia|]. destruct (Z.even q); [apply IH|lia].
Qed.

Lemma round_ratio_exponent n d : match round_ratio n d with Fin _ e => e <= 0 | _ => True end.
Proof. unfold round_ratio. destruct (n =? 0); [lia|]. destruct (1024 <=? _); [done|apply norm_exponent]. Qed.

Lemma parseFloat_exponent s : match parseFloat s with Fin _ e => e <= 0 | _ => True end.
Proof.
  assert (D : ∀ b m e, match dec_value b m e with Fin _ e => e <= 0 | _ => True end).
  { intros b m e. unfold dec_value. destruct (0 <=? e); apply round_ratio_exponent. }
  unfold parseFloat. destruct (parse_decimal (trim_start s)) as [[v r]|] eqn:E; [|done].
  unfold parse_decimal in E. destruct (take_sign _) as [neg s1].
  destruct (starts_with _ _); [by injection E as <- _|].
  destruct (span _ _) as [ip s2]. destruct (take_fraction _ _) as [fp s3]. destruct (ip ++ fp); [done|].
  destruct (take_exponent _) as [z s4]. injection E as <- _. apply D.
Qed.

(** ** Short decimals *)

Lemma fixed_units_mono f m e m' e' :
  e <= 0 → e' <= 0 → num_leb (Fin m e) (Fin m' e') = true → fixed_units f m e <= fixed_units f m' e'.
Proof.
  intros He He'. cbn. rewrite Z.leb_le. intros Hle. unfold fixed_units.
  assert (A : 0 < 2 ^ (- e)) by (apply Z.pow_pos_nonneg; lia).
  assert (B : 0 < 2 ^ (- e')) by (apply Z.pow_pos_nonneg; lia).
  assert (0 < 10 ^ Z.of_nat f) by (apply Z.pow_pos_nonneg; lia).
  rewrite <-(Z.div_mul_cancel_r _ _ (2 ^ (- e'))) by lia.
  rewrite <-(Z.div_mul_cancel_r (2 * m' * _ + _) _ (2 ^ (- e))) by lia.
  replace (2 * 2 ^ (- e') * 2 ^ (- e)) with (2 * 2 ^ (- e) * 2 ^ (- e')) by ring.
  apply Z.div_le_mono; nia.
Qed.

Lemma fixed_units_norm f q u m e :
  u <= 0 → norm q u = Fin m e → fixed_units f m e = (2 * q * 10 ^ Z.of_nat f + 2 ^ (- u)) / (2 * 2 ^ (- u)).
Proof.
  intros Hu Hn. destruct (norm_value q u Hu) as (m' & e' & E & He & ->).
  rewrite Hn in E. injection E as <- <-. unfold fixed_units.
  replace (- u) with ((e - u) + - e) by lia. rewrite Z.pow_add_r by lia.
  assert (0 < 2 ^ (e - u)) by (apply Z.pow_pos_nonneg; lia).
  assert (0 < 2 ^ (- e)) by (apply Z.pow_pos_nonneg; lia).
  rewrite <-(Z.div_mul_cancel_r (2 * m * _ + _) _ (2 ^ (e - u))) by lia. f_equal; ring.
Qed.

(** Reading a decimal of [f] places as a number and printing it with [f] places gives the
    same units back, up to 52 bits. *)
Lemma fixed_units_round f k m e :
  0 <= k < 2 ^ 52 → (f <= 100)%nat → round_ratio k (10 ^ Z.of_nat f) = Fin m e → fixed_units f m e = k.
Proof.
  intros Hk Hf. set (d := 10 ^ Z.of_nat f). assert (Hd : 0 < d) by (apply Z.pow_pos_nonneg; lia).
  destruct (Z.eq_dec k 0) as [->|Hk0].
  { intros [= <- <-]. reflexivity. }
  destruct (round_ratio_units k d k) as [Hu ->]; [lia|lia|nia|lia|]. set (u := ratio_ulp k d) in *.
  set (q := round_half_even (k * 2 ^ (- u)) d). intros E. rewrite (fixed_units_norm f _ _ _ _ (proj2 Hu) E).
  pose proof (round_half_even_error (k * 2 ^ (- u)) d Hd) as Err. fold q in Err.
  assert (Hdu : d < 2 ^ (- u)).
  { set (X := ratio_exponent k d). set (K := Z.max 1200 (- X)).
    destruct (ratio_exponent_spec k d K) as [L _]; [lia..|]. fold X in L.
    destruct (Z_le_gt_dec (X - 52) (-1074)).
    - replace u with (-1074) by (unfold u, ratio_ulp, X in *; lia). unfold d.
      apply Z.le_lt_trans with (10 ^ 100); [apply Z.pow_le_mono_r; lia|]. by vm_compute.
    - assert (HX : X = u + 52) by (unfold u, ratio_ulp, X in *; lia).
      assert (0 < 2 ^ (K + u)) by (apply Z.pow_pos_nonneg; lia).
      replace (X + K) with (52 + (K + u)) in L by lia. rewrite (Z.pow_add_r 2 52 (K + u)) in L by lia.
      replace (2 ^ K) with (2 ^ (- u) * 2 ^ (K + u)) in L by (rewrite <-Z.pow_add_r by lia; f_equal; lia).
      assert (d * 2 ^ 52 <= k * 2 ^ (- u)) by (apply Zmult_le_reg_r with (2 ^ (K + u)); lia).
      assert (0 < 2 ^ (- u)) by (apply Z.pow_pos_nonneg; lia). nia. }
  fold d. symmetry. apply Z.div_unique with (2 * (q * d - k * 2 ^ (- u)) + 2 ^ (- u)); lia.
Qed.

Lemma parse_decimal_point ip fp :
  Forall (λ c, is_digit c = true) ip → Forall (λ c, is_digit c = true) fp → ip ≠ [] →
  parse_decimal (ip ++ 46%N :: fp) = Some (dec_value false (digits_val 0 (ip ++ fp)) (- Z.of_nat (length fp)), []).
Proof.
  intros Hi Hf Hne. destruct (digits_unsigned ip (46%N :: fp) Hi Hne) as [E1 E2].
  unfold parse_decimal. rewrite E1, E2.
  rewrite (span_app is_digit ip fp 46) by (by apply digits_forallb || done).
  destruct ip as [|c t]; [done|].
  cbn [take_fraction]. rewrite (span_all is_digit fp) by (by apply digits_forallb).
  cbn [app take_exponent]. f_equal.
Qed.

Lemma Number_point ip fp :
  Forall (λ c, is_digit c = true) ip → Forall (λ c, is_digit c = true) fp → ip ≠ [] → fp ≠ [] →
  Number (ip ++ 46%N :: fp) = dec_value false (digits_val 0 (ip ++ fp)) (- Z.of_nat (length fp)).
Proof.
  intros Hi Hf Hne Hfe. unfold Number.
  assert (Ht : trim (ip ++ 46%N :: fp) = ip ++ 46%N :: fp).
  { apply trim_id_forall. apply Forall_app. split; [eapply Forall_impl; [exact Hi|apply is_digit_not_ws]|].
    constructor; [done|]. eapply Forall_impl; [exact Hf|apply is_digit_not_ws]. }
  rewrite Ht, parse_decimal_point by done.
  destruct ip as [|c [|c' t]]; [done| |]; cbn [app].
  - change ((46 =? 120) || (46 =? 88))%N with false. change ((46 =? 111) || (46 =? 79))%N with false.
    change ((46 =? 98) || (46 =? 66))%N with false. cbn [app]. by repeat case_match.
  - apply Forall_cons in Hi as [_ Hi]. pose proof (digit_head _ c' t Hi eq_refl) as Hc'.
    repeat match goal with
    | |- context [(c' =? ?b)%N] => destruct (N.eqb_spec c' b); [lia|]
    end. cbn [orb app]. by repeat case_match.
Qed.

Lemma digits_val_zeros k s : digits_val 0 (replicate k 48%N ++ s) = digits_val 0 s.
Proof. induction k as [|k IH]; [done|]. exact IH. Qed.

(** What a printed decimal is read as. *)
Lemma Number_fixed_text f n :
  0 <= n → f ≠ 0%nat → Number (fixed_text f n) = round_ratio n (10 ^ Z.of_nat f).
Proof.
  intros Hn Hf. unfold fixed_text. set (ds := pad_start (S f) 48 (Z_to_str n)).
  assert (Ez : Z_to_str n = N_to_str (Z.to_N n)) by (unfold Z_to_str; by destruct n).
  assert (Hd : Forall (λ c, is_digit c = true) ds).
  { unfold ds, pad_start. apply Forall_app. split; [by apply Forall_replicate|]. rewrite Ez. apply N_to_str_digits. }
  assert (Hl : (S f <= length ds)%nat).
  { unfold ds, pad_start. rewrite length_app, length_replicate. lia. }
  assert (Hs : length (slice_last f ds) = f) by (unfold slice_last; rewrite length_drop; lia).
  destruct f as [|f]; [done|].
  transitivity (Number (take (length ds - S f) ds ++ 46%N :: slice_last (S f) ds)); [done|].
  rewrite Number_point.
  - rewrite Hs. unfold slice_last. rewrite take_drop. unfold ds, pad_start. rewrite digits_val_zeros, Ez, N_to_str_val.
    unfold dec_value. rewrite (proj2 (Z.leb_gt 0 _)) by lia. rewrite Z2N.id, Z.opp_involutive by lia. done.
  - by apply Forall_take.
  - by apply Forall_drop.
  - intros E. apply (f_equal length) in E. rewrite length_take in E. cbn in *. lia.
  - intros E. rewrite E in Hs. done.
Qed.

(** [Number(x.toFixed(f))]: the double nearest to a whole number of units. *)
Lemma Number_to_fixed f m e :
  e <= 0 → 0 <= m → m < 10 ^ 21 * 2 ^ (- e) → f ≠ 0%nat →
  Number (num_to_fixed f (Fin m e)) = round_ratio (fixed_units f m e) (10 ^ Z.of_nat f).
Proof.
  intros He Hm Hb Hf. unfold num_to_fixed. rewrite Z.abs_eq by lia.
  rewrite (proj2 (Z.leb_gt _ _)), (proj2 (Z.ltb_ge m 0)) by lia. cbn [app].
  apply Number_fixed_text; [|done]. apply Z.div_pos; [|assert (0 < 2 ^ (- e)) by (apply Z.pow_pos_nonneg; lia); lia].
  assert (0 < 2 ^ (- e)) by (apply Z.pow_pos_nonneg; lia).
  assert (0 < 10 ^ Z.of_nat f) by (apply Z.pow_pos_nonneg; lia). nia.
Qed.

(** ** Rounding to an integer *)

(** [Math.round(x)]: the nearest integer, ties upwards. *)
Definition num_round (x : num) : num :=
  match x with Fin m e => Fin (fixed_units 0 m e) 0 | _ => x end.

(** The error of a rounded quotient below [2^s] is at most [2^(s-54)]. *)
Lemma round_ratio_error s n d :
  0 <= s <= 52 → 0 < n → 0 < d → n < 2 ^ s * d →
  ∃ m e, round_ratio n d = Fin m e ∧ e <= 0 ∧ 0 <= m ∧ Z.abs (m * d - n * 2 ^ (- e)) * 2 ^ (54 - s) <= d * 2 ^ (- e).
Proof.
  intros Hs Hn Hd Hlt. assert (2 ^ s < 2 ^ 53) by (apply Z.pow_lt_mono_r; lia).
  destruct (round_ratio_units n d (2 ^ s)) as [Hu ->]; [lia..|]. set (u := ratio_ulp n d) in *.
  set (q := round_half_even (n * 2 ^ (- u)) d).
  assert (E : ratio_exponent n d < s).
  { set (X := ratio_exponent n d). set (K := Z.max 0 (- X)).
    destruct (ratio_exponent_spec n d K) as [L _]; [lia..|]. fold X in L.
    assert (0 < 2 ^ K) by (apply Z.pow_pos_nonneg; lia).
    assert (d * 2 ^ (X + K) < d * (2 ^ s * 2 ^ K)) as L' by nia. rewrite <-Z.pow_add_r in L' by lia.
    assert (2 ^ (X + K) < 2 ^ (s + K)) as L2 by nia. apply Z.pow_lt_mono_r_iff in L2; lia. }
  assert (Hus : u <= s - 53) by (unfold u, ratio_ulp in *; lia).
  pose proof (round_half_even_error (n * 2 ^ (- u)) d Hd) as Err. fold q in Err.
  assert (0 < 2 ^ (- u)) by (apply Z.pow_pos_nonneg; lia).
  assert (0 <= q) by (apply round_half_even_lower; nia).
  destruct (norm_value q u) as (m & e & En & He & Hq); [lia|]. exists m, e. split; [done|]. split; [lia|].
  assert (P1 : 0 < 2 ^ (e - u)) by (apply Z.pow_pos_nonneg; lia). assert (P2 : 0 < 2 ^ (- e)) by (apply Z.pow_pos_nonneg; lia).
  split; [nia|]. rewrite Hq in Err. replace (- u) with ((e - u) + - e) in Err by lia. rewrite Z.pow_add_r in Err by lia.
  set (D := Z.abs (m * d - n * 2 ^ (- e))).
  assert (Err' : 2 * 2 ^ (e - u) * D <= d).
  { unfold D. replace (2 * (m * 2 ^ (e - u) * d - n * (2 ^ (e - u) * 2 ^ (- e)))) with
      ((2 * 2 ^ (e - u)) * (m * d - n * 2 ^ (- e))) in Err by ring. rewrite Z.abs_mul, (Z.abs_eq (2 * _)) in Err by lia. exact Err. }
  assert (2 ^ (54 - s) <= 2 * 2 ^ (e - u) * 2 ^ (- e)).
  { rewrite <-Z.mul_assoc, <-Z.pow_add_r, <-Z.pow_succ_r by lia. apply Z.pow_le_mono_r; lia. }
  assert (0 <= D) by (unfold D; lia). nia.
Qed.

(** A finite value within half of [k] rounds to [k]. *)
Lemma num_round_near m e k : e <= 0 → 2 * Z.abs (m - k * 2 ^ (- e)) < 2 ^ (- e) → num_round (Fin m e) = Fin k 0.
Proof.
  intros He Hk. unfold num_round, fixed_units. f_equal. assert (0 < 2 ^ (- e)) by (apply Z.pow_pos_nonneg; lia).
  change (10 ^ Z.of_nat 0) with 1. symmetry. apply Z.div_unique with (2 * (m - k * 2 ^ (- e)) + 2 ^ (- e)); lia.
Qed.

(** A decimal of [f] places, read and printed with [f] places. *)
(** Half of a count below [2^53] is exact. *)
Lemma half_exact n c : 0 < n < 2 ^ 53 → num_ltb (num_div (Fin n 0) (num_of_Z 2)) (Fin c 0) = (n <? 2 * c).
Proof.
  intros Hn. assert (num_of_Z 2 = Fin 2 0) as -> by (vm_compute; reflexivity).
  assert (num_div (Fin n 0) (Fin 2 0) = norm n (-1)) as ->.
  { unfold num_div. change (2 =? 0) with false. change (2 ^ (- 0)) with 1. change (Z.sgn 2) with 1. change (Z.abs 2) with 2.
    rewrite !Z.mul_1_r, Z.mul_1_l. apply (round_units_exact n (-1)); lia. }
  unfold norm. change (0 <=? -1) with false. change (Z.to_nat (- -1)) with 1%nat. cbn [strip].
  destruct (Z.even n) eqn:E; unfold num_ltb; change (2 ^ (- 0)) with 1.
  - apply Z.even_spec in E as [h ->]. rewrite (Z.mul_comm 2 h), Z.div_mul by lia. change (2 ^ (- - Z.of_nat 0)) with 1. lia.
  - change (2 ^ (- - Z.of_nat 1)) with 2. lia.
Qed.

(** Rounding the quotient of two counts does not change its integer part. *)
Lemma floor_div n k : 0 <= n < 2 ^ 52 → 0 < k < 2 ^ 52 → num_floor (num_div (Fin n 0) (Fin k 0)) = Fin (n / k) 0.
Proof.
  intros Hn Hk. assert (num_div (Fin n 0) (Fin k 0) = round_ratio n k) as ->.
  { unfold num_div. rewrite (proj2 (Z.eqb_neq k 0)) by lia. change (2 ^ (- 0)) with 1.
    by rewrite Z.sgn_pos, Z.abs_eq, !Z.mul_1_r, Z.mul_1_l by lia. }
  destruct (Z.eq_dec n 0) as [->|Hn0]; [done|].
  destruct (round_ratio_units n k n) as (Hu & E); [lia|lia|nia|lia|].
  rewrite E, num_floor_norm by lia. set (u := ratio_ulp n k) in *. f_equal.
  assert (P : 0 < 2 ^ (- u)) by (apply Z.pow_pos_nonneg; lia).
  assert (Hku : k <= 2 ^ (- u)).
  { destruct (Z_le_gt_dec 0 (ratio_exponent n k)) as [HE|HE].
    - destruct (ratio_exponent_spec n k 0) as [L _]; [lia..|]. rewrite Z.add_0_r, Z.mul_1_r in L.
      assert (u = ratio_exponent n k - 52) as Eu by (unfold u, ratio_ulp; lia).
      set (x := ratio_exponent n k) in *. assert (0 < 2 ^ x) by (apply Z.pow_pos_nonneg; lia).
      assert (E52 : 2 ^ 52 = 2 ^ (- u) * 2 ^ x) by (rewrite <-Z.pow_add_r by lia; f_equal; lia). nia.
    - apply Z.le_trans with (2 ^ 52); [lia|]. apply Z.pow_le_mono_r; [lia|]. unfold u, ratio_ulp in *. lia. }
  pose proof (Z.div_mod n k ltac:(lia)) as D. pose proof (Z.mod_pos_bound n k ltac:(lia)) as B.
  symmetry. set (q := n / k) in *. set (r := round_half_even _ _).
  assert (L : q * 2 ^ (- u) <= r) by (apply round_half_even_lower; nia).
  assert (U : r < (q + 1) * 2 ^ (- u)).
  { apply round_half_even_strict; [lia|]. assert (k <= 2 ^ (- u) * (k * (q + 1) - n)) by nia. nia. }
  apply Z.div_unique with (r - q * 2 ^ (- u)); lia.
Qed.

(** A count divided by itself. *)
Lemma num_div_self t : 0 < t → num_div (Fin t 0) (Fin t 0) = Fin 1 0.
Proof.
  intros Ht. unfold num_div. rewrite (proj2 (Z.eqb_neq t 0)) by lia. change (2 ^ (- 0)) with 1.
  rewrite Z.sgn_pos, Z.abs_eq by lia. transitivity (round_ratio 1 1); [|by vm_compute]. apply round_ratio_scale with 1; lia.
Qed.

Lemma to_fixed_decimal f k : 0 <= k < 2 ^ 52 → (f <= 100)%nat → num_to_fixed f (round_ratio k (10 ^ Z.of_nat f)) = fixed_text f k.
Proof.
  intros Hk Hf. assert (0 < 10 ^ Z.of_nat f) by (apply Z.pow_pos_nonneg; lia).
  pose proof (round_ratio_between 0 k k (10 ^ Z.of_nat f)) as B.
  destruct (round_ratio k (10 ^ Z.of_nat f)) as [|b|m e] eqn:E; [by destruct B; nia..|]. destruct B as [He Hm]; [nia..|].
  unfold num_to_fixed. assert (0 < 2 ^ (- e)) by (apply Z.pow_pos_nonneg; lia). rewrite Z.abs_eq by lia.
  rewrite (proj2 (Z.leb_gt _ _)), (proj2 (Z.ltb_ge m 0)) by nia. cbn [app]. f_equal. by apply fixed_units_round.
Qed.

Lemma round_ratio_not_nan n d : is_nan (round_ratio n d) = false.
Proof.
  unfold round_ratio. destruct (n =? 0); [done|]. destruct (1024 <=? _); [done|]. unfold norm.
  destruct (0 <=? _); [done|]. match goal with |- is_nan (strip ?k ?m) = _ => by destruct (strip_fin k m) as (? & ? & ->) end.
Qed.
