(* ===== verification/Base64.v ===== *)
(** * Base64 of the browser

    [btoa] on binary strings, and the decoder it is inverted by. *)

From S2P Require Import Prelude JsString.
Local Open Scope N_scope.

Definition b64_char (n : N) : N :=
  if n <? 26 then 65 + n else if n <? 52 then 71 + n else if n <? 62 then n - 4
  else if n =? 62 then 43 else 47.

Definition b64_pad : N := 61.

Fixpoint b64_encode (s : list N) : str :=
  match s with
  | a :: b :: c :: r =>
      [b64_char (a / 4); b64_char (a mod 4 * 16 + b / 16); b64_char (b mod 16 * 4 + c / 64); b64_char (c mod 64)]
        ++ b64_encode r
  | [a; b] => [b64_char (a / 4); b64_char (a mod 4 * 16 + b / 16); b64_char (b mod 16 * 4); b64_pad]
  | [a] => [b64_char (a / 4); b64_char (a mod 4 * 16); b64_pad; b64_pad]
  | [] => []
  end.

Definition invalid_character : js_error := new_error (js "InvalidCharacterError").

(** [btoa(s)]: throws on a unit above 255. *)
Definition btoa (s : str) : res str :=
  if forallb (λ c, c <? 256) s then Ok (b64_encode s) else Throw invalid_character.

(** ** Decoding *)

Definition b64_val (c : N) : option N :=
  if (65 <=? c) && (c <=? 90) then Some (c - 65)
  else if (97 <=? c) && (c <=? 122) then Some (c - 71)
  else if (48 <=? c) && (c <=? 57) then Some (c + 4)
  else if c =? 43 then Some 62 else if c =? 47 then Some 63 else None.

Fixpoint b64_decode (s : str) : option (list N) :=
  match s with
  | [] => Some []
  | c1 :: c2 :: c3 :: c4 :: r =>
      v1 ← b64_val c1; v2 ← b64_val c2;
      if c4 =? b64_pad then
        match r with
        | [] =>
            if c3 =? b64_pad then Some [v1 * 4 + v2 / 16]
            else v3 ← b64_val c3; Some [v1 * 4 + v2 / 16; v2 mod 16 * 16 + v3 / 4]
        | _ => None
        end
      else
        v3 ← b64_val c3; v4 ← b64_val c4; t ← b64_decode r;
        Some (v1 * 4 + v2 / 16 :: v2 mod 16 * 16 + v3 / 4 :: v3 mod 4 * 64 + v4 :: t)
  | _ => None
  end.

Lemma b64_val_char n : n < 64 → b64_val (b64_char n) = Some n ∧ b64_char n ≠ 61.
Proof.
  intros Hn. rewrite <-(N2Nat.id n). assert (Hn' : (N.to_nat n < 64)%nat) by lia.
  generalize dependent (N.to_nat n). clear. intros k Hk.
  do 64 (destruct k as [|k]; [by vm_compute|]). lia.
Qed.

#[local] Ltac Zify.zify_post_hook ::= Z.to_euclidean_division_equations.

Lemma split16 q r : r < 16 → (q * 16 + r) / 16 = q ∧ (q * 16 + r) mod 16 = r.
Proof. lia. Qed.
Lemma split4 q r : r < 4 → (q * 4 + r) / 4 = q ∧ (q * 4 + r) mod 4 = r.
Proof. lia. Qed.
Lemma join4 a : a / 4 * 4 + a mod 4 = a.
Proof. lia. Qed.
Lemma join16 a : a / 16 * 16 + a mod 16 = a.
Proof. lia. Qed.
Lemma join64 a : a / 64 * 64 + a mod 64 = a.
Proof. lia. Qed.

Lemma byte_parts x : x < 256 → x / 4 < 64 ∧ x mod 4 < 4 ∧ x / 16 < 16 ∧ x mod 16 < 16 ∧ x / 64 < 4 ∧ x mod 64 < 64.
Proof. lia. Qed.

#[local] Ltac Zify.zify_post_hook ::= idtac.

Lemma b64_decode_encode s : Forall (λ c, c < 256) s → b64_decode (b64_encode s) = Some s.
Proof.
  assert (V : ∀ x, x < 64 → b64_val (b64_char x) = Some x) by (intros; by apply b64_val_char).
  assert (P : ∀ x, x < 64 → (b64_char x =? b64_pad) = false) by (intros; apply N.eqb_neq; by apply b64_val_char).
  remember (length s) as n eqn:E. revert s E. induction n as [n IH] using lt_wf_ind. intros s -> Hs.
  destruct s as [|a [|b [|c r]]]; [done|..].
  - apply Forall_cons in Hs as [Ha _]. pose proof (byte_parts a Ha). cbn [b64_encode b64_decode].
    rewrite !V by lia. cbn [mbind option_bind]. by rewrite N.div_mul, join4.
  - apply Forall_cons in Hs as [Ha [Hb _]%Forall_cons]. pose proof (byte_parts a Ha). pose proof (byte_parts b Hb).
    cbn [b64_encode b64_decode]. rewrite !V, P by lia. cbn [mbind option_bind].
    destruct (split16 (a mod 4) (b / 16)) as [-> ->]; [lia|].
    rewrite N.div_mul, join4, (N.mul_comm (b / 16)), (N.mul_comm 16), join16 by done. done.
  - apply Forall_cons in Hs as [Ha [Hb [Hc Hr]%Forall_cons]%Forall_cons].
    pose proof (byte_parts a Ha). pose proof (byte_parts b Hb). pose proof (byte_parts c Hc).
    cbn [b64_encode app b64_decode]. rewrite !V, P by lia.
    rewrite (IH (length r)); [|cbn; lia|done|done]. cbn [mbind option_bind].
    destruct (split16 (a mod 4) (b / 16)) as [-> ->]; [lia|].
    destruct (split4 (b mod 16) (c / 64)) as [-> ->]; [lia|].
    by rewrite join4, join16, join64.
Qed.

(** A text of [btoa] decodes to what was encoded. *)
Lemma btoa_decode s t : btoa s = Ok t → b64_decode t = Some s.
Proof.
  unfold btoa. destruct (forallb _ s) eqn:F; [|done]. intros [= <-]. apply b64_decode_encode.
  rewrite forallb_forall in F. apply Forall_forall. intros c Hc. apply N.ltb_lt, F. by apply list_elem_of_In.
Qed.

Example btoa_demo : btoa (js "{}a") = Ok (js "e31h") ∧ btoa (js "Zaps") = Ok (js "WmFwcw==") ∧ b64_decode (js "WmFwcw==") = Some (js "Zaps").
Proof. vm_compute. repeat split. Qed.
