(* ===== verification/UriCodec.v ===== *)
(** * encodeURIComponent and decodeURIComponent

    Both functions of the language on UTF-16 strings, [None] standing for the
    [URIError] they throw (a lone surrogate when encoding, a malformed escape
    when decoding), and the round trip between them. *)

From S2P Require Import Prelude JsString.
Local Open Scope N_scope.
#[local] Ltac Zify.zify_post_hook ::= Z.to_euclidean_division_equations.

(** The marks and alphanumerics that are never escaped. *)
Definition uri_unreserved (c : N) : bool :=
  is_alpha c || is_digit c ||
  existsb (N.eqb c) [45; 95; 46; 33; 126; 42; 39; 40; 41].

Definition is_high_surrogate (c : N) : bool := (55296 <=? c) && (c <=? 56319).
Definition is_low_surrogate (c : N) : bool := (56320 <=? c) && (c <=? 57343).

Definition surrogate_cp (h l : N) : N := (h - 55296) * 1024 + (l - 56320) + 65536.

Definition utf16 (cp : N) : str :=
  if cp <? 65536 then [cp]
  else [55296 + (cp - 65536) / 1024; 56320 + (cp - 65536) mod 1024].

Definition utf8 (cp : N) : list N :=
  if cp <? 128 then [cp]
  else if cp <? 2048 then [192 + cp / 64; 128 + cp mod 64]
  else if cp <? 65536 then [224 + cp / 4096; 128 + cp / 64 mod 64; 128 + cp mod 64]
  else [240 + cp / 262144; 128 + cp / 4096 mod 64; 128 + cp / 64 mod 64; 128 + cp mod 64].

Definition pct (b : N) : str := [37; hex_upper (b / 16); hex_upper (b mod 16)].

Definition pct_cp (cp : N) : str := concat (pct <$> utf8 cp).

(** [encodeURIComponent(s)] *)
Fixpoint encodeURIComponent (s : str) : option str :=
  match s with
  | [] => Some []
  | c :: s' =>
      if uri_unreserved c then cons c <$> encodeURIComponent s'
      else if is_low_surrogate c then None
      else if is_high_surrogate c then
        match s' with
        | d :: s'' =>
            if is_low_surrogate d
            then app (pct_cp (surrogate_cp c d)) <$> encodeURIComponent s''
            else None
        | [] => None
        end
      else app (pct_cp c) <$> encodeURIComponent s'
  end.

(** One escape [%XX]. *)
Definition take_pct (s : str) : option (N * str) :=
  match s with
  | 37 :: h :: l :: r =>
      match hex_val h, hex_val l with
      | Some a, Some b => Some (16 * a + b, r)
      | _, _ => None
      end
  | _ => None
  end.

(** [k] continuation bytes, accumulated below [cp]. *)
Fixpoint take_continuation (k : nat) (cp : N) (s : str) : option (N * str) :=
  match k with
  | O => Some (cp, s)
  | S k' =>
      match take_pct s with
      | Some (b, r) =>
          if (128 <=? b) && (b <=? 191)
          then take_continuation k' (cp * 64 + (b - 128)) r else None
      | None => None
      end
  end.

(** The escapes of one code point, as UTF-16 units. *)
Definition take_escaped (s : str) : option (str * str) :=
  match take_pct s with
  | None => None
  | Some (b, r) =>
      if b <? 128 then Some ([b], r)
      else if (192 <=? b) && (b <? 224) then
        match take_continuation 1 (b - 192) r with
        | Some (cp, r') => if 128 <=? cp then Some (utf16 cp, r') else None
        | None => None
        end
      else if (224 <=? b) && (b <? 240) then
        match take_continuation 2 (b - 224) r with
        | Some (cp, r') =>
            if (2048 <=? cp) && negb ((55296 <=? cp) && (cp <=? 57343))
            then Some (utf16 cp, r') else None
        | None => None
        end
      else if (240 <=? b) && (b <? 248) then
        match take_continuation 3 (b - 240) r with
        | Some (cp, r') =>
            if (65536 <=? cp) && (cp <=? 1114111) then Some (utf16 cp, r') else None
        | None => None
        end
      else None
  end.

Fixpoint decode_fuel (fuel : nat) (s : str) : option str :=
  match fuel with
  | O => None
  | S fuel' =>
      match s with
      | [] => Some []
      | c :: s' =>
          if c =? 37 then
            match take_escaped s with
            | Some (u, r) => app u <$> decode_fuel fuel' r
            | None => None
            end
          else cons c <$> decode_fuel fuel' s'
      end
  end.

(** [decodeURIComponent(s)]; every iteration consumes a unit, so the length
    of the text bounds their number. *)
Definition decodeURIComponent (s : str) : option str := decode_fuel (S (length s)) s.

(** ** Round trip *)

(** UTF-16: every unit fits in 16 bits. *)
Definition wf_str (s : str) : Prop := Forall (λ c, c < 65536) s.

Lemma hex_val_upper d : d < 16 → hex_val (hex_upper d) = Some d.
Proof.
  intros Hd. unfold hex_upper, hex_val, is_digit.
  destruct (N.ltb_spec d 10).
  - destruct (N.leb_spec 48 (48 + d)), (N.leb_spec (48 + d) 57); try lia. cbn. f_equal. lia.
  - destruct (N.leb_spec 48 (55 + d)), (N.leb_spec (55 + d) 57); try lia. cbn.
    destruct (N.leb_spec 65 (55 + d)), (N.leb_spec (55 + d) 70); try lia. cbn. f_equal. lia.
Qed.

Lemma take_pct_pct b r : b < 256 → take_pct (pct b ++ r) = Some (b, r).
Proof.
  intros Hb. unfold pct. cbn [app take_pct].
  rewrite !hex_val_upper by lia. do 2 f_equal. lia.
Qed.

Lemma take_continuation_step k cp b r :
  b < 64 → take_continuation (S k) cp (pct (128 + b) ++ r) = take_continuation k (cp * 64 + b) r.
Proof.
  intros Hb. cbn [take_continuation]. rewrite take_pct_pct by lia.
  destruct (N.leb_spec 128 (128 + b)), (N.leb_spec (128 + b) 191); try lia. cbn.
  by replace (cp * 64 + (128 + b - 128)) with (cp * 64 + b) by lia.
Qed.

(** Decoding undoes the escapes of a scalar value. *)
Lemma take_escaped_pct_cp cp r :
  cp <= 1114111 → ¬ (55296 <= cp <= 57343) → take_escaped (pct_cp cp ++ r) = Some (utf16 cp, r).
Proof.
  intros Hmax Hsur. unfold pct_cp, utf8, take_escaped.
  destruct (N.ltb_spec cp 128).
  { cbn [fmap list_fmap concat]. rewrite app_nil_r, take_pct_pct by lia.
    destruct (N.ltb_spec cp 128); [|lia]. unfold utf16.
    by destruct (N.ltb_spec cp 65536); [|lia]. }
  destruct (N.ltb_spec cp 2048).
  { cbn [fmap list_fmap concat]. rewrite app_nil_r, <-app_assoc, take_pct_pct by lia.
    set (b := 192 + cp / 64).
    destruct (N.ltb_spec b 128), (N.leb_spec 192 b), (N.ltb_spec b 224); try lia. cbn [andb].
    rewrite take_continuation_step by lia. cbn [take_continuation].
    replace ((b - 192) * 64 + cp mod 64) with cp by lia.
    by destruct (N.leb_spec 128 cp); [|lia]. }
  destruct (N.ltb_spec cp 65536).
  { cbn [fmap list_fmap concat]. rewrite app_nil_r, <-!app_assoc, take_pct_pct by lia.
    set (b := 224 + cp / 4096).
    destruct (N.ltb_spec b 128), (N.leb_spec 192 b), (N.ltb_spec b 224), (N.leb_spec 224 b),
      (N.ltb_spec b 240); try lia. cbn [andb].
    rewrite !take_continuation_step by lia. cbn [take_continuation].
    replace (((b - 224) * 64 + cp / 64 mod 64) * 64 + cp mod 64) with cp by lia.
    destruct (N.leb_spec 2048 cp); [|lia].
    destruct (N.leb_spec 55296 cp), (N.leb_spec cp 57343); try lia; done. }
  cbn [fmap list_fmap concat]. rewrite app_nil_r, <-!app_assoc, take_pct_pct by lia.
  set (b := 240 + cp / 262144).
  destruct (N.ltb_spec b 128), (N.leb_spec 192 b), (N.ltb_spec b 224), (N.leb_spec 224 b),
    (N.ltb_spec b 240), (N.leb_spec 240 b), (N.ltb_spec b 248); try lia. cbn [andb].
  rewrite !take_continuation_step by lia. cbn [take_continuation].
  replace ((((b - 240) * 64 + cp / 4096 mod 64) * 64 + cp / 64 mod 64) * 64 + cp mod 64)
    with cp by lia.
  by destruct (N.leb_spec 65536 cp), (N.leb_spec cp 1114111); try lia.
Qed.

Lemma utf16_surrogate h l :
  is_high_surrogate h = true → is_low_surrogate l = true → utf16 (surrogate_cp h l) = [h; l].
Proof.
  unfold is_high_surrogate, is_low_surrogate, surrogate_cp.
  rewrite !andb_true_iff, !N.leb_le. intros [? ?] [? ?]. unfold utf16.
  destruct (N.ltb_spec ((h - 55296) * 1024 + (l - 56320) + 65536) 65536); [lia|].
  f_equal; [lia|]. f_equal. lia.
Qed.

Lemma pct_cp_head cp : ∃ t, pct_cp cp = 37 :: t ∧ (1 < length (pct_cp cp))%nat.
Proof. unfold pct_cp, utf8. repeat case_match; cbn; eexists; split; (reflexivity || lia). Qed.

Lemma decode_step_escaped fuel cp r :
  cp <= 1114111 → ¬ (55296 <= cp <= 57343) →
  decode_fuel (S fuel) (pct_cp cp ++ r) = app (utf16 cp) <$> decode_fuel fuel r.
Proof.
  intros H1 H2. pose proof (take_escaped_pct_cp cp r H1 H2) as He.
  destruct (pct_cp_head cp) as (t & Et & _). rewrite Et in *. cbn [app decode_fuel] in *.
  by rewrite N.eqb_refl, He.
Qed.

Lemma uri_unreserved_not_pct c : uri_unreserved c = true → c ≠ 37.
Proof. by intros H ->. Qed.

Lemma decode_encode_fuel n : ∀ s e fuel,
  (length s < n)%nat → wf_str s → encodeURIComponent s = Some e → (length e < fuel)%nat →
  decode_fuel fuel e = Some s.
Proof.
  induction n as [|n IH]; [lia|]. intros s e fuel Hn Hwf He Hf.
  destruct fuel as [|fuel]; [lia|]. destruct s as [|c s]; cbn [encodeURIComponent] in He.
  { by simplify_eq/=. }
  apply Forall_cons in Hwf as [Hc Hwf]. cbn [length] in Hn.
  destruct (uri_unreserved c) eqn:Hu.
  { apply fmap_Some in He as (e' & He & ->). cbn [decode_fuel length] in *.
    apply uri_unreserved_not_pct in Hu. destruct (N.eqb_spec c 37); [done|].
    by rewrite (IH s e' fuel) by (done || lia). }
  destruct (is_low_surrogate c) eqn:Hl; [done|].
  destruct (is_high_surrogate c) eqn:Hh.
  - destruct s as [|d s]; [done|]. destruct (is_low_surrogate d) eqn:Hd; [|done].
    apply fmap_Some in He as (e' & He & ->).
    destruct (pct_cp_head (surrogate_cp c d)) as (_ & _ & Hlen).
    rewrite length_app in Hf. apply Forall_cons in Hwf as [_ Hwf]. cbn [length] in Hn.
    pose proof (utf16_surrogate c d Hh Hd) as Hutf.
    unfold is_high_surrogate, is_low_surrogate in Hh, Hd.
    rewrite andb_true_iff, !N.leb_le in Hh, Hd.
    rewrite decode_step_escaped by (unfold surrogate_cp; lia).
    by rewrite Hutf, (IH s e' fuel) by (done || lia).
  - apply fmap_Some in He as (e' & He & ->).
    destruct (pct_cp_head c) as (_ & _ & Hlen). rewrite length_app in Hf.
    unfold is_high_surrogate, is_low_surrogate in Hh, Hl.
    rewrite andb_false_iff, !N.leb_gt in Hh, Hl.
    rewrite decode_step_escaped by lia. unfold utf16.
    destruct (N.ltb_spec c 65536); [|lia].
    by rewrite (IH s e' fuel) by (done || lia).
Qed.

(** Decoding inverts encoding. *)
Lemma decode_encode s e :
  wf_str s → encodeURIComponent s = Some e → decodeURIComponent e = Some s.
Proof.
  intros Hwf He. unfold decodeURIComponent.
  eapply (decode_encode_fuel (S (length s))); eauto.
Qed.
#[export] Hint Resolve decode_encode : zaps.

(** What needs no escape is encoded as it is. *)
Lemma encode_unreserved s : forallb uri_unreserved s = true → encodeURIComponent s = Some s.
Proof.
  induction s as [|c s IH]; [done|]. cbn [forallb encodeURIComponent].
  intros [-> Hs]%andb_true_iff. by rewrite (IH Hs).
Qed.

(** A string of code units outside the surrogate range always encodes. *)
Lemma encode_total s :
  Forall (λ c, c < 55296) s → ∃ e, encodeURIComponent s = Some e.
Proof.
  induction 1 as [|c s Hc Hs [e He]]; cbn [encodeURIComponent]; [eauto|]. rewrite He.
  destruct (uri_unreserved c); [eauto|].
  assert (is_low_surrogate c = false ∧ is_high_surrogate c = false) as [-> ->].
  { unfold is_low_surrogate, is_high_surrogate.
    by destruct (N.leb_spec 56320 c), (N.leb_spec 55296 c); try lia. }
  eauto.
Qed.

(** Encoded text contains only unreserved units and escapes: in particular
    neither ["&"] nor ["="] nor ["?"]. *)
Definition uri_safe (c : N) : bool := uri_unreserved c || (c =? 37).

Lemma pct_safe b : b < 256 → forallb uri_safe (pct b) = true.
Proof.
  intros Hb. assert (Hx : ∀ d, d < 16 → uri_safe (hex_upper d) = true).
  { intros d Hd. unfold hex_upper, uri_safe, uri_unreserved, is_alpha, is_upper, is_lower, is_digit.
    destruct (N.ltb_spec d 10).
    - destruct (N.leb_spec 48 (48 + d)), (N.leb_spec (48 + d) 57); lia.
    - destruct (N.leb_spec 65 (55 + d)), (N.leb_spec (55 + d) 90); lia. }
  unfold pct. cbn [forallb]. by rewrite !Hx by lia.
Qed.

Lemma pct_cp_safe cp : cp <= 1114111 → forallb uri_safe (pct_cp cp) = true.
Proof.
  intros Hcp. unfold pct_cp, utf8.
  repeat case_match; cbn [fmap list_fmap concat]; rewrite ?forallb_app, !pct_safe; try done;
    repeat match goal with H : (_ <? _) = _ |- _ =>
      first [apply N.ltb_lt in H | apply N.ltb_ge in H] end; lia.
Qed.

Lemma encode_safe n : ∀ s e,
  (length s < n)%nat → wf_str s → encodeURIComponent s = Some e → forallb uri_safe e = true.
Proof.
  induction n as [|n IH]; [lia|]. intros s e Hn Hwf He.
  destruct s as [|c s]; cbn [encodeURIComponent] in He; [by simplify_eq/=|].
  apply Forall_cons in Hwf as [Hc Hwf]. cbn [length] in Hn.
  destruct (uri_unreserved c) eqn:Hu.
  { apply fmap_Some in He as (e' & He & ->). cbn [forallb]. unfold uri_safe at 1.
    rewrite Hu. cbn. by apply (IH s); [lia|..]. }
  destruct (is_low_surrogate c) eqn:Hl; [done|].
  destruct (is_high_surrogate c) eqn:Hh.
  - destruct s as [|d s]; [done|]. destruct (is_low_surrogate d) eqn:Hd; [|done].
    apply fmap_Some in He as (e' & He & ->). apply Forall_cons in Hwf as [_ Hwf].
    unfold is_high_surrogate, is_low_surrogate in Hh, Hd.
    rewrite andb_true_iff, !N.leb_le in Hh, Hd. cbn [length] in Hn.
    rewrite forallb_app, pct_cp_safe by (unfold surrogate_cp; lia).
    by apply (IH s); [lia|..].
  - apply fmap_Some in He as (e' & He & ->).
    rewrite forallb_app, pct_cp_safe by lia. by apply (IH s); [lia|..].
Qed.

Lemma encode_free c s e :
  uri_safe c = false → wf_str s → encodeURIComponent s = Some e → c ∉ e.
Proof.
  intros Hc Hwf He Hin. pose proof (encode_safe (S (length s)) s e ltac:(lia) Hwf He) as Hs.
  rewrite forallb_forall in Hs. apply list_elem_of_In in Hin. by rewrite Hs in Hc.
Qed.

Lemma encode_truthy s e : encodeURIComponent s = Some e → truthy s = true → truthy e = true.
Proof.
  destruct s as [|c s]; [done|]. cbn [encodeURIComponent]. intros He _.
  destruct (pct_cp_head c) as (t & Et & _).
  repeat case_match; try done; apply fmap_Some in He as (e' & _ & ->); try done.
  - destruct (pct_cp_head (surrogate_cp c n)) as (t' & -> & _). done.
  - by rewrite Et.
Qed.
