(* ===== verification/FormCodec.v ===== *)
(** * application/x-www-form-urlencoded

    The text form of [URLSearchParams] over pairs with distinct names: [toString], and
    the reading of such a text back into pairs. Lone surrogates become U+FFFD; the
    round trip is for well-paired text. *)

From S2P Require Import Prelude JsString UriCodec.
Local Open Scope N_scope.

(** Units that are written as they are. *)
Definition form_safe (c : N) : bool :=
  is_alpha c || is_digit c || existsb (N.eqb c) [42; 45; 46; 95].

Fixpoint form_encode (s : str) : str :=
  match s with
  | [] => []
  | c :: s' =>
      if form_safe c then c :: form_encode s'
      else if c =? 32 then 43 :: form_encode s'
      else if is_low_surrogate c then pct_cp 65533 ++ form_encode s'
      else if is_high_surrogate c then
        match s' with
        | d :: s'' =>
            if is_low_surrogate d then pct_cp (surrogate_cp c d) ++ form_encode s''
            else pct_cp 65533 ++ form_encode s'
        | [] => pct_cp 65533
        end
      else pct_cp c ++ form_encode s'
  end.

Definition param_text (p : str * str) : str := form_encode p.1 ++ 61 :: form_encode p.2.

(** [params.toString()] *)
Definition params_to_string (ps : list (str * str)) : str := join [38] (param_text <$> ps).

(** ** Reading back *)

Definition plus_to_space (s : str) : str := (λ c, if c =? 43 then 32 else c) <$> s.
Definition form_decode (s : str) : option str := decodeURIComponent (plus_to_space s).

(** One [name=value] piece. *)
Definition parse_param (piece : str) : option (str * str) :=
  let '(k, v) := span (λ c, negb (c =? 61)) piece in
  k' ← form_decode k; v' ← form_decode (drop 1 v); Some (k', v').

Definition parse_params (s : str) : option (list (str * str)) :=
  if truthy s then mapM parse_param (split_on 38 s) else Some [].

(** Surrogates come in pairs. *)
Definition well_paired (s : str) : Prop := wf_str s ∧ is_Some (encodeURIComponent s).

Lemma plus_to_space_app s t : plus_to_space (s ++ t) = plus_to_space s ++ plus_to_space t.
Proof. apply fmap_app. Qed.

Lemma plus_to_space_id s : 43 ∉ s → plus_to_space s = s.
Proof.
  induction s as [|c s IH]; [done|]. intros [Hc Hs]%not_elem_of_cons. cbn.
  destruct (N.eqb_spec c 43); [congruence|]. f_equal. by apply IH.
Qed.

(** The units of encoded text. *)
Definition form_unit (c : N) : bool := form_safe c || (c =? 37) || (c =? 43).

Lemma pct_cp_no_plus cp : cp <= 1114111 → 43 ∉ pct_cp cp.
Proof.
  intros H Hin. pose proof (pct_cp_safe cp H) as Hs. rewrite forallb_forall in Hs.
  apply list_elem_of_In in Hin. by apply Hs in Hin.
Qed.

Lemma hex_upper_safe d : d < 16 → form_safe (hex_upper d) = true.
Proof.
  intros Hd. unfold hex_upper, form_safe, is_alpha, is_upper, is_lower, is_digit.
  destruct (N.ltb_spec d 10).
  - destruct (N.leb_spec 48 (48 + d)), (N.leb_spec (48 + d) 57); cbn; lia.
  - destruct (N.leb_spec 65 (55 + d)), (N.leb_spec (55 + d) 90); cbn; lia.
Qed.

#[local] Ltac Zify.zify_post_hook ::= Z.to_euclidean_division_equations.

Lemma pct_units b : b < 256 → forallb form_unit (pct b) = true.
Proof. intros Hb. unfold pct, form_unit. cbn [forallb]. rewrite !hex_upper_safe by lia. done. Qed.

Lemma pct_cp_units cp : cp <= 1114111 → forallb form_unit (pct_cp cp) = true.
Proof.
  intros Hcp. unfold pct_cp, utf8.
  repeat case_match; cbn [fmap list_fmap concat]; rewrite ?forallb_app, !pct_units; try done;
    repeat match goal with H : (_ <? _) = _ |- _ =>
      first [apply N.ltb_lt in H | apply N.ltb_ge in H] end; lia.
Qed.

Lemma surrogate_cp_bound h l : is_high_surrogate h = true → is_low_surrogate l = true →
  surrogate_cp h l <= 1114111 ∧ 65536 <= surrogate_cp h l.
Proof.
  unfold is_high_surrogate, is_low_surrogate, surrogate_cp.
  rewrite !andb_true_iff, !N.leb_le. lia.
Qed.

Lemma form_encode_units n : ∀ s, (length s < n)%nat → wf_str s → forallb form_unit (form_encode s) = true.
Proof.
  induction n as [|n IH]; [lia|]. intros [|c s] Hn Hwf; [done|].
  apply Forall_cons in Hwf as [Hc Hwf]. cbn [length] in Hn.
  assert (Hs : forallb form_unit (form_encode s) = true) by (apply IH; [lia|done]).
  assert (Hr : forallb form_unit (pct_cp 65533 ++ form_encode s) = true).
  { by rewrite forallb_app, pct_cp_units. }
  cbn [form_encode]. destruct (form_safe c) eqn:Hu.
  { cbn [forallb]. by rewrite Hs; unfold form_unit; rewrite Hu. }
  destruct (c =? 32); [exact Hs|]. destruct (is_low_surrogate c); [exact Hr|].
  destruct (is_high_surrogate c) eqn:Hh.
  - destruct s as [|d s]; [done|]. destruct (is_low_surrogate d) eqn:Hd; [|exact Hr].
    apply Forall_cons in Hwf as [_ Hwf]. cbn [length] in Hn.
    rewrite forallb_app, pct_cp_units by (by apply surrogate_cp_bound).
    apply IH; [lia|done].
  - rewrite forallb_app, pct_cp_units by lia. exact Hs.
Qed.

Lemma form_unit_free c s : form_unit c = false → wf_str s → c ∉ form_encode s.
Proof.
  intros Hc Hwf Hin. pose proof (form_encode_units (S (length s)) s ltac:(lia) Hwf) as Hs.
  rewrite forallb_forall in Hs. apply list_elem_of_In in Hin. by rewrite Hs in Hc.
Qed.

(** ** Round trip *)

Lemma form_safe_plain c : form_safe c = true → c ≠ 37 ∧ c ≠ 43.
Proof. intros H. split; by intros ->. Qed.

Lemma surrogate_not_unreserved c : 55296 <= c → uri_unreserved c = false.
Proof.
  intros H. unfold uri_unreserved, is_alpha, is_upper, is_lower, is_digit.
  cbn. rewrite !(proj2 (N.eqb_neq _ _)) by lia.
  repeat match goal with |- context [?a <=? ?b] => destruct (N.leb_spec a b); try lia end; done.
Qed.

Lemma form_decode_encode_fuel n : ∀ s fuel,
  (length s < n)%nat → well_paired s → (length (form_encode s) < fuel)%nat →
  decode_fuel fuel (plus_to_space (form_encode s)) = Some s.
Proof.
  induction n as [|n IH]; [lia|]. intros s fuel Hn [Hwf He] Hf.
  destruct fuel as [|fuel]; [lia|]. destruct s as [|c s]; [done|].
  apply Forall_cons in Hwf as [Hc Hwf]. cbn [length] in Hn. destruct He as [e He].
  cbn [encodeURIComponent] in He. cbn [form_encode] in *.
  destruct (is_low_surrogate c) eqn:Hl.
  { exfalso. unfold is_low_surrogate in Hl. rewrite andb_true_iff, !N.leb_le in Hl.
    by rewrite surrogate_not_unreserved in He by lia. }
  destruct (is_high_surrogate c) eqn:Hh.
  - unfold is_high_surrogate in Hh. rewrite andb_true_iff, !N.leb_le in Hh.
    rewrite surrogate_not_unreserved in He by lia.
    destruct (form_safe c) eqn:Hu.
    { exfalso. revert Hu. unfold form_safe, is_alpha, is_upper, is_lower, is_digit. cbn.
      rewrite !(proj2 (N.eqb_neq _ _)) by lia.
      repeat match goal with |- context [?a <=? ?b] => destruct (N.leb_spec a b); try lia end; done. }
    destruct (N.eqb_spec c 32); [lia|].
    destruct s as [|d s]; [done|]. destruct (is_low_surrogate d) eqn:Hd; [|done].
    apply fmap_Some in He as (e' & He & ->). apply Forall_cons in Hwf as [_ Hwf].
    assert (Hh' : is_high_surrogate c = true)
      by (unfold is_high_surrogate; rewrite andb_true_iff, !N.leb_le; lia).
    destruct (surrogate_cp_bound c d Hh' Hd) as [B1 B2].
    destruct (pct_cp_head (surrogate_cp c d)) as (_ & _ & Hlen).
    rewrite length_app in Hf. cbn [length] in Hn.
    rewrite plus_to_space_app, (plus_to_space_id (pct_cp _)) by (by apply pct_cp_no_plus).
    rewrite decode_step_escaped by lia. rewrite utf16_surrogate by done.
    rewrite IH; [done|lia|by split; [|eexists]|lia].
  - assert (He' : well_paired s).
    { split; [done|]. repeat case_match; try done; apply fmap_Some in He as (? & -> & _); eauto. }
    destruct (form_safe c) eqn:Hu.
    { destruct (form_safe_plain c Hu) as [N1 N2]. cbn [plus_to_space fmap list_fmap length] in *.
      destruct (N.eqb_spec c 43); [done|]. cbn [decode_fuel]. destruct (N.eqb_spec c 37); [done|].
      fold (plus_to_space (form_encode s)). by rewrite (IH s fuel) by (done || lia). }
    destruct (N.eqb_spec c 32) as [->|].
    { cbn [plus_to_space fmap list_fmap length] in *. cbn [decode_fuel N.eqb].
      change (decode_fuel (S fuel) (32 :: plus_to_space (form_encode s)) = Some (32 :: s)).
      cbn [decode_fuel]. change (32 =? 37) with false. cbv iota.
      by rewrite (IH s fuel) by (done || lia). }
    destruct (pct_cp_head c) as (_ & _ & Hlen). rewrite length_app in Hf.
    unfold is_high_surrogate, is_low_surrogate in Hh, Hl.
    rewrite andb_false_iff, !N.leb_gt in Hh, Hl.
    rewrite plus_to_space_app, (plus_to_space_id (pct_cp c)) by (apply pct_cp_no_plus; lia).
    rewrite decode_step_escaped by lia. unfold utf16. destruct (N.ltb_spec c 65536); [|lia].
    by rewrite (IH s fuel) by (done || lia).
Qed.

Lemma form_decode_encode s : well_paired s → form_decode (form_encode s) = Some s.
Proof.
  intros Hs. unfold form_decode, decodeURIComponent.
  apply (form_decode_encode_fuel (S (length s))); [lia|done|].
  unfold plus_to_space. rewrite length_fmap. lia.
Qed.

Lemma parse_param_text k v : well_paired k → well_paired v → parse_param (param_text (k, v)) = Some (k, v).
Proof.
  intros Hk Hv. unfold parse_param, param_text. cbn [fst snd].
  rewrite span_app.
  - change (drop 1 (61 :: form_encode v)) with (form_encode v).
    rewrite (form_decode_encode k), (form_decode_encode v) by done. reflexivity.
  - pose proof (form_encode_units (S (length k)) k ltac:(lia) (proj1 Hk)) as Hu.
    rewrite forallb_forall in *. intros x Hx. specialize (Hu x Hx).
    destruct (N.eqb_spec x 61) as [->|]; done.
  - done.
Qed.

(** Reading a query text gives back the parameters it was written from: no value can
    add, drop or alter a parameter. *)
Lemma parse_params_text ps :
  Forall (λ p, well_paired p.1 ∧ well_paired p.2) ps → parse_params (params_to_string ps) = Some ps.
Proof.
  intros Hps. destruct ps as [|p ps]; [done|]. unfold parse_params, params_to_string.
  assert (Ht : truthy (join [38] (param_text <$> p :: ps)) = true).
  { apply truthy_true. destruct p as [k v], ps; cbn; unfold param_text; cbn; by destruct (form_encode k). }
  rewrite Ht, split_join; [|done|].
  - clear Ht. induction Hps as [|[k v] l [Hk Hv] _ IH]; [done|]. cbn [fmap list_fmap mapM].
    rewrite (parse_param_text k v Hk Hv). cbn. by rewrite IH.
  - apply Forall_fmap. eapply Forall_impl; [exact Hps|]. intros [k v] [Hk Hv]. cbn.
    unfold param_text. cbn. rewrite not_elem_of_app, not_elem_of_cons.
    split; [|split; [done|]]; apply form_unit_free; done || apply Hk || apply Hv.
Qed.

Lemma well_paired_ascii s : forallb is_ascii s = true → well_paired s.
Proof.
  intros H. rewrite forallb_forall in H.
  assert (A : Forall (λ c, c < 128) s).
  { apply Forall_forall. intros c Hc. apply list_elem_of_In in Hc. by apply H, N.ltb_lt in Hc. }
  split; [|apply encode_total]; eapply Forall_impl; try exact A; cbn; lia.
Qed.
