(* ===== verification/JsDate.v ===== *)
(** * Dates

    Millisecond time values, the proleptic Gregorian calendar behind them,
    [Date.prototype.toISOString] and the ISO-8601 forms that [new Date(s)]
    reads (a full UTC stamp or a date alone). Any other text is read by the
    host's own rules, which are a parameter. *)

From S2P Require Import Prelude JsString JsNumber.
Local Open Scope Z_scope.

(** ** Calendar *)

(** Year, month and day of a day number (day 0 is 1 January 1970), by the
    400-year era that starts on 1 March. *)
Definition civil_from_doe (doe : Z) : Z * Z * Z :=
  let yoe := (doe - doe / 1460 + doe / 36524 - doe / 146096) / 365 in
  let doy := doe - (365 * yoe + yoe / 4 - yoe / 100) in
  let mp := (5 * doy + 2) / 153 in
  let d := doy - (153 * mp + 2) / 5 + 1 in
  let m := if mp <? 10 then mp + 3 else mp - 9 in
  (yoe + (if m <=? 2 then 1 else 0), m, d).

Definition civil_from_days (z : Z) : Z * Z * Z :=
  let z' := z + 719468 in
  let era := z' / 146097 in
  let '(y, m, d) := civil_from_doe (z' - era * 146097) in
  (y + era * 400, m, d).

Definition days_from_civil (y m d : Z) : Z :=
  let y' := if m <=? 2 then y - 1 else y in
  let era := y' / 400 in
  let yoe := y' - era * 400 in
  let doy := (153 * (if 2 <? m then m - 3 else m + 9) + 2) / 5 + d - 1 in
  era * 146097 + (yoe * 365 + yoe / 4 - yoe / 100 + doy) - 719468.

Definition ms_per_day : Z := 86400000.

(** Milliseconds of a UTC date and time. *)
Definition utc_ms (y m d h mi s ms : Z) : Z :=
  days_from_civil y m d * ms_per_day + h * 3600000 + mi * 60000 + s * 1000 + ms.

(** ** Text form *)

(** Two, three and four digit fields. *)
Definition dig (n : Z) : N := Z.to_N (48 + n mod 10).
Definition pad2 (n : Z) : str := [dig (n / 10); dig n].
Definition pad3 (n : Z) : str := [dig (n / 100); dig (n / 10); dig n].
Definition pad4 (n : Z) : str := [dig (n / 1000); dig (n / 100); dig (n / 10); dig n].

(** [new Date(t).toISOString()] for a year of four digits *)
Definition to_iso (t : Z) : str :=
  let '(y, m, d) := civil_from_days (t / ms_per_day) in
  let r := t mod ms_per_day in
  pad4 y ++ [45%N] ++ pad2 m ++ [45%N] ++ pad2 d ++ [84%N] ++
  pad2 (r / 3600000) ++ [58%N] ++ pad2 (r / 60000 mod 60) ++ [58%N] ++
  pad2 (r / 1000 mod 60) ++ [46%N] ++ pad3 (r mod 1000) ++ [90%N].

Definition undig (c : N) : option Z := if is_digit c then Some (Z.of_N c - 48) else None.

Definition digits2 (a b : N) : option Z :=
  x ← undig a; y ← undig b; Some (10 * x + y).

(** Days of a month. *)
Definition leap (y : Z) : bool :=
  (y mod 4 =? 0) && (negb (y mod 100 =? 0) || (y mod 400 =? 0)).
Definition month_days (y m : Z) : Z :=
  if m =? 2 then (if leap y then 29 else 28)
  else if existsb (Z.eqb m) [4; 6; 9; 11] then 30 else 31.

Definition valid_date (y m d : Z) : bool :=
  (1 <=? m) && (m <=? 12) && (1 <=? d) && (d <=? month_days y m).

(** ["YYYY-MM-DD"] (UTC midnight), ["YYYY-MM-DDTHH:mm:ssZ"] and the same with milliseconds. *)
Definition parse_iso (s : str) : option Z :=
  match s with
  | y1 :: y2 :: y3 :: y4 :: 45%N :: m1 :: m2 :: 45%N :: d1 :: d2 :: t =>
      yh ← digits2 y1 y2; yl ← digits2 y3 y4; m ← digits2 m1 m2; d ← digits2 d1 d2;
      let y := 100 * yh + yl in
      if valid_date y m d then
        match t with
        | [] => Some (utc_ms y m d 0 0 0 0)
        | 84%N :: h1 :: h2 :: 58%N :: i1 :: i2 :: 58%N :: s1 :: s2 :: [90%N] =>
            h ← digits2 h1 h2; i ← digits2 i1 i2; se ← digits2 s1 s2;
            if (h <? 24) && (i <? 60) && (se <? 60) then Some (utc_ms y m d h i se 0) else None
        | 84%N :: h1 :: h2 :: 58%N :: i1 :: i2 :: 58%N :: s1 :: s2 :: 46%N :: x1 :: x2 :: x3 :: [90%N] =>
            h ← digits2 h1 h2; i ← digits2 i1 i2; se ← digits2 s1 s2;
            xh ← digits2 x1 x2; xl ← undig x3;
            if (h <? 24) && (i <? 60) && (se <? 60)
            then Some (utc_ms y m d h i se (10 * xh + xl)) else None
        | _ => None
        end
      else None
  | _ => None
  end.

(** The host's reading of other date texts: a time value or [NaN]. *)
Class HostDates := host_date_parse : str → num.

(** [new Date(s).getTime()] *)
Definition date_ms `{HostDates} (s : str) : num :=
  match parse_iso s with Some t => num_of_Z t | None => host_date_parse s end.

(** ** Round trip *)

(** Years 0 to 9999. *)
Definition iso_range (t : Z) : Prop := -62167219200000 <= t < 253402300800000.

(** Checks a predicate on [0 .. n-1]. *)
Fixpoint all_below (n : nat) (z : Z) (f : Z → bool) : bool :=
  match n with O => true | S n' => f z && all_below n' (z + 1) f end.

Lemma all_below_spec n f : ∀ z x, all_below n z f = true → z <= x < z + Z.of_nat n → f x = true.
Proof.
  induction n as [|n IH]; intros z x; cbn [all_below]; [lia|].
  intros [Hf Ha]%andb_true_iff Hx. destruct (Z.eq_dec x z) as [->|]; [done|].
  apply (IH (z + 1)); [done|lia].
Qed.

(** First day (from 1 March) of year [y] of an era. *)
Definition year_start (y : Z) : Z := 365 * y + y / 4 - y / 100 + y / 400.

(** The year count before the final division, nondecreasing over the era. *)
Definition year_days (doe : Z) : Z := doe - doe / 1460 + doe / 36524 - doe / 146096.

Lemma year_days_step x : 0 <= x < 146096 → year_days x <= year_days (x + 1).
Proof.
  intros Hx. destruct (Z.eq_dec x 146095) as [->|]; [by vm_compute|].
  unfold year_days. rewrite !(Z.div_small _ 146096) by lia.
  Z.to_euclidean_division_equations. lia.
Qed.

Lemma year_days_mono a b : 0 <= a <= b → b <= 146096 → year_days a <= year_days b.
Proof.
  intros [Ha Hab] Hb. assert (∃ n : nat, b = a + Z.of_nat n) as [n ->]
    by (exists (Z.to_nat (b - a)); lia).
  clear Hab. induction n as [|n IH]; [rewrite Z.add_0_r; done|].
  etrans; [apply IH; lia|].
  replace (a + Z.of_nat (S n)) with (a + Z.of_nat n + 1) by lia. apply year_days_step. lia.
Qed.

(** Evaluated on the 400 years of an era: both ends of the year have its number,
    and its length is that of the leap rule. *)
Definition year_check (y : Z) : bool :=
  let s := year_start y in
  let e := year_start (y + 1) - 1 in
  (year_days s / 365 =? y) && (year_days e / 365 =? y) && (0 <=? s) && (e <=? 146096)
  && (e - s =? (if leap (y + 1) then 365 else 364)).

Lemma year_check_all : all_below 400 0 year_check = true.
Proof. vm_compute. reflexivity. Qed.

(** Evaluated on the 366 days from 1 March: month and day are right. *)
Definition day_check (doy : Z) : bool :=
  let mp := (5 * doy + 2) / 153 in
  let d := doy - (153 * mp + 2) / 5 + 1 in
  let m := if mp <? 10 then mp + 3 else mp - 9 in
  ((153 * (if 2 <? m then m - 3 else m + 9) + 2) / 5 + d - 1 =? doy)
  && (1 <=? m) && (m <=? 12) && (1 <=? d)
  && (d <=? (if m =? 2 then (if doy =? 365 then 29 else 28) else month_days 1 m))
  && Bool.eqb (m <=? 2) (306 <=? doy).

Lemma day_check_all : all_below 366 0 day_check = true.
Proof. vm_compute. reflexivity. Qed.

Lemma year_of_doe doe :
  0 <= doe < 146097 → ∃ y, 0 <= y < 400 ∧ year_start y <= doe < year_start (y + 1).
Proof.
  intros Hd. assert (Hgo : ∀ n : nat, doe < year_start (Z.of_nat n) →
    ∃ y, 0 <= y < Z.of_nat n ∧ year_start y <= doe < year_start (y + 1)).
  { induction n as [|n IH]; [change (year_start (Z.of_nat 0)) with 0; lia|].
    rewrite Nat2Z.inj_succ. unfold Z.succ. intros Hn.
    destruct (Z_lt_dec doe (year_start (Z.of_nat n))) as [Hlt|].
    - destruct (IH Hlt) as (y & ? & ?). exists y. lia.
    - exists (Z.of_nat n). lia. }
  apply (Hgo 400%nat). change (year_start (Z.of_nat 400)) with 146097. lia.
Qed.

(** Year and day of the year of a day of the era. *)
Lemma doe_decompose doe :
  0 <= doe < 146097 → ∃ y, 0 <= y < 400 ∧
    year_days doe / 365 = y ∧ 0 <= doe - year_start y <= (if leap (y + 1) then 365 else 364).
Proof.
  intros Hd. destruct (year_of_doe doe Hd) as (y & Hy & Hlo & Hhi). exists y. split; [done|].
  pose proof (all_below_spec 400 _ 0 y year_check_all ltac:(lia)) as Hc. unfold year_check in Hc.
  rewrite !andb_true_iff, !Z.eqb_eq, !Z.leb_le in Hc. destruct Hc as [[[[H1 H2] H3] H4] H5].
  pose proof (year_days_mono (year_start y) doe ltac:(lia) ltac:(lia)).
  pose proof (year_days_mono doe (year_start (y + 1) - 1) ltac:(lia) ltac:(lia)).
  split; [|lia].
  assert (year_days (year_start y) / 365 <= year_days doe / 365) by (apply Z.div_le_mono; lia).
  assert (year_days doe / 365 <= year_days (year_start (y + 1) - 1) / 365)
    by (apply Z.div_le_mono; lia). lia.
Qed.

Definition doe_check (doe : Z) : bool :=
  let '(y, m, d) := civil_from_doe doe in
  (days_from_civil y m d =? doe - 719468) && valid_date y m d
  && (0 <=? y) && (y <=? 400) && Bool.eqb (400 <=? y) (146037 <=? doe).

(** The calendar is right on each day of an era. *)
Lemma civil_from_doe_ok doe : 0 <= doe < 146097 → doe_check doe = true.
Proof.
  intros Hd. destruct (doe_decompose doe Hd) as (y & Hy & Hyd & Hdoy).
  unfold doe_check, civil_from_doe. fold (year_days doe). rewrite Hyd.
  assert (Hst : year_start y = 365 * y + y / 4 - y / 100).
  { unfold year_start. rewrite (Z.div_small y 400) by lia. lia. }
  rewrite <-Hst. set (doy := doe - year_start y) in *.
  assert (Hdoy' : 0 <= doy < 366) by (destruct (leap (y + 1)); lia).
  pose proof (all_below_spec 366 _ 0 doy day_check_all ltac:(lia)) as Hc. unfold day_check in Hc.
  set (mp := (5 * doy + 2) / 153) in *. set (d := doy - (153 * mp + 2) / 5 + 1) in *.
  set (m := if mp <? 10 then mp + 3 else mp - 9) in *.
  rewrite !andb_true_iff, Z.eqb_eq, !Z.leb_le, Bool.eqb_true_iff in Hc.
  destruct Hc as [[[[[H1 H2] H3] H4] H5] H6].
  rewrite !andb_true_iff, Z.eqb_eq, !Z.leb_le, Bool.eqb_true_iff.
  clearbody m d. clear mp.
  assert (Hy399 : 145731 <= doe ↔ y = 399).
  { unfold doy in *. rewrite Hst in *. destruct (Z.eq_dec y 398) as [->|Hn].
    - change (leap (398 + 1)) with false in Hdoy.
      change (365 * 398 + 398 / 4 - 398 / 100) with 145366 in *. lia.
    - clear -Hy Hdoy' Hn. Z.to_euclidean_division_equations. lia. }
  assert (Hst399 : y = 399 → year_start y = 145731) by (by intros ->).
  repeat split.
  - unfold days_from_civil.
    assert ((if m <=? 2 then y + (if m <=? 2 then 1 else 0) - 1
             else y + (if m <=? 2 then 1 else 0)) = y) as -> by (destruct (m <=? 2); lia).
    rewrite (Z.div_small y 400) by lia. rewrite Z.mul_0_l, Z.sub_0_r.
    unfold doy in H1. lia.
  - unfold valid_date. rewrite !andb_true_iff, !Z.leb_le. repeat split; [done..|].
    unfold month_days in *. destruct (Z.eqb_spec m 2) as [->|]; [|done].
    change (2 <=? 2) with true. cbn iota.
    destruct (leap (y + 1)); destruct (Z.eqb_spec doy 365); lia.
  - destruct (m <=? 2); lia.
  - destruct (m <=? 2); lia.
  - unfold doy in *. destruct (Z.leb_spec 306 (doe - year_start y)) as [Hm|Hm]; rewrite H6.
    + destruct (Z.leb_spec 400 (y + 1)), (Z.leb_spec 146037 doe); try done; lia.
    + destruct (Z.leb_spec 400 (y + 0)), (Z.leb_spec 146037 doe); try done; lia.
Qed.

Lemma days_from_civil_era y m d k :
  days_from_civil (y + k * 400) m d = days_from_civil y m d + k * 146097.
Proof.
  unfold days_from_civil. replace (if m <=? 2 then y + k * 400 - 1 else y + k * 400)
    with ((if m <=? 2 then y - 1 else y) + k * 400) by (destruct (m <=? 2); lia).
  generalize (if m <=? 2 then y - 1 else y). intros y'.
  rewrite Z.div_add by lia.
  replace (y' + k * 400 - (y' / 400 + k) * 400) with (y' - y' / 400 * 400) by lia. lia.
Qed.

Lemma month_days_era y m k : month_days (y + k * 400) m = month_days y m.
Proof.
  unfold month_days, leap.
  replace ((y + k * 400) mod 400) with (y mod 400) by (symmetry; apply Z.mod_add; lia).
  replace ((y + k * 400) mod 100) with (y mod 100)
    by (replace (k * 400) with (k * 4 * 100) by lia; symmetry; apply Z.mod_add; lia).
  replace ((y + k * 400) mod 4) with (y mod 4)
    by (replace (k * 400) with (k * 100 * 4) by lia; symmetry; apply Z.mod_add; lia).
  done.
Qed.

(** The calendar round trip on every day. *)
Lemma civil_round_trip z :
  let '(y, m, d) := civil_from_days z in
  days_from_civil y m d = z ∧ valid_date y m d = true.
Proof.
  unfold civil_from_days. set (era := (z + 719468) / 146097).
  assert (Hr : 0 <= z + 719468 - era * 146097 < 146097).
  { unfold era. pose proof (Z.div_mod (z + 719468) 146097 ltac:(lia)).
    pose proof (Z.mod_pos_bound (z + 719468) 146097 ltac:(lia)). lia. }
  pose proof (civil_from_doe_ok _ Hr) as Hc. unfold doe_check in Hc.
  destruct (civil_from_doe _) as [[y m] d].
  rewrite !andb_true_iff, Z.eqb_eq in Hc. destruct Hc as [[[[Hd Hv] _] _] _].
  rewrite days_from_civil_era, Hd. split; [lia|].
  unfold valid_date in *. by rewrite month_days_era.
Qed.

Lemma civil_year_range z y m d :
  civil_from_days z = (y, m, d) → -719528 <= z < 2932897 → 0 <= y <= 9999.
Proof.
  unfold civil_from_days. set (era := (z + 719468) / 146097). intros Hz Hr.
  assert (Hb : 0 <= z + 719468 - era * 146097 < 146097).
  { unfold era. pose proof (Z.div_mod (z + 719468) 146097 ltac:(lia)).
    pose proof (Z.mod_pos_bound (z + 719468) 146097 ltac:(lia)). lia. }
  pose proof (civil_from_doe_ok _ Hb) as Hc. unfold doe_check in Hc.
  clearbody era. destruct (civil_from_doe _) as [[y0 m0] d0] eqn:E. simplify_eq.
  rewrite !andb_true_iff, !Z.leb_le, Bool.eqb_true_iff in Hc. destruct Hc as [[[_ Hy0] Hy] Hl].
  destruct (Z.leb_spec 400 y0), (Z.leb_spec 146037 (z + 719468 - era * 146097)); try done; lia.
Qed.

Lemma undig_dig n : undig (dig n) = Some (n mod 10).
Proof.
  unfold undig, dig. pose proof (Z.mod_pos_bound n 10 ltac:(lia)) as Hm.
  unfold is_digit.
  rewrite (proj2 (N.leb_le 48 (Z.to_N (48 + n mod 10)))) by lia.
  rewrite (proj2 (N.leb_le (Z.to_N (48 + n mod 10)) 57)) by lia.
  cbn [andb]. f_equal. rewrite Z2N.id by lia. lia.
Qed.

Lemma digits2_dig n : digits2 (dig (n / 10)) (dig n) = Some (n mod 100).
Proof.
  unfold digits2. rewrite !undig_dig. cbn [mbind option_bind]. f_equal.
  Z.to_euclidean_division_equations. lia.
Qed.

Lemma time_of_day r :
  0 <= r < ms_per_day →
  (r / 3600000 < 24 ∧ 0 <= r / 3600000) ∧
  r / 3600000 * 3600000 + r / 60000 mod 60 * 60000 + r / 1000 mod 60 * 1000 + r mod 1000 = r.
Proof. unfold ms_per_day. intros Hr. Z.to_euclidean_division_equations. lia. Qed.

(** Reading back the text of a time value. *)
Lemma parse_to_iso t : iso_range t → parse_iso (to_iso t) = Some t.
Proof.
  intros [Ht1 Ht2]. unfold to_iso.
  pose proof (civil_round_trip (t / ms_per_day)) as Hc.
  destruct (civil_from_days (t / ms_per_day)) as [[y m] d] eqn:E. destruct Hc as [Hdays Hv].
  assert (Hy : 0 <= y <= 9999).
  { apply (civil_year_range _ _ _ _ E). unfold ms_per_day. Z.to_euclidean_division_equations. lia. }
  pose proof (Z.mod_pos_bound t ms_per_day ltac:(done)) as Hr.
  pose proof (Z.div_mod t ms_per_day ltac:(done)) as Hdm.
  set (r := t mod ms_per_day) in *. destruct (time_of_day r Hr) as [[Hh1 Hh2] Hsum].
  unfold pad4, pad3, pad2. cbn [app parse_iso].
  replace (y / 1000) with (y / 100 / 10) by (Z.to_euclidean_division_equations; lia).
  replace (r mod 1000 / 100) with (r mod 1000 / 10 / 10) by (Z.to_euclidean_division_equations; lia).
  rewrite !digits2_dig. cbn [mbind option_bind].
  unfold valid_date in Hv. rewrite !andb_true_iff, !Z.leb_le in Hv.
  assert (Hmd : month_days y m <= 31) by (unfold month_days; repeat case_match; lia).
  assert (Hsmall : ∀ x, 0 <= x < 100 → x mod 100 = x) by (intros; apply Z.mod_small; lia).
  rewrite (Hsmall (y / 100)), (Hsmall m), (Hsmall d), (Hsmall (r / 3600000)),
    (Hsmall (r / 60000 mod 60)), (Hsmall (r / 1000 mod 60)), (Hsmall (r mod 1000 / 10))
    by (clear -Hy Hmd Hv Hr Hh1 Hh2; unfold ms_per_day in *; Z.to_euclidean_division_equations; lia).
  replace (100 * (y / 100) + y mod 100) with y by (Z.to_euclidean_division_equations; lia).
  unfold valid_date. rewrite !(proj2 (Z.leb_le _ _)) by lia. cbn [andb].
  rewrite undig_dig. cbn [mbind option_bind].
  rewrite !(proj2 (Z.ltb_lt _ _)) by (Z.to_euclidean_division_equations; lia). cbn [andb].
  f_equal. unfold utc_ms. rewrite Hdays.
  replace (10 * (r mod 1000 / 10) + r mod 1000 mod 10) with (r mod 1000)
    by (Z.to_euclidean_division_equations; lia).
  lia.
Qed.
