(* ===== verification/Json.v ===== *)
(** * JSON.stringify and JSON.parse

    JSON values, the printer and the parser of the language, and the round
    trip [parse (stringify v) = v] on values whose numbers are safe integers.
    Objects are kept in property-creation order; a repeated key of the parsed
    text overwrites the earlier value in place. *)

From S2P Require Import Prelude JsString JsNumber UriCodec.

#[local] Set Warnings "-register-all".
Inductive json : Type :=
  | JNull
  | JBool (b : bool)
  | JNum (n : num)
  | JStr (s : str)
  | JArr (l : list json)
  | JObj (fs : list (str * json)).

(** Nested induction: the hypothesis for every element and member. *)
Section JsonInd.
Context (P : json → Prop).
Context (Hnull : P JNull) (Hbool : ∀ b, P (JBool b)) (Hnum : ∀ n, P (JNum n))
  (Hstr : ∀ s, P (JStr s)) (Harr : ∀ l, Forall P l → P (JArr l))
  (Hobj : ∀ fs, Forall (λ f, P f.2) fs → P (JObj fs)).

Fixpoint json_nested_ind (v : json) : P v :=
  match v with
  | JNull => Hnull
  | JBool b => Hbool b
  | JNum n => Hnum n
  | JStr s => Hstr s
  | JArr l => Harr l ((fix go l : Forall P l := match l with
      | [] => Forall_nil_2 P
      | x :: l' => Forall_cons_2 P x l' (json_nested_ind x) (go l')
      end) l)
  | JObj fs => Hobj fs ((fix go fs : Forall (λ f, P f.2) fs := match fs with
      | [] => Forall_nil_2 _
      | f :: fs' => Forall_cons_2 (λ f, P f.2) f fs' (json_nested_ind f.2) (go fs')
      end) fs)
  end.
End JsonInd.

(** ** Objects as association lists *)

(** [o[k]], [None] for [undefined]. *)
Fixpoint obj_get (k : str) (fs : list (str * json)) : option json :=
  match fs with
  | [] => None
  | (k', v) :: fs' => if str_eqb k k' then Some v else obj_get k fs'
  end.

(** [o[k] = v] *)
Fixpoint obj_set (k : str) (v : json) (fs : list (str * json)) : list (str * json) :=
  match fs with
  | [] => [(k, v)]
  | (k', v') :: fs' => if str_eqb k k' then (k', v) :: fs' else (k', v') :: obj_set k v fs'
  end.

(** Property read on a parsed value. *)
Definition json_get (k : str) (v : json) : option json :=
  match v with JObj fs => obj_get k fs | _ => None end.

Definition json_str (v : option json) : option str :=
  match v with Some (JStr s) => Some s | _ => None end.

(** ** Printing *)

Definition unicode_escape (c : N) : str :=
  js "\u" ++ [hex_lower (c / 4096); hex_lower (c / 256 mod 16);
              hex_lower (c / 16 mod 16); hex_lower (c mod 16)].

(** The escape of a unit that may not stand for itself, if any. *)
Definition short_escape (c : N) : option str :=
  (if c =? 34 then Some [92; 34]
   else if c =? 92 then Some [92; 92]
   else if c =? 8 then Some [92; 98]
   else if c =? 9 then Some [92; 116]
   else if c =? 10 then Some [92; 110]
   else if c =? 12 then Some [92; 102]
   else if c =? 13 then Some [92; 114]
   else if c <? 32 then Some (unicode_escape c)
   else None)%N.

Fixpoint quote_body (s : str) : str :=
  match s with
  | [] => []
  | c :: s' =>
      match short_escape c with
      | Some e => e ++ quote_body s'
      | None =>
          if is_high_surrogate c then
            match s' with
            | d :: s'' =>
                if is_low_surrogate d then c :: d :: quote_body s''
                else unicode_escape c ++ quote_body s'
            | [] => unicode_escape c
            end
          else if is_low_surrogate c then unicode_escape c ++ quote_body s'
          else c :: quote_body s'
      end
  end.

Definition quote (s : str) : str := [34%N] ++ quote_body s ++ [34%N].

(** [JSON.stringify(v)] *)
Fixpoint stringify (v : json) : str :=
  match v with
  | JNull => js "null"
  | JBool true => js "true"
  | JBool false => js "false"
  | JNum n => if is_finite n then num_to_str n else js "null"
  | JStr s => quote s
  | JArr l => [91%N] ++ join [44%N] (map stringify l) ++ [93%N]
  | JObj fs =>
      [123%N] ++ join [44%N] (map (λ f, quote f.1 ++ [58%N] ++ stringify f.2) fs) ++ [125%N]
  end.

(** ** Parsing *)

Definition json_ws (c : N) : bool := existsb (N.eqb c) [9; 10; 13; 32]%N.
Definition skip_ws (s : str) : str := drop_while json_ws s.

Definition hex4 (a b c d : N) : option N :=
  match hex_val a, hex_val b, hex_val c, hex_val d with
  | Some a, Some b, Some c, Some d => Some (((a * 16 + b) * 16 + c) * 16 + d)%N
  | _, _, _, _ => None
  end.

(** The unit a one-letter escape stands for. *)
Definition unescape (c : N) : option N :=
  (if existsb (N.eqb c) [34; 92; 47] then Some c
   else if c =? 98 then Some 8
   else if c =? 102 then Some 12
   else if c =? 110 then Some 10
   else if c =? 114 then Some 13
   else if c =? 116 then Some 9
   else None)%N.

Definition cons_fst {A} (c : N) (p : option (str * A)) : option (str * A) :=
  match p with Some (s, r) => Some (c :: s, r) | None => None end.

(** String body up to the closing quote. *)
Fixpoint unquote (s : str) : option (str * str) :=
  match s with
  | [] => None
  | c :: r =>
      if (c =? 34)%N then Some ([], r)
      else if (c =? 92)%N then
        match r with
        | e :: r1 =>
            match unescape e with
            | Some u => cons_fst u (unquote r1)
            | None =>
                if (e =? 117)%N then
                  match r1 with
                  | h1 :: h2 :: h3 :: h4 :: r2 =>
                      match hex4 h1 h2 h3 h4 with
                      | Some u => cons_fst u (unquote r2)
                      | None => None
                      end
                  | _ => None
                  end
                else None
            end
        | [] => None
        end
      else if (c <? 32)%N then None
      else cons_fst c (unquote r)
  end.

(** Integer digits without a superfluous leading zero. *)
Definition int_digits (s : str) : option (str * str) :=
  match span is_digit s with
  | ([], _) => None
  | (48%N :: _ :: _, _) => None
  | (ds, r) => Some (ds, r)
  end.

Definition json_fraction (s : str) : option (str * str) :=
  match s with
  | 46%N :: s' => match span is_digit s' with ([], _) => None | (fp, r) => Some (fp, r) end
  | _ => Some ([], s)
  end.

Definition json_exponent (s : str) : option (Z * str) :=
  match s with
  | c :: s' =>
      if ((c =? 101) || (c =? 69))%N then
        let '(neg, s1) := take_sign s' in
        match span is_digit s1 with
        | ([], _) => None
        | (ds, r) => Some ((if neg then - Z.of_N (digits_val 0 ds) else Z.of_N (digits_val 0 ds))%Z, r)
        end
      else Some (0%Z, s)
  | [] => Some (0%Z, s)
  end.

Definition parse_num (s : str) : option (num * str) :=
  let '(neg, s1) := match s with 45%N :: s' => (true, s') | _ => (false, s) end in
  match int_digits s1 with
  | None => None
  | Some (ip, s2) =>
      match json_fraction s2 with
      | None => None
      | Some (fp, s3) =>
          match json_exponent s3 with
          | None => None
          | Some (e, s4) =>
              Some (dec_value neg (digits_val 0 (ip ++ fp)) (e - Z.of_nat (length fp)), s4)
          end
      end
  end.

(** The keyword [kw], standing for [v]. *)
Definition parse_keyword (kw : str) (v : json) (s : str) : option (json * str) :=
  if starts_with kw s then Some (v, drop (length kw) s) else None.

(** Recursive descent; [parse_elems] and [parse_members] read after a bracket
    or a comma. Fuel bounds the nesting of calls. *)
Fixpoint parse_value (fuel : nat) (s : str) : option (json * str) :=
  match fuel with
  | O => None
  | S fuel' =>
      let t := skip_ws s in
      match t with
      | [] => None
      | c :: r =>
          if (c =? 34)%N then
            match unquote r with Some (u, r') => Some (JStr u, r') | None => None end
          else if (c =? 91)%N then
            match skip_ws r with
            | 93%N :: r' => Some (JArr [], r')
            | r' => match parse_elems fuel' r' with
                    | Some (l, r'') => Some (JArr l, r'')
                    | None => None
                    end
            end
          else if (c =? 123)%N then
            match skip_ws r with
            | 125%N :: r' => Some (JObj [], r')
            | r' => match parse_members fuel' [] r' with
                    | Some (fs, r'') => Some (JObj fs, r'')
                    | None => None
                    end
            end
          else if (c =? 110)%N then parse_keyword (js "null") JNull t
          else if (c =? 116)%N then parse_keyword (js "true") (JBool true) t
          else if (c =? 102)%N then parse_keyword (js "false") (JBool false) t
          else match parse_num t with Some (n, r') => Some (JNum n, r') | None => None end
      end
  end
with parse_elems (fuel : nat) (s : str) : option (list json * str) :=
  match fuel with
  | O => None
  | S fuel' =>
      match parse_value fuel' s with
      | None => None
      | Some (v, r) =>
          match skip_ws r with
          | c :: r' =>
              if (c =? 93)%N then Some ([v], r')
              else if (c =? 44)%N then
                match parse_elems fuel' r' with
                | Some (l, r'') => Some (v :: l, r'')
                | None => None
                end
              else None
          | [] => None
          end
      end
  end
with parse_members (fuel : nat) (acc : list (str * json)) (s : str)
    : option (list (str * json) * str) :=
  match fuel with
  | O => None
  | S fuel' =>
      match skip_ws s with
      | 34%N :: r =>
          match unquote r with
          | None => None
          | Some (k, r1) =>
              match skip_ws r1 with
              | 58%N :: r2 =>
                  match parse_value fuel' r2 with
                  | None => None
                  | Some (v, r3) =>
                      match skip_ws r3 with
                      | c :: r4 =>
                          if (c =? 125)%N then Some (obj_set k v acc, r4)
                          else if (c =? 44)%N then parse_members fuel' (obj_set k v acc) r4
                          else None
                      | [] => None
                      end
                  end
              | _ => None
              end
          end
      | _ => None
      end
  end.

(** [JSON.parse(text)], [None] standing for the [SyntaxError] it throws.
    Each call consumes a unit, two calls per element: the fuel suffices. *)
Definition json_parse (text : str) : option json :=
  match parse_value (2 * length text + 2) text with
  | Some (v, r) => match skip_ws r with [] => Some v | _ => None end
  | None => None
  end.

(** Numbers are safe integers and keys are distinct, recursively. *)
Fixpoint json_ok (v : json) : Prop :=
  match v with
  | JNum (Fin z 0) => safe_int z
  | JNum _ => False
  | JArr l => (fix go l := match l with [] => True | x :: l' => json_ok x ∧ go l' end) l
  | JObj fs =>
      NoDup (fs.*1) ∧
      (fix go fs := match fs with [] => True | f :: fs' => json_ok f.2 ∧ go fs' end) fs
  | _ => True
  end.

(** ** Round trip *)

#[local] Ltac Zify.zify_post_hook ::= Z.to_euclidean_division_equations.

Lemma hex_val_lower d : (d < 16)%N → hex_val (hex_lower d) = Some d.
Proof.
  intros Hd. unfold hex_lower, hex_val, is_digit.
  destruct (N.ltb_spec d 10).
  - destruct (N.leb_spec 48 (48 + d)), (N.leb_spec (48 + d) 57); try lia. cbn. f_equal. lia.
  - destruct (N.leb_spec 48 (87 + d)), (N.leb_spec (87 + d) 57); try lia. cbn.
    destruct (N.leb_spec 65 (87 + d)), (N.leb_spec (87 + d) 70); try lia. cbn.
    destruct (N.leb_spec 97 (87 + d)), (N.leb_spec (87 + d) 102); try lia. cbn. f_equal. lia.
Qed.

Lemma unquote_unicode_escape c r :
  (c < 65536)%N → unquote (unicode_escape c ++ r) = cons_fst c (unquote r).
Proof.
  intros Hc. unfold unicode_escape. change (js "\u") with [92; 117]%N.
  cbn [app unquote]. unfold hex4. rewrite !hex_val_lower by lia.
  change (unescape 117) with (@None N). cbn. f_equal. lia.
Qed.

Lemma unquote_short_escape c e r :
  short_escape c = Some e → unquote (e ++ r) = cons_fst c (unquote r).
Proof.
  unfold short_escape.
  repeat (match goal with |- context [(?a =? ?b)%N] => destruct (N.eqb_spec a b) as [->|] end;
    [by intros [= <-]|]).
  destruct (N.ltb_spec c 32); [|done]. intros [= <-]. apply unquote_unicode_escape. lia.
Qed.

Lemma unquote_raw c r :
  short_escape c = None → unquote (c :: r) = cons_fst c (unquote r).
Proof.
  unfold short_escape.
  repeat (match goal with |- context [(?a =? ?b)%N] => destruct (N.eqb_spec a b) as [->|] end;
    [done|]).
  destruct (N.ltb_spec c 32); [done|]. intros _. cbn [unquote].
  destruct (N.eqb_spec c 34), (N.eqb_spec c 92); try done.
  by destruct (N.ltb_spec c 32); [lia|].
Qed.

Lemma surrogate_bounds c :
  is_high_surrogate c = true ∨ is_low_surrogate c = true →
  (c < 65536)%N ∧ short_escape c = None.
Proof.
  unfold is_high_surrogate, is_low_surrogate. rewrite !andb_true_iff, !N.leb_le. intros Hc.
  split; [lia|]. unfold short_escape.
  repeat match goal with |- context [(?a =? ?b)%N] => destruct (N.eqb_spec a b); [lia|] end.
  by destruct (N.ltb_spec c 32); [lia|].
Qed.

Lemma unquote_quote_body n : ∀ s r,
  (length s < n)%nat → unquote (quote_body s ++ 34%N :: r) = Some (s, r).
Proof.
  induction n as [|n IH]; [lia|]. intros s r Hn. destruct s as [|c s]; [done|].
  cbn [length] in Hn. cbn [quote_body].
  destruct (short_escape c) as [e|] eqn:He.
  { by rewrite <-app_assoc, (unquote_short_escape c e), IH by (done || lia). }
  destruct (is_high_surrogate c) eqn:Hh.
  - destruct (surrogate_bounds c (or_introl Hh)) as [Hc _].
    destruct s as [|d s].
    { rewrite unquote_unicode_escape by done. done. }
    destruct (is_low_surrogate d) eqn:Hd.
    + destruct (surrogate_bounds d (or_intror Hd)) as [_ Hde]. cbn [length] in Hn.
      cbn [app]. rewrite !unquote_raw by done. by rewrite IH by lia.
    + rewrite <-app_assoc, unquote_unicode_escape by done. by rewrite IH by lia.
  - destruct (is_low_surrogate c) eqn:Hl.
    + destruct (surrogate_bounds c (or_intror Hl)) as [Hc _].
      rewrite <-app_assoc, unquote_unicode_escape by done. by rewrite IH by lia.
    + cbn [app]. rewrite unquote_raw by done. by rewrite IH by lia.
Qed.

Lemma unquote_quote s r : unquote (quote_body s ++ 34%N :: r) = Some (s, r).
Proof. apply (unquote_quote_body (S (length s))). lia. Qed.

(** What may follow a value: the end, a comma or a closing bracket. *)
Definition value_end (r : str) : Prop :=
  match r with [] => True | c :: _ => (c = 44 ∨ c = 93 ∨ c = 125)%N end.

Lemma value_end_span r : value_end r → span is_digit r = ([], r).
Proof. destruct r as [|c r]; [done|]. by intros [->|[->| ->]]. Qed.

Lemma span_digits_end s r :
  Forall (λ c, is_digit c = true) s → value_end r → span is_digit (s ++ r) = (s, r).
Proof.
  intros Hs Hr. induction Hs as [|c s Hc Hs IH]; [by apply value_end_span|].
  cbn [app span]. by rewrite Hc, IH.
Qed.

Lemma digits_val_ge acc s : (acc <= digits_val acc s)%N.
Proof.
  revert acc. induction s as [|c s IH]; intros acc; [done|].
  unfold digits_val in *. cbn [foldl]. etrans; [|apply IH]. lia.
Qed.

(** A printed natural number has no superfluous leading zero. *)
Lemma N_digits_fuel_head fuel n : 
  (N.to_nat (N.log2 n) < fuel)%nat → ∀ t, N_digits_fuel fuel n [] = 48%N :: t → t = [].
Proof.
  revert n. induction fuel as [|fuel IH]; intros n Hf t; [done|]. cbn [N_digits_fuel].
  destruct (N.ltb_spec n 10); [by intros [= _ <-]|].
  assert (Hf' : (N.to_nat (N.log2 (n / 10)) < fuel)%nat).
  { assert (N.log2 (n / 10) < N.log2 n)%N; [|lia].
    apply N.log2_lt_pow2; [apply N.div_str_pos; lia|].
    apply N.Div0.div_lt_upper_bound.
    destruct (N.log2_spec n) as [_ Hs]; [lia|]. rewrite N.pow_succ_r' in Hs.
    clear -Hs. revert Hs. generalize (2 ^ N.log2 n)%N. intros k Hk. lia. }
  rewrite N_digits_fuel_app. destruct (N_digits_fuel_val fuel (n / 10) Hf') as [Hv _].
  specialize (IH (n / 10)%N Hf').
  destruct (N_digits_fuel fuel (n / 10) []) as [|c u].
  { cbn in Hv. assert (0 < n / 10)%N by (apply N.div_str_pos; lia). lia. }
  intros [= -> <-]. assert (u = []) as -> by by apply IH.
  cbn in Hv. assert (0 < n / 10)%N by (apply N.div_str_pos; lia). lia.
Qed.

Lemma int_digits_nat n r : value_end r → int_digits (N_to_str n ++ r) = Some (N_to_str n, r).
Proof.
  intros Hr. unfold int_digits. rewrite span_digits_end by (done || apply N_to_str_digits).
  pose proof (N_to_str_nonempty n).
  pose proof (N_digits_fuel_head (S (N.to_nat (N.log2 n))) n ltac:(lia)) as Hh.
  fold (N_to_str n) in Hh.
  destruct (N_to_str n) as [|c t]; [done|].
  repeat case_match; simplify_eq; try done. by specialize (Hh _ eq_refl).
Qed.

Lemma json_fraction_end r : value_end r → json_fraction r = Some ([], r).
Proof. destruct r as [|c r]; [done|]. by intros [->|[->| ->]]. Qed.
Lemma json_exponent_end r : value_end r → json_exponent r = Some (0%Z, r).
Proof. destruct r as [|c r]; [done|]. by intros [->|[->| ->]]. Qed.

Lemma parse_num_int z r :
  safe_int z → value_end r → parse_num (Z_to_str z ++ r) = Some (Fin z 0, r).
Proof.
  intros Hz Hr. unfold parse_num.
  assert (Hgo : ∀ (neg : bool) n, num_of_Z (if neg then - Z.of_N n else Z.of_N n)%Z = Fin z 0 →
    match int_digits (N_to_str n ++ r) with
    | None => None
    | Some (ip, s2) => match json_fraction s2 with
      | None => None
      | Some (fp, s3) => match json_exponent s3 with
        | None => None
        | Some (e, s4) =>
            Some (dec_value neg (digits_val 0 (ip ++ fp)) (e - Z.of_nat (length fp))%Z, s4)
        end end end = Some (Fin z 0, r)).
  { intros neg n Hn. rewrite int_digits_nat, json_fraction_end, json_exponent_end by done.
    rewrite app_nil_r, N_to_str_val. unfold dec_value. cbn -[Z.mul].
    do 2 f_equal. rewrite <-Hn. unfold num_of_Z. f_equal. destruct neg; lia. }
  destruct z as [|p|p]; unfold Z_to_str; cbn [Z.to_N].
  - apply (Hgo false 0%N). by apply num_of_Z_safe.
  - assert (match N_to_str (Npos p) ++ r with 45%N :: s' => (true, s') | _ => (false, N_to_str (Npos p) ++ r) end
      = (false, N_to_str (Npos p) ++ r)) as ->.
    { pose proof (N_to_str_digits (Npos p)) as Hd. pose proof (N_to_str_nonempty (Npos p)).
      destruct (N_to_str (Npos p)) as [|c t] eqn:E; [done|].
      pose proof (digit_head _ c t Hd eq_refl). cbn [app].
      repeat case_match; simplify_eq; done || lia. }
    apply (Hgo false (Npos p)). by apply num_of_Z_safe.
  - cbn [app]. apply (Hgo true (Npos p)). by apply num_of_Z_safe.
Qed.

Lemma json_ok_arr l : json_ok (JArr l) ↔ Forall json_ok l.
Proof. induction l as [|x l IH]; [done|]. rewrite Forall_cons, <-IH. done. Qed.

Lemma json_ok_obj fs : json_ok (JObj fs) ↔ NoDup (fs.*1) ∧ Forall (λ f, json_ok f.2) fs.
Proof.
  cbn [json_ok]. f_equiv. induction fs as [|f fs IH]; [done|]. by rewrite Forall_cons, <-IH.
Qed.

Lemma skip_ws_cons c t : json_ws c = false → skip_ws (c :: t) = c :: t.
Proof. intros H. unfold skip_ws. cbn [drop_while]. by rewrite H. Qed.

Lemma value_end_skip c r : (c = 44 ∨ c = 93 ∨ c = 125 ∨ c = 58 ∨ c = 34)%N → skip_ws (c :: r) = c :: r.
Proof. by intros [->|[->|[->|[->| ->]]]]. Qed.

(** The first unit of a printed number. *)
Lemma Z_to_str_head z : ∃ c t, Z_to_str z = c :: t ∧ (c = 45 ∨ 48 <= c <= 57)%N.
Proof.
  assert (Hn : ∀ n, ∃ c t, N_to_str n = c :: t ∧ (48 <= c <= 57)%N).
  { intros n. pose proof (N_to_str_digits n) as Hd. pose proof (N_to_str_nonempty n).
    destruct (N_to_str n) as [|c t]; [done|]. exists c, t. split; [done|].
    by eapply digit_head. }
  destruct z as [|p|p]; cbn; [destruct (Hn 0%N) as (c & t & E & ?)|destruct (Hn (Npos p)) as (c & t & E & ?)|];
    [exists c, t; auto..|]. exists 45%N, (N_to_str (Npos p)). auto.
Qed.

Lemma stringify_num z : safe_int z → stringify (JNum (Fin z 0)) = Z_to_str z.
Proof.
  intros Hz. cbn [stringify is_finite]. apply num_to_str_int. unfold safe_int in Hz. lia.
Qed.

(** A printed value starts with neither white space nor a closing bracket. *)
Lemma stringify_head v :
  json_ok v → ∃ c t, stringify v = c :: t ∧ json_ws c = false ∧ c ≠ 93%N ∧ c ≠ 125%N.
Proof.
  intros Hok. destruct v as [|[]|n|s|l|fs]; try (eexists _, _; split; [reflexivity|done]).
  destruct n as [|?|z e]; [done..|]. destruct e; [|done..]. cbn in Hok.
  rewrite stringify_num by done. destruct (Z_to_str_head z) as (c & t & -> & Hc).
  exists c, t. split; [done|]. split; [|lia]. unfold json_ws. cbn.
  repeat match goal with |- context [(?a =? ?b)%N] => destruct (N.eqb_spec a b); [lia|] end. done.
Qed.

Definition parses (v : json) : Prop := ∀ fuel r,
  (2 * length (stringify v) <= fuel)%nat → value_end r →
  parse_value fuel (stringify v ++ r) = Some (v, r).

Lemma parse_elems_join l : ∀ fuel r,
  l ≠ [] → Forall parses l →
  (2 * length (join [44%N] (map stringify l)) < fuel)%nat →
  parse_elems fuel (join [44%N] (map stringify l) ++ 93%N :: r) = Some (l, r).
Proof.
  induction l as [|x l IH]; [done|]. intros fuel r _ [Hx Hl]%Forall_cons Hf.
  destruct fuel as [|fuel]; [lia|]. destruct l as [|y l].
  - cbn [map join] in *. cbn [parse_elems]. rewrite Hx by (lia || (cbn; auto)). done.
  - change (join [44%N] (map stringify (x :: y :: l))) with
      (stringify x ++ [44%N] ++ join [44%N] (map stringify (y :: l))) in *.
    rewrite !length_app in Hf. cbn [length] in Hf. rewrite <-!app_assoc. cbn [parse_elems].
    rewrite Hx by (lia || (cbn; auto)). cbn [app]. rewrite value_end_skip by auto.
    change ((44 =? 93)%N) with false. change ((44 =? 44)%N) with true. cbn iota.
    by rewrite IH by (done || lia).
Qed.

Lemma obj_set_fresh k v fs : k ∉ fs.*1 → obj_set k v fs = fs ++ [(k, v)].
Proof.
  induction fs as [|[k' v'] fs IH]; cbn; [done|]. intros [Hk Hfs]%not_elem_of_cons.
  by rewrite (proj2 (str_eqb_false k k')), IH.
Qed.

Definition member_text (f : str * json) : str := quote f.1 ++ [58%N] ++ stringify f.2.

Lemma parse_members_join fs : ∀ fuel acc r,
  fs ≠ [] → Forall (λ f, parses f.2) fs → Forall (λ f, json_ok f.2) fs → NoDup ((acc ++ fs).*1) →
  (2 * length (join [44%N] (map member_text fs)) < fuel)%nat →
  parse_members fuel acc (join [44%N] (map member_text fs) ++ 125%N :: r) = Some (acc ++ fs, r).
Proof.
  induction fs as [|[k v] fs IH]; [done|].
  intros fuel acc r _ [Hv Hfs]%Forall_cons [Hok Hoks]%Forall_cons Hnd Hf.
  destruct fuel as [|fuel]; [lia|]. cbn [fst snd] in *.
  assert (Hk : k ∉ acc.*1).
  { rewrite fmap_app, NoDup_app in Hnd. intros Hin. destruct Hnd as (_ & Hd & _).
    apply (Hd k Hin). by left. }
  assert (Hmember : ∀ rest, (2 * length (stringify v) <= fuel)%nat → value_end rest →
    parse_members (S fuel) acc (member_text (k, v) ++ rest) =
    match skip_ws rest with
    | c :: r4 => if (c =? 125)%N then Some (obj_set k v acc, r4)
                 else if (c =? 44)%N then parse_members fuel (obj_set k v acc) r4 else None
    | [] => None end).
  { intros rest Hlen Hend. unfold member_text, quote. cbn [fst snd]. rewrite <-!app_assoc.
    cbn [app parse_members]. rewrite value_end_skip by auto.
    rewrite unquote_quote, value_end_skip by auto.
    by rewrite Hv by done. }
  assert (Hlen : (length (stringify v) <= length (member_text (k, v)))%nat).
  { unfold member_text. cbn [fst snd]. rewrite !length_app. lia. }
  rewrite obj_set_fresh in Hmember by done. destruct fs as [|f fs].
  - cbn [map join] in *. rewrite Hmember by (lia || (cbn; auto)). by rewrite value_end_skip by auto.
  - change (join [44%N] (map member_text ((k, v) :: f :: fs))) with
      (member_text (k, v) ++ [44%N] ++ join [44%N] (map member_text (f :: fs))) in *.
    rewrite !length_app in Hf. cbn [length] in Hf. rewrite <-!app_assoc.
    rewrite Hmember by (lia || (cbn; auto)). cbn [app]. rewrite value_end_skip by auto.
    change ((44 =? 125)%N) with false. change ((44 =? 44)%N) with true. cbn iota.
    rewrite IH; [by rewrite <-app_assoc|done..| |lia].
    by rewrite <-app_assoc.
Qed.

Lemma parse_value_stringify v : json_ok v → parses v.
Proof.
  induction v as [|b|n|s|l IH|fs IH] using json_nested_ind; intros Hok fuel r Hf Hr.
  - destruct fuel; [vm_compute in Hf; lia|]. done.
  - destruct b; (destruct fuel; [vm_compute in Hf; lia|]); done.
  - destruct n as [|?|z e]; [done..|]. destruct e; [|done..]. cbn in Hok.
    rewrite stringify_num in * by done. pose proof (parse_num_int z r Hok Hr) as Hp.
    destruct (Z_to_str_head z) as (c & t & E & Hc). rewrite E in *.
    destruct fuel as [|fuel]; [cbn in Hf; lia|]. cbn [app parse_value] in *.
    rewrite skip_ws_cons.
    + repeat match goal with
      | |- context [(c =? ?b)%N] => destruct (N.eqb_spec c b); [lia|]
      end. by rewrite Hp.
    + unfold json_ws. cbn.
      repeat match goal with |- context [(?a =? ?b)%N] => destruct (N.eqb_spec a b); [lia|] end. done.
  - destruct fuel; [cbn in Hf; lia|]. unfold stringify, quote. rewrite <-!app_assoc. cbn [app parse_value].
    rewrite value_end_skip by auto. change ((34 =? 34)%N) with true. cbn iota. by rewrite unquote_quote.
  - apply json_ok_arr in Hok. destruct fuel as [|fuel]; [cbn in Hf; lia|].
    cbn [stringify] in *. rewrite !length_app in Hf. cbn [length] in Hf.
    rewrite <-!app_assoc. cbn [app parse_value]. rewrite skip_ws_cons by done.
    change ((91 =? 34)%N) with false. change ((91 =? 91)%N) with true. cbn iota.
    destruct l as [|x l]; [done|].
    assert (Hall : Forall parses (x :: l)).
    { rewrite Forall_forall in *. naive_solver. }
    pose proof (parse_elems_join (x :: l) fuel r ltac:(done) Hall ltac:(lia)) as He.
    apply Forall_cons in Hok as [Hx _]. destruct (stringify_head x Hx) as (c & t & E & Hws & Hc1 & Hc2).
    assert (∃ u, join [44%N] (map stringify (x :: l)) ++ 93%N :: r = c :: u) as [u Hu].
    { destruct l; cbn [map join]; rewrite E; eauto. }
    rewrite Hu in *. rewrite skip_ws_cons by done.
    repeat case_match; simplify_eq; done.
  - apply json_ok_obj in Hok as [Hnd Hok]. destruct fuel as [|fuel]; [cbn in Hf; lia|].
    assert (stringify (JObj fs) = [123%N] ++ join [44%N] (map member_text fs) ++ [125%N]) as Hs
      by reflexivity.
    rewrite Hs in *. rewrite !length_app in Hf. cbn [length] in Hf.
    rewrite <-!app_assoc. cbn [app parse_value]. rewrite skip_ws_cons by done.
    change ((123 =? 34)%N) with false. change ((123 =? 91)%N) with false.
    change ((123 =? 123)%N) with true. cbn iota.
    destruct fs as [|f fs]; [done|].
    assert (Hall : Forall (λ f, parses f.2) (f :: fs)).
    { rewrite Forall_forall in *. naive_solver. }
    pose proof (parse_members_join (f :: fs) fuel [] r ltac:(done) Hall Hok Hnd ltac:(lia)) as He.
    assert (∃ u, join [44%N] (map member_text (f :: fs)) ++ 125%N :: r = 34%N :: u) as [u Hu].
    { destruct fs; cbn [map join]; unfold member_text, quote; cbn [app]; eauto. }
    rewrite Hu in *. rewrite skip_ws_cons by done. by rewrite He.
Qed.

(** Parsing inverts printing. *)
Lemma parse_stringify v : json_ok v → json_parse (stringify v) = Some v.
Proof.
  intros Hok. unfold json_parse.
  pose proof (parse_value_stringify v Hok (2 * length (stringify v) + 2) [] ltac:(lia) I) as H.
  rewrite app_nil_r in H. by rewrite H.
Qed.
#[export] Hint Resolve parse_stringify : zaps.
