(* ===== verification/Tables.v ===== *)
(** * Tables: sorting, paging and search

    The table logic the dashboard pages share: stable sorting by a column in either
    direction, pages of a row list, the row filter and the pagination footer of
    [dashboard/components/SearchBar.tsx]. *)

From S2P Require Import Prelude JsString JsNumber JsRound.

(** ** Sorting by a comparator *)

(** [a.localeCompare(b)], by the collation of the host. *)
Class Collator := localeCompare : str → str → comparison.

(** What a comparator must satisfy for [sort] to be defined by the language. *)
Record consistent {A} (P : A → Prop) (cmp : A → A → comparison) : Prop := Consistent {
  cmp_opp x y : P x → P y → cmp y x = CompOpp (cmp x y);
  cmp_trans x y z : P x → P y → P z → cmp x y ≠ Gt → cmp y z ≠ Gt → cmp x z ≠ Gt;
}.

Class CollatorLaws `{Collator} : Prop := collator_consistent : consistent (λ _, True) localeCompare.

(** The sign of a comparator's answer; [NaN] counts as zero. *)
Definition answer_sign (d : num) : comparison :=
  if num_ltb (Fin 0 0) d then Gt else if num_ltb d (Fin 0 0) then Lt else Eq.

(** [asc ? cmp : -cmp] *)
Definition directed {A} (asc : bool) (cmp : A → A → comparison) (x y : A) : comparison :=
  if asc then cmp x y else CompOpp (cmp x y).

Definition sort_by {A} (cmp : A → A → comparison) (l : list A) : list A :=
  stable_sort (λ x y, bool_decide (cmp x y = Gt)) l.

Lemma directed_consistent {A} (P : A → Prop) asc cmp : consistent P cmp → consistent P (directed asc cmp).
Proof.
  intros [opp tr]. destruct asc; [by split|]. unfold directed. split.
  - intros x y Px Py. by rewrite (opp x y).
  - intros x y z Px Py Pz Hxy Hyz. rewrite <-!opp in * by done. by apply tr with y.
Qed.

Section SortBy.
Context {A : Type} (P : A → Prop) (cmp : A → A → comparison) (C : consistent P cmp).

Lemma cmp_refl x : P x → cmp x x = Eq.
Proof. intros Px. pose proof (cmp_opp P cmp C x x Px Px). by destruct (cmp x x). Qed.

Lemma sort_by_perm l : sort_by cmp l ≡ₚ l.
Proof. apply stable_sort_perm. Qed.

Lemma sort_by_sorted l : Forall P l → StronglySorted (λ x y, cmp x y ≠ Gt) (sort_by cmp l).
Proof.
  intros Hl. apply (stable_sort_sorted _ P); [| | |done].
  - intros x y Px Py H. apply bool_decide_eq_true in H. rewrite (cmp_opp P cmp C x y), H by done. done.
  - intros x y Px Py H. by apply bool_decide_eq_false in H.
  - intros x y z Px Py Pz. by apply (cmp_trans P cmp C).
Qed.

Lemma sort_insert_class x y l :
  P x → P y → Forall P l → StronglySorted (λ x y, cmp x y ≠ Gt) l →
  filter (λ z, cmp x z = Eq) (sort_insert (λ x y, bool_decide (cmp x y = Gt)) y l)
  = filter (λ z, cmp x z = Eq) (y :: l).
Proof.
  intros Px Py. induction l as [|z l IH]; intros Hl Hs; [done|]. cbn [sort_insert].
  apply Forall_cons in Hl as [Pz Hl]. apply StronglySorted_inv in Hs as [Hs Hz].
  case_bool_decide as G; [|done].
  assert (Hne : ¬ (cmp x y = Eq ∧ cmp x z = Eq)).
  { intros [E1 E2]. apply (cmp_trans P cmp C y x z); [done..| | |done].
    - by rewrite (cmp_opp P cmp C x y), E1.
    - by rewrite E2. }
  rewrite !filter_cons, IH, filter_cons by done. destruct (decide (cmp x z = Eq)), (decide (cmp x y = Eq)); tauto.
Qed.

(** Rows the comparator does not tell apart keep their order. *)
Lemma sort_by_stable x l :
  P x → Forall P l → filter (λ z, cmp x z = Eq) (sort_by cmp l) = filter (λ z, cmp x z = Eq) l.
Proof.
  intros Px. induction 1 as [|y l Py Hl IH]; [done|]. cbn [sort_by stable_sort foldr].
  change (foldr _ [] l) with (sort_by cmp l). rewrite sort_insert_class; [|done..| |].
  - by rewrite !filter_cons, IH.
  - by rewrite sort_by_perm.
  - by apply sort_by_sorted.
Qed.
End SortBy.

(** A column of quantities: a finite double from zero to the largest safe integer. *)
Definition quantity (x : num) : Prop := double x ∧ between 0 (2 ^ 53 - 1) x.

Lemma round_ratio_positive n d :
  (0 < d → d <= n * 2 ^ 1074 → n <= (2 ^ 53 - 1) * d → num_ltb (Fin 0 0) (round_ratio n d) = true)%Z.
Proof.
  intros Hd Hn Hb. assert (0 < n)%Z by nia.
  assert (H1 : num_leb (round_ratio 1 (2 ^ 1074)) (round_ratio n d) = true).
  { apply round_ratio_mono with (2 ^ 53 - 1)%Z; [lia|done|done|rewrite Z.mul_1_l; exact Hn|done|lia]. }
  pose proof (round_ratio_between 0 (2 ^ 53 - 1) n d) as B.
  destruct (round_ratio n d) as [| |m e]; [destruct B; lia..|].
  assert (Hone : round_ratio 1 (2 ^ 1074) = Fin 1 (-1074)) by (vm_compute; reflexivity).
  rewrite Hone in H1. cbn [num_leb num_ltb] in *. apply Z.leb_le in H1. apply Z.ltb_lt.
  assert (0 < 2 ^ (- e))%Z by (apply Z.pow_pos_nonneg; destruct B; lia).
  assert (0 < 2 ^ (- -1074))%Z by (apply Z.pow_pos_nonneg; lia). nia.
Qed.

Lemma round_ratio_negative n d :
  (0 < d → d <= n * 2 ^ 1074 → n <= (2 ^ 53 - 1) * d → num_ltb (round_ratio (- n) d) (Fin 0 0) = true)%Z.
Proof.
  intros Hd Hn Hb. pose proof (round_ratio_positive n d Hd Hn Hb) as H. rewrite round_ratio_opp.
  destruct (round_ratio n d) as [|[]|m e]; try done. cbn [num_ltb] in *. apply Z.ltb_lt in H. apply Z.ltb_lt. lia.
Qed.

(** Subtracting two quantities tells which is the greater. *)
Lemma num_sub_sign x y :
  quantity x → quantity y →
  answer_sign (num_sub x y) = if num_ltb y x then Gt else if num_ltb x y then Lt else Eq.
Proof.
  intros [Dx Bx] [Dy By]. pose proof (double_exponent x _ Dx Bx eq_refl) as Ex. pose proof (double_exponent y _ Dy By eq_refl) as Ey.
  destruct x as [| |m e], y as [| |m' e']; try done. cbn in Ex, Ey, Bx, By.
  unfold num_sub. cbn [num_opp num_add num_ltb]. rewrite Z.mul_opp_l, Z.add_opp_r.
  set (n := (m * 2 ^ (- e') - m' * 2 ^ (- e))%Z).
  assert (A : (0 < 2 ^ (- e))%Z) by (apply Z.pow_pos_nonneg; lia).
  assert (A' : (0 < 2 ^ (- e'))%Z) by (apply Z.pow_pos_nonneg; lia).
  assert (D : n ≠ 0%Z → (2 ^ (- e) * 2 ^ (- e') <= Z.abs n * 2 ^ 1074)%Z).
  { intros Hn. set (k := Z.max (- e) (- e')).
    assert (K : (Z.divide (2 ^ (- e + - e' - k)) n)).
    { apply Z.divide_sub_r; apply Z.divide_mul_r.
      - exists (2 ^ (k + e))%Z. rewrite <-Z.pow_add_r by lia. f_equal. lia.
      - exists (2 ^ (k + e'))%Z. rewrite <-Z.pow_add_r by lia. f_equal. lia. }
    assert (2 ^ (- e + - e' - k) <= Z.abs n)%Z.
    { apply Z.divide_pos_le; [lia|]. by apply Z.divide_abs_r. }
    rewrite <-Z.pow_add_r by lia. replace (- e + - e')%Z with ((- e + - e' - k) + k)%Z by lia.
    rewrite Z.pow_add_r by lia. assert (2 ^ k <= 2 ^ 1074)%Z by (apply Z.pow_le_mono_r; lia).
    assert (0 < 2 ^ (- e + - e' - k))%Z by (apply Z.pow_pos_nonneg; lia).
    assert (0 < 2 ^ k)%Z by (apply Z.pow_pos_nonneg; lia). nia. }
  assert (Bn : (Z.abs n <= (2 ^ 53 - 1) * (2 ^ (- e) * 2 ^ (- e')))%Z).
  { clear D. unfold n. generalize dependent (2 ^ (- e))%Z. generalize dependent (2 ^ (- e'))%Z.
    generalize (2 ^ 53 - 1)%Z. intros. nia. }
  assert (0 < 2 ^ (- e) * 2 ^ (- e'))%Z by nia.
  destruct (Z.ltb_spec (m' * 2 ^ (- e)) (m * 2 ^ (- e'))); [|destruct (Z.ltb_spec (m * 2 ^ (- e')) (m' * 2 ^ (- e)))].
  - unfold answer_sign. rewrite round_ratio_positive; [done|done| |]; rewrite <-(Z.abs_eq n) by lia; [apply D; lia|done].
  - assert (N : num_ltb (round_ratio n (2 ^ (- e) * 2 ^ (- e'))) (Fin 0 0) = true).
    { rewrite <-(Z.opp_involutive n). apply round_ratio_negative; [done| |]; rewrite <-(Z.abs_neq n) by lia; [apply D; lia|done]. }
    unfold answer_sign. rewrite N. destruct (round_ratio n _) as [|[]|q u]; try done. cbn [num_ltb] in *.
    apply Z.ltb_lt in N. by rewrite (proj2 (Z.ltb_ge _ _)) by lia.
  - replace n with 0%Z by lia. done.
Qed.

Lemma num_ltb_leb x y : quantity x → quantity y → num_ltb x y = negb (num_leb y x).
Proof.
  intros [_ Bx] [_ By]. destruct x as [| |m e], y as [| |m' e']; try done. cbn.
  by rewrite Z.leb_antisym, negb_involutive.
Qed.

(** Sorting by a quantity is well defined. *)
Lemma quantity_consistent {A} (P : A → Prop) (f : A → num) :
  (∀ x, P x → quantity (f x)) → consistent P (λ x y, answer_sign (num_sub (f x) (f y))).
Proof.
  intros Q.
  assert (L : ∀ x y, P x → P y → answer_sign (num_sub (f x) (f y)) ≠ Gt ↔ num_leb (f x) (f y) = true).
  { intros x y Px Py. rewrite num_sub_sign, num_ltb_leb by auto. destruct (num_leb (f x) (f y)); cbn; [|done].
    split; [done|]. intros _. by case_match. }
  split.
  - intros x y Px Py. rewrite !num_sub_sign by auto.
    destruct (num_ltb (f x) (f y)) eqn:E1, (num_ltb (f y) (f x)) eqn:E2; try done.
    pose proof (Q x Px) as [_ Bx]. pose proof (Q y Py) as [_ By].
    destruct (f x), (f y); try done. cbn in *. apply Z.ltb_lt in E1, E2. lia.
  - intros x y z Px Py Pz. rewrite !L by done. pose proof (Q y Py) as [_ By].
    by apply (num_leb_trans _ _ _ _ _ By).
Qed.

(** ** Pages *)

(** [rows.slice(page * size, (page + 1) * size)] *)
Definition page_slice {A} (size page : nat) (rows : list A) : list A := take size (drop (page * size) rows).

(** [Math.max(1, Math.ceil(n / size))] *)
Definition total_pages (size n : nat) : nat := Nat.max 1 ((n + size - 1) / size).

Section Pages.
Context {A : Type} (size : nat) (size_pos : 0 < size).
Implicit Types l : list A.

Lemma pages_take k l : concat ((λ i, page_slice size i l) <$> seq 0 k) = take (k * size) l.
Proof.
  induction k as [|k IH]; [by rewrite take_0|].
  rewrite seq_S, fmap_app, concat_app, IH. cbn. rewrite app_nil_r. unfold page_slice.
  rewrite take_take_drop. f_equal. lia.
Qed.

Lemma total_pages_cover n : n ≤ total_pages size n * size.
Proof.
  unfold total_pages. pose proof (Nat.div_mod_eq (n + size - 1) size).
  pose proof (Nat.mod_upper_bound (n + size - 1) size ltac:(lia)). nia.
Qed.

Lemma total_pages_tight n page : page < total_pages size n → page * size < n ∨ (page = 0 ∧ n = 0).
Proof.
  unfold total_pages. intros Hp. destruct (decide (n = 0)) as [->|Hn].
  - right. split; [|done]. rewrite Nat.div_small in Hp by lia. lia.
  - left. assert (1 ≤ (n + size - 1) / size) by (apply Nat.div_le_lower_bound; lia).
    assert (S page ≤ (n + size - 1) / size) by lia.
    assert (size * S page ≤ n + size - 1).
    { etrans; [apply Nat.mul_le_mono_l; eassumption|]. apply Nat.Div0.mul_div_le. }
    nia.
Qed.

(** The pages, in order, are the rows: none missing, none twice. *)
Lemma pages_concat l :
  concat ((λ i, page_slice size i l) <$> seq 0 (total_pages size (length l))) = l.
Proof. rewrite pages_take. apply take_ge. apply total_pages_cover. Qed.

Lemma page_length page l : length (page_slice size page l) = Nat.min size (length l - page * size).
Proof. unfold page_slice. by rewrite length_take, length_drop. Qed.

Lemma page_beyond page l : total_pages size (length l) ≤ page → page_slice size page l = [].
Proof.
  intros Hp. apply length_zero_iff_nil. rewrite page_length. pose proof (total_pages_cover (length l)). nia.
Qed.

Lemma page_in_range page l :
  page < total_pages size (length l) → l ≠ [] → page_slice size page l ≠ [].
Proof.
  intros Hp Hl E. apply (f_equal length) in E. rewrite page_length in E. cbn in E.
  destruct (total_pages_tight _ _ Hp) as [|[_ Hn]]; [lia|]. by apply length_zero_iff_nil in Hn.
Qed.
End Pages.

(** ** The row filter and the footer of [SearchBar.tsx] *)

Record TransactionFilterable := MkFilterable {
  from_address : option str; memo : option str; status : option str;
  sender_username : option str; receiver_username : option str; tx_hash : option str }.

Definition filterable_texts (row : TransactionFilterable) : list (option str) :=
  [from_address row; memo row; status row; sender_username row; receiver_username row; tx_hash row].

Section RowFilter.
Context `{UnicodeCase} {T : Type} (view : T → TransactionFilterable).

Definition row_matches (term : str) (row : T) : bool :=
  existsb (λ value, includes term (to_lower (default [] value))) (filterable_texts (view row)).

Definition filterTransactionRows (rows : list T) (query : str) : list T :=
  let term := to_lower (trim query) in
  if truthy term then filter (λ row, row_matches term row = true) rows else rows.

Lemma filterTransactionRows_elem rows query row :
  row ∈ filterTransactionRows rows query ↔
  row ∈ rows ∧ (to_lower (trim query) = [] ∨ row_matches (to_lower (trim query)) row = true).
Proof.
  unfold filterTransactionRows. destruct (truthy _) eqn:T0.
  - apply truthy_true in T0. rewrite list_elem_of_filter. naive_solver.
  - apply truthy_false in T0. naive_solver.
Qed.
End RowFilter.

Definition PAGE_SIZE_OPTIONS : list nat := [10; 25; 50; 100].

Record footer := Footer {
  ft_from : nat; ft_to : nat; ft_total : nat; ft_prev_disabled : bool; ft_next_disabled : bool }.

Definition PaginationFooter (total page pageSize : nat) : footer :=
  Footer (if total =? 0 then 0 else page * pageSize + 1) (Nat.min ((page + 1) * pageSize) total) total
    (page =? 0) (total_pages pageSize total - 1 <=? page).

(** The footer numbers the rows shown, and its buttons stay within the pages. *)
Lemma footer_shows {A} size page (rows : list A) :
  0 < size → page < total_pages size (length rows) →
  let f := PaginationFooter (length rows) page size in
  (∀ i, page_slice size page rows !! i = if decide (i < size) then rows !! (page * size + i) else None) ∧
  (rows ≠ [] → ft_to f - ft_from f + 1 = length (page_slice size page rows) ∧ 1 ≤ ft_from f ≤ ft_to f) ∧
  (ft_prev_disabled f = false → page - 1 < page) ∧
  (ft_next_disabled f = false → page + 1 < total_pages size (length rows)).
Proof.
  intros Hs Hp. cbn. split; [|split; [|split]].
  - intros i. unfold page_slice. case_decide.
    + by rewrite lookup_take_lt, lookup_drop by lia.
    + by rewrite lookup_take_ge by lia.
  - intros Hne. destruct (total_pages_tight size Hs _ _ Hp) as [|[_ E]]; [|by apply length_zero_iff_nil in E].
    rewrite page_length. rewrite (proj2 (Nat.eqb_neq _ _)) by lia. nia.
  - intros E. apply Nat.eqb_neq in E. lia.
  - intros E. apply Nat.leb_gt in E. lia.
Qed.
