(* ===== verification/Effects.v ===== *)
(** * Host effects

    The interface between the services and what lies outside the repository:
    the two key-value stores of the phone and the browser's [localStorage],
    [fetch], NetInfo, the clock and the random source. The services are proved
    against the laws of this interface; [scripted] at the end is an
    implementation of it by a concrete world, on which every service runs. *)

From S2P Require Import Prelude JsString JsNumber JsDate.

(** ** Requests and responses *)

Record request := Request {
  rq_url : str;
  rq_method : str;
  rq_headers : list (str * str);
  rq_body : option str;
}.

Record response := Response {
  rs_status : Z;
  rs_statusText : str;
  rs_body : str;
}.

#[export] Instance request_eq_dec : EqDecision request.
Proof. solve_decision. Defined.
#[export] Instance response_eq_dec : EqDecision response.
Proof. solve_decision. Defined.

(** [response.ok] *)
Definition rs_ok (r : response) : bool := (200 <=? rs_status r)%Z && (rs_status r <? 300)%Z.

(** Header objects: a later spread overwrites an earlier key in place. *)
Fixpoint set_header (k v : str) (hs : list (str * str)) : list (str * str) :=
  match hs with
  | [] => [(k, v)]
  | (k', v') :: hs' => if str_eqb k k' then (k', v) :: hs' else (k', v') :: set_header k v hs'
  end.

Definition spread_headers (base extra : list (str * str)) : list (str * str) :=
  foldl (λ hs kv, set_header kv.1 kv.2 hs) base extra.

Definition header (k : str) (hs : list (str * str)) : option str :=
  snd <$> find (λ kv, str_eqb k kv.1) hs.

Definition content_type_json : str * str := (js "Content-Type", js "application/json").
Definition bearer (token : str) : str * str := (js "Authorization", js "Bearer " ++ token).

(** [...(token ? { Authorization: `Bearer ${token}` } : {})] *)
Definition auth_header (token : option str) : list (str * str) :=
  match token with
  | Some t => if truthy t then [bearer t] else []
  | None => []
  end.

Lemma header_set_eq k v hs : header k (set_header k v hs) = Some v.
Proof.
  induction hs as [|[k' v'] hs IH]; unfold header in *; cbn; [by rewrite str_eqb_refl|].
  destruct (str_eqb k k') eqn:E; cbn; rewrite E; [done|exact IH].
Qed.

Lemma header_set_ne k k' v hs : k ≠ k' → header k (set_header k' v hs) = header k hs.
Proof.
  intros Hne. induction hs as [|[k2 v2] hs IH]; unfold header in *; cbn.
  - by rewrite (proj2 (str_eqb_false k k') Hne).
  - destruct (str_eqb k' k2) eqn:E; cbn; destruct (str_eqb k k2) eqn:E2; try done.
    apply str_eqb_true in E, E2. congruence.
Qed.

(** A trailing bearer header is the one that is sent. *)
Lemma header_bearer base extra t :
  truthy t = true →
  header (js "Authorization") (spread_headers base (extra ++ auth_header (Some t)))
    = Some (js "Bearer " ++ t).
Proof.
  intros Ht. unfold spread_headers, auth_header. rewrite Ht, foldl_app. cbn. apply header_set_eq.
Qed.

(** ** The interface *)

Inductive store_id := AsyncStorage | SecureStore | LocalStorage | CookieJar.

#[export] Instance store_id_eq_dec : EqDecision store_id.
Proof. solve_decision. Defined.

Class Host (W : Type) := {
  st_get : store_id → str → M W (option str);
  st_set : store_id → str → str → M W unit;
  st_del : store_id → str → M W unit;
  fetch : request → M W response;
  net_connected : M W (option bool);   (** NetInfo's [isConnected]: true, false or null *)
  date_now : M W Z;                    (** [Date.now()] *)
  math_random : M W num;               (** [Math.random()] *)
  (** Observations, for specifications only. *)
  st_peek : W → store_id → str → option str;
  st_live : W → Prop;                  (** the stores answer *)
  net_trace : W → list (request * res response);  (** requests and their settlement, oldest first *)
}.

Section Observations.
Context `{Host W}.

(** Nothing observable changed. *)
Record kept (w w' : W) : Prop := Kept {
  kept_peek : ∀ s k, st_peek w' s k = st_peek w s k;
  kept_trace : net_trace w' = net_trace w;
  kept_live : st_live w → st_live w';
}.

(** Key [k] of store [s] now holds [v]. *)
Record stored (w w' : W) (s : store_id) (k : str) (v : option str) : Prop := Stored {
  stored_eq : st_peek w' s k = v;
  stored_ne : ∀ s' k', (s', k') ≠ (s, k) → st_peek w' s' k' = st_peek w s' k';
  stored_trace : net_trace w' = net_trace w;
  stored_live : st_live w → st_live w';
}.

(** Request [rq] was handed to the network and settled with [r]. *)
Record sent (w w' : W) (rq : request) (r : res response) : Prop := Sent {
  sent_peek : ∀ s k, st_peek w' s k = st_peek w s k;
  sent_trace : net_trace w' = net_trace w ++ [(rq, r)];
  sent_live : st_live w → st_live w';
}.

#[export] Instance kept_preorder : PreOrder kept.
Proof.
  split; [done|]. intros w1 w2 w3 [p1 t1 l1] [p2 t2 l2].
  split; [intros; by rewrite p2|by rewrite t2|auto].
Qed.

(** The stores are as they were, whatever was sent. *)
Record stores_kept (w w' : W) : Prop := StoresKept {
  stores_peek : ∀ s k, st_peek w' s k = st_peek w s k;
  stores_live : st_live w → st_live w';
}.

#[export] Instance stores_kept_preorder : PreOrder stores_kept.
Proof.
  split; [done|]. intros w1 w2 w3 [p1 l1] [p2 l2]. split; [intros; by rewrite p2|auto].
Qed.

Lemma stored_kept_l w1 w2 w3 s k v : kept w1 w2 → stored w2 w3 s k v → stored w1 w3 s k v.
Proof.
  intros [p1 t1 l1] [e n t l]. split; [done|..|by rewrite t|auto].
  intros. by rewrite n, p1.
Qed.

Lemma stored_kept_r w1 w2 w3 s k v : stored w1 w2 s k v → kept w2 w3 → stored w1 w3 s k v.
Proof.
  intros [e n t l] [p1 t1 l1]. split; [by rewrite p1|..|by rewrite t1|auto].
  intros. by rewrite p1, n.
Qed.

Lemma sent_kept_l w1 w2 w3 rq r : kept w1 w2 → sent w2 w3 rq r → sent w1 w3 rq r.
Proof.
  intros [p1 t1 l1] [p2 t2 l2]. split; [intros; by rewrite p2|by rewrite t2, t1|auto].
Qed.

Lemma sent_kept_r w1 w2 w3 rq r : sent w1 w2 rq r → kept w2 w3 → sent w1 w3 rq r.
Proof.
  intros [p1 t1 l1] [p2 t2 l2]. split; [intros; by rewrite p2|by rewrite t2, t1|auto].
Qed.
End Observations.

(** [Math.random()] is a double of 53 bits in [0, 1). *)
Definition unit_interval (r : num) : Prop :=
  match r with Fin m e => (e <= 0 ∧ 0 <= m < 2 ^ (- e) ∧ m < 2 ^ 53)%Z | _ => False end.

(** What the services rely on. *)
Class HostLaws (W : Type) `{Host W} := {
  get_spec s k w : ∃ r w', st_get s k w = (r, w') ∧ kept w w' ∧
    (r = Ok (st_peek w s k) ∨ (∃ e, r = Throw e) ∧ ¬ st_live w);
  set_spec s k v w : ∃ r w', st_set s k v w = (r, w') ∧
    ((r = Ok tt ∧ stored w w' s k (Some v)) ∨ ((∃ e, r = Throw e) ∧ kept w w' ∧ ¬ st_live w));
  del_spec s k w : ∃ r w', st_del s k w = (r, w') ∧
    ((r = Ok tt ∧ stored w w' s k None) ∨ ((∃ e, r = Throw e) ∧ kept w w' ∧ ¬ st_live w));
  fetch_spec rq w : ∃ r w', fetch rq w = (r, w') ∧ sent w w' rq r;
  net_spec w : ∃ c w', net_connected w = (Ok c, w') ∧ kept w w';
  now_spec w : ∃ t w', date_now w = (Ok t, w') ∧ kept w w' ∧ iso_range t;
  random_spec w : ∃ r w', math_random w = (Ok r, w') ∧ kept w w' ∧ unit_interval r;
}.

Section LiveSpecs.
Context `{HostLaws W}.

Lemma get_live s k w : st_live w → ∃ w', st_get s k w = (Ok (st_peek w s k), w') ∧ kept w w'.
Proof. intros L. destruct (get_spec s k w) as (r & w' & E & K & [->|[_ ?]]); [eauto|done]. Qed.

Lemma set_live s k v w : st_live w → ∃ w', st_set s k v w = (Ok tt, w') ∧ stored w w' s k (Some v).
Proof.
  intros L. destruct (set_spec s k v w) as (r & w' & E & [[-> S]|(_ & _ & ?)]); [eauto|done].
Qed.

Lemma del_live s k w : st_live w → ∃ w', st_del s k w = (Ok tt, w') ∧ stored w w' s k None.
Proof.
  intros L. destruct (del_spec s k w) as (r & w' & E & [[-> S]|(_ & _ & ?)]); [eauto|done].
Qed.
End LiveSpecs.

#[export] Hint Resolve kept_live stored_live sent_live : zaps.

(** ** Module state beside the host

    Module-level variables are a record [S] threaded beside the host world. *)

Definition host {S W A} (m : M W A) : M (S * W) A := λ sw,
  let '(r, w') := m sw.2 in (r, (sw.1, w')).
Definition get_state {S W} : M (S * W) S := λ sw, (Ok sw.1, sw).
Definition modify_state {S W} (f : S → S) : M (S * W) unit := λ sw, (Ok tt, (f sw.1, sw.2)).

Lemma run_host {S W A} (m : M W A) (s : S) w r w' :
  m w = (r, w') → host m (s, w) = (r, (s, w')).
Proof. intros E. unfold host. cbn. by rewrite E. Qed.

Lemma run_get_state {S W} (s : S) (w : W) : get_state (s, w) = (Ok s, (s, w)).
Proof. reflexivity. Qed.

Lemma run_modify_state {S W} (f : S → S) (s : S) (w : W) :
  modify_state f (s, w) = (Ok tt, (f s, w)).
Proof. reflexivity. Qed.

(** A pure computation that may throw. *)
Definition of_res {W A} (r : res A) : M W A := λ w, (r, w).

(** [m.catch(() => {})] and [try { m } catch {}] on an action without result. *)
Definition swallow {W} (m : M W unit) : M W unit := try_catch m (λ _, mret tt).

Lemma swallow_ok {W} (m : M W unit) w : ∃ w', swallow m w = (Ok tt, w') ∧ (m w).2 = w'.
Proof. unfold swallow, try_catch. destruct (m w) as [[[]|e] w']; eexists; split; done. Qed.

(** *** Frames

    Every run of [m], returning or throwing, relates the module states by [R]. *)

Definition within {S W A} (R : S → S → Prop) (m : M (S * W) A) : Prop :=
  ∀ s w, R s (m (s, w)).2.1.

Section Within.
Context {S W : Type} (R : S → S → Prop) `{!PreOrder R}.

Lemma within_ret {A} (a : A) : within (W := W) R (mret a).
Proof. by intros s w. Qed.

Lemma within_throw {A} e : within (W := W) (A := A) R (throw e).
Proof. by intros s w. Qed.

Lemma within_of_res {A} (r : res A) : within (W := W) R (of_res r).
Proof. by intros s w. Qed.

Lemma within_get : within (W := W) R get_state.
Proof. by intros s w. Qed.

Lemma within_host {A} (m : M W A) : within R (host m).
Proof. intros s w. unfold host. cbn. by destruct (m w). Qed.

Lemma within_modify (f : S → S) : (∀ s, R s (f s)) → within (W := W) R (modify_state f).
Proof. intros Hf s w. apply Hf. Qed.

Lemma within_bind {A B} (m : M (S * W) A) (f : A → M (S * W) B) : within R m → (∀ a, within R (f a)) → within R (m ≫= f).
Proof.
  intros Hm Hf s w. specialize (Hm s w). rewrite run_bind. destruct (m (s, w)) as [[a|e] [s1 w1]]; cbn in *; [|done].
  etrans; [exact Hm|apply Hf].
Qed.

Lemma within_try {A} (m : M (S * W) A) h : within R m → (∀ e, within R (h e)) → within R (try_catch m h).
Proof.
  intros Hm Hh s w. specialize (Hm s w). unfold try_catch. destruct (m (s, w)) as [[a|e] [s1 w1]]; cbn in *; [done|].
  etrans; [exact Hm|apply Hh].
Qed.
End Within.

(** Peels a program into its updates of the module state. *)
Ltac frame :=
  repeat match goal with
  | |- within ?R (_ ≫= _) => apply (within_bind R); [|intros ?]
  | |- within ?R (try_catch _ _) => apply (within_try R); [|intros ?]
  | |- within ?R (mret _) => apply (within_ret R)
  | |- within ?R (throw _) => apply (within_throw R)
  | |- within ?R (of_res _) => apply (within_of_res R)
  | |- within ?R get_state => apply (within_get R)
  | |- within ?R (host _) => apply (within_host R)
  | |- within ?R (modify_state _) => apply (within_modify R); intros ?
  | |- within _ (match ?x with _ => _ end) => destruct x
  | |- within _ (let _ := _ in _) => cbv zeta
  end.

(** ** A concrete host *)

Record scripted := Scripted {
  sc_stores : list (store_id * str * str);   (** association list, first match wins *)
  sc_dead : bool;                            (** the stores reject every operation *)
  sc_replies : list (res response);          (** what [fetch] settles with, in order *)
  sc_trace : list (request * res response);
  sc_online : option bool;
  sc_clock : Z;
  sc_random : num;
}.

Definition sc_error : js_error := new_error (js "storage unavailable").
Definition sc_offline : js_error := new_error (js "Network request failed").

Definition sc_lookup (s : store_id) (k : str) (l : list (store_id * str * str)) : option str :=
  snd <$> find (λ e, bool_decide (e.1 = (s, k))) l.

Definition sc_remove (s : store_id) (k : str) (l : list (store_id * str * str)) :=
  List.filter (λ e, bool_decide (e.1 ≠ (s, k))) l.

Arguments sc_lookup : simpl never.
Arguments sc_remove : simpl never.

Definition sc_with (w : scripted) st :=
  Scripted st (sc_dead w) (sc_replies w) (sc_trace w) (sc_online w) (sc_clock w) (sc_random w).

Definition sc_reading (r : num) : num :=
  match r with
  | Fin m e => if (e <=? 0)%Z && (0 <=? m)%Z && (m <? 2 ^ (- e))%Z && (m <? 2 ^ 53)%Z then r else Fin 0 0
  | _ => Fin 0 0
  end.

Definition sc_time (t : Z) : Z :=
  if (-62167219200000 <=? t)%Z && (t <? 253402300800000)%Z then t else 0%Z.

#[export] Instance scripted_host : Host scripted := {
  st_get s k w := (if sc_dead w then Throw sc_error else Ok (sc_lookup s k (sc_stores w)), w);
  st_set s k v w :=
    if sc_dead w then (Throw sc_error, w)
    else (Ok tt, sc_with w ((s, k, v) :: sc_remove s k (sc_stores w)));
  st_del s k w :=
    if sc_dead w then (Throw sc_error, w) else (Ok tt, sc_with w (sc_remove s k (sc_stores w)));
  fetch rq w :=
    let r := default (Throw sc_offline) (head (sc_replies w)) in
    (r, Scripted (sc_stores w) (sc_dead w) (tail (sc_replies w)) (sc_trace w ++ [(rq, r)])
          (sc_online w) (sc_clock w) (sc_random w));
  net_connected w := (Ok (sc_online w), w);
  date_now w := (Ok (sc_time (sc_clock w)), w);
  math_random w := (Ok (sc_reading (sc_random w)), w);
  st_peek w s k := sc_lookup s k (sc_stores w);
  st_live w := sc_dead w = false;
  net_trace w := sc_trace w;
}.

Lemma sc_lookup_remove s k s' k' l :
  sc_lookup s' k' (sc_remove s k l) = if decide ((s', k') = (s, k)) then None else sc_lookup s' k' l.
Proof.
  unfold sc_lookup, sc_remove. induction l as [|e l IH]; cbn; [by case_decide|].
  destruct (decide (e.1 = (s, k))) as [He|He].
  - rewrite bool_decide_eq_false_2 by naive_solver. rewrite IH. case_decide as Hd; [done|].
    rewrite bool_decide_eq_false_2; [done|]. congruence.
  - rewrite bool_decide_eq_true_2 by done. cbn.
    destruct (decide (e.1 = (s', k'))) as [He'|He'].
    + rewrite !bool_decide_eq_true_2 by done. rewrite decide_False by congruence. done.
    + rewrite !bool_decide_eq_false_2 by done. exact IH.
Qed.

Lemma sc_lookup_cons s k v s' k' l :
  sc_lookup s' k' ((s, k, v) :: l) = if decide ((s', k') = (s, k)) then Some v else sc_lookup s' k' l.
Proof.
  unfold sc_lookup. cbn. case_decide as Hd.
  - injection Hd as -> ->. by rewrite bool_decide_eq_true_2.
  - rewrite bool_decide_eq_false_2; [done|]. congruence.
Qed.

#[export] Instance scripted_laws : HostLaws scripted.
Proof.
  split.
  - intros s k w. cbn. destruct (sc_dead w) eqn:E; eexists _, _; (split; [done|]); (split; [done|]);
      [right; split; [by eexists|done]|by left].
  - intros s k v w. cbn. destruct (sc_dead w) eqn:E; eexists _, _; (split; [done|]).
    + right. repeat split; [by eexists|done|done].
    + left. split; [done|]. split; cbn; [|intros s' k' Hn|done|done].
      * rewrite sc_lookup_cons. by rewrite decide_True.
      * rewrite sc_lookup_cons, sc_lookup_remove. by rewrite !decide_False.
  - intros s k w. cbn. destruct (sc_dead w) eqn:E; eexists _, _; (split; [done|]).
    + right. repeat split; [by eexists|done|done].
    + left. split; [done|]. split; cbn; [|intros s' k' Hn|done|done].
      * rewrite sc_lookup_remove. by rewrite decide_True.
      * rewrite sc_lookup_remove. by rewrite decide_False.
  - intros rq w. cbn. eexists _, _. split; [done|]. by split.
  - intros w. cbn. eexists _, _. by split.
  - intros w. cbn. eexists _, _. split; [done|]. split; [done|]. unfold sc_time, iso_range.
    destruct (_ && _) eqn:E; lia.
  - intros w. cbn. eexists _, _. split; [done|]. split; [done|]. unfold sc_reading.
    destruct (sc_random w) as [|?|m e]; cbn; [lia..|].
    destruct ((e <=? 0)%Z && (0 <=? m)%Z && (m <? 2 ^ (- e))%Z && (m <? 2 ^ 53)%Z) eqn:E; cbn; [|lia].
    rewrite !andb_true_iff in E. lia.
Qed.
