(* ===== verification/Tasks.v ===== *)
(** * Handlers that wait

    An asynchronous handler of a screen as a task: what it does up to its next [await], and
    what is left of it then. A task can be run alone to its end or given turns among others,
    and a relation between the states before and after each of its turns is a property of
    the task. *)

From S2P Require Import Prelude Effects.

(** What is left of an asynchronous handler: nothing, or what it does up to its next [await]. *)
Inductive task (X : Type) : Type :=
  | Rest
  | Await (m : M X (task X)).
Arguments Rest {X}.
Arguments Await {X} m.

(** The handler run alone, to its end or to what it throws. *)
Fixpoint finish {X} (t : task X) : M X unit := λ x,
  match t with
  | Rest => (Ok tt, x)
  | Await m => match m x with
               | (Ok t', x') => finish t' x'
               | (Throw e, x') => (Throw e, x')
               end
  end.

(** The handler [i] goes on up to its next [await]; a rejection ends it. *)
Definition turn {X} (ts : list (task X) * X) (i : nat) : list (task X) * X :=
  match ts.1 !! i with
  | Some (Await m) => match m ts.2 with
                      | (Ok t', x') => (<[i := t']> ts.1, x')
                      | (Throw _, x') => (<[i := Rest]> ts.1, x')
                      end
  | _ => ts
  end.

Definition interleave {X} (ts : list (task X)) (order : list nat) (x : X) : list (task X) * X := foldl turn (ts, x) order.

Lemma finish_bind {X A} (m : M X A) (k : A → M X (task X)) x :
  finish (Await (m ≫= k)) x = match m x with (Ok a, x') => finish (Await (k a)) x' | (Throw e, x') => (Throw e, x') end.
Proof. cbn [finish]. rewrite run_bind. by destruct (m x) as [[a|e] x']. Qed.

Lemma finish_ret {X} (t : task X) x : finish (Await (mret t)) x = finish t x.
Proof. done. Qed.

(** A computation of the world, run beside the state of the screen and of the API client. *)
Lemma run_device {P Q W A} (m : M W A) (p : P) (s : Q) w r w' : m w = (r, w') → host (host m) (p, (s, w)) = (r, (p, (s, w'))).
Proof. intros E. unfold host. cbn. by rewrite E. Qed.

(** Induction on what is left after each [await]. *)
Definition remaining {X} (r : res (task X) * X) : option (task X) := match r.1 with Ok t => Some t | Throw _ => None end.

Fixpoint task_rect' {X} (P : task X → Prop) (HR : P Rest)
    (HA : ∀ m, (∀ x, match remaining (m x) with Some t => P t | None => True end) → P (Await m)) (t : task X) : P t :=
  match t with
  | Rest => HR
  | Await m => HA m (λ x, match m x as r return match remaining r with Some t => P t | None => True end with
                          | (Ok t', _) => task_rect' P HR HA t'
                          | (Throw _, _) => I
                          end)
  end.

(** A handler given turns until it ends has done what it does alone, and the others are where they were. *)
Lemma turns_finish {X} (t : task X) : ∀ ts i x, ts !! i = Some t → ∃ n,
  interleave ts (repeat i n) x = (<[i := Rest]> ts, (finish t x).2).
Proof.
  induction t as [|m IH] using task_rect'; intros ts i x Ht.
  - exists 0. cbn. by rewrite list_insert_id.
  - specialize (IH x). destruct (m x) as [[t'|e] x'] eqn:E; cbn [remaining fst] in IH.
    + destruct (IH (<[i := t']> ts) i x') as [n F]; [apply list_lookup_insert_eq; by eapply lookup_lt_Some|].
      exists (S n). assert (T : turn (ts, x) i = (<[i := t']> ts, x')) by (unfold turn; cbn; by rewrite Ht, E).
      unfold interleave in *. cbn [repeat foldl finish]. rewrite T, E, F. by rewrite list_insert_insert_eq.
    + exists 1. unfold interleave, turn. cbn. by rewrite Ht, E.
Qed.

(** ** What every turn of a task does

    [R x t x']: a turn that starts in [x] ends in [x'] and leaves [t]; a rejection leaves
    nothing. *)
Fixpoint turns_by {X} (R : X → task X → X → Prop) (t : task X) : Prop :=
  match t with
  | Rest => True
  | Await m => ∀ x, match m x with
                    | (Ok t', x') => R x t' x' ∧ turns_by R t'
                    | (Throw _, x') => R x Rest x'
                    end
  end.

(** What one turn may do to the tasks and the state. *)
Lemma turn_by {X} (R : X → task X → X → Prop) (ts : list (task X)) i x t :
  ts !! i = Some t → turns_by R t →
  turn (ts, x) i = (ts, x) ∨
  ∃ t' x', turn (ts, x) i = (<[i := t']> ts, x') ∧ R x t' x' ∧ turns_by R t'.
Proof.
  intros Ht Hb. unfold turn. cbn. rewrite Ht. destruct t as [|m]; [by left|]. right.
  specialize (Hb x). destruct (m x) as [[t'|e] x']; [destruct Hb; by exists t', x'|by exists Rest, x'].
Qed.

Lemma turn_none {X} (ts : list (task X)) i x : ts !! i = None → turn (ts, x) i = (ts, x).
Proof. intros Ht. unfold turn. cbn. by rewrite Ht. Qed.

Lemma turns_by_weaken {X} (R R' : X → task X → X → Prop) (t : task X) :
  (∀ x t x', R x t x' → R' x t x') → turns_by R t → turns_by R' t.
Proof.
  intros HR. induction t as [|m IH] using task_rect'; [done|]. intros Hb x. specialize (IH x). specialize (Hb x).
  destruct (m x) as [[t'|e] x']; [|by apply HR]. destruct Hb. split; [by apply HR|by apply IH].
Qed.
