(* ===== verification/Faults.v ===== *)
(** * A device whose stores fail

    A host put around another: its stores reject the operations a schedule names and pass
    the others on. A schedule of writes that ends is a process that is cut off there: every
    later write is lost, and what the inner host then holds is what a restart finds. *)

From S2P Require Import Prelude JsString JsNumber JsDate Effects.

Record faulty (W : Type) := Faulty {
  fa_reads : list bool;    (** whether the next reads answer; all do once the list is used up *)
  fa_writes : list bool;   (** whether the next writes and deletions happen; none does once it is used up *)
  fa_disk : W;
}.
Arguments Faulty {W} fa_reads fa_writes fa_disk.
Arguments fa_reads {W} f.
Arguments fa_writes {W} f.
Arguments fa_disk {W} f.

Definition storage_error : js_error := new_error (js "storage").

Section Faulty.
Context `{Host W}.

Definition on_disk {A} (reads writes : list bool) (m : M W A) (w : W) : res A * faulty W :=
  let '(r, w') := m w in (r, Faulty reads writes w').

Definition faulty_read {A} (m : M W A) : M (faulty W) A := λ c,
  match fa_reads c with
  | false :: reads => (Throw storage_error, Faulty reads (fa_writes c) (fa_disk c))
  | _ => on_disk (tail (fa_reads c)) (fa_writes c) m (fa_disk c)
  end.

Definition faulty_write {A} (m : M W A) : M (faulty W) A := λ c,
  match fa_writes c with
  | true :: writes => on_disk (fa_reads c) writes m (fa_disk c)
  | _ => (Throw storage_error, Faulty (fa_reads c) (tail (fa_writes c)) (fa_disk c))
  end.

Definition passed {A} (m : M W A) : M (faulty W) A := λ c, on_disk (fa_reads c) (fa_writes c) m (fa_disk c).

#[export] Instance faulty_host : Host (faulty W) := {|
  st_get s k := faulty_read (st_get s k);
  st_set s k v := faulty_write (st_set s k v);
  st_del s k := faulty_write (st_del s k);
  fetch rq := passed (fetch rq);
  net_connected := passed net_connected;
  date_now := passed date_now;
  math_random := passed math_random;
  st_peek c := st_peek (fa_disk c);
  st_live _ := False;
  net_trace c := net_trace (fa_disk c);
|}.

(** The device under the schedule answers, and reads are not interfered with. *)
Record readable (c : faulty W) : Prop := Readable { re_reads : fa_reads c = []; re_live : st_live (fa_disk c) }.
End Faulty.

Section Laws.
Context `{HostLaws W}.
Implicit Types c : faulty W.

Lemma kept_disk reads writes c w' : kept (fa_disk c) w' → kept c (Faulty reads writes w').
Proof. intros [p t _]. by split. Qed.
Lemma stored_disk reads writes c w' s k v : stored (fa_disk c) w' s k v → stored c (Faulty reads writes w') s k v.
Proof. intros [e n t _]. by split. Qed.

#[export] Instance faulty_laws : HostLaws (faulty W).
Proof.
  split.
  - intros s k c. cbn. unfold faulty_read, on_disk. destruct (get_spec s k (fa_disk c)) as (r & w' & -> & K & D).
    assert (D' : r = Ok (st_peek c s k) ∨ (∃ e, r = Throw e) ∧ ¬ st_live c) by (destruct D as [D|[D _]]; [by left|by right; split; [|intros []]]).
    destruct (fa_reads c) as [|[] l]; eexists _, _; (split; [done|]); (split; [by (apply kept_disk || split)|]); try done.
    right. split; [by eexists|by intros []].
  - intros s k v c. cbn. unfold faulty_write, on_disk. destruct (set_spec s k v (fa_disk c)) as (r & w' & E & D).
    destruct (fa_writes c) as [|[] l]; [|rewrite E|]; eexists _, _; (split; [done|]);
      try (right; split; [by eexists|split; [by split|by intros []]]).
    destruct D as [[-> S]|(R & K & _)]; [left; split; [done|by apply stored_disk]|].
    right. split; [done|]. split; [by apply kept_disk|by intros []].
  - intros s k c. cbn. unfold faulty_write, on_disk. destruct (del_spec s k (fa_disk c)) as (r & w' & E & D).
    destruct (fa_writes c) as [|[] l]; [|rewrite E|]; eexists _, _; (split; [done|]);
      try (right; split; [by eexists|split; [by split|by intros []]]).
    destruct D as [[-> S]|(R & K & _)]; [left; split; [done|by apply stored_disk]|].
    right. split; [done|]. split; [by apply kept_disk|by intros []].
  - intros rq c. cbn. unfold passed, on_disk. destruct (fetch_spec rq (fa_disk c)) as (r & w' & -> & [p t _]).
    eexists _, _. split; [done|]. by split.
  - intros c. cbn. unfold passed, on_disk. destruct (net_spec (fa_disk c)) as (r & w' & -> & K).
    eexists _, _. split; [done|]. by apply kept_disk.
  - intros c. cbn. unfold passed, on_disk. destruct (now_spec (fa_disk c)) as (r & w' & -> & K & R).
    eexists _, _. split; [done|]. split; [by apply kept_disk|done].
  - intros c. cbn. unfold passed, on_disk. destruct (random_spec (fa_disk c)) as (r & w' & -> & K & R).
    eexists _, _. split; [done|]. split; [by apply kept_disk|done].
Qed.

Lemma readable_get s k c : readable c → ∃ c', st_get s k c = (Ok (st_peek c s k), c') ∧ kept c c' ∧ readable c'.
Proof.
  intros [R L]. cbn. unfold faulty_read, on_disk. rewrite R. cbn. destruct (get_live s k (fa_disk c) L) as (w' & -> & K).
  eexists. split; [done|]. split; [by apply kept_disk|]. split; [done|by apply K].
Qed.

(** A write happens or is lost. *)
Definition happened c (r : res unit) c' (s : store_id) (k : str) (v : option str) : Prop :=
  r = Ok tt ∧ stored c c' s k v ∨ (∃ e, r = Throw e) ∧ kept c c'.

Lemma readable_set s k v c : readable c → ∃ r c', st_set s k v c = (r, c') ∧ readable c' ∧ happened c r c' s k (Some v).
Proof.
  intros [R L]. cbn. unfold faulty_write, on_disk. destruct (set_live s k v (fa_disk c) L) as (w' & E & S).
  destruct (fa_writes c) as [|[] l]; [|rewrite E|]; eexists _, _; (split; [done|]); (split; [split; [done|by try apply S]|]);
    first [by right; split; [by eexists|by split]|left; split; [done|by apply stored_disk]].
Qed.

Lemma readable_del s k c : readable c → ∃ r c', st_del s k c = (r, c') ∧ readable c' ∧ happened c r c' s k None.
Proof.
  intros [R L]. cbn. unfold faulty_write, on_disk. destruct (del_live s k (fa_disk c) L) as (w' & E & S).
  destruct (fa_writes c) as [|[] l]; [|rewrite E|]; eexists _, _; (split; [done|]); (split; [split; [done|by try apply S]|]);
    first [by right; split; [by eexists|by split]|left; split; [done|by apply stored_disk]].
Qed.

Lemma readable_now c : readable c → ∃ t c', date_now c = (Ok t, c') ∧ kept c c' ∧ readable c'.
Proof.
  intros [R L]. cbn. unfold passed, on_disk. destruct (now_spec (fa_disk c)) as (t & w' & -> & K & _).
  eexists _, _. split; [done|]. split; [by apply kept_disk|]. split; [done|by apply K].
Qed.
End Laws.
