(* ===== verification/Scripts.v ===== *)
(** * Concrete parameters

    Instances of the host parameters on which the examples and witnesses of the
    components run: case mapping limited to ASCII, collation by code unit, no date text
    beyond ISO 8601, and scripted worlds with given stores and replies. *)

From S2P Require Import Prelude JsString JsNumber JsDate Tables Effects.

Definition ascii_case : UnicodeCase := {| unicode_lower := id; unicode_upper := id |}.
Definition iso_only : HostDates := λ _, NaN.

Fixpoint unit_order (s t : str) : comparison :=
  match s, t with
  | [], [] => Eq
  | [], _ => Lt
  | _, [] => Gt
  | c :: s', d :: t' => match N.compare c d with Eq => unit_order s' t' | o => o end
  end.

Definition unit_collation : Collator := unit_order.

Lemma unit_order_laws : @CollatorLaws unit_collation.
Proof.
  split.
  - intros x y _ _. unfold localeCompare, unit_collation. revert y.
    induction x as [|c x IH]; intros [|d y]; cbn; try done.
    rewrite (N.compare_antisym c d). destruct (N.compare_spec c d) as [->| |]; cbn; [apply IH|done..].
  - intros x y z _ _ _. unfold localeCompare, unit_collation. revert y z.
    induction x as [|c x IH]; intros [|d y] [|e z]; cbn; try done.
    destruct (N.compare_spec c d), (N.compare_spec d e), (N.compare_spec c e); subst; try done; try lia. apply IH.
Qed.

(** A live, online world. *)
Definition world (stores : list (store_id * str * str)) (replies : list (res response)) : scripted :=
  Scripted stores false replies [] (Some true) 1767225600000 (Fin 1 (-1)).

Definition reply (status : Z) (body : str) : res response := Ok (Response status (js "status") body).
