(* ===== verification/Decode.v ===== *)
(** * Typed values in JSON text

    The services persist typed objects as JSON text and read them back with an
    unchecked cast ([JSON.parse(raw) as T]). [Codec] is the interface between a
    type and its JSON form: [to_json] is the object literal the code builds (its
    properties in creation order, [undefined] ones omitted), [of_json] the view of
    a parsed value at the declared type. A parsed value outside the declared
    type makes the model stop with the marker [unchecked_cast]. *)

From S2P Require Import Prelude JsString JsNumber UriCodec Json Effects.

Definition unchecked_cast : js_error :=
  JsError (js "value outside its declared type") (Some (js "UNCHECKED_CAST")) None.

Definition syntax_error : js_error := new_error (js "SyntaxError").

(** [JSON.parse(text)] *)
Definition JSON_parse {W} (text : str) : M W json :=
  match json_parse text with Some v => mret v | None => throw syntax_error end.

(** The [TypeError] of reading a property of [null] or [undefined]. *)
Definition type_error : js_error := new_error (js "TypeError").
Definition uri_error : js_error := new_error (js "URI malformed").

(** [encodeURIComponent(s)] in an async body *)
Definition encode_uri {W} (s : str) : M W str :=
  match encodeURIComponent s with Some e => mret e | None => throw uri_error end.

(** ** Dynamically typed values *)

(** [Boolean(v)], [None] being [undefined]. *)
Definition json_truthy (o : option json) : bool :=
  match o with
  | None | Some JNull => false
  | Some (JBool b) => b
  | Some (JNum n) => num_truthy n
  | Some (JStr s) => truthy s
  | Some (JArr _) | Some (JObj _) => true
  end.

(** [String(v)] *)
Fixpoint json_to_string (v : json) : str :=
  match v with
  | JNull => js "null"
  | JBool b => if b then js "true" else js "false"
  | JNum n => num_to_str n
  | JStr s => s
  | JArr l => join (js ",") (map (λ x, match x with JNull => [] | _ => json_to_string x end) l)
  | JObj _ => js "[object Object]"
  end.

(** [v.k]: reading a property of [null] throws. *)
Definition read_prop {W} (k : str) (v : json) : M W (option json) :=
  match v with JNull => throw type_error | _ => mret (json_get k v) end.

(** A property used at type [string]. *)
Definition as_string {W} (o : option json) : M W str :=
  match o with Some (JStr s) => mret s | _ => throw unchecked_cast end.

(** ** Property reads *)

Definition field_str (k : str) (v : json) : option str := json_str (json_get k v).

(** An optional property: absent or a string. *)
Definition field_opt_str (k : str) (v : json) : option (option str) :=
  match json_get k v with
  | None => Some None
  | Some (JStr s) => Some (Some s)
  | Some _ => None
  end.

(** [string | null] *)
Definition field_null_str (k : str) (v : json) : option (option str) :=
  match json_get k v with
  | Some JNull => Some None
  | Some (JStr s) => Some (Some s)
  | _ => None
  end.

Definition field_int (k : str) (v : json) : option Z :=
  match json_get k v with Some (JNum (Fin z 0)) => Some z | _ => None end.

Definition field_bool (k : str) (v : json) : option bool :=
  match json_get k v with Some (JBool b) => Some b | _ => None end.

Definition field_arr (k : str) (v : json) : option (list json) :=
  match json_get k v with Some (JArr l) => Some l | _ => None end.

(** ** Object literals

    A property whose value is [undefined] is omitted by [JSON.stringify]. *)

Definition present (k : str) (v : json) : str * option json := (k, Some v).
Definition str_value (o : option str) : option json := match o with Some s => Some (JStr s) | None => None end.
Definition optional (k : str) (o : option str) : str * option json := (k, str_value o).

Definition literal_fields (fs : list (str * option json)) : list (str * json) :=
  omap (λ f, pair f.1 <$> f.2) fs.
Definition literal (fs : list (str * option json)) : json := JObj (literal_fields fs).

(** What a literal holds at a key. *)
Fixpoint literal_get (k : str) (fs : list (str * option json)) : option json :=
  match fs with
  | [] => None
  | f :: fs' => if str_eqb k f.1 then f.2 else literal_get k fs'
  end.

Lemma obj_get_literal_notin k fs : k ∉ fs.*1 → obj_get k (literal_fields fs) = None.
Proof.
  induction fs as [|[k' [v|]] fs IH]; cbn; [done| |]; intros Hk;
    apply not_elem_of_cons in Hk as [Hne Hk]; [|by apply IH].
  rewrite (proj2 (str_eqb_false k k')) by done. by apply IH.
Qed.

Lemma json_get_literal k fs : NoDup (fs.*1) → json_get k (literal fs) = literal_get k fs.
Proof.
  intros Hnd. unfold literal. cbn [json_get].
  induction fs as [|[k' o] fs IH]; cbn [literal_get literal_fields fst snd]; [done|].
  cbn in Hnd. apply NoDup_cons in Hnd as [Hk Hnd]. specialize (IH Hnd).
  destruct o as [v|]; cbn.
  - destruct (str_eqb k k'); [done|]. exact IH.
  - destruct (str_eqb k k') eqn:E; [|exact IH].
    apply str_eqb_true in E as ->. by apply obj_get_literal_notin.
Qed.

Lemma literal_keys fs : (literal_fields fs).*1 `sublist_of` fs.*1.
Proof.
  induction fs as [|[k [v|]] fs IH]; cbn; [constructor|by constructor|by constructor].
Qed.

Lemma literal_ok fs :
  NoDup (fs.*1) → Forall (λ f, from_option json_ok True f.2) fs → json_ok (literal fs).
Proof.
  intros Hnd Hfs. unfold literal. apply json_ok_obj. split.
  - eapply sublist_NoDup; [exact Hnd|apply literal_keys].
  - induction Hfs as [|[k [v|]] fs Hv _ IH]; cbn in *; [constructor| |];
      apply NoDup_cons in Hnd as [_ Hnd]; [constructor; auto|auto].
Qed.

Lemma literal_read k fs o :
  NoDup (fs.*1) → literal_get k fs = o → json_get k (literal fs) = o.
Proof. intros Hnd <-. by apply json_get_literal. Qed.

(** Keys of an object literal, as a computed check. *)
Definition keys_distinct (ks : list str) : bool := bool_decide (NoDup ks).
Lemma keys_distinct_true ks : keys_distinct ks = true → NoDup ks.
Proof. apply bool_decide_eq_true_1. Qed.

Ltac solve_keys := apply keys_distinct_true; vm_compute; reflexivity.

(** Splits the members of a literal. *)
Ltac solve_literal_ok :=
  apply literal_ok; [solve_keys|];
  repeat (apply Forall_cons; split); [..|apply Forall_nil; exact I];
  cbn [present optional fst snd from_option];
  try exact I; try (match goal with |- context [str_value ?o] => destruct o; exact I end).

(** Evaluates every read of a literal in the goal. *)
Ltac read_literal :=
  unfold field_str, field_opt_str, field_null_str, field_int, field_bool, field_arr;
  repeat match goal with
  | |- context [json_get ?k (literal ?fs)] =>
      let o := eval lazy -[str_value] in (literal_get k fs) in
      let E := fresh in
      assert (E : json_get k (literal fs) = o)
        by (apply literal_read; [solve_keys|lazy -[str_value]; reflexivity]);
      generalize dependent (json_get k (literal fs)); intros ? ->
  end.

(** The view of an optional property is the property. *)
Lemma optional_view (o : option str) :
  match str_value o with
  | None => Some None
  | Some (JStr s) => Some (Some s)
  | Some _ => None
  end = Some o.
Proof. by destruct o. Qed.

Definition null_str (o : option str) : json :=
  match o with Some s => JStr s | None => JNull end.

(** ** The interface *)

Class Codec (A : Type) := {
  to_json : A → json;
  of_json : json → option A;
  storable : A → Prop;
}.

Class CodecLaws (A : Type) `{Codec A} := {
  of_to_json a : storable a → of_json (to_json a) = Some a;
  to_json_ok a : storable a → json_ok (to_json a);
}.

#[export] Instance str_codec : Codec str := {
  to_json := JStr;
  of_json v := match v with JStr s => Some s | _ => None end;
  storable _ := True;
}.

#[export] Instance str_codec_laws : CodecLaws str.
Proof. by split. Qed.

#[export] Instance list_codec `{Codec A} : Codec (list A) := {
  to_json l := JArr (map to_json l);
  of_json v := match v with JArr l => mapM of_json l | _ => None end;
  storable l := Forall storable l;
}.

#[export] Instance list_codec_laws `{CodecLaws A} : CodecLaws (list A).
Proof.
  split; cbn.
  - induction 1 as [|a l Ha _ IH]; [done|]. cbn. rewrite of_to_json by done. cbn. by rewrite IH.
  - induction 1 as [|a l Ha _ IH]; [done|]. split; [by apply to_json_ok|exact IH].
Qed.

(** [JSON.stringify] of a typed value. *)
Definition to_text `{Codec A} (a : A) : str := stringify (to_json a).

(** [JSON.parse(text)]: [None] is the [SyntaxError]. *)
Definition of_text `{Codec A} (s : str) : option (option A) := of_json <$> json_parse s.

Lemma of_to_text `{CodecLaws A} (a : A) : storable a → of_text (to_text a) = Some (Some a).
Proof.
  intros Ha. unfold of_text, to_text. rewrite parse_stringify by by apply to_json_ok.
  cbn. by rewrite of_to_json.
Qed.

Lemma parse_to_text `{CodecLaws A} (a : A) :
  storable a → ∃ v, json_parse (to_text a) = Some v ∧ of_json v = Some a.
Proof.
  intros Ha. exists (to_json a). split; [by apply parse_stringify, to_json_ok|by apply of_to_json].
Qed.

(** Distinct values have distinct texts. *)
Lemma to_text_inj `{CodecLaws A} (a b : A) : storable a → storable b → to_text a = to_text b → a = b.
Proof.
  intros Ha Hb E. pose proof (of_to_text a Ha) as Ea. rewrite E, (of_to_text b Hb) in Ea. congruence.
Qed.

Lemma to_text_list_truthy `{Codec A} (l : list A) : truthy (to_text l) = true.
Proof. reflexivity. Qed.

(** The cast [v as T]. *)
Definition cast `{Codec A} {W} (v : json) : M W A :=
  match of_json v with Some a => mret a | None => throw unchecked_cast end.

Lemma cast_state `{Codec A} {W} (v : json) (w : W) : (cast (A := A) v w).2 = w.
Proof. unfold cast. by destruct (of_json v). Qed.
