(* ===== verification/Hashing.v ===== *)
(** * Text digests

    What the clients use of the Web Crypto API: the bytes of a text, the SHA-256 digest
    (a parameter) and its hexadecimal form. *)

From S2P Require Import Prelude JsString UriCodec.

(** [crypto.subtle.digest("SHA-256", data)]; [None] when it is not available. *)
Class Digest := subtle_sha256 : list N → option (list N).

(** [new TextEncoder().encode(s)]: a lone surrogate becomes U+FFFD. *)
Fixpoint text_encode (s : str) : list N :=
  match s with
  | [] => []
  | c :: s' =>
      if is_high_surrogate c then
        match s' with
        | d :: s'' => if is_low_surrogate d then utf8 (surrogate_cp c d) ++ text_encode s''
                      else utf8 65533 ++ text_encode s'
        | [] => utf8 65533
        end
      else if is_low_surrogate c then utf8 65533 ++ text_encode s'
      else utf8 c ++ text_encode s'
  end.

Definition byte_hex (b : N) : str := [hex_lower (b / 16); hex_lower (b mod 16)].

(** [hashArray.map((b) => b.toString(16).padStart(2, "0")).join("")] *)
Definition bytes_hex (bytes : list N) : str := concat (byte_hex <$> bytes).
