(* ===== verification/OfflineQueue.v ===== *)
(** * Offline transaction queue

    Model of [mobileapp/src/services/offlineQueue.ts]: the persisted FIFO of
    transactions that could not be sent, its replay with exponential back-off,
    the flag that keeps two replays apart, and the NetInfo listener.

    Reading the queue is the pure [stored_queue] of the stored text; a replay is
    specified by [queue_flushed], which says for every item whether it waited, was
    delivered, was dropped or was rescheduled, and which requests left. The
    last module interleaves enqueues and a replay at their [await] points. *)

From S2P Require Import Prelude JsString JsNumber UriCodec JsDate Json Effects Decode.

(** [Number.prototype.toString(36)] on a fraction is left to the engine. *)
Class Radix36 := to_radix36 : num → str.

Definition OFFLINE_QUEUE_KEY : str := js "@zaps_offline_tx_queue".

Record QueuedTransaction := MkQueued {
  qt_id : str;
  qt_endpoint : str;
  qt_method : str;
  qt_body : list (str * json);
  qt_authToken : option str;
  qt_enqueuedAt : str;
  qt_retryCount : Z;
  qt_nextRetryAt : Z;
}.

Record EnqueueOptions := MkEnqueue {
  eo_endpoint : str;
  eo_method : option str;
  eo_body : list (str * json);
  eo_authToken : option str;
}.

Definition MAX_RETRIES : Z := 5.
Definition BACKOFF_BASE_MS : Z := 2000.
Definition BACKOFF_MAX_MS : Z := 30000.

(** [_isFlushing] and [_wasConnected]. *)
Record queue_flags := QueueFlags { is_flushing : bool; was_connected : option bool }.

Definition set_flushing (b : bool) (s : queue_flags) : queue_flags :=
  QueueFlags b (was_connected s).
Definition set_connected (b : bool) (s : queue_flags) : queue_flags :=
  QueueFlags (is_flushing s) (Some b).

(** ** Stored form *)

Definition queued_to_json (t : QueuedTransaction) : json :=
  literal [present (js "id") (JStr (qt_id t)); present (js "endpoint") (JStr (qt_endpoint t));
           present (js "method") (JStr (qt_method t)); present (js "body") (JObj (qt_body t));
           optional (js "authToken") (qt_authToken t);
           present (js "enqueuedAt") (JStr (qt_enqueuedAt t));
           present (js "retryCount") (JNum (Fin (qt_retryCount t) 0));
           present (js "nextRetryAt") (JNum (Fin (qt_nextRetryAt t) 0))].

Definition queued_of_json (v : json) : option QueuedTransaction :=
  id ← field_str (js "id") v;
  endpoint ← field_str (js "endpoint") v;
  method ← field_str (js "method") v;
  body ← match json_get (js "body") v with Some (JObj b) => Some b | _ => None end;
  authToken ← field_opt_str (js "authToken") v;
  enqueuedAt ← field_str (js "enqueuedAt") v;
  retryCount ← field_int (js "retryCount") v;
  nextRetryAt ← field_int (js "nextRetryAt") v;
  Some (MkQueued id endpoint method body authToken enqueuedAt retryCount nextRetryAt).

(** Well-formed items: a JSON body, a retry budget left, a time that is exact. *)
Definition queued_ok (t : QueuedTransaction) : Prop :=
  json_ok (JObj (qt_body t)) ∧ (0 <= qt_retryCount t < MAX_RETRIES)%Z ∧ safe_int (qt_nextRetryAt t).

#[export] Instance queued_codec : Codec QueuedTransaction := {
  to_json := queued_to_json;
  of_json := queued_of_json;
  storable := queued_ok;
}.

(** ** Back-off *)

(** [Math.pow(2, k)] *)
Definition pow2 (k : Z) : num :=
  if (0 <=? k)%Z then round_ratio (2 ^ k) 1 else round_ratio 1 (2 ^ (- k)).

(** The integer a floored double holds. *)
Definition int_of (x : num) : Z :=
  match x with Fin m e => (m / 2 ^ (- e))%Z | _ => 0%Z end.

Definition backoff_ms (retryCount : Z) (random : num) : Z :=
  let exp := num_min (num_mul (num_of_Z BACKOFF_BASE_MS) (pow2 retryCount)) (num_of_Z BACKOFF_MAX_MS) in
  let jitter := num_mul (num_mul exp (dec_value false 2 (-1))) random in
  int_of (num_floor (num_add exp jitter)).

(** ** Operations *)

Section Operations.
Context `{Host W, Radix36}.

Definition generateId : M W str :=
  now ← date_now;
  r ← math_random;
  mret (Z_to_str now ++ js "-" ++ take 7 (drop 2 (to_radix36 r))).

Definition calcBackoffMs (retryCount : Z) : M W Z :=
  r ← math_random;
  mret (backoff_ms retryCount r).

Definition readQueue : M W (list QueuedTransaction) :=
  parsed ← try_catch
    (raw ← st_get AsyncStorage OFFLINE_QUEUE_KEY;
     match raw with
     | None => mret (JArr [])
     | Some raw =>
         if truthy raw then
           parsed ← JSON_parse raw;
           match parsed with JArr _ => mret parsed | _ => mret (JArr []) end
         else mret (JArr [])
     end)
    (λ _, mret (JArr []));
  cast parsed.

Definition writeQueue (queue : list QueuedTransaction) : M W unit :=
  try_catch (st_set AsyncStorage OFFLINE_QUEUE_KEY (to_text queue)) (λ _, mret tt).

Definition enqueueTransaction (opts : EnqueueOptions) : M W unit :=
  queue ← readQueue;
  id ← generateId;
  enqueued ← date_now;
  next ← date_now;
  writeQueue (queue ++ [MkQueued id (eo_endpoint opts) (default (js "POST") (eo_method opts))
    (eo_body opts) (eo_authToken opts) (to_iso enqueued) 0 next]).

Definition removeFromQueue (id : str) : M W unit :=
  queue ← readQueue;
  writeQueue (List.filter (λ item, negb (str_eqb (qt_id item) id)) queue).

Definition getQueueLength : M W nat :=
  queue ← readQueue;
  mret (length queue).

Definition transmit_request (item : QueuedTransaction) : request :=
  Request (qt_endpoint item) (qt_method item)
    (content_type_json :: auth_header (qt_authToken item))
    (Some (stringify (JObj (qt_body item)))).

Definition transmit (item : QueuedTransaction) : M W bool :=
  try_catch
    (response ← fetch (transmit_request item);
     if rs_ok response || ((400 <=? rs_status response)%Z && (rs_status response <? 500)%Z)
     then mret true else mret false)
    (λ _, mret false).

Definition flush_item (now : Z) (updated : list QueuedTransaction) (item : QueuedTransaction)
    : M (queue_flags * W) (list QueuedTransaction) :=
  if (now <? qt_nextRetryAt item)%Z then mret (updated ++ [item])
  else
    success ← host (transmit item);
    if (success : bool) then mret updated
    else
      let newRetryCount := (qt_retryCount item + 1)%Z in
      if (MAX_RETRIES <=? newRetryCount)%Z then mret updated
      else
        backoff ← host (calcBackoffMs newRetryCount);
        mret (updated ++ [MkQueued (qt_id item) (qt_endpoint item) (qt_method item) (qt_body item)
          (qt_authToken item) (qt_enqueuedAt item) newRetryCount (now + backoff)%Z]).

Definition flushQueue : M (queue_flags * W) unit :=
  flags ← get_state;
  if is_flushing flags then mret tt
  else
    modify_state (set_flushing true);;
    try_finally
      (queue ← host readQueue;
       match queue with
       | [] => mret tt
       | _ =>
           now ← host date_now;
           updated ← for_each (flush_item now) [] queue;
           host (writeQueue updated)
       end)
      (λ sw, (set_flushing false sw.1, sw.2)).

(** The NetInfo callback of [startOfflineQueueSync]. The replay runs in the
    background and never reads [_wasConnected]. *)
Definition on_net_state (isConnected : option bool) : M (queue_flags * W) unit :=
  let connected := bool_decide (isConnected = Some true) in
  flags ← get_state;
  (if connected && bool_decide (was_connected flags = Some false)
   then swallow flushQueue else mret tt);;
  modify_state (set_connected connected).

(** The immediate check of [startOfflineQueueSync]. *)
Definition startOfflineQueueSync : M (queue_flags * W) unit :=
  isConnected ← host net_connected;
  modify_state (set_connected (bool_decide (isConnected = Some true)));;
  if bool_decide (isConnected = Some true) then swallow flushQueue else mret tt.
End Operations.

(** ** Specification *)

(** What the code takes as settled: a 2xx or a 4xx answer. *)
Definition delivered (r : res response) : bool :=
  match r with
  | Ok rs => rs_ok rs || ((400 <=? rs_status rs)%Z && (rs_status rs <? 500)%Z)
  | Throw _ => false
  end.

Definition backoff_floor (retryCount : Z) : Z :=
  Z.min (BACKOFF_BASE_MS * 2 ^ retryCount) BACKOFF_MAX_MS.

Definition rescheduled (item : QueuedTransaction) (next : Z) : QueuedTransaction :=
  MkQueued (qt_id item) (qt_endpoint item) (qt_method item) (qt_body item)
    (qt_authToken item) (qt_enqueuedAt item) (qt_retryCount item + 1) next.

(** The fate of one item: the exchanges it caused and what stays queued. *)
Inductive item_flushed (now : Z) (item : QueuedTransaction)
    : list (request * res response) → list QueuedTransaction → Prop :=
  | item_waits :
      (now < qt_nextRetryAt item)%Z → item_flushed now item [] [item]
  | item_done r :
      (qt_nextRetryAt item <= now)%Z → delivered r = true →
      item_flushed now item [(transmit_request item, r)] []
  | item_dropped r :
      (qt_nextRetryAt item <= now)%Z → delivered r = false →
      (MAX_RETRIES <= qt_retryCount item + 1)%Z →
      item_flushed now item [(transmit_request item, r)] []
  | item_retried r b :
      (qt_nextRetryAt item <= now)%Z → delivered r = false →
      (qt_retryCount item + 1 < MAX_RETRIES)%Z →
      (backoff_floor (qt_retryCount item + 1) <= b <=
         backoff_floor (qt_retryCount item + 1) * 6 / 5)%Z →
      item_flushed now item [(transmit_request item, r)] [rescheduled item (now + b)].

(** A replay handles the items in order. *)
Inductive queue_flushed (now : Z) : list QueuedTransaction →
    list (request * res response) → list QueuedTransaction → Prop :=
  | flushed_nil : queue_flushed now [] [] []
  | flushed_cons item q tr1 tr2 out q' :
      item_flushed now item tr1 out → queue_flushed now q tr2 q' →
      queue_flushed now (item :: q) (tr1 ++ tr2) (out ++ q').

(** What [readQueue] makes of the stored text. *)
Definition stored_queue (raw : option str) : res (list QueuedTransaction) :=
  match raw with
  | Some raw =>
      match json_parse raw with
      | Some (JArr l) => from_option Ok (Throw unchecked_cast) (mapM queued_of_json l)
      | _ => Ok []
      end
  | None => Ok []
  end.

(** ** Data *)

#[export] Instance queued_codec_laws : CodecLaws QueuedTransaction.
Proof.
  split; intros [i e m b a t r n] (Hb & Hr & Hn); cbn in Hr, Hn; cbn [to_json of_json queued_codec].
  - unfold queued_of_json, queued_to_json. read_literal. cbn. by rewrite optional_view.
  - unfold queued_to_json. solve_literal_ok; [exact Hb| |exact Hn].
    unfold MAX_RETRIES in Hr. cbn. unfold safe_int. lia.
Qed.

Lemma stored_queue_text (q : list QueuedTransaction) :
  Forall queued_ok q → stored_queue (Some (to_text q)) = Ok q.
Proof.
  intros Hq. pose proof (of_to_text (A := list QueuedTransaction) q Hq) as E.
  unfold of_text in E. unfold stored_queue.
  destruct (json_parse (to_text q)) as [[| | | |l|]|]; try discriminate E.
  cbn in E. injection E as E. by rewrite E.
Qed.

(** ** Back-off bounds *)

Lemma backoff_bounds rc r : (1 <= rc < MAX_RETRIES)%Z → unit_interval r →
  (backoff_floor rc <= backoff_ms rc r <= backoff_floor rc * 6 / 5)%Z.
Proof.
  intros Hrc Hr. unfold MAX_RETRIES in Hrc. set (b := backoff_floor rc).
  assert (Hcase : (num_min (num_mul (num_of_Z BACKOFF_BASE_MS) (pow2 rc)) (num_of_Z BACKOFF_MAX_MS)
      = Fin b 0 ∧ num_mul (Fin b 0) (dec_value false 2 (-1)) = Fin (b / 5) 0 ∧
      b * 6 / 5 = b + b / 5 ∧ 0 <= b / 5 <= 6000 ∧ 0 <= b <= 30000)%Z).
  { subst b. assert (Hcs : (rc = 1 ∨ rc = 2 ∨ rc = 3 ∨ rc = 4)%Z) by lia.
    clear Hrc. destruct Hcs as [->|[->|[->| ->]]]; vm_compute; repeat split; discriminate. }
  clearbody b. destruct Hcase as (E1 & E2 & -> & Hb5 & Hb). unfold backoff_ms. rewrite E1, E2.
  destruct (num_floor_between b (b + b / 5)%Z (num_add (Fin b 0) (num_mul (Fin (b / 5) 0) r)))
    as (z & -> & Hz).
  - replace b with (b + 0)%Z at 1 by lia. apply num_add_between; [lia|lia| |  |lia].
    + cbn. lia.
    + replace (b / 5)%Z with (b / 5 * 1)%Z at 1 by lia. apply num_mul_between; [cbn; lia| |lia].
      clear -Hr. destruct r; cbn in *; try done. lia.
  - cbn. rewrite Z.div_1_r. lia.
Qed.

(** ** The operations against their specification *)

Section Runs.
Context `{HostLaws W, Radix36}.
Implicit Types (w : W) (q : list QueuedTransaction).

(** The queue of a world. *)
Definition queue_at w : res (list QueuedTransaction) :=
  stored_queue (st_peek w AsyncStorage OFFLINE_QUEUE_KEY).

(** Everything but the queue is as before. *)
Definition only_queue w w' : Prop :=
  ∀ s k, (s, k) ≠ (AsyncStorage, OFFLINE_QUEUE_KEY) → st_peek w' s k = st_peek w s k.

Lemma stored_only_queue w w' v : stored w w' AsyncStorage OFFLINE_QUEUE_KEY v → only_queue w w'.
Proof. intros S s k Hn. by apply (stored_ne _ _ _ _ _ S). Qed.

Lemma readQueue_live w : st_live w → ∃ w', readQueue w = (queue_at w, w') ∧ kept w w'.
Proof.
  intros L. destruct (get_live AsyncStorage OFFLINE_QUEUE_KEY w L) as (w' & E & K).
  exists w'. split; [|done]. unfold readQueue, queue_at.
  rewrite run_bind. unfold try_catch. rewrite (run_bind_ok _ _ _ _ _ E). cbn beta iota.
  destruct (st_peek w _ _) as [raw|]; [|done]. destruct raw as [|c raw]; [done|].
  cbn [truthy]. unfold JSON_parse, stored_queue. rewrite run_bind.
  destruct (json_parse (c :: raw)) as [[| | | |l|]|]; try done.
  cbn. unfold cast. cbn. by destruct (mapM queued_of_json l).
Qed.

Lemma readQueue_run w q : st_live w → queue_at w = Ok q → ∃ w', readQueue w = (Ok q, w') ∧ kept w w'.
Proof. intros L <-. by apply readQueue_live. Qed.

(** A dead store reads as the empty queue. *)
Lemma readQueue_dead w e w' :
  st_get AsyncStorage OFFLINE_QUEUE_KEY w = (Throw e, w') → readQueue w = (Ok [], w').
Proof.
  intros E. unfold readQueue. rewrite run_bind. unfold try_catch.
  by rewrite (run_bind_throw _ _ _ _ _ E).
Qed.

Lemma writeQueue_run w q : st_live w → Forall queued_ok q →
  ∃ w', writeQueue q w = (Ok tt, w') ∧ queue_at w' = Ok q ∧ only_queue w w' ∧
        net_trace w' = net_trace w ∧ st_live w'.
Proof.
  intros L Hq. destruct (set_live AsyncStorage OFFLINE_QUEUE_KEY (to_text q) w L) as (w' & E & S).
  exists w'. unfold writeQueue. rewrite (run_try_ok _ _ _ _ _ E). repeat split.
  - unfold queue_at. rewrite (stored_eq _ _ _ _ _ S). by apply stored_queue_text.
  - by eapply stored_only_queue.
  - apply S.
  - by apply S.
Qed.

Lemma kept_queue w w' : kept w w' → queue_at w' = queue_at w.
Proof. intros K. unfold queue_at. by rewrite (kept_peek _ _ K). Qed.

Lemma transmit_run w item : ∃ r w',
  transmit item w = (Ok (delivered r), w') ∧ sent w w' (transmit_request item) r.
Proof.
  destruct (fetch_spec (transmit_request item) w) as (r & w' & E & S). exists r, w'.
  split; [|done]. unfold transmit, try_catch, delivered. destruct r as [rs|e].
  - rewrite (run_bind_ok _ _ _ _ _ E). by destruct (_ || _).
  - by rewrite (run_bind_throw _ _ _ _ _ E).
Qed.

Lemma calcBackoffMs_run w rc : (1 <= rc < MAX_RETRIES)%Z → ∃ b w',
  calcBackoffMs rc w = (Ok b, w') ∧ kept w w' ∧
  (backoff_floor rc <= b <= backoff_floor rc * 6 / 5)%Z.
Proof.
  intros Hrc. destruct (random_spec w) as (r & w' & E & K & U).
  exists (backoff_ms rc r), w'. unfold calcBackoffMs. rewrite (run_bind_ok _ _ _ _ _ E).
  split; [done|]. split; [done|]. by apply backoff_bounds.
Qed.

(** The observable change of a replay: the trace grows, the stores are kept. *)
Record replayed w w' (tr : list (request * res response)) : Prop := Replayed {
  rp_peek : ∀ s k, st_peek w' s k = st_peek w s k;
  rp_trace : net_trace w' = net_trace w ++ tr;
  rp_live : st_live w → st_live w';
}.

Lemma replayed_kept w w' : kept w w' → replayed w w' [].
Proof. intros [p t l]. split; [done|by rewrite t, app_nil_r|done]. Qed.

Lemma replayed_sent w w' rq r : sent w w' rq r → replayed w w' [(rq, r)].
Proof. by intros [p t l]. Qed.

Lemma replayed_trans w1 w2 w3 tr1 tr2 :
  replayed w1 w2 tr1 → replayed w2 w3 tr2 → replayed w1 w3 (tr1 ++ tr2).
Proof.
  intros [p1 t1 l1] [p2 t2 l2].
  split; [intros; by rewrite p2|by rewrite t2, t1, <-app_assoc|auto].
Qed.

Lemma flush_item_run now upd item s w : (0 <= qt_retryCount item)%Z → ∃ tr out w',
  flush_item now upd item (s, w) = (Ok (upd ++ out), (s, w')) ∧
  item_flushed now item tr out ∧ replayed w w' tr.
Proof.
  intros Hrc. unfold flush_item. destruct (Z.ltb_spec now (qt_nextRetryAt item)) as [Hw|Hw].
  { exists [], [item], w. split; [done|]. split; [by constructor|]. by apply replayed_kept. }
  destruct (transmit_run w item) as (r & w1 & E1 & S1).
  rewrite (run_bind_ok _ _ _ _ _ (run_host _ s _ _ _ E1)). destruct (delivered r) eqn:D.
  { exists [(transmit_request item, r)], [], w1. rewrite app_nil_r.
    split; [done|]. split; [by apply item_done|by apply replayed_sent]. }
  cbn beta zeta. destruct (Z.leb_spec MAX_RETRIES (qt_retryCount item + 1)) as [Hm|Hm].
  { exists [(transmit_request item, r)], [], w1. rewrite app_nil_r.
    split; [done|]. split; [by apply item_dropped|by apply replayed_sent]. }
  destruct (calcBackoffMs_run w1 (qt_retryCount item + 1)) as (b & w2 & E2 & K2 & Hb); [lia|].
  rewrite (run_bind_ok _ _ _ _ _ (run_host _ s _ _ _ E2)).
  exists [(transmit_request item, r)], [rescheduled item (now + b)], w2.
  split; [done|]. split; [by apply item_retried|].
  rewrite <-(app_nil_r [_]). eapply replayed_trans; [by apply replayed_sent|by apply replayed_kept].
Qed.

Lemma flush_loop_run now q : ∀ upd s w, Forall queued_ok q → ∃ tr q' w',
  for_each (flush_item now) upd q (s, w) = (Ok (upd ++ q'), (s, w')) ∧
  queue_flushed now q tr q' ∧ replayed w w' tr.
Proof.
  induction q as [|item q IH]; intros upd s w Hq.
  { exists [], [], w. rewrite app_nil_r. split; [done|].
    split; [constructor|by apply replayed_kept]. }
  apply Forall_cons in Hq as [Hi Hq].
  destruct (flush_item_run now upd item s w) as (tr1 & out & w1 & E1 & F1 & R1); [apply Hi|].
  destruct (IH (upd ++ out) s w1 Hq) as (tr2 & q' & w2 & E2 & F2 & R2).
  exists (tr1 ++ tr2), (out ++ q'), w2. cbn [for_each].
  rewrite (run_bind_ok _ _ _ _ _ E1), E2, <-app_assoc.
  split; [done|]. split; [by constructor|]. by eapply replayed_trans.
Qed.

(** Well-formedness survives a replay. *)
Lemma item_flushed_ok now item tr out : iso_range now →
  queued_ok item → item_flushed now item tr out → Forall queued_ok out.
Proof.
  intros Hnow (Hb & Hr & Hn) F. destruct F as [|r|r|r b ? ? Hm Hbk]; [by apply Forall_singleton|constructor|constructor|].
  constructor; [|constructor]. split; [done|]. unfold iso_range, safe_int, backoff_floor in *.
  unfold MAX_RETRIES, BACKOFF_MAX_MS, BACKOFF_BASE_MS in *. cbn [qt_retryCount qt_nextRetryAt rescheduled].
  split; [lia|]. set (f := Z.min _ _) in *.
  assert (0 <= f <= 30000)%Z. { subst f. pose proof (Z.pow_pos_nonneg 2 (qt_retryCount item + 1)). lia. }
  clearbody f. assert (f * 6 / 5 <= 36000)%Z by (apply Z.div_le_upper_bound; lia). lia.
Qed.

Lemma queue_flushed_ok now q tr q' : iso_range now →
  Forall queued_ok q → queue_flushed now q tr q' → Forall queued_ok q'.
Proof.
  intros Hnow Hq F. induction F as [|item q tr1 tr2 out q' Fi F IH]; [constructor|].
  apply Forall_cons in Hq as [Hi Hq]. apply Forall_app. split; [|auto].
  by eapply item_flushed_ok.
Qed.

Lemma generateId_run w : ∃ id w', generateId w = (Ok id, w') ∧ kept w w'.
Proof.
  destruct (now_spec w) as (t & w1 & E1 & K1 & _).
  destruct (random_spec w1) as (r & w2 & E2 & K2 & _).
  eexists _, w2. unfold generateId. rewrite (run_bind_ok _ _ _ _ _ E1), (run_bind_ok _ _ _ _ _ E2).
  split; [done|by etrans].
Qed.

Lemma enqueue_run w q opts :
  st_live w → queue_at w = Ok q → Forall queued_ok q → json_ok (JObj (eo_body opts)) →
  ∃ id at_ next w', enqueueTransaction opts w = (Ok tt, w') ∧
    queue_at w' = Ok (q ++ [MkQueued id (eo_endpoint opts) (default (js "POST") (eo_method opts))
                              (eo_body opts) (eo_authToken opts) (to_iso at_) 0 next]) ∧
    iso_range at_ ∧ iso_range next ∧ only_queue w w' ∧ net_trace w' = net_trace w ∧ st_live w'.
Proof.
  intros L Q Hq Hb. unfold enqueueTransaction.
  destruct (readQueue_run w q L Q) as (w1 & E1 & K1).
  destruct (generateId_run w1) as (id & w2 & E2 & K2).
  destruct (now_spec w2) as (t & w3 & E3 & K3 & T3).
  destruct (now_spec w3) as (t' & w4 & E4 & K4 & T4).
  assert (K : kept w w4) by (repeat (etrans; [eassumption|]); reflexivity).
  set (item := MkQueued id (eo_endpoint opts) (default (js "POST") (eo_method opts))
                 (eo_body opts) (eo_authToken opts) (to_iso t) 0 t').
  destruct (writeQueue_run w4 (q ++ [item])) as (w5 & E5 & Q5 & O5 & N5 & L5).
  { by apply (kept_live _ _ K). }
  { apply Forall_app. split; [done|]. apply Forall_singleton. split; [done|].
    unfold iso_range, safe_int, MAX_RETRIES in *. cbn. lia. }
  exists id, t, t', w5. do 4 (erewrite run_bind_ok; [|eassumption]).
  split; [exact E5|]. split; [exact Q5|]. split; [done|]. split; [done|]. split; [|split; [|done]].
  - intros s k Hn. by rewrite O5, (kept_peek _ _ K).
  - by rewrite N5, (kept_trace _ _ K).
Qed.

(** enqueueTransaction appends exactly one fresh, immediately eligible item at the
    tail of the persisted queue, keeps every item already queued, in order, and touches
    neither another key nor the network. *)
Theorem enqueue_appends w q opts :
  st_live w → queue_at w = Ok q → Forall queued_ok q → json_ok (JObj (eo_body opts)) →
  ∃ id at_ next w', enqueueTransaction opts w = (Ok tt, w') ∧
    queue_at w' = Ok (q ++ [MkQueued id (eo_endpoint opts) (default (js "POST") (eo_method opts))
                              (eo_body opts) (eo_authToken opts) (to_iso at_) 0 next]) ∧
    iso_range at_ ∧ iso_range next ∧ only_queue w w' ∧ net_trace w' = net_trace w ∧ st_live w'.
Proof. apply enqueue_run. Qed.

(** One replay over a live store. *)
Lemma flush_run w q c :
  st_live w → queue_at w = Ok q → Forall queued_ok q →
  ∃ now tr q' w', flushQueue (QueueFlags false c, w) = (Ok tt, (QueueFlags false c, w')) ∧
    queue_flushed now q tr q' ∧ net_trace w' = net_trace w ++ tr ∧
    queue_at w' = Ok q' ∧ Forall queued_ok q' ∧ only_queue w w' ∧ st_live w'.
Proof.
  intros L Q Hq. unfold flushQueue.
  rewrite (run_bind_ok _ _ _ _ _ (run_get_state _ _)). cbn [is_flushing].
  rewrite (run_bind_ok _ _ _ _ _ (run_modify_state _ _ _)). unfold try_finally.
  destruct (readQueue_run w q L Q) as (w1 & E1 & K1).
  rewrite (run_bind_ok _ _ _ _ _ (run_host _ _ _ _ _ E1)).
  destruct q as [|i q0] eqn:Eq.
  { exists 0%Z, [], [], w1. rewrite app_nil_r. cbn. split; [done|]. split; [constructor|].
    split; [apply K1|]. split; [by rewrite (kept_queue _ _ K1)|]. split; [done|].
    split; [intros s k _; apply K1|by apply K1]. }
  rewrite <-Eq in *. clear i q0 Eq.
  destruct (now_spec w1) as (now & w2 & E2 & K2 & T2).
  rewrite (run_bind_ok _ _ _ _ _ (run_host _ _ _ _ _ E2)).
  destruct (flush_loop_run now q [] (QueueFlags true c) w2 Hq) as (tr & q' & w3 & E3 & F3 & [P3 N3 L3]).
  rewrite (run_bind_ok _ _ _ _ _ E3). cbn [app].
  assert (Hq' : Forall queued_ok q') by by eapply queue_flushed_ok.
  destruct (writeQueue_run w3 q') as (w4 & E4 & Q4 & O4 & N4 & L4); [|done|].
  { by apply L3, (kept_live _ _ K2), (kept_live _ _ K1). }
  exists now, tr, q', w4. rewrite (run_host _ _ _ _ _ E4). split; [done|]. split; [done|].
  split; [by rewrite N4, N3, (kept_trace _ _ K2), (kept_trace _ _ K1)|].
  split; [done|]. split; [done|]. split; [|done].
  intros s k Hn. by rewrite (O4 _ _ Hn), P3, (kept_peek _ _ K2), (kept_peek _ _ K1).
Qed.
End Runs.

(** ** Attempts are bounded *)

(** The attempts the queue may still cost. *)
Fixpoint budget (q : list QueuedTransaction) : Z :=
  match q with [] => 0 | t :: q' => MAX_RETRIES - qt_retryCount t + budget q' end%Z.

Lemma budget_app q1 q2 : budget (q1 ++ q2) = (budget q1 + budget q2)%Z.
Proof. induction q1 as [|t q1 IH]; cbn; [done|]. rewrite IH. lia. Qed.

(** Every request of a replay is paid for by the budget of the item it is about. *)
Lemma flushed_budget now q tr q' :
  Forall queued_ok q → queue_flushed now q tr q' →
  (Z.of_nat (length tr) + budget q' <= budget q)%Z.
Proof.
  intros Hq F. induction F as [|item q tr1 tr2 out q' Fi F IH]; [done|].
  apply Forall_cons in Hq as [(_ & Hr & _) Hq]. specialize (IH Hq).
  rewrite length_app, budget_app. unfold MAX_RETRIES in *.
  destruct Fi; cbn [length budget rescheduled qt_retryCount]; unfold MAX_RETRIES; lia.
Qed.

Lemma budget_range q : Forall queued_ok q →
  (0 <= budget q)%Z ∧ (budget q <= MAX_RETRIES * Z.of_nat (length q))%Z.
Proof.
  induction 1 as [|t q (_ & Hr & _) _ IH]; [done|]. unfold MAX_RETRIES in *.
  cbn [budget length]. unfold MAX_RETRIES. lia.
Qed.

(** The requests of a replay are those of the eligible items, in order. *)
Lemma flushed_requests now q tr q' : queue_flushed now q tr q' →
  tr.*1 = transmit_request <$> List.filter (λ t, qt_nextRetryAt t <=? now)%Z q.
Proof.
  induction 1 as [|item q tr1 tr2 out q' Fi F IH]; [done|]. cbn.
  rewrite fmap_app, IH. destruct Fi; cbn.
  - by rewrite (proj2 (Z.leb_gt _ _)).
  - by rewrite (proj2 (Z.leb_le _ _)).
  - by rewrite (proj2 (Z.leb_le _ _)).
  - by rewrite (proj2 (Z.leb_le _ _)).
Qed.

Section Replays.
Context `{HostLaws W, Radix36}.

(** C1: a replay over a live store terminates normally and treats the queue item by
    item in FIFO order: an item still in back-off stays untouched, a 2xx or 4xx answer
    removes it, the fifth failure drops it, any other failure increments its retry
    count and postpones it by min(2000*2^n, 30000) ms plus at most 20%; exactly the
    requests of the eligible items leave, and the stored queue is what remains. *)
Theorem flush_fates w q c :
  st_live w → queue_at w = Ok q → Forall queued_ok q →
  ∃ now tr q' w', flushQueue (QueueFlags false c, w) = (Ok tt, (QueueFlags false c, w')) ∧
    queue_flushed now q tr q' ∧ net_trace w' = net_trace w ++ tr ∧
    tr.*1 = transmit_request <$> List.filter (λ t, qt_nextRetryAt t <=? now)%Z q ∧
    queue_at w' = Ok q' ∧ Forall queued_ok q' ∧ only_queue w w'.
Proof.
  intros L Q Hq. destruct (flush_run w q c L Q Hq) as (now & tr & q' & w' & E & F & N & Q' & Hq' & O & _).
  exists now, tr, q', w'. eauto 10 using flushed_requests.
Qed.

(** [n] replays in a row. *)
Fixpoint flush_times (n : nat) : M (queue_flags * W) unit :=
  match n with O => mret tt | S n' => flushQueue;; flush_times n' end.

(** C21: over any number of replays the requests sent are bounded by the retry
    budget of the queue, so at most five per queued item: every transaction is
    delivered, dropped or still within its five attempts. *)
Theorem attempts_bounded n q : ∀ w c,
  st_live w → queue_at w = Ok q → Forall queued_ok q →
  ∃ q' w', flush_times n (QueueFlags false c, w) = (Ok tt, (QueueFlags false c, w')) ∧
    queue_at w' = Ok q' ∧
    (Z.of_nat (length (net_trace w')) + budget q'
       <= Z.of_nat (length (net_trace w)) + budget q)%Z ∧
    (0 <= budget q')%Z ∧ (budget q <= MAX_RETRIES * Z.of_nat (length q))%Z.
Proof.
  revert q. induction n as [|n IH]; intros q w c L Q Hq.
  { exists q, w. split; [done|]. split; [done|]. split; [done|]. by apply budget_range. }
  destruct (flush_run w q c L Q Hq) as (now & tr & q1 & w1 & E1 & F1 & N1 & Q1 & Hq1 & _ & L1).
  destruct (IH q1 w1 c L1 Q1 Hq1) as (q' & w' & E2 & Q2 & B2 & P2 & _).
  exists q', w'. cbn [flush_times]. rewrite (run_bind_ok _ _ _ _ _ E1).
  pose proof (flushed_budget _ _ _ _ Hq F1) as B1. rewrite N1, length_app in B2.
  split; [done|]. split; [done|]. split; [lia|]. split; [done|]. by apply budget_range.
Qed.

(** The flags a computation leaves alone. *)
Definition keeps_flags {A} (m : M (queue_flags * W) A) : Prop := ∀ s w, (m (s, w)).2.1 = s.

Lemma keeps_host {A} (m : M W A) : keeps_flags (host m).
Proof. intros s w. unfold host. cbn. by destruct (m w). Qed.

Lemma keeps_bind {A B} (m : M (queue_flags * W) A) (f : A → M (queue_flags * W) B) :
  keeps_flags m → (∀ a, keeps_flags (f a)) → keeps_flags (m ≫= f).
Proof.
  intros Hm Hf s w. rewrite run_bind. specialize (Hm s w).
  destruct (m (s, w)) as [[a|e] [s' w']]; cbn in *; subst; [apply Hf|done].
Qed.

Lemma keeps_flush_item now upd item : keeps_flags (flush_item now upd item).
Proof.
  unfold flush_item. destruct (_ <? _)%Z; [done|].
  apply keeps_bind; [apply keeps_host|intros []; [done|]]. cbn zeta.
  destruct (_ <=? _)%Z; [done|]. by apply keeps_bind; [apply keeps_host|].
Qed.

Lemma keeps_loop now q : ∀ upd, keeps_flags (for_each (flush_item now) upd q).
Proof.
  induction q as [|i q IH]; intros upd; cbn; [done|].
  apply keeps_bind; [apply keeps_flush_item|apply IH].
Qed.

Lemma flush_keeps_flags s w : (flushQueue (s, w)).2.1 = s.
Proof.
  unfold flushQueue. rewrite (run_bind_ok _ _ _ _ _ (run_get_state _ _)).
  destruct s as [[] c]; cbn [is_flushing]; [done|].
  rewrite (run_bind_ok _ _ _ _ _ (run_modify_state _ _ _)). unfold try_finally.
  match goal with |- context [let '(_, _) := ?m ?sw in _] => set (body := m); set (sw0 := sw) end.
  assert (K : keeps_flags body).
  { subst body. apply keeps_bind; [apply keeps_host|]. intros [|i q]; [done|].
    apply keeps_bind; [apply keeps_host|]. intros now.
    apply keeps_bind; [apply keeps_loop|]. intros upd. apply keeps_host. }
  specialize (K (QueueFlags true c) w). subst sw0. cbn [set_flushing was_connected].
  destruct (body _) as [r [s' w']]. cbn in *. by subst.
Qed.

(** whatever the host does (storage failures, rejected requests, any stored
    text), a replay releases the flag it took, a replay started while another one
    runs does nothing at all, and the connectivity flag is never touched. *)
Theorem flush_mutual_exclusion s w :
  (flushQueue (s, w)).2.1 = s ∧
  (is_flushing s = true → flushQueue (s, w) = (Ok tt, (s, w))).
Proof.
  split; [apply flush_keeps_flags|]. intros E. unfold flushQueue.
  by rewrite (run_bind_ok _ _ _ _ _ (run_get_state _ _)), E.
Qed.

(** the NetInfo callback replays the queue exactly on an offline to online
    edge; on every other event it only records the connectivity. *)
Theorem net_state_edge isConnected s w :
  on_net_state isConnected (s, w) =
    (Ok tt, (set_connected (bool_decide (isConnected = Some true)) s,
             if bool_decide (isConnected = Some true ∧ was_connected s = Some false)
             then (flushQueue (s, w)).2.2 else w)).
Proof.
  unfold on_net_state. rewrite (run_bind_ok _ _ _ _ _ (run_get_state _ _)).
  rewrite bool_decide_and. destruct (_ && _); [|done].
  assert (F : (flushQueue (s, w)).2.1 = s) by apply flush_keeps_flags.
  destruct (swallow_ok flushQueue (s, w)) as ([s' w'] & E & E').
  rewrite (run_bind_ok _ _ _ _ _ E), run_modify_state. rewrite E' in *. cbn in *. by subst.
Qed.
End Replays.

(** ** Interleavings

    Between the read and the write of the queue both [enqueueTransaction] and
    [flushQueue] are suspended at [await] points, and nothing but the replay's
    own flag keeps them apart. A state holds the stored queue, the enqueues that
    have read and not yet written, the replay in progress, and two ghost logs. *)
Module Interleaving.

Record sys := Sys {
  stored_items : list QueuedTransaction;
  enqueuing : list (QueuedTransaction * list QueuedTransaction);  (** item and the queue it read *)
  flushing : option (Z * list QueuedTransaction * list QueuedTransaction);
    (** the time read, the items still to handle, the [updated] array *)
  accepted : list str;   (** ids whose [enqueueTransaction] has resolved *)
  settled : list str;    (** ids delivered or dropped *)
  exchanged : list (request * res response);  (** the requests made, with what became of them *)
}.

Inductive step : sys → sys → Prop :=
  | enq_read st item enq fl acc se ex :
      step (Sys st enq fl acc se ex) (Sys st (enq ++ [(item, st)]) fl acc se ex)
  | enq_write st item q enq1 enq2 fl acc se ex :
      step (Sys st (enq1 ++ (item, q) :: enq2) fl acc se ex)
           (Sys (q ++ [item]) (enq1 ++ enq2) fl (acc ++ [qt_id item]) se ex)
  | flush_read now st enq acc se ex :
      st ≠ [] →
      step (Sys st enq None acc se ex) (Sys st enq (Some (now, st, [])) acc se ex)
  | flush_keep now st enq item todo upd tr out acc se ex :
      item_flushed now item tr [out] →
      step (Sys st enq (Some (now, item :: todo, upd)) acc se ex)
           (Sys st enq (Some (now, todo, upd ++ [out])) acc se (ex ++ tr))
  | flush_settle now st enq item todo upd tr acc se ex :
      item_flushed now item tr [] →
      step (Sys st enq (Some (now, item :: todo, upd)) acc se ex)
           (Sys st enq (Some (now, todo, upd)) acc (se ++ [qt_id item]) (ex ++ tr))
  | flush_write now st enq upd acc se ex :
      step (Sys st enq (Some (now, [], upd)) acc se ex) (Sys upd enq None acc se ex).

(** Operations in progress. *)
Definition in_flight (s : sys) : nat :=
  length (enqueuing s) + match flushing s with Some _ => 1 | None => 0 end.

(** At most one operation at a time. *)
Definition serial_step (s s' : sys) : Prop := step s s' ∧ in_flight s ≤ 1 ∧ in_flight s' ≤ 1.

(** The items the program still knows about. *)
Definition pending (s : sys) : list QueuedTransaction :=
  match flushing s with Some (_, todo, upd) => upd ++ todo | None => stored_items s end.

Definition accounted (s : sys) : Prop :=
  accepted s ≡ₚ settled s ++ (qt_id <$> pending s) ∧
  Forall (λ e, e.2 = stored_items s) (enqueuing s).

Definition idle (q : list QueuedTransaction) (acc se : list str) : sys := Sys q [] None acc se [].

Lemma item_flushed_id now item tr out : item_flushed now item tr [out] → qt_id out = qt_id item.
Proof. by inversion 1. Qed.

Lemma serial_accounted s s' : accounted s → serial_step s s' → accounted s'.
Proof.
  intros [Ha He] (St & B & B').
  destruct St as [st item enq fl acc se ex|st item q enq1 enq2 fl acc se ex|now st enq acc se ex Hne
    |now st enq item todo upd tr out acc se ex F|now st enq item todo upd tr acc se ex F|now st enq upd acc se ex];
    unfold accounted, pending, in_flight in *; cbn in *.
  - split; [done|]. apply Forall_app. split; [done|by apply Forall_singleton].
  - rewrite length_app in B. cbn in B.
    destruct enq1; [|cbn in B; lia]. destruct enq2; [|cbn in B; lia].
    destruct fl as [[[? ?] ?]|]; [cbn in B; lia|]. apply Forall_cons_1 in He as [He _]. cbn in He. subst q.
    split; [|done]. rewrite Ha, fmap_app. cbn. by rewrite app_assoc.
  - by split.
  - split; [|done]. rewrite Ha. rewrite !fmap_app. cbn.
    rewrite (item_flushed_id _ _ _ _ F). by rewrite <-!app_assoc.
  - split; [|done]. rewrite Ha. rewrite !fmap_app. cbn. solve_Permutation.
  - rewrite app_nil_r in Ha. split; [done|]. destruct enq; [done|cbn in B; lia].
Qed.

Lemma serial_run_accounted s s' : accounted s → rtc serial_step s s' → accounted s'.
Proof. intros A R. induction R; eauto using serial_accounted. Qed.

(** as long as enqueues and replays do not overlap, no accepted transaction is
    lost or duplicated: at every reachable point the accepted ids are, as a multiset,
    the settled ones and the ones still queued. *)
Theorem serial_no_loss q s' :
  rtc serial_step (idle q (qt_id <$> q) []) s' →
  (accepted s') ≡ₚ (settled s' ++ (qt_id <$> pending s')).
Proof. intros R. apply (serial_run_accounted (idle q (qt_id <$> q) [])); [by split|done]. Qed.

(** an enqueue whose read and write fall inside a replay is overwritten by the
    replay's final write: the resolved transaction is neither queued, nor sent, nor
    dropped. *)
Theorem enqueue_during_replay_lost waiting fresh now :
  (now < qt_nextRetryAt waiting)%Z → qt_id fresh ≠ qt_id waiting →
  ∃ s', rtc step (idle [waiting] [qt_id waiting] []) s' ∧ in_flight s' = 0 ∧
    qt_id fresh ∈ accepted s' ∧ (qt_id fresh ∉ settled s') ∧
    qt_id fresh ∉ (qt_id <$> stored_items s').
Proof.
  intros Hw Hid. exists (Sys [waiting] [] None [qt_id waiting; qt_id fresh] [] []). split.
  - eapply rtc_l; [by apply (flush_read now)|].
    eapply rtc_l; [by apply enq_read with (item := fresh)|].
    eapply rtc_l; [by apply (enq_write _ fresh [waiting] [] [])|].
    eapply rtc_l; [by eapply flush_keep, item_waits|].
    eapply rtc_l; [by apply flush_write|]. reflexivity.
  - cbn. repeat split; rewrite ?fmap_app, ?elem_of_app, ?list_elem_of_singleton in *; cbn; set_solver.
Qed.

(** two enqueues that both read before either writes keep only the second
    transaction, although both calls resolve. *)
Theorem concurrent_enqueues_lose q a b :
  qt_id a ∉ (qt_id <$> q) → qt_id a ≠ qt_id b →
  ∃ s', rtc step (idle q (qt_id <$> q) []) s' ∧ in_flight s' = 0 ∧
    stored_items s' = q ++ [b] ∧ qt_id a ∈ accepted s' ∧ qt_id a ∉ (qt_id <$> stored_items s').
Proof.
  intros Ha Hab. exists (Sys (q ++ [b]) [] None ((qt_id <$> q) ++ [qt_id a] ++ [qt_id b]) [] []). split.
  - eapply rtc_l; [by apply enq_read with (item := a)|].
    eapply rtc_l; [by apply enq_read with (item := b)|].
    eapply rtc_l; [by apply (enq_write _ a q [] [(b, q)])|].
    eapply rtc_l; [by apply (enq_write _ b q [] [])|]. rewrite <-app_assoc. reflexivity.
  - cbn. repeat split; rewrite ?fmap_app, ?elem_of_app, ?list_elem_of_singleton in *; cbn; set_solver.
Qed.

(** The items a replay settled, over the exchanges it made. *)
Lemma replay_steps now q tr q' : queue_flushed now q tr q' → ∀ st upd acc se ex,
  ∃ se', rtc serial_step (Sys st [] (Some (now, q, upd)) acc se ex)
                         (Sys st [] (Some (now, [], upd ++ q')) acc (se ++ se') (ex ++ tr)).
Proof.
  induction 1 as [|item q tr1 tr2 out q' Fi F IH]; intros st upd acc se ex.
  { exists []. by rewrite !app_nil_r. }
  assert (Hout : out = [] ∨ ∃ o, out = [o]) by (inversion Fi; eauto).
  destruct Hout as [->|[o ->]].
  - destruct (IH st upd acc (se ++ [qt_id item]) (ex ++ tr1)) as (se' & R). exists (qt_id item :: se').
    rewrite <-!app_assoc in R. eapply rtc_l; [|exact R]. split; [by eapply flush_settle|done].
  - destruct (IH st (upd ++ [o]) acc se (ex ++ tr1)) as (se' & R). exists se'.
    rewrite <-!app_assoc in R. eapply rtc_l; [|exact R]. split; [by eapply flush_keep|done].
Qed.

(** C7: the code refines the step model: a replay run to completion on its own is a
    serial run of the replay steps, from the queue it found to the queue it left, and the requests of
    those steps, with their answers, are exactly the requests the code made. *)
Theorem flush_refines_steps `{HostLaws W, Radix36} w q c acc se :
  st_live w → queue_at w = Ok q → Forall queued_ok q → q ≠ [] →
  ∃ q' se' tr w', flushQueue (QueueFlags false c, w) = (Ok tt, (QueueFlags false c, w')) ∧
    queue_at w' = Ok q' ∧ net_trace w' = net_trace w ++ tr ∧
    rtc serial_step (idle q acc se) (Sys q' [] None acc (se ++ se') tr).
Proof.
  intros L Q Hq Hne.
  destruct (flush_run w q c L Q Hq) as (now & tr & q' & w' & E & F & T & Q' & _).
  destruct (replay_steps now q tr q' F q [] acc se []) as (se' & R). exists q', se', tr, w'.
  split; [done|]. split; [done|]. split; [done|]. eapply rtc_l; [split; [by apply (flush_read now)|cbn; lia]|].
  eapply rtc_r; [exact R|]. split; [apply flush_write|cbn; lia].
Qed.
End Interleaving.

(** ** Concrete runs *)

Module Runs.
#[local] Instance demo_radix : Radix36 := λ _, js "0.k3jd92ma1".

Definition demo_item (id : str) (retries next : Z) : QueuedTransaction :=
  MkQueued id (js "https://api.zaps.app/v1/tx") (js "POST") [(js "amount", JStr (js "5"))]
    (Some (js "tok")) (js "2026-01-01T00:00:00.000Z") retries next.

Definition demo_queue : list QueuedTransaction :=
  [demo_item (js "a") 0 5; demo_item (js "b") 4 5; demo_item (js "c") 1 900; demo_item (js "d") 0 5].

Definition demo_world : scripted :=
  Scripted [(AsyncStorage, OFFLINE_QUEUE_KEY, to_text demo_queue)] false
    [Ok (Response 200 [] []); Ok (Response 503 [] []); Throw sc_offline] [] (Some true) 100 (Fin 1 (-1)).

Lemma demo_ok : Forall queued_ok demo_queue.
Proof.
  unfold demo_queue.
  repeat (apply Forall_cons; split);
    [..|apply Forall_nil; exact I];
    (split; [split; [apply keys_distinct_true; vm_compute; reflexivity|by repeat split]
            |split; [unfold MAX_RETRIES; cbn; lia|unfold safe_int; cbn; lia]]).
Qed.

Lemma demo_queue_at : queue_at demo_world = Ok demo_queue.
Proof. apply stored_queue_text, demo_ok. Qed.

(** The replay of [demo_world]: delivered, dropped, kept, rescheduled. *)
Example demo_flush :
  queue_at (flushQueue (QueueFlags false None, demo_world)).2.2 =
    Ok [demo_item (js "c") 1 900; demo_item (js "d") 1 4500].
Proof. vm_compute. reflexivity. Qed.

Lemma enqueue_appends_witness :
  ∃ id at_ next w', enqueueTransaction
      (MkEnqueue (js "https://x") None [(js "to", JStr (js "bob"))] None) demo_world = (Ok tt, w') ∧
    queue_at w' = Ok (demo_queue ++ [MkQueued id (js "https://x") (js "POST")
                        [(js "to", JStr (js "bob"))] None (to_iso at_) 0 next]) ∧
    iso_range at_ ∧ iso_range next ∧ only_queue demo_world w' ∧
    net_trace w' = net_trace demo_world ∧ st_live w'.
Proof.
  apply (enqueue_appends demo_world demo_queue
           (MkEnqueue (js "https://x") None [(js "to", JStr (js "bob"))] None));
    [reflexivity|apply demo_queue_at|apply demo_ok|].
  split; [apply keys_distinct_true; vm_compute; reflexivity|by repeat split].
Defined.

Lemma flush_fates_witness :
  ∃ now tr q' w', flushQueue (QueueFlags false None, demo_world) = (Ok tt, (QueueFlags false None, w')) ∧
    queue_flushed now demo_queue tr q' ∧ net_trace w' = net_trace demo_world ++ tr ∧
    tr.*1 = transmit_request <$> List.filter (λ t, qt_nextRetryAt t <=? now)%Z demo_queue ∧
    queue_at w' = Ok q' ∧ Forall queued_ok q' ∧ only_queue demo_world w'.
Proof.
  apply (flush_fates demo_world demo_queue None); [reflexivity|apply demo_queue_at|apply demo_ok].
Defined.

Lemma attempts_bounded_witness :
  ∃ q' w', flush_times 5 (QueueFlags false None, demo_world) = (Ok tt, (QueueFlags false None, w')) ∧
    queue_at w' = Ok q' ∧
    (Z.of_nat (length (net_trace w')) + budget q'
       <= Z.of_nat (length (net_trace demo_world)) + budget demo_queue)%Z ∧
    (0 <= budget q')%Z ∧ (budget demo_queue <= MAX_RETRIES * Z.of_nat (length demo_queue))%Z.
Proof.
  apply (attempts_bounded 5 demo_queue demo_world None);
    [reflexivity|apply demo_queue_at|apply demo_ok].
Defined.

Lemma flush_mutual_exclusion_witness :
  flushQueue (QueueFlags true None, demo_world) = (Ok tt, (QueueFlags true None, demo_world)).
Proof. apply (flush_mutual_exclusion (QueueFlags true None) demo_world). reflexivity. Defined.

Definition after_enqueue : Interleaving.sys :=
  Interleaving.idle (demo_queue ++ [demo_item (js "e") 0 0])
    ((qt_id <$> demo_queue) ++ [js "e"]) [].

Lemma serial_no_loss_witness :
  (Interleaving.accepted after_enqueue)
    ≡ₚ (Interleaving.settled after_enqueue ++ (qt_id <$> Interleaving.pending after_enqueue)).
Proof.
  apply (Interleaving.serial_no_loss demo_queue after_enqueue).
  eapply rtc_l; [split; [by apply Interleaving.enq_read with (item := demo_item (js "e") 0 0)|cbn; lia]|].
  eapply rtc_l; [split; [by apply (Interleaving.enq_write _ (demo_item (js "e") 0 0) demo_queue [] [])|cbn; lia]|].
  reflexivity.
Defined.

Lemma enqueue_during_replay_lost_witness :
  ∃ s', rtc Interleaving.step (Interleaving.idle [demo_item (js "c") 1 900] [js "c"] []) s' ∧
    Interleaving.in_flight s' = 0 ∧ js "e" ∈ Interleaving.accepted s' ∧
    (js "e" ∉ Interleaving.settled s') ∧ js "e" ∉ (qt_id <$> Interleaving.stored_items s').
Proof.
  apply (Interleaving.enqueue_during_replay_lost (demo_item (js "c") 1 900) (demo_item (js "e") 0 0) 100);
    [reflexivity|vm_compute; discriminate].
Defined.

Lemma concurrent_enqueues_lose_witness :
  ∃ s', rtc Interleaving.step (Interleaving.idle [] [] []) s' ∧ Interleaving.in_flight s' = 0 ∧
    Interleaving.stored_items s' = [demo_item (js "f") 0 0] ∧ js "e" ∈ Interleaving.accepted s' ∧
    js "e" ∉ (qt_id <$> Interleaving.stored_items s').
Proof.
  apply (Interleaving.concurrent_enqueues_lose [] (demo_item (js "e") 0 0) (demo_item (js "f") 0 0));
    [apply not_elem_of_nil|vm_compute; discriminate].
Defined.

Lemma flush_refines_steps_witness :
  ∃ q' se' tr w', flushQueue (QueueFlags false None, demo_world) = (Ok tt, (QueueFlags false None, w')) ∧
    queue_at w' = Ok q' ∧ net_trace w' = net_trace demo_world ++ tr ∧
    rtc Interleaving.serial_step (Interleaving.idle demo_queue [] []) (Interleaving.Sys q' [] None [] ([] ++ se') tr).
Proof.
  apply (Interleaving.flush_refines_steps demo_world demo_queue None [] []);
    [reflexivity|apply demo_queue_at|apply demo_ok|discriminate].
Defined.
End Runs.
