(* ===== verification/TransactionService.v ===== *)
(** * Transaction history

    Model of [mobileapp/src/services/transactionService.ts] and
    [mobileapp/src/types/transaction.ts]: the merged list (built-in rows and the
    AsyncStorage cache), the filters, the newest-first order, cursor pagination and
    the 30-second memory cache keyed by the text of filters and cursor. *)

From S2P Require Import Prelude JsString JsNumber UriCodec JsDate Json Effects Decode Scripts.

(** ** Types *)

Inductive TransactionType := TSent | TReceived | TSwap | TPayment | TYield | TMassPayout.
Inductive TransactionStatus := Completed | Pending | Failed.
Inductive YieldType := Interest | Reward | Apy.

#[export] Instance TransactionType_eq_dec : EqDecision TransactionType.
Proof. solve_decision. Defined.
#[export] Instance TransactionStatus_eq_dec : EqDecision TransactionStatus.
Proof. solve_decision. Defined.
#[export] Instance YieldType_eq_dec : EqDecision YieldType.
Proof. solve_decision. Defined.

Record Transaction := MkTransaction {
  tx_id : str;
  tx_type : TransactionType;
  tx_status : TransactionStatus;
  tx_amount : str;
  tx_asset : str;
  tx_fiatValue : str;
  tx_fiatCurrency : str;
  tx_address : str;
  tx_addressLabel : option str;
  tx_timestamp : str;
  tx_stellarTxHash : option str;
  tx_memo : option str;
  tx_fee : option str;
  tx_feeAsset : option str;
  tx_network : option str;
  tx_yieldType : option YieldType;
  tx_stellarTxXdr : option str;
  tx_senderName : option str;
  tx_senderAnchor : option str;
}.

#[export] Instance Transaction_eq_dec : EqDecision Transaction.
Proof. solve_decision. Defined.

Record TransactionPage := MkPage {
  pg_items : list Transaction;
  pg_nextCursor : option str;
  pg_total : nat;
}.

(** ["all"] is [None]. *)
Record TransactionFilters := MkFilters {
  f_type : option TransactionType;
  f_status : option TransactionStatus;
  f_dateFrom : option str;
  f_dateTo : option str;
  f_search : str;
  f_amountMin : option str;
  f_amountMax : option str;
  f_yieldOnly : option bool;
  f_asset : option str;
}.

Definition type_text (t : TransactionType) : str :=
  match t with
  | TSent => js "sent" | TReceived => js "received" | TSwap => js "swap"
  | TPayment => js "payment" | TYield => js "yield" | TMassPayout => js "mass_payout"
  end.
Definition status_text (s : TransactionStatus) : str :=
  match s with Completed => js "completed" | Pending => js "pending" | Failed => js "failed" end.
Definition yield_text (y : YieldType) : str :=
  match y with Interest => js "interest" | Reward => js "reward" | Apy => js "apy" end.

(** Member of a string union read from its text. *)
Definition of_text_in {A} (text : A → str) (l : list A) (s : str) : option A :=
  find (λ a, str_eqb s (text a)) l.

Definition type_of_text := of_text_in type_text [TSent; TReceived; TSwap; TPayment; TYield; TMassPayout].
Definition status_of_text := of_text_in status_text [Completed; Pending; Failed].
Definition yield_of_text := of_text_in yield_text [Interest; Reward; Apy].

Arguments type_of_text : simpl never.
Arguments status_of_text : simpl never.
Arguments yield_of_text : simpl never.

(** ** JSON form *)

Definition transaction_to_json (t : Transaction) : json :=
  literal [present (js "id") (JStr (tx_id t)); present (js "type") (JStr (type_text (tx_type t)));
           present (js "status") (JStr (status_text (tx_status t)));
           present (js "amount") (JStr (tx_amount t)); present (js "asset") (JStr (tx_asset t));
           present (js "fiatValue") (JStr (tx_fiatValue t));
           present (js "fiatCurrency") (JStr (tx_fiatCurrency t));
           present (js "address") (JStr (tx_address t));
           optional (js "addressLabel") (tx_addressLabel t);
           present (js "timestamp") (JStr (tx_timestamp t));
           optional (js "stellarTxHash") (tx_stellarTxHash t);
           optional (js "memo") (tx_memo t);
           optional (js "fee") (tx_fee t);
           optional (js "feeAsset") (tx_feeAsset t);
           optional (js "network") (tx_network t);
           optional (js "yieldType") (yield_text <$> tx_yieldType t);
           optional (js "stellarTxXdr") (tx_stellarTxXdr t);
           optional (js "senderName") (tx_senderName t);
           optional (js "senderAnchor") (tx_senderAnchor t)].

Definition transaction_of_json (v : json) : option Transaction :=
  id ← field_str (js "id") v;
  type ← field_str (js "type") v ≫= type_of_text;
  status ← field_str (js "status") v ≫= status_of_text;
  amount ← field_str (js "amount") v;
  asset ← field_str (js "asset") v;
  fiatValue ← field_str (js "fiatValue") v;
  fiatCurrency ← field_str (js "fiatCurrency") v;
  address ← field_str (js "address") v;
  addressLabel ← field_opt_str (js "addressLabel") v;
  timestamp ← field_str (js "timestamp") v;
  stellarTxHash ← field_opt_str (js "stellarTxHash") v;
  memo ← field_opt_str (js "memo") v;
  fee ← field_opt_str (js "fee") v;
  feeAsset ← field_opt_str (js "feeAsset") v;
  network ← field_opt_str (js "network") v;
  yieldType ← match field_opt_str (js "yieldType") v with
              | Some (Some s) => Some <$> yield_of_text s
              | Some None => Some None
              | None => None
              end;
  stellarTxXdr ← field_opt_str (js "stellarTxXdr") v;
  senderName ← field_opt_str (js "senderName") v;
  senderAnchor ← field_opt_str (js "senderAnchor") v;
  Some (MkTransaction id type status amount asset fiatValue fiatCurrency address addressLabel
          timestamp stellarTxHash memo fee feeAsset network yieldType stellarTxXdr senderName
          senderAnchor).

#[export] Instance transaction_codec : Codec Transaction := {
  to_json := transaction_to_json;
  of_json := transaction_of_json;
  storable := λ _, True;
}.

(** [interface CacheEntry] *)
Record CacheEntry := MkCacheEntry { ce_data : list Transaction; ce_timestamp : Z }.

#[export] Instance cache_entry_codec : Codec CacheEntry := {
  to_json e := literal [present (js "data") (to_json (ce_data e));
                        present (js "timestamp") (JNum (Fin (ce_timestamp e) 0))];
  of_json v :=
    data ← json_get (js "data") v ≫= of_json;
    timestamp ← field_int (js "timestamp") v;
    Some (MkCacheEntry data timestamp);
  storable e := safe_int (ce_timestamp e);
}.

Lemma type_of_type_text t : type_of_text (type_text t) = Some t.
Proof. by destruct t. Qed.
Lemma status_of_status_text s : status_of_text (status_text s) = Some s.
Proof. by destruct s. Qed.

#[export] Instance transaction_codec_laws : CodecLaws Transaction.
Proof.
  split; intros [id ty st am asset fv fc ad al ts h mm fe fa nw yt xdr sn sa] _;
    cbn [to_json of_json transaction_codec].
  - unfold transaction_of_json, transaction_to_json.
    cbn [tx_id tx_type tx_status tx_amount tx_asset tx_fiatValue tx_fiatCurrency tx_address
      tx_addressLabel tx_timestamp tx_stellarTxHash tx_memo tx_fee tx_feeAsset tx_network
      tx_yieldType tx_stellarTxXdr tx_senderName tx_senderAnchor].
    pose proof (type_of_type_text ty) as Ety. generalize dependent (type_text ty). intros tty Ety.
    pose proof (status_of_status_text st) as Est. generalize dependent (status_text st). intros tst Est.
    assert (Eyt : match yield_text <$> yt with
                  | Some s => Some <$> yield_of_text s | None => Some None end = Some yt).
    { by destruct yt as [[]|]. }
    generalize dependent (yield_text <$> yt). intros tyt Eyt. read_literal.
    rewrite !optional_view. cbn [mbind option_bind json_str]. rewrite Ety. cbn. rewrite Est. cbn.
    destruct tyt; by rewrite Eyt.
  - unfold transaction_to_json. solve_literal_ok.
Qed.

#[export] Instance cache_entry_codec_laws : CodecLaws CacheEntry.
Proof.
  split; intros [data ts] Hts; cbn [to_json of_json cache_entry_codec storable ce_timestamp ce_data] in *.
  - assert (E : of_json (to_json data) = Some data) by (apply of_to_json; by apply Forall_true).
    generalize dependent (to_json data). intros v E. read_literal.
    cbn [mbind option_bind]. by rewrite E.
  - solve_literal_ok; [|exact Hts]. apply (to_json_ok data). by apply Forall_true.
Qed.

(** ** Built-in rows

    Each with its age in milliseconds; the timestamps are computed when the module
    is loaded. *)

Definition mock_transfers : list (Z * (str → Transaction)) := [
  ((1 * 60 * 60 * 1000)%Z, λ ts,
     MkTransaction (js "tx_001") TSent Completed (js "50.00") (js "USDC")
       (js "50.00") (js "USD")
       (js "GBBD47IF6LWK7P7MDEVSCWR7DPUWV3NY3DTQEVFL4NAT4AQH3ZLLFLA5") (Some (js "alice.zaps")) ts
       (Some (js "a1b2c3d4e5f6a1b2c3d4e5f6a1b2c3d4e5f6a1b2c3d4e5f6a1b2c3d4e5f6a1b2"))
       (Some (js "Lunch split")) (Some (js "0.00001")) (Some (js "XLM")) (Some (js "Stellar"))
       None
       None
       None None);
  ((3 * 60 * 60 * 1000)%Z, λ ts,
     MkTransaction (js "tx_002") TReceived Completed (js "120.00") (js "USDC")
       (js "120.00") (js "USD")
       (js "GCEZWKCA5VLDNRLN3RPRJMRZOX3Z6G5CHCGZXG5CPCJDGX4LNZM4IXX") (Some (js "bob.zaps")) ts
       (Some (js "b2c3d4e5f6a1b2c3d4e5f6a1b2c3d4e5f6a1b2c3d4e5f6a1b2c3d4e5f6a1b2c3"))
       None (Some (js "0.00001")) (Some (js "XLM")) (Some (js "Stellar"))
       None
       None
       None None);
  ((6 * 60 * 60 * 1000)%Z, λ ts,
     MkTransaction (js "tx_003") TSent Pending (js "25.50") (js "XLM")
       (js "3.18") (js "USD")
       (js "GDQOE23CFSUMSVQK4Y5JHPPYK73VYCNHZHA7ENKCV37P6SUEO6XQBKPP") None ts
       (Some (js "c3d4e5f6a1b2c3d4e5f6a1b2c3d4e5f6a1b2c3d4e5f6a1b2c3d4e5f6a1b2c3d4"))
       None (Some (js "0.00001")) (Some (js "XLM")) (Some (js "Stellar"))
       None
       (Some (js "AAAAAgAAAABhGug7fJjQPWZ3cN+e8rPcmBif9aM...demo-envelope..."))
       None None);
  ((24 * 60 * 60 * 1000)%Z, λ ts,
     MkTransaction (js "tx_004") TReceived Completed (js "200.00") (js "USDT")
       (js "200.00") (js "USD")
       (js "GBRPYHIL2CI3FNQ4BXLFMNDLFJUNPU2HY3ZMFSHONUCEOASW7QC7OX2H") (Some (js "carol.zaps")) ts
       (Some (js "d4e5f6a1b2c3d4e5f6a1b2c3d4e5f6a1b2c3d4e5f6a1b2c3d4e5f6a1b2c3d4e5"))
       (Some (js "Invoice #1042")) (Some (js "0.00001")) (Some (js "XLM")) (Some (js "Stellar"))
       None
       None
       None None);
  ((2 * 24 * 60 * 60 * 1000)%Z, λ ts,
     MkTransaction (js "tx_005") TSent Failed (js "10.00") (js "USDC")
       (js "10.00") (js "USD")
       (js "GCFONE23CFSUMSVQK4Y5JHPPYK73VYCNHZHA7ENKCV37P6SUEO6XQBKPP") None ts
       (Some (js "e5f6a1b2c3d4e5f6a1b2c3d4e5f6a1b2c3d4e5f6a1b2c3d4e5f6a1b2c3d4e5f6"))
       None (Some (js "0.00001")) (Some (js "XLM")) (Some (js "Stellar"))
       None
       None
       None None);
  ((3 * 24 * 60 * 60 * 1000)%Z, λ ts,
     MkTransaction (js "tx_006") TReceived Completed (js "75.00") (js "USDC")
       (js "75.00") (js "USD")
       (js "GBBD47IF6LWK7P7MDEVSCWR7DPUWV3NY3DTQEVFL4NAT4AQH3ZLLFLA5") (Some (js "alice.zaps")) ts
       (Some (js "f6a1b2c3d4e5f6a1b2c3d4e5f6a1b2c3d4e5f6a1b2c3d4e5f6a1b2c3d4e5f6a1"))
       (Some (js "Rent share")) (Some (js "0.00001")) (Some (js "XLM")) (Some (js "Stellar"))
       None
       None
       None None);
  ((5 * 24 * 60 * 60 * 1000)%Z, λ ts,
     MkTransaction (js "tx_007") TSent Completed (js "500.00") (js "USDC")
       (js "500.00") (js "USD")
       (js "GCEZWKCA5VLDNRLN3RPRJMRZOX3Z6G5CHCGZXG5CPCJDGX4LNZM4IXX") (Some (js "bob.zaps")) ts
       (Some (js "a2b3c4d5e6f7a2b3c4d5e6f7a2b3c4d5e6f7a2b3c4d5e6f7a2b3c4d5e6f7a2b3"))
       (Some (js "Project payment")) (Some (js "0.00001")) (Some (js "XLM")) (Some (js "Stellar"))
       None
       None
       None None);
  ((7 * 24 * 60 * 60 * 1000)%Z, λ ts,
     MkTransaction (js "tx_008") TReceived Pending (js "30.00") (js "XLM")
       (js "3.75") (js "USD")
       (js "GDQOE23CFSUMSVQK4Y5JHPPYK73VYCNHZHA7ENKCV37P6SUEO6XQBKPP") None ts
       (Some (js "b3c4d5e6f7a2b3c4d5e6f7a2b3c4d5e6f7a2b3c4d5e6f7a2b3c4d5e6f7a2b3c4"))
       None (Some (js "0.00001")) (Some (js "XLM")) (Some (js "Stellar"))
       None
       (Some (js "AAAAAgAAAABhGug7fJjQPWZ3cN+e8rPcmBif9aM...demo-envelope..."))
       None None)
].

Definition mock_yields_and_payouts : list (Z * (str → Transaction)) := [
  ((12 * 60 * 60 * 1000)%Z, λ ts,
     MkTransaction (js "tx_009") TYield Completed (js "2.45") (js "USDC")
       (js "2.45") (js "USD")
       (js "yield.zaps") (Some (js "Daily yield")) ts
       None
       (Some (js "Daily yield interest")) None None (Some (js "Stellar"))
       (Some Interest)
       None
       None None);
  ((4 * 24 * 60 * 60 * 1000)%Z, λ ts,
     MkTransaction (js "tx_010") TYield Completed (js "15.20") (js "USDC")
       (js "15.20") (js "USD")
       (js "yield.zaps") (Some (js "Yield reward")) ts
       None
       (Some (js "Weekly yield reward")) None None (Some (js "Stellar"))
       (Some Reward)
       None
       None None);
  ((10 * 24 * 60 * 60 * 1000)%Z, λ ts,
     MkTransaction (js "tx_011") TYield Completed (js "8.75") (js "USDC")
       (js "8.75") (js "USD")
       (js "yield.zaps") (Some (js "APY payout")) ts
       None
       (Some (js "APY accrual")) None None (Some (js "Stellar"))
       (Some Apy)
       None
       None None);
  ((2 * 60 * 60 * 1000)%Z, λ ts,
     MkTransaction (js "tx_012") TMassPayout Completed (js "250.00") (js "USDC")
       (js "250.00") (js "USD")
       (js "GCMASS47IF6LWK7P7MDEVSCWR7DPUWV3NY3DTQEVFL4NAT4AQH3ZLLFLA5") (Some (js "SDP Disbursement")) ts
       (Some (js "m1n2o3p4q5r6m1n2o3p4q5r6m1n2o3p4q5r6m1n2o3p4q5r6m1n2o3p4q5r6m1n2"))
       (Some (js "Monthly aid disbursement")) (Some (js "0.00001")) (Some (js "XLM")) (Some (js "Stellar"))
       None
       None
       (Some (js "Acme Relief Fund")) (Some (js "AnchorUSD")));
  ((8 * 24 * 60 * 60 * 1000)%Z, λ ts,
     MkTransaction (js "tx_013") TMassPayout Completed (js "100.00") (js "USDC")
       (js "100.00") (js "USD")
       (js "GCMASS57IF6LWK7P7MDEVSCWR7DPUWV3NY3DTQEVFL4NAT4AQH3ZLLFLA6") (Some (js "SDP Disbursement")) ts
       (Some (js "n2o3p4q5r6m1n2o3p4q5r6m1n2o3p4q5r6m1n2o3p4q5r6m1n2o3p4q5r6m1n2o3"))
       (Some (js "Quarterly payout batch")) (Some (js "0.00001")) (Some (js "XLM")) (Some (js "Stellar"))
       None
       None
       (Some (js "Global Aid Org")) (Some (js "StellarAnchor")));
  ((30 * 60 * 1000)%Z, λ ts,
     MkTransaction (js "tx_014") TMassPayout Pending (js "75.00") (js "USDC")
       (js "75.00") (js "USD")
       (js "GCMASS67IF6LWK7P7MDEVSCWR7DPUWV3NY3DTQEVFL4NAT4AQH3ZLLFLA7") (Some (js "SDP Disbursement")) ts
       (Some (js "o3p4q5r6m1n2o3p4q5r6m1n2o3p4q5r6m1n2o3p4q5r6m1n2o3p4q5r6m1n2o3p4"))
       (Some (js "Emergency relief batch")) (Some (js "0.00001")) (Some (js "XLM")) (Some (js "Stellar"))
       None
       (Some (js "AAAAAgAAAABhGug7fJjQPWZ3cN+e8rPcmBif9aM...demo-envelope..."))
       (Some (js "Community Wallet Project")) (Some (js "MoneyGram")))
].

(** [Date.now()] is read once per row. *)
Definition load_mocks {W} `{Host W} : M W (list Transaction) :=
  for_each (λ acc row, now ← date_now; mret (acc ++ [row.2 (to_iso (now - row.1))])) []
    (mock_transfers ++ mock_yields_and_payouts).

(** ** Requests *)

Definition CACHE_KEY : str := js "tx_cache_v1".
Definition CACHE_TTL_MS : Z := 300000.
Definition PAGE_SIZE : nat := 20.

(** The module state: [memCache] and the rows built at load time. *)
Record tx_state := TxState {
  mem_cache : gmap str (TransactionPage * Z);
  mocks : list Transaction;
}.

(** The argument of the cache key, [{ filters, cursor }]. *)
Record PageRequest := MkPageRequest { pr_filters : TransactionFilters; pr_cursor : option str }.

Definition all_or_text {A} (text : A → str) (o : option A) : str :=
  match o with None => js "all" | Some a => text a end.
Definition all_or_of_text {A} (of_text : str → option A) (s : str) : option (option A) :=
  if str_eqb s (js "all") then Some None else Some <$> of_text s.

Definition bool_value (o : option bool) : option json := JBool <$> o.

Definition filters_to_json (f : TransactionFilters) : json :=
  literal [present (js "type") (JStr (all_or_text type_text (f_type f)));
           present (js "status") (JStr (all_or_text status_text (f_status f)));
           optional (js "dateFrom") (f_dateFrom f); optional (js "dateTo") (f_dateTo f);
           present (js "search") (JStr (f_search f));
           optional (js "amountMin") (f_amountMin f); optional (js "amountMax") (f_amountMax f);
           (js "yieldOnly", bool_value (f_yieldOnly f)); optional (js "asset") (f_asset f)].

Definition filters_of_json (v : json) : option TransactionFilters :=
  type ← field_str (js "type") v ≫= all_or_of_text type_of_text;
  status ← field_str (js "status") v ≫= all_or_of_text status_of_text;
  dateFrom ← field_opt_str (js "dateFrom") v;
  dateTo ← field_opt_str (js "dateTo") v;
  search ← field_str (js "search") v;
  amountMin ← field_opt_str (js "amountMin") v;
  amountMax ← field_opt_str (js "amountMax") v;
  yieldOnly ← match json_get (js "yieldOnly") v with
              | Some (JBool b) => Some (Some b) | None => Some None | _ => None end;
  asset ← field_opt_str (js "asset") v;
  Some (MkFilters type status dateFrom dateTo search amountMin amountMax yieldOnly asset).

#[export] Instance page_request_codec : Codec PageRequest := {
  to_json r := literal [present (js "filters") (filters_to_json (pr_filters r));
                        present (js "cursor") (null_str (pr_cursor r))];
  of_json v :=
    filters ← json_get (js "filters") v ≫= filters_of_json;
    cursor ← field_null_str (js "cursor") v;
    Some (MkPageRequest filters cursor);
  storable _ := True;
}.

Definition cache_key (filters : TransactionFilters) (cursor : option str) : str :=
  to_text (MkPageRequest filters cursor).

(** The query parameters of the backend endpoint, assembled but not sent yet. *)
Definition query_params (filters : TransactionFilters) (cursor : option str) : list (str * str) :=
  let effectiveType :=
    if bool_decide (f_yieldOnly filters = Some true) && bool_decide (f_type filters = None)
    then Some TYield else f_type filters in
  let set_if (k : str) (o : option str) := match o with
    | Some v => if truthy v then [(k, v)] else [] | None => [] end in
  set_if (js "cursor") cursor
  ++ match effectiveType with Some t => [(js "type", type_text t)] | None => [] end
  ++ match f_status filters with Some s => [(js "status", status_text s)] | None => [] end
  ++ set_if (js "asset") (f_asset filters)
  ++ set_if (js "date_from") (f_dateFrom filters)
  ++ set_if (js "date_to") (f_dateTo filters)
  ++ set_if (js "amount_min") (f_amountMin filters)
  ++ set_if (js "amount_max") (f_amountMax filters)
  ++ set_if (js "search") (Some (f_search filters)).

Section Service.
Context `{UC : UnicodeCase, HD : HostDates}.

(** [if (o) { ... }] on an optional string *)
Definition when_given (o : option str) (f : str → bool) : bool :=
  match o with Some s => if truthy s then f s else true | None => true end.

Definition matches_search (q : str) (tx : Transaction) : bool :=
  let found (o : option str) := match o with Some s => includes q (to_lower s) | None => false end in
  includes q (to_lower (tx_address tx)) || found (tx_addressLabel tx) || found (tx_memo tx)
  || found (tx_stellarTxHash tx) || includes q (to_lower (tx_asset tx)).

(** The predicate of [all.filter]. *)
Definition tx_matches (f : TransactionFilters) (tx : Transaction) : bool :=
  negb (bool_decide (f_yieldOnly f = Some true) && bool_decide (tx_type tx ≠ TYield))
  && match f_type f with Some t => bool_decide (tx_type tx = t) | None => true end
  && match f_status f with Some s => bool_decide (tx_status tx = s) | None => true end
  && when_given (f_asset f) (λ a, str_eqb (to_upper (tx_asset tx)) (to_upper a))
  && when_given (Some (f_search f)) (λ s, matches_search (to_lower s) tx)
  && when_given (f_dateFrom f) (λ d, negb (num_ltb (date_ms (tx_timestamp tx)) (date_ms d)))
  && when_given (f_dateTo f) (λ d, negb (num_ltb (date_ms d) (date_ms (tx_timestamp tx))))
  && when_given (f_amountMin f) (λ a, negb (num_ltb (parseFloat (tx_amount tx)) (parseFloat a)))
  && when_given (f_amountMax f) (λ a, negb (num_ltb (parseFloat a) (parseFloat (tx_amount tx)))).

(** The sort callback is positive: [b] is newer than [a]. *)
Definition older (a b : Transaction) : bool :=
  num_ltb (Fin 0 0) (num_sub (date_ms (tx_timestamp b)) (date_ms (tx_timestamp a))).

Definition visible (f : TransactionFilters) (all : list Transaction) : list Transaction :=
  stable_sort older (List.filter (tx_matches f) all).

(** Cursor-based pagination; an unknown cursor ([findIndex] = -1) restarts at 0. *)
Definition page_of (filtered : list Transaction) (cursor : option str) : TransactionPage :=
  let startIndex :=
    match cursor with
    | Some c => if truthy c then
                  match find_index (λ t, str_eqb (tx_id t) c) filtered with
                  | Some i => i + 1 | None => 0 end
                else 0
    | None => 0
    end in
  let page := take PAGE_SIZE (drop startIndex filtered) in
  MkPage page
    (if startIndex + PAGE_SIZE <? length filtered then tx_id <$> last page else None)
    (length filtered).

(** Built-in rows not shadowed by a cached row of the same id, then the cache. *)
Definition merge_cached (all cached : list Transaction) : list Transaction :=
  List.filter (λ t, negb (existsb (λ c, str_eqb (tx_id c) (tx_id t)) cached)) all ++ cached.

Context `{Host W}.

Definition readCache : M W (option (list Transaction)) :=
  parsed ← try_catch
    (raw ← st_get AsyncStorage CACHE_KEY;
     match raw with
     | Some raw => if truthy raw then entry ← JSON_parse raw; mret (Some entry) else mret None
     | None => mret None
     end)
    (λ _, mret None);
  match parsed with
  | None => mret None
  | Some v =>
      entry ← cast v;
      now ← date_now;
      mret (if (CACHE_TTL_MS <? now - ce_timestamp entry)%Z then None else Some (ce_data entry))
  end.

Definition writeCache (data : list Transaction) : M W unit :=
  try_catch
    (now ← date_now;
     st_set AsyncStorage CACHE_KEY (to_text (MkCacheEntry data now)))
    (λ _, mret tt).

Definition fetchTransactions (filters : TransactionFilters) (cursor : option str)
    : M (tx_state * W) TransactionPage :=
  let cacheKey := cache_key filters cursor in
  st ← get_state;
  hit ← match mem_cache st !! cacheKey with
        | Some (data, expiresAt) =>
            now ← host date_now;
            mret (if (now <? expiresAt)%Z then Some data else None)
        | None => mret None
        end;
  match hit with
  | Some data => mret data
  | None =>
      cachedData ← host readCache;
      let all := match cachedData with
                 | Some cached => merge_cached (mocks st) cached
                 | None => mocks st
                 end in
      let result := page_of (visible filters all) cursor in
      host (writeCache all);;
      now ← host date_now;
      modify_state (λ st, TxState (<[cacheKey := (result, (now + 30000)%Z)]> (mem_cache st)) (mocks st));;
      mret result
  end.

Definition fetchTransactionById (id : str) : M (tx_state * W) (option Transaction) :=
  st ← get_state;
  cached ← host readCache;
  let found := match cached with
               | Some cached => find (λ t, str_eqb (tx_id t) id) cached
               | None => None
               end in
  match found with
  | Some t => mret (Some t)
  | None => mret (find (λ t, str_eqb (tx_id t) id) (mocks st))
  end.

Definition invalidateTransactionCache : M (tx_state * W) unit :=
  modify_state (λ st, TxState ∅ (mocks st));;
  host (st_del AsyncStorage CACHE_KEY).
End Service.

(** ** Properties *)

Lemma all_or_type_text o : all_or_of_text type_of_text (all_or_text type_text o) = Some o.
Proof. by destruct o as [[]|]. Qed.
Lemma all_or_status_text o : all_or_of_text status_of_text (all_or_text status_text o) = Some o.
Proof. by destruct o as [[]|]. Qed.

#[local] Arguments all_or_of_text : simpl never.

Lemma filters_json f :
  filters_of_json (filters_to_json f) = Some f ∧ json_ok (filters_to_json f).
Proof.
  destruct f as [ty st df dt se amin amax yo asset]. split.
  - unfold filters_of_json, filters_to_json.
    cbn [f_type f_status f_dateFrom f_dateTo f_search f_amountMin f_amountMax f_yieldOnly f_asset].
    pose proof (all_or_type_text ty) as Ety. generalize dependent (all_or_text type_text ty). intros tty Ety.
    pose proof (all_or_status_text st) as Est. generalize dependent (all_or_text status_text st). intros tst Est.
    assert (Eyo : match bool_value yo with
                  | Some (JBool b) => Some (Some b) | None => Some None | _ => None end = Some yo)
      by by destruct yo.
    generalize dependent (bool_value yo). intros vyo Eyo. read_literal. rewrite !optional_view.
    cbn [mbind option_bind json_str]. rewrite Ety. cbn. rewrite Est. cbn. by rewrite Eyo.
  - unfold filters_to_json. solve_literal_ok. by destruct yo.
Qed.

#[export] Instance page_request_codec_laws : CodecLaws PageRequest.
Proof.
  split; intros [f c] _; cbn [to_json of_json page_request_codec pr_filters pr_cursor];
    destruct (filters_json f) as [Ef Of].
  - generalize dependent (filters_to_json f). intros v Ef _. read_literal. cbn. rewrite Ef. by destruct c.
  - solve_literal_ok; [exact Of|by destruct c].
Qed.

(** the memory cache never answers with the page of another request: two requests
    have the same key only if all their filters and their cursor are equal. *)
Theorem cache_key_injective f1 c1 f2 c2 :
  cache_key f1 c1 = cache_key f2 c2 → f1 = f2 ∧ c1 = c2.
Proof. intros E. by apply to_text_inj in E as [= -> ->]. Qed.

Section Pages.

(** Following [nextCursor] from the first page. *)
Fixpoint all_pages (fuel : nat) (filtered : list Transaction) (cursor : option str) : list Transaction :=
  match fuel with
  | O => []
  | S fuel' =>
      let p := page_of filtered cursor in
      pg_items p ++ match pg_nextCursor p with
                    | Some c => all_pages fuel' filtered (Some c)
                    | None => []
                    end
  end.

Lemma page_of_after l i t :
  NoDup (tx_id <$> l) → Forall (λ t, tx_id t ≠ []) l → l !! i = Some t →
  page_of l (Some (tx_id t)) =
    MkPage (take PAGE_SIZE (drop (S i) l))
      (if S i + PAGE_SIZE <? length l then tx_id <$> last (take PAGE_SIZE (drop (S i) l)) else None)
      (length l).
Proof.
  intros Hnd Hne Hi. unfold page_of.
  assert (truthy (tx_id t) = true) as ->.
  { apply truthy_true. rewrite Forall_forall in Hne. by eapply Hne, list_elem_of_lookup_2. }
  rewrite (find_index_unique tx_id _ l i t Hnd Hi).
  - by rewrite Nat.add_1_r.
  - by apply str_eqb_true.
  - intros y Hy. by apply str_eqb_true in Hy.
Qed.

Lemma last_take_drop {A} (l : list A) i n :
  i + S n < length l → last (take (S n) (drop i l)) = l !! (i + n).
Proof.
  intros Hlt. rewrite last_lookup, length_take, length_drop.
  replace (pred (S n `min` (length l - i))) with n by lia.
  rewrite lookup_take, decide_True by lia. by rewrite lookup_drop.
Qed.

Lemma all_pages_from fuel : ∀ l i t,
  NoDup (tx_id <$> l) → Forall (λ t, tx_id t ≠ []) l → l !! i = Some t →
  length l ≤ S i + fuel → all_pages fuel l (Some (tx_id t)) = drop (S i) l.
Proof.
  induction fuel as [|fuel IH]; intros l i t Hnd Hne Hi Hf; cbn [all_pages].
  { by rewrite drop_ge by lia. }
  rewrite (page_of_after l i t) by done. cbn [pg_items pg_nextCursor].
  destruct (Nat.ltb_spec (S i + PAGE_SIZE) (length l)) as [Hlt|Hge].
  - unfold PAGE_SIZE in *. rewrite last_take_drop by lia.
    destruct (l !! (S i + 19)) as [u|] eqn:Hu; [|apply lookup_ge_None in Hu; lia].
    cbn [fmap option_fmap option_map]. rewrite (IH l (S i + 19) u) by (done || lia).
    replace (S (S i + 19)) with (S i + 20) by lia. by rewrite <-drop_drop, take_drop.
  - rewrite app_nil_r, take_ge; [done|]. rewrite length_drop. lia.
Qed.

(** C13: with distinct non-empty ids, following the cursors from the first page
    enumerates the filtered list exactly: every transaction once, in order, and the walk
    ends after at most as many pages as there are transactions. *)
Theorem pages_enumerate l :
  NoDup (tx_id <$> l) → Forall (λ t, tx_id t ≠ []) l →
  all_pages (S (length l)) l None = l ∧
  ∀ c, length (pg_items (page_of l c)) ≤ PAGE_SIZE ∧ pg_total (page_of l c) = length l.
Proof.
  intros Hnd Hne. split.
  - cbn [all_pages page_of pg_items pg_nextCursor]. rewrite drop_0. cbn [Nat.add].
    destruct (Nat.ltb_spec PAGE_SIZE (length l)) as [Hlt|Hge].
    + pose proof (last_take_drop l 0 19) as E. rewrite drop_0 in E. unfold PAGE_SIZE in *.
      rewrite E by lia. cbn [Nat.add]. destruct (l !! 19) as [u|] eqn:Hu; [|apply lookup_ge_None in Hu; lia].
      cbn [fmap option_fmap option_map]. rewrite (all_pages_from (length l) l 19 u) by (done || lia).
      by rewrite take_drop.
    + by rewrite app_nil_r, take_ge by lia.
  - intros c. cbn [page_of pg_items pg_total]. rewrite length_take. lia.
Qed.
End Pages.

Section Visible.
Context `{UC : UnicodeCase, HD : HostDates}.

(** A timestamp the service itself writes. *)
Definition timed (t : Transaction) : Prop :=
  ∃ z, iso_range z ∧ date_ms (tx_timestamp t) = Fin z 0.

Lemma older_spec a b za zb :
  iso_range za → iso_range zb → date_ms (tx_timestamp a) = Fin za 0 →
  date_ms (tx_timestamp b) = Fin zb 0 → older a b = (za <? zb)%Z.
Proof.
  intros Ha Hb Ea Eb. unfold older, num_sub. rewrite Ea, Eb. cbn [num_opp num_add].
  change (2 ^ (- 0))%Z with 1%Z. rewrite !Z.mul_1_r. fold (num_of_Z (zb + - za)%Z).
  rewrite num_of_Z_safe by (unfold safe_int, iso_range in *; lia).
  cbn. rewrite Z.mul_1_r. destruct (Z.ltb_spec 0 (zb + - za)), (Z.ltb_spec za zb); lia || done.
Qed.

(** what is shown is exactly the transactions that pass every active filter, each as
    often as it is in the list, ordered newest first. *)
Theorem visible_sorted f all :
  Forall timed all →
  visible f all ≡ₚ List.filter (tx_matches f) all ∧
  StronglySorted (λ a b, num_leb (date_ms (tx_timestamp b)) (date_ms (tx_timestamp a)) = true)
    (visible f all).
Proof.
  intros Hall. split; [apply stable_sort_perm|].
  apply (stable_sort_sorted older timed).
  - intros x y (zx & Hx & Ex) (zy & Hy & Ey) G. rewrite (older_spec x y zx zy) in G by done.
    rewrite Ex, Ey. cbn. lia.
  - intros x y (zx & Hx & Ex) (zy & Hy & Ey) G. rewrite (older_spec x y zx zy) in G by done.
    rewrite Ex, Ey. cbn. lia.
  - intros x y z (zx & _ & Ex) (zy & _ & Ey) (zz & _ & Ez). rewrite Ex, Ey, Ez. cbn. intros ??. lia.
  - rewrite Forall_forall in *. intros t Ht. apply Hall.
    apply list_elem_of_In, filter_In in Ht as [Ht _]. by apply list_elem_of_In.
Qed.
End Visible.

Section Fetching.
Context `{UC : UnicodeCase, HD : HostDates, HostLaws W}.
Implicit Types (w : W) (st : tx_state).

(** What [readCache] makes of the stored text at time [now]. *)
Definition cached_at (now : Z) (raw : option str) : res (option (list Transaction)) :=
  match raw with
  | Some raw =>
      match json_parse raw with
      | Some v =>
          match of_json v with
          | Some entry => Ok (if (CACHE_TTL_MS <? now - ce_timestamp entry)%Z then None
                              else Some (ce_data entry))
          | None => Throw unchecked_cast
          end
      | None => Ok None
      end
  | None => Ok None
  end.

(** The list the filters are applied to. *)
Definition list_at (now : Z) (rows : list Transaction) (raw : option str) : list Transaction :=
  match cached_at now raw with Ok (Some cached) => merge_cached rows cached | _ => rows end.

Definition cache_of w : option str := st_peek w AsyncStorage CACHE_KEY.

(** The stored text is what [writeCache] writes. *)
Definition cache_wf (raw : option str) : Prop :=
  raw = None ∨ ∃ entry, safe_int (ce_timestamp entry) ∧ raw = Some (to_text entry).

Lemma cached_at_wf raw : cache_wf raw → ∀ now, ∃ o, cached_at now raw = Ok o.
Proof.
  intros [->|(entry & Hts & ->)] now; [by eexists|]. unfold cached_at.
  assert (Hs : storable entry) by exact Hts.
  destruct (parse_to_text entry Hs) as (v & Ev & Ed). rewrite Ev, Ed. by eexists.
Qed.

Lemma readCache_run w : st_live w → ∃ now w',
  readCache w = (cached_at now (cache_of w), w') ∧ kept w w' ∧ iso_range now.
Proof.
  intros L. unfold readCache. destruct (get_live AsyncStorage CACHE_KEY w L) as (w1 & E1 & K1).
  destruct (now_spec w1) as (now & w2 & E2 & K2 & T2).
  assert (K : kept w w2) by by etrans.
  assert (R : ∀ v, (now_entry ← cast v; t ← date_now;
            mret (if (CACHE_TTL_MS <? t - ce_timestamp now_entry)%Z then None
                  else Some (ce_data now_entry))) w1
        = (match of_json v with
           | Some entry => Ok (if (CACHE_TTL_MS <? now - ce_timestamp entry)%Z then None
                               else Some (ce_data entry))
           | None => Throw unchecked_cast
           end, match of_json (A := CacheEntry) v with Some _ => w2 | None => w1 end)).
  { intros v. unfold cast. generalize (of_json (A := CacheEntry) v). intros [entry|]; [|done].
    rewrite (run_bind_ok _ _ _ _ _ (run_ret entry w1)). by rewrite (run_bind_ok _ _ _ _ _ E2). }
  rewrite run_bind. unfold try_catch. rewrite (run_bind_ok _ _ _ _ _ E1). unfold cached_at, cache_of.
  destruct (st_peek w AsyncStorage CACHE_KEY) as [raw|]; [|by exists now, w1].
  destruct raw as [|c raw]; [by exists now, w1|]. cbn [truthy]. unfold JSON_parse. rewrite run_bind.
  destruct (json_parse (c :: raw)) as [v|]; [|by exists now, w1].
  cbn [mret M_ret]. exists now. rewrite R. destruct (of_json (A := CacheEntry) v); [by exists w2|by exists w1].
Qed.

Lemma writeCache_run w data : st_live w → ∃ now w',
  writeCache data w = (Ok tt, w') ∧ iso_range now ∧
  stored w w' AsyncStorage CACHE_KEY (Some (to_text (MkCacheEntry data now))).
Proof.
  intros L. destruct (now_spec w) as (now & w1 & E1 & K1 & T1).
  destruct (set_live AsyncStorage CACHE_KEY (to_text (MkCacheEntry data now)) w1) as (w2 & E2 & S2).
  { by apply (kept_live _ _ K1). }
  exists now, w2. split; [|split; [done|by eapply stored_kept_l]].
  unfold writeCache, try_catch. by rewrite (run_bind_ok _ _ _ _ _ E1), E2.
Qed.

(** on a cache miss the answer is the requested page of the filtered, sorted and
    merged list; the merged list becomes the stored cache, the page is memoised for 30 s
    under the request's key, and nothing else changes. *)
Theorem fetch_page f c st w :
  st_live w → mem_cache st !! cache_key f c = None → cache_wf (cache_of w) →
  ∃ now saved exp w',
    let all := list_at now (mocks st) (cache_of w) in
    let page := page_of (visible f all) c in
    fetchTransactions f c (st, w) =
      (Ok page, (TxState (<[cache_key f c := (page, (exp + 30000)%Z)]> (mem_cache st)) (mocks st), w')) ∧
    stored w w' AsyncStorage CACHE_KEY (Some (to_text (MkCacheEntry all saved))) ∧
    cache_wf (cache_of w').
Proof.
  intros L Hm Hwf. unfold fetchTransactions.
  rewrite (run_bind_ok _ _ _ _ _ (run_get_state _ _)), Hm, (run_bind_ok _ _ _ _ _ (run_ret None (st, w))).
  destruct (readCache_run w L) as (now & w1 & E1 & K1 & _).
  destruct (cached_at_wf _ Hwf now) as (o & Eo). rewrite Eo in E1.
  rewrite (run_bind_ok _ _ _ _ _ (run_host _ _ _ _ _ E1)).
  destruct (writeCache_run w1 (list_at now (mocks st) (cache_of w))) as (saved & w2 & E2 & T2 & S2).
  { by apply (kept_live _ _ K1). }
  destruct (now_spec w2) as (exp & w3 & E3 & K3 & T3).
  exists now, saved, exp, w3. cbn zeta. unfold list_at in *. rewrite Eo in *.
  assert (S3 := stored_kept_l _ _ _ _ _ _ K1 (stored_kept_r _ _ _ _ _ _ S2 K3)). split.
  - destruct o as [cached|].
    + rewrite (run_bind_ok _ _ _ _ _ (run_host _ _ _ _ _ E2)).
      by rewrite (run_bind_ok _ _ _ _ _ (run_host _ _ _ _ _ E3)).
    + rewrite (run_bind_ok _ _ _ _ _ (run_host _ _ _ _ _ E2)).
      by rewrite (run_bind_ok _ _ _ _ _ (run_host _ _ _ _ _ E3)).
  - split; [exact S3|]. right. eexists. split; [|apply (stored_eq _ _ _ _ _ S3)].
    cbn. unfold safe_int, iso_range in *. lia.
Qed.

Lemma find_filter_app {A} (p q : A → bool) (l k : list A) :
  (∀ x, p x = true → q x = negb (existsb p k)) →
  find p (List.filter q l ++ k) = match find p k with Some x => Some x | None => find p l end.
Proof.
  intros Hq. induction l as [|x l IH]; cbn.
  - by destruct (find p k).
  - destruct (p x) eqn:Px.
    + rewrite (Hq x Px). destruct (existsb p k) eqn:Ek; cbn; [|rewrite Px].
      * rewrite IH. apply existsb_exists in Ek as (y & Hy & Py).
        destruct (find p k) eqn:Fk; [done|]. by rewrite (find_none _ _ Fk y Hy) in Py.
      * destruct (find p k) eqn:Fk; [|done]. apply find_some in Fk as [Hin Py].
        exfalso. assert (existsb p k = true) by (apply existsb_exists; eauto). congruence.
    + destruct (q x); cbn; [rewrite Px|]; exact IH.
Qed.

Lemma by_id_run id st w :
  st_live w → cache_wf (cache_of w) →
  ∃ now w', fetchTransactionById id (st, w) =
    (Ok (find (λ t, str_eqb (tx_id t) id) (list_at now (mocks st) (cache_of w))), (st, w')) ∧
    kept w w'.
Proof.
  intros L Hwf. destruct (readCache_run w L) as (now & w1 & E1 & K1 & _).
  destruct (cached_at_wf _ Hwf now) as (o & Eo). rewrite Eo in E1. exists now, w1. split; [|done].
  unfold fetchTransactionById, list_at. rewrite (run_bind_ok _ _ _ _ _ (run_get_state _ _)).
  rewrite (run_bind_ok _ _ _ _ _ (run_host _ _ _ _ _ E1)), Eo. destruct o as [cached|]; [|done].
  unfold merge_cached. rewrite find_filter_app.
  - by destruct (find _ cached).
  - intros x Hx. apply str_eqb_true in Hx as <-. f_equal.
Qed.

(** looking a transaction up by id agrees with the list that is displayed: it answers
    the entry the merged list holds under that id, a cached row shadowing a built-in one,
    and changes nothing. *)
Theorem by_id_agrees id st w :
  st_live w → cache_wf (cache_of w) →
  ∃ now w', fetchTransactionById id (st, w) =
    (Ok (find (λ t, str_eqb (tx_id t) id) (list_at now (mocks st) (cache_of w))), (st, w')) ∧
    kept w w'.
Proof. apply by_id_run. Qed.

(** A memoised page is answered without touching the stores until it expires. *)
Lemma fetch_memoised f c st w data exp :
  mem_cache st !! cache_key f c = Some (data, exp) → ∃ now w1,
  date_now w = (Ok now, w1) ∧ kept w w1 ∧
  ((now < exp)%Z → fetchTransactions f c (st, w) = (Ok data, (st, w1))).
Proof.
  intros Hm. destruct (now_spec w) as (now & w1 & E1 & K1 & _). exists now, w1. split; [done|].
  split; [done|]. intros Hlt. unfold fetchTransactions.
  rewrite (run_bind_ok _ _ _ _ _ (run_get_state _ _)), Hm, run_bind.
  rewrite (run_bind_ok _ _ _ _ _ (run_host _ _ _ _ _ E1)).
  by rewrite (proj2 (Z.ltb_lt _ _) Hlt).
Qed.
End Fetching.

(** A day given as the last one to include ends at its first millisecond. *)
Lemma date_to_excludes_its_day `{UnicodeCase, HostDates} t :
  tx_timestamp t = js "2026-01-31T08:00:00.000Z" →
  tx_matches (MkFilters None None None (Some (js "2026-01-31")) [] None None None None) t = false.
Proof.
  intros E. unfold tx_matches. cbn [f_dateTo f_yieldOnly f_type f_status f_asset f_search f_dateFrom
    f_amountMin f_amountMax when_given]. rewrite E. by vm_compute.
Qed.

(** ** Concrete runs *)

Module Runs.
#[local] Existing Instances ascii_case iso_only.

Definition row (id ts : str) : Transaction :=
  MkTransaction id TSent Completed (js "5.00") (js "USDC") (js "5.00") (js "USD") (js "GABC")
    None ts None (Some (js "Lunch")) None None None None None None None.

Definition rows : list Transaction :=
  [row (js "t1") (js "2026-01-01T00:00:00.000Z"); row (js "t2") (js "2026-01-03T00:00:00.000Z");
   row (js "t3") (js "2026-01-02T00:00:00.000Z")].

Definition any : TransactionFilters := MkFilters None None None None [] None None None None.

Definition cached : CacheEntry := MkCacheEntry [row (js "t1") (js "2026-01-05T00:00:00.000Z")] 1767225500000.

Definition w0 : scripted := world [(AsyncStorage, CACHE_KEY, to_text cached)] [].

Lemma w0_cache : cache_wf (cache_of w0).
Proof. right. exists cached. split; [unfold safe_int; cbn; lia|reflexivity]. Qed.

Lemma rows_timed : Forall timed rows.
Proof.
  unfold rows. repeat (apply Forall_cons; split); [..|apply Forall_nil; exact I].
  - exists 1767225600000%Z. split; [unfold iso_range; lia|vm_compute; reflexivity].
  - exists 1767398400000%Z. split; [unfold iso_range; lia|vm_compute; reflexivity].
  - exists 1767312000000%Z. split; [unfold iso_range; lia|vm_compute; reflexivity].
Qed.

Example rows_order : tx_id <$> visible any rows = [js "t2"; js "t3"; js "t1"].
Proof. vm_compute. reflexivity. Qed.

(** A day given as the last one to include ends at its first millisecond. *)
Example date_to_midnight :
  visible (MkFilters None None None (Some (js "2026-01-03")) [] None None None None)
    [row (js "t") (js "2026-01-03T08:00:00.000Z")] = [].
Proof. vm_compute. reflexivity. Qed.

Lemma cache_key_injective_witness : any = any ∧ Some (js "t1") = Some (js "t1").
Proof. apply (cache_key_injective any (Some (js "t1")) any (Some (js "t1"))). reflexivity. Defined.

Lemma pages_enumerate_witness :
  all_pages 4 rows None = rows ∧
  ∀ c, length (pg_items (page_of rows c)) ≤ PAGE_SIZE ∧ pg_total (page_of rows c) = 3.
Proof.
  apply (pages_enumerate rows).
  - apply keys_distinct_true. vm_compute. reflexivity.
  - repeat (apply Forall_cons; split); [..|apply Forall_nil; exact I]; vm_compute; discriminate.
Defined.

Lemma visible_sorted_witness :
  visible any rows ≡ₚ List.filter (tx_matches any) rows ∧
  StronglySorted (λ a b, num_leb (date_ms (tx_timestamp b)) (date_ms (tx_timestamp a)) = true)
    (visible any rows).
Proof. apply (visible_sorted any rows rows_timed). Defined.

Lemma fetch_page_witness :
  ∃ now saved exp w',
    let all := list_at now rows (cache_of w0) in
    let page := page_of (visible any all) None in
    fetchTransactions any None (TxState ∅ rows, w0) =
      (Ok page, (TxState (<[cache_key any None := (page, (exp + 30000)%Z)]> ∅) rows, w')) ∧
    stored w0 w' AsyncStorage CACHE_KEY (Some (to_text (MkCacheEntry all saved))) ∧
    cache_wf (cache_of w').
Proof.
  apply (fetch_page any None (TxState ∅ rows) w0); [reflexivity|apply lookup_empty|apply w0_cache].
Defined.

Lemma by_id_agrees_witness :
  ∃ now w', fetchTransactionById (js "t1") (TxState ∅ rows, w0) =
    (Ok (find (λ t, str_eqb (tx_id t) (js "t1")) (list_at now rows (cache_of w0))),
     (TxState ∅ rows, w')) ∧ kept w0 w'.
Proof. apply (by_id_agrees (js "t1") (TxState ∅ rows) w0); [reflexivity|apply w0_cache]. Defined.
End Runs.
