(* ===== verification/MobileHooks.v ===== *)
(** * Hooks of the mobile application

    Models of [mobileapp/src/hooks/useTransactions.ts], [useNetworkStatus.ts] and
    [useDebounce.ts], and of the theme preference of [contexts/ThemeProvider.tsx]. What a hook
    waits for is a list of pending steps; the answers of the history service are those of
    [TransactionService]. *)

From S2P Require Import Prelude JsString JsNumber JsDate Json Effects Decode Scripts TransactionService.

(** ** [useTransactions] *)

Module Feed.
Inductive load_kind := KReload | KRefresh | KMore.

(** A call of [load] that waits for its page. *)
Record pending := Pending { pn_kind : load_kind; pn_filters : TransactionFilters; pn_cursor : option str }.

Record feed := MkFeed {
  fd_items : list Transaction;
  fd_loading : bool;
  fd_refreshing : bool;
  fd_loadingMore : bool;
  fd_error : option str;
  fd_filters : TransactionFilters;
  fd_total : nat;
  fd_cursor : option str;
  fd_hasMore : bool;
  fd_active : TransactionFilters;
  fd_pending : list pending;
}.

Definition DEFAULT_FILTERS : TransactionFilters := MkFilters None None None None [] None None None None.

Definition initial_feed : feed :=
  MkFeed [] false false false None DEFAULT_FILTERS 0 None true DEFAULT_FILTERS [].

(** [load] once its page is there. *)
Definition new_rows (prev items : list Transaction) : list Transaction :=
  filter (λ t, tx_id t ∉ tx_id <$> prev) items.

Definition load_settled (append : bool) (r : res TransactionPage) (s : feed) : feed :=
  match r with
  | Ok page =>
      MkFeed (if append then fd_items s ++ new_rows (fd_items s) (pg_items page) else pg_items page)
        (fd_loading s) (fd_refreshing s) (fd_loadingMore s) None (fd_filters s) (pg_total page)
        (pg_nextCursor page) (match pg_nextCursor page with None => false | Some _ => true end)
        (fd_active s) (fd_pending s)
  | Throw e =>
      MkFeed (fd_items s) (fd_loading s) (fd_refreshing s) (fd_loadingMore s) (Some (err_message e))
        (fd_filters s) (fd_total s) (fd_cursor s) (fd_hasMore s) (fd_active s) (fd_pending s)
  end.

(** The flag a call lowers when it ends. *)
Definition lower (k : load_kind) (s : feed) : feed :=
  MkFeed (fd_items s) (match k with KReload => false | _ => fd_loading s end)
    (match k with KRefresh => false | _ => fd_refreshing s end)
    (match k with KMore => false | _ => fd_loadingMore s end)
    (fd_error s) (fd_filters s) (fd_total s) (fd_cursor s) (fd_hasMore s) (fd_active s) (fd_pending s).

Definition reload (newFilters : option TransactionFilters) (s : feed) : feed :=
  let f := default (fd_active s) newFilters in
  MkFeed (fd_items s) true (fd_refreshing s) (fd_loadingMore s) (fd_error s) (fd_filters s) (fd_total s)
    None true f (fd_pending s ++ [Pending KReload f None]).

Definition refresh (s : feed) : feed :=
  MkFeed (fd_items s) (fd_loading s) true (fd_loadingMore s) (fd_error s) (fd_filters s) (fd_total s)
    None true (fd_active s) (fd_pending s ++ [Pending KRefresh (fd_active s) None]).

Definition loadMore (s : feed) : feed :=
  if fd_loadingMore s || negb (fd_hasMore s) then s
  else match fd_cursor s with
       | None => s
       | Some c =>
           MkFeed (fd_items s) (fd_loading s) (fd_refreshing s) true (fd_error s) (fd_filters s) (fd_total s)
             (fd_cursor s) (fd_hasMore s) (fd_active s) (fd_pending s ++ [Pending KMore (fd_active s) (Some c)])
       end.

Definition applyFilters (f : TransactionFilters) (s : feed) : feed :=
  let s := MkFeed (fd_items s) (fd_loading s) (fd_refreshing s) (fd_loadingMore s) (fd_error s) f (fd_total s)
             (fd_cursor s) (fd_hasMore s) (fd_active s) (fd_pending s) in
  reload (Some f) s.

(** The [i]-th pending call gets its answer. *)
Definition settle (i : nat) (r : res TransactionPage) (s : feed) : feed :=
  match fd_pending s !! i with
  | None => s
  | Some p =>
      let s := MkFeed (fd_items s) (fd_loading s) (fd_refreshing s) (fd_loadingMore s) (fd_error s) (fd_filters s)
                 (fd_total s) (fd_cursor s) (fd_hasMore s) (fd_active s) (delete i (fd_pending s)) in
      lower (pn_kind p) (load_settled (match pn_kind p with KMore => true | _ => false end) r s)
  end.

Inductive feed_event :=
  EvReload | EvRefresh | EvMore | EvFilters (f : TransactionFilters) | EvSettle (i : nat) (r : res TransactionPage).

Definition feed_step (s : feed) (ev : feed_event) : feed :=
  match ev with
  | EvReload => reload None s | EvRefresh => refresh s | EvMore => loadMore s
  | EvFilters f => applyFilters f s | EvSettle i r => settle i r s
  end.

Definition feed_run (evs : list feed_event) (s : feed) : feed := foldl feed_step s evs.

(** One end of the list reached: the next page asked for and answered from the list [l]. *)
Definition scroll (l : list Transaction) (s : feed) : feed :=
  settle 0 (Ok (page_of l (fd_cursor s))) (loadMore s).

Definition scrolls (n : nat) (l : list Transaction) (s : feed) : feed := Nat.iter n (scroll l) s.

(** The list opened with filters [f], whose first page is answered. *)
Definition opened (f : TransactionFilters) (l : list Transaction) : feed :=
  settle 0 (Ok (page_of l None)) (applyFilters f initial_feed).

(** *** Lemmas *)

Definition shown (l : list Transaction) (n : nat) (s : feed) : Prop :=
  fd_items s = take n l ∧ fd_pending s = [] ∧ fd_loadingMore s = false ∧ fd_loading s = false ∧
  fd_hasMore s = (n <? length l)%nat ∧ fd_total s = length l ∧ fd_error s = None ∧
  fd_cursor s = (if (n <? length l)%nat then tx_id <$> l !! (n - 1) else None).

Lemma opened_shown f l : shown l PAGE_SIZE (opened f l) ∧ fd_active (opened f l) = f ∧ fd_filters (opened f l) = f.
Proof.
  assert (E : page_of l None = MkPage (take PAGE_SIZE l) (if (PAGE_SIZE <? length l)%nat then tx_id <$> l !! (PAGE_SIZE - 1) else None) (length l)).
  { unfold page_of. cbn zeta. rewrite drop_0, Nat.add_0_l. f_equal. unfold PAGE_SIZE. destruct (Nat.ltb_spec 20 (length l)); [|done].
    pose proof (last_take_drop l 0 19) as E. rewrite drop_0 in E. by rewrite E by lia. }
  unfold opened, shown. rewrite E. split; [|done]. unfold settle, applyFilters, reload. cbn [fd_pending initial_feed app lookup list_lookup].
  repeat (split; [done|]). cbn -[Nat.ltb]. unfold PAGE_SIZE. destruct (Nat.ltb_spec 20 (length l)) as [Hl|Hl]; [|done].
  destruct (l !! 19) eqn:El; [done|]. apply lookup_ge_None in El. lia.
Qed.

Lemma new_rows_fresh prev items :
  NoDup (tx_id <$> prev ++ items) → new_rows prev items = items.
Proof.
  intros Hn. rewrite fmap_app in Hn. apply NoDup_app in Hn as (_ & Hd & _). unfold new_rows.
  assert (F : ∀ l : list Transaction, (∀ t, t ∈ l → tx_id t ∉ tx_id <$> prev) → filter (λ t, tx_id t ∉ tx_id <$> prev) l = l).
  { induction l as [|t l IH]; [done|]. intros Hl. rewrite filter_cons_True by (apply Hl; by left).
    f_equal. apply IH. intros u Hu. apply Hl. by right. }
  apply F. intros t Ht Hp. apply (Hd _ Hp). by apply list_elem_of_fmap_2.
Qed.

Lemma scroll_shown l n s :
  NoDup (tx_id <$> l) → Forall (λ t, tx_id t ≠ []) l → 0 < n → shown l n s →
  shown l (n + PAGE_SIZE) (scroll l s) ∧ fd_active (scroll l s) = fd_active s ∧ fd_filters (scroll l s) = fd_filters s.
Proof.
  intros Hn Hne Hpos (Hi & Hp & Hm & Hl & Hh & Ht & He & Hc). unfold scroll, loadMore.
  rewrite Hm, Hh, Hc. destruct (Nat.ltb_spec n (length l)) as [Hlt|Hge]; cbn [negb orb].
  - destruct (l !! (n - 1)) as [t|] eqn:Et; [|apply lookup_ge_None in Et; lia].
    cbn [fmap option_fmap option_map]. unfold settle. rewrite Hp. cbn -[page_of Nat.ltb new_rows]. split; [|done].
    rewrite (page_of_after l (n - 1) t Hn Hne Et). replace (S (n - 1)) with n by lia.
    cbn [pg_items pg_nextCursor pg_total]. unfold shown. cbn -[Nat.ltb new_rows].
    split; [|split; [done|]; split; [done|]; split; [done|]; split; [|split; [done|]; split; [done|]]].
    + rewrite Hi, new_rows_fresh.
      * by rewrite take_take_drop.
      * rewrite take_take_drop. apply (sublist_NoDup (tx_id <$> take (n + PAGE_SIZE) l) (tx_id <$> l)); [done|].
        apply fmap_sublist, sublist_take.
    + unfold PAGE_SIZE. destruct (Nat.ltb_spec (n + 20) (length l)); [|done].
      rewrite last_take_drop by lia. destruct (l !! (n + 19)) eqn:E; [done|]. apply lookup_ge_None in E. lia.
    + unfold PAGE_SIZE. destruct (Nat.ltb_spec (n + 20) (length l)); [|done].
      rewrite last_take_drop by lia. f_equal. f_equal. lia.
  - unfold settle. rewrite Hp. cbn. split; [|done]. unfold shown.
    rewrite Hi, Hp, Hm, Hl, Hh, Ht, He, Hc, !take_ge by lia.
    rewrite !(proj2 (Nat.ltb_ge _ _)) by lia. done.
Qed.

Lemma scrolls_shown f l k :
  NoDup (tx_id <$> l) → Forall (λ t, tx_id t ≠ []) l →
  shown l ((k + 1) * PAGE_SIZE) (scrolls k l (opened f l)) ∧ fd_active (scrolls k l (opened f l)) = f ∧
  fd_filters (scrolls k l (opened f l)) = f.
Proof.
  intros Hn Hne. induction k as [|k (IH & A & B)].
  - rewrite Nat.add_0_l, Nat.mul_1_l. apply opened_shown.
  - change (scrolls (S k) l (opened f l)) with (scroll l (scrolls k l (opened f l))).
    destruct (scroll_shown l ((k + 1) * PAGE_SIZE) (scrolls k l (opened f l)) Hn Hne) as (S1 & A1 & B1).
    + unfold PAGE_SIZE. lia.
    + done.
    + replace ((S k + 1) * PAGE_SIZE) with ((k + 1) * PAGE_SIZE + PAGE_SIZE) by lia. split; [done|]. split; congruence.
Qed.

(** *** Properties *)

Section Properties.
Context `{UC : UnicodeCase, HD : HostDates}.

(** C14: scrolling shows the filtered history from the top, twenty rows more each time the
    end is reached, without a gap or a repetition, until every row is shown: then there is
    no more to load and reaching the end changes nothing. *)
Theorem scrolling_enumerates f all k :
  let l := visible f all in
  NoDup (tx_id <$> l) → Forall (λ t, tx_id t ≠ []) l →
  let s := scrolls k l (opened f l) in
  fd_items s = take ((k + 1) * PAGE_SIZE) l ∧ fd_total s = length l ∧
  fd_loading s = false ∧ fd_loadingMore s = false ∧ fd_error s = None ∧
  (fd_hasMore s = true ↔ (k + 1) * PAGE_SIZE < length l) ∧
  (length l ≤ (k + 1) * PAGE_SIZE → fd_items s = l ∧ loadMore s = s).
Proof.
  intros l Hn Hne s. destruct (scrolls_shown f l k Hn Hne) as ((Hi & Hp & Hm & Hl & Hh & Ht & He & Hc) & _ & _).
  fold s in Hi, Hp, Hm, Hl, Hh, Ht, He, Hc.
  split; [done|]. split; [done|]. split; [done|]. split; [done|]. split; [done|]. split.
  - rewrite Hh. apply Nat.ltb_lt.
  - intros Hge. split; [by rewrite Hi, take_ge|]. unfold loadMore.
    by rewrite Hm, Hh, (proj2 (Nat.ltb_ge _ _)).
Qed.

(** the list never holds an id twice, whatever the user does and in whatever order the
    answers come, provided no single page of the service does. *)
Theorem feed_ids_distinct evs :
  Forall (λ ev, match ev with EvSettle _ (Ok page) => NoDup (tx_id <$> pg_items page) | _ => True end) evs →
  NoDup (tx_id <$> fd_items (feed_run evs initial_feed)).
Proof.
  induction evs as [|ev evs IH] using rev_ind; [intros _; constructor|].
  intros [Hevs [Hev _]%Forall_cons]%Forall_app. specialize (IH Hevs). unfold feed_run in *. rewrite foldl_app. cbn [foldl].
  set (s := foldl feed_step initial_feed evs) in *. destruct ev as [| | |f|i r]; cbn [feed_step]; try done.
  - unfold loadMore. destruct (_ || _); [done|]. by destruct (fd_cursor s).
  - unfold settle. destruct (fd_pending s !! i) as [p|]; [|done].
    destruct r as [page|e]; [|done]. destruct (pn_kind p); [exact Hev|exact Hev|].
    cbn. rewrite fmap_app. apply NoDup_app. split; [done|]. split.
    + intros x Hx Hx'. apply list_elem_of_fmap in Hx' as (t & -> & [Ht _]%list_elem_of_filter). done.
    + by apply NoDup_fmap_filter.
Qed.

(** changing the filters while a further page of the old ones is under way goes wrong
    when that page comes last: its rows are appended under the new filters, and the cursor
    of the old list is the one that continues. When it comes first, the list shown is that
    of the new filters. *)
Theorem stale_page_appended f1 l1 k f2 l2 :
  NoDup (tx_id <$> l1) → Forall (λ t, tx_id t ≠ []) l1 → (k + 1) * PAGE_SIZE < length l1 →
  let c := fd_cursor (scrolls k l1 (opened f1 l1)) in
  let more := page_of l1 c in let first := page_of l2 None in
  let s := applyFilters f2 (loadMore (scrolls k l1 (opened f1 l1))) in
  let late := feed_run [EvSettle 1 (Ok first); EvSettle 0 (Ok more)] s in
  let early := feed_run [EvSettle 0 (Ok more); EvSettle 0 (Ok first)] s in
  fd_filters late = f2 ∧ fd_filters early = f2 ∧ fd_pending late = [] ∧ fd_pending early = [] ∧
  fd_items early = take PAGE_SIZE l2 ∧ fd_cursor early = pg_nextCursor first ∧
  fd_items late = take PAGE_SIZE l2 ++ new_rows (take PAGE_SIZE l2) (take PAGE_SIZE (drop ((k + 1) * PAGE_SIZE) l1)) ∧
  fd_cursor late = pg_nextCursor more.
Proof.
  intros Hn Hne Hk c more first s late early.
  destruct (scrolls_shown f1 l1 k Hn Hne) as ((Hi & Hp & Hm & Hl & Hh & Ht & He & Hc) & Ha & Hf).
  unfold late, early, s. rewrite (proj2 (Nat.ltb_lt _ _) Hk) in Hc, Hh. assert (Pos : 0 < (k + 1) * PAGE_SIZE) by (unfold PAGE_SIZE; lia).
  set (n := (k + 1) * PAGE_SIZE) in *. destruct (l1 !! (n - 1)) as [t|] eqn:Et; [|apply lookup_ge_None in Et; lia].
  assert (M : pg_items more = take PAGE_SIZE (drop n l1)).
  { unfold more, c. rewrite Hc. cbn [fmap option_fmap option_map]. rewrite (page_of_after l1 (n - 1) t Hn Hne Et). by replace (S (n - 1)) with n by lia. }
  assert (F : pg_items first = take PAGE_SIZE l2) by (unfold first, page_of; cbn [pg_items]; by rewrite drop_0).
  clearbody c more first. clear Hi Hl Ht He Ha Hf. revert Hp Hm Hh Hc. generalize (scrolls k l1 (opened f1 l1)).
  intros [items ld rf lm er fl tot cur hm act pend]. cbn [fd_pending fd_loadingMore fd_hasMore fd_cursor]. intros -> -> -> ->.
  cbn -[new_rows]. rewrite F, M. done.
Qed.

(** a reload that fails leaves the rows of the previous filters under the new ones, says
    why, and stops further loading: only another reload brings rows again. *)
Theorem failed_reload_keeps_rows f1 l1 k f2 e :
  NoDup (tx_id <$> l1) → Forall (λ t, tx_id t ≠ []) l1 →
  let before := scrolls k l1 (opened f1 l1) in
  let s := settle 0 (Throw e) (applyFilters f2 before) in
  fd_items s = fd_items before ∧ fd_filters s = f2 ∧ fd_error s = Some (err_message e) ∧
  fd_loading s = false ∧ loadMore s = s ∧
  (∀ l2, let again := settle 0 (Ok (page_of l2 None)) (reload None s) in
     fd_items again = take PAGE_SIZE l2 ∧ fd_error again = None ∧ fd_filters again = f2).
Proof.
  intros Hn Hne before s. destruct (scrolls_shown f1 l1 k Hn Hne) as ((_ & Hp & Hm & _) & _ & _). fold before in Hp, Hm.
  unfold s. clearbody before. clear s. destruct before as [items ld rf lm er fl tot cur hm act pend].
  cbn [fd_pending fd_loadingMore] in *. subst. cbn -[page_of].
  do 5 (split; [done|]). intros l2. split; [|done]. cbn. by rewrite drop_0.
Qed.
End Properties.
End Feed.

(** ** [useNetworkStatus] and [useOfflineDetection] *)

Module Connectivity.
Inductive toast := WarnOffline | BackOnline.

#[export] Instance toast_eq_dec : EqDecision toast.
Proof. solve_decision. Defined.

Record detector := Detector { dt_isConnected : option bool; dt_wasOffline : bool; dt_toasts : list toast }.

Definition initial_detector : detector := Detector None false [].

(** The body of the effect. *)
Definition detect (s : detector) : detector :=
  match s with
  | Detector (Some false) _ toasts => Detector (Some false) true (toasts ++ [WarnOffline])
  | Detector (Some true) true toasts => Detector (Some true) false (toasts ++ [BackOnline])
  | _ => s
  end.

(** The effect runs after a render in which one of its dependencies changed, its own
    changes included. *)
Fixpoint effects (fuel : nat) (before : option bool * bool) (s : detector) : detector :=
  match fuel, s with
  | 0, _ => s
  | S fuel, Detector c w _ => if bool_decide (before = (c, w)) then s else effects fuel (c, w) (detect s)
  end.

(** A status the listener or the first check reports. *)
Definition setNetworkStatus (isConnected : option bool) (s : detector) : detector :=
  effects 3 (dt_isConnected s, dt_wasOffline s) (Detector isConnected (dt_wasOffline s) (dt_toasts s)).

Definition isOffline (s : detector) : bool := bool_decide (dt_isConnected s = Some false).

Definition detector_run (statuses : list (option bool)) : detector :=
  foldl (λ s c, setNetworkStatus c s) initial_detector statuses.

(** The flag of a status, and what changing to it announces. *)
Definition flag (c : option bool) (was : bool) : bool := match c with Some b => negb b | None => was end.

Definition announced (before : option bool) (was : bool) (c : option bool) : list toast :=
  match c with
  | Some false => if bool_decide (before = Some false) then [] else if was then [WarnOffline] else [WarnOffline; WarnOffline]
  | Some true => if was then [BackOnline] else []
  | None => []
  end.

Lemma status_step c before was ts :
  setNetworkStatus c (Detector before (flag before was) ts) =
    Detector c (flag c (flag before was)) (ts ++ announced before (flag before was) c).
Proof. destruct c as [[]|], before as [[]|], was; vm_compute (flag _ _); cbn; rewrite ?app_nil_r, <-?app_assoc; reflexivity. Qed.

Lemma detector_inv statuses :
  ∃ was ts, detector_run statuses = Detector (default None (last statuses)) (flag (default None (last statuses)) was) ts.
Proof.
  induction statuses as [|c l (was & ts & E)] using rev_ind; [by exists false, []|]. unfold detector_run in *.
  rewrite foldl_app, E, last_snoc. cbn [foldl]. rewrite status_step. by eexists _, _.
Qed.

(** the offline flag is that of the latest status, and coming back is announced exactly
    once, also after an unknown status in between; but losing the connection is announced
    twice, because the effect runs again on the flag it sets. *)
Theorem offline_announced_twice statuses :
  let s := detector_run statuses in let toasts later := dt_toasts (detector_run (statuses ++ later)) in
  isOffline s = bool_decide (last statuses = Some (Some false)) ∧
  (last statuses = Some (Some true) →
     toasts [Some false] = dt_toasts s ++ [WarnOffline; WarnOffline] ∧
     toasts [Some false; Some true] = dt_toasts s ++ [WarnOffline; WarnOffline; BackOnline] ∧
     toasts [Some false; None; Some true; Some true] = dt_toasts s ++ [WarnOffline; WarnOffline; BackOnline]) ∧
  (∀ c, last statuses = Some c → toasts [c] = dt_toasts s).
Proof.
  intros s toasts. destruct (detector_inv statuses) as (was & ts & E).
  assert (T : ∀ later, toasts later = dt_toasts (foldl (λ s c, setNetworkStatus c s) s later)).
  { intros later. unfold toasts, detector_run. by rewrite foldl_app. }
  unfold s in *. clear s. rewrite !T, E. split; [|split].
  - unfold isOffline. cbn [dt_isConnected]. apply bool_decide_ext. destruct (last statuses) as [[[]|]|]; cbn; naive_solver.
  - intros ->. cbn [foldl default from_option id]. rewrite !status_step.
    cbn [flag announced dt_toasts negb]. rewrite bool_decide_false by done. rewrite ?app_nil_r, <-?app_assoc. done.
  - intros c Hl. rewrite T, E, Hl. cbn [foldl default from_option id]. rewrite status_step. cbn [dt_toasts].
    destruct c as [[]|]; cbn [announced flag negb]; rewrite ?bool_decide_true by done; by rewrite app_nil_r.
Qed.
End Connectivity.

(** ** [useDebounce] *)

Module Debounce.
Section Timeline.
Context {A : Type} (delay : Z).

Inductive deb_event := Call (a : A) | Cancel.

(** The timer, with the instant it runs at, and the calls of the callback so far. *)
Record deb := Deb { db_timeout : option (Z * A); db_called : list (Z * A) }.

Definition initial_deb : deb := Deb None [].

Definition run_due (now : Z) (s : deb) : deb :=
  match db_timeout s with
  | Some (t, a) => if (t <=? now)%Z then Deb None (db_called s ++ [(t, a)]) else s
  | None => s
  end.

Definition deb_event_at (now : Z) (ev : deb_event) (s : deb) : deb :=
  match ev with
  | Call a => Deb (Some ((now + delay)%Z, a)) (db_called s)
  | Cancel => Deb None (db_called s)
  end.

Definition deb_step (s : deb) (ev : Z * deb_event) : deb := deb_event_at ev.1 ev.2 (run_due ev.1 s).

Definition deb_at (evs : list (Z * deb_event)) (now : Z) : deb := run_due now (foldl deb_step initial_deb evs).

(** The calls that are left alone for the delay. *)
Fixpoint undisturbed (evs : list (Z * deb_event)) (now : Z) : list (Z * A) :=
  match evs with
  | [] => []
  | (t, ev) :: rest =>
      let until := match rest with (t', _) :: _ => t' | [] => now end in
      match ev with
      | Call a => if (t + delay <=? until)%Z then [(t + delay, a)]%Z else []
      | Cancel => []
      end ++ undisturbed rest now
  end.

Lemma deb_from evs now s :
  db_called (run_due now (foldl deb_step s evs)) =
  db_called (run_due (match evs with (t, _) :: _ => t | [] => now end) s) ++ undisturbed evs now.
Proof.
  revert s. induction evs as [|[t ev] evs IH]; intros s; cbn [foldl undisturbed]; [by rewrite app_nil_r|].
  rewrite IH, app_assoc. f_equal. unfold deb_step. cbn [fst snd]. set (s1 := run_due t s).
  destruct ev as [a|]; cbn [deb_event_at].
  - unfold run_due at 1. cbn [db_timeout db_called]. destruct (_ <=? _)%Z; [done|by rewrite app_nil_r].
  - unfold run_due at 1. cbn [db_timeout db_called]. by rewrite app_nil_r.
Qed.

(** of a burst of calls and cancellations the callback runs exactly for the calls that
    nothing follows within the delay, each once, in order, and at the end of its delay: the
    timer implements the description that looks only at the neighbouring instants. *)
Theorem debounce_reference evs now : db_called (deb_at evs now) = undisturbed evs now.
Proof. unfold deb_at. rewrite deb_from. by destruct evs as [|[t ev] evs]. Qed.
End Timeline.
End Debounce.

(** ** The theme preference *)

Module Theme.
Inductive ThemePreference := System | Light | Dark | HighContrast.

#[export] Instance ThemePreference_eq_dec : EqDecision ThemePreference.
Proof. solve_decision. Defined.

Inductive palette := LightColors | DarkColors | HighContrastColors.

Record resolved := Resolved { rt_theme : palette; rt_isDark : bool; rt_isHighContrast : bool }.

Definition STORAGE_KEY : str := js "zaps:theme_preference".

Definition preference_text (p : ThemePreference) : str :=
  match p with System => js "system" | Light => js "light" | Dark => js "dark" | HighContrast => js "high-contrast" end.

Definition resolveTheme (preference : ThemePreference) (systemIsDark : bool) : resolved :=
  match preference with
  | Light => Resolved LightColors false false
  | Dark => Resolved DarkColors true false
  | HighContrast => Resolved HighContrastColors true true
  | System => if systemIsDark then Resolved DarkColors true false else Resolved LightColors false false
  end.

(** [useTheme]: the context when there is one. *)
Definition useTheme (ctx : option ThemePreference) (systemIsDark : bool) : resolved :=
  match ctx with
  | Some p => resolveTheme p systemIsDark
  | None => Resolved (if systemIsDark then DarkColors else LightColors) systemIsDark false
  end.

Section Provider.
Context `{Host W}.

(** The callback of the stored preference. *)
Definition rehydrated (raw : option str) (s : ThemePreference) : ThemePreference :=
  match raw with
  | Some raw => default s (find (λ p, str_eqb raw (preference_text p)) [Light; Dark; HighContrast; System])
  | None => s
  end.

(** The effect of the first mount, its answer handled before anything else happens. *)
Definition rehydrate : M (ThemePreference * W) unit :=
  swallow (raw ← host (st_get AsyncStorage STORAGE_KEY); modify_state (rehydrated raw)).

Definition setPreference (next : ThemePreference) : M (ThemePreference * W) unit :=
  modify_state (λ _, next);; swallow (host (st_set AsyncStorage STORAGE_KEY (preference_text next))).
End Provider.

Lemma rehydrated_text p s : rehydrated (Some (preference_text p)) s = p.
Proof. by destruct p. Qed.

(** a preference takes effect at once, whether or not it can be saved; saved, it is the
    one the next start of the application uses, and nothing else in the stores changes. A
    stored text that is no preference is ignored. A choice made before the stored one has
    been read is undone by it on the screen, while the store keeps the choice. *)
Theorem preference_survives `{HostLaws W} p s (w : W) :
  ∃ w1, setPreference p (s, w) = (Ok tt, (p, w1)) ∧
  (st_live w → stored w w1 AsyncStorage STORAGE_KEY (Some (preference_text p)) ∧
     ∃ w2, rehydrate (System, w1) = (Ok tt, (p, w2)) ∧ kept w1 w2) ∧
  (∀ raw, (∀ q, raw ≠ preference_text q) → rehydrated (Some raw) s = s) ∧
  (∀ old, rehydrated (Some (preference_text old)) p = old).
Proof.
  destruct (set_spec AsyncStorage STORAGE_KEY (preference_text p) w) as (r & w1 & E & C). exists w1.
  split; [|split; [|split]].
  - unfold setPreference. rewrite (run_bind_ok _ _ _ _ _ (run_modify_state _ _ _)). unfold swallow, try_catch.
    rewrite (run_host _ _ _ _ _ E). by destruct r as [[]|e].
  - intros L. destruct C as [[-> St]|(_ & _ & N)]; [|done]. split; [done|].
    destruct (get_live AsyncStorage STORAGE_KEY w1) as (w2 & E2 & K2); [by apply (stored_live _ _ _ _ _ St)|].
    exists w2. split; [|done]. unfold rehydrate, swallow, try_catch.
    rewrite (run_bind_ok _ _ _ _ _ (run_host _ _ _ _ _ E2)), (stored_eq _ _ _ _ _ St). cbn [fst snd].
    unfold modify_state. cbn [fst snd]. by rewrite rehydrated_text.
  - intros raw Hr. unfold rehydrated.
    assert (N : ∀ q, str_eqb raw (preference_text q) = false) by (intros q; by apply bool_decide_eq_false).
    cbn [find]. by rewrite (N Light), (N Dark), (N HighContrast), (N System).
  - intros old. apply rehydrated_text.
Qed.
End Theme.

Module Runs.
Definition row (n : nat) : Transaction :=
  MkTransaction (js "t" ++ Z_to_str (Z.of_nat n)) TSent Completed (js "1") (js "XLM") (js "1") (js "USD") (js "G") None
    (js "2026-01-01T00:00:00.000Z") None None None None None None None None None.
Definition history : list Transaction := row <$> seq 0 45.
Definition yields : TransactionFilters := MkFilters (Some TYield) None None None [] None None None None.
#[local] Existing Instance ascii_case.
#[local] Existing Instance iso_only.

Lemma visible_history : visible Feed.DEFAULT_FILTERS history = history.
Proof. by vm_compute. Qed.
Lemma history_ids : NoDup (tx_id <$> history).
Proof. apply (bool_decide_unpack _). vm_compute. exact I. Qed.
Lemma history_named : Forall (λ t, tx_id t ≠ []) history.
Proof. apply (bool_decide_unpack _). vm_compute. exact I. Qed.

Lemma scrolling_enumerates_witness :
  Feed.fd_items (Feed.scrolls 2 history (Feed.opened Feed.DEFAULT_FILTERS history)) = history.
Proof.
  destruct (Feed.scrolling_enumerates Feed.DEFAULT_FILTERS history 2) as (_ & _ & _ & _ & _ & _ & E);
    rewrite visible_history in *; [exact history_ids|exact history_named|].
  apply E. apply Nat.leb_le. by vm_compute.
Defined.

Lemma feed_ids_distinct_witness :
  NoDup (tx_id <$> Feed.fd_items (Feed.feed_run
    [Feed.EvReload; Feed.EvSettle 0 (Ok (page_of history None)); Feed.EvMore; Feed.EvSettle 0 (Ok (page_of history None))]
    Feed.initial_feed)).
Proof.
  apply Feed.feed_ids_distinct.
  assert (N : NoDup (tx_id <$> pg_items (page_of history None))) by (apply (bool_decide_unpack _); vm_compute; exact I).
  repeat (constructor; [exact I || exact N|]). constructor.
Defined.

Lemma stale_page_appended_witness :
  Feed.fd_items (Feed.feed_run
    [Feed.EvSettle 1 (Ok (page_of [] None)); Feed.EvSettle 0 (Ok (page_of history (Some (js "t19"))))]
    (Feed.applyFilters yields (Feed.loadMore (Feed.scrolls 0 history (Feed.opened Feed.DEFAULT_FILTERS history))))) = row <$> seq 20 20.
Proof.
  destruct (Feed.stale_page_appended Feed.DEFAULT_FILTERS history 0 yields []) as (_ & _ & _ & _ & _ & _ & E & _);
    [exact history_ids|exact history_named|apply Nat.ltb_lt; by vm_compute|].
  replace (Some (js "t19")) with (Feed.fd_cursor (Feed.scrolls 0 history (Feed.opened Feed.DEFAULT_FILTERS history))) by (by vm_compute).
  rewrite E. by vm_compute.
Defined.

Lemma failed_reload_keeps_rows_witness :
  length (Feed.fd_items (Feed.settle 0 (Throw (new_error (js "offline")))
    (Feed.applyFilters yields (Feed.scrolls 0 history (Feed.opened Feed.DEFAULT_FILTERS history))))) = 20.
Proof.
  destruct (Feed.failed_reload_keeps_rows Feed.DEFAULT_FILTERS history 0 yields (new_error (js "offline"))) as (E & _);
    [exact history_ids|exact history_named|].
  rewrite E. by vm_compute.
Defined.
End Runs.
