(* ===== verification/MobileApi.v ===== *)
(** * Mobile API client

    Model of [mobileapp/src/services/api.ts]: the session kept in the secure store,
    [apiFetch] with its bearer header and its reaction to a 401, recent recipients,
    the yield endpoints, username resolution with its error codes, sending with the
    offline queue as fallback, and recovery through Privy. *)

From S2P Require Import Prelude JsString JsNumber UriCodec JsDate Json Effects Decode Scripts OfflineQueue TransactionService.

(** [process.env.EXPO_PUBLIC_API_URL] *)
Class ApiEnv := EXPO_PUBLIC_API_URL : option str.

Definition API_BASE `{ApiEnv} : str := default (js "https://api.zaps.app") EXPO_PUBLIC_API_URL.

Definition SESSION_TOKEN_KEY : str := js "privy_session_token".
Definition SESSION_USER_STATE_KEY : str := js "privy_user_state".

(** [_onSessionExpired]: whether a callback is registered, and how often it was called. *)
Record api_state := ApiState { expired_handler : bool; expired_calls : nat }.

(** [RequestInit] as the module uses it. *)
Record request_init := RequestInit {
  init_method : option str;
  init_headers : list (str * str);
  init_body : option str;
}.
Definition no_init : request_init := RequestInit None [] None.

Section Session.
Context `{Host W}.

Definition setSessionToken (token : str) (userState : option json) : M W unit :=
  st_set SecureStore SESSION_TOKEN_KEY token;;
  match userState with
  | Some u => st_set SecureStore SESSION_USER_STATE_KEY (stringify u)
  | None => mret tt
  end.

Definition getSessionToken : M W (option str) :=
  try_catch (st_get SecureStore SESSION_TOKEN_KEY) (λ _, mret None).

Definition getSessionUserState : M W (option json) :=
  try_catch
    (raw ← st_get SecureStore SESSION_USER_STATE_KEY;
     match raw with
     | Some raw => if truthy raw then v ← JSON_parse raw; mret (Some v) else mret None
     | None => mret None
     end)
    (λ _, mret None).

Definition clearSessionToken : M W unit :=
  swallow (st_del SecureStore SESSION_TOKEN_KEY);;
  swallow (st_del SecureStore SESSION_USER_STATE_KEY).

Definition registerSessionExpiredHandler : M (api_state * W) unit :=
  modify_state (λ s, ApiState true (expired_calls s)).

(** The request [apiFetch] makes. *)
Definition api_request (token : option str) (input : str) (init : request_init) : request :=
  Request input (default (js "GET") (init_method init))
    (spread_headers [content_type_json] (init_headers init ++ auth_header token))
    (init_body init).

Definition apiFetch (input : str) (init : request_init) : M (api_state * W) response :=
  token ← host getSessionToken;
  response ← host (fetch (api_request token input init));
  (if (rs_status response =? 401)%Z then
     host clearSessionToken;;
     modify_state (λ s, ApiState (expired_handler s)
       (if expired_handler s then S (expired_calls s) else expired_calls s))
   else mret tt);;
  mret response.

(** *** Recent recipients *)

Definition RECENT_RECIPIENTS_KEY : str := js "recent_recipient_usernames".
Definition MAX_RECENT_RECIPIENTS : nat := 20.

Definition getRecentRecipients : M W (list str) :=
  parsed ← try_catch
    (raw ← st_get AsyncStorage RECENT_RECIPIENTS_KEY;
     match raw with
     | Some raw => if truthy raw then JSON_parse raw else mret (JArr [])
     | None => mret (JArr [])
     end)
    (λ _, mret (JArr []));
  cast parsed.

(** [item === username] *)
Definition is_str (username : str) (item : json) : bool :=
  match item with JStr s => str_eqb s username | _ => false end.

Definition push_recent (username : str) (current : list json) : list json :=
  take MAX_RECENT_RECIPIENTS
    (JStr username :: List.filter (λ item, negb (is_str username item)) current).

(** [current.filter] on a value that is not an array throws. *)
Definition write_recents (username : str) (current : json) : M W unit :=
  match current with
  | JArr items =>
      st_set AsyncStorage RECENT_RECIPIENTS_KEY (stringify (JArr (push_recent username items)))
  | _ => throw type_error
  end.

Definition saveRecentRecipient (username : str) : M W unit :=
  if negb (truthy username) then mret tt
  else try_catch
    (raw ← st_get AsyncStorage RECENT_RECIPIENTS_KEY;
     current ← match raw with
               | Some raw => if truthy raw then JSON_parse raw else mret (JArr [])
               | None => mret (JArr [])
               end;
     write_recents username current)
    (λ _, mret tt).
End Session.

Section Endpoints.
Context `{ApiEnv, Host W}.
Abbreviation api := (M (api_state * W)).

(** [response.json()] *)
Definition response_json {V} (r : response) : M V json := JSON_parse (rs_body r).

(** *** Yield *)

Definition fetchYieldBalance : api json :=
  res ← apiFetch (API_BASE ++ js "/api/yield/balance") no_init;
  if rs_ok res then response_json res
  else throw (new_error (js "HTTP " ++ Z_to_str (rs_status res))).

Definition updateAutoEarn (enabled : bool) : api unit :=
  try_catch
    (apiFetch (API_BASE ++ js "/api/yield/auto-earn")
       (RequestInit (Some (js "PATCH")) []
          (Some (stringify (JObj [(js "enabled", JBool enabled)]))));;
     mret tt)
    (λ _, mret tt).

(** *** Username resolution *)

Record ReceiverDetails := MkReceiver { rd_username : str; rd_address : str }.

Definition lookup_error (message code : str) : js_error := JsError message (Some code) None.

(** The rejection of a response that is not [ok]. *)
Definition status_error (response : response) (errorData : json) : M (api_state * W) ReceiverDetails :=
  error ← read_prop (js "error") errorData;
  let message :=
    if json_truthy error then json_to_string (default JNull error)
    else js "HTTP " ++ Z_to_str (rs_status response) ++ js ": " ++ rs_statusText response in
  throw (JsError message
    (Some (if (rs_status response =? 404)%Z then js "NOT_FOUND"
           else if (rs_status response =? 400)%Z then js "INVALID_USERNAME"
           else js "NETWORK_ERROR"))
    (Some (rs_status response))).

Definition receiver_of (data : json) : api ReceiverDetails :=
  let invalid := lookup_error (js "Invalid response format from server") (js "UNKNOWN_ERROR") in
  match data with
  | JObj _ | JArr _ =>
      if json_truthy (json_get (js "username") data) && json_truthy (json_get (js "address") data) then
        username ← as_string (json_get (js "username") data);
        address ← as_string (json_get (js "address") data);
        mret (MkReceiver username address)
      else throw invalid
  | _ => throw invalid
  end.

Context `{UC : UnicodeCase}.

Definition resolve_lookup (trimmedUsername : str) : api ReceiverDetails :=
  encoded ← encode_uri trimmedUsername;
  response ← apiFetch (API_BASE ++ js "/api/users/resolve/" ++ encoded) no_init;
  if negb (rs_ok response) then
    errorData ← try_catch (response_json response) (λ _, mret (JObj []));
    status_error response errorData
  else
    data ← response_json response;
    receiverDetails ← receiver_of data;
    host (swallow (saveRecentRecipient (rd_username receiverDetails)));;
    mret receiverDetails.

(** The [catch] of [resolveUsername]: an error with a code passes. *)
Definition lookup_failed (err : js_error) : api ReceiverDetails :=
  match err_code err with
  | Some _ => throw err
  | None => throw (lookup_error (err_message err) (js "NETWORK_ERROR"))
  end.

Definition resolveUsername (username : str) : api ReceiverDetails :=
  if negb (truthy username) then
    throw (lookup_error (js "Username is required and must be a string") (js "INVALID_USERNAME"))
  else
    let trimmedUsername := to_lower (trim username) in
    if negb (truthy trimmedUsername) then
      throw (lookup_error (js "Username cannot be empty") (js "INVALID_USERNAME"))
    else try_catch (resolve_lookup trimmedUsername) lookup_failed.

Definition safeResolveUsername (username : str) : api (option ReceiverDetails) :=
  try_catch (r ← resolveUsername username; mret (Some r)) (λ _, mret None).

(** The lookups of [Promise.allSettled], run one after the other. *)
Definition batchResolveUsernames (usernames : list str) : api (gmap str ReceiverDetails) :=
  for_each (λ results username,
      result ← try_catch (r ← resolveUsername username; mret (Some r)) (λ _, mret None);
      mret (match result with
            | Some r => <[to_lower (trim username) := r]> results
            | None => results
            end))
    ∅ usernames.

Record ResolvedUser := MkResolvedUser {
  ru_username : str; ru_address : str; ru_avatar_url : option str; ru_isVerified : bool }.

Definition resolveUsernameAsZapsUser (username : str) : api ResolvedUser :=
  receiverDetails ← resolveUsername username;
  mret (MkResolvedUser (rd_username receiverDetails) (rd_address receiverDetails) None false).

(** *** Recovery through Privy *)

Record PrivyRecoveryResult := MkPrivyRecovery {
  pr_privy_did : str; pr_username : str; pr_address : str; pr_display_name : option str }.

(** [v?.k] *)
Definition opt_prop (k : str) (v : json) : option json := json_get k v.

Definition recoverWalletViaPrivy (privyToken : str) : api PrivyRecoveryResult :=
  if negb (truthy privyToken) then
    throw (new_error (js "Privy token is required for social recovery."))
  else
    res ← apiFetch (API_BASE ++ js "/api/auth/privy")
      (RequestInit (Some (js "POST")) []
         (Some (stringify (JObj [(js "privy_token", JStr privyToken); (js "privy_did", JStr [])]))));
    if negb (rs_ok res) then throw (new_error (js "Privy verification failed: " ++ rs_body res))
    else
      data ← response_json res;
      let did := opt_prop (js "privy_did") data in
      if negb (json_truthy did) then
        throw (new_error (js "Privy identity could not be resolved."))
      else
        encoded ← encode_uri (json_to_string (default JNull did));
        didRes ← apiFetch (API_BASE ++ js "/api/users/did/" ++ encoded) no_init;
        if (rs_status didRes =? 404)%Z then
          throw (new_error (js "No Zaps wallet is linked to this social identity. Please create an account first."))
        else if negb (rs_ok didRes) then
          throw (new_error (js "User lookup failed: " ++ rs_body didRes))
        else
          user ← response_json didRes;
          if negb (json_truthy (opt_prop (js "address") user)) then
            throw (new_error (js "Linked account has no wallet address."))
          else
            privy_did ← as_string (json_get (js "privy_did") user);
            username ← as_string (json_get (js "username") user);
            address ← as_string (json_get (js "address") user);
            display_name ← match json_get (js "display_name") user with
                           | None => mret None
                           | o => s ← as_string o; mret (Some s)
                           end;
            mret (MkPrivyRecovery privy_did username address display_name).
End Endpoints.

(** *** Yield history, through the transaction service *)

Record YieldTransactionQuery := MkYieldQuery {
  yq_asset : option str; yq_dateFrom : option str; yq_dateTo : option str }.

Definition getYieldTransactions `{UnicodeCase, HostDates, Host W} (query : YieldTransactionQuery)
    : M (tx_state * W) (list Transaction) :=
  page ← fetchTransactions
    (MkFilters (Some TYield) None (yq_dateFrom query) (yq_dateTo query) [] None None (Some true)
       (yq_asset query)) None;
  mret (pg_items page).

(** *** Sending with the offline queue as fallback *)

Record TransactionPayload := MkPayload {
  tp_endpoint : str; tp_method : option str; tp_body : list (str * json) }.

Record OfflineSendResult := MkSendResult {
  os_sent : bool; os_response : option response; os_queued : option bool }.

Section OfflineSend.
Context `{Host W, Radix36}.

Definition enqueue_payload (payload : TransactionPayload) : M W OfflineSendResult :=
  authToken ← getSessionToken;
  enqueueTransaction (MkEnqueue (tp_endpoint payload)
    (Some (default (js "POST") (tp_method payload))) (tp_body payload) authToken);;
  mret (MkSendResult false None (Some true)).

Definition sendTransactionWithOfflineSupport (payload : TransactionPayload)
    : M (api_state * W) OfflineSendResult :=
  isConnected ← host net_connected;
  if negb (bool_decide (isConnected = Some true)) then host (enqueue_payload payload)
  else
    try_catch
      (response ← apiFetch (tp_endpoint payload)
         (RequestInit (Some (default (js "POST") (tp_method payload))) []
            (Some (stringify (JObj (tp_body payload)))));
       mret (MkSendResult true (Some response) None))
      (λ _, host (enqueue_payload payload)).
End OfflineSend.

(** ** Properties *)

Section Properties.
Context `{HostLaws W}.
Implicit Types (w : W) (s : api_state).

Definition token_of w : option str := st_peek w SecureStore SESSION_TOKEN_KEY.

Lemma getSessionToken_run w : st_live w → ∃ w', getSessionToken w = (Ok (token_of w), w') ∧ kept w w'.
Proof.
  intros L. destruct (get_live SecureStore SESSION_TOKEN_KEY w L) as (w' & E & K).
  exists w'. split; [by apply run_try_ok|done].
Qed.

Lemma swallow_del_run st k w : st_live w → ∃ w', swallow (st_del st k) w = (Ok tt, w') ∧ stored w w' st k None.
Proof.
  intros L. destruct (del_live st k w L) as (w' & E & S). exists w'. split; [by apply run_try_ok|done].
Qed.

(** Both session entries are gone, everything else is as before. *)
Record session_cleared w w' : Prop := SessionCleared {
  sc_token : token_of w' = None;
  sc_user : st_peek w' SecureStore SESSION_USER_STATE_KEY = None;
  sc_other : ∀ st k, (st, k) ≠ (SecureStore, SESSION_TOKEN_KEY) →
    (st, k) ≠ (SecureStore, SESSION_USER_STATE_KEY) → st_peek w' st k = st_peek w st k;
  sc_kept_trace : net_trace w' = net_trace w;
  sc_live : st_live w';
}.

Lemma clearSessionToken_run w : st_live w → ∃ w',
  clearSessionToken w = (Ok tt, w') ∧ session_cleared w w'.
Proof.
  intros L. destruct (swallow_del_run SecureStore SESSION_TOKEN_KEY w L) as (w1 & E1 & S1).
  assert (L1 : st_live w1) by by apply S1.
  destruct (swallow_del_run SecureStore SESSION_USER_STATE_KEY w1 L1) as (w2 & E2 & S2).
  exists w2. unfold clearSessionToken. rewrite (run_bind_ok _ _ _ _ _ E1), E2. split; [done|]. split.
  - unfold token_of. rewrite (stored_ne _ _ _ _ _ S2); [apply S1|vm_compute; congruence].
  - apply S2.
  - intros st k H1 H2. by rewrite (stored_ne _ _ _ _ _ S2), (stored_ne _ _ _ _ _ S1).
  - by rewrite (stored_trace _ _ _ _ _ S2), (stored_trace _ _ _ _ _ S1).
  - by apply S2.
Qed.

(** What a settled request does to the module state and the stores. *)
Definition fetch_settled s w (r : res response) s' w' : Prop :=
  match r with
  | Ok response =>
      if (rs_status response =? 401)%Z then
        ∃ w1, (∀ st k, st_peek w1 st k = st_peek w st k) ∧ session_cleared w1 w' ∧
          s' = ApiState (expired_handler s)
                 (if expired_handler s then S (expired_calls s) else expired_calls s)
      else s' = s ∧ ∀ st k, st_peek w' st k = st_peek w st k
  | Throw _ => s' = s ∧ ∀ st k, st_peek w' st k = st_peek w st k
  end.

Lemma apiFetch_run input init s w : st_live w → ∃ r s' w',
  apiFetch input init (s, w) = (r, (s', w')) ∧ fetch_settled s w r s' w' ∧
  net_trace w' = net_trace w ++ [(api_request (token_of w) input init, r)] ∧ st_live w'.
Proof.
  intros L. unfold apiFetch. destruct (getSessionToken_run w L) as (w1 & E1 & K1).
  rewrite (run_bind_ok _ _ _ _ _ (run_host _ s _ _ _ E1)).
  destruct (fetch_spec (api_request (token_of w) input init) w1) as (r & w2 & E2 & S2).
  assert (P2 : ∀ st k, st_peek w2 st k = st_peek w st k).
  { intros st k. by rewrite (sent_peek _ _ _ _ S2), (kept_peek _ _ K1). }
  assert (T2 : net_trace w2 = net_trace w ++ [(api_request (token_of w) input init, r)]).
  { by rewrite (sent_trace _ _ _ _ S2), (kept_trace _ _ K1). }
  assert (L2 : st_live w2) by by apply (sent_live _ _ _ _ S2), (kept_live _ _ K1).
  destruct r as [response|e].
  2:{ rewrite (run_bind_throw _ _ _ _ _ (run_host _ s _ _ _ E2)). by exists (Throw e), s, w2. }
  rewrite (run_bind_ok _ _ _ _ _ (run_host _ s _ _ _ E2)). exists (Ok response). cbn [fetch_settled].
  destruct (rs_status response =? 401)%Z.
  - destruct (clearSessionToken_run w2 L2) as (w3 & E3 & C3).
    eexists _, w3. split.
    + rewrite run_bind, (run_bind_ok _ _ _ _ _ (run_host _ s _ _ _ E3)). reflexivity.
    + split; [by exists w2|]. split; [by rewrite (sc_kept_trace _ _ C3)|apply C3].
  - by exists s, w2.
Qed.

(** apiFetch sends exactly one request, carrying the stored session token as its
    bearer token whatever headers the caller passes; a 401 answer removes both session
    entries and calls the registered expiry handler exactly once, and any other outcome
    leaves the stores and the handler alone. *)
Theorem api_fetch_session input init s w : st_live w → ∃ r s' w',
  apiFetch input init (s, w) = (r, (s', w')) ∧ fetch_settled s w r s' w' ∧
  net_trace w' = net_trace w ++ [(api_request (token_of w) input init, r)] ∧
  (∀ t, token_of w = Some t → t ≠ [] →
     header (js "Authorization") (rq_headers (api_request (token_of w) input init))
       = Some (js "Bearer " ++ t)).
Proof.
  intros L. destruct (apiFetch_run input init s w L) as (r & s' & w' & E & F & T & _).
  exists r, s', w'. split; [done|]. split; [done|]. split; [done|]. intros t -> Ht.
  apply header_bearer. by apply truthy_true.
Qed.
(** a session that was set is read back, and clearing it leaves no token and no user
    state behind. *)
Theorem session_round_trip token userState w :
  st_live w → json_ok userState → userState ≠ JStr [] →
  ∃ w1 w2 w3, setSessionToken token (Some userState) w = (Ok tt, w1) ∧
    getSessionToken w1 = (Ok (Some token), w2) ∧
    (∃ w2', getSessionUserState w2 = (Ok (Some userState), w2')) ∧
    clearSessionToken w2 = (Ok tt, w3) ∧
    token_of w3 = None ∧ st_peek w3 SecureStore SESSION_USER_STATE_KEY = None.
Proof.
  intros L Hok Hne. unfold setSessionToken.
  destruct (set_live SecureStore SESSION_TOKEN_KEY token w L) as (wa & Ea & Sa).
  assert (La : st_live wa) by by apply Sa.
  destruct (set_live SecureStore SESSION_USER_STATE_KEY (stringify userState) wa La) as (w1 & E1 & S1).
  assert (L1 : st_live w1) by by apply S1.
  destruct (getSessionToken_run w1 L1) as (w2 & E2 & K2).
  assert (L2 : st_live w2) by by apply (kept_live _ _ K2).
  destruct (clearSessionToken_run w2 L2) as (w3 & E3 & C3).
  exists w1, w2, w3. split; [by rewrite (run_bind_ok _ _ _ _ _ Ea)|]. split; [|split].
  - rewrite E2. unfold token_of. do 2 f_equal.
    rewrite (stored_ne _ _ _ _ _ S1); [apply Sa|vm_compute; congruence].
  - destruct (get_live SecureStore SESSION_USER_STATE_KEY w2 L2) as (w2' & E4 & _). exists w2'.
    rewrite (kept_peek _ _ K2), (stored_eq _ _ _ _ _ S1) in E4.
    unfold getSessionUserState, try_catch. rewrite (run_bind_ok _ _ _ _ _ E4).
    assert (truthy (stringify userState) = true) as ->.
    { pose proof (parse_stringify userState Hok) as P. by destruct (stringify userState). }
    unfold JSON_parse. by rewrite parse_stringify.
  - split; [done|]. split; apply C3.
Qed.

(** *** Recent recipients *)

(** saving a recipient puts it first, keeps the others in order without a second copy
    of it, introduces no duplicate and never stores more than twenty. *)
Theorem push_recent_spec username recents :
  NoDup recents →
  ∃ rest, push_recent username (JStr <$> recents) = JStr <$> (username :: rest) ∧
    rest = take 19 (filter (.≠ username) recents) ∧
    NoDup (username :: rest) ∧ length (username :: rest) ≤ MAX_RECENT_RECIPIENTS.
Proof.
  intros Hnd. exists (take 19 (filter (.≠ username) recents)).
  assert (F : List.filter (λ item, negb (is_str username item)) (JStr <$> recents)
            = JStr <$> filter (.≠ username) recents).
  { clear Hnd. induction recents as [|r rs IH]; [done|].
    rewrite fmap_cons. cbn [List.filter is_str]. rewrite IH.
    destruct (decide (r = username)) as [->|Hne].
    - by rewrite str_eqb_refl, filter_cons_False by congruence.
    - by rewrite (proj2 (str_eqb_false r username) Hne), filter_cons_True by done. }
  split; [|split; [done|split]].
  - unfold push_recent, MAX_RECENT_RECIPIENTS. cbn [take]. by rewrite F, fmap_cons, fmap_take.
  - constructor.
    + intros Hin. apply elem_of_take in Hin as (i & Hi & _). apply list_elem_of_lookup_2 in Hi.
      by apply list_elem_of_filter in Hi as [? _].
    + apply (sublist_NoDup _ (filter (.≠ username) recents)); [by apply NoDup_filter|apply sublist_take].
  - cbn [length]. rewrite length_take. unfold MAX_RECENT_RECIPIENTS. lia.
Qed.
End Properties.

Section Resolution.
Context `{ApiEnv, HostLaws W, UC : UnicodeCase}.
Implicit Types (w : W) (s : api_state).

Lemma lookup_failed_coded err (sw : api_state * W) e sw' : lookup_failed err sw = (Throw e, sw') → is_Some (err_code e).
Proof. unfold lookup_failed. destruct (err_code err) eqn:E; intros [= <- <-]; cbn; eauto. Qed.

Lemma resolveUsername_coded username (sw : api_state * W) e sw' :
  resolveUsername username sw = (Throw e, sw') → is_Some (err_code e).
Proof.
  unfold resolveUsername. destruct (truthy username); cbn [negb].
  2:{ intros [= <- <-]. cbn. eauto. }
  destruct (truthy (to_lower (trim username))); cbn [negb].
  2:{ intros [= <- <-]. cbn. eauto. }
  unfold try_catch. destruct (resolve_lookup _ sw) as [[d|err] sw1]; [done|].
  apply lookup_failed_coded.
Qed.

(** whatever the network, the stores or the server answer, a rejection of
    resolveUsername always carries an error code, and safeResolveUsername never rejects. *)
Theorem resolve_errors_coded username (sw : api_state * W) :
  (∀ e sw', resolveUsername username sw = (Throw e, sw') → is_Some (err_code e)) ∧
  ∃ o sw', safeResolveUsername username sw = (Ok o, sw').
Proof.
  split; [intros e sw'; apply resolveUsername_coded|]. unfold safeResolveUsername, try_catch.
  rewrite run_bind. destruct (resolveUsername username sw) as [[d|e] sw']; by eexists _, _.
Qed.

(** The code of an answer that is not [ok]. *)
Definition code_of_status (status : Z) : str :=
  if (status =? 404)%Z then js "NOT_FOUND"
  else if (status =? 400)%Z then js "INVALID_USERNAME" else js "NETWORK_ERROR".

Definition lookup_request (token : option str) (encoded : str) : request :=
  api_request token (API_BASE ++ js "/api/users/resolve/" ++ encoded) no_init.

(** How the lookup settles, given how the one request settled. *)
Definition lookup_outcome (r : res response) (out : res ReceiverDetails) : Prop :=
  match r with
  | Throw err => ∃ e, out = Throw e ∧
      err_code e = Some (default (js "NETWORK_ERROR") (err_code err))
  | Ok response =>
      if negb (rs_ok response) then
        ∃ e, out = Throw e ∧ (json_parse (rs_body response) ≠ Some JNull →
          err_code e = Some (code_of_status (rs_status response)) ∧
          err_status e = Some (rs_status response))
      else ∀ username address fs,
        json_parse (rs_body response) = Some (JObj fs) →
        obj_get (js "username") fs = Some (JStr username) →
        obj_get (js "address") fs = Some (JStr address) →
        out = if truthy username && truthy address then Ok (MkReceiver username address)
              else Throw (lookup_error (js "Invalid response format from server") (js "UNKNOWN_ERROR"))
  end.

Lemma write_recents_trace u current w : net_trace (write_recents u current w).2 = net_trace w.
Proof.
  unfold write_recents. destruct current as [| | | |l|]; try done.
  destruct (set_spec AsyncStorage RECENT_RECIPIENTS_KEY (stringify (JArr (push_recent u l))) w)
    as (r & w2 & E2 & [[_ S2]|(_ & K2 & _)]); rewrite E2; cbn.
  - apply (stored_trace _ _ _ _ _ S2).
  - apply (kept_trace _ _ K2).
Qed.

Lemma try_catch_trace {A} (m : M W A) (a : A) w :
  net_trace (try_catch m (λ _, mret a) w).2 = net_trace (m w).2.
Proof. unfold try_catch. by destruct (m w) as [[] ?]. Qed.

Lemma saveRecent_run (u : str) w : st_live w → ∃ w',
  swallow (saveRecentRecipient u) w = (Ok tt, w') ∧ net_trace w' = net_trace w.
Proof.
  intros L. destruct (swallow_ok (saveRecentRecipient u) w) as (w' & E & Ew). exists w'.
  split; [done|]. subst w'. unfold saveRecentRecipient. destruct (truthy u); [|done]. cbn [negb].
  rewrite try_catch_trace. destruct (get_live AsyncStorage RECENT_RECIPIENTS_KEY w L) as (w1 & E1 & K1).
  rewrite (run_bind_ok _ _ _ _ _ E1), <-(kept_trace _ _ K1). unfold JSON_parse.
  destruct (st_peek w AsyncStorage RECENT_RECIPIENTS_KEY) as [raw|]; [|apply write_recents_trace].
  destruct (truthy raw); [|apply write_recents_trace].
  destruct (json_parse raw) as [current|]; [apply write_recents_trace|done].
Qed.

Lemma status_error_run response data (sw : api_state * W) : ∃ e,
  status_error response data sw = (Throw e, sw) ∧
  (data ≠ JNull → err_code e = Some (code_of_status (rs_status response)) ∧
                  err_status e = Some (rs_status response)).
Proof.
  unfold status_error, read_prop. destruct data; (eexists; split; [reflexivity|]; done).
Qed.

Lemma receiver_pure data (sw : api_state * W) : ∃ out, receiver_of data sw = (out, sw).
Proof.
  unfold receiver_of, as_string.
  destruct data; try (by eexists); (destruct (_ && _); [|by eexists]).
  cbn [json_get]. rewrite run_bind. destruct (obj_get (js "username") fs) as [[]|]; try (by eexists).
  cbn [mret M_ret]. rewrite run_bind. destruct (obj_get (js "address") fs) as [[]|]; by eexists.
Qed.

Lemma receiver_of_obj fs username address (sw : api_state * W) :
  obj_get (js "username") fs = Some (JStr username) →
  obj_get (js "address") fs = Some (JStr address) →
  receiver_of (JObj fs) sw =
    (if truthy username && truthy address then Ok (MkReceiver username address)
     else Throw (lookup_error (js "Invalid response format from server") (js "UNKNOWN_ERROR")), sw).
Proof.
  intros Hu Ha. unfold receiver_of. cbn [json_get]. rewrite Hu, Ha. cbn [json_truthy].
  destruct (truthy username && truthy address); reflexivity.
Qed.

Lemma refused_lookup response (sw : api_state * W) : ∃ e,
  (errorData ← try_catch (response_json response) (λ _, mret (JObj []));
   status_error response errorData) sw = (Throw e, sw) ∧
  (json_parse (rs_body response) ≠ Some JNull →
     err_code e = Some (code_of_status (rs_status response)) ∧
     err_status e = Some (rs_status response)).
Proof.
  unfold response_json, JSON_parse, try_catch. rewrite run_bind.
  destruct (json_parse (rs_body response)) as [data|]; cbn [mret M_ret throw].
  - destruct (status_error_run response data sw) as (e & E & He). exists e.
    split; [done|]. intros Hn. apply He. congruence.
  - destruct (status_error_run response (JObj []) sw) as (e & E & He). exists e.
    split; [done|]. intros _. by apply He.
Qed.

Lemma accepted_lookup response s w : st_live w → ∃ out w',
  (data ← response_json response;
   receiverDetails ← receiver_of data;
   host (swallow (saveRecentRecipient (rd_username receiverDetails)));;
   mret receiverDetails) (s, w) = (out, (s, w')) ∧ net_trace w' = net_trace w ∧
  ∀ username address fs,
    json_parse (rs_body response) = Some (JObj fs) →
    obj_get (js "username") fs = Some (JStr username) →
    obj_get (js "address") fs = Some (JStr address) →
    out = if truthy username && truthy address then Ok (MkReceiver username address)
          else Throw (lookup_error (js "Invalid response format from server") (js "UNKNOWN_ERROR")).
Proof.
  intros L. unfold response_json, JSON_parse. rewrite run_bind.
  destruct (json_parse (rs_body response)) as [data|]; cbn [mret M_ret throw].
  2:{ by exists (Throw syntax_error), w. }
  destruct (receiver_pure data (s, w)) as (out & E). rewrite run_bind, E.
  assert (Hspec : ∀ username address fs, Some data = Some (JObj fs) →
    obj_get (js "username") fs = Some (JStr username) →
    obj_get (js "address") fs = Some (JStr address) →
    out = if truthy username && truthy address then Ok (MkReceiver username address)
          else Throw (lookup_error (js "Invalid response format from server") (js "UNKNOWN_ERROR"))).
  { intros u a fs [= ->] Hu Ha. rewrite (receiver_of_obj fs u a (s, w) Hu Ha) in E. congruence. }
  destruct out as [d|e]; [|by exists (Throw e), w].
  destruct (saveRecent_run (rd_username d) w L) as (w' & E' & T').
  exists (Ok d), w'. by rewrite (run_bind_ok _ _ _ _ _ (run_host _ s _ _ _ E')).
Qed.

(** resolving a name sends one request for the trimmed, lower-cased, URI-encoded name
    and settles by the answer: 404 is NOT_FOUND, 400 is INVALID_USERNAME, any other refusal or
    a network failure is NETWORK_ERROR (with the status attached when there is one), an answer
    without username or address is UNKNOWN_ERROR, and a complete answer gives its username and
    address. *)
Theorem resolve_username_outcome username encoded s w :
  st_live w → username ≠ [] → to_lower (trim username) ≠ [] →
  encodeURIComponent (to_lower (trim username)) = Some encoded →
  ∃ r out s' w', resolveUsername username (s, w) = (out, (s', w')) ∧ lookup_outcome r out ∧
    net_trace w' = net_trace w ++ [(lookup_request (token_of w) encoded, r)].
Proof.
  intros L Hu Ht He. unfold resolveUsername.
  rewrite (proj2 (truthy_true username)) by done. cbn [negb].
  rewrite (proj2 (truthy_true _) Ht). cbn [negb]. unfold try_catch, resolve_lookup, encode_uri. rewrite He.
  rewrite (run_bind_ok _ _ _ _ _ (run_ret encoded (s, w))).
  destruct (apiFetch_run (API_BASE ++ js "/api/users/resolve/" ++ encoded) no_init s w L)
    as (r & s1 & w1 & E1 & F1 & T1 & L1). exists r.
  destruct r as [response|err].
  2:{ rewrite (run_bind_throw _ _ _ _ _ E1). unfold lookup_failed.
      destruct (err_code err) as [c|] eqn:Ec.
      - exists (Throw err), s1, w1. split; [done|]. split; [|done]. exists err. by rewrite Ec.
      - set (e := lookup_error (err_message err) (js "NETWORK_ERROR")).
        exists (Throw e), s1, w1. split; [done|]. split; [|done]. exists e. split; [done|]. by rewrite Ec. }
  rewrite (run_bind_ok _ _ _ _ _ E1). cbn [lookup_outcome]. destruct (rs_ok response) eqn:Eok; cbn [negb].
  - destruct (accepted_lookup response s1 w1 L1) as (out & w2 & E2 & T2 & O2).
    rewrite E2. destruct out as [d|e].
    + exists (Ok d), s1, w2. by rewrite T2, T1.
    + unfold lookup_failed. destruct (err_code e) as [c|] eqn:Ec.
      * exists (Throw e), s1, w2. by rewrite T2, T1.
      * eexists (Throw _), s1, w2. split; [done|]. rewrite T2, T1. split; [|done].
        intros u a fs P1 P2 P3. specialize (O2 u a fs P1 P2 P3).
        destruct (truthy u && truthy a); [done|]. injection O2 as ->. discriminate Ec.
  - destruct (refused_lookup response (s1, w1)) as (e & E2 & He2). rewrite E2.
    unfold lookup_failed. destruct (err_code e) as [c|] eqn:Ec.
    + exists (Throw e), s1, w1. split; [done|]. split; [|done]. exists e. by rewrite Ec.
    + eexists (Throw _), s1, w1. split; [done|]. split; [|done]. eexists. split; [done|].
      intros Hn. destruct (He2 Hn); congruence.
Qed.
End Resolution.

Section OfflineSendSpec.
Context `{HostLaws W, Radix36}.
Implicit Types (w : W) (s : api_state) (q : list QueuedTransaction).

Definition payload_item (p : TransactionPayload) (token : option str) (item : QueuedTransaction) : Prop :=
  qt_endpoint item = tp_endpoint p ∧ qt_method item = default (js "POST") (tp_method p) ∧
  qt_body item = tp_body p ∧ qt_authToken item = token ∧ qt_retryCount item = 0%Z.

Lemma enqueue_payload_run p w q :
  st_live w → queue_at w = Ok q → Forall queued_ok q → json_ok (JObj (tp_body p)) →
  ∃ item w', enqueue_payload p w = (Ok (MkSendResult false None (Some true)), w') ∧
    queue_at w' = Ok (q ++ [item]) ∧ payload_item p (token_of w) item ∧
    net_trace w' = net_trace w ∧ st_live w'.
Proof.
  intros L Q Hq Hb. unfold enqueue_payload. destruct (getSessionToken_run w L) as (w1 & E1 & K1).
  rewrite (run_bind_ok _ _ _ _ _ E1).
  destruct (enqueue_run w1 q (MkEnqueue (tp_endpoint p) (Some (default (js "POST") (tp_method p)))
              (tp_body p) (token_of w))) as (id & at_ & next & w2 & E2 & Q2 & _ & _ & _ & T2 & L2);
    [by apply (kept_live _ _ K1)|by rewrite (kept_queue _ _ K1)|done|done|].
  rewrite (run_bind_ok _ _ _ _ _ E2). eexists _, w2. split; [done|]. split; [exact Q2|].
  split; [done|]. by rewrite T2, (kept_trace _ _ K1).
Qed.

Definition send_request (token : option str) (p : TransactionPayload) : request :=
  api_request token (tp_endpoint p)
    (RequestInit (Some (default (js "POST") (tp_method p))) [] (Some (stringify (JObj (tp_body p))))).

(** The three outcomes: answered, offline, or a failed attempt. *)
Inductive send_outcome (p : TransactionPayload) w q w' : OfflineSendResult → Prop :=
  | send_answered response :
      net_trace w' = net_trace w ++ [(send_request (token_of w) p, Ok response)] →
      queue_at w' = Ok q →
      send_outcome p w q w' (MkSendResult true (Some response) None)
  | send_offline item :
      net_trace w' = net_trace w →
      queue_at w' = Ok (q ++ [item]) → payload_item p (token_of w) item →
      send_outcome p w q w' (MkSendResult false None (Some true))
  | send_failed err item :
      net_trace w' = net_trace w ++ [(send_request (token_of w) p, Throw err)] →
      queue_at w' = Ok (q ++ [item]) → payload_item p (token_of w) item →
      send_outcome p w q w' (MkSendResult false None (Some true)).

Lemma queue_at_peek w w' :
  st_peek w' AsyncStorage OFFLINE_QUEUE_KEY = st_peek w AsyncStorage OFFLINE_QUEUE_KEY →
  queue_at w' = queue_at w.
Proof. intros E. unfold queue_at. by rewrite E. Qed.

(** C31: sending with offline support never rejects and never loses the payload: either
    the one request it makes is answered and the queue is untouched, or the payload is the
    new last item of the offline queue, with the method, body and session token it would
    have been sent with. *)
Theorem offline_send_accounts p s w q :
  st_live w → queue_at w = Ok q → Forall queued_ok q → json_ok (JObj (tp_body p)) →
  ∃ out s' w', sendTransactionWithOfflineSupport p (s, w) = (Ok out, (s', w')) ∧
    send_outcome p w q w' out.
Proof.
  intros L Q Hq Hb. unfold sendTransactionWithOfflineSupport.
  destruct (net_spec w) as (c & w1 & E1 & K1).
  assert (L1 : st_live w1) by by apply (kept_live _ _ K1).
  assert (Q1 : queue_at w1 = Ok q) by by rewrite (kept_queue _ _ K1).
  assert (Etok : token_of w1 = token_of w) by apply (kept_peek _ _ K1).
  rewrite (run_bind_ok _ _ _ _ _ (run_host _ s _ _ _ E1)).
  destruct (bool_decide (c = Some true)); cbn [negb].
  - unfold try_catch.
    destruct (apiFetch_run (tp_endpoint p)
      (RequestInit (Some (default (js "POST") (tp_method p))) [] (Some (stringify (JObj (tp_body p)))))
      s w1 L1) as (r & s2 & w2 & E2 & F2 & T2 & L2).
    rewrite Etok, (kept_trace _ _ K1) in T2. destruct r as [response|err].
    + rewrite (run_bind_ok _ _ _ _ _ E2). eexists _, s2, w2. split; [done|].
      apply send_answered; [done|]. rewrite (queue_at_peek w1 w2); [done|]. cbn in F2.
      destruct (rs_status response =? 401)%Z.
      * destruct F2 as (w3 & P3 & C3 & _).
        rewrite (sc_other _ _ C3) by (vm_compute; congruence). apply P3.
      * apply F2.
    + rewrite (run_bind_throw _ _ _ _ _ E2). destruct F2 as [-> P2].
      assert (Q2 : queue_at w2 = Ok q) by by rewrite (queue_at_peek w1 w2) by apply P2.
      destruct (enqueue_payload_run p w2 q L2 Q2 Hq Hb) as (item & w3 & E3 & Q3 & I3 & T3 & _).
      exists (MkSendResult false None (Some true)), s, w3. split; [by apply run_host|].
      apply send_failed with err item; [by rewrite T3|done|].
      replace (token_of w) with (token_of w2); [done|]. unfold token_of. rewrite P2. exact Etok.
  - destruct (enqueue_payload_run p w1 q L1 Q1 Hq Hb) as (item & w2 & E2 & Q2 & I2 & T2 & _).
    exists (MkSendResult false None (Some true)), s, w2. split; [by apply run_host|].
    apply send_offline with item; [by rewrite T2, (kept_trace _ _ K1)|done|]. by rewrite <-Etok.
Qed.
End OfflineSendSpec.

(** ** Concrete runs *)

Module Runs.
#[local] Existing Instance ascii_case.
#[local] Instance demo_env : ApiEnv := None.
#[local] Instance demo_radix : Radix36 := λ _, js "0.k3jd92ma1".

Definition w0 : scripted :=
  world [(SecureStore, SESSION_TOKEN_KEY, js "tok")]
    [reply 401 (js "{}")].

Definition answer : str :=
  stringify (JObj [(js "username", JStr (js "tolu")); (js "address", JStr (js "GABC"))]).

Definition w1 : scripted := world [(SecureStore, SESSION_TOKEN_KEY, js "tok")] [reply 200 answer].

Example resolve_demo :
  (resolveUsername (js " Tolu ") (ApiState true 0, w1)).1 = Ok (MkReceiver (js "tolu") (js "GABC")).
Proof. vm_compute. reflexivity. Qed.

Example expired_demo : (apiFetch (js "u") no_init (ApiState true 0, w0)).2.1 = ApiState true 1.
Proof. vm_compute. reflexivity. Qed.

Lemma api_fetch_session_witness : ∃ r s' w',
  apiFetch (js "u") no_init (ApiState true 0, w0) = (r, (s', w')) ∧
  fetch_settled (ApiState true 0) w0 r s' w' ∧
  net_trace w' = net_trace w0 ++ [(api_request (token_of w0) (js "u") no_init, r)] ∧
  (∀ t, token_of w0 = Some t → t ≠ [] →
     header (js "Authorization") (rq_headers (api_request (token_of w0) (js "u") no_init))
       = Some (js "Bearer " ++ t)).
Proof. apply (api_fetch_session (js "u") no_init (ApiState true 0) w0). reflexivity. Defined.

Lemma session_round_trip_witness :
  ∃ wa wb wc, setSessionToken (js "t") (Some (JObj [(js "id", JStr (js "u1"))])) w0 = (Ok tt, wa) ∧
    getSessionToken wa = (Ok (Some (js "t")), wb) ∧
    (∃ wb', getSessionUserState wb = (Ok (Some (JObj [(js "id", JStr (js "u1"))])), wb')) ∧
    clearSessionToken wb = (Ok tt, wc) ∧
    token_of wc = None ∧ st_peek wc SecureStore SESSION_USER_STATE_KEY = None.
Proof.
  apply (session_round_trip (js "t") (JObj [(js "id", JStr (js "u1"))]) w0);
    [reflexivity| |discriminate].
  split; [solve_keys|by repeat split].
Defined.

Lemma push_recent_spec_witness :
  ∃ rest, push_recent (js "b") (JStr <$> [js "a"; js "b"]) = JStr <$> (js "b" :: rest) ∧
    rest = take 19 (filter (.≠ js "b") [js "a"; js "b"]) ∧
    NoDup (js "b" :: rest) ∧ length (js "b" :: rest) ≤ MAX_RECENT_RECIPIENTS.
Proof. apply (push_recent_spec (js "b") [js "a"; js "b"]). solve_keys. Defined.

Lemma resolve_errors_coded_witness : is_Some (err_code
    (lookup_error (js "Username is required and must be a string") (js "INVALID_USERNAME"))).
Proof.
  apply (proj1 (resolve_errors_coded [] (ApiState true 0, w1)) _ (ApiState true 0, w1)). reflexivity.
Defined.

Lemma resolve_username_outcome_witness :
  ∃ r out s' w', resolveUsername (js " Tolu ") (ApiState true 0, w1) = (out, (s', w')) ∧
    lookup_outcome r out ∧
    net_trace w' = net_trace w1 ++ [(lookup_request (token_of w1) (js "tolu"), r)].
Proof.
  apply (resolve_username_outcome (js " Tolu ") (js "tolu") (ApiState true 0) w1);
    [reflexivity|discriminate|vm_compute; discriminate|vm_compute; reflexivity].
Defined.

Definition payload : TransactionPayload :=
  MkPayload (js "https://api.zaps.app/api/v1/transfer") None [(js "amount", JStr (js "5"))].

Lemma offline_send_accounts_witness :
  ∃ out s' w', sendTransactionWithOfflineSupport payload (ApiState true 0, w1) = (Ok out, (s', w')) ∧
    send_outcome payload w1 [] w' out.
Proof.
  apply (offline_send_accounts payload (ApiState true 0) w1 []);
    [reflexivity|reflexivity|constructor|].
  split; [solve_keys|by repeat split].
Defined.
End Runs.
