(* ===== verification/WalletSecurity.v ===== *)
(** * Wallet key management

    Model of [mobileapp/src/services/walletSecurity.ts]: mnemonic and key pairs in the
    secure store, SEP-0005 derivation, accounts by index, restoration, rotation, deletion,
    and the clipboard that clears itself after thirty seconds.

    The bip39, HMAC and Stellar libraries are the class [WalletLibs]; [WalletLaws]
    states what the service relies on: a MAC has 64 bytes, a generated phrase is valid, and a
    key pair is recovered from its secret. *)

From S2P Require Import Prelude JsString JsNumber UriCodec JsDate Json Effects Decode Scripts.

(** ** Libraries *)

Class WalletLibs (W : Type) := {
  keypair : Type;
  kp_secret : keypair → str;                   (** [keypair.secret()] *)
  kp_publicKey : keypair → str;                (** [keypair.publicKey()] *)
  kp_fromSecret : str → option keypair;        (** [Keypair.fromSecret]; [None] throws *)
  kp_fromRawEd25519Seed : list N → keypair;
  bip39_generate : Z → M W str;                (** [bip39.generateMnemonic(strength)] *)
  bip39_validate : str → bool;
  bip39_seed : str → list N;                   (** [bip39.mnemonicToSeed] *)
  hmac_sha512 : list N → list N → list N;      (** key, data *)
}.

Section Derivation.
Context `{UC : UnicodeCase, WalletLibs W}.

Definition generateMnemonic (wordCount : Z) : M W str :=
  bip39_generate (if (wordCount =? 12)%Z then 128 else 256)%Z.

(** [mnemonic.trim().toLowerCase().replace(/\s+/g, " ")] *)
Definition normalize_mnemonic (mnemonic : str) : str :=
  collapse_ws false (to_lower (trim mnemonic)).

Definition validateMnemonic (mnemonic : str) : bool := bip39_validate (normalize_mnemonic mnemonic).

(** [data.writeUInt32BE(v, _)]: the four bytes, or the range error. *)
Definition be32 (v : Z) : option (list N) :=
  if (0 <=? v)%Z && (v <? 4294967296)%Z then
    Some [Z.to_N (Z.land (Z.shiftr v 24) 255); Z.to_N (Z.land (Z.shiftr v 16) 255);
          Z.to_N (Z.land (Z.shiftr v 8) 255); Z.to_N (Z.land v 255)]
  else None.

(** The 37 bytes of a hardened step. *)
Definition child_data (key : list N) (index : Z) : option (list N) :=
  tail ← be32 index; Some (0%N :: key ++ tail).

(** One round of the loop: the new key and chain code. *)
Definition derive_child (state : list N * list N) (index : Z) : option (list N * list N) :=
  data ← child_data state.1 index;
  let result := hmac_sha512 state.2 data in
  Some (take 32 result, drop 32 result).

Definition derivation_path (accountIndex : Z) : list Z :=
  [2147483692; 2147483796; 2147483648 + accountIndex]%Z.

Fixpoint derive_path (state : list N * list N) (path : list Z) : option (list N) :=
  match path with
  | [] => Some state.1
  | index :: path' => state' ← derive_child state index; derive_path state' path'
  end.

Definition deriveStellarKey (seed : list N) (accountIndex : Z) : option (list N) :=
  let masterResult := hmac_sha512 (js "ed25519 seed") seed in
  derive_path (take 32 masterResult, drop 32 masterResult) (derivation_path accountIndex).

Definition range_error : js_error := new_error (js "RangeError").

Definition deriveKeypairFromMnemonic (mnemonic : str) (accountIndex : Z) : res keypair :=
  let normalized := normalize_mnemonic mnemonic in
  if negb (bip39_validate normalized) then Throw (new_error (js "Invalid mnemonic phrase"))
  else match deriveStellarKey (bip39_seed normalized) accountIndex with
       | Some key => Ok (kp_fromRawEd25519Seed key)
       | None => Throw range_error
       end.
End Derivation.

(** ** Storage *)

Definition MNEMONIC_KEY : str := js "wallet_mnemonic_v1".
Definition secretKeyStorageKey (accountIndex : Z) : str := js "wallet_secret_key_v1_" ++ Z_to_str accountIndex.
Definition publicKeyStorageKey (accountIndex : Z) : str := js "wallet_public_key_v1_" ++ Z_to_str accountIndex.
Definition ACCOUNT_COUNT_KEY : str := js "wallet_account_count_v1".

Record WalletAccount := MkAccount { wa_accountIndex : Z; wa_publicKey : str }.
Record GeneratedWallet := MkGenerated { gw_mnemonic : str; gw_accounts : list WalletAccount }.

Section Storage.
Context `{UC : UnicodeCase, Host W, WalletLibs W}.

Definition storeMnemonic (mnemonic : str) : M W unit := st_set SecureStore MNEMONIC_KEY mnemonic.
Definition retrieveMnemonic : M W (option str) := st_get SecureStore MNEMONIC_KEY.

Definition storeKeypair (kp : keypair) (accountIndex : Z) : M W unit :=
  st_set SecureStore (secretKeyStorageKey accountIndex) (kp_secret kp);;
  st_set SecureStore (publicKeyStorageKey accountIndex) (kp_publicKey kp).

Definition invalid_secret : js_error := new_error (js "invalid encoded string").

Definition retrieveKeypair (accountIndex : Z) : M W (option keypair) :=
  secret ← st_get SecureStore (secretKeyStorageKey accountIndex);
  match secret with
  | Some s =>
      if truthy s then
        match kp_fromSecret s with Some kp => mret (Some kp) | None => throw invalid_secret end
      else mret None
  | None => mret None
  end.

Definition retrievePublicKey (accountIndex : Z) : M W (option str) :=
  st_get SecureStore (publicKeyStorageKey accountIndex).

Definition getAccountCount : M W num :=
  raw ← st_get SecureStore ACCOUNT_COUNT_KEY;
  mret (match raw with Some r => if truthy r then parseInt10 r else Fin 0 0 | None => Fin 0 0 end).

Definition incrementAccountCount : M W num :=
  current ← getAccountCount;
  let next := num_add current (Fin 1 0) in
  st_set SecureStore ACCOUNT_COUNT_KEY (num_to_str next);;
  mret next.

(** The indices of [for (let i = 0; i < count; i++)]; a parsed count is an integer or [NaN]. *)
Definition indices_below (count : num) : list Z :=
  match count with Fin n 0 => Z.of_nat <$> seq 0 (Z.to_nat n) | _ => [] end.

Definition list_account (accounts : list WalletAccount) (i : Z) : M W (list WalletAccount) :=
  publicKey ← retrievePublicKey i;
  mret (match publicKey with
        | Some p => if truthy p then accounts ++ [MkAccount i p] else accounts
        | None => accounts
        end).

Definition listAccounts : M W (list WalletAccount) :=
  count ← getAccountCount;
  for_each list_account [] (indices_below count).

Definition createNewWallet (wordCount : Z) : M W GeneratedWallet :=
  mnemonic ← generateMnemonic wordCount;
  kp ← of_res (deriveKeypairFromMnemonic mnemonic 0);
  storeMnemonic mnemonic;;
  storeKeypair kp 0;;
  st_set SecureStore ACCOUNT_COUNT_KEY (js "1");;
  mret (MkGenerated mnemonic [MkAccount 0 (kp_publicKey kp)]).

Definition no_wallet : js_error :=
  new_error (js "No wallet found. Please create or restore a wallet first.").

(** The count is used as the new index; [NaN] (a corrupt count) is out of the model. *)
Definition addAccount : M W WalletAccount :=
  mnemonic ← retrieveMnemonic;
  match mnemonic with
  | Some m =>
      if truthy m then
        currentCount ← getAccountCount;
        match currentCount with
        | Fin newIndex 0 =>
            kp ← of_res (deriveKeypairFromMnemonic m newIndex);
            storeKeypair kp newIndex;;
            incrementAccountCount;;
            mret (MkAccount newIndex (kp_publicKey kp))
        | _ => throw unchecked_cast
        end
      else throw no_wallet
  | None => throw no_wallet
  end.

Definition restoreWalletFromMnemonic (mnemonic : str) : M W WalletAccount :=
  let normalized := normalize_mnemonic mnemonic in
  if negb (bip39_validate normalized) then
    throw (new_error (js "Invalid mnemonic phrase. Please check your words and try again."))
  else
    kp ← of_res (deriveKeypairFromMnemonic normalized 0);
    storeMnemonic normalized;;
    storeKeypair kp 0;;
    st_set SecureStore ACCOUNT_COUNT_KEY (js "1");;
    mret (MkAccount 0 (kp_publicKey kp)).

Definition rotateKey (accountIndex : Z) : M W WalletAccount :=
  mnemonic ← retrieveMnemonic;
  match mnemonic with
  | Some m =>
      if truthy m then
        kp ← of_res (deriveKeypairFromMnemonic m accountIndex);
        storeKeypair kp accountIndex;;
        mret (MkAccount accountIndex (kp_publicKey kp))
      else throw (new_error (js "No wallet mnemonic found."))
  | None => throw (new_error (js "No wallet mnemonic found."))
  end.

Definition hasWallet : M W bool :=
  count ← getAccountCount;
  mret (num_ltb (Fin 0 0) count).

Definition delete_account (_ : unit) (i : Z) : M W unit :=
  st_del SecureStore (secretKeyStorageKey i);;
  st_del SecureStore (publicKeyStorageKey i).

Definition deleteWallet : M W unit :=
  count ← getAccountCount;
  for_each delete_account tt (indices_below count);;
  st_del SecureStore MNEMONIC_KEY;;
  st_del SecureStore ACCOUNT_COUNT_KEY.
End Storage.

(** ** What the libraries promise *)

Class WalletLaws (W : Type) `{UC : UnicodeCase, HostLaws W, !WalletLibs W} := {
  hmac_length k d : length (hmac_sha512 k d) = 64;
  generate_spec s w : ∃ m w', bip39_generate s w = (Ok m, w') ∧ kept w w' ∧
    normalize_mnemonic m = m ∧ bip39_validate m = true ∧ m ≠ [];
  secret_round_trip kp : kp_fromSecret (kp_secret kp) = Some kp;
  secret_nonempty kp : kp_secret kp ≠ [];
  public_nonempty kp : kp_publicKey kp ≠ [];
}.

(** ** The entries of the secure store *)

Inductive slot := SMnemonic | SCount | SSecret (i : Z) | SPublic (i : Z).

#[export] Instance slot_eq_dec : EqDecision slot.
Proof. solve_decision. Defined.

Definition slot_key (sl : slot) : str :=
  match sl with
  | SMnemonic => MNEMONIC_KEY
  | SCount => ACCOUNT_COUNT_KEY
  | SSecret i => secretKeyStorageKey i
  | SPublic i => publicKeyStorageKey i
  end.

#[export] Instance slot_key_inj : Inj (=) (=) slot_key.
Proof.
  intros [| |i|i] [| |j|j] E; try done; unfold slot_key, secretKeyStorageKey, publicKeyStorageKey in E;
    try (apply app_inv_head, (inj Z_to_str) in E; congruence); vm_compute in E; discriminate E.
Qed.

Fixpoint assoc (u : list (slot * option str)) (sl : slot) (old : option str) : option str :=
  match u with
  | [] => old
  | (sl', v) :: u' => if bool_decide (sl = sl') then v else assoc u' sl old
  end.

(** Evaluates a slot after a list of writes. *)
Ltac read_slot := cbn [assoc]; repeat case_bool_decide; simplify_eq; try done; try lia.

Section WalletSpec.
Context `{WalletLaws W}.
Implicit Types (w : W) (m : str) (kp : keypair).

Definition slot_of w (sl : slot) : option str := st_peek w SecureStore (slot_key sl).

(** The slots [u] were written (latest first), nothing else changed. *)
Record wrote w w' (u : list (slot * option str)) : Prop := Wrote {
  wr_slot : ∀ sl, slot_of w' sl = assoc u sl (slot_of w sl);
  wr_trace : net_trace w' = net_trace w;
  wr_live : st_live w → st_live w';
}.

Lemma wrote_kept w w' : kept w w' → wrote w w' [].
Proof. intros [p t l]. split; [intros sl; apply p|done|done]. Qed.

Lemma wrote_stored w w' sl v : stored w w' SecureStore (slot_key sl) v → wrote w w' [(sl, v)].
Proof.
  intros [e n t l]. split; [|done|done]. intros sl'. cbn. unfold slot_of. case_bool_decide as E.
  - by subst.
  - apply n. intros [= E']. by apply E, (inj slot_key).
Qed.

Lemma assoc_app u1 u2 sl old : assoc (u2 ++ u1) sl old = assoc u2 sl (assoc u1 sl old).
Proof. induction u2 as [|[sl' v] u2 IH]; cbn; [done|]. by case_bool_decide. Qed.

Lemma wrote_trans w1 w2 w3 u1 u2 : wrote w1 w2 u1 → wrote w2 w3 u2 → wrote w1 w3 (u2 ++ u1).
Proof.
  intros [p1 t1 l1] [p2 t2 l2]. split; [|by rewrite t2|auto].
  intros sl. by rewrite p2, p1, assoc_app.
Qed.

Lemma set_slot sl v w : st_live w → ∃ w',
  st_set SecureStore (slot_key sl) v w = (Ok tt, w') ∧ wrote w w' [(sl, Some v)].
Proof.
  intros L. destruct (set_live SecureStore (slot_key sl) v w L) as (w' & E & S).
  exists w'. split; [done|by apply wrote_stored].
Qed.

Lemma del_slot sl w : st_live w → ∃ w',
  st_del SecureStore (slot_key sl) w = (Ok tt, w') ∧ wrote w w' [(sl, None)].
Proof.
  intros L. destruct (del_live SecureStore (slot_key sl) w L) as (w' & E & S).
  exists w'. split; [done|by apply wrote_stored].
Qed.

Lemma get_slot sl w : st_live w → ∃ w',
  st_get SecureStore (slot_key sl) w = (Ok (slot_of w sl), w') ∧ wrote w w' [].
Proof.
  intros L. destruct (get_live SecureStore (slot_key sl) w L) as (w' & E & K).
  exists w'. split; [done|by apply wrote_kept].
Qed.

(** *** Derivation *)

Lemma be32_range v : (0 <= v < 4294967296)%Z → ∃ t, be32 v = Some t ∧ length t = 4.
Proof.
  intros Hv. unfold be32. rewrite (proj2 (Z.leb_le _ _)), (proj2 (Z.ltb_lt _ _)) by lia. by eexists.
Qed.

Lemma be32_out v : (v < 0 ∨ 4294967296 <= v)%Z → be32 v = None.
Proof.
  intros Hv. unfold be32. destruct (Z.leb_spec 0 v), (Z.ltb_spec v 4294967296); cbn; (done || lia).
Qed.

Lemma derive_child_ok state index :
  length state.1 = 32 → (0 <= index < 4294967296)%Z →
  ∃ data state', child_data state.1 index = Some data ∧ length data = 37 ∧
    derive_child state index = Some state' ∧ length state'.1 = 32 ∧ length state'.2 = 32.
Proof.
  intros Hk Hi. destruct (be32_range index Hi) as (t & Et & Lt). unfold derive_child, child_data.
  rewrite Et. cbn. eexists _, _. split; [done|]. split; [cbn [length]; rewrite length_app; lia|]. split; [done|].
  cbn. rewrite length_take, length_drop, hmac_length. lia.
Qed.

Lemma derive_path_ok path : ∀ state, length state.1 = 32 →
  Forall (λ i, (0 <= i < 4294967296)%Z) path →
  ∃ key, derive_path state path = Some key ∧ length key = 32.
Proof.
  induction path as [|i path IH]; intros state Hs Hp; cbn [derive_path]; [by eexists|].
  apply Forall_cons in Hp as [Hi Hp].
  destruct (derive_child_ok state i Hs Hi) as (_ & state' & _ & _ & E & L1 & _).
  rewrite E. cbn. by apply IH.
Qed.

(** for every account index a hardened path can carry, SEP-0005 derivation succeeds
    with a 32-byte key; an index outside is refused instead of wrapping around. *)
Theorem derive_stellar_key_total seed i :
  ((0 <= i < 2147483648)%Z → ∃ key, deriveStellarKey seed i = Some key ∧ length key = 32) ∧
  ((2147483648 <= i)%Z → deriveStellarKey seed i = None).
Proof.
  unfold deriveStellarKey, derivation_path. set (st := (take 32 _, drop 32 _)).
  assert (Hst : length st.1 = 32) by (subst st; cbn; rewrite length_take, hmac_length; lia).
  split; intros Hi.
  - apply derive_path_ok; [done|]. repeat (apply Forall_cons; split); [lia..|]. constructor.
  - cbn [derive_path].
    destruct (derive_child_ok st 2147483692 Hst) as (_ & s1 & _ & _ & -> & L1 & _); [lia|]. cbn [mbind option_bind].
    destruct (derive_child_ok s1 2147483796 L1) as (_ & s2 & _ & _ & -> & L2 & _); [lia|]. cbn [mbind option_bind].
    unfold derive_child, child_data. by rewrite be32_out by lia.
Qed.

Lemma derive_keypair_ok m i :
  normalize_mnemonic m = m → bip39_validate m = true → (0 <= i < 2147483648)%Z →
  ∃ kp, deriveKeypairFromMnemonic m i = Ok kp.
Proof.
  intros Hn Hv Hi. unfold deriveKeypairFromMnemonic. rewrite Hn, Hv. cbn [negb].
  unfold deriveStellarKey.
  destruct (derive_path_ok (derivation_path i)
    (take 32 (hmac_sha512 (js "ed25519 seed") (bip39_seed m)), drop 32 (hmac_sha512 (js "ed25519 seed") (bip39_seed m))))
    as (key & E & _).
  - cbn. rewrite length_take, hmac_length. lia.
  - unfold derivation_path. repeat (apply Forall_cons; split); [lia..|]. constructor.
  - rewrite E. by eexists.
Qed.

(** *** Storage runs *)

Lemma storeKeypair_run kp i w : st_live w → ∃ w',
  storeKeypair kp i w = (Ok tt, w') ∧
  wrote w w' [(SPublic i, Some (kp_publicKey kp)); (SSecret i, Some (kp_secret kp))].
Proof.
  intros L. destruct (set_slot (SSecret i) (kp_secret kp) w L) as (w1 & E1 & W1).
  destruct (set_slot (SPublic i) (kp_publicKey kp) w1) as (w2 & E2 & W2); [by apply W1|].
  exists w2. unfold storeKeypair. cbn [slot_key] in E1, E2. rewrite (run_bind_ok _ _ _ _ _ E1), E2.
  split; [done|]. apply (wrote_trans _ _ _ _ _ W1 W2).
Qed.

(** The writes shared by creation and restoration. *)
Lemma install_run {A} m kp (r : A) w : st_live w → ∃ w',
  (storeMnemonic m;; storeKeypair kp 0;; st_set SecureStore ACCOUNT_COUNT_KEY (js "1");; mret r) w
    = (Ok r, w') ∧
  wrote w w' [(SCount, Some (js "1")); (SPublic 0, Some (kp_publicKey kp));
              (SSecret 0, Some (kp_secret kp)); (SMnemonic, Some m)].
Proof.
  intros L. destruct (set_slot SMnemonic m w L) as (w1 & E1 & W1).
  destruct (storeKeypair_run kp 0 w1) as (w2 & E2 & W2); [by apply W1|].
  destruct (set_slot SCount (js "1") w2) as (w3 & E3 & W3); [by apply W2, W1|].
  exists w3. unfold storeMnemonic. cbn [slot_key] in E1, E3.
  rewrite (run_bind_ok _ _ _ _ _ E1), (run_bind_ok _ _ _ _ _ E2), (run_bind_ok _ _ _ _ _ E3).
  split; [done|]. apply (wrote_trans _ _ _ _ _ (wrote_trans _ _ _ _ _ W1 W2) W3).
Qed.

Lemma getAccountCount_run n w :
  st_live w → slot_of w SCount = Some (Z_to_str n) → (0 <= n < 2 ^ 53)%Z →
  ∃ w', getAccountCount w = (Ok (Fin n 0), w') ∧ wrote w w' [].
Proof.
  intros L Hc Hn. destruct (get_slot SCount w L) as (w' & E & K). exists w'. split; [|done].
  unfold getAccountCount. cbn [slot_key] in E. rewrite (run_bind_ok _ _ _ _ _ E), Hc.
  replace n with (Z.of_nat (Z.to_nat n)) in * by lia. rewrite parseInt10_count by lia.
  destruct (truthy (Z_to_str (Z.of_nat (Z.to_nat n)))) eqn:T; [done|].
  apply truthy_false in T. exfalso. revert T. destruct (Z.of_nat (Z.to_nat n)); try done; apply N_to_str_nonempty.
Qed.

(** *** The invariant *)

(** The wallet of phrase [m] with [n] accounts: every account below the count is stored
    and derived from the stored phrase. *)
Record wallet_at w m (n : Z) : Prop := WalletAt {
  wl_live : st_live w;
  wl_phrase : normalize_mnemonic m = m ∧ bip39_validate m = true ∧ m ≠ [];
  wl_mnemonic : slot_of w SMnemonic = Some m;
  wl_count : slot_of w SCount = Some (Z_to_str n);
  wl_range : (0 < n <= 2147483648)%Z;
  wl_accounts : ∀ i, (0 <= i < n)%Z → ∃ kp, deriveKeypairFromMnemonic m i = Ok kp ∧
    slot_of w (SSecret i) = Some (kp_secret kp) ∧ slot_of w (SPublic i) = Some (kp_publicKey kp);
}.

Lemma wallet_wrote_nil w w' m n : wallet_at w m n → wrote w w' [] → wallet_at w' m n.
Proof.
  intros [L P M C R A] [p t l]. split; [auto|done|by rewrite p|by rewrite p|done|].
  intros i Hi. destruct (A i Hi) as (kp & E & S1 & S2). exists kp. by rewrite !p.
Qed.

Lemma installed m kp w w' :
  st_live w → normalize_mnemonic m = m ∧ bip39_validate m = true ∧ m ≠ [] →
  deriveKeypairFromMnemonic m 0 = Ok kp →
  wrote w w' [(SCount, Some (js "1")); (SPublic 0, Some (kp_publicKey kp));
              (SSecret 0, Some (kp_secret kp)); (SMnemonic, Some m)] →
  wallet_at w' m 1.
Proof.
  intros L P E [p t l]. split; [auto|done|by rewrite p|by rewrite p|lia|].
  intros i Hi. replace i with 0%Z by lia. exists kp. by rewrite !p.
Qed.

Lemma createNewWallet_run wordCount w : st_live w → ∃ m kp w',
  createNewWallet wordCount w = (Ok (MkGenerated m [MkAccount 0 (kp_publicKey kp)]), w') ∧
  normalize_mnemonic m = m ∧ bip39_validate m = true ∧ m ≠ [] ∧ deriveKeypairFromMnemonic m 0 = Ok kp ∧ wallet_at w' m 1 ∧
  net_trace w' = net_trace w.
Proof.
  intros L. unfold createNewWallet, generateMnemonic.
  destruct (generate_spec (if (wordCount =? 12)%Z then 128 else 256)%Z w) as (m & w1 & E1 & K1 & Hn & Hv & Hne).
  destruct (derive_keypair_ok m 0 Hn Hv) as (kp & Ekp); [lia|].
  destruct (install_run m kp (MkGenerated m [MkAccount 0 (kp_publicKey kp)]) w1) as (w2 & E2 & W2).
  { by apply (kept_live _ _ K1). }
  exists m, kp, w2. rewrite (run_bind_ok _ _ _ _ _ E1), Ekp. split; [exact E2|].
  do 4 (split; [done|]). split; [by eapply installed; [apply (kept_live _ _ K1)|..]|].
  by rewrite (wr_trace _ _ _ W2), (kept_trace _ _ K1).
Qed.

(** Restoration of a phrase whose normal form is valid. *)
Lemma restore_run m m' w : st_live w → normalize_mnemonic m' = m → normalize_mnemonic m = m → bip39_validate m = true → m ≠ [] →
  ∃ kp w', restoreWalletFromMnemonic m' w = (Ok (MkAccount 0 (kp_publicKey kp)), w') ∧
    deriveKeypairFromMnemonic m 0 = Ok kp ∧ wallet_at w' m 1 ∧ net_trace w' = net_trace w.
Proof.
  intros L Em Hn Hv Hne. destruct (derive_keypair_ok m 0 Hn Hv) as (kp & Ekp); [lia|].
  destruct (install_run m kp (MkAccount 0 (kp_publicKey kp)) w L) as (w2 & E2 & W2).
  exists kp, w2. split.
  { unfold restoreWalletFromMnemonic. rewrite Em, Hv. cbn [negb]. rewrite Ekp. exact E2. }
  split; [done|]. split; [by eapply installed|]. by rewrite (wr_trace _ _ _ W2).
Qed.

(** C12: a freshly created wallet is well formed: the phrase that is returned is the one
    that is stored, it has exactly one account, and that account's key pair is the one derived
    from the phrase; restoring that phrase on another device gives the same account. *)
Theorem create_then_restore wordCount w v :
  st_live w → st_live v → ∃ g w' a v',
    createNewWallet wordCount w = (Ok g, w') ∧ wallet_at w' (gw_mnemonic g) 1 ∧
    restoreWalletFromMnemonic (gw_mnemonic g) v = (Ok a, v') ∧ wallet_at v' (gw_mnemonic g) 1 ∧
    gw_accounts g = [a] ∧
    slot_of v' (SSecret 0) = slot_of w' (SSecret 0).
Proof.
  intros L Lv. destruct (createNewWallet_run wordCount w L) as (m & kp & w2 & E & Hn & Hv & Hne & Ekp & I & _).
  destruct (restore_run m m v Lv Hn Hn Hv Hne) as (kp' & v2 & E3 & Ekp' & I' & _).
  assert (kp' = kp) as -> by congruence.
  exists (MkGenerated m [MkAccount 0 (kp_publicKey kp)]), w2, (MkAccount 0 (kp_publicKey kp)), v2.
  do 5 (split; [done|]).
  destruct (wl_accounts _ _ _ I 0) as (k1 & D1 & -> & _); [lia|].
  destruct (wl_accounts _ _ _ I' 0) as (k2 & D2 & -> & _); [lia|]. congruence.
Qed.

Lemma addAccount_run w m n :
  wallet_at w m n → (n < 2147483648)%Z →
  ∃ a w', addAccount w = (Ok a, w') ∧ wa_accountIndex a = n ∧ wallet_at w' m (n + 1) ∧
    slot_of w' (SPublic n) = Some (wa_publicKey a).
Proof.
  intros I Hn. pose proof I as [L (Pn & Pv & Pne) M C R A]. unfold addAccount, retrieveMnemonic.
  destruct (get_slot SMnemonic w L) as (w1 & E1 & W1). cbn [slot_key] in E1.
  rewrite (run_bind_ok _ _ _ _ _ E1), M, (proj2 (truthy_true m) Pne).
  pose proof (wallet_wrote_nil _ _ _ _ I W1) as I1.
  destruct (getAccountCount_run n w1) as (w2 & E2 & W2); [apply I1|apply I1|lia|].
  rewrite (run_bind_ok _ _ _ _ _ E2). pose proof (wallet_wrote_nil _ _ _ _ I1 W2) as I2.
  destruct (derive_keypair_ok m n Pn Pv) as (kp & Ekp); [lia|]. rewrite Ekp.
  rewrite (run_bind_ok _ _ _ w2 kp eq_refl).
  destruct (storeKeypair_run kp n w2) as (w3 & E3 & W3); [apply I2|].
  rewrite (run_bind_ok _ _ _ _ _ E3). unfold incrementAccountCount.
  assert (C3 : slot_of w3 SCount = Some (Z_to_str n)) by (rewrite (wr_slot _ _ _ W3); apply I2).
  destruct (getAccountCount_run n w3) as (w4 & E4 & W4); [apply W3, I2|done|lia|].
  destruct (set_slot SCount (Z_to_str (n + 1)) w4) as (w5 & E5 & W5); [apply W4, W3, I2|].
  assert (En : num_add (Fin n 0) (Fin 1 0) = Fin (n + 1) 0).
  { cbn [num_add]. change (2 ^ (- 0))%Z with 1%Z. rewrite !Z.mul_1_r.
    apply num_of_Z_safe. unfold safe_int. lia. }
  exists (MkAccount n (kp_publicKey kp)), w5. split.
  { rewrite run_bind, (run_bind_ok _ _ _ _ _ E4). cbn zeta. rewrite En, num_to_str_int by lia.
    cbn [slot_key] in E5. by rewrite (run_bind_ok _ _ _ _ _ E5). }
  split; [done|].
  pose proof (wrote_trans _ _ _ _ _ W3 (wrote_trans _ _ _ _ _ W4 W5)) as [p t l]. cbn [app] in p.
  pose proof I2 as [L2 _ M2 C2 _ A2].
  split; [|by rewrite p; read_slot].
  split; [auto|done|by rewrite p|by rewrite p|lia|].
  intros i Hi. destruct (decide (i = n)) as [->|Hne].
  - exists kp. rewrite !p. read_slot.
  - destruct (A2 i) as (kp' & E' & S1 & S2); [lia|]. exists kp'. rewrite !p. read_slot.
Qed.

(** adding an account to a well-formed wallet succeeds with the next index, stores the
    pair derived from the stored phrase at that index, and keeps every earlier account. *)
Theorem add_account_preserves w m n :
  wallet_at w m n → (n < 2147483648)%Z →
  ∃ a w', addAccount w = (Ok a, w') ∧ wa_accountIndex a = n ∧ wallet_at w' m (n + 1) ∧
    slot_of w' (SPublic n) = Some (wa_publicKey a).
Proof. apply addAccount_run. Qed.

(** Rotation re-derives the same pair: a well-formed wallet stays well formed. *)
Lemma rotateKey_run w m n i :
  wallet_at w m n → (0 <= i < n)%Z →
  ∃ a w', rotateKey i w = (Ok a, w') ∧ wa_accountIndex a = i ∧ wallet_at w' m n ∧
    slot_of w' (SPublic i) = slot_of w (SPublic i).
Proof.
  intros I Hi. pose proof I as [L (Pn & Pv & Pne) M C R A]. unfold rotateKey, retrieveMnemonic.
  destruct (get_slot SMnemonic w L) as (w1 & E1 & W1). cbn [slot_key] in E1.
  rewrite (run_bind_ok _ _ _ _ _ E1), M, (proj2 (truthy_true m) Pne).
  destruct (A i Hi) as (kp & Ekp & S1 & S2). rewrite Ekp.
  rewrite (run_bind_ok _ _ _ w1 kp eq_refl).
  destruct (storeKeypair_run kp i w1) as (w2 & E2 & W2); [by apply W1|].
  exists (MkAccount i (kp_publicKey kp)), w2. rewrite (run_bind_ok _ _ _ _ _ E2).
  split; [done|]. split; [done|].
  pose proof (wrote_trans _ _ _ _ _ W1 W2) as [p t l]. cbn [app] in p. split.
  - split; [auto|done|by rewrite p|by rewrite p|done|].
    intros j Hj. destruct (A j Hj) as (kp' & Ekp' & S1' & S2'). exists kp'.
    split; [done|]. rewrite !p. split; read_slot; congruence.
  - rewrite p. rewrite S2. read_slot.
Qed.

Lemma list_loop m (ixs : list Z) : ∀ w acc, st_live w →
  Forall (λ i, ∃ kp, deriveKeypairFromMnemonic m i = Ok kp ∧
                     slot_of w (SPublic i) = Some (kp_publicKey kp)) ixs →
  ∃ l w', for_each list_account acc ixs w = (Ok (acc ++ l), w') ∧ wrote w w' [] ∧
    Forall2 (λ i a, wa_accountIndex a = i ∧ ∃ kp, deriveKeypairFromMnemonic m i = Ok kp ∧
                    wa_publicKey a = kp_publicKey kp) ixs l.
Proof.
  induction ixs as [|i ixs IH]; intros w acc L His.
  { exists [], w. rewrite app_nil_r. split; [done|]. split; [by apply wrote_kept|constructor]. }
  apply Forall_cons in His as [(kp & Ekp & Ei) His]. cbn [for_each].
  destruct (get_slot (SPublic i) w L) as (w1 & E1 & W1). cbn [slot_key] in E1.
  assert (Estep : list_account acc i w = (Ok (acc ++ [MkAccount i (kp_publicKey kp)]), w1)).
  { unfold list_account, retrievePublicKey. rewrite (run_bind_ok _ _ _ _ _ E1), Ei.
    by rewrite (proj2 (truthy_true _) (public_nonempty kp)). }
  rewrite (run_bind_ok _ _ _ _ _ Estep).
  destruct (IH w1 (acc ++ [MkAccount i (kp_publicKey kp)])) as (l & w2 & E2 & W2 & F2).
  - by apply W1.
  - eapply Forall_impl; [exact His|]. intros j (kp' & ? & Hj). exists kp'.
    split; [done|]. by rewrite (wr_slot _ _ _ W1).
  - exists (MkAccount i (kp_publicKey kp) :: l), w2. rewrite E2, <-app_assoc. split; [done|].
    split; [apply (wrote_trans _ _ _ _ _ W1 W2)|]. constructor; [|done]. split; [done|]. by exists kp.
Qed.

Lemma elem_of_indices n i : i ∈ (Z.of_nat <$> seq 0 (Z.to_nat n)) ↔ (0 <= i < n)%Z.
Proof.
  rewrite list_elem_of_fmap. split.
  - intros (k & -> & Hk). apply elem_of_seq in Hk. lia.
  - intros Hi. exists (Z.to_nat i). rewrite elem_of_seq. lia.
Qed.

(** listing the accounts of a well-formed wallet gives one entry per index in order,
    each with the public key derived from the stored phrase, and exposes nothing else. *)
Theorem list_accounts_complete w m n :
  wallet_at w m n →
  ∃ l w', listAccounts w = (Ok l, w') ∧ wallet_at w' m n ∧
    Forall2 (λ i a, wa_accountIndex a = i ∧ ∃ kp, deriveKeypairFromMnemonic m i = Ok kp ∧
                    wa_publicKey a = kp_publicKey kp) (Z.of_nat <$> seq 0 (Z.to_nat n)) l.
Proof.
  intros I. pose proof I as [L P M C R A]. unfold listAccounts.
  destruct (getAccountCount_run n w) as (w1 & E1 & W1); [done|done|lia|].
  rewrite (run_bind_ok _ _ _ _ _ E1). cbn [indices_below].
  destruct (list_loop m (Z.of_nat <$> seq 0 (Z.to_nat n)) w1 []) as (l & w2 & E2 & W2 & F2).
  - by apply W1.
  - apply Forall_forall. intros i Hi. apply elem_of_indices in Hi.
    destruct (A i Hi) as (kp & Ekp & _ & Ep). exists kp. by rewrite (wr_slot _ _ _ W1).
  - exists l, w2. rewrite E2. split; [done|]. split; [|done].
    eapply wallet_wrote_nil; [exact I|]. apply (wrote_trans _ _ _ _ _ W1 W2).
Qed.

Lemma delete_loop (ixs : list Z) : ∀ w, st_live w → ∃ w',
  for_each delete_account tt ixs w = (Ok tt, w') ∧ st_live w' ∧
  ∀ sl, slot_of w' sl =
    if bool_decide (sl ∈ (SSecret <$> ixs) ++ (SPublic <$> ixs)) then None else slot_of w sl.
Proof.
  induction ixs as [|i ixs IH]; intros w L; [by exists w|]. cbn [for_each].
  destruct (del_slot (SSecret i) w L) as (w1 & E1 & W1).
  destruct (del_slot (SPublic i) w1) as (w2 & E2 & W2); [by apply W1|].
  destruct (IH w2) as (w3 & E3 & L3 & S3); [by apply W2, W1|]. exists w3. cbn [slot_key] in E1, E2.
  assert (Estep : delete_account tt i w = (Ok tt, w2)).
  { unfold delete_account. by rewrite (run_bind_ok _ _ _ _ _ E1). }
  rewrite (run_bind_ok _ _ _ _ _ Estep). split; [done|]. split; [done|]. intros sl. rewrite S3, (wr_slot _ _ _ W2), (wr_slot _ _ _ W1).
  cbn [assoc]. repeat case_bool_decide; try done; set_solver.
Qed.

Lemma deleteWallet_run w n :
  st_live w → slot_of w SCount = Some (Z_to_str n) → (0 <= n < 2 ^ 53)%Z →
  ∃ w', deleteWallet w = (Ok tt, w') ∧ slot_of w' SMnemonic = None ∧ slot_of w' SCount = None ∧
    ∀ i, (0 <= i)%Z →
      slot_of w' (SSecret i) = (if (i <? n)%Z then None else slot_of w (SSecret i)) ∧
      slot_of w' (SPublic i) = (if (i <? n)%Z then None else slot_of w (SPublic i)).
Proof.
  intros L C Hn. unfold deleteWallet.
  destruct (getAccountCount_run n w) as (w1 & E1 & W1); [done|done|done|].
  rewrite (run_bind_ok _ _ _ _ _ E1). cbn [indices_below].
  destruct (delete_loop (Z.of_nat <$> seq 0 (Z.to_nat n)) w1) as (w2 & E2 & L2 & S2); [by apply W1|].
  rewrite (run_bind_ok _ _ _ _ _ E2).
  destruct (del_slot SMnemonic w2 L2) as (w3 & E3 & W3).
  destruct (del_slot SCount w3) as (w4 & E4 & W4); [by apply W3|]. cbn [slot_key] in E3, E4.
  exists w4. rewrite (run_bind_ok _ _ _ _ _ E3), E4. split; [done|].
  pose proof (wrote_trans _ _ _ _ _ W3 W4) as [p t l]. cbn [app] in p.
  split; [by rewrite p|]. split; [by rewrite p|]. intros i Hi. rewrite !p. cbn [assoc bool_decide decide decide_rel].
  rewrite !bool_decide_eq_false_2 by done. rewrite !S2, !(wr_slot _ _ _ W1). cbn [assoc].
  assert (Hin : ∀ f : Z → slot, Inj (=) (=) f → f i ∈ (f <$> (Z.of_nat <$> seq 0 (Z.to_nat n))) ↔ (i < n)%Z).
  { intros f Hf. rewrite list_elem_of_fmap. setoid_rewrite elem_of_indices. split.
    - intros (j & E%(inj f) & Hj). lia.
    - intros. exists i. split; [done|lia]. }
  assert (Inj (=) (=) SSecret) by (intros ?? [=]; done).
  assert (Inj (=) (=) SPublic) by (intros ?? [=]; done).
  split; case_bool_decide as Hb; destruct (Z.ltb_spec i n) as [Hl|Hl]; try done; exfalso.
  - apply elem_of_app in Hb as [Hb|Hb]; [apply Hin in Hb; [lia|done]|].
    apply list_elem_of_fmap in Hb as (? & ? & _). done.
  - apply Hb, elem_of_app. left. by apply Hin.
  - apply elem_of_app in Hb as [Hb|Hb]; [|apply Hin in Hb; [lia|done]].
    apply list_elem_of_fmap in Hb as (? & ? & _). done.
  - apply Hb, elem_of_app. right. by apply Hin.
Qed.

(** C15: deleting a well-formed wallet removes the phrase, the count and both keys of every
    account the wallet lists. *)
Theorem delete_wallet_erases w m n :
  wallet_at w m n →
  ∃ w', deleteWallet w = (Ok tt, w') ∧ slot_of w' SMnemonic = None ∧ slot_of w' SCount = None ∧
    ∀ i, (0 <= i < n)%Z → slot_of w' (SSecret i) = None ∧ slot_of w' (SPublic i) = None.
Proof.
  intros I. destruct (deleteWallet_run w n) as (w' & E & M & C & S);
    [apply I|apply I|pose proof (wl_range _ _ _ I); lia|].
  exists w'. split; [done|]. split; [done|]. split; [done|]. intros i Hi.
  destruct (S i) as [S1 S2]; [lia|]. by rewrite S1, S2, (proj2 (Z.ltb_lt i n)) by lia.
Qed.

(** restoring another phrase over a wallet with several accounts resets the count to
    one, so a later deleteWallet leaves the secret key of account 1 of the old wallet in the
    secure store. *)
Theorem restore_then_delete_leaves_secret w m n m' :
  wallet_at w m n → (1 < n)%Z →
  normalize_mnemonic m' = m' → bip39_validate m' = true → m' ≠ [] →
  ∃ a w1 w2 kp, restoreWalletFromMnemonic m' w = (Ok a, w1) ∧ deleteWallet w1 = (Ok tt, w2) ∧
    deriveKeypairFromMnemonic m 1 = Ok kp ∧ slot_of w2 (SSecret 1) = Some (kp_secret kp).
Proof.
  intros I Hn Pn Pv Pne. destruct (derive_keypair_ok m' 0 Pn Pv) as (kp' & Ekp'); [lia|].
  destruct (install_run m' kp' (MkAccount 0 (kp_publicKey kp')) w) as (w1 & E1 & W1); [apply I|].
  destruct (deleteWallet_run w1 1) as (w2 & E2 & _ & _ & S2);
    [apply W1, I|by rewrite (wr_slot _ _ _ W1)|lia|].
  destruct (wl_accounts _ _ _ I 1) as (kp & Ekp & Es & _); [lia|].
  exists (MkAccount 0 (kp_publicKey kp')), w1, w2, kp. split.
  { unfold restoreWalletFromMnemonic. rewrite Pn, Pv. cbn [negb]. rewrite Ekp'. exact E1. }
  split; [done|]. split; [done|]. destruct (S2 1%Z) as [-> _]; [lia|].
  cbn. rewrite (wr_slot _ _ _ W1). exact Es.
Qed.
End WalletSpec.

(** ** Clipboard

    The pasteboard and [clipboardClearTimer] (the instant at which it fires); time passes
    between calls, and a timer whose instant is reached fires. *)
Module Clipboard.

Definition CLIPBOARD_CLEAR_DELAY_MS : Z := 30000.

Record clip_state := ClipState { clock : Z; pasteboard : str; clear_at : option Z }.

Definition copyWithAutoClear (value : str) (st : clip_state) : clip_state :=
  ClipState (clock st) value (Some (clock st + CLIPBOARD_CLEAR_DELAY_MS)%Z).

(** The returned cancel function and [clearClipboard]. *)
Definition clearClipboard (st : clip_state) : clip_state := ClipState (clock st) [] None.

Definition pass (ms : Z) (st : clip_state) : clip_state :=
  let now := (clock st + Z.max 0 ms)%Z in
  match clear_at st with
  | Some t => if (t <=? now)%Z then ClipState now [] None else ClipState now (pasteboard st) (Some t)
  | None => ClipState now (pasteboard st) None
  end.

Inductive clip_event := Copy (value : str) | Cancel | Pass (ms : Z).

Definition clip_step (st : clip_state) (e : clip_event) : clip_state :=
  match e with Copy v => copyWithAutoClear v st | Cancel => clearClipboard st | Pass ms => pass ms st end.

Definition clip_ok (st : clip_state) : Prop :=
  pasteboard st = [] ∨
  ∃ t, clear_at st = Some t ∧ (clock st < t <= clock st + CLIPBOARD_CLEAR_DELAY_MS)%Z.

Lemma clip_step_ok st e : clip_ok st → clip_ok (clip_step st e).
Proof.
  unfold CLIPBOARD_CLEAR_DELAY_MS. intros Hok. destruct e as [v| |ms]; cbn.
  - right. eexists. split; [done|]. unfold CLIPBOARD_CLEAR_DELAY_MS. cbn. lia.
  - by left.
  - unfold pass. destruct Hok as [Hp|(t & -> & Ht)].
    + left. destruct (clear_at st) as [t|]; [destruct (_ <=? _)%Z|]; done.
    + unfold CLIPBOARD_CLEAR_DELAY_MS in Ht. destruct (Z.leb_spec t (clock st + Z.max 0 ms)); [by left|].
      right. exists t. split; [done|]. unfold CLIPBOARD_CLEAR_DELAY_MS. cbn. lia.
Qed.

(** whatever sequence of copies, cancellations and waiting came before, thirty seconds
    after the last call the clipboard no longer holds a copied secret. *)
Theorem clipboard_clears events now : pasteboard (pass CLIPBOARD_CLEAR_DELAY_MS
    (foldl clip_step (ClipState now [] None) events)) = [].
Proof.
  assert (Hok : clip_ok (foldl clip_step (ClipState now [] None) events)).
  { assert (H0 : clip_ok (ClipState now [] None)) by by left. revert H0.
    generalize (ClipState now [] None). induction events as [|e es IH]; intros st H0; [done|].
    cbn. by apply IH, clip_step_ok. }
  generalize dependent (foldl clip_step (ClipState now [] None) events). intros st.
  unfold pass. intros [Hp|(t & -> & Ht)].
  - destruct (clear_at st); [destruct (_ <=? _)%Z|]; done.
  - by rewrite (proj2 (Z.leb_le _ _)) by (unfold CLIPBOARD_CLEAR_DELAY_MS in *; lia).
Qed.
End Clipboard.

(** ** Concrete runs *)

Module Runs.
#[local] Existing Instance ascii_case.

#[local] Instance demo_libs : WalletLibs scripted := {|
  keypair := list N;
  kp_secret k := 83%N :: k;
  kp_publicKey k := 71%N :: k;
  kp_fromSecret s := match s with 83%N :: k => Some k | _ => None end;
  kp_fromRawEd25519Seed s := s;
  bip39_generate _ w := (Ok (js "abandon about"), w);
  bip39_validate := truthy;
  bip39_seed m := m;
  hmac_sha512 k d := replicate 64 (foldl N.add 0%N (k ++ d) mod 256)%N;
|}.

#[local] Instance demo_laws : WalletLaws scripted.
Proof.
  split; try done.
  intros s w. exists (js "abandon about"), w. by repeat split.
Qed.

Definition empty : scripted := world [] [].

(** A wallet with two accounts, built by the service itself. *)
Definition two_accounts : scripted :=
  (addAccount (createNewWallet 24 empty).2).2.

Lemma two_accounts_ok : wallet_at two_accounts (js "abandon about") 2.
Proof.
  split; try (by repeat split).
  intros i Hi. assert (i = 0 ∨ i = 1)%Z as [-> | ->] by lia; eexists; (split; [reflexivity|]);
    split; vm_compute; reflexivity.
Qed.

Lemma derive_stellar_key_total_witness :
  ((0 <= 1 < 2147483648)%Z → ∃ key, deriveStellarKey (W := scripted) [1%N] 1 = Some key ∧ length key = 32) ∧
  ((2147483648 <= 1)%Z → deriveStellarKey (W := scripted) [1%N] 1 = None).
Proof. apply (derive_stellar_key_total (W := scripted) [1%N] 1). Defined.

Lemma create_then_restore_witness : ∃ g w' a v',
  createNewWallet 12 empty = (Ok g, w') ∧ wallet_at w' (gw_mnemonic g) 1 ∧
  restoreWalletFromMnemonic (gw_mnemonic g) empty = (Ok a, v') ∧ wallet_at v' (gw_mnemonic g) 1 ∧
  gw_accounts g = [a] ∧ slot_of v' (SSecret 0) = slot_of w' (SSecret 0).
Proof. apply (create_then_restore 12 empty empty); reflexivity. Defined.

Lemma add_account_preserves_witness : ∃ a w',
  addAccount two_accounts = (Ok a, w') ∧ wa_accountIndex a = 2%Z ∧
  wallet_at w' (js "abandon about") 3 ∧ slot_of w' (SPublic 2) = Some (wa_publicKey a).
Proof. apply (add_account_preserves two_accounts (js "abandon about") 2); [apply two_accounts_ok|lia]. Defined.

Lemma list_accounts_complete_witness : ∃ l w',
  listAccounts two_accounts = (Ok l, w') ∧ wallet_at w' (js "abandon about") 2 ∧
  Forall2 (λ i a, wa_accountIndex a = i ∧ ∃ kp, deriveKeypairFromMnemonic (js "abandon about") i = Ok kp ∧
                  wa_publicKey a = kp_publicKey kp) (Z.of_nat <$> seq 0 (Z.to_nat 2)) l.
Proof. apply (list_accounts_complete two_accounts), two_accounts_ok. Defined.

Lemma delete_wallet_erases_witness : ∃ w',
  deleteWallet two_accounts = (Ok tt, w') ∧ slot_of w' SMnemonic = None ∧ slot_of w' SCount = None ∧
  ∀ i, (0 <= i < 2)%Z → slot_of w' (SSecret i) = None ∧ slot_of w' (SPublic i) = None.
Proof. apply (delete_wallet_erases two_accounts (js "abandon about")), two_accounts_ok. Defined.

Lemma restore_then_delete_leaves_secret_witness : ∃ a w1 w2 kp,
  restoreWalletFromMnemonic (js "zoo zoo") two_accounts = (Ok a, w1) ∧ deleteWallet w1 = (Ok tt, w2) ∧
  deriveKeypairFromMnemonic (js "abandon about") 1 = Ok kp ∧ slot_of w2 (SSecret 1) = Some (kp_secret kp).
Proof.
  apply (restore_then_delete_leaves_secret two_accounts (js "abandon about") 2 (js "zoo zoo"));
    [apply two_accounts_ok|lia|reflexivity|reflexivity|discriminate].
Defined.
End Runs.
