(* ===== verification/Sep0007.v ===== *)
(** * SEP-0007 payment links

    Model of [mobileapp/src/utils/sep0007.ts]: recognition of Stellar destinations, the
    parsers of [web+stellar:] and [zaps://] links, the builder of pay links and the
    classification of scanned text. The WHATWG [URL] parser is the parameter [UrlParser]. *)

From S2P Require Import Prelude JsString JsNumber UriCodec Effects Decode.

(** [new URL(s).searchParams] as decoded pairs; [None] when the constructor throws. *)
Class UrlParser := url_search_params : str → option (list (str * str)).

(** [searchParams.get(k)] *)
Definition search_get (k : str) (ps : list (str * str)) : option str :=
  snd <$> find (λ p, str_eqb k p.1) ps.

(** ** Types *)

Inductive MemoType := MemoText | MemoId | MemoHash | MemoReturn.

#[export] Instance MemoType_eq_dec : EqDecision MemoType.
Proof. solve_decision. Defined.

Definition memo_text (m : MemoType) : str :=
  match m with
  | MemoText => js "text" | MemoId => js "id" | MemoHash => js "hash" | MemoReturn => js "return"
  end.

Definition memo_of_text (s : str) : option MemoType :=
  find (λ m, str_eqb s (memo_text m)) [MemoText; MemoId; MemoHash; MemoReturn].
Arguments memo_of_text : simpl never.

Record Sep0007PaymentParams := MkPay {
  pp_destination : str;
  pp_amount : option str;
  pp_asset_code : option str;
  pp_asset_issuer : option str;
  pp_memo : option str;
  pp_memo_type : option MemoType;
  pp_callback : option str;
  pp_msg : option str;
  pp_network_passphrase : option str;
  pp_origin_domain : option str;
  pp_signature : option str;
}.

Record Sep0007TxParams := MkTx {
  tp_xdr : str;
  tp_callback : option str;
  tp_pubkey : option str;
  tp_msg : option str;
  tp_network_passphrase : option str;
  tp_origin_domain : option str;
  tp_signature : option str;
}.

Inductive ParseResult :=
  | ValidPay (p : Sep0007PaymentParams)
  | ValidTx (p : Sep0007TxParams)
  | ParseError (error : str).

(** ** Destinations *)

Definition base32_unit (c : N) : bool := is_upper c || ((50 <=? c) && (c <=? 55))%N.

(** [/^G[A-Z2-7]{55}$/] *)
Definition isStellarAddress (address : str) : bool :=
  match address with
  | 71%N :: rest => (length rest =? 55)%nat && forallb base32_unit rest
  | _ => false
  end.

(** [/^[^*]+\*[^*]+\.[^*]+$/]: one star, something before it, and an inner dot after it. *)
Definition isFederatedAddress (address : str) : bool :=
  match split_on 42 address with
  | [user; domain] => truthy user && existsb (N.eqb 46) (removelast (tail domain))
  | _ => false
  end.

Definition isValidStellarDestination (destination : str) : bool :=
  isStellarAddress destination || isFederatedAddress destination.

(** [parseFloat] gives a number that is not negative. *)
Definition amount_ok (amount : str) : bool :=
  let parsed := parseFloat amount in
  negb (is_nan parsed || num_ltb parsed (Fin 0 0)).

Definition quoted (prefix s : str) : str := prefix ++ [34%N] ++ s ++ [34%N].

(** [...(v && { k: v })] *)
Definition given (o : option str) : option str := if truthy_opt o then o else None.

(** ** Parsing *)

Definition isZapsPayUri (uri : str) : bool :=
  if truthy uri then
    starts_with (js "zaps://pay?") (trim uri) || starts_with (js "zaps://pay/") (trim uri)
  else false.

Definition or_str (o o' : option str) : option str := if truthy_opt o then o else o'.

(** Once the search parameters are read. *)
Definition zaps_result (ps : list (str * str)) : ParseResult :=
  match given (or_str (search_get (js "address") ps) (search_get (js "destination") ps)) with
  | None => ParseError (js "Missing required field: address")
  | Some destination =>
      if negb (isValidStellarDestination destination) then
        ParseError (quoted (js "Invalid Stellar destination address: ") destination)
      else
        let amount := search_get (js "amount") ps in
        if negb (match amount with Some a => amount_ok a | None => true end) then
          ParseError (quoted (js "Invalid amount: ") (default [] amount))
        else
          ValidPay (MkPay destination amount
            (given (search_get (js "asset_code") ps)) (given (search_get (js "asset_issuer") ps))
            (given (search_get (js "memo") ps)) None None
            (given (search_get (js "msg") ps)) None
            (given (search_get (js "origin_domain") ps)) None)
  end.

Definition parseZapsPayUri `{UrlParser} (uri : str) : ParseResult :=
  if negb (truthy uri) then ParseError (js "Empty or invalid URI")
  else
    let trimmed := trim uri in
    if negb (starts_with (js "zaps://") trimmed) then
      ParseError (js "Not a Zaps pay URI (missing zaps:// scheme)")
    else
      let withoutScheme := drop 7 trimmed in
      match url_search_params (js "https://placeholder/" ++ withoutScheme) with
      | None => ParseError (js "Malformed zaps URI")
      | Some ps => zaps_result ps
      end.

(** The assignments [rawParams[key] = value] in order; a malformed escape throws. *)
Fixpoint raw_params (pairs : list str) : option (list (str * str)) :=
  match pairs with
  | [] => Some []
  | part :: parts' =>
      match index_of (js "=") part with
      | None => raw_params parts'
      | Some eqIdx =>
          key ← decodeURIComponent (take eqIdx part);
          value ← decodeURIComponent (drop (eqIdx + 1) part);
          rest ← raw_params parts';
          Some ((key, value) :: rest)
      end
  end.

(** [rawParams[k]]: the last assignment wins. *)
Definition raw_get (k : str) (raw : list (str * str)) : option str := search_get k (rev raw).

Definition pay_result (raw : list (str * str)) : ParseResult :=
  match given (raw_get (js "destination") raw) with
  | None => ParseError (js "Missing required field: destination")
  | Some destination =>
      if negb (isValidStellarDestination destination) then
        ParseError (quoted (js "Invalid Stellar destination address: ") destination)
      else
        let amount := raw_get (js "amount") raw in
        if negb (match amount with Some a => amount_ok a | None => true end) then
          ParseError (quoted (js "Invalid amount: ") (default [] amount))
        else
          let finish (memo_type : option MemoType) :=
            ValidPay (MkPay destination amount
              (given (raw_get (js "asset_code") raw)) (given (raw_get (js "asset_issuer") raw))
              (given (raw_get (js "memo") raw)) memo_type
              (given (raw_get (js "callback") raw)) (given (raw_get (js "msg") raw))
              (given (raw_get (js "network_passphrase") raw))
              (given (raw_get (js "origin_domain") raw)) (given (raw_get (js "signature") raw))) in
          match raw_get (js "memo_type") raw with
          | None => finish None
          | Some t =>
              match memo_of_text t with
              | Some m => finish (Some m)
              | None => ParseError (quoted (js "Invalid memo_type: ") t)
              end
          end
  end.

Definition tx_result (raw : list (str * str)) : ParseResult :=
  match given (raw_get (js "xdr") raw) with
  | None => ParseError (js "Missing required field: xdr")
  | Some xdr =>
      ValidTx (MkTx xdr
        (given (raw_get (js "callback") raw)) (given (raw_get (js "pubkey") raw))
        (given (raw_get (js "msg") raw)) (given (raw_get (js "network_passphrase") raw))
        (given (raw_get (js "origin_domain") raw)) (given (raw_get (js "signature") raw)))
  end.

Definition parseSep0007Uri `{UrlParser} (uri : str) : res ParseResult :=
  if negb (truthy uri) then Ok (ParseError (js "Empty or invalid URI"))
  else if starts_with (js "zaps://") (trim uri) then Ok (parseZapsPayUri uri)
  else
    let trimmed := trim uri in
    if negb (starts_with (js "web+stellar:") trimmed) then
      Ok (ParseError (js "Not a SEP-0007 URI (missing web+stellar: scheme)"))
    else
      let withoutScheme := drop 12 trimmed in
      let '(operation, queryPart) :=
        match index_of (js "?") withoutScheme with
        | None => (withoutScheme, [])
        | Some i => (take i withoutScheme, drop (i + 1) withoutScheme)
        end in
      let is_pay := str_eqb operation (js "pay") in
      if negb (is_pay || str_eqb operation (js "tx")) then
        Ok (ParseError (quoted (js "Unsupported SEP-0007 operation: ") operation
              ++ js ". Expected " ++ quoted [] (js "pay") ++ js " or " ++ quoted [] (js "tx") ++ js "."))
      else
        match (if truthy queryPart then raw_params (split_on 38 queryPart) else Some []) with
        | None => Throw uri_error
        | Some raw => Ok (if is_pay then pay_result raw else tx_result raw)
        end.

(** ** Building *)

(** [Object.entries(params)] *)
Definition pay_entries (p : Sep0007PaymentParams) : list (str * option str) :=
  [(js "destination", Some (pp_destination p)); (js "amount", pp_amount p);
   (js "asset_code", pp_asset_code p); (js "asset_issuer", pp_asset_issuer p);
   (js "memo", pp_memo p); (js "memo_type", memo_text <$> pp_memo_type p);
   (js "callback", pp_callback p); (js "msg", pp_msg p);
   (js "network_passphrase", pp_network_passphrase p);
   (js "origin_domain", pp_origin_domain p); (js "signature", pp_signature p)].

Fixpoint pay_parts (entries : list (str * option str)) : option (list str) :=
  match entries with
  | [] => Some []
  | (key, Some value) :: entries' =>
      if truthy value then
        k ← encodeURIComponent key;
        v ← encodeURIComponent value;
        rest ← pay_parts entries';
        Some ((k ++ js "=" ++ v) :: rest)
      else pay_parts entries'
  | (_, None) :: entries' => pay_parts entries'
  end.

(** [None]: the [URIError] of a lone surrogate. *)
Definition buildSep0007PayUri (params : Sep0007PaymentParams) : option str :=
  parts ← pay_parts (pay_entries params);
  Some (js "web+stellar:pay?" ++ join (js "&") parts).

(** ** Classification *)

Inductive QrContentType := QrSep0007 | QrZapsPay | QrStellarAddress | QrUnknown.

Definition detectQrContentType (content : str) : QrContentType :=
  if negb (truthy content) then QrUnknown
  else if starts_with (js "web+stellar:") content then QrSep0007
  else if isZapsPayUri content then QrZapsPay
  else if isValidStellarDestination (trim content) then QrStellarAddress
  else QrUnknown.

(** ** Properties *)

(** What the parsers accept. *)
Definition accepted (r : ParseResult) : Prop :=
  match r with
  | ValidPay p =>
      isValidStellarDestination (pp_destination p) = true ∧
      ∀ a, pp_amount p = Some a → ∃ x, parseFloat a = x ∧ is_nan x = false ∧ num_ltb x (Fin 0 0) = false
  | ValidTx p => tp_xdr p ≠ []
  | ParseError _ => True
  end.

Lemma amount_ok_spec a : amount_ok a = true →
  ∃ x, parseFloat a = x ∧ is_nan x = false ∧ num_ltb x (Fin 0 0) = false.
Proof.
  unfold amount_ok. intros E. exists (parseFloat a). split; [done|].
  apply negb_true_iff, orb_false_iff in E. exact E.
Qed.

Lemma given_some o s : given o = Some s → o = Some s ∧ s ≠ [].
Proof. unfold given. destruct o as [[|c t]|]; cbn; naive_solver. Qed.

Lemma zaps_accepted `{UrlParser} uri : accepted (parseZapsPayUri uri).
Proof.
  unfold parseZapsPayUri. cbn zeta. destruct (truthy uri); [|exact I]. cbn [negb].
  destruct (starts_with _ _); [|exact I]. cbn [negb].
  destruct (url_search_params _) as [ps|]; [|exact I]. unfold zaps_result. destruct (given _) as [dest|]; [|exact I].
  destruct (isValidStellarDestination dest) eqn:D; [|exact I]. cbn [negb].
  destruct (search_get (js "amount") ps) as [a|]; cbn [default].
  - destruct (amount_ok a) eqn:A; [|exact I]. split; [done|]. intros ? [= <-]. by apply amount_ok_spec.
  - by split.
Qed.

Lemma pay_accepted raw : accepted (pay_result raw).
Proof.
  unfold pay_result. cbn zeta. destruct (given _) as [dest|]; [|exact I].
  destruct (isValidStellarDestination dest) eqn:D; [|exact I]. cbn [negb].
  assert (Hfin : ∀ f : option MemoType → ParseResult, (∀ m, accepted (f m)) →
    accepted match raw_get (js "memo_type") raw with
             | None => f None
             | Some t => match memo_of_text t with
                         | Some m => f (Some m)
                         | None => ParseError (quoted (js "Invalid memo_type: ") t)
                         end
             end) by (intros f Hf; repeat case_match; done).
  destruct (raw_get (js "amount") raw) as [a|].
  - destruct (amount_ok a) eqn:A; [|exact I]. cbn [negb]. refine (Hfin (λ m, ValidPay _) _).
    intros m. split; [done|]. intros ? [= <-]. by apply amount_ok_spec.
  - cbn [negb]. refine (Hfin (λ m, ValidPay _) _). by intros m.
Qed.

Lemma tx_accepted raw : accepted (tx_result raw).
Proof.
  unfold tx_result. destruct (given _) as [xdr|] eqn:E; [|exact I].
  cbn. by apply given_some in E as [_ ?].
Qed.

Lemma parse_accepted `{UrlParser} uri r : parseSep0007Uri uri = Ok r → accepted r.
Proof.
  unfold parseSep0007Uri. destruct (truthy uri); cbn [negb]; [|by intros [= <-]].
  destruct (starts_with (js "zaps://") (trim uri)).
  { intros [= <-]. apply zaps_accepted. }
  destruct (starts_with (js "web+stellar:") (trim uri)); cbn [negb]; [|by intros [= <-]].
  destruct (match index_of _ _ with None => _ | Some i => _ end) as [op query].
  destruct (str_eqb op (js "pay") || str_eqb op (js "tx")); cbn [negb]; [|by intros [= <-]].
  destruct (if truthy query then _ else _) as [raw|]; [|done].
  intros [= <-]. destruct (str_eqb op (js "pay")); [apply pay_accepted|apply tx_accepted].
Qed.

(** whichever scheme a link uses, what the parser accepts is usable: a payment has a
    well-formed Stellar or federated destination and, if it has an amount, one that reads as a
    number that is not negative; a transaction has a non-empty envelope. *)
Theorem parse_sound `{UrlParser} uri r : parseSep0007Uri uri = Ok r → accepted r.
Proof. apply parse_accepted. Qed.

(** *** Round trip *)

(** Parameters the builder and the parser agree on: every optional text present is not
    empty, and the texts are well-formed UTF-16. *)
Definition text_ok (s : str) : Prop := s ≠ [] ∧ wf_str s ∧ is_Some (encodeURIComponent s).
Definition opt_ok (o : option str) : Prop := from_option text_ok True o.

Lemma text_ok_check s :
  truthy s && forallb (λ c, c <? 65536)%N s
    && match encodeURIComponent s with Some _ => true | None => false end = true → text_ok s.
Proof.
  rewrite !andb_true_iff. intros [[Ht Hw] He]. split; [by apply truthy_true|]. split.
  - apply Forall_forall. intros c Hc. rewrite forallb_forall in Hw.
    apply N.ltb_lt, Hw. by apply list_elem_of_In.
  - destruct (encodeURIComponent s); [by eexists|done].
Qed.

Record pay_ok (p : Sep0007PaymentParams) : Prop := PayOk {
  ok_destination : isValidStellarDestination (pp_destination p) = true;
  ok_amount : from_option (λ a, amount_ok a = true) True (pp_amount p);
  ok_texts : Forall (λ e, opt_ok e.2) (pay_entries p);
}.

(** The pairs that are written. *)
Definition written (es : list (str * option str)) : list (str * str) :=
  omap (λ e, pair e.1 <$> e.2) es.

Definition plain_key (k : str) : Prop :=
  encodeURIComponent k = Some k ∧ decodeURIComponent k = Some k ∧ forallb uri_safe k = true.

Lemma safe_free c s : uri_safe c = false → forallb uri_safe s = true → c ∉ s.
Proof.
  intros Hc Hs Hin. rewrite forallb_forall in Hs. apply list_elem_of_In in Hin. by rewrite Hs in Hc.
Qed.

Lemma safe_not_ws c : uri_safe c = true → is_ws c = false.
Proof.
  unfold uri_safe, uri_unreserved, is_alpha, is_upper, is_lower, is_digit, is_ws. cbn [existsb].
  intros Hs. apply not_true_iff_false. intros Hw.
  rewrite ?orb_true_iff, ?andb_true_iff, ?N.leb_le, ?N.eqb_eq in *. lia.
Qed.

(** Text made of parts: safe units, equals signs and ampersands. *)
Definition query_unit (c : N) : bool := uri_safe c || (c =? 61)%N || (c =? 38)%N.

Lemma query_unit_not_ws c : query_unit c = true → is_ws c = false.
Proof.
  unfold query_unit. intros [[Hq|Hq]%orb_true_iff|Hq]%orb_true_iff; [by apply safe_not_ws| |]; by apply N.eqb_eq in Hq as ->.
Qed.

Lemma index_of_sep c s t : c ∉ s → index_of [c] (s ++ c :: t) = Some (length s).
Proof.
  induction s as [|a s IH]; cbn; [by rewrite N.eqb_refl|].
  intros [Ha Hs]%not_elem_of_cons. destruct (N.eqb_spec c a); [congruence|]. cbn. by rewrite IH.
Qed.

Lemma pay_parts_spec es :
  Forall (λ e, plain_key e.1 ∧ opt_ok e.2) es →
  ∃ parts, pay_parts es = Some parts ∧ raw_params parts = Some (written es) ∧
    Forall (λ s, 38%N ∉ s) parts ∧ Forall (λ s, forallb query_unit s = true) parts ∧
    (written es ≠ [] → parts ≠ []).
Proof.
  induction 1 as [|[k [v|]] es [(Ek & Dk & Sk) Hv] _ IH]; cbn [pay_parts].
  - by exists [].
  - destruct IH as (parts & -> & Er & F1 & F2 & Hne). destruct Hv as (Hv & Wf & (ev & Ev)).
    cbn [fst snd] in *. rewrite (proj2 (truthy_true v) Hv), Ek, Ev. cbn [mbind option_bind].
    pose proof (encode_safe (S (length v)) v ev ltac:(lia) Wf Ev) as Sv.
    change (js "=" ++ ev) with (61%N :: ev).
    eexists. split; [done|]. split; [|split; [|split; [|done]]].
    + cbn [raw_params]. change (js "=") with [61%N].
      rewrite index_of_sep by (by apply safe_free). rewrite take_app_length, Dk. cbn [mbind option_bind].
      rewrite drop_app_add. change (drop 1 (61%N :: ev)) with ev.
      rewrite (decode_encode v ev Wf Ev), Er. reflexivity.
    + constructor; [|done]. rewrite elem_of_app, elem_of_cons.
      intros [Hin|[Hin|Hin]]; [by apply (safe_free 38 k) in Hin|discriminate Hin|by apply (safe_free 38 ev) in Hin].
    + constructor; [|done]. rewrite forallb_app. cbn [forallb].
      assert (Hq : ∀ t, forallb uri_safe t = true → forallb query_unit t = true).
      { intros t. rewrite !forallb_forall. intros Ht x Hx. unfold query_unit. by rewrite Ht. }
      by rewrite !Hq.
  - destruct IH as (parts & -> & Er & F1 & F2 & Hne). by exists parts.
Qed.

(** What an object of entries holds at a key. *)
Fixpoint entry_get (k : str) (es : list (str * option str)) : option str :=
  match es with
  | [] => None
  | e :: es' => if str_eqb k e.1 then e.2 else entry_get k es'
  end.

Lemma search_get_app k l1 l2 :
  search_get k (l1 ++ l2) = match search_get k l1 with Some v => Some v | None => search_get k l2 end.
Proof.
  unfold search_get. induction l1 as [|[k' v] l1 IH]; cbn; [done|]. by destruct (str_eqb k k').
Qed.

Lemma raw_get_notin k es : k ∉ es.*1 → raw_get k (written es) = None.
Proof.
  unfold raw_get. induction es as [|[k' [v|]] es IH]; [done|..]; intros [Hne Hk]%not_elem_of_cons.
  - change (written ((k', Some v) :: es)) with ((k', v) :: written es). cbn [rev].
    rewrite search_get_app, IH by done. unfold search_get. cbn.
    by rewrite (proj2 (str_eqb_false k k') Hne).
  - by apply IH.
Qed.

Lemma raw_get_written k es : NoDup (es.*1) → raw_get k (written es) = entry_get k es.
Proof.
  unfold raw_get. induction es as [|[k' o] es IH]; [done|]. intros [Hk Hnd]%NoDup_cons.
  cbn [entry_get fst snd]. specialize (IH Hnd). destruct o as [v|].
  - change (written ((k', Some v) :: es)) with ((k', v) :: written es). cbn [rev].
    rewrite search_get_app. destruct (str_eqb k k') eqn:E.
    + apply str_eqb_true in E as ->. pose proof (raw_get_notin k' es Hk) as Hn. unfold raw_get in Hn.
      rewrite Hn. unfold search_get. cbn. by rewrite str_eqb_refl.
    + rewrite IH. destruct (entry_get k es); [done|]. unfold search_get. cbn. by rewrite E.
  - change (written ((k', None) :: es)) with (written es). rewrite IH.
    destruct (str_eqb k k') eqn:E; [|done]. apply str_eqb_true in E as ->.
    rewrite <-IH. apply (raw_get_notin k' es Hk).
Qed.

Lemma given_ok o : opt_ok o → given o = o.
Proof. destruct o as [s|]; [|done]. intros [Hs _]. unfold given. cbn. by destruct s. Qed.

Lemma memo_round_trip m : memo_of_text (memo_text m) = Some m.
Proof. by destruct m. Qed.

Ltac read_entries :=
  repeat match goal with
  | |- context [raw_get ?k (written ?es)] =>
      let o := eval lazy -[memo_text] in (entry_get k es) in
      let E := fresh in
      assert (E : raw_get k (written es) = o)
        by (rewrite raw_get_written by solve_keys; lazy -[memo_text]; reflexivity);
      generalize dependent (raw_get k (written es)); intros ? ->
  end.

Lemma pay_result_entries p : pay_ok p → pay_result (written (pay_entries p)) = ValidPay p.
Proof.
  destruct p as [d am ac ai me mt cb ms np od sg]. intros [Hd Ha Ht]. unfold pay_entries in *.
  cbn [pp_destination pp_amount pp_asset_code pp_asset_issuer pp_memo pp_memo_type pp_callback
    pp_msg pp_network_passphrase pp_origin_domain pp_signature] in *.
  rewrite !Forall_cons in Ht. cbn [snd] in Ht.
  destruct Ht as (H1 & H2 & H3 & H4 & H5 & _ & H7 & H8 & H9 & H10 & H11 & _).
  unfold pay_result. read_entries. rewrite !given_ok by done.
  cbn zeta. rewrite Hd. cbn [negb].
  assert (match am with Some a => amount_ok a | None => true end = true) as -> by by destruct am.
  cbn [negb]. destruct mt as [m|]; [|done]. by rewrite memo_round_trip.
Qed.

Lemma parse_pay_query `{UrlParser} q : q ≠ [] → forallb query_unit q = true →
  parseSep0007Uri (js "web+stellar:pay?" ++ q) =
    match raw_params (split_on 38 q) with
    | None => Throw uri_error
    | Some raw => Ok (pay_result raw)
    end.
Proof.
  intros Hne Hq. unfold parseSep0007Uri.
  rewrite (trim_id_forall (js "web+stellar:pay?" ++ q)).
  2:{ apply Forall_app. split; [by vm_compute; repeat constructor|].
      apply Forall_forall. intros c Hc. rewrite forallb_forall in Hq.
      apply query_unit_not_ws, Hq. by apply list_elem_of_In. }
  change (truthy (js "web+stellar:pay?" ++ q)) with true. cbn [negb].
  change (starts_with (js "zaps://") (js "web+stellar:pay?" ++ q)) with false.
  change (starts_with (js "web+stellar:") (js "web+stellar:pay?" ++ q)) with true. cbn [negb].
  change (drop 12 (js "web+stellar:pay?" ++ q)) with (js "pay?" ++ q). cbn zeta.
  change (index_of (js "?") (js "pay?" ++ q)) with (Some 3). cbn [Nat.add].
  change (take 3 (js "pay?" ++ q)) with (js "pay"). change (drop 4 (js "pay?" ++ q)) with q.
  rewrite str_eqb_refl. cbn [orb negb]. by rewrite (proj2 (truthy_true q) Hne).
Qed.

Lemma join_query parts : Forall (λ s, forallb query_unit s = true) parts →
  forallb query_unit (join [38%N] parts) = true.
Proof.
  induction 1 as [|s parts Hs _ IH]; [done|]. cbn [join]. destruct parts; [done|].
  rewrite !forallb_app, Hs. cbn [forallb]. by rewrite IH.
Qed.

Lemma pay_entries_plain p : Forall (λ e, opt_ok e.2) (pay_entries p) → Forall (λ e, plain_key e.1 ∧ opt_ok e.2) (pay_entries p).
Proof.
  intros Ht. unfold pay_entries in *. rewrite !Forall_cons in *. cbn [fst] in *.
  unfold plain_key. intuition; vm_compute; reflexivity.
Qed.

(** A link built from well-formed texts is read as the entries it was built from. *)
Lemma build_reads `{UrlParser} p : Forall (λ e, opt_ok e.2) (pay_entries p) →
  ∃ uri, buildSep0007PayUri p = Some uri ∧ parseSep0007Uri uri = Ok (pay_result (written (pay_entries p))) ∧
    detectQrContentType uri = QrSep0007.
Proof.
  intros Ht. destruct (pay_parts_spec (pay_entries p) (pay_entries_plain p Ht))
    as (parts & Ep & Er & F1 & F2 & Hne).
  unfold buildSep0007PayUri. rewrite Ep. cbn [mbind option_bind].
  assert (Hparts : parts ≠ []) by by apply Hne.
  eexists. split; [done|]. change (js "&") with [38%N]. split.
  - rewrite parse_pay_query.
    + rewrite split_join by done. by rewrite Er.
    + intros Ej. pose proof (split_join 38 parts Hparts F1) as E. rewrite Ej in E. cbn in E. subst parts.
      cbn in Er. injection Er as Er. by destruct p.
    + by apply join_query.
  - reflexivity.
Qed.

Lemma build_parses `{UrlParser} p : pay_ok p →
  ∃ uri, buildSep0007PayUri p = Some uri ∧ parseSep0007Uri uri = Ok (ValidPay p) ∧
    detectQrContentType uri = QrSep0007.
Proof. intros Hp. rewrite <-(pay_result_entries p Hp). by apply build_reads, Hp. Qed.

(** C16: for well-formed parameters the builder succeeds and the parser reads back exactly
    the parameters that were built, whatever the texts contain; the scanner classifies the
    built link as SEP-0007. *)
Theorem parse_build_round_trip `{UrlParser} p : pay_ok p →
  ∃ uri, buildSep0007PayUri p = Some uri ∧ parseSep0007Uri uri = Ok (ValidPay p) ∧
    detectQrContentType uri = QrSep0007.
Proof. apply build_parses. Qed.

(** a malformed percent escape in a query makes the parser throw instead of answering
    its typed error. *)
Theorem parse_throws_on_bad_escape `{UrlParser} :
  parseSep0007Uri (js "web+stellar:pay?destination=%zz") = Throw uri_error.
Proof. vm_compute. reflexivity. Qed.

(** Text after the number is accepted as an amount. *)
Lemma amount_with_text `{UrlParser} : amount_ok (js "12abc") = true.
Proof. vm_compute. reflexivity. Qed.

(** ** Concrete runs *)

Module Runs.
#[local] Instance no_urls : UrlParser := λ _, None.

Definition dest : str := js "GBBD47IF6LWK7P7MDEVSCWR7DPUWV3NY3DTQEVFL4NAT4AQH3ZLLFLA5".

Definition pay : Sep0007PaymentParams :=
  MkPay dest (Some (js "12.5")) (Some (js "USDC")) None (Some (js "rent & food = 100%"))
    (Some MemoText) None None None None None.

Lemma pay_is_ok : pay_ok pay.
Proof.
  split; [vm_compute; reflexivity|vm_compute; reflexivity|].
  unfold pay_entries, pay. cbn [pp_destination pp_amount pp_asset_code pp_asset_issuer pp_memo
    pp_memo_type pp_callback pp_msg pp_network_passphrase pp_origin_domain pp_signature].
  repeat (apply Forall_cons; split); [..|apply Forall_nil; exact I]; cbn [snd opt_ok from_option fmap option_fmap option_map];
    try exact I; apply text_ok_check; vm_compute; reflexivity.
Qed.

(** A link that is pasted with a leading blank parses but is not recognised by the scanner. *)
Example blank_not_detected :
  (∃ p, parseSep0007Uri (js " web+stellar:pay?destination=" ++ dest) = Ok (ValidPay p)) ∧
  detectQrContentType (js " web+stellar:pay?destination=" ++ dest) = QrUnknown.
Proof. split; [eexists|]; vm_compute; reflexivity. Qed.

Lemma parse_sound_witness : accepted (ValidPay (MkPay dest None None None None None None None None None None)).
Proof. apply (parse_sound (js "web+stellar:pay?destination=" ++ dest)). vm_compute. reflexivity. Defined.

Lemma parse_build_round_trip_witness : ∃ uri, buildSep0007PayUri pay = Some uri ∧
  parseSep0007Uri uri = Ok (ValidPay pay) ∧ detectQrContentType uri = QrSep0007.
Proof. apply (parse_build_round_trip pay), pay_is_ok. Defined.
End Runs.
