(* ===== verification/SdpDeepLink.v ===== *)
(** * Disbursement links

    Model of [mobileapp/src/utils/sdpDeepLink.ts] (claim invitations) and
    [mobileapp/utils/sdpDeepLink.ts] (pay links with token and amount). The URL readers
    of expo-linking and of the platform are parameters. *)

From S2P Require Import Prelude JsString JsNumber UriCodec Effects Decode Scripts Sep0007.

(** A value of [queryParams]. *)
Inductive query_value := QText (s : str) | QList (l : list str).

Record ParsedURL := MkParsedURL {
  pu_hostname : option str;
  pu_path : option str;
  pu_queryParams : list (str * query_value);
}.

(** [Linking.parse]; [None] when it throws. *)
Class LinkParser := link_parse : str → option ParsedURL.

Inductive SdpClaimParseResult := ClaimToken (token : str) | ClaimError (error : str).

Definition CLAIM_PATH_SEGMENT : str := js "claim".
Definition TOKEN_PARAM_NAMES : list str := [js "token"; js "sdp_token"; js "claim_token"].

Definition token_unit (c : N) : bool :=
  is_alpha c || is_digit c || existsb (N.eqb c) [46; 95; 45]%N.

(** [/^[A-Za-z0-9._-]{6,256}$/] *)
Definition isValidSdpToken (token : str) : bool :=
  (6 <=? length token)%nat && (length token <=? 256)%nat && forallb token_unit token.

Definition query_get (k : str) (q : list (str * query_value)) : option query_value :=
  snd <$> find (λ p, str_eqb k p.1) q.

(** The loop over [TOKEN_PARAM_NAMES], up to its [break]. *)
Fixpoint query_token (names : list str) (q : list (str * query_value)) : option str :=
  match names with
  | [] => None
  | name :: names' =>
      match query_get name q with
      | Some (QText (c :: s)) => Some (c :: s)
      | Some (QList (s :: _)) => Some s
      | _ => query_token names' q
      end
  end.

Section Claim.
Context `{UC : UnicodeCase, LinkParser}.

Definition path_segments (path : option str) : list str :=
  List.filter truthy (map trim (split_on 47 (default [] path))).

Definition is_claim (segment : option str) : bool :=
  match segment with Some s => str_eqb (to_lower s) CLAIM_PATH_SEGMENT | None => false end.

Definition path_token (hostname : str) (pathSegments : list str) : option str :=
  if str_eqb hostname CLAIM_PATH_SEGMENT then pathSegments !! 0
  else if is_claim (pathSegments !! 0) then pathSegments !! 1 else None.

(** The [URIError] of the final decoding is not caught. *)
Definition parseSdpClaimUrl (url : option str) : res SdpClaimParseResult :=
  match given url with
  | None => Ok (ClaimError (js "Empty or invalid URL"))
  | Some url =>
      match link_parse url with
      | None => Ok (ClaimError (js "Could not parse URL"))
      | Some parsed =>
          let pathSegments := path_segments (pu_path parsed) in
          let hostname := to_lower (default [] (pu_hostname parsed)) in
          if negb (str_eqb hostname CLAIM_PATH_SEGMENT || is_claim (pathSegments !! 0)) then
            Ok (ClaimError (js "Not an SDP claim link"))
          else
            match given (or_str (query_token TOKEN_PARAM_NAMES (pu_queryParams parsed))
                                (path_token hostname pathSegments)) with
            | None => Ok (ClaimError (js "Missing claim token in URL"))
            | Some token =>
                match decodeURIComponent token with
                | None => Throw uri_error
                | Some decoded =>
                    if isValidSdpToken decoded then Ok (ClaimToken decoded)
                    else Ok (ClaimError (js "Malformed claim token"))
                end
            end
      end
  end.
End Claim.

(** ** Pay links *)

Record SdpDeepLinkParams := MkDeepLink { dl_token : str; dl_amount : num }.

(** [null] is [None]; everything is inside one [try]. *)
Definition parseSdpDeepLink `{UrlParser} (url : str) : option SdpDeepLinkParams :=
  if negb (truthy url) then None
  else
    let urlString := trim url in
    if negb (includes (js "?") urlString) then None
    else
      ps ← url_search_params urlString;
      token ← given (search_get (js "token") ps);
      amountRaw ← given (search_get (js "amount") ps);
      let amount := Number amountRaw in
      if is_nan amount || num_leb amount (Fin 0 0) then None
      else Some (MkDeepLink token amount).

(** ** Properties *)

Lemma token_unit_plain c : token_unit c = true → (c =? 37)%N = false.
Proof.
  unfold token_unit, is_alpha, is_upper, is_lower, is_digit. cbn [existsb]. intros Hc.
  apply not_true_iff_false. intros E%N.eqb_eq. subst c. discriminate Hc.
Qed.

Lemma decode_plain fuel s :
  length s < fuel → forallb (λ c, negb (c =? 37)%N) s = true → decode_fuel fuel s = Some s.
Proof.
  revert s. induction fuel as [|fuel IH]; intros s Hf Hs; [lia|].
  destruct s as [|c s]; [done|]. cbn in Hs. apply andb_true_iff in Hs as [Hc Hs].
  cbn [decode_fuel]. apply negb_true_iff in Hc. rewrite Hc. rewrite IH; [done|cbn in Hf; lia|done].
Qed.

Lemma decode_token s : isValidSdpToken s = true → decodeURIComponent s = Some s.
Proof.
  intros Hs. apply decode_plain; [lia|]. apply andb_true_iff in Hs as [_ Hs].
  rewrite forallb_forall in *. intros c Hc. by rewrite (token_unit_plain c (Hs c Hc)).
Qed.

#[local] Arguments decodeURIComponent : simpl never.
#[local] Arguments isValidSdpToken : simpl never.

Section ClaimSpec.
Context `{UC : UnicodeCase, LinkParser}.

(** a claim token the parser hands on always has the allow-listed format (6 to 256
    letters, digits, dots, dashes and underscores); and a link whose parsed form carries a
    well-formed token, as the [token] parameter of a claim host, as the path of a claim host or as
    the segment after [/claim], is accepted with exactly that token. *)
Theorem claim_links :
  (∀ url token, parseSdpClaimUrl url = Ok (ClaimToken token) → isValidSdpToken token = true) ∧
  ∀ url parsed token,
    url ≠ [] → link_parse url = Some parsed → isValidSdpToken token = true →
    (pu_hostname parsed = Some (js "claim") ∧
       (pu_queryParams parsed = [(js "token", QText token)] ∨
        pu_queryParams parsed = [] ∧ path_segments (pu_path parsed) = [token]) ∨
     to_lower (default [] (pu_hostname parsed)) ≠ js "claim" ∧ pu_queryParams parsed = [] ∧
       path_segments (pu_path parsed) = [js "claim"; token]) →
    parseSdpClaimUrl (Some url) = Ok (ClaimToken token).
Proof.
  split.
  - intros url token. unfold parseSdpClaimUrl. destruct (given url) as [u|]; [|done].
    destruct (link_parse u) as [parsed|]; [|done]. destruct (negb _); [done|].
    destruct (given _) as [t|]; [|done]. destruct (decodeURIComponent t) as [d|]; [|done].
    destruct (isValidSdpToken d) eqn:V; [|done]. by intros [= <-].
  - intros url parsed token Hu Ep Ht Hform. unfold parseSdpClaimUrl, given. cbn [truthy_opt].
    rewrite (proj2 (truthy_true url) Hu), Ep. cbn zeta.
    assert (Hne : truthy token = true) by by destruct token.
    assert (Hlow : to_lower (js "claim") = js "claim") by (vm_compute; reflexivity).
    assert (Hq : query_token TOKEN_PARAM_NAMES [(js "token", QText token)] = Some token) by by destruct token.
    destruct Hform as [(Eh & [Eq|[Eq Es]])|(Eh & Eq & Es)].
    + rewrite Eh, Eq, Hq. cbn [from_option id]. rewrite Hlow, str_eqb_refl. cbn [orb negb or_str truthy_opt].
      unfold or_str. cbn [truthy_opt]. rewrite !Hne. cbn [truthy_opt]. rewrite ?Hne. by rewrite decode_token, Ht.
    + rewrite Eh, Eq, Es. cbn [from_option id]. rewrite Hlow, str_eqb_refl. cbn [orb negb].
      unfold or_str, path_token. rewrite str_eqb_refl. cbn. rewrite Hne. by rewrite decode_token, Ht.
    + rewrite Eq, Es. cbn [lookup list_lookup is_claim]. rewrite Hlow, str_eqb_refl, orb_true_r. cbn [negb].
      unfold or_str, path_token. rewrite (proj2 (str_eqb_false _ CLAIM_PATH_SEGMENT) Eh). cbn [lookup list_lookup is_claim].
      rewrite Hlow, str_eqb_refl. cbn. rewrite Hne. by rewrite decode_token, Ht.
Qed.
End ClaimSpec.

(** a pay link is answered with a non-empty token and a number above zero, or not at
    all. *)
Theorem deep_link_sound `{UrlParser} url p :
  parseSdpDeepLink url = Some p →
  dl_token p ≠ [] ∧ is_nan (dl_amount p) = false ∧ num_ltb (Fin 0 0) (dl_amount p) = true.
Proof.
  unfold parseSdpDeepLink. destruct (truthy url); [|done]. cbn [negb].
  destruct (includes _ _); [|done]. cbn [negb]. destruct (url_search_params _) as [ps|]; [|done].
  cbn [mbind option_bind]. destruct (given (search_get (js "token") ps)) as [t|] eqn:Et; [|done].
  cbn [mbind option_bind]. destruct (given (search_get (js "amount") ps)) as [a|]; [|done].
  cbn [mbind option_bind]. apply given_some in Et as [_ Ht].
  destruct (is_nan (Number a) || num_leb (Number a) (Fin 0 0)) eqn:E; [done|].
  apply orb_false_iff in E as [E1 E2]. intros [= <-]. cbn. split; [done|]. split; [done|].
  destruct (Number a) as [|[]|m e]; try done. cbn in *. lia.
Qed.

(** ** Concrete runs *)

Module Runs.
#[local] Existing Instance ascii_case.

(** Readers that know one link each. *)
#[local] Instance demo_links : LinkParser := λ _,
  Some (MkParsedURL (Some (js "zaps.app")) (Some (js "/claim/abc-123_X")) []).
#[local] Instance demo_urls : UrlParser := λ _, Some [(js "token", js "abc"); (js "amount", js "Infinity")].

(** [Number] accepts the text [Infinity] as an amount. *)
Example infinite_amount :
  parseSdpDeepLink (js "zaps://sdp/pay?token=abc&amount=Infinity") = Some (MkDeepLink (js "abc") (Inf false)).
Proof. vm_compute. reflexivity. Qed.

Lemma claim_links_witness :
  parseSdpClaimUrl (Some (js "https://zaps.app/claim/abc-123_X")) = Ok (ClaimToken (js "abc-123_X")).
Proof.
  apply (proj2 claim_links (js "https://zaps.app/claim/abc-123_X")
           (MkParsedURL (Some (js "zaps.app")) (Some (js "/claim/abc-123_X")) []));
    [discriminate|reflexivity|vm_compute; reflexivity|].
  right. split; [vm_compute; discriminate|]. split; [reflexivity|]. vm_compute. reflexivity.
Defined.

Lemma deep_link_sound_witness :
  js "abc" ≠ [] ∧ is_nan (Inf false) = false ∧ num_ltb (Fin 0 0) (Inf false) = true.
Proof.
  apply (deep_link_sound (js "zaps://sdp/pay?token=abc&amount=Infinity") (MkDeepLink (js "abc") (Inf false))).
  vm_compute. reflexivity.
Defined.
End Runs.
