(* ===== verification/Notifications.v ===== *)
(** * Push notifications

    Model of [mobileapp/src/services/notificationService.ts]: the stored preference,
    push token and dismissed prompt, the permission request, the registration of the
    device with the backend, and the routing of a tapped notification. The Expo modules
    are a parameter. *)

From S2P Require Import Prelude JsString JsNumber UriCodec JsDate Json Effects Decode Scripts OfflineQueue TransactionService MobileApi.

Definition NOTIFICATION_PREFERENCE_KEY : str := js "zaps_notifications_enabled".
Definition PUSH_TOKEN_KEY : str := js "zaps_push_token".
Definition NOTIFICATION_PROMPT_DISMISSED_KEY : str := js "zaps_notifications_prompt_dismissed".

(** [process.env.EXPO_PUBLIC_API_URL || "https://api.zaps.app"] *)
Definition API_BASE `{ApiEnv} : str :=
  match EXPO_PUBLIC_API_URL with
  | Some u => if truthy u then u else js "https://api.zaps.app"
  | None => js "https://api.zaps.app"
  end.

Definition NOTIFICATION_CATEGORIES_TRANSACTION : str := js "TRANSACTION".

(** An action button of a category. *)
Record category_action := CategoryAction {
  ca_identifier : str; ca_buttonTitle : str; ca_opensApp : bool }.

Definition transaction_actions : list category_action :=
  [CategoryAction (js "VIEW_TRANSACTION") (js "View") true;
   CategoryAction (js "DISMISS") (js "Dismiss") false;
   CategoryAction (js "MARK_READ") (js "Mark Read") false].

(** Answer of the permission calls; statuses are texts, [None] is [undefined]. *)
Record permission := Permission {
  pm_granted : bool; pm_status : str; pm_ios_status : option str }.

(** expo-notifications, expo-constants and react-native, as the service uses them. *)
Class ExpoNotifications (W : Type) := {
  platform_os : str;
  isDevice : bool;
  manifest_slug : option str;
  expoConfig_slug : option str;
  STATUS_GRANTED : str;
  STATUS_UNDETERMINED : str;
  STATUS_PROVISIONAL : option str;
  setNotificationCategory : str → list category_action → M W unit;
  getPermissions : M W permission;
  requestPermissions : M W permission;
  getExpoPushToken : M W str;
  openURL : str → M W unit;
}.

Section Service.
Context `{Host W, E : !ExpoNotifications W, ApiEnv}.
Abbreviation os := (platform_os (W := W)).
Abbreviation device := (isDevice (W := W)).

Definition initNotificationCategoriesAsync : M W unit :=
  if str_eqb os (js "web") then mret tt
  else swallow (setNotificationCategory NOTIFICATION_CATEGORIES_TRANSACTION transaction_actions).

Definition getStoredNotificationPreference : M W bool :=
  try_catch
    (raw ← st_get AsyncStorage NOTIFICATION_PREFERENCE_KEY;
     mret (negb (bool_decide (raw = Some (js "false")))))
    (λ _, mret true).

Definition saveNotificationPreference (value : bool) : M W unit :=
  swallow (st_set AsyncStorage NOTIFICATION_PREFERENCE_KEY (if value then js "true" else js "false")).

Definition getStoredPushToken : M W (option str) :=
  try_catch (st_get AsyncStorage PUSH_TOKEN_KEY) (λ _, mret None).

Definition removeStoredPushToken : M W unit := swallow (st_del AsyncStorage PUSH_TOKEN_KEY).

Definition getHasDismissedNotificationPrompt : M W bool :=
  try_catch
    (raw ← st_get AsyncStorage NOTIFICATION_PROMPT_DISMISSED_KEY;
     mret (bool_decide (raw = Some (js "true"))))
    (λ _, mret false).

Definition markNotificationPromptDismissed : M W unit :=
  swallow (st_set AsyncStorage NOTIFICATION_PROMPT_DISMISSED_KEY (js "true")).

Definition shouldShowNotificationConsentPrompt : M W bool :=
  if str_eqb os (js "web") || negb device then mret false
  else
    try_catch
      (current ← getPermissions;
       dismissed ← getHasDismissedNotificationPrompt;
       mret (str_eqb (pm_status current) (STATUS_UNDETERMINED (W := W)) && negb dismissed))
      (λ _, mret false).

(** The first non-empty text, or the last. *)
Definition slug : str :=
  match manifest_slug (W := W) with
  | Some s => if truthy s then s else
      match expoConfig_slug (W := W) with Some c => if truthy c then c else js "ZAPS" | None => js "ZAPS" end
  | None => match expoConfig_slug (W := W) with Some c => if truthy c then c else js "ZAPS" | None => js "ZAPS" end
  end.

Definition register_init (token : str) : request_init :=
  RequestInit (Some (js "POST")) []
    (Some (stringify (literal [present (js "token") (JStr token); present (js "platform") (JStr os);
                               present (js "appId") (JStr slug)]))).

Definition sendDeviceTokenToBackend (token : str) : M (api_state * W) bool :=
  if negb (truthy token) then mret false
  else
    try_catch
      (response ← apiFetch (API_BASE ++ js "/api/notifications/register") (register_init token);
       mret (rs_ok response))
      (λ _, mret false).

(** [current.granted || current.ios?.status === PROVISIONAL] *)
Definition already_decided (current : permission) : bool :=
  pm_granted current || bool_decide (pm_ios_status current = STATUS_PROVISIONAL (W := W)).

Definition requestNotificationPermissionsAsync : M W str :=
  try_catch
    (current ← getPermissions;
     if already_decided current then mret (pm_status current)
     else permission ← requestPermissions; mret (pm_status permission))
    (λ _, mret (STATUS_UNDETERMINED (W := W))).

(** The token is stored, then posted. *)
Definition store_and_send_token : M (api_state * W) (option str) :=
  try_catch
    (token ← host getExpoPushToken;
     if negb (truthy token) then mret None
     else
       host (st_set AsyncStorage PUSH_TOKEN_KEY token);;
       sendDeviceTokenToBackend token;;
       mret (Some token))
    (λ _, mret None).

Definition registerForPushNotificationsAsync (requestIfUndetermined : bool)
    : M (api_state * W) (option str) :=
  if negb device then mret None
  else
    status ← host (if requestIfUndetermined then requestNotificationPermissionsAsync
                   else current ← getPermissions; mret (pm_status current));
    if negb (str_eqb status (STATUS_GRANTED (W := W))) then mret None
    else store_and_send_token.
End Service.

(** ** A tapped notification *)

(** A property at type [string]. *)
Definition text_prop (k : str) (data : json) : option str := json_str (json_get k data).
Definition target_is (t : str) (data : json) : bool :=
  match text_prop (js "target") data with Some s => str_eqb s t | None => false end.

Definition non_empty (o : option str) : option str := if truthy_opt o then o else None.

Definition getNotificationDeepLink (data : option json) : option str :=
  if negb (json_truthy data) then None else
  let d := default JNull data in
  match non_empty (text_prop (js "url") d) with
  | Some url => Some url
  | None =>
      match (if target_is (js "transaction") d then text_prop (js "transactionId") d else None) with
      | Some id => Some (js "/transaction/" ++ id)
      | None =>
          match (if target_is (js "payment") d then text_prop (js "paymentId") d else None) with
          | Some id => Some (js "/transaction/" ++ id)
          | None =>
              if target_is (js "merchantPayment") d then Some (js "/merchant/payment-received")
              else if target_is (js "home") d then Some (js "/(personal)/home")
              else None
          end
      end
  end.

Section Tap.
Context `{Host W, E : !ExpoNotifications W}.

(** [router.push(path)]: the paths pushed so far are the module state. *)
Definition router_push (path : str) : M (list str * W) unit := modify_state (λ pushed, pushed ++ [path]).

Definition handleNotificationResponse (data : option json) : M (list str * W) unit :=
  swallow
    (match getNotificationDeepLink data with
     | Some deepLink => router_push deepLink
     | None =>
         let url := data ≫= text_prop (js "url") in
         if match url with Some u => starts_with (js "http") u | None => false end
         then host (openURL (default [] url))
         else
           match data ≫= text_prop (js "transactionId") with
           | Some id => router_push (js "/transaction/" ++ id)
           | None => router_push (js "/(personal)/home")
           end
     end).
End Tap.

(** ** Properties *)

(** The deep link of a payload with a non-empty [url] is that [url]. *)
Lemma deep_link_url d url : text_prop (js "url") d = Some url → url ≠ [] →
  getNotificationDeepLink (Some d) = Some url.
Proof.
  intros E Hu. unfold getNotificationDeepLink.
  assert (T : json_truthy (Some d) = true) by (destruct d; done).
  rewrite T. cbn [negb]. change (default JNull (Some d)) with d. rewrite E.
  unfold non_empty. cbn [truthy_opt]. by apply truthy_true in Hu as ->.
Qed.

Lemma starts_http_nonempty u : starts_with (js "http") u = true → u ≠ [].
Proof. by intros H ->. Qed.

(** Where a tap leads. *)
Definition tap_route (data : option json) : str :=
  match getNotificationDeepLink data with
  | Some link => link
  | None =>
      match data ≫= text_prop (js "transactionId") with
      | Some id => js "/transaction/" ++ id
      | None => js "/(personal)/home"
      end
  end.

(** every tapped notification, whatever its payload, pushes exactly one route and ends
    without an error; a payload with a web address pushes that address as a route as
    well, so that no notification ever opens it in the browser. *)
Theorem tap_pushes_one_route `{Host W, !ExpoNotifications W} data pushed (w : W) :
  handleNotificationResponse data (pushed, w) = (Ok tt, (pushed ++ [tap_route data], w)) ∧
  (∀ d url, data = Some d → text_prop (js "url") d = Some url → starts_with (js "http") url = true →
     tap_route data = url).
Proof.
  split.
  - unfold handleNotificationResponse, tap_route, swallow, try_catch.
    destruct (getNotificationDeepLink data) as [link|] eqn:El; [done|].
    destruct data as [d|]; cbn [mbind option_bind]; [|done].
    destruct (text_prop (js "url") d) as [url|] eqn:Eu.
    + destruct (starts_with (js "http") url) eqn:Es.
      * exfalso. by rewrite (deep_link_url d url Eu (starts_http_nonempty url Es)) in El.
      * by destruct (text_prop (js "transactionId") d).
    + by destruct (text_prop (js "transactionId") d).
  - intros d url -> Eu Es. unfold tap_route. by rewrite (deep_link_url d url Eu (starts_http_nonempty url Es)).
Qed.

(** What the Expo modules may do: nothing observable here, and they may reject. *)
Definition inert `{Host W} {A} (m : M W A) : Prop := ∀ w, kept w (m w).2.

Class ExpoLaws (W : Type) `{Host W, !ExpoNotifications W} := {
  getPermissions_inert : inert getPermissions;
  requestPermissions_inert : inert requestPermissions;
  getExpoPushToken_inert : inert getExpoPushToken;
}.

Section Register.
Context `{HostLaws W, !ExpoNotifications W, !ExpoLaws W, ApiEnv}.
Implicit Types (w : W) (s : api_state).

Lemma request_permissions_run w : ∃ status w',
  requestNotificationPermissionsAsync w = (Ok status, w') ∧ kept w w'.
Proof.
  unfold requestNotificationPermissionsAsync, try_catch. rewrite run_bind.
  pose proof (getPermissions_inert w) as K. destruct (getPermissions w) as [[current|e] w1]; cbn in K; [|eauto].
  destruct (already_decided current); [by eexists _, w1|].
  rewrite run_bind. pose proof (requestPermissions_inert w1) as K2.
  destruct (requestPermissions w1) as [[p|e] w2]; cbn in K2; eexists _, w2; split; try done; by etransitivity.
Qed.

Definition push_token w : option str := st_peek w AsyncStorage PUSH_TOKEN_KEY.

(** A registration that answered [token]: stored, and posted exactly once with the session. *)
Definition registered w w' (token : str) : Prop :=
  token ≠ [] ∧ push_token w' = Some token ∧
  ∃ r, net_trace w' = net_trace w ++
    [(api_request (token_of w) (API_BASE ++ js "/api/notifications/register") (register_init token), r)].

(** The entries of the store as they were, but for the token. *)
Definition but_token w w' : Prop :=
  st_live w' ∧ ∀ k, k ≠ PUSH_TOKEN_KEY → st_peek w' AsyncStorage k = st_peek w AsyncStorage k.

Lemma but_token_kept w w' : st_live w → kept w w' → but_token w w'.
Proof. intros L K. split; [by apply (kept_live _ _ K)|]. intros k _. apply (kept_peek _ _ K). Qed.

Lemma but_token_trans w w1 w2 : but_token w w1 → but_token w1 w2 → but_token w w2.
Proof. intros [_ P1] [L P2]. split; [done|]. intros k Hk. by rewrite P2, P1. Qed.

Lemma preference_run w : st_live w → ∃ w',
  getStoredNotificationPreference w =
    (Ok (negb (bool_decide (st_peek w AsyncStorage NOTIFICATION_PREFERENCE_KEY = Some (js "false")))), w') ∧ kept w w'.
Proof.
  intros L. unfold getStoredNotificationPreference, try_catch.
  destruct (get_live AsyncStorage NOTIFICATION_PREFERENCE_KEY w L) as (w' & E1 & K).
  rewrite (run_bind_ok _ _ _ _ _ E1). by exists w'.
Qed.

Lemma backend_run token s w : st_live w → token ≠ [] → ∃ b s' w' r,
  sendDeviceTokenToBackend token (s, w) = (Ok b, (s', w')) ∧
  st_live w' ∧ (∀ k, st_peek w' AsyncStorage k = st_peek w AsyncStorage k) ∧
  net_trace w' = net_trace w ++
    [(api_request (token_of w) (API_BASE ++ js "/api/notifications/register") (register_init token), r)].
Proof.
  intros L Ht. unfold sendDeviceTokenToBackend. apply truthy_true in Ht as ->. cbn [negb].
  destruct (apiFetch_run (API_BASE ++ js "/api/notifications/register") (register_init token) s w L)
    as (r & s' & w' & E & F & T & L').
  assert (P : ∀ k, st_peek w' AsyncStorage k = st_peek w AsyncStorage k).
  { intros k. destruct r as [res|e]; cbn in F; [destruct (rs_status res =? 401)%Z|].
    - destruct F as (w1 & Pw & [_ _ Po _ _] & _). rewrite Po by congruence. apply Pw.
    - apply F.
    - apply F. }
  unfold try_catch. destruct r as [res|e].
  - eexists _, s', w', (Ok res). by rewrite (run_bind_ok _ _ _ _ _ E).
  - eexists _, s', w', (Throw e). by rewrite (run_bind_throw _ _ _ _ _ E).
Qed.

(** Once the permission is granted: nothing, or the token is stored and posted. *)
Definition registration w w' (out : option str) : Prop :=
  match out with
  | Some token => registered w w' token
  | None => push_token w' = push_token w ∧ net_trace w' = net_trace w
  end.

Lemma store_and_send_settles s w w1 : st_live w → kept w w1 → ∃ out s' w',
  store_and_send_token (s, w1) = (Ok out, (s', w')) ∧ registration w w' out ∧ but_token w w'.
Proof.
  intros L K1. unfold store_and_send_token, registration, try_catch.
  pose proof (getExpoPushToken_inert w1) as K2.
  destruct (getExpoPushToken w1) as [[token|e] w2] eqn:E2; cbn in K2; assert (K : kept w w2) by by etransitivity.
  2:{ rewrite (run_bind_throw _ _ _ _ _ (run_host _ s _ _ _ E2)). eexists None, s, w2. split; [done|]. split; [split; apply K|by apply but_token_kept]. }
  rewrite (run_bind_ok _ _ _ _ _ (run_host _ s _ _ _ E2)).
  destruct (truthy token) eqn:Ht; cbn [negb]; [|eexists None, s, w2; split; [done|]; split; [split; apply K|by apply but_token_kept]].
  apply truthy_true in Ht. assert (L2 : st_live w2) by by apply K.
  destruct (set_live AsyncStorage PUSH_TOKEN_KEY token w2 L2) as (w3 & E3 & [e3 n3 t3 l3]).
  rewrite (run_bind_ok _ _ _ _ _ (run_host _ s _ _ _ E3)).
  destruct (backend_run token s w3 (l3 L2) Ht) as (b & s' & w4 & r & E4 & L4 & P4 & T4).
  rewrite (run_bind_ok _ _ _ _ _ E4). eexists (Some token), s', w4. split; [done|]. split.
  - split; [done|]. split; [unfold push_token; by rewrite P4|]. exists r. rewrite T4, t3, (kept_trace _ _ K).
    unfold token_of. by rewrite n3, (kept_peek _ _ K) by (vm_compute; congruence).
  - split; [done|]. intros k Hk. by rewrite P4, n3, (kept_peek _ _ K) by congruence.
Qed.

Lemma store_and_send_run s w w1 : st_live w → kept w w1 → ∃ out s' w',
  store_and_send_token (s, w1) = (Ok out, (s', w')) ∧ registration w w' out.
Proof. intros L K. destruct (store_and_send_settles s w w1 L K) as (out & s' & w' & E & R & _). by exists out, s', w'. Qed.

Lemma register_settles s w : st_live w → ∃ out s' w',
  registerForPushNotificationsAsync true (s, w) = (Ok out, (s', w')) ∧ registration w w' out ∧ but_token w w'.
Proof.
  intros L. unfold registerForPushNotificationsAsync. destruct (isDevice (W := W)); cbn [negb].
  2:{ exists None, s, w. split; [done|]. split; [by split|by apply but_token_kept]. }
  destruct (request_permissions_run w) as (status & w1 & E1 & K1). rewrite (run_bind_ok _ _ _ _ _ (run_host _ s _ _ _ E1)).
  destruct (str_eqb status _); cbn [negb]; [by apply store_and_send_settles|].
  exists None, s, w1. split; [done|]. split; [split; apply K1|by apply but_token_kept].
Qed.

(** registering the device with the permission dialog allowed never rejects: it
    answers a token only on a physical device with the permission granted, and then the
    token is in the store and was posted once to the backend under the current session,
    whether or not the backend took it; otherwise nothing is stored and nothing is sent. *)
Theorem register_outcome s w : st_live w → ∃ out s' w',
  registerForPushNotificationsAsync true (s, w) = (Ok out, (s', w')) ∧
  match out with
  | Some token => isDevice (W := W) = true ∧ registered w w' token
  | None => push_token w' = push_token w ∧ net_trace w' = net_trace w
  end.
Proof.
  intros L. unfold registerForPushNotificationsAsync.
  destruct (isDevice (W := W)) eqn:Ed; cbn [negb]; [|by eexists None, s, w].
  destruct (request_permissions_run w) as (status & w1 & E1 & K1).
  rewrite (run_bind_ok _ _ _ _ _ (run_host _ s _ _ _ E1)).
  destruct (str_eqb status _); cbn [negb].
  2:{ eexists None, s, w1. split; [done|]. split; [apply K1|apply K1]. }
  destruct (store_and_send_run s w w1 L K1) as (out & s' & w' & -> & R). exists out, s', w'. split; [done|]. by destruct out.
Qed.

End Register.

(** ** Concrete runs *)

Module Runs.
#[local] Instance demo_env : ApiEnv := None.
#[local] Instance demo_expo : ExpoNotifications scripted := {|
  platform_os := js "ios"; isDevice := true; manifest_slug := None; expoConfig_slug := Some (js "zaps");
  STATUS_GRANTED := js "granted"; STATUS_UNDETERMINED := js "undetermined"; STATUS_PROVISIONAL := Some (js "provisional");
  setNotificationCategory _ _ := mret tt;
  getPermissions := mret (Permission false (js "undetermined") None);
  requestPermissions := mret (Permission true (js "granted") None);
  getExpoPushToken := mret (js "ExponentPushToken[x]");
  openURL _ := mret tt |}.
#[local] Instance demo_laws : ExpoLaws scripted.
Proof. by split. Qed.

Definition demo_world : scripted := world [(SecureStore, SESSION_TOKEN_KEY, js "s")] [reply 200 (js "{}")].

Example demo_register :
  let '(r, (_, w)) := registerForPushNotificationsAsync true (MobileApi.ApiState false 0, demo_world) in
  r = Ok (Some (js "ExponentPushToken[x]")) ∧ push_token w = Some (js "ExponentPushToken[x]") ∧
  length (net_trace w) = 1.
Proof. vm_compute. by repeat split. Qed.

(** The silent refresh of an undecided permission asks nobody. *)
Example demo_silent :
  (registerForPushNotificationsAsync false (MobileApi.ApiState false 0, demo_world)).1 = Ok None.
Proof. vm_compute. reflexivity. Qed.

Example demo_tap :
  tap_route (Some (JObj [(js "target", JStr (js "payment")); (js "paymentId", JStr (js "7"))])) = js "/transaction/7" ∧
  tap_route None = js "/(personal)/home".
Proof. vm_compute. by split. Qed.

Lemma register_outcome_witness : ∃ out s' w',
  registerForPushNotificationsAsync true (MobileApi.ApiState false 0, demo_world) = (Ok out, (s', w')) ∧
  match out with
  | Some token => isDevice (W := scripted) = true ∧ registered demo_world w' token
  | None => push_token w' = push_token demo_world ∧ net_trace w' = net_trace demo_world
  end.
Proof. apply (register_outcome (MobileApi.ApiState false 0) demo_world). reflexivity. Defined.
End Runs.
