(* ===== verification/Retry.v ===== *)
(** * Retry with back-off

    Model of [mobileapp/src/utils/retry.ts]: [retryWithBackoff] around any operation,
    [fetchWithRetry] and [safeAsyncCall]. The waits and the toasts are recorded beside the host
    world. *)

From S2P Require Import Prelude JsString JsNumber JsDate Effects Scripts.

Record RetryOptions := MkRetry {
  ro_maxRetries : option Z;
  ro_baseDelay : option Z;
  ro_maxDelay : option Z;
  ro_backoffFactor : option Z;
}.

Inductive toast := ToastWarning (attempt : nat) | ToastSuccess (m : str) | ToastError (m : str).

(** The waits made and the toasts shown, in order. *)
Record ui_log := UiLog { waits : list num; toasts : list toast }.

Definition add_wait (d : num) (l : ui_log) : ui_log := UiLog (waits l ++ [d]) (toasts l).
Definition add_toast (t : toast) (l : ui_log) : ui_log := UiLog (waits l) (toasts l ++ [t]).

(** [Math.min(baseDelay * Math.pow(backoffFactor, attempt), maxDelay)] *)
Definition retry_delay (baseDelay maxDelay backoffFactor : Z) (attempt : nat) : num :=
  num_min (num_mul (num_of_Z baseDelay) (num_pow_Z backoffFactor attempt)) (num_of_Z maxDelay).

Section Retry.
Context {W A : Type}.
Abbreviation ui := (M (ui_log * W)).

(** The loop from [attempt] with [left] retries still allowed. *)
Fixpoint retry_loop (delay : nat → num) (onRetry : nat → ui unit) (fn : ui A)
    (left attempt : nat) : ui A :=
  try_catch fn (λ error,
    match left with
    | O => throw error
    | S left' =>
        onRetry (attempt + 1);;
        modify_state (add_wait (delay attempt));;
        retry_loop delay onRetry fn left' (attempt + 1)
    end).

(** [throw undefined] after a loop that never ran (negative [maxRetries]). *)
Definition thrown_undefined : js_error := new_error (js "undefined").

Definition retryWithBackoff (fn : ui A) (options : RetryOptions) (onRetry : nat → ui unit) : ui A :=
  let maxRetries := default 3%Z (ro_maxRetries options) in
  let delay := retry_delay (default 1000%Z (ro_baseDelay options)) (default 10000%Z (ro_maxDelay options))
                 (default 2%Z (ro_backoffFactor options)) in
  if (maxRetries <? 0)%Z then throw thrown_undefined
  else retry_loop delay onRetry fn (Z.to_nat maxRetries) 0.

(** [safeAsyncCall] with the toast host present. *)
Definition safeAsyncCall (fn : ui A) (successMessage : option str) (errorMessage : option str)
    (retryOptions : option RetryOptions) : ui (option A) :=
  try_catch
    (result ← match retryOptions with
              | Some o => retryWithBackoff fn o (λ _, mret tt)
              | None => fn
              end;
     match successMessage with
     | Some m => if truthy m then modify_state (add_toast (ToastSuccess m)) else mret tt
     | None => mret tt
     end;;
     mret (Some result))
    (λ _,
      modify_state (add_toast (ToastError
        (default (js "Something went wrong. Please try again.") errorMessage)));;
      mret None).
End Retry.

Definition http_error (r : response) : js_error :=
  new_error (js "HTTP " ++ Z_to_str (rs_status r) ++ js ": " ++ rs_statusText r).

(** [{ ...defaults, ...retryOptions }] *)
Definition or_option {A} (o : option A) (d : A) : option A := Some (default d o).

Section FetchRetry.
Context `{Host W}.

Definition fetch_once (rq : request) : M (ui_log * W) response :=
  response ← host (fetch rq);
  if rs_ok response then mret response else throw (http_error response).

Definition retry_request (url method : str) (headers : list (str * str)) (body : option str) : request :=
  Request url method (spread_headers [content_type_json] headers) body.

Definition fetchWithRetry (rq : request) (retryOptions : RetryOptions) : M (ui_log * W) response :=
  retryWithBackoff
    (fetch_once (retry_request (rq_url rq) (rq_method rq) (rq_headers rq) (rq_body rq)))
    (MkRetry (or_option (ro_maxRetries retryOptions) 3%Z) (or_option (ro_baseDelay retryOptions) 1000%Z)
       (or_option (ro_maxDelay retryOptions) 5000%Z) (ro_backoffFactor retryOptions))
    (λ attempt, modify_state (add_toast (ToastWarning attempt))).
End FetchRetry.

(** ** Properties *)

Section RetrySpec.
Context {W A : Type}.

(** What the operation, the notification and the wait respect, the loop respects. *)
Lemma retry_loop_frame (R : relation (ui_log * W)) `{!PreOrder R} delay (onRetry : nat → M (ui_log * W) unit) (fn : M (ui_log * W) A) :
  (∀ lw, R lw (fn lw).2) → (∀ k lw, R lw (onRetry k lw).2) → (∀ d lw, R lw (add_wait d lw.1, lw.2)) →
  ∀ left attempt lw, R lw (retry_loop delay onRetry fn left attempt lw).2.
Proof.
  intros Hf Ho Hw left. induction left as [|left IH]; intros attempt lw; specialize (Hf lw); cbn [retry_loop]; unfold try_catch;
    destruct (fn lw) as [[a|e] lw1]; cbn in Hf |- *; try exact Hf.
  specialize (Ho (attempt + 1) lw1). rewrite run_bind. destruct (onRetry (attempt + 1) lw1) as [[[]|e2] lw2]; cbn in Ho |- *; [|by etrans].
  etrans; [exact Hf|]. etrans; [exact Ho|]. etrans; [apply Hw|apply IH].
Qed.

(** [k] runs of [fn] starting at attempt [i] all reject; each is followed by the retry
    notification and the wait of its attempt. *)
Inductive failed_runs (delay : nat → num) (onRetry : nat → M (ui_log * W) unit) (fn : M (ui_log * W) A) :
    nat → nat → ui_log * W → ui_log * W → Prop :=
  | failed_0 i sw : failed_runs delay onRetry fn i 0 sw sw
  | failed_S i k e l w l' w' l2 w2 sw3 :
      fn (l, w) = (Throw e, (l', w')) →
      onRetry (i + 1) (l', w') = (Ok tt, (l2, w2)) →
      failed_runs delay onRetry fn (i + 1) k (add_wait (delay i) l2, w2) sw3 →
      failed_runs delay onRetry fn i (S k) (l, w) sw3.

Lemma retry_loop_spec delay onRetry (fn : M (ui_log * W) A) n :
  (∀ i lw, ∃ lw', onRetry i lw = (Ok tt, lw')) →
  ∀ i lw, ∃ k lw1, k ≤ n ∧ failed_runs delay onRetry fn i k lw lw1 ∧
    retry_loop delay onRetry fn n i lw = fn lw1 ∧
    (k < n → ∃ a lw2, fn lw1 = (Ok a, lw2)).
Proof.
  intros Hr. induction n as [|n IH]; intros i [l w]; cbn [retry_loop]; unfold try_catch.
  - exists 0, (l, w). split; [lia|]. split; [constructor|]. split; [|lia].
    by destruct (fn (l, w)) as [[] ?].
  - destruct (fn (l, w)) as [[a|e] [l' w']] eqn:E.
    + exists 0, (l, w). split; [lia|]. split; [constructor|]. split; [by rewrite E|].
      intros _. by rewrite E; eexists _, _.
    + destruct (Hr (i + 1) (l', w')) as ([l2 w2] & E2).
      rewrite (run_bind_ok _ _ _ _ _ E2), (run_bind_ok _ _ _ _ _ (run_modify_state _ _ _)).
      destruct (IH (i + 1) (add_wait (delay i) l2, w2)) as (k & lw1 & Hk & F & E3 & Hok).
      exists (S k), lw1. split; [lia|]. split; [by eapply failed_S|]. split; [done|].
      intros Hlt. apply Hok. lia.
Qed.

(** retryWithBackoff runs the operation until it first succeeds, at most [maxRetries]
    retries after the first attempt; between two attempts it waits min(base * factor^k,
    max) for the k-th, and what it answers (value or rejection) is the outcome of the last
    run. *)
Theorem retry_first_success (fn : M (ui_log * W) A) options onRetry l w :
  (∀ i lw, ∃ lw', onRetry i lw = (Ok tt, lw')) →
  let maxRetries := default 3%Z (ro_maxRetries options) in
  (0 <= maxRetries)%Z →
  ∃ k lw1, k ≤ Z.to_nat maxRetries ∧
    failed_runs (retry_delay (default 1000%Z (ro_baseDelay options)) (default 10000%Z (ro_maxDelay options))
                   (default 2%Z (ro_backoffFactor options))) onRetry fn 0 k (l, w) lw1 ∧
    retryWithBackoff fn options onRetry (l, w) = fn lw1 ∧
    (k < Z.to_nat maxRetries → ∃ a lw2, fn lw1 = (Ok a, lw2)).
Proof.
  intros Hr maxRetries Hm. unfold retryWithBackoff. fold maxRetries. cbn zeta.
  rewrite (proj2 (Z.ltb_ge _ _)) by done. by apply retry_loop_spec.
Qed.

(** A safe call never rejects. *)
Lemma safe_call_total (fn : M (ui_log * W) A) s e o lw : ∃ r lw', safeAsyncCall fn s e o lw = (Ok r, lw').
Proof.
  unfold safeAsyncCall, try_catch. case_match eqn:E. destruct r as [a|err]; by eexists _, _.
Qed.
End RetrySpec.

Section FetchRetrySpec.
Context `{HostLaws W}.

Lemma fetch_once_run rq l (w : W) : ∃ r w', fetch_once rq (l, w) =
    (match r with
     | Ok rs => if rs_ok rs then Ok rs else Throw (http_error rs)
     | Throw e => Throw e
     end, (l, w')) ∧ sent w w' rq r.
Proof.
  destruct (fetch_spec rq w) as (r & w' & E & S). exists r, w'. split; [|done].
  unfold fetch_once. destruct r as [rs|e].
  - rewrite (run_bind_ok _ _ _ _ _ (run_host _ l _ _ _ E)). by destruct (rs_ok rs).
  - by rewrite (run_bind_throw _ _ _ _ _ (run_host _ l _ _ _ E)).
Qed.

Definition refused (r : res response) : Prop :=
  match r with Ok rs => rs_ok rs = false | Throw _ => True end.

Lemma failed_fetches rq delay i k lw lw1 :
  failed_runs delay (λ attempt, modify_state (add_toast (ToastWarning attempt))) (fetch_once rq) i k lw lw1 →
  ∃ rs, length rs = k ∧ Forall refused rs ∧
    net_trace lw1.2 = net_trace lw.2 ++ (pair rq <$> rs) ∧
    waits lw1.1 = waits lw.1 ++ (delay <$> seq i k).
Proof.
  induction 1 as [i lw|i k e l w l' w' l2 w2 lw3 E1 E2 F IH].
  { exists []. cbn. by rewrite !app_nil_r. }
  destruct (fetch_once_run rq l w) as (r & w1 & E & S). rewrite E in E1. injection E1 as Er <- <-.
  injection E2 as <- <-. destruct IH as (rs & Hl & Hf & Ht & Hw). exists (r :: rs).
  split; [cbn; lia|]. split; [constructor; [|done]; destruct r as [x|]; [by destruct (rs_ok x) eqn:?|done]|].
  cbn in *. rewrite Ht, Hw, (sent_trace _ _ _ _ S), <-!app_assoc, Nat.add_1_r. done.
Qed.

Lemma fetchWithRetry_run rq options l (w : W) :
  let n := Z.to_nat (default 3%Z (ro_maxRetries options)) in
  let delay := retry_delay (default 1000%Z (ro_baseDelay options)) (default 5000%Z (ro_maxDelay options))
                 (default 2%Z (ro_backoffFactor options)) in
  let sentrq := retry_request (rq_url rq) (rq_method rq) (rq_headers rq) (rq_body rq) in
  (0 <= default 3 (ro_maxRetries options))%Z →
  ∃ rs last out lw', fetchWithRetry rq options (l, w) = (out, lw') ∧
    length rs ≤ n ∧ Forall refused rs ∧
    net_trace lw'.2 = net_trace w ++ (pair sentrq <$> (rs ++ [last])) ∧
    waits lw'.1 = waits l ++ (delay <$> seq 0 (length rs)) ∧
    (length rs < n → ¬ refused last) ∧
    (∀ r, out = Ok r → last = Ok r ∧ rs_ok r = true).
Proof.
  intros n delay sentrq Hm. unfold fetchWithRetry, retryWithBackoff. cbn [ro_maxRetries or_option from_option].
  change (default 3%Z (or_option (ro_maxRetries options) 3%Z)) with (default 3%Z (ro_maxRetries options)).
  rewrite (proj2 (Z.ltb_ge _ _)) by done. fold sentrq.
  destruct (retry_loop_spec delay (λ attempt, modify_state (add_toast (ToastWarning attempt)))
    (fetch_once sentrq) n) with (i := 0) (lw := (l, w)) as (k & [l1 w1] & Hk & F & E & Hok).
  { intros i lw. by eexists. }
  destruct (failed_fetches _ _ _ _ _ _ F) as (rs & Hl & Hf & Ht & Hw).
  destruct (fetch_once_run sentrq l1 w1) as (r & w2 & E2 & S2). cbn [fst snd] in *.
  exists rs, r. eexists _, (l1, w2). split; [rewrite <-E2; exact E|]. rewrite Hl. cbn [fst snd].
  split; [done|]. split; [done|]. split.
  { by rewrite (sent_trace _ _ _ _ S2), Ht, fmap_app, <-app_assoc. }
  split; [done|]. split.
  - intros Hlt. destruct (Hok Hlt) as (a & lw2 & E3). rewrite E2 in E3. destruct r as [x|]; [|done].
    cbn. by destruct (rs_ok x).
  - intros x Hx. destruct r as [y|]; [|done]. destruct (rs_ok y) eqn:Ey; [|done]. by simplify_eq.
Qed.

(** Any number of attempts leaves the stores as they were. *)
Lemma fetchWithRetry_stores rq options l (w : W) : stores_kept w (fetchWithRetry rq options (l, w)).2.2.
Proof.
  unfold fetchWithRetry, retryWithBackoff. destruct (_ <? 0)%Z; [done|].
  assert (PreOrder (λ x y : ui_log * W, stores_kept x.2 y.2)) by (split; [done|intros ???; apply transitivity]).
  refine (retry_loop_frame (λ x y : ui_log * W, stores_kept x.2 y.2) _ _ _ _ _ _ _ _ (l, w)); [|done|done].
  intros [l1 w1]. destruct (fetch_once_run (retry_request (rq_url rq) (rq_method rq) (rq_headers rq) (rq_body rq)) l1 w1) as (r & w2 & E & S).
  rewrite E. by destruct S.
Qed.

(** fetchWithRetry sends the same request again only after a rejection or an answer
    that is not 2xx, at most [maxRetries] times, waiting between attempts by the back-off schedule; a
    response it answers is always 2xx. *)
Theorem fetch_with_retry_bounded rq options l (w : W) :
  let n := Z.to_nat (default 3%Z (ro_maxRetries options)) in
  let delay := retry_delay (default 1000%Z (ro_baseDelay options)) (default 5000%Z (ro_maxDelay options))
                 (default 2%Z (ro_backoffFactor options)) in
  let sentrq := retry_request (rq_url rq) (rq_method rq) (rq_headers rq) (rq_body rq) in
  (0 <= default 3 (ro_maxRetries options))%Z →
  ∃ rs last out lw', fetchWithRetry rq options (l, w) = (out, lw') ∧
    length rs ≤ n ∧ Forall refused rs ∧
    net_trace lw'.2 = net_trace w ++ (pair sentrq <$> (rs ++ [last])) ∧
    waits lw'.1 = waits l ++ (delay <$> seq 0 (length rs)) ∧
    (length rs < n → ¬ refused last) ∧
    (∀ r, out = Ok r → last = Ok r ∧ rs_ok r = true).
Proof. apply fetchWithRetry_run. Qed.
End FetchRetrySpec.

(** ** Concrete runs *)

Module Runs.
Definition rq : request := Request (js "https://api.zaps.app/x") (js "GET") [] None.
Definition defaults : RetryOptions := MkRetry None None None None.
Definition w0 : scripted := world [] [reply 503 []; Throw sc_offline; reply 200 (js "ok")].

Example retry_demo : waits (fetchWithRetry rq defaults (UiLog [] [], w0)).2.1 = [Fin 1000 0; Fin 2000 0].
Proof. vm_compute. reflexivity. Qed.

Lemma retry_first_success_witness : ∃ k lw1, k ≤ 3 ∧
  failed_runs (retry_delay 1000 10000 2) (λ _, mret tt) (fetch_once rq) 0 k (UiLog [] [], w0) lw1 ∧
  retryWithBackoff (fetch_once rq) defaults (λ _, mret tt) (UiLog [] [], w0) = fetch_once rq lw1 ∧
  (k < 3 → ∃ a lw2, fetch_once rq lw1 = (Ok a, lw2)).
Proof.
  apply (retry_first_success (fetch_once rq) defaults (λ _, mret tt) (UiLog [] []) w0);
    [intros i lw; by eexists|vm_compute; discriminate].
Defined.

Lemma fetch_with_retry_bounded_witness : ∃ rs last out lw',
  fetchWithRetry rq defaults (UiLog [] [], w0) = (out, lw') ∧ length rs ≤ 3 ∧ Forall refused rs ∧
  net_trace lw'.2 = net_trace w0 ++
    (pair (retry_request (rq_url rq) (rq_method rq) (rq_headers rq) (rq_body rq)) <$> (rs ++ [last])) ∧
  waits lw'.1 = [] ++ (retry_delay 1000 5000 2 <$> seq 0 (length rs)) ∧
  (length rs < 3 → ¬ refused last) ∧ (∀ r, out = Ok r → last = Ok r ∧ rs_ok r = true).
Proof. apply (fetch_with_retry_bounded rq defaults (UiLog [] []) w0). vm_compute. discriminate. Defined.
End Runs.
