(* ===== verification/StellarWallet.v ===== *)
(** * Stellar wallet operations

    Model of [mobileapp/src/services/stellarWallet.ts]: the local key pair, the browser
    wallets, balances, the fee estimate, payments and the fee bump of a stuck
    transaction. The Stellar SDK and the browser wallets are parameters: an envelope is
    what the SDK makes of the parts the code hands to its builder. What a payment does on
    the network is the subject of StellarPayments. *)

From S2P Require Import Prelude JsString JsNumber UriCodec JsDate Json Effects Decode Scripts Retry.

(** [process.env] *)
Class StellarEnv := {
  EXPO_PUBLIC_API_URL : option str;
  EXPO_PUBLIC_STELLAR_NETWORK : option str;
  EXPO_PUBLIC_SOROBAN_RPC_URL : option str;
}.

(** [a || b] *)
Definition or_text (o : option str) (d : str) : str :=
  match o with Some s => if truthy s then s else d | None => d end.

(** What the code puts into a transaction builder. *)
Record tx_parts (account asset : Type) := TxParts {
  tp_source : account;
  tp_fee : str;
  tp_passphrase : str;
  tp_destination : str;
  tp_asset : asset;
  tp_amount : str;
  tp_memo : option str;
  tp_timeout : Z;
}.
Arguments TxParts {account asset}.
Arguments tp_asset {account asset}.

(** The Stellar SDK, with the Horizon server of the configured network. *)
Class StellarSdk (W : Type) := {
  keypair : Type;
  kp_publicKey : keypair → str;
  kp_secret : keypair → str;
  kp_fromSecret : str → res keypair;
  kp_random : M W keypair;
  PUBLIC_PASSPHRASE : str;
  TESTNET_PASSPHRASE : str;
  SDK_BASE_FEE : str;
  asset : Type;
  asset_native : asset;
  new_asset : str → str → res asset;
  account : Type;
  account_balances : account → list json;
  loadAccount : str → M W account;
  fetchBaseFee : M W num;
  build_payment : tx_parts account asset → res str;   (** [build().toXDR()] *)
  transaction : Type;
  parse_transaction : str → str → res transaction;    (** [new Transaction(xdr, passphrase)] *)
  (** [TransactionEnvelope.fromXDR(xdr, envelopeTypeTx)], then [new Transaction(envelope, passphrase)] *)
  decode_signed : str → str → res transaction;
  sign_transaction : transaction → keypair → transaction;
  transaction_xdr : transaction → str;
  fee_bump : Type;
  buildFeeBumpTransaction : str → str → transaction → str → res fee_bump;
  sign_fee_bump : fee_bump → keypair → fee_bump;
  fee_bump_xdr : fee_bump → str;
  read_envelope : str → str → res (transaction + fee_bump);
  submitTransaction : transaction + fee_bump → M W str;   (** the hash *)
}.

(** [window.freighter] and [window.Albedo]. *)
Class BrowserWallets (W : Type) := {
  freighter : option (M W str * (str → str → M W str));
  albedo : option (M W str * (str → str → M W str));
}.

Inductive wallet_source := SFreighter | SAlbedo | SLocal.

Record StellarWalletState := MkStellarWallet {
  sw_publicKey : str; sw_isConnected : bool; sw_source : option wallet_source }.

Definition KEY_STORAGE_KEY : str := js "stellar_keypair".

Section Config.
Context `{StellarEnv, StellarSdk W}.
Definition API_BASE : str := or_text EXPO_PUBLIC_API_URL (js "http://localhost:8080").
Definition STELLAR_NETWORK : str := or_text EXPO_PUBLIC_STELLAR_NETWORK (js "TESTNET").
Definition is_public : bool := str_eqb STELLAR_NETWORK (js "PUBLIC").
Definition networkPassphrase : str :=
  if is_public then PUBLIC_PASSPHRASE (W := W) else TESTNET_PASSPHRASE (W := W).
Definition sorobanRpcUrl : str :=
  or_text EXPO_PUBLIC_SOROBAN_RPC_URL
    (if is_public then js "https://soroban.stellar.org" else js "https://soroban-testnet.stellar.org").
End Config.

(** ** Numbers in simulation results *)

Definition fee_keys : list str :=
  [js "value"; js "amount"; js "fee"; js "feeCharged"; js "fee_charged"; js "minResourceFee";
   js "min_resource_fee"; js "cpuInsns"; js "cpu_insns"; js "memBytes"; js "mem_bytes"].

Definition finite_text (n : num) : option str := if is_finite n then Some (num_to_str n) else None.

Definition or_else {A} (a b : option A) : option A := match a with Some _ => a | None => b end.

(** The first of the known properties that is present and parses. *)
Definition first_known (parsed : list (str * option str)) : option str :=
  foldr (λ key rest,
    match snd <$> find (λ p, str_eqb key p.1) parsed with
    | Some (Some s) => if truthy s then Some s else rest
    | _ => rest
    end) None fee_keys.

Fixpoint parse_numeric (value : json) : option str :=
  match value with
  | JNum n => finite_text n
  | JStr s => let trimmed := trim s in if truthy trimmed then finite_text (Number trimmed) else None
  | JArr (v :: _) => parse_numeric v
  | JArr [] => None
  | JObj fs => first_known (map (λ f, (f.1, parse_numeric f.2)) fs)
  | JNull | JBool _ => None
  end.

Definition parseNumericValue (value : option json) : option str := value ≫= parse_numeric.

(** [v?.k] *)
Definition opt_get (k : str) (v : option json) : option json := v ≫= json_get k.

(** [v ?? {}] *)
Definition or_empty (v : option json) : json :=
  match v with None | Some JNull => JObj [] | Some v => v end.

Record TransactionFeeEstimate := MkEstimate {
  fe_baseFee : str; fe_minResourceFee : str; fe_totalFee : str;
  fe_cpuInsns : option str; fe_memBytes : option str }.

(** [Number(x) || 0] *)
Definition or_zero (n : num) : num := if num_truthy n then n else Fin 0 0.

Definition min_resource_fee (result : json) : str :=
  let field k := parseNumericValue (json_get (js k) result) in
  let cost k := parseNumericValue (opt_get (js k) (json_get (js "cost") result)) in
  default (js "0")
    (or_else (field "minResourceFee") (or_else (field "min_resource_fee")
      (or_else (cost "feeCharged") (or_else (cost "fee_charged")
        (or_else (field "feeCharged") (or_else (field "fee_charged")
          (or_else (cost "feeChanges") (cost "fee_changes")))))))).

Definition estimate (baseFee : num) (body : json) : TransactionFeeEstimate :=
  let result := or_empty (json_get (js "result") body) in
  let cost k := parseNumericValue (opt_get (js k) (json_get (js "cost") result)) in
  let baseFeeValue := or_zero baseFee in
  let minResourceFeeValue := or_zero (Number (min_resource_fee result)) in
  MkEstimate (num_to_str baseFeeValue) (num_to_str minResourceFeeValue)
    (num_to_str (num_add baseFeeValue minResourceFeeValue))
    (or_else (cost "cpuInsns") (cost "cpu_insns")) (or_else (cost "memBytes") (cost "mem_bytes")).

(** ** Operations *)

Section Wallet.
Context `{Host W, StellarEnv, SDK : !StellarSdk W, BW : !BrowserWallets W}.

Definition freighter_missing : js_error := new_error (js "Freighter extension not found").

Definition checkFreighter : M W bool :=
  mret (match freighter (W := W) with Some _ => true | None => false end).

Definition connectFreighter : M W StellarWalletState :=
  match freighter (W := W) with
  | None => throw freighter_missing
  | Some (getPublicKey, _) =>
      publicKey ← getPublicKey; mret (MkStellarWallet publicKey true (Some SFreighter))
  end.

Definition signWithFreighter (txXdr : str) : M W str :=
  match freighter (W := W) with
  | None => throw freighter_missing
  | Some (_, signTransaction) => signTransaction txXdr (networkPassphrase (W := W))
  end.

(** Without the extension the page is probed, and reading [Albedo] still fails. *)
Definition connectAlbedo : M W StellarWalletState :=
  try_catch
    (match albedo (W := W) with
     | None =>
         res ← fetch (Request (js "https://albedo.link") (js "GET") [] None);
         if negb (rs_ok res) then throw (new_error (js "Albedo not available")) else throw type_error
     | Some (publicKey, _) =>
         key ← publicKey; mret (MkStellarWallet key true (Some SAlbedo))
     end)
    (λ e, throw (new_error (js "Failed to connect Albedo: " ++ err_message e))).

Definition signWithAlbedo (txXdr : str) : M W str :=
  match albedo (W := W) with
  | None => throw (new_error (js "Albedo not available"))
  | Some (_, tx) => tx txXdr STELLAR_NETWORK
  end.

Definition generateLocalKeypair : M W (str * str) :=
  keypair ← kp_random; mret (kp_publicKey keypair, kp_secret keypair).

Definition saveLocalKeypair (secretKey : str) : M W unit := st_set AsyncStorage KEY_STORAGE_KEY secretKey.

Definition getLocalKeypair : M W (option keypair) :=
  try_catch
    (secret ← st_get AsyncStorage KEY_STORAGE_KEY;
     match secret with
     | Some s => if truthy s then kp ← of_res (kp_fromSecret s); mret (Some kp) else mret None
     | None => mret None
     end)
    (λ _, mret None).

Definition connectLocalWallet : M W StellarWalletState :=
  kp ← getLocalKeypair;
  match kp with
  | None => throw (new_error (js "No local keypair found. Generate one first."))
  | Some kp => mret (MkStellarWallet (kp_publicKey kp) true (Some SLocal))
  end.

(** One row of the balances the SDK answers. *)
Definition balance_row (b : json) : option json * str :=
  (json_get (js "balance") b,
   match json_get (js "asset_type") b with
   | Some (JStr t) =>
       if str_eqb t (js "native") then js "XLM" else or_text (json_str (json_get (js "asset_code") b)) (js "XLM")
   | _ => or_text (json_str (json_get (js "asset_code") b)) (js "XLM")
   end).

Definition getAccountBalance (publicKey : str) : M W (list (option json * str)) :=
  try_catch (account ← loadAccount publicKey; mret (balance_row <$> account_balances account))
    (λ _, mret []).

Definition simulate_request (txXdr : str) : request :=
  Request sorobanRpcUrl (js "POST") [content_type_json]
    (Some (stringify (JObj [(js "jsonrpc", JStr (js "2.0")); (js "id", JNum (num_of_Z 1));
       (js "method", JStr (js "simulateTransaction"));
       (js "params", JObj [(js "transaction", JStr txXdr)])]))).

Definition estimateTransactionFee (txXdr : str) : M W TransactionFeeEstimate :=
  baseFee ← fetchBaseFee;
  response ← fetch (simulate_request txXdr);
  if negb (rs_ok response) then
    throw (new_error (js "Soroban simulation failed with HTTP " ++ Z_to_str (rs_status response)))
  else
    body ← JSON_parse (rs_body response);
    mret (estimate baseFee body).

(** *** Payments *)

(** The asset a payment moves. *)
Definition payment_asset (assetCode : str) (assetIssuer : option str) : res asset :=
  if str_eqb assetCode (js "XLM") then Ok asset_native
  else match assetIssuer with
       | Some issuer => if truthy issuer then new_asset assetCode issuer else Ok asset_native
       | None => Ok asset_native
       end.

(** [assetCode] defaults to XLM. *)
Definition buildPaymentEnvelope (sourcePublicKey destination amount : str) (assetCode assetIssuer memo : option str)
    : M W str :=
  sourceAccount ← loadAccount sourcePublicKey;
  asset ← of_res (payment_asset (default (js "XLM") assetCode) assetIssuer);
  fee ← fetchBaseFee;
  of_res (build_payment (TxParts sourceAccount (num_to_str fee) (networkPassphrase (W := W)) destination asset amount
    (memo ≫= λ m, if truthy m then Some m else None) 300)).

Definition SPEED_UP_FEE_MULTIPLIER : num := num_of_Z 2.

Definition buildFeeBumpEnvelope (innerTxXdr feeSource baseFee : str) : res fee_bump :=
  match parse_transaction innerTxXdr (networkPassphrase (W := W)) with
  | Ok innerTx => buildFeeBumpTransaction feeSource baseFee innerTx (networkPassphrase (W := W))
  | Throw e => Throw e
  end.

Definition no_keypair : js_error := new_error (js "No local keypair available").

Definition local_keypair : M W keypair :=
  kp ← getLocalKeypair;
  match kp with Some kp => mret kp | None => throw no_keypair end.

Definition signAndSubmitTransaction (txXdr : str) (source : wallet_source) : M W str :=
  signedXdr ← match source with
    | SFreighter => signWithFreighter txXdr
    | SAlbedo => signWithAlbedo txXdr
    | SLocal =>
        kp ← local_keypair;
        transaction ← of_res (parse_transaction txXdr (networkPassphrase (W := W)));
        mret (transaction_xdr (sign_transaction transaction kp))
    end;
  transaction ← of_res (decode_signed signedXdr (networkPassphrase (W := W)));
  submitTransaction (inl transaction).

(** [Math.max(baseFee * 2, (Number(BASE_FEE) || 100) * 2)] *)
Definition bumped_fee (baseFee : num) : num :=
  let minimumFee := Number (SDK_BASE_FEE (W := W)) in
  let minimumFee := if num_truthy minimumFee then minimumFee else num_of_Z 100 in
  num_max (num_mul baseFee SPEED_UP_FEE_MULTIPLIER) (num_mul minimumFee SPEED_UP_FEE_MULTIPLIER).

Definition fee_payer (source : wallet_source) (feeSource : option str) : M W str :=
  if truthy_opt feeSource then mret (default [] feeSource)
  else match source with
       | SFreighter => s ← connectFreighter; mret (sw_publicKey s)
       | SAlbedo => s ← connectAlbedo; mret (sw_publicKey s)
       | SLocal => kp ← local_keypair; mret (kp_publicKey kp)
       end.

Definition speedUpTransaction (txXdr : str) (source : wallet_source) (feeSource : option str) : M W str :=
  feePayer ← fee_payer source feeSource;
  baseFee ← fetchBaseFee;
  bump ← of_res (buildFeeBumpEnvelope txXdr feePayer (num_to_str (bumped_fee baseFee)));
  signedXdr ← match source with
    | SFreighter => signWithFreighter (fee_bump_xdr bump)
    | SAlbedo => signWithAlbedo (fee_bump_xdr bump)
    | SLocal => kp ← local_keypair; mret (fee_bump_xdr (sign_fee_bump bump kp))
    end;
  submitted ← of_res (read_envelope signedXdr (networkPassphrase (W := W)));
  submitTransaction submitted.

Record PaymentResult := MkPayment { pay_hash : str; pay_destination : str; pay_amount : str }.

(** The record sent to the backend once the network has the payment. *)
Definition payment_record (hash destination amount : str) (assetCode memo : option str) : request :=
  Request (API_BASE ++ js "/api/transactions") (js "POST") []
    (Some (stringify (literal [present (js "hash") (JStr hash); present (js "destination") (JStr destination);
       present (js "amount") (JStr amount); present (js "asset") (JStr (or_text assetCode (js "XLM")));
       optional (js "memo") memo]))).

Definition submitPayment (destination amount : str) (source : wallet_source) (sourcePublicKey : str)
    (assetCode assetIssuer memo : option str) : M (ui_log * W) PaymentResult :=
  txXdr ← host (buildPaymentEnvelope sourcePublicKey destination amount assetCode assetIssuer memo);
  hash ← host (signAndSubmitTransaction txXdr source);
  swallow (fetchWithRetry (payment_record hash destination amount assetCode memo)
             (MkRetry None None None None);; mret tt);;
  mret (MkPayment hash destination amount).
End Wallet.

(** ** Properties *)

(** Every text read out of a simulation result is a printed finite number. *)
Definition finite_or_none (o : option str) : Prop :=
  match o with Some s => ∃ m e, s = num_to_str (Fin m e) | None => True end.

Lemma finite_text_ok n : finite_or_none (finite_text n).
Proof. destruct n as [|s|m e]; cbn; [done..|by eexists _, _]. Qed.

Lemma first_known_ok (parsed : list (str * option str)) :
  Forall (λ p, finite_or_none p.2) parsed → finite_or_none (first_known parsed).
Proof.
  intros Hp. unfold first_known. induction fee_keys as [|key keys IH]; cbn; [done|].
  destruct (find (λ p, str_eqb key p.1) parsed) as [[k o]|] eqn:F; cbn; [|exact IH].
  apply find_some in F as [Hin _]. rewrite Forall_forall in Hp.
  specialize (Hp (k, o) (proj2 (list_elem_of_In _ _) Hin)). cbn in Hp.
  destruct o as [s|]; [|exact IH]. destruct (truthy s); [exact Hp|exact IH].
Qed.

Lemma parse_numeric_ok v : finite_or_none (parse_numeric v).
Proof.
  induction v as [|b|n|s|l IH|fs IH] using json_nested_ind; cbn [parse_numeric]; try exact I.
  - apply finite_text_ok.
  - destruct (truthy (trim s)); [apply finite_text_ok|exact I].
  - destruct l as [|v l]; [exact I|]. by apply Forall_cons in IH as [IH _].
  - apply first_known_ok. clear -IH. induction IH; cbn; constructor; auto.
Qed.

Lemma parseNumericValue_ok v : finite_or_none (parseNumericValue v).
Proof. destruct v as [v|]; [apply parse_numeric_ok|exact I]. Qed.

Lemma or_else_ok a b : finite_or_none a → finite_or_none b → finite_or_none (or_else a b).
Proof. by destruct a. Qed.

Lemma parse_int_text n : (Z.of_N n < 2 ^ 53)%Z → parse_numeric (JStr (N_to_str n)) = Some (N_to_str n).
Proof.
  intros Hn. cbn [parse_numeric].
  assert (Ht : trim (N_to_str n) = N_to_str n).
  { apply trim_id_forall. eapply Forall_impl; [apply N_to_str_digits|apply is_digit_not_ws]. }
  rewrite Ht, (proj2 (truthy_true _) (N_to_str_nonempty n)), Number_nat.
  rewrite num_of_Z_safe by (unfold safe_int; lia). unfold finite_text. cbn [is_finite].
  rewrite num_to_str_int by lia. by destruct n.
Qed.

Section Properties.
Context `{HostLaws W, StellarEnv, SDK : !StellarSdk W, BW : !BrowserWallets W}.
Implicit Types w : W.

(** the fee estimate is arithmetic on finite numbers: for whole stroops the total is the
    exact sum of the base fee and the simulated resource fee, and whatever shape the
    simulation result has, the resource fee used is a printed finite number or zero. *)
Theorem fee_estimate_exact (base resource : N) body :
  (Z.of_N base + Z.of_N resource < 2 ^ 53)%Z →
  json_get (js "minResourceFee") (or_empty (json_get (js "result") body)) = Some (JStr (N_to_str resource)) →
  let fee := estimate (num_of_Z (Z.of_N base)) body in
  fe_baseFee fee = N_to_str base ∧ fe_minResourceFee fee = N_to_str resource ∧
  fe_totalFee fee = N_to_str (base + resource) ∧
  (∀ v, ∃ m e, min_resource_fee v = num_to_str (Fin m e)).
Proof.
  intros Hs Hf. assert (Hb : num_of_Z (Z.of_N base) = Fin (Z.of_N base) 0).
  { apply num_of_Z_safe. unfold safe_int. lia. }
  assert (Hr : num_of_Z (Z.of_N resource) = Fin (Z.of_N resource) 0).
  { apply num_of_Z_safe. unfold safe_int. lia. }
  assert (Pt : ∀ n, (Z.of_N n < 2 ^ 53)%Z → num_to_str (Fin (Z.of_N n) 0) = N_to_str n).
  { intros n Hn. rewrite num_to_str_int by lia. by destruct n. }
  assert (Oz : ∀ n, or_zero (Fin (Z.of_N n) 0) = Fin (Z.of_N n) 0) by by intros [].
  assert (Hm : min_resource_fee (or_empty (json_get (js "result") body)) = N_to_str resource).
  { unfold min_resource_fee. rewrite Hf. cbn [parseNumericValue mbind option_bind].
    by rewrite parse_int_text by lia. }
  cbn zeta. unfold estimate. cbn [fe_baseFee fe_minResourceFee fe_totalFee].
  rewrite Hm, Number_nat, Hb, Hr, !Oz. split; [apply Pt; lia|]. split; [apply Pt; lia|]. split.
  - replace (num_add (Fin (Z.of_N base) 0) (Fin (Z.of_N resource) 0)) with (num_of_Z (Z.of_N (base + resource))).
    + rewrite num_of_Z_safe by (unfold safe_int; lia). apply Pt. lia.
    + unfold num_add, num_of_Z. f_equal. lia.
  - intros v. pose proof (λ o, parseNumericValue_ok o) as P. unfold min_resource_fee.
    match goal with |- context [default _ ?o] => assert (Ho : finite_or_none o) by
      (repeat apply or_else_ok; apply P); destruct o as [s|]; [exact Ho|] end.
    by exists 0%Z, 0%Z.
Qed.

(** a payment in a credit asset whose issuer is missing is built as a payment of the
    native asset: the envelope moves the amount in XLM, while the record kept of it
    names the credit asset. *)
Theorem missing_issuer_pays_native source destination amount code issuer memo acc fee w w1 w2 :
  code ≠ js "XLM" → code ≠ [] → truthy_opt issuer = false →
  loadAccount source w = (Ok acc, w1) → fetchBaseFee w1 = (Ok fee, w2) →
  (∃ parts, buildPaymentEnvelope source destination amount (Some code) issuer memo w = (build_payment parts, w2) ∧
     tp_asset parts = asset_native ∧ tp_amount _ _ parts = amount) ∧
  (∀ hash, ∃ fs, rq_body (payment_record hash destination amount (Some code) memo)
     = Some (stringify (literal fs)) ∧ literal_get (js "asset") fs = Some (JStr code)).
Proof.
  intros Hc Hne Hi Ea Ef. split.
  - eexists. unfold buildPaymentEnvelope. rewrite (run_bind_ok _ _ _ _ _ Ea).
    assert (Ep : payment_asset code issuer = Ok asset_native).
    { unfold payment_asset. rewrite (proj2 (str_eqb_false _ _) Hc). destruct issuer as [i|]; [|done].
      cbn in Hi. by rewrite Hi. }
    change (default (js "XLM") (Some code)) with code.
    rewrite (run_bind_ok _ _ _ w1 asset_native) by (unfold of_res; by rewrite Ep).
    rewrite (run_bind_ok _ _ _ _ _ Ef). split; [reflexivity|]. by split.
  - intros hash. eexists. split; [reflexivity|]. unfold or_text. by rewrite (proj2 (truthy_true _) Hne).
Qed.

(** speeding up a transaction offers at least twice the current base fee and at least
    twice the network minimum, exactly, in whole stroops. *)
Theorem speed_up_fee_floor (base minimum : N) :
  SDK_BASE_FEE (W := W) = N_to_str minimum → (minimum ≠ 0)%N →
  (2 * Z.of_N base < 2 ^ 53)%Z → (2 * Z.of_N minimum < 2 ^ 53)%Z →
  num_to_str (bumped_fee (W := W) (num_of_Z (Z.of_N base))) = N_to_str (2 * N.max base minimum).
Proof.
  intros Hsdk Hm Hb2 Hm2. unfold bumped_fee. rewrite Hsdk, Number_nat.
  assert (D : ∀ n, (2 * Z.of_N n < 2 ^ 53)%Z →
    num_mul (num_of_Z (Z.of_N n)) SPEED_UP_FEE_MULTIPLIER = Fin (Z.of_N (2 * n)) 0).
  { intros n Hn. unfold SPEED_UP_FEE_MULTIPLIER. rewrite !num_of_Z_safe by (unfold safe_int; lia).
    rewrite <-(num_of_Z_safe (Z.of_N (2 * n))) by (unfold safe_int; lia). unfold num_mul, num_of_Z. f_equal; lia. }
  assert (T : num_truthy (num_of_Z (Z.of_N minimum)) = true).
  { rewrite num_of_Z_safe by (unfold safe_int; lia). by destruct minimum. }
  rewrite T, !D by done. unfold num_max. cbn [is_nan orb].
  assert (E : num_ltb (Fin (Z.of_N (2 * base)) 0) (Fin (Z.of_N (2 * minimum)) 0)
              = (Z.of_N (2 * base) <? Z.of_N (2 * minimum))%Z).
  { unfold num_ltb. by rewrite !Z.mul_1_r. }
  rewrite E. destruct (Z.ltb_spec (Z.of_N (2 * base)) (Z.of_N (2 * minimum)));
    rewrite num_to_str_int by lia;
    [replace (2 * N.max base minimum)%N with (2 * minimum)%N by lia
    |replace (2 * N.max base minimum)%N with (2 * base)%N by lia].
  - by destruct (2 * minimum)%N.
  - by destruct (2 * base)%N.
Qed.

(** a saved local key is the one that is loaded and connected with; without a readable
    key connecting fails and says so. *)
Theorem local_key_round_trip secret kp w :
  st_live w → secret ≠ [] → kp_fromSecret secret = Ok kp → ∃ w1 w2 w3,
  saveLocalKeypair secret w = (Ok tt, w1) ∧ getLocalKeypair w1 = (Ok (Some kp), w2) ∧
  connectLocalWallet w1 = (Ok (MkStellarWallet (kp_publicKey kp) true (Some SLocal)), w3).
Proof.
  intros L Hs Hk. destruct (set_live AsyncStorage KEY_STORAGE_KEY secret w L) as (w1 & E1 & [e1 n1 t1 l1]).
  destruct (get_live AsyncStorage KEY_STORAGE_KEY w1 (l1 L)) as (w2 & E2 & K2).
  assert (G : getLocalKeypair w1 = (Ok (Some kp), w2)).
  { unfold getLocalKeypair, try_catch. rewrite (run_bind_ok _ _ _ _ _ E2), e1.
    rewrite (proj2 (truthy_true _) Hs). by rewrite (run_bind_ok _ _ _ w2 kp) by (unfold of_res; by rewrite Hk). }
  exists w1, w2, w2. split; [exact E1|]. split; [exact G|].
  unfold connectLocalWallet. by rewrite (run_bind_ok _ _ _ _ _ G).
Qed.
End Properties.

Module Runs.
#[local] Existing Instance ascii_case.

#[local] Instance demo_env : StellarEnv := {| EXPO_PUBLIC_API_URL := None;
  EXPO_PUBLIC_STELLAR_NETWORK := None; EXPO_PUBLIC_SOROBAN_RPC_URL := None |}.

(** An SDK whose envelopes are readable text; a secret starts with S, and the network
    refuses the envelope of an empty amount. *)
Definition demo_build (p : tx_parts unit (option (str * str))) : res str :=
  Ok (tp_amount _ _ p ++ match tp_asset p with None => js " XLM" | Some (c, _) => [32%N] ++ c end).
Definition no_funds : js_error := new_error (js "tx_insufficient_balance").

#[local] Instance demo_sdk : StellarSdk scripted := {|
  keypair := str; kp_publicKey s := js "G" ++ s; kp_secret s := s;
  kp_fromSecret s := if starts_with (js "S") s then Ok s else Throw (new_error (js "invalid"));
  kp_random := mret (js "SRANDOM");
  PUBLIC_PASSPHRASE := js "public"; TESTNET_PASSPHRASE := js "test"; SDK_BASE_FEE := js "100";
  asset := option (str * str); asset_native := None; new_asset c i := Ok (Some (c, i));
  account := unit; account_balances _ := []; loadAccount _ := mret tt; fetchBaseFee := mret (num_of_Z 150);
  build_payment := demo_build; transaction := str; parse_transaction x _ := Ok x; decode_signed x _ := Ok x;
  sign_transaction t k := t ++ js " by " ++ k; transaction_xdr t := t;
  fee_bump := str * str; buildFeeBumpTransaction src fee inner _ := Ok (fee, inner);
  sign_fee_bump b _ := b; fee_bump_xdr b := b.1 ++ js ":" ++ b.2; read_envelope x _ := Ok (inl x);
  submitTransaction t := match t with
    | inl x => if starts_with (js " ") x then throw no_funds else mret (js "hash of " ++ x)
    | inr b => mret b.1 end |}.
#[local] Instance no_extension : BrowserWallets scripted := {| freighter := None; albedo := None |}.

Definition w0 : scripted := world [(AsyncStorage, KEY_STORAGE_KEY, js "SKEY")] [Throw sc_offline; reply 200 (js "{}")].

Definition pay (amount : str) :=
  submitPayment (js "GDEST") amount SLocal (js "GSKEY") (Some (js "USDC")) None None (UiLog [] [], w0).

(** Ten USDC without an issuer leave the account as ten XLM. *)
Example pays_xlm : (pay (js "10")).1 = Ok (MkPayment (js "hash of 10 XLM by SKEY") (js "GDEST") (js "10")).
Proof. vm_compute. reflexivity. Qed.

Example refused_not_recorded : (pay []).1 = Throw no_funds ∧ net_trace (pay []).2.2 = [].
Proof. by split; vm_compute. Qed.

Example speeds_up : (speedUpTransaction (js "10 XLM") SLocal None w0).1 = Ok (js "hash of 300:10 XLM").
Proof. vm_compute. reflexivity. Qed.

Definition sim_body : json := JObj [(js "result", JObj [(js "minResourceFee", JStr (js "94813"))])].

Lemma fee_estimate_exact_witness :
  let fee := estimate (num_of_Z (Z.of_N 100)) sim_body in
  fe_baseFee fee = N_to_str 100 ∧ fe_minResourceFee fee = N_to_str 94813 ∧
  fe_totalFee fee = N_to_str (100 + 94813) ∧
  (∀ v, ∃ m e, min_resource_fee v = num_to_str (Fin m e)).
Proof. apply (fee_estimate_exact 100 94813 sim_body); [lia|vm_compute; reflexivity]. Defined.

Lemma missing_issuer_pays_native_witness :
  (∃ parts, buildPaymentEnvelope (js "GSKEY") (js "GDEST") (js "10") (Some (js "USDC")) None None w0
      = (build_payment parts, w0) ∧ tp_asset parts = asset_native ∧ tp_amount _ _ parts = js "10") ∧
  (∀ hash, ∃ fs, rq_body (payment_record hash (js "GDEST") (js "10") (Some (js "USDC")) None)
     = Some (stringify (literal fs)) ∧ literal_get (js "asset") fs = Some (JStr (js "USDC"))).
Proof.
  apply (missing_issuer_pays_native (W := scripted) (SDK := demo_sdk) (js "GSKEY") (js "GDEST") (js "10") (js "USDC") None None tt (num_of_Z 150) w0 w0 w0);
    [vm_compute; discriminate|discriminate|reflexivity|reflexivity|reflexivity].
Defined.

Lemma speed_up_fee_floor_witness :
  num_to_str (bumped_fee (W := scripted) (num_of_Z (Z.of_N 150))) = N_to_str (2 * N.max 150 100).
Proof. apply (speed_up_fee_floor 150 100); [vm_compute; reflexivity|lia|lia|lia]. Defined.

Lemma local_key_round_trip_witness : ∃ w1 w2 w3,
  saveLocalKeypair (js "SNEW") w0 = (Ok tt, w1) ∧ getLocalKeypair (SDK := demo_sdk) w1 = (Ok (Some (js "SNEW")), w2) ∧
  connectLocalWallet w1 = (Ok (MkStellarWallet (js "GSNEW") true (Some SLocal)), w3).
Proof. apply (local_key_round_trip (W := scripted) (SDK := demo_sdk) (js "SNEW") (js "SNEW") w0); [reflexivity|discriminate|vm_compute; reflexivity]. Defined.
End Runs.
