(* ===== verification/StellarPayments.v ===== *)
(** * What a payment does on the network

    The payments of [mobileapp/src/services/stellarWallet.ts] (file StellarWallet) against a
    specification of the Stellar SDK and the network: what an envelope carries, what signing
    and encoding keep, and that the network includes a submitted transaction or does not,
    with or without its answer arriving. *)

From S2P Require Import Prelude JsString JsNumber JsDate Json UriCodec Effects Decode Scripts Retry StellarWallet.

(** The payment an envelope carries, the keys that signed it, and the transactions the
    network has included, oldest first, with their hashes. *)
Class PaymentNetwork (W : Type) `{SDK : !StellarSdk W} := {
  tx_payment : transaction → option (tx_parts account asset);
  tx_signers : transaction → list str;
  included : W → list (transaction * str);
}.

Section Quiet.
Context `{Host W, SDK : !StellarSdk W, !PaymentNetwork W}.

(** Nothing was included and the stores are as they were. *)
Record quiet (w w' : W) : Prop := Quiet {
  qt_included : included w' = included w;
  qt_stores : ∀ s k, st_peek w' s k = st_peek w s k;
}.

#[export] Instance quiet_preorder : PreOrder quiet.
Proof. split; [done|]. intros w1 w2 w3 [i1 s1] [i2 s2]. split; [congruence|intros; by rewrite s2]. Qed.
End Quiet.

Class PaymentLaws (W : Type) `{Host W, SDK : !StellarSdk W, !PaymentNetwork W} : Prop := {
  built_carries parts xdr passphrase t :
    build_payment parts = Ok xdr → parse_transaction xdr passphrase = Ok t →
    tx_payment t = Some parts ∧ tx_signers t = [];
  signed_carries t kp :
    tx_payment (sign_transaction t kp) = tx_payment t ∧
    tx_signers (sign_transaction t kp) = tx_signers t ++ [kp_publicKey kp];
  decoded_carries t passphrase t' :
    decode_signed (transaction_xdr t) passphrase = Ok t' → tx_payment t' = tx_payment t ∧ tx_signers t' = tx_signers t;
  (** An answer with a hash says that the transaction was included; a failure says nothing. *)
  submit_included t w :
    let '(r, w') := submitTransaction (inl t) w in
    match r with
    | Ok hash => included w' = included w ++ [(t, hash)]
    | Throw _ => included w' = included w ∨ ∃ hash, included w' = included w ++ [(t, hash)]
    end;
  loading_quiet k w : quiet w (loadAccount k w).2;
  fee_quiet w : quiet w (fetchBaseFee w).2;
  get_quiet s k w : quiet w (st_get s k w).2;
  fetch_quiet rq w : quiet w (fetch rq w).2;
}.

Section Payments.
Context `{HostLaws W, StellarEnv, SDK : !StellarSdk W, BW : !BrowserWallets W, !PaymentNetwork W, !PaymentLaws W}.
Implicit Types (w : W) (l : ui_log).

(** [t] is the payment asked for, built from the account and the base fee the network
    answered, for the configured network, and signed by the key the device holds and no other. *)
Definition pays w (sourcePublicKey destination amount : str) (assetCode assetIssuer memo : option str) (t : transaction) : Prop :=
  ∃ acct w1 a fee secret kp,
    loadAccount sourcePublicKey w = (Ok acct, w1) ∧ (fetchBaseFee w1).1 = Ok fee ∧
    payment_asset (default (js "XLM") assetCode) assetIssuer = Ok a ∧
    tx_payment t = Some (TxParts acct (num_to_str fee) (networkPassphrase (W := W)) destination a amount
      (memo ≫= λ m, if truthy m then Some m else None) 300) ∧
    st_peek w AsyncStorage KEY_STORAGE_KEY = Some secret ∧ kp_fromSecret secret = Ok kp ∧ tx_signers t = [kp_publicKey kp].

(** Building an envelope includes nothing; what it builds carries the payment. *)
Lemma build_run source destination amount code issuer memo w : ∃ r w',
  buildPaymentEnvelope source destination amount code issuer memo w = (r, w') ∧ quiet w w' ∧
  ∀ xdr, r = Ok xdr → ∃ acct w1 a fee,
    loadAccount source w = (Ok acct, w1) ∧ (fetchBaseFee w1).1 = Ok fee ∧
    payment_asset (default (js "XLM") code) issuer = Ok a ∧
    build_payment (TxParts acct (num_to_str fee) (networkPassphrase (W := W)) destination a amount
      (memo ≫= λ m, if truthy m then Some m else None) 300) = Ok xdr.
Proof.
  pose proof (loading_quiet source w) as Q1. unfold buildPaymentEnvelope, of_res. rewrite run_bind.
  destruct (loadAccount source w) as [[acct|e] w1] eqn:E1; cbn [fst snd] in Q1; [|by eexists _, w1].
  rewrite run_bind. destruct (payment_asset _ issuer) as [a|e] eqn:Ea; [|by eexists _, w1].
  rewrite run_bind. pose proof (fee_quiet w1) as Q2.
  destruct (fetchBaseFee w1) as [[fee|e] w2] eqn:E2; cbn [fst snd] in Q2; eexists _, w2; (split; [reflexivity|]); (split; [by etrans|]);
    [|done]. intros xdr Hx. exists acct, w1, a, fee. by rewrite E2.
Qed.

Lemma keypair_run w : ∃ r w', getLocalKeypair w = (r, w') ∧ quiet w w' ∧
  ∀ kp, r = Ok (Some kp) → ∃ secret, st_peek w AsyncStorage KEY_STORAGE_KEY = Some secret ∧ kp_fromSecret secret = Ok kp.
Proof.
  pose proof (get_quiet AsyncStorage KEY_STORAGE_KEY w) as Q.
  destruct (get_spec AsyncStorage KEY_STORAGE_KEY w) as (r & w1 & E & _ & D). rewrite E in Q. cbn in Q.
  unfold getLocalKeypair, try_catch, of_res. rewrite run_bind, E. destruct D as [->|[[e ->] _]]; [|by eexists _, w1].
  destruct (st_peek w AsyncStorage KEY_STORAGE_KEY) as [s|]; [|by eexists _, w1].
  destruct (truthy s); [|by eexists _, w1]. destruct (kp_fromSecret s) as [kp|e] eqn:Es; eexists _, w1; (split; [reflexivity|]); (split; [done|]); [|done].
  intros kp' [= <-]. by exists s.
Qed.

(** Signing with the key of the device and submitting: one transaction at most. *)
Lemma submit_run parts xdr w : build_payment parts = Ok xdr → ∃ r w',
  signAndSubmitTransaction xdr SLocal w = (r, w') ∧
  (∃ e, r = Throw e ∧ included w' = included w) ∨
  signAndSubmitTransaction xdr SLocal w = (r, w') ∧
  ∃ t hash secret kp, included w' = included w ++ [(t, hash)] ∧ (r = Ok hash ∨ ∃ e, r = Throw e) ∧
    tx_payment t = Some parts ∧ st_peek w AsyncStorage KEY_STORAGE_KEY = Some secret ∧ kp_fromSecret secret = Ok kp ∧
    tx_signers t = [kp_publicKey kp].
Proof.
  intros Hb. destruct (keypair_run w) as (rk & w1 & Ek & [I1 _] & Hk). unfold signAndSubmitTransaction, local_keypair, of_res.
  rewrite !run_bind, Ek. destruct rk as [[kp|]|e]; [|eexists _, w1; left; split; [reflexivity|by eexists]..].
  destruct (Hk kp eq_refl) as (secret & Hs & Hkp). cbn [mret M_ret]. rewrite run_bind.
  destruct (parse_transaction xdr _) as [t0|e] eqn:Ep; [|eexists _, w1; left; split; [reflexivity|by eexists]].
  destruct (built_carries _ _ _ _ Hb Ep) as [P0 S0]. destruct (signed_carries t0 kp) as [P1 S1]. cbn [mret M_ret]. rewrite run_bind.
  destruct (decode_signed _ _) as [t|e] eqn:Ed; [|eexists _, w1; left; split; [reflexivity|by eexists]].
  destruct (decoded_carries _ _ _ Ed) as [P2 S2]. pose proof (submit_included t w1) as Sub.
  destruct (submitTransaction (inl t) w1) as [[hash|e] w2] eqn:Es; rewrite I1 in Sub.
  - exists (Ok hash), w2. right. split; [done|]. exists t, hash, secret, kp. rewrite P2, P1, S2, S1, S0. split_and!; try done. by left.
  - exists (Throw e), w2. destruct Sub as [Sub|(hash & Sub)]; [left; split; [done|by eexists]|right]. split; [done|].
    exists t, hash, secret, kp. rewrite P2, P1, S2, S1, S0. split_and!; try done. right. by eexists.
Qed.

Lemma record_quiet rq l w : quiet w (fetchWithRetry rq (MkRetry None None None None) (l, w)).2.2.
Proof.
  unfold fetchWithRetry, retryWithBackoff. destruct (_ <? 0)%Z; [done|].
  assert (PreOrder (λ x y : ui_log * W, quiet x.2 y.2)) by (split; [done|intros ???; apply transitivity]).
  refine (retry_loop_frame (λ x y : ui_log * W, quiet x.2 y.2) _ _ _ _ _ _ _ _ (l, w)); [|done|done].
  intros [l1 w1]. unfold fetch_once. rewrite run_bind. unfold host. cbn [fst snd].
  match goal with |- context [fetch ?rq w1] => pose proof (fetch_quiet rq w1) as Q; destruct (fetch rq w1) as [[res|e] w2] end; [|exact Q].
  by destruct (rs_ok res).
Qed.

End Payments.

(** ** A host beside other state *)

Section Beside.
Context {S : Type} `{HostLaws W}.

Definition beside_host : Host (S * W) := {|
  st_get s k := host (st_get s k); st_set s k v := host (st_set s k v); st_del s k := host (st_del s k);
  fetch rq := host (fetch rq); net_connected := host net_connected; date_now := host date_now; math_random := host math_random;
  st_peek x := st_peek x.2; st_live x := st_live x.2; net_trace x := net_trace x.2 |}.
#[local] Existing Instance beside_host.

Lemma kept_beside (x : S) (w w' : W) : kept w w' → kept (x, w) (x, w').
Proof. intros [p t v]. by split. Qed.
Lemma stored_beside (x : S) (w w' : W) s k v : stored w w' s k v → stored (x, w) (x, w') s k v.
Proof. intros [e n t v']. by split. Qed.

Lemma beside_laws : HostLaws (S * W).
Proof.
  split.
  - intros s k [x w]. cbn. unfold host. destruct (get_spec s k w) as (r & w' & E & K & D). cbn. rewrite E. eexists _, _. split; [done|]. split; [by apply kept_beside|exact D].
  - intros s k v [x w]. cbn. unfold host. destruct (set_spec s k v w) as (r & w' & E & D). cbn. rewrite E. eexists _, _. split; [done|].
    destruct D as [[-> D]|(D & K & L)]; [left; split; [done|by apply stored_beside]|right; split; [done|split; [by apply kept_beside|done]]].
  - intros s k [x w]. cbn. unfold host. destruct (del_spec s k w) as (r & w' & E & D). cbn. rewrite E. eexists _, _. split; [done|].
    destruct D as [[-> D]|(D & K & L)]; [left; split; [done|by apply stored_beside]|right; split; [done|split; [by apply kept_beside|done]]].
  - intros rq [x w]. cbn. unfold host. destruct (fetch_spec rq w) as (r & w' & E & [p t v]). cbn. rewrite E. eexists _, _. split; [done|]. by split.
  - intros [x w]. cbn. unfold host. destruct (net_spec w) as (r & w' & E & K). cbn. rewrite E. eexists _, _. split; [done|by apply kept_beside].
  - intros [x w]. cbn. unfold host. destruct (now_spec w) as (r & w' & E & K & R). cbn. rewrite E. eexists _, _. split; [done|]. split; [by apply kept_beside|done].
  - intros [x w]. cbn. unfold host. destruct (random_spec w) as (r & w' & E & K & R). cbn. rewrite E. eexists _, _. split; [done|]. split; [by apply kept_beside|done].
Qed.
End Beside.

(** ** Runs on a network of one payment *)

Module Runs.
#[local] Existing Instance StellarWallet.Runs.demo_env.

(** The payment this network knows; an envelope is its letter and a mark per signature. *)
Definition demo_parts : tx_parts unit (option (str * str)) :=
  TxParts tt (js "150") (js "test") (js "GDEST") (Some (js "USDC", js "GISSUER")) (js "10") None 300.
#[local] Instance parts_eq_dec : EqDecision (tx_parts unit (option (str * str))).
Proof. solve_decision. Defined.

Definition demo_tx : Type := bool * nat.
Definition tx_text (t : demo_tx) : str := (if t.1 then 65%N else 66%N) :: replicate t.2 88%N.
Definition text_tx (x : str) : res demo_tx :=
  match x with c :: marks => Ok ((c =? 65)%N, length marks) | [] => Throw (new_error (js "XDR")) end.

Abbreviation ledger := (list (demo_tx * str) * scripted)%type.
#[local] Instance ledger_host : Host ledger := beside_host.
#[local] Instance ledger_laws : HostLaws ledger := beside_laws.
#[local] Instance no_wallets : BrowserWallets ledger := {| freighter := None; albedo := None |}.

Definition gateway_timeout : js_error := new_error (js "Request failed with status code 504").

(** [lost]: the answer to a submission does not arrive. *)
Definition sdk (lost : bool) : StellarSdk ledger := {|
  keypair := unit; kp_publicKey _ := js "GKEY"; kp_secret _ := js "SKEY";
  kp_fromSecret s := if starts_with (js "S") s then Ok tt else Throw (new_error (js "invalid"));
  kp_random := mret tt; PUBLIC_PASSPHRASE := js "public"; TESTNET_PASSPHRASE := js "test"; SDK_BASE_FEE := js "100";
  asset := option (str * str); asset_native := None; new_asset c i := Ok (Some (c, i));
  account := unit; account_balances _ := []; loadAccount _ := mret tt; fetchBaseFee := mret (num_of_Z 150);
  build_payment p := if decide (p = demo_parts) then Ok (tx_text (true, 0)) else Throw (new_error (js "unknown"));
  transaction := demo_tx; parse_transaction x _ := text_tx x; decode_signed x _ := text_tx x;
  sign_transaction t _ := (t.1, S t.2); transaction_xdr := tx_text;
  fee_bump := unit; buildFeeBumpTransaction _ _ _ _ := Throw (new_error (js "fee")); sign_fee_bump b _ := b; fee_bump_xdr _ := [];
  read_envelope _ _ := Throw (new_error (js "XDR"));
  submitTransaction t x := match t with
    | inl t => (if lost then Throw gateway_timeout else Ok (js "hash"), (x.1 ++ [(t, js "hash")], x.2))
    | inr _ => (Throw gateway_timeout, x) end |}.

Definition network (lost : bool) : PaymentNetwork ledger (SDK := sdk lost) := {|
  tx_payment (t : @transaction ledger (sdk lost)) := if t.1 then Some demo_parts else None;
  tx_signers (t : @transaction ledger (sdk lost)) := replicate t.2 (js "GKEY");
  included (x : ledger) := x.1 |}.

Lemma network_laws lost : PaymentLaws ledger (SDK := sdk lost) (PaymentNetwork0 := network lost).
Proof.
  split; cbn; try done.
  - intros parts xdr p t. destruct (decide (parts = demo_parts)) as [->|]; [|done]. intros [= <-] [= <-]. by split.
  - intros [b n] kp. cbn. split; [done|]. by rewrite replicate_cons_app.
  - intros [b n] p t'. cbn. intros [= <-]. cbn. rewrite length_replicate. by destruct b.
  - intros t [x w]. cbn. destruct lost; cbn; [right; by eexists|done].
Qed.

Definition w0 : ledger := ([], world [(AsyncStorage, KEY_STORAGE_KEY, js "SKEY")] [Throw sc_offline; reply 200 (js "{}")]).
Definition pay (lost : bool) :=
  submitPayment (SDK := sdk lost) (js "GDEST") (js "10") SLocal (js "GKEY") (Some (js "USDC")) (Some (js "GISSUER")) None (UiLog [] [], w0).


(** A submission whose answer is lost is reported as a failed payment, and is on the network. *)
Theorem lost_answer_reported_failed :
  (pay true).1 = Throw gateway_timeout ∧ (pay true).2.2.1 = [((true, 1), js "hash")].
Proof. by split; vm_compute. Qed.
End Runs.
