(* ===== verification/MobileServices.v ===== *)
(** * Crash reports, claims, social calls and avatars

    Models of [mobileapp/src/services/crashReporter.ts], [sdpService.ts] with the claim screen
    [app/claim/[token].tsx], [socialService.ts] and [avatarService.ts]. They reach the backend
    through [fetch], [Retry] and [MobileApi]. *)

From S2P Require Import Prelude JsString JsNumber UriCodec JsDate Json Effects Decode Scripts MobileApi Retry SdpDeepLink.

(** ** Crash reports *)

Module Crashes.
Definition CRASH_QUEUE_KEY : str := js "zaps_crash_reports".
Definition MAX_QUEUED_REPORTS : nat := 20.

Record CrashReport := MkReport {
  cr_message : str; cr_stack : option str; cr_componentStack : option str; cr_occurredAt : str }.

#[export] Instance crash_report_codec : Codec CrashReport := {
  to_json r := literal [present (js "message") (JStr (cr_message r)); optional (js "stack") (cr_stack r);
                        optional (js "componentStack") (cr_componentStack r);
                        present (js "occurredAt") (JStr (cr_occurredAt r))];
  of_json v :=
    message ← field_str (js "message") v;
    stack ← field_opt_str (js "stack") v;
    componentStack ← field_opt_str (js "componentStack") v;
    occurredAt ← field_str (js "occurredAt") v;
    Some (MkReport message stack componentStack occurredAt);
  storable _ := True;
}.

#[export] Instance crash_report_codec_laws : CodecLaws CrashReport.
Proof.
  split; intros [m s c o] _; cbn [to_json of_json crash_report_codec cr_message cr_stack cr_componentStack cr_occurredAt].
  - read_literal. by rewrite !optional_view.
  - solve_literal_ok.
Qed.

Section Reporter.
Context `{ApiEnv, Host W}.

(** What [fetch] and the bridges of the phone say when there is no network. *)
Definition isNetworkError (error : js_error) : bool :=
  includes (js "Network request failed") (err_message error) || includes (js "Network Error") (err_message error).

Definition readQueue : M W (list CrashReport) :=
  parsed ← try_catch
    (raw ← st_get AsyncStorage CRASH_QUEUE_KEY;
     match raw with
     | Some raw => if truthy raw then JSON_parse raw else mret (JArr [])
     | None => mret (JArr [])
     end)
    (λ _, mret (JArr []));
  cast parsed.

Definition crash_request (queue : list CrashReport) : request :=
  Request (API_BASE ++ js "/api/v1/crashes") (js "POST") [content_type_json]
    (Some (stringify (JObj [(js "reports", to_json queue)]))).

Definition flushCrashReports : M W unit :=
  queue ← readQueue;
  match queue with
  | [] => mret tt
  | _ => swallow (res ← fetch (crash_request queue);
                  if rs_ok res then st_del AsyncStorage CRASH_QUEUE_KEY else mret tt)
  end.

Definition keep_latest (l : list CrashReport) : list CrashReport := drop (length l - MAX_QUEUED_REPORTS) l.

(** The stack of an error is the runtime's. *)
Definition reportCrash (error : js_error) (stack componentStack : option str) : M W unit :=
  swallow (queue ← readQueue;
           now ← date_now;
           st_set AsyncStorage CRASH_QUEUE_KEY
             (to_text (keep_latest (queue ++ [MkReport (err_message error) stack componentStack (to_iso now)])));;
           isConnected ← net_connected;
           match isConnected with
           | Some true => flushCrashReports
           | _ => mret tt
           end).

Definition reportNetworkCrash (error : js_error) (stack : option str) : M W unit :=
  if isNetworkError error then reportCrash error stack None else mret tt.
End Reporter.

Section Spec.
Context `{ApiEnv, HostLaws W}.

(** The queue the store holds. *)
Definition queued (w : W) (queue : list CrashReport) : Prop :=
  st_peek w AsyncStorage CRASH_QUEUE_KEY = Some (to_text queue) ∨
  (st_peek w AsyncStorage CRASH_QUEUE_KEY = None ∧ queue = []).

Lemma all_storable (q : list CrashReport) : storable q.
Proof. by apply Forall_true. Qed.

Lemma report_queue_run w q : st_live w → queued w q → ∃ w', readQueue w = (Ok q, w') ∧ kept w w'.
Proof.
  intros L Q. destruct (get_live AsyncStorage CRASH_QUEUE_KEY w L) as (w1 & E1 & K1). exists w1. split; [|done].
  unfold readQueue. rewrite run_bind. unfold try_catch. rewrite (run_bind_ok _ _ _ _ _ E1).
  destruct Q as [-> | [-> ->]]; [|done]. rewrite to_text_list_truthy. unfold JSON_parse.
  destruct (parse_to_text q (all_storable q)) as (v & Ev & Ed). rewrite Ev. cbn [mret M_ret]. unfold cast. by rewrite Ed.
Qed.

Definition accepted (r : res response) : bool := match r with Ok x => rs_ok x | Throw _ => false end.

Lemma report_flush_run w q : st_live w → queued w q → q ≠ [] → ∃ r w',
  flushCrashReports w = (Ok tt, w') ∧ net_trace w' = net_trace w ++ [(crash_request q, r)] ∧
  queued w' (if accepted r then [] else q) ∧
  (∀ s k, (s, k) ≠ (AsyncStorage, CRASH_QUEUE_KEY) → st_peek w' s k = st_peek w s k).
Proof.
  intros L Q Hq. destruct (report_queue_run w q L Q) as (w1 & E1 & K1). unfold flushCrashReports. run_step E1.
  destruct q as [|x q]; [done|]. destruct (fetch_spec (crash_request (x :: q)) w1) as (r & w2 & E2 & S2).
  assert (Q2 : queued w2 (x :: q)) by (unfold queued; by rewrite (sent_peek _ _ _ _ S2), (kept_peek _ _ K1)).
  assert (P2 : ∀ s k, st_peek w2 s k = st_peek w s k) by (intros; by rewrite (sent_peek _ _ _ _ S2), (kept_peek _ _ K1)).
  assert (T2 : net_trace w2 = net_trace w ++ [(crash_request (x :: q), r)]) by (by rewrite (sent_trace _ _ _ _ S2), (kept_trace _ _ K1)).
  exists r. unfold swallow, try_catch. destruct r as [y|e].
  2:{ rewrite (run_bind_throw _ _ _ _ _ E2). by exists w2. }
  rewrite (run_bind_ok _ _ _ _ _ E2). cbn [accepted]. destruct (rs_ok y); [|by exists w2].
  destruct (del_live AsyncStorage CRASH_QUEUE_KEY w2) as (w3 & E3 & S3).
  { apply (sent_live _ _ _ _ S2), (kept_live _ _ K1), L. }
  exists w3. rewrite E3. split; [done|]. split; [by rewrite (stored_trace _ _ _ _ _ S3)|]. split.
  - right. split; [apply S3|done].
  - intros s k Hne. by rewrite (stored_ne _ _ _ _ _ S3).
Qed.

(** a crash is never lost silently and never thrown into the caller: its report is saved
    as the last of the at most twenty newest, and either stays saved or the backend has
    accepted, with a 2xx answer, one request that carries the whole queue; nothing is sent
    without a connection, and no other entry of the stores changes. *)
Theorem crash_report_fate error stack componentStack w q :
  st_live w → queued w q → ∃ now w',
  let next := keep_latest (q ++ [MkReport (err_message error) stack componentStack (to_iso now)]) in
  reportCrash error stack componentStack w = (Ok tt, w') ∧
  length next ≤ MAX_QUEUED_REPORTS ∧ last next = Some (MkReport (err_message error) stack componentStack (to_iso now)) ∧
  ((net_trace w' = net_trace w ∧ queued w' next) ∨
   ∃ r, net_trace w' = net_trace w ++ [(crash_request next, r)] ∧ queued w' (if accepted r then [] else next)) ∧
  (∀ s k, (s, k) ≠ (AsyncStorage, CRASH_QUEUE_KEY) → st_peek w' s k = st_peek w s k).
Proof.
  intros L Q. destruct (report_queue_run w q L Q) as (w1 & E1 & K1). destruct (now_spec w1) as (now & w2 & E2 & K2 & _).
  set (report := MkReport (err_message error) stack componentStack (to_iso now)). set (next := keep_latest (q ++ [report])).
  assert (Bound : length next ≤ MAX_QUEUED_REPORTS) by (unfold next, keep_latest; rewrite length_drop; lia).
  assert (Last : last next = Some report).
  { unfold next, keep_latest. rewrite drop_app_le by (rewrite length_app; cbn; unfold MAX_QUEUED_REPORTS; lia). by rewrite last_snoc. }
  destruct (set_live AsyncStorage CRASH_QUEUE_KEY (to_text next) w2) as (w3 & E3 & S3).
  { by apply (kept_live _ _ K2), (kept_live _ _ K1). }
  destruct (net_spec w3) as (c & w4 & E4 & K4).
  assert (Q4 : queued w4 next) by (left; rewrite (kept_peek _ _ K4); apply S3).
  assert (T4 : net_trace w4 = net_trace w) by (by rewrite (kept_trace _ _ K4), (stored_trace _ _ _ _ _ S3), (kept_trace _ _ K2), (kept_trace _ _ K1)).
  assert (P4 : ∀ s k, (s, k) ≠ (AsyncStorage, CRASH_QUEUE_KEY) → st_peek w4 s k = st_peek w s k).
  { intros s k Hne. by rewrite (kept_peek _ _ K4), (stored_ne _ _ _ _ _ S3), (kept_peek _ _ K2), (kept_peek _ _ K1). }
  assert (L4 : st_live w4) by (by apply (kept_live _ _ K4), (stored_live _ _ _ _ _ S3), (kept_live _ _ K2), (kept_live _ _ K1)).
  exists now. unfold reportCrash, swallow, try_catch. run_step E1. run_step E2. fold report. fold next. run_step E3. run_step E4.
  destruct c as [[]|]; [|exists w4; split_and!; eauto..].
  destruct (report_flush_run w4 next L4 Q4) as (r & w5 & E5 & T5 & Q5 & P5); [by intros Hn; rewrite Hn in Last|].
  rewrite E5. exists w5. split_and!; [done..|right; exists r; by rewrite T5, T4|]. intros s k Hne. by rewrite P5, P4.
Qed.
End Spec.
End Crashes.

(** ** Claims *)

Module Claims.
Definition TOKEN_KEY : str := js "auth_token".

(** The answer while the endpoint is not live. *)
Definition mock_result : json :=
  literal [present (js "status") (JStr (js "valid")); present (js "amount") (JStr (js "5,000.00"));
           present (js "assetCode") (JStr (js "USDC"))].

Section Service.
Context `{ApiEnv, Host W}.

Definition getAuthHeaders : M W (list (str * str)) :=
  token ← st_get AsyncStorage TOKEN_KEY;
  mret (content_type_json :: auth_header token).

Definition claim_request (headers : list (str * str)) (encoded : str) : request :=
  Request (API_BASE ++ js "/api/disbursements/claim/validate?token=" ++ encoded) (js "GET") headers None.

Definition validateClaimToken (token : str) : M W json :=
  headers ← getAuthHeaders;
  try_catch
    (encoded ← encode_uri token;
     res ← fetch (claim_request headers encoded);
     if rs_ok res then response_json res
     else throw (new_error (js "HTTP " ++ Z_to_str (rs_status res))))
    (λ _, mret mock_result).

(** *** The claim screen *)

Inductive ScreenState := Validating | Result | Error | InvalidToken.

Record claim_screen := ClaimScreen {
  cs_tokenInput : str; cs_state : ScreenState; cs_result : option json; cs_tokenError : option str }.

Definition initial_screen (routeToken : option str) : claim_screen :=
  ClaimScreen (default [] routeToken) (if truthy_opt routeToken then Validating else InvalidToken) None None.

(** The effect on a new route parameter: the field only. *)
Definition route_changed (routeToken : option str) (s : claim_screen) : claim_screen :=
  match routeToken with
  | Some t => if truthy t && negb (str_eqb t (cs_tokenInput s))
              then ClaimScreen t (cs_state s) (cs_result s) None else s
  | None => s
  end.

Definition edit_token (text : str) (s : claim_screen) : claim_screen :=
  ClaimScreen text (cs_state s) (cs_result s) None.

Definition set_screen (state : ScreenState) (s : claim_screen) : claim_screen :=
  ClaimScreen (cs_tokenInput s) state (cs_result s) (cs_tokenError s).
Definition set_token_error (e : option str) (s : claim_screen) : claim_screen :=
  ClaimScreen (cs_tokenInput s) (cs_state s) (cs_result s) e.
Definition set_result (r : json) (s : claim_screen) : claim_screen :=
  ClaimScreen (cs_tokenInput s) (cs_state s) (Some r) (cs_tokenError s).

Definition runValidation (token : option str) : M (claim_screen * W) unit :=
  s ← get_state;
  let effectiveToken := trim (default (cs_tokenInput s) token) in
  if negb (truthy effectiveToken) then
    modify_state (set_screen InvalidToken ∘ set_token_error (Some (js "Please enter a claim token.")))
  else if negb (isValidSdpToken effectiveToken) then
    modify_state (set_screen InvalidToken ∘
      set_token_error (Some (js "The token format is invalid. Please check the link and try again.")))
  else
    modify_state (set_screen Validating ∘ set_token_error None);;
    try_catch
      (validation ← host (validateClaimToken effectiveToken);
       modify_state (set_screen Result ∘ set_result validation))
      (λ _, modify_state (set_screen Error)).

Inductive claim_body :=
  BValidating | BEnterToken (error : option str) | BSomethingWrong | BWaiting (text : str)
  | BAlreadyClaimed | BExpired | BNotRecognized.

Definition renderBody (s : claim_screen) : claim_body :=
  match cs_state s with
  | Validating => BValidating
  | InvalidToken => BEnterToken (cs_tokenError s)
  | Error => BSomethingWrong
  | Result =>
      if negb (json_truthy (cs_result s)) then BSomethingWrong
      else
        let result := default JNull (cs_result s) in
        match field_str (js "status") result with
        | Some status =>
            if str_eqb status (js "valid") then
              BWaiting (if json_truthy (json_get (js "amount") result)
                        then json_to_string (default JNull (json_get (js "amount") result)) ++ js " "
                             ++ match json_get (js "assetCode") result with
                                | None | Some JNull => [] | Some v => json_to_string v end
                             ++ js " is ready to be claimed."
                        else js "Your disbursement is ready to be claimed.")
            else if str_eqb status (js "already_claimed") then BAlreadyClaimed
            else if str_eqb status (js "expired") then BExpired
            else BNotRecognized
        | None => BNotRecognized
        end
  end.

(** The screen a link opens, its first validation settled. *)
Definition open_claim (routeToken : str) : M (claim_screen * W) unit := runValidation (Some routeToken).
End Service.

Section Spec.
Context `{ApiEnv, HostLaws W}.

Lemma token_unit_range c : token_unit c = true → (45 <= c <= 122)%N.
Proof.
  unfold token_unit, is_alpha, is_upper, is_lower, is_digit. cbn [existsb].
  rewrite !orb_true_iff, !andb_true_iff, !N.leb_le, !N.eqb_eq. lia.
Qed.

Lemma token_unit_not_ws c : token_unit c = true → is_ws c = false.
Proof.
  intros Hc%token_unit_range. apply not_true_iff_false. unfold is_ws.
  rewrite !orb_true_iff, !andb_true_iff, !N.leb_le, !N.eqb_eq. lia.
Qed.

Lemma drop_ws_token s : forallb token_unit s = true → drop_while is_ws s = s.
Proof. destruct s as [|c s]; [done|]. cbn. intros [Hc _]%andb_true_iff. by rewrite token_unit_not_ws. Qed.

Lemma trim_token s : isValidSdpToken s = true → trim s = s.
Proof.
  intros Hs. apply andb_true_iff in Hs as [_ Hs]. unfold trim, trim_start, trim_end. rewrite (drop_ws_token s) by done.
  rewrite drop_ws_token, rev_involutive; [done|]. rewrite forallb_forall in *. intros c Hc. apply Hs. by apply in_rev.
Qed.

Lemma encode_token s : isValidSdpToken s = true → encodeURIComponent s = Some s.
Proof.
  intros Hs. apply encode_unreserved. apply andb_true_iff in Hs as [_ Hs].
  rewrite forallb_forall in *. intros c Hc. specialize (Hs c Hc). revert Hs. unfold token_unit, uri_unreserved. cbn [existsb].
  rewrite !orb_true_iff. tauto.
Qed.

(** What a reply of the endpoint puts on the screen. *)
Definition card_of (r : res response) : json :=
  match r with
  | Ok x => if rs_ok x then default mock_result (json_parse (rs_body x)) else mock_result
  | Throw _ => mock_result
  end.

(** opening a claim link with a well-formed token sends one request, and the card shown
    is the one of its 2xx answer. Any other reply, a refusal of an expired or unknown claim
    included, shows that 5,000.00 USDC are waiting; a malformed token sends nothing. A link
    opened while the screen is up changes the token in the field and keeps the card. *)
Theorem claim_card_for_reply token (w : W) :
  st_live w → isValidSdpToken token = true → ∃ r s' w',
  open_claim token (initial_screen (Some token), w) = (Ok tt, (s', w')) ∧
  net_trace w' = net_trace w ++
    [(claim_request (content_type_json :: auth_header (st_peek w AsyncStorage TOKEN_KEY)) token, r)] ∧
  s' = ClaimScreen token Result (Some (card_of r)) None ∧
  (Crashes.accepted r = false → renderBody s' = BWaiting (js "5,000.00 USDC is ready to be claimed.")) ∧
  (∀ other, other ≠ [] → let s2 := route_changed (Some other) s' in
     cs_tokenInput s2 = other ∧ renderBody s2 = renderBody s') ∧
  (∀ bad w0, isValidSdpToken (trim bad) = false →
     ∃ s3, open_claim bad (initial_screen (Some bad), w0) = (Ok tt, (s3, w0)) ∧
           ∃ e, renderBody s3 = BEnterToken (Some e)).
Proof.
  intros L Ht. destruct (get_live AsyncStorage TOKEN_KEY w L) as (w1 & E1 & K1).
  set (headers := content_type_json :: auth_header (st_peek w AsyncStorage TOKEN_KEY)).
  destruct (fetch_spec (claim_request headers token) w1) as (r & w2 & E2 & S2).
  assert (V : validateClaimToken token w = (Ok (card_of r), w2)).
  { unfold validateClaimToken, getAuthHeaders. rewrite run_bind, (run_bind_ok _ _ _ _ _ E1). cbn [mret M_ret]. fold headers.
    unfold try_catch, encode_uri. rewrite (encode_token _ Ht), (run_bind_ok _ _ _ _ _ (run_ret token w1)).
    destruct r as [x|e]; [|by rewrite (run_bind_throw _ _ _ _ _ E2)]. rewrite (run_bind_ok _ _ _ _ _ E2).
    cbn [card_of]. destruct (rs_ok x); [|done]. unfold response_json, JSON_parse. by destruct (json_parse (rs_body x)). }
  exists r, (ClaimScreen token Result (Some (card_of r)) None), w2.
  assert (Tr : truthy token = true) by (apply truthy_true; by intros ->).
  split; [|split; [by rewrite (sent_trace _ _ _ _ S2), (kept_trace _ _ K1)|split; [done|split; [|split]]]].
  - unfold open_claim, runValidation. rewrite (run_bind_ok _ _ _ _ _ (run_get_state _ _)). cbn [from_option id]. cbv zeta. rewrite trim_token by done.
    rewrite Tr, Ht. cbn [negb]. rewrite (run_bind_ok _ _ _ _ _ (run_modify_state _ _ _)). unfold try_catch.
    rewrite (run_bind_ok _ _ _ _ _ (run_host _ _ _ _ _ V)), run_modify_state. done.
  - intros Hr. assert (E : card_of r = mock_result) by (destruct r as [x|]; [cbn in *; by rewrite Hr|done]). by rewrite E.
  - intros other Ho. unfold route_changed. rewrite (proj2 (truthy_true other) Ho). cbn [cs_tokenInput andb].
    destruct (str_eqb other token) eqn:E; cbn [negb]; [|done]. by apply str_eqb_true in E as ->.
  - intros bad w0 Hb. unfold open_claim, runValidation. rewrite (run_bind_ok _ _ _ _ _ (run_get_state _ _)). cbn [from_option id]. cbv zeta.
    destruct (truthy (trim bad)); cbn [negb]; rewrite ?Hb; cbn [negb]; rewrite run_modify_state; eexists; (split; [done|by eexists]).
Qed.
End Spec.
End Claims.

(** ** Social calls *)

Module Social.
Section Service.
Context `{Env : ApiEnv, Host W}.
Abbreviation social := (M (ui_log * W)).

Definition SOCIAL_BASE : str :=
  match EXPO_PUBLIC_API_URL with
  | Some u => if truthy u then u else js "http://localhost:8080"
  | None => js "http://localhost:8080"
  end.

Definition authHeaders : social (list (str * str)) :=
  token ← host getSessionToken;
  mret (content_type_json :: auth_header token).

Definition no_options : RetryOptions := MkRetry None None None None.

Definition social_call (path method : str) (body : option json) : social response :=
  headers ← authHeaders;
  fetchWithRetry (Request (SOCIAL_BASE ++ path) method headers (stringify <$> body)) no_options.

Definition fetchFeed : social json :=
  res ← social_call (js "/api/social/feed") (js "GET") None;
  response_json res.

Definition payment_body (paymentId : str) : json := JObj [(js "payment_id", JStr paymentId)].

Definition likePayment (paymentId : str) : social unit :=
  social_call (js "/api/social/like") (js "POST") (Some (payment_body paymentId));; mret tt.

Definition unlikePayment (paymentId : str) : social unit :=
  social_call (js "/api/social/unlike") (js "DELETE") (Some (payment_body paymentId));; mret tt.

Definition addComment (paymentId content : str) : social json :=
  res ← social_call (js "/api/social/comment") (js "POST")
          (Some (JObj [(js "payment_id", JStr paymentId); (js "content", JStr content)]));
  response_json res.
End Service.

Section Spec.
Context `{Env : ApiEnv, HostLaws W}.

(** The request every attempt of a call sends. *)
Definition social_request (token : option str) (path method : str) (body : option json) : request :=
  Request (SOCIAL_BASE ++ path) method (spread_headers [content_type_json] (content_type_json :: auth_header token))
    (stringify <$> body).

Lemma social_call_run path method body l (w : W) :
  st_live w → ∃ rs last out l' w', social_call path method body (l, w) = (out, (l', w')) ∧
    length rs ≤ 3 ∧ Forall refused rs ∧
    net_trace w' = net_trace w ++ (pair (social_request (token_of w) path method body) <$> (rs ++ [last])) ∧
    (length rs < 3 → ¬ refused last) ∧ (∀ r, out = Ok r → last = Ok r ∧ rs_ok r = true).
Proof.
  intros L. destruct (getSessionToken_run w L) as (w1 & E1 & K1). unfold social_call, authHeaders.
  rewrite run_bind, (run_bind_ok _ _ _ _ _ (run_host _ l _ _ _ E1)). cbn [mret M_ret].
  destruct (fetchWithRetry_run (Request (SOCIAL_BASE ++ path) method (content_type_json :: auth_header (token_of w)) (stringify <$> body))
    no_options l w1) as (rs & last & out & [l' w'] & E & Hn & Hr & Ht & _ & Hl & Hok); [cbn; lia|].
  exists rs, last, out, l', w'. split; [exact E|]. split; [exact Hn|]. split; [done|].
  split; [|by split]. cbn [snd] in Ht. by rewrite Ht, (kept_trace _ _ K1).
Qed.

(** a comment is posted with the session token, again and again while the network or the
    backend refuses it, at most four times in all and always as the same request; the answer
    is that of the last attempt. Nothing in the request tells the backend that two attempts
    are one comment. *)
Theorem comment_attempts paymentId content l (w : W) :
  st_live w → ∃ rs last out l' w',
  let rq := social_request (token_of w) (js "/api/social/comment") (js "POST")
    (Some (JObj [(js "payment_id", JStr paymentId); (js "content", JStr content)])) in
  addComment paymentId content (l, w) = (out, (l', w')) ∧
  net_trace w' = net_trace w ++ (pair rq <$> (rs ++ [last])) ∧ length rs ≤ 3 ∧ Forall refused rs ∧
  (length rs < 3 → ¬ refused last) ∧
  (∀ v, out = Ok v → ∃ r, last = Ok r ∧ rs_ok r = true ∧ json_parse (rs_body r) = Some v) ∧
  (∀ t, token_of w = Some t → t ≠ [] → header (js "Authorization") (rq_headers rq) = Some (js "Bearer " ++ t)).
Proof.
  intros L. set (body := Some (JObj _)).
  destruct (social_call_run (js "/api/social/comment") (js "POST") body l w L) as (rs & last & out & l' & w' & E & Hn & Hr & Ht & Hl & Hok).
  assert (Hd : ∀ t, token_of w = Some t → t ≠ [] →
    header (js "Authorization") (rq_headers (social_request (token_of w) (js "/api/social/comment") (js "POST") body)) = Some (js "Bearer " ++ t)).
  { intros t -> Hne. apply (header_bearer [content_type_json] [content_type_json]). by apply truthy_true. }
  unfold addComment. fold body. rewrite run_bind, E. destruct out as [r|e].
  - destruct (Hok r eq_refl) as [-> Hr2]. unfold response_json, JSON_parse.
    destruct (json_parse (rs_body r)) as [v|] eqn:Ev; eexists rs, (Ok r), _, l', w'; (split; [done|]); split_and!; try done.
    intros v' [= <-]. by exists r.
  - exists rs, last, (Throw e), l', w'. by split_and!.
Qed.
End Spec.
End Social.

(** ** Avatars *)

Module Avatars.
Definition MAX_FILE_SIZE : Z := 5 * 1024 * 1024.

(** The file system of the phone: the size of a file that exists. *)
Class FileSystem (W : Type) := getInfoAsync : str → M W (option Z).

Class FileSystemLaws (W : Type) `{Host W, FS : !FileSystem W} : Prop :=
  info_keeps : ∀ uri (w : W), kept w (getInfoAsync uri w).2.

(** The text of the multipart body: location, name and type of the file. *)
Class AvatarForm := avatar_body : str → str → str → str.

Definition avatar_error (message code : str) : js_error := JsError message (Some code) None.
Definition UPLOAD_FAILED : str := js "UPLOAD_FAILED".

Section Service.
Context `{Env : ApiEnv, UnicodeCase, Form : AvatarForm, Host W, FS : !FileSystem W}.

(** [uri.split(c).pop()] *)
Definition last_part (c : N) (uri : str) : str := default [] (last (split_on c uri)).

Definition mime_types : list (str * str) :=
  [(js "jpg", js "image/jpeg"); (js "jpeg", js "image/jpeg"); (js "png", js "image/png");
   (js "heic", js "image/heic"); (js "heif", js "image/heif"); (js "webp", js "image/webp")].

Definition resolveMimeType (uri : str) : str :=
  default (js "image/jpeg") (snd <$> find (λ p, str_eqb p.1 (to_lower (last_part 46 uri))) mime_types).

Definition check_size (localUri : str) : M W unit :=
  try_catch
    (info ← getInfoAsync localUri;
     match info with
     | Some size => if (MAX_FILE_SIZE <? size)%Z
                    then throw (avatar_error (js "Image exceeds the 5 MB limit. Please choose a smaller photo.") (js "FILE_TOO_LARGE"))
                    else mret tt
     | None => mret tt
     end)
    (λ err, match err_code err with
            | Some c => if truthy c then throw err else throw (avatar_error (js "Unable to read the selected image.") (js "READ_FAILED"))
            | None => throw (avatar_error (js "Unable to read the selected image.") (js "READ_FAILED"))
            end).

Definition upload_request (localUri : str) (authToken : option str) : request :=
  Request (API_BASE ++ js "/api/avatar/upload") (js "POST") (auth_header authToken)
    (Some (avatar_body localUri (last_part 47 localUri) (resolveMimeType localUri))).

Definition profile_init (avatarUrl : str) : request_init :=
  RequestInit (Some (js "PATCH")) [] (Some (stringify (JObj [(js "avatar_url", JStr avatarUrl)]))).

(** The reply of the proxy, up to the address it must hold. *)
Definition uploaded_url (uploadRes : response) : M (api_state * W) str :=
  if negb (rs_ok uploadRes) then
    throw (avatar_error (js "Avatar upload failed (" ++ Z_to_str (rs_status uploadRes) ++ js "): " ++ rs_body uploadRes) UPLOAD_FAILED)
  else
    data ← response_json uploadRes;
    avatarUrl ← read_prop (js "avatarUrl") data;
    if json_truthy avatarUrl then as_string avatarUrl
    else throw (avatar_error (js "Server did not return an avatar URL.") UPLOAD_FAILED).

Definition uploadAvatar (localUri : str) (authToken : option str) : M (api_state * W) str :=
  host (check_size localUri);;
  uploadRes ← try_catch (host (fetch (upload_request localUri authToken)))
    (λ _, throw (avatar_error (js "Network error while uploading avatar. Please try again.") UPLOAD_FAILED));
  avatarUrl ← uploaded_url uploadRes;
  swallow (profileRes ← apiFetch (API_BASE ++ js "/api/users/me") (profile_init avatarUrl);
           if rs_ok profileRes then mret tt
           else throw (new_error (js "HTTP " ++ Z_to_str (rs_status profileRes))));;
  mret avatarUrl.
End Service.

Section Spec.
Context `{Env : ApiEnv, UnicodeCase, Form : AvatarForm, HostLaws W, FS : !FileSystem W, !FileSystemLaws W}.

(** What the check of the file says. *)
Definition size_verdict (info : res (option Z)) : option js_error :=
  match info with
  | Ok (Some size) => if (MAX_FILE_SIZE <? size)%Z
      then Some (avatar_error (js "Image exceeds the 5 MB limit. Please choose a smaller photo.") (js "FILE_TOO_LARGE")) else None
  | Ok None => None
  | Throw e => Some (if truthy_opt (err_code e) then e else avatar_error (js "Unable to read the selected image.") (js "READ_FAILED"))
  end.

Lemma check_size_run localUri (w : W) :
  check_size localUri w =
    (match size_verdict (getInfoAsync localUri w).1 with Some e => Throw e | None => Ok tt end, (getInfoAsync localUri w).2).
Proof.
  unfold check_size, try_catch. rewrite run_bind. destruct (getInfoAsync localUri w) as [[[size|]|e] w']; cbn [fst snd size_verdict].
  - by destruct (MAX_FILE_SIZE <? size)%Z.
  - done.
  - destruct (err_code e) as [[|c m]|]; done.
Qed.

(** What a reply of the proxy makes of the upload. *)
Definition upload_outcome (r : res response) : res str :=
  match r with
  | Throw _ => Throw (avatar_error (js "Network error while uploading avatar. Please try again.") UPLOAD_FAILED)
  | Ok x =>
      if negb (rs_ok x) then
        Throw (avatar_error (js "Avatar upload failed (" ++ Z_to_str (rs_status x) ++ js "): " ++ rs_body x) UPLOAD_FAILED)
      else match json_parse (rs_body x) with
           | None => Throw syntax_error
           | Some JNull => Throw type_error
           | Some v => if json_truthy (json_get (js "avatarUrl") v)
                       then match json_get (js "avatarUrl") v with Some (JStr u) => Ok u | _ => Throw unchecked_cast end
                       else Throw (avatar_error (js "Server did not return an avatar URL.") UPLOAD_FAILED)
           end
  end.

Lemma uploaded_url_run x (sw : api_state * W) : uploaded_url x sw = (upload_outcome (Ok x), sw).
Proof.
  unfold uploaded_url, upload_outcome. destruct (rs_ok x); [|done]. cbn [negb]. unfold response_json, JSON_parse.
  rewrite run_bind. destruct (json_parse (rs_body x)) as [[|b|n|s|l|o]|]; try done; cbn [mret M_ret read_prop];
    rewrite run_bind; cbn [mret M_ret]; destruct (json_truthy _); try done;
    by destruct (json_get (js "avatarUrl") _) as [[]|].
Qed.

(** a file over 5 MB or one that cannot be read is refused before anything is sent. Else
    the file is sent once, and the address of a 2xx answer is the result, whatever becomes of
    the one request that then writes it to the profile; every other answer is an error. *)
Theorem avatar_outcome localUri authToken s (w : W) :
  st_live w → ∃ out s' w', uploadAvatar localUri authToken (s, w) = (out, (s', w')) ∧
  match size_verdict (getInfoAsync localUri w).1 with
  | Some e => out = Throw e ∧ net_trace w' = net_trace w ∧ is_Some (err_code e)
  | None => ∃ r, out = upload_outcome r ∧
      match out with
      | Throw _ => net_trace w' = net_trace w ++ [(upload_request localUri authToken, r)]
      | Ok url => ∃ r2, net_trace w' = net_trace w ++
          [(upload_request localUri authToken, r);
           (api_request (token_of w) (API_BASE ++ js "/api/users/me") (profile_init url), r2)]
      end
  end.
Proof.
  intros L. unfold uploadAvatar. pose proof (info_keeps localUri w) as K1. pose proof (check_size_run localUri w) as E1.
  set (w1 := (getInfoAsync localUri w).2) in *. destruct (size_verdict _) as [e|] eqn:Ev.
  { rewrite (run_bind_throw _ _ _ _ _ (run_host _ s _ _ _ E1)). exists (Throw e), s, w1. split; [done|]. split; [done|].
    split; [apply K1|]. destruct (getInfoAsync localUri w).1 as [[size|]|e']; cbn in Ev; [|done|].
    - destruct (_ <? size)%Z; simplify_eq. by eexists.
    - destruct (truthy_opt (err_code e')) eqn:T; simplify_eq; [|by eexists]. by destruct (err_code e) as [[]|]. }
  rewrite (run_bind_ok _ _ _ _ _ (run_host _ s _ _ _ E1)).
  destruct (fetch_spec (upload_request localUri authToken) w1) as (r & w2 & E2 & S2).
  assert (T2 : net_trace w2 = net_trace w ++ [(upload_request localUri authToken, r)]) by (by rewrite (sent_trace _ _ _ _ S2), (kept_trace _ _ K1)).
  destruct r as [x|e].
  2:{ eexists (Throw _), s, w2. split; [rewrite run_bind; unfold try_catch; by rewrite (run_host _ s _ _ _ E2)|]. by exists (Throw e). }
  rewrite (run_bind_ok _ _ _ _ _ (run_try_ok _ _ _ _ _ (run_host _ s _ _ _ E2))). rewrite run_bind, uploaded_url_run.
  destruct (upload_outcome (Ok x)) as [url|e] eqn:Eo.
  2:{ exists (Throw e), s, w2. split; [done|]. by exists (Ok x). }
  assert (L2 : st_live w2) by (by apply (sent_live _ _ _ _ S2), (kept_live _ _ K1)).
  destruct (apiFetch_run (API_BASE ++ js "/api/users/me") (profile_init url) s w2 L2) as (r2 & s3 & w3 & E3 & _ & T3 & _).
  assert (Tok : token_of w2 = token_of w) by (unfold token_of; by rewrite (sent_peek _ _ _ _ S2), (kept_peek _ _ K1)).
  exists (Ok url), s3, w3. split.
  - rewrite run_bind. unfold swallow, try_catch. rewrite run_bind, E3. destruct r2 as [y|e]; [|done]. by destruct (rs_ok y).
  - exists (Ok x). split; [done|]. exists r2. by rewrite T3, T2, Tok, <-app_assoc.
Qed.
End Spec.
End Avatars.

Module Runs.
#[local] Existing Instance ascii_case.
#[local] Instance demo_env : ApiEnv := None.
#[local] Instance demo_form : Avatars.AvatarForm := λ uri name mime, name ++ js ";" ++ mime.
#[local] Instance demo_files : Avatars.FileSystem scripted := λ uri w, (Ok (Some 1048576%Z), w).

#[local] Instance demo_files_laws : Avatars.FileSystemLaws scripted.
Proof. intros uri w. done. Qed.

Definition no_space : js_error := new_error (js "boom").
Definition online : scripted := world [] [Throw sc_offline; reply 200 (js "{}")].

(** The first crash waits for the connection; the second is sent with it. *)
Lemma crash_report_fate_witness :
  Crashes.queued (Crashes.reportCrash no_space None None online).2
    [Crashes.MkReport (js "boom") None None (js "2026-01-01T00:00:00.000Z")] ∧
  net_trace (Crashes.reportCrash no_space None None online).2 ≠ [].
Proof.
  destruct (Crashes.crash_report_fate no_space None None online []) as (now & w' & E & _ & _ & _ & _).
  - reflexivity.
  - right. by vm_compute.
  - rewrite E. assert (E' : w' = (Crashes.reportCrash no_space None None online).2) by (by rewrite E). cbn [snd]. rewrite E'.
    split; [left; by vm_compute|by vm_compute].
Defined.

Definition refused_claim : scripted := world [] [reply 410 (js "expired")].

(** A claim the backend refuses as expired. *)
Lemma claim_card_for_reply_witness :
  Claims.renderBody (Claims.open_claim (js "tok-123") (Claims.initial_screen (Some (js "tok-123")), refused_claim)).2.1
    = Claims.BWaiting (js "5,000.00 USDC is ready to be claimed.").
Proof.
  destruct (Claims.claim_card_for_reply (js "tok-123") refused_claim) as (r & s' & w' & E & T & _ & B & _).
  - reflexivity.
  - by vm_compute.
  - rewrite E. apply B. assert (T' : net_trace w' = net_trace (Claims.open_claim (js "tok-123") (Claims.initial_screen (Some (js "tok-123")), refused_claim)).2.2) by (by rewrite E).
    rewrite T in T'. vm_compute in T'. injection T' as ->. by vm_compute.
Defined.

Definition flaky : scripted := world [(SecureStore, SESSION_TOKEN_KEY, js "tok")] [Throw sc_offline; reply 200 (js "{}")].

Lemma comment_attempts_witness :
  ∃ rs last out l' w',
  let rq := Social.social_request (Some (js "tok")) (js "/api/social/comment") (js "POST")
    (Some (JObj [(js "payment_id", JStr (js "p1")); (js "content", JStr (js "hi"))])) in
  Social.addComment (js "p1") (js "hi") (UiLog [] [], flaky) = (out, (l', w')) ∧
  net_trace w' = pair rq <$> (rs ++ [last]) ∧ length rs = 1.
Proof.
  destruct (Social.comment_attempts (js "p1") (js "hi") (UiLog [] []) flaky ltac:(exact (eq_refl false))) as (rs & last & out & l' & w' & E & T & _).
  exists rs, last, out, l', w'. split; [exact E|]. split; [exact T|].
  assert (C : length (net_trace w') = 2).
  { replace w' with (Social.addComment (js "p1") (js "hi") (UiLog [] [], flaky)).2.2 by (by rewrite E). by vm_compute. }
  rewrite T, length_app, length_fmap, length_app in C. cbn in C. lia.
Defined.

Definition proxy : scripted := world [] [reply 200 (stringify (JObj [(js "avatarUrl", JStr (js "ipfs://Qm"))])); reply 500 []].

Lemma avatar_outcome_witness :
  (Avatars.uploadAvatar (js "file:///a/me.PNG") None (ApiState false 0, proxy)).1 = Ok (js "ipfs://Qm") ∧
  Avatars.resolveMimeType (js "file:///a/me.PNG") = js "image/png".
Proof.
  split; [|by vm_compute].
  destruct (Avatars.avatar_outcome (js "file:///a/me.PNG") None (ApiState false 0) proxy ltac:(exact (eq_refl false))) as (out & s' & w' & E & O).
  rewrite E. cbn [fst]. assert (E' : out = (Avatars.uploadAvatar (js "file:///a/me.PNG") None (ApiState false 0, proxy)).1) by (by rewrite E).
  rewrite E'. by vm_compute.
Defined.
End Runs.
