(* ===== verification/Contacts.v ===== *)
(** * Contact lookup

    Model of [mobileapp/src/services/contacts.ts]: phone numbers are normalised and hashed
    on the device, only the hashes are sent in batches, and the matches are joined with the
    local names. The digest, the address book and the interleaving of the per-contact tasks
    are parameters: the tasks may finish in any order ([Scheduler]). *)

From S2P Require Import Prelude JsString JsNumber UriCodec Json Effects Decode Scripts Hashing MobileApi.

Record MatchedContact := MkMatched {
  mc_contactName : str; mc_username : str; mc_address : str; mc_phoneNumber : str;
  mc_avatarUrl : option str }.

Inductive denial := Denied | Restricted | Unavailable.
Record ContactPermissionResult := MkPermission { cp_granted : bool; cp_reason : option denial }.

Record BackendContactMatch := MkMatch {
  bm_phone_hash : str; bm_username : str; bm_address : str; bm_avatar_url : option str }.

(** A device contact as far as it is read. *)
Record device_contact := MkContact {
  dc_name : option str; dc_firstName : option str; dc_lastName : option str;
  dc_phoneNumbers : option (list (option str)) }.

(** ** Normalisation and hashing *)

Definition normalizePhoneNumber (phone : str) : str :=
  match List.filter is_digit phone with
  | 48%N :: rest => rest
  | digitsOnly => digitsOnly
  end.

(** One round: [h ^= c; h = (h * 0x01000193) >>> 0], the product in double precision. *)
Definition fnv_round (h : Z) (c : N) : Z :=
  to_uint32 (num_mul (num_of_Z (to_int32 (Z.lxor h (Z.of_N c)))) (num_of_Z 16777619)).

(** [h.toString(16).padStart(8, "0")] of a 32-bit value *)
Definition hex8 (h : Z) : str :=
  (λ k, hex_lower (Z.to_N (Z.land (Z.shiftr h (4 * k)) 15))) <$> [7; 6; 5; 4; 3; 2; 1; 0]%Z.

Definition fnv_fallback (input : str) : str := hex8 (foldl fnv_round 2166136261%Z input).

(** FNV-1a over the same units, with the product taken modulo [2^32]. *)
Definition fnv1a (input : str) : str :=
  hex8 (foldl (λ h c, (Z.lxor h (Z.of_N c) * 16777619) mod 4294967296)%Z 2166136261%Z input).

Section Hashing.
Context `{Digest}.

Definition sha256Hex (input : str) : str :=
  match subtle_sha256 (text_encode input) with
  | Some hashArray => bytes_hex hashArray
  | None => fnv_fallback input
  end.

Definition hashPhoneNumber (rawPhone : str) : option str :=
  let normalised := normalizePhoneNumber rawPhone in
  if (length normalised <? 7)%nat then None else Some (sha256Hex normalised).

(** ** The hash map *)

Definition displayName (c : device_contact) : str :=
  let or_default (o : option str) (d : str) := match o with
    | Some s => if truthy s then s else d | None => d end in
  or_default (dc_name c)
    (or_default (Some (trim (default [] (dc_firstName c) ++ js " " ++ default [] (dc_lastName c))))
       (js "Unknown")).

(** A number to hash: the name shown and the raw text. *)
Definition job : Type := str * str.

Definition contact_jobs (c : device_contact) : list job :=
  (λ raw, (displayName c, raw)) <$>
    List.filter truthy ((λ o, default [] o) <$> default [] (dc_phoneNumbers c)).

(** [map], in insertion order: hash, contact name, normalised number. *)
Definition hash_map : Type := list (str * (str * str)).

Definition hm_get (h : str) (m : hash_map) : option (str * str) :=
  snd <$> find (λ e, str_eqb h e.1) m.

(** One task step: the first entry of a hash wins. *)
Definition add_job (m : hash_map) (j : job) : hash_map :=
  match hashPhoneNumber j.2 with
  | Some h => if truthy h then
                match hm_get h m with
                | Some _ => m
                | None => m ++ [(h, (j.1, normalizePhoneNumber j.2))]
                end
              else m
  | None => m
  end.

(** The order in which the concurrent tasks reach their entries. *)
Class Scheduler := schedule : list job → list job.

Definition buildPhoneHashMap `{Scheduler} (data : list device_contact) : hash_map :=
  foldl add_job [] (schedule (data ≫= contact_jobs)).
End Hashing.

(** ** The pipeline *)

(** The address book. *)
Class ContactBook (W : Type) := {
  requestPermissionsAsync : M W str;
  getContactsAsync : M W (list device_contact);
}.

#[export] Instance match_codec : Codec BackendContactMatch := {
  to_json m := literal [present (js "phone_hash") (JStr (bm_phone_hash m));
                        present (js "username") (JStr (bm_username m));
                        present (js "address") (JStr (bm_address m));
                        present (js "avatar_url") (null_str (bm_avatar_url m))];
  of_json v :=
    phone_hash ← field_str (js "phone_hash") v;
    username ← field_str (js "username") v;
    address ← field_str (js "address") v;
    avatar_url ← match json_get (js "avatar_url") v with
                 | None => Some None | _ => field_null_str (js "avatar_url") v end;
    Some (MkMatch phone_hash username address avatar_url);
  storable _ := True;
}.

Section Pipeline.
Context `{ApiEnv, Digest, Scheduler, Host W, !ContactBook W}.

Definition requestContactsPermission : M W ContactPermissionResult :=
  try_catch
    (status ← requestPermissionsAsync;
     mret (if str_eqb status (js "granted") then MkPermission true None
           else if str_eqb status (js "denied") then MkPermission false (Some Denied)
           else MkPermission false (Some Restricted)))
    (λ _, mret (MkPermission false (Some Unavailable))).

Definition match_request (phoneHashes : list str) (authToken : option str) : request :=
  Request (API_BASE ++ js "/api/v1/contacts/match") (js "POST")
    (content_type_json :: auth_header authToken)
    (Some (stringify (JObj [(js "phone_hashes", JArr (JStr <$> phoneHashes))]))).

Definition batchMatchContacts (phoneHashes : list str) (authToken : option str)
    : M W (list BackendContactMatch) :=
  match phoneHashes with
  | [] => mret []
  | _ =>
      response ← fetch (match_request phoneHashes authToken);
      if negb (rs_ok response) then
        throw (new_error (js "Contact match endpoint returned HTTP " ++ Z_to_str (rs_status response)))
      else
        body ← JSON_parse (rs_body response);
        matches ← read_prop (js "matches") body;
        match matches with
        | None | Some JNull => mret []
        | Some v => cast v
        end
  end.

(** The slices of the batch loop, for a positive batch size. *)
Fixpoint chunks (fuel batchSize : nat) (l : list str) : list (list str) :=
  match fuel with
  | O => []
  | S fuel' =>
      match l with
      | [] => []
      | _ => take batchSize l :: chunks fuel' batchSize (drop batchSize l)
      end
  end.

Definition join_match (hashMap : hash_map) (acc : list MatchedContact) (m : BackendContactMatch)
    : list MatchedContact :=
  match hm_get (bm_phone_hash m) hashMap with
  | Some (contactName, phoneNumber) =>
      acc ++ [MkMatched contactName (bm_username m) (bm_address m) phoneNumber (bm_avatar_url m)]
  | None => acc
  end.

Definition fetchMatchedContacts (authToken : option str) (batchSize : nat) : M W (list MatchedContact) :=
  permission ← requestContactsPermission;
  if negb (cp_granted permission) then mret []
  else
    data ← getContactsAsync;
    let hashMap := buildPhoneHashMap data in
    let allHashes := hashMap.*1 in
    match allHashes with
    | [] => mret []
    | _ =>
        allMatches ← for_each (λ acc chunk,
            chunkMatches ← batchMatchContacts chunk authToken;
            mret (acc ++ chunkMatches))
          [] (chunks (length allHashes) batchSize allHashes);
        mret (foldl (join_match hashMap) [] allMatches)
    end.
End Pipeline.

(** ** Properties *)

Section HashMapSpec.
Context `{Digest}.

Lemma hm_get_app h m1 m2 :
  hm_get h (m1 ++ m2) = match hm_get h m1 with Some v => Some v | None => hm_get h m2 end.
Proof.
  unfold hm_get. induction m1 as [|[k v] m1 IH]; cbn; [done|]. by destruct (str_eqb h k).
Qed.

Lemma hm_get_none h m : hm_get h m = None ↔ h ∉ m.*1.
Proof.
  unfold hm_get. induction m as [|[k v] m IH]; cbn; [set_solver|].
  rewrite not_elem_of_cons, <-IH. destruct (str_eqb h k) eqn:E; cbn.
  - apply str_eqb_true in E. naive_solver.
  - apply str_eqb_false in E. naive_solver.
Qed.

(** The entry of a job. *)
Definition job_entry (j : job) (h : str) (v : str * str) : Prop :=
  hashPhoneNumber j.2 = Some h ∧ h ≠ [] ∧ v = (j.1, normalizePhoneNumber j.2).

Lemma add_job_spec m j :
  NoDup (m.*1) → NoDup ((add_job m j).*1) ∧
  (∀ h v, hm_get h (add_job m j) = Some v → hm_get h m = Some v ∨ job_entry j h v) ∧
  (∀ h v, hm_get h m = Some v → hm_get h (add_job m j) = Some v) ∧
  (∀ h, hashPhoneNumber j.2 = Some h → h ≠ [] → is_Some (hm_get h (add_job m j))).
Proof.
  intros Hnd. unfold add_job. destruct (hashPhoneNumber j.2) as [h0|] eqn:Eh.
  2:{ split; [done|]. split; [by left|]. split; [done|]. congruence. }
  destruct h0 as [|c0 t0] eqn:Eh0; cbn [truthy].
  { split; [done|]. split; [by left|]. split; [done|]. intros h [= <-]. done. }
  rewrite <-Eh0 in *. destruct (hm_get h0 m) as [v0|] eqn:Em.
  { split; [done|]. split; [by left|]. split; [done|]. intros h [= <-] _. by rewrite Em. }
  assert (Hnew : hm_get h0 (m ++ [(h0, (j.1, normalizePhoneNumber j.2))])
               = Some (j.1, normalizePhoneNumber j.2)).
  { rewrite hm_get_app, Em. unfold hm_get. cbn. by rewrite str_eqb_refl. }
  split; [|split; [|split]].
  - rewrite fmap_app. cbn. apply NoDup_app. split; [done|]. split; [|apply NoDup_singleton].
    intros x Hx ->%list_elem_of_singleton. by apply hm_get_none in Em.
  - intros h v. rewrite hm_get_app. destruct (hm_get h m) as [v'|]; [by left; congruence|].
    unfold hm_get. cbn. destruct (str_eqb h h0) eqn:E; [|done]. apply str_eqb_true in E as ->.
    intros [= <-]. right. split; [done|]. split; [by rewrite Eh0|done].
  - intros h v Hv. by rewrite hm_get_app, Hv.
  - intros h [= <-] _. by rewrite Hnew.
Qed.

Lemma add_jobs_spec js : ∀ m, NoDup (m.*1) →
  NoDup ((foldl add_job m js).*1) ∧
  (∀ h v, hm_get h (foldl add_job m js) = Some v → hm_get h m = Some v ∨ ∃ j, j ∈ js ∧ job_entry j h v) ∧
  (∀ h v, hm_get h m = Some v → hm_get h (foldl add_job m js) = Some v) ∧
  (∀ j h, j ∈ js → hashPhoneNumber j.2 = Some h → h ≠ [] → is_Some (hm_get h (foldl add_job m js))).
Proof.
  induction js as [|j js IH]; intros m Hnd; cbn [foldl].
  { split; [done|]. split; [by left|]. split; [done|]. by intros ?? ?%not_elem_of_nil. }
  destruct (add_job_spec m j Hnd) as (N1 & F1 & K1 & G1).
  destruct (IH (add_job m j) N1) as (N2 & F2 & K2 & G2).
  split; [done|]. split; [|split].
  - intros h v Hv. destruct (F2 h v Hv) as [Hv'|(j' & Hj & E)].
    + destruct (F1 h v Hv') as [?|?]; [by left|]. right. exists j. split; [apply elem_of_cons; by left|done].
    + right. exists j'. split; [apply elem_of_cons; by right|done].
  - intros h v Hv. by apply K2, K1.
  - intros j' h [->|Hj]%elem_of_cons Eh Hne.
    + destruct (G1 h Eh Hne) as [v Hv]. exists v. by apply K2.
    + by apply (G2 j').
Qed.

(** however the per-contact tasks interleave, the hash map has one entry per hash of a
    valid number and nothing else, and each entry shows the name and the normalised number of
    a contact whose number has that hash. *)
Theorem hash_map_any_order `{Scheduler} data :
  (∀ js, schedule js ≡ₚ js) →
  let m := buildPhoneHashMap data in
  let jobs := data ≫= contact_jobs in
  NoDup (m.*1) ∧
  (∀ h n p, hm_get h m = Some (n, p) →
     ∃ raw, (n, raw) ∈ jobs ∧ hashPhoneNumber raw = Some h ∧ p = normalizePhoneNumber raw) ∧
  (∀ j h, j ∈ jobs → hashPhoneNumber j.2 = Some h → h ≠ [] → is_Some (hm_get h m)).
Proof.
  intros Hp m jobs. destruct (add_jobs_spec (schedule jobs) [] (NoDup_nil_2)) as (N & F & _ & G).
  split; [exact N|]. split.
  - intros h n p Hm. destruct (F h (n, p) Hm) as [Habs|([n' raw] & Hj & Eh & _ & [= -> ->])]; [done|].
    exists raw. split; [by rewrite <-(Hp jobs)|]. by split.
  - intros j h Hj. apply G. by rewrite (Hp jobs).
Qed.
End HashMapSpec.

Lemma chunks_spec batchSize : (0 < batchSize) → ∀ fuel l, length l ≤ fuel →
  concat (chunks fuel batchSize l) = l ∧
  Forall (λ c, 0 < length c ≤ batchSize) (chunks fuel batchSize l).
Proof.
  intros Hb. induction fuel as [|fuel IH]; intros l Hl; cbn [chunks].
  { destruct l; [by split|cbn in Hl; lia]. }
  destruct l as [|x l]; [by split|].
  destruct (IH (drop batchSize (x :: l))) as [E F].
  { rewrite length_drop. cbn in *. lia. }
  cbn [concat]. rewrite E, take_drop. split; [done|]. constructor; [|done].
  rewrite length_take. cbn. lia.
Qed.

Section PipelineSpec.
Context `{ApiEnv, Digest, Scheduler, HostLaws W, !ContactBook W}.
Implicit Types w : W.

Lemma batch_run chunk token w : chunk ≠ [] → ∃ out r w',
  batchMatchContacts chunk token w = (out, w') ∧
  net_trace w' = net_trace w ++ [(match_request chunk token, r)].
Proof.
  intros Hne. destruct (fetch_spec (match_request chunk token) w) as (r & w1 & E & S).
  exists (batchMatchContacts chunk token w).1, r, w1.
  assert (Hw : (batchMatchContacts chunk token w).2 = w1).
  { unfold batchMatchContacts. destruct chunk as [|c chunk]; [done|].
    destruct r as [response|e]; [|by rewrite (run_bind_throw _ _ _ _ _ E)].
    rewrite (run_bind_ok _ _ _ _ _ E). destruct (rs_ok response); [|done]. cbn [negb].
    unfold JSON_parse. destruct (json_parse (rs_body response)) as [body|]; [|done].
    destruct body as [| | | | |fs]; try done. unfold read_prop. cbn [json_get].
    rewrite (run_bind_ok _ _ _ _ _ (run_ret (JObj fs) w1)), (run_bind_ok _ _ _ _ _ (run_ret _ w1)). cbn [json_get].
    destruct (obj_get (js "matches") fs) as [[]|]; try done; apply cast_state. }
  split; [by rewrite <-Hw, <-surjective_pairing|]. apply (sent_trace _ _ _ _ S).
Qed.

Lemma batches_run token (cs : list (list str)) : ∀ acc w, Forall (.≠ []) cs → ∃ out k tr w',
  for_each (λ acc chunk, ms ← batchMatchContacts chunk token; mret (acc ++ ms)) acc cs w = (out, w') ∧
  net_trace w' = net_trace w ++ tr ∧
  tr.*1 = (λ c, match_request c token) <$> take k cs ∧
  (∀ l, out = Ok l → k = length cs).
Proof.
  induction cs as [|c cs IH]; intros acc w Hcs.
  { exists (Ok acc), 0, [], w. rewrite app_nil_r. done. }
  apply Forall_cons in Hcs as [Hc Hcs]. cbn [for_each].
  destruct (batch_run c token w Hc) as (out & r & w1 & E1 & T1). rewrite !run_bind, E1.
  destruct out as [ms|e].
  - cbn [mret M_ret]. destruct (IH (acc ++ ms) w1 Hcs) as (out & k & tr & w2 & E2 & T2 & R2 & K2).
    exists out, (S k), ((match_request c token, r) :: tr), w2. rewrite E2. split; [done|].
    split; [by rewrite T2, T1, <-app_assoc|]. cbn. rewrite R2. split; [done|].
    intros l Hl. by rewrite (K2 l Hl).
  - exists (Throw e), 1, [(match_request c token, r)], w1. by rewrite T1.
Qed.

(** nothing leaves the device without permission; with it, the hashes of the address
    book are sent in consecutive batches of at most the batch size, each hash at most once and
    all of them when the call succeeds, and nothing else is sent. *)
Theorem contacts_batches token batchSize w : (0 < batchSize) →
  (∀ w0 : W, ∃ r w1, requestPermissionsAsync w0 = (r, w1) ∧ net_trace w1 = net_trace w0) →
  (∀ w0 : W, ∃ r w1, getContactsAsync w0 = (r, w1) ∧ net_trace w1 = net_trace w0) →
  ∃ out tr w', fetchMatchedContacts token batchSize w = (out, w') ∧ net_trace w' = net_trace w ++ tr ∧
    ((requestPermissionsAsync w).1 ≠ Ok (js "granted") → out = Ok [] ∧ tr = []) ∧
    (tr ≠ [] → ∃ data cs k, concat cs = (buildPhoneHashMap data).*1 ∧
       Forall (λ c, 0 < length c ≤ batchSize) cs ∧
       tr.*1 = (λ c, match_request c token) <$> take k cs ∧
       (∀ l, out = Ok l → k = length cs)).
Proof.
  intros Hb Hperm Hbook. destruct (Hperm w) as (p & w1 & E1 & T1).
  assert (Hp : ∃ perm, requestContactsPermission w = (Ok perm, w1) ∧
    (p ≠ Ok (js "granted") → cp_granted perm = false)).
  { unfold requestContactsPermission, try_catch. destruct p as [status|e].
    - rewrite (run_bind_ok _ _ _ _ _ E1). eexists. split; [done|]. intros Hs.
      rewrite (proj2 (str_eqb_false status (js "granted"))) by congruence. by destruct (str_eqb _ _).
    - rewrite (run_bind_throw _ _ _ _ _ E1). by eexists. }
  destruct Hp as (perm & Ep & Hdeny). rewrite E1. unfold fetchMatchedContacts. cbn [fst].
  rewrite (run_bind_ok _ _ _ _ _ Ep). destruct (cp_granted perm); cbn [negb].
  2:{ exists (Ok []), [], w1. rewrite app_nil_r. done. }
  destruct (Hbook w1) as (d & w2 & E2 & T2). destruct d as [data|e].
  2:{ exists (Throw e), [], w2. rewrite (run_bind_throw _ _ _ _ _ E2), app_nil_r, T2.
      split; [done|]. split; [done|]. split; [|done]. intros Hg. by specialize (Hdeny Hg). }
  rewrite (run_bind_ok _ _ _ _ _ E2). cbn zeta. destruct (buildPhoneHashMap data).*1 as [|h hs] eqn:Eh.
  { exists (Ok []), [], w2. rewrite app_nil_r, T2. done. }
  rewrite <-Eh. set (hashes := (buildPhoneHashMap data).*1).
  destruct (chunks_spec batchSize Hb (length hashes) hashes (Nat.le_refl _)) as [Ec Fc].
  destruct (batches_run token (chunks (length hashes) batchSize hashes) [] w2) as (out & k & tr & w3 & E3 & T3 & R3 & K3).
  { eapply Forall_impl; [exact Fc|]. intros c Hc ->. cbn in Hc. lia. }
  rewrite run_bind, E3.
  exists (match out with Ok ms => Ok (foldl (join_match (buildPhoneHashMap data)) [] ms) | Throw e => Throw e end), tr, w3.
  split; [by destruct out|]. split; [by rewrite T3, T2, T1|].
  split; [intros Hg; by specialize (Hdeny Hg)|]. intros _.
  exists data, (chunks (length hashes) batchSize hashes), k. split; [done|]. split; [done|]. split; [done|].
  intros l Hl. destruct out as [ms|e]; [by apply (K3 ms)|done].
Qed.
End PipelineSpec.

(** The fallback multiplies in double precision, which loses the low bits: it is not FNV-1a. *)
Lemma fallback_is_not_fnv1a : fnv_fallback (js "2348012345678") ≠ fnv1a (js "2348012345678").
Proof. vm_compute. discriminate. Qed.

(** ** Concrete runs *)

Module Runs.
#[local] Instance demo_env : ApiEnv := None.
#[local] Instance demo_digest : Digest := λ _, None.
#[local] Instance demo_schedule : Scheduler := λ jobs, rev jobs.
#[local] Instance demo_book : ContactBook scripted := {|
  requestPermissionsAsync w := (Ok (js "granted"), w);
  getContactsAsync w := (Ok [MkContact (Some (js "Tolu")) None None
                               (Some [Some (js "+234 801 234 5678"); Some (js "12")])], w);
|}.

Lemma hash_map_any_order_witness :
  let m := buildPhoneHashMap [MkContact None (Some (js "Ada")) None (Some [Some (js "0801 234 5678")])] in
  let jobs := [MkContact None (Some (js "Ada")) None (Some [Some (js "0801 234 5678")])] ≫= contact_jobs in
  NoDup (m.*1) ∧
  (∀ h n p, hm_get h m = Some (n, p) →
     ∃ raw, (n, raw) ∈ jobs ∧ hashPhoneNumber raw = Some h ∧ p = normalizePhoneNumber raw) ∧
  (∀ j h, j ∈ jobs → hashPhoneNumber j.2 = Some h → h ≠ [] → is_Some (hm_get h m)).
Proof.
  apply (hash_map_any_order [MkContact None (Some (js "Ada")) None (Some [Some (js "0801 234 5678")])]).
  intros jobs. unfold schedule, demo_schedule. symmetry. apply Permutation_rev.
Defined.

Lemma contacts_batches_witness : ∃ out tr w',
  fetchMatchedContacts None 500 (world [] []) = (out, w') ∧ net_trace w' = net_trace (world [] []) ++ tr ∧
  ((requestPermissionsAsync (world [] [])).1 ≠ Ok (js "granted") → out = Ok [] ∧ tr = []) ∧
  (tr ≠ [] → ∃ data cs k, concat cs = (buildPhoneHashMap data).*1 ∧
     Forall (λ c, 0 < length c ≤ 500) cs ∧
     tr.*1 = (λ c, match_request c None) <$> take k cs ∧
     (∀ l, out = Ok l → k = length cs)).
Proof.
  apply (contacts_batches None 500 (world [] [])); [lia| |];
    intros w0; by eexists _, _.
Defined.
End Runs.
