(* ===== verification/BiometricAuth.v ===== *)
(** * Biometric authentication and the PIN fallback

    Model of [src/services/biometricAuth.ts]: the status of the sensor, the prompt, the
    stored preference, the protected wallet key and the PIN with its five attempts. The
    sensor ([LocalAuth]) and [btoa] are parameters. An entry written with a [keychainService]
    lives in that service: its key is prefixed by the service name. *)

From S2P Require Import Prelude JsString JsNumber UriCodec JsDate Json Effects Decode Scripts Hashing.

Inductive BiometricType := FaceId | TouchId | Fingerprint | Iris | NoBiometric.

#[export] Instance BiometricType_eq_dec : EqDecision BiometricType.
Proof. solve_decision. Defined.

Record BiometricStatus := MkStatus {
  bs_available : bool; bs_enrolled : bool; bs_types : list BiometricType; bs_hasChanged : bool }.

Record BiometricPromptOptions := MkPrompt {
  bo_title : option str; bo_subtitle : option str; bo_description : option str;
  bo_cancelLabel : option str; bo_fallbackLabel : option str; bo_disableDeviceFallback : option bool }.

Record BiometricAuthResult := MkAuth {
  ba_success : bool; ba_error : option str; ba_warning : option str }.

(** What is handed to [authenticateAsync]. *)
Record prompt_call := MkCall {
  pc_promptMessage : str; pc_subTitle : option str; pc_description : option str;
  pc_cancelLabel : str; pc_fallbackLabel : str; pc_disableDeviceFallback : bool;
  pc_requireConfirmation : bool }.

Inductive operation :=
  walletAccess | paymentConfirm | privateKeyView | seedPhraseView | securitySettings | sendPayment.

Definition PROMPT_CONTEXTS (o : operation) : BiometricPromptOptions :=
  let ctx t s d := MkPrompt (Some t) (Some s) (Some d) None None None in
  match o with
  | walletAccess => ctx (js "Unlock Wallet") (js "Access your Stellar wallet")
      (js "Authenticate to view your balance and transactions")
  | paymentConfirm => ctx (js "Confirm Payment") (js "Authorize transaction")
      (js "Authenticate to sign and send this payment")
  | privateKeyView => ctx (js "View Private Key") (js "High security access")
      (js "Authenticate to reveal your private key. Never share this.")
  | seedPhraseView => ctx (js "View Recovery Phrase") (js "High security access")
      (js "Authenticate to reveal your 12-word recovery phrase. Keep it secret.")
  | securitySettings => ctx (js "Security Settings") (js "Change authentication")
      (js "Authenticate to modify your security preferences")
  | sendPayment => ctx (js "Send Payment") (js "Authorize transfer")
      (js "Authenticate to confirm this payment")
  end.

Definition BIOMETRIC_PREFERENCE_KEY : str := js "biometric_auth_enabled".
Definition BIOMETRIC_ENROLLED_HASH_KEY : str := js "biometric_enrolled_hash".
Definition SECURE_STORAGE_KEY : str := js "wallet_secure_key".
Definition PIN_STORAGE_KEY : str := js "fallback_pin_hash".
Definition PIN_ATTEMPTS_KEY : str := js "pin_attempts_remaining".
Definition MAX_PIN_ATTEMPTS : Z := 5.

(** An entry of a named keychain service. *)
Definition in_service (service key : str) : str := service ++ js ":" ++ key.

Class LocalAuth (W : Type) := {
  hasHardwareAsync : M W bool;
  isEnrolledAsync : M W bool;
  supportedTypesAsync : M W (list Z);
  authenticateAsync : prompt_call → M W (bool * option str);
  is_android : bool;          (** [Platform.OS === 'android'] *)
  btoa : str → str;
}.

(** Default sort order: by the text of the elements. *)
Fixpoint str_ltb (s t : str) : bool :=
  match s, t with
  | [], _ :: _ => true
  | _, [] => false
  | a :: s', b :: t' => (a <? b)%N || ((a =? b)%N && str_ltb s' t')
  end.

Definition sort_types (l : list Z) : list Z := stable_sort (λ a b, str_ltb (Z_to_str b) (Z_to_str a)) l.

Definition type_of_code (code : Z) : BiometricType :=
  if (code =? 2)%Z then FaceId else if (code =? 1)%Z then Fingerprint
  else if (code =? 3)%Z then Iris else NoBiometric.

Section Biometric.
Context `{Host W, LocalAuth W, Digest}.

Definition bool_text (b : bool) : str := if b then js "true" else js "false".

Definition getEnrollmentHash : M W str :=
  types ← supportedTypesAsync;
  enrolled ← isEnrolledAsync;
  mret (btoa (bool_text enrolled ++ js "-" ++ join (js ",") (Z_to_str <$> sort_types types))).

Definition checkBiometricStatus : M W BiometricStatus :=
  hasHardware ← hasHardwareAsync;
  isEnrolled ← isEnrolledAsync;
  supportedTypes ← supportedTypesAsync;
  currentHash ← getEnrollmentHash;
  storedHash ← st_get SecureStore BIOMETRIC_ENROLLED_HASH_KEY;
  mret (MkStatus hasHardware isEnrolled
    (List.filter (λ t, bool_decide (t ≠ NoBiometric)) (type_of_code <$> supportedTypes))
    (match storedHash with Some h => negb (str_eqb h currentHash) | None => false end)).

Definition or_text (o : option str) (d : str) : str :=
  match o with Some s => if truthy s then s else d | None => d end.

Definition promptBiometric (options : BiometricPromptOptions) : M W BiometricAuthResult :=
  status ← checkBiometricStatus;
  if negb (bs_available status) then
    mret (MkAuth false (Some (js "Biometric authentication not available on this device")) None)
  else if negb (bs_enrolled status) then
    mret (MkAuth false (Some (js "No biometric credentials enrolled. Please set up Face ID/Touch ID/Fingerprint in device settings.")) None)
  else
    try_catch
      (result ← authenticateAsync (MkCall (or_text (bo_title options) (js "Authenticate"))
         (bo_subtitle options) (bo_description options)
         (or_text (bo_cancelLabel options) (js "Cancel"))
         (or_text (bo_fallbackLabel options) (js "Use PIN"))
         (default false (bo_disableDeviceFallback options)) is_android);
       (if (result : bool * option str).1 then
          newHash ← getEnrollmentHash;
          st_set SecureStore BIOMETRIC_ENROLLED_HASH_KEY newHash
        else mret tt);;
       mret (MkAuth result.1
         (if result.1 then None else Some (or_text result.2 (js "Authentication cancelled")))
         (if bs_hasChanged status then Some (js "Biometric enrollment changed since last use") else None)))
      (λ error, mret (MkAuth false (Some (err_message error)) None)).

Definition promptForOperation (o : operation) : M W BiometricAuthResult :=
  promptBiometric (PROMPT_CONTEXTS o).

Definition isBiometricEnabled : M W bool :=
  value ← st_get SecureStore BIOMETRIC_PREFERENCE_KEY;
  mret (bool_decide (value = Some (js "true"))).

Definition setBiometricEnabled (enabled : bool) : M W unit :=
  st_set SecureStore BIOMETRIC_PREFERENCE_KEY (bool_text enabled);;
  if enabled then
    hash ← getEnrollmentHash;
    st_set SecureStore BIOMETRIC_ENROLLED_HASH_KEY hash
  else st_del SecureStore BIOMETRIC_ENROLLED_HASH_KEY.

Definition storeSecureKey (key : str) : M W unit :=
  st_set SecureStore (in_service (js "zaps-wallet") SECURE_STORAGE_KEY) key.
Definition retrieveSecureKey : M W (option str) := st_get SecureStore SECURE_STORAGE_KEY.
Definition deleteSecureKey : M W unit := st_del SecureStore SECURE_STORAGE_KEY.

(** *** PIN fallback *)

Definition hasPINFallback : M W bool :=
  pinHash ← st_get SecureStore PIN_STORAGE_KEY;
  mret (match pinHash with Some _ => true | None => false end).

Definition hashPIN (pin : str) : res str :=
  match subtle_sha256 (text_encode (pin ++ js "zaps-salt-v1")) with
  | Some hashArray => Ok (bytes_hex hashArray)
  | None => Throw (new_error (js "crypto.subtle is not available"))
  end.

Definition setupPIN (pin : str) : M W unit :=
  if (length pin <? 4)%nat then throw (new_error (js "PIN must be at least 4 digits"))
  else
    hash ← of_res (hashPIN pin);
    st_set SecureStore PIN_STORAGE_KEY hash;;
    st_set SecureStore PIN_ATTEMPTS_KEY (Z_to_str MAX_PIN_ATTEMPTS).

Definition locked_error : js_error :=
  new_error (js "Too many failed attempts. Please re-authenticate with device password.").

Definition verifyPIN (pin : str) : M W bool :=
  attemptsStr ← st_get SecureStore PIN_ATTEMPTS_KEY;
  let attempts := match attemptsStr with
    | Some s => if truthy s then parseInt10 s else num_of_Z MAX_PIN_ATTEMPTS
    | None => num_of_Z MAX_PIN_ATTEMPTS
    end in
  if num_leb attempts (Fin 0 0) then throw locked_error
  else
    storedHash ← st_get SecureStore PIN_STORAGE_KEY;
    match storedHash with
    | Some storedHash =>
        if truthy storedHash then
          inputHash ← of_res (hashPIN pin);
          let valid := str_eqb inputHash storedHash in
          (if negb valid then
             st_set SecureStore PIN_ATTEMPTS_KEY (num_to_str (num_sub attempts (Fin 1 0)))
           else st_set SecureStore PIN_ATTEMPTS_KEY (Z_to_str MAX_PIN_ATTEMPTS));;
          mret valid
        else mret false
    | None => mret false
    end.

Definition resetPINAttempts : M W unit :=
  st_set SecureStore PIN_ATTEMPTS_KEY (Z_to_str MAX_PIN_ATTEMPTS).
End Biometric.

(** ** The lock as a state machine *)

Inductive pin_answer := PinRight | PinWrong | PinLocked.

(** The abstract lock: attempts left, and one answer per entry. *)
Definition lock_step (remaining : Z) (right : bool) : pin_answer * Z :=
  if (remaining <=? 0)%Z then (PinLocked, remaining)
  else if right then (PinRight, MAX_PIN_ATTEMPTS) else (PinWrong, (remaining - 1)%Z).

Fixpoint lock_run (remaining : Z) (entries : list bool) : list pin_answer * Z :=
  match entries with
  | [] => ([], remaining)
  | e :: es => let '(a, r) := lock_step remaining e in
               let '(l, r') := lock_run r es in (a :: l, r')
  end.

Lemma locked_stays es : (lock_run 0 es).1 = replicate (length es) PinLocked.
Proof.
  induction es as [|e es IH]; [done|]. cbn [lock_run]. change (lock_step 0 e) with (PinLocked, 0%Z).
  cbn. destruct (lock_run 0 es). cbn in *. by rewrite IH.
Qed.

Lemma wrong_step r es : (0 < r)%Z →
  (lock_run r (false :: es)).1 = PinWrong :: (lock_run (r - 1) es).1.
Proof.
  intros Hr. cbn [lock_run]. unfold lock_step at 1. rewrite (proj2 (Z.leb_gt r 0)) by done.
  by destruct (lock_run (r - 1) es).
Qed.

Lemma wrong_locks es :
  (lock_run MAX_PIN_ATTEMPTS (replicate 5 false ++ es)).1
    = replicate 5 PinWrong ++ replicate (length es) PinLocked.
Proof.
  unfold MAX_PIN_ATTEMPTS. cbn [replicate app]. rewrite !wrong_step by lia.
  by rewrite <-locked_stays.
Qed.

Section PinSpec.
Context `{HostLaws W, !LocalAuth W, Digest}.
Implicit Types w : W.

(** The answers to a sequence of entered PINs. *)
Fixpoint enter_all (pins : list str) w : list pin_answer * W :=
  match pins with
  | [] => ([], w)
  | pin :: pins' =>
      let '(r, w1) := verifyPIN pin w in
      let '(l, w2) := enter_all pins' w1 in
      (match r with Ok true => PinRight | Ok false => PinWrong | Throw _ => PinLocked end :: l, w2)
  end.

Definition attempts_of w : option str := st_peek w SecureStore PIN_ATTEMPTS_KEY.
Definition hash_of w : option str := st_peek w SecureStore PIN_STORAGE_KEY.

(** The stored lock: PIN hash and attempts left. *)
Record lock_at w (hash : str) (remaining : Z) : Prop := LockAt {
  lk_live : st_live w;
  lk_hash : hash_of w = Some hash;
  lk_nonempty : hash ≠ [];
  lk_attempts : attempts_of w = Some (Z_to_str remaining);
  lk_range : (0 <= remaining <= MAX_PIN_ATTEMPTS)%Z;
}.

Definition pin_matches (hash pin : str) : bool :=
  match hashPIN pin with Ok h => str_eqb h hash | Throw _ => false end.

Lemma lock_kept w w' h r : lock_at w h r → kept w w' → lock_at w' h r.
Proof.
  intros [L Hh Hn A R] [p t l]. split; [auto|by unfold hash_of in *; rewrite p|done|
    by unfold attempts_of in *; rewrite p|done].
Qed.

Lemma lock_attempts_set w w' h r r' : lock_at w h r → (0 <= r' <= MAX_PIN_ATTEMPTS)%Z →
  stored w w' SecureStore PIN_ATTEMPTS_KEY (Some (Z_to_str r')) → lock_at w' h r'.
Proof.
  intros [L Hh Hn A R] Hr [e n t l]. split; [auto| |done|exact e|done].
  unfold hash_of in *. rewrite n; [done|vm_compute; congruence].
Qed.

Lemma attempts_text r : (0 <= r <= MAX_PIN_ATTEMPTS)%Z →
  truthy (Z_to_str r) = true ∧ parseInt10 (Z_to_str r) = Fin r 0.
Proof.
  unfold MAX_PIN_ATTEMPTS. intros Hr. split.
  - apply truthy_true. intros E. destruct r as [|p|p]; [discriminate E| |lia].
    revert E. apply N_to_str_nonempty.
  - replace r with (Z.of_nat (Z.to_nat r)) by lia. apply parseInt10_count. lia.
Qed.

Lemma verifyPIN_run w h r pin :
  lock_at w h r → (∀ d, is_Some (subtle_sha256 d)) →
  ∃ out w', verifyPIN pin w = (out, w') ∧ lock_at w' h (lock_step r (pin_matches h pin)).2 ∧
    match out with Ok true => PinRight | Ok false => PinWrong | Throw _ => PinLocked end
      = (lock_step r (pin_matches h pin)).1 ∧ (∀ e, out = Throw e → e = locked_error).
Proof.
  intros I Hd. pose proof I as [L Hh Hn A R]. unfold verifyPIN, lock_step.
  destruct (get_live SecureStore PIN_ATTEMPTS_KEY w L) as (w1 & E1 & K1).
  pose proof (lock_kept _ _ _ _ I K1) as I1. unfold attempts_of in A.
  rewrite (run_bind_ok _ _ _ _ _ E1), A. destruct (attempts_text r R) as [-> ->]. cbn zeta.
  cbn [num_leb]. change (2 ^ (- 0))%Z with 1%Z. rewrite Z.mul_1_r.
  destruct (Z.leb_spec r (0 * 1)) as [Hle|Hgt].
  { exists (Throw locked_error), w1. rewrite (proj2 (Z.leb_le r 0)) by lia. split; [done|].
    split; [exact I1|]. split; [done|]. by intros e [= <-]. }
  rewrite (proj2 (Z.leb_gt r 0)) by lia.
  destruct (get_live SecureStore PIN_STORAGE_KEY w1) as (w2 & E2 & K2); [apply I1|].
  pose proof (lock_kept _ _ _ _ I1 K2) as I2. pose proof (lk_hash _ _ _ I1) as Hh1. unfold hash_of in Hh1.
  rewrite (run_bind_ok _ _ _ _ _ E2), Hh1, (proj2 (truthy_true h) Hn).
  unfold pin_matches, hashPIN. destruct (Hd (text_encode (pin ++ js "zaps-salt-v1"))) as [bs ->].
  rewrite (run_bind_ok _ _ _ w2 (bytes_hex bs) eq_refl). destruct (str_eqb (bytes_hex bs) h); cbn [negb].
  - destruct (set_live SecureStore PIN_ATTEMPTS_KEY (Z_to_str MAX_PIN_ATTEMPTS) w2) as (w3 & E3 & S3); [apply I2|].
    exists (Ok true), w3. rewrite (run_bind_ok _ _ _ _ _ E3). split; [done|].
    split; [|done]. apply (lock_attempts_set w2 w3 h r MAX_PIN_ATTEMPTS); [exact I2|unfold MAX_PIN_ATTEMPTS; lia|exact S3].
  - assert (En : num_sub (Fin r 0) (Fin 1 0) = Fin (r - 1) 0).
    { unfold num_sub. cbn [num_opp num_add]. change (2 ^ (- 0))%Z with 1%Z. rewrite !Z.mul_1_r.
      apply (num_of_Z_safe (r - 1)). unfold safe_int, MAX_PIN_ATTEMPTS in *. lia. }
    rewrite En, num_to_str_int by (unfold MAX_PIN_ATTEMPTS in *; lia).
    destruct (set_live SecureStore PIN_ATTEMPTS_KEY (Z_to_str (r - 1)) w2) as (w3 & E3 & S3); [apply I2|].
    exists (Ok false), w3. rewrite (run_bind_ok _ _ _ _ _ E3). split; [done|].
    split; [|done]. apply (lock_attempts_set w2 w3 h r (r - 1)); [exact I2|unfold MAX_PIN_ATTEMPTS in *; lia|exact S3].
Qed.

Lemma enter_all_run pins : ∀ w h r, lock_at w h r → (∀ d, is_Some (subtle_sha256 d)) →
  ∃ w', enter_all pins w = ((lock_run r (pin_matches h <$> pins)).1, w') ∧
    lock_at w' h (lock_run r (pin_matches h <$> pins)).2.
Proof.
  induction pins as [|pin pins IH]; intros w h r I Hd; [by exists w|].
  destruct (verifyPIN_run w h r pin I Hd) as (out & w1 & E1 & I1 & Ho & _).
  rewrite fmap_cons. cbn [enter_all lock_run]. rewrite E1.
  destruct (lock_step r (pin_matches h pin)) as [a r1]. cbn [fst snd] in *.
  destruct (IH w1 h r1 I1 Hd) as (w2 & E2 & I2). rewrite E2, Ho.
  destruct (lock_run r1 (pin_matches h <$> pins)) as [l r2]. by exists w2.
Qed.

(** C18: the stored PIN implements the abstract lock: for every sequence of entries the
    answers and the attempts left are those of the five-attempt lock. *)
Theorem pin_refines_lock pins w h r :
  lock_at w h r → (∀ d, is_Some (subtle_sha256 d)) →
  ∃ w', enter_all pins w = ((lock_run r (pin_matches h <$> pins)).1, w') ∧
    lock_at w' h (lock_run r (pin_matches h <$> pins)).2.
Proof. apply enter_all_run. Qed.

Lemma setupPIN_run pin w : st_live w → 4 ≤ length pin →
  (∀ d, ∃ bs, subtle_sha256 d = Some bs ∧ bs ≠ []) →
  ∃ h w', hashPIN pin = Ok h ∧ setupPIN pin w = (Ok tt, w') ∧ lock_at w' h MAX_PIN_ATTEMPTS.
Proof.
  intros L Hp Hd. unfold setupPIN, hashPIN. rewrite (proj2 (Nat.ltb_ge _ _)) by done.
  destruct (Hd (text_encode (pin ++ js "zaps-salt-v1"))) as (bs & -> & Hbs).
  exists (bytes_hex bs).
  destruct (set_live SecureStore PIN_STORAGE_KEY (bytes_hex bs) w L) as (w1 & E1 & S1).
  destruct (set_live SecureStore PIN_ATTEMPTS_KEY (Z_to_str MAX_PIN_ATTEMPTS) w1) as (w2 & E2 & S2); [by apply S1|].
  exists w2. split; [done|]. rewrite (run_bind_ok _ _ _ w (bytes_hex bs) eq_refl), (run_bind_ok _ _ _ _ _ E1), E2.
  split; [done|]. split.
  - by apply S2, S1.
  - unfold hash_of. rewrite (stored_ne _ _ _ _ _ S2); [apply S1|vm_compute; congruence].
  - by destruct bs.
  - apply S2.
  - unfold MAX_PIN_ATTEMPTS. lia.
Qed.

(** after a PIN of at least four characters is set up, five entries that do not match it
    lock the PIN: every later entry is refused, the right one included, until the
    attempts are reset; a shorter PIN is never stored. *)
Theorem five_wrong_pins_lock pin wrong later w :
  st_live w → 4 ≤ length pin → (∀ d, ∃ bs, subtle_sha256 d = Some bs ∧ bs ≠ []) →
  length wrong = 5 → Forall (λ p, hashPIN p ≠ hashPIN pin) wrong →
  ∃ w1 w2, setupPIN pin w = (Ok tt, w1) ∧
    (enter_all (wrong ++ later) w1).1 = replicate 5 PinWrong ++ replicate (length later) PinLocked ∧
    (enter_all (wrong ++ later) w1).2 = w2 ∧
    ∀ short v, length short < 4 → ∃ e, setupPIN short v = (Throw e, v).
Proof.
  intros L Hp Hd Hl Hw. destruct (setupPIN_run pin w L Hp Hd) as (h & w1 & Eh & E1 & I1).
  assert (Hd' : ∀ d, is_Some (subtle_sha256 d)) by (intros d; destruct (Hd d) as (bs & -> & _); by eexists).
  destruct (enter_all_run (wrong ++ later) w1 h MAX_PIN_ATTEMPTS I1 Hd') as (w2 & E2 & _).
  exists w1, w2. split; [done|]. split; [|split].
  - rewrite E2, fmap_app. cbn [fst].
    assert (Hm : pin_matches h <$> wrong = replicate 5 false).
    { rewrite <-Hl. clear -Hw Eh. induction Hw as [|p ps Hp _ IH]; [done|]. rewrite fmap_cons. cbn [length replicate].
      rewrite IH. f_equal. unfold pin_matches. destruct (hashPIN p) as [hp|] eqn:Ep; [|done].
      apply str_eqb_false. congruence. }
    by rewrite Hm, wrong_locks, length_fmap.
  - by rewrite E2.
  - intros short v Hs. unfold setupPIN. rewrite (proj2 (Nat.ltb_lt _ _)) by done. by eexists.
Qed.

(** a prompt succeeds only when the sensor is present, enrolled and accepted the user;
    with no sensor or no enrolment the user is not even asked. *)
Theorem prompt_success_sound options w r w' :
  promptBiometric options w = (Ok r, w') → ba_success r = true →
  ∃ status w1 call e w2, checkBiometricStatus w = (Ok status, w1) ∧
    bs_available status = true ∧ bs_enrolled status = true ∧
    authenticateAsync call w1 = (Ok (true, e), w2) ∧ ba_error r = None.
Proof.
  unfold promptBiometric. intros E Hs. apply run_bind_inv in E as (status & w1 & E1 & E).
  destruct (bs_available status) eqn:Ha; cbn [negb] in E; [|injection E as <- _; discriminate Hs].
  destruct (bs_enrolled status) eqn:He; cbn [negb] in E; [|injection E as <- _; discriminate Hs].
  set (call := MkCall _ _ _ _ _ _ _) in E. unfold try_catch in E.
  rewrite run_bind in E. destruct (authenticateAsync call w1) as [[[ok e]|e] w2] eqn:E2.
  2:{ injection E as <- _. discriminate Hs. }
  exists status, w1, call. destruct ok; cbn [fst snd] in E.
  - exists e, w2. split; [done|]. split; [done|]. split; [done|]. split; [done|].
    match type of E with match ?x with _ => _ end = _ => destruct x as [[a|err] w3] eqn:E3 end.
    + injection E as -> _. rewrite run_bind in E3.
      match type of E3 with match ?x with _ => _ end = _ => destruct x as [[[]|err] w4] end; [|done].
      by injection E3 as <- _.
    + injection E as <- _. discriminate Hs.
  - rewrite run_bind, run_ret in E. injection E as <- _. discriminate Hs.
Qed.

(** The key is written under a keychain service and read without it: what was stored is
    not what is read. *)
Lemma secure_key_not_read_back key w : st_live w → ∃ w1 w2,
  storeSecureKey key w = (Ok tt, w1) ∧
  retrieveSecureKey w1 = (Ok (st_peek w SecureStore SECURE_STORAGE_KEY), w2).
Proof.
  intros L. destruct (set_live SecureStore (in_service (js "zaps-wallet") SECURE_STORAGE_KEY) key w L) as (w1 & E1 & S1).
  destruct (get_live SecureStore SECURE_STORAGE_KEY w1) as (w2 & E2 & _); [by apply S1|].
  exists w1, w2. split; [done|]. unfold retrieveSecureKey. rewrite E2.
  by rewrite (stored_ne _ _ _ _ _ S1) by (vm_compute; congruence).
Qed.
End PinSpec.

(** ** Concrete runs *)

Module Runs.
#[local] Instance demo_digest : Digest := λ d, Some (1%N :: d).
#[local] Instance demo_auth : LocalAuth scripted := {|
  hasHardwareAsync w := (Ok true, w);
  isEnrolledAsync w := (Ok true, w);
  supportedTypesAsync w := (Ok [1; 2]%Z, w);
  authenticateAsync _ w := (Ok (true, None), w);
  is_android := true;
  btoa s := s;
|}.

Lemma demo_total d : is_Some (subtle_sha256 d).
Proof. by eexists. Qed.

Definition locked : scripted := (setupPIN (js "1234") (world [] [])).2.

Lemma locked_at : lock_at locked (bytes_hex (1%N :: text_encode (js "1234zaps-salt-v1"))) 5.
Proof.
  split; [reflexivity|vm_compute; reflexivity|discriminate|vm_compute; reflexivity|].
  unfold MAX_PIN_ATTEMPTS. lia.
Qed.

Lemma pin_refines_lock_witness : ∃ w',
  enter_all [js "0000"; js "1234"] locked =
    ((lock_run 5 (pin_matches (bytes_hex (1%N :: text_encode (js "1234zaps-salt-v1"))) <$> [js "0000"; js "1234"])).1, w') ∧
  lock_at w' (bytes_hex (1%N :: text_encode (js "1234zaps-salt-v1")))
    (lock_run 5 (pin_matches (bytes_hex (1%N :: text_encode (js "1234zaps-salt-v1"))) <$> [js "0000"; js "1234"])).2.
Proof. apply (pin_refines_lock _ locked); [apply locked_at|apply demo_total]. Defined.

Lemma five_wrong_pins_lock_witness : ∃ w1 w2, setupPIN (js "1234") (world [] []) = (Ok tt, w1) ∧
  (enter_all (replicate 5 (js "0000") ++ [js "1234"]) w1).1
    = replicate 5 PinWrong ++ replicate (length [js "1234"]) PinLocked ∧
  (enter_all (replicate 5 (js "0000") ++ [js "1234"]) w1).2 = w2 ∧
  ∀ short v, length short < 4 → ∃ e, setupPIN short v = (Throw e, v).
Proof.
  apply (five_wrong_pins_lock (js "1234") (replicate 5 (js "0000")) [js "1234"] (world [] [])).
  - reflexivity.
  - vm_compute. lia.
  - intros d. exists (1%N :: d). split; [reflexivity|discriminate].
  - reflexivity.
  - apply Forall_replicate. vm_compute. discriminate.
Defined.

Lemma prompt_success_sound_witness : ∃ status w1 call e w2,
  checkBiometricStatus (world [] []) = (Ok status, w1) ∧
  bs_available status = true ∧ bs_enrolled status = true ∧
  authenticateAsync call w1 = (Ok (true, e), w2) ∧ ba_error (MkAuth true None None) = None.
Proof.
  eapply (prompt_success_sound (PROMPT_CONTEXTS walletAccess)); [vm_compute; reflexivity|reflexivity].
Defined.
End Runs.
