(* ===== verification/BiometricScreens.v ===== *)
(** * Biometric screens and social sign-in

    Model of [src/hooks/useBiometric.ts] (module Hook), [src/components/BiometricGuard.tsx] (Guard),
    [src/components/PaymentConfirm.tsx] (Pay) and [src/components/BiometricSettings.tsx] (Settings),
    on top of BiometricAuth, and of [mobileapp/src/components/PrivySocialButtons.tsx] (Social). *)

From S2P Require Import Prelude JsString JsNumber Json Effects Decode Scripts Hashing BiometricAuth.

(** ** The hook *)

Module Hook.
Record hook := MkHook {
  hk_status : option BiometricStatus; hk_enabled : bool; hk_hasPIN : bool; hk_isLoading : bool; hk_error : option str }.
Definition initial : hook := MkHook None false false true None.

Definition set_loading (b : bool) (h : hook) : hook := MkHook (hk_status h) (hk_enabled h) (hk_hasPIN h) b (hk_error h).
Definition set_error (e : option str) (h : hook) : hook := MkHook (hk_status h) (hk_enabled h) (hk_hasPIN h) (hk_isLoading h) e.
Definition set_enabled (b : bool) (h : hook) : hook := MkHook (hk_status h) b (hk_hasPIN h) (hk_isLoading h) (hk_error h).
Definition set_hasPIN (b : bool) (h : hook) : hook := MkHook (hk_status h) (hk_enabled h) b (hk_isLoading h) (hk_error h).

Section Actions.
Context `{Host W, LocalAuth W, Digest}.

(** [finally { setIsLoading(false) }] *)
Definition stop_loading {A} (m : M (hook * W) A) : M (hook * W) A := try_finally m (λ s, (set_loading false s.1, s.2)).

(** The three reads of [Promise.all] change nothing, so that their order does not matter. *)
Definition refreshStatus : M (hook * W) unit :=
  modify_state (λ h, set_error None (set_loading true h));;
  stop_loading
    (try_catch
       (bioStatus ← host checkBiometricStatus;
        bioEnabled ← host isBiometricEnabled;
        pinSet ← host hasPINFallback;
        modify_state (λ h, MkHook (Some bioStatus) bioEnabled pinSet (hk_isLoading h) (hk_error h)))
       (λ e, modify_state (set_error (Some (err_message e))))).

(** The options of a prompt without an operation are all left out. *)
Definition no_options : BiometricPromptOptions := MkPrompt None None None None None None.

Definition prompt (operation : option operation) : M W BiometricAuthResult :=
  match operation with Some o => promptForOperation o | None => promptBiometric no_options end.

Definition authenticate (operation : option operation) : M (hook * W) bool :=
  h ← get_state;
  if negb (hk_enabled h) then mret true
  else
    modify_state (set_error None);;
    result ← host (prompt operation);
    (if negb (ba_success result) && truthy_opt (ba_error result) then modify_state (set_error (ba_error result)) else mret tt);;
    mret (ba_success result).

Definition authenticateWithPIN (pin : str) : M (hook * W) bool :=
  try_catch
    (modify_state (set_error None);;
     valid ← host (verifyPIN pin);
     (if valid : bool then mret tt else modify_state (set_error (Some (js "Invalid PIN"))));;
     mret valid)
    (λ e, modify_state (set_error (Some (err_message e)));; mret false).

Definition enable_options : BiometricPromptOptions :=
  MkPrompt (Some (js "Enable Biometric Authentication")) (Some (js "Confirm your identity"))
    (Some (js "You will use this to secure your wallet and payments")) None None None.

(** [catch (err) { setError(...); throw err; }] *)
Definition rethrow {A} (m : M (hook * W) A) : M (hook * W) A :=
  try_catch m (λ e, modify_state (set_error (Some (err_message e)));; throw e).

Definition enableBiometric : M (hook * W) unit :=
  stop_loading
    (rethrow
       (modify_state (set_loading true);;
        result ← host (promptBiometric enable_options);
        if negb (ba_success result) then
          throw (new_error (if truthy_opt (ba_error result) then default [] (ba_error result) else js "Biometric verification failed"))
        else
          host (setBiometricEnabled true);;
          modify_state (set_enabled true))).

Definition disableBiometric : M (hook * W) unit :=
  stop_loading
    (rethrow
       (modify_state (set_loading true);;
        host (setBiometricEnabled false);;
        modify_state (set_enabled false))).

Definition setupPIN_action (pin : str) : M (hook * W) unit :=
  stop_loading
    (rethrow
       (modify_state (set_loading true);;
        host (setupPIN pin);;
        modify_state (set_hasPIN true))).
End Actions.

(** *** Properties *)

Section Spec.
Context `{Host W, LocalAuth W, Digest}.
Implicit Types (h : hook) (w : W).

(** The status cannot be read: some read rejects. *)
Definition unreadable w : Prop :=
  ∃ e, (∃ w1, checkBiometricStatus w = (Throw e, w1)) ∨
       (∃ s w1 w2, checkBiometricStatus w = (Ok s, w1) ∧ isBiometricEnabled w1 = (Throw e, w2)) ∨
       (∃ s b w1 w2 w3, checkBiometricStatus w = (Ok s, w1) ∧ isBiometricEnabled w1 = (Ok b, w2) ∧ hasPINFallback w2 = (Throw e, w3)).

Lemma refresh_unreadable h w : unreadable w → ∃ h' w', refreshStatus (h, w) = (Ok tt, (h', w')) ∧
  hk_enabled h' = hk_enabled h ∧ hk_isLoading h' = false ∧ hk_error h' ≠ None.
Proof.
  intros (e & Hu). unfold refreshStatus, stop_loading, try_finally, try_catch.
  rewrite (run_bind_ok _ _ _ _ _ (run_modify_state _ _ _)).
  destruct Hu as [(w1 & E1)|[(s & w1 & w2 & E1 & E2)|(s & b & w1 & w2 & w3 & E1 & E2 & E3)]].
  - rewrite (run_bind_throw _ _ _ _ _ (run_host _ _ _ _ _ E1)). by eexists _, w1.
  - rewrite (run_bind_ok _ _ _ _ _ (run_host _ _ _ _ _ E1)), (run_bind_throw _ _ _ _ _ (run_host _ _ _ _ _ E2)). by eexists _, w2.
  - rewrite (run_bind_ok _ _ _ _ _ (run_host _ _ _ _ _ E1)), (run_bind_ok _ _ _ _ _ (run_host _ _ _ _ _ E2)),
      (run_bind_throw _ _ _ _ _ (run_host _ _ _ _ _ E3)). by eexists _, w3.
Qed.

(** What [authenticate] answers and leaves. *)
Lemma authenticate_run o h w : hk_enabled h = true →
  match prompt o w with
  | (Ok r, w') => ∃ h', authenticate o (h, w) = (Ok (ba_success r), (h', w')) ∧ hk_enabled h' = true ∧
                     hk_hasPIN h' = hk_hasPIN h ∧ hk_isLoading h' = hk_isLoading h
  | (Throw e, w') => ∃ h', authenticate o (h, w) = (Throw e, (h', w')) ∧ hk_enabled h' = true
  end.
Proof.
  intros He. unfold authenticate. destruct (prompt o w) as [[r|e] w'] eqn:Ep.
  - rewrite (run_bind_ok _ _ _ _ _ (run_get_state _ _)), He. cbn [negb].
    rewrite (run_bind_ok _ _ _ _ _ (run_modify_state _ _ _)), (run_bind_ok _ _ _ _ _ (run_host _ _ _ _ _ Ep)).
    destruct (negb (ba_success r) && truthy_opt (ba_error r)); eexists; split; try reflexivity; by rewrite ?He.
  - rewrite (run_bind_ok _ _ _ _ _ (run_get_state _ _)), He. cbn [negb].
    rewrite (run_bind_ok _ _ _ _ _ (run_modify_state _ _ _)), (run_bind_throw _ _ _ _ _ (run_host _ _ _ _ _ Ep)).
    eexists. split; [reflexivity|]. done.
Qed.

Lemma pin_run pin h w :
  match verifyPIN pin w with
  | (Ok b, w') => ∃ h', authenticateWithPIN pin (h, w) = (Ok b, (h', w')) ∧ hk_enabled h' = hk_enabled h
  | (Throw e, w') => ∃ h', authenticateWithPIN pin (h, w) = (Ok false, (h', w')) ∧ hk_enabled h' = hk_enabled h ∧ hk_error h' = Some (err_message e)
  end.
Proof.
  unfold authenticateWithPIN, try_catch. rewrite (run_bind_ok _ _ _ _ _ (run_modify_state _ _ _)).
  destruct (verifyPIN pin w) as [[[]|e] w'] eqn:Ev.
  - rewrite (run_bind_ok _ _ _ _ _ (run_host _ _ _ _ _ Ev)). by eexists.
  - rewrite (run_bind_ok _ _ _ _ _ (run_host _ _ _ _ _ Ev)). by eexists.
  - rewrite (run_bind_throw _ _ _ _ _ (run_host _ _ _ _ _ Ev)). by eexists.
Qed.
End Spec.
End Hook.

(** ** The guard *)

Module Guard.
Import Hook.

Record guard := MkGuard {
  gd_hook : hook; gd_showPIN : bool; gd_pin : str; gd_isAuthenticating : bool; gd_authComplete : bool;
  gd_succeeded : nat; gd_failed : nat }.
Definition mounted : guard := MkGuard initial false [] false false 0 0.

Definition set_hook (h : hook) (g : guard) : guard :=
  MkGuard h (gd_showPIN g) (gd_pin g) (gd_isAuthenticating g) (gd_authComplete g) (gd_succeeded g) (gd_failed g).
Definition set_authenticating (b : bool) (g : guard) : guard :=
  MkGuard (gd_hook g) (gd_showPIN g) (gd_pin g) b (gd_authComplete g) (gd_succeeded g) (gd_failed g).

(** An action of the hook inside the component. *)
Definition in_hook {W A} (m : M (hook * W) A) : M (guard * W) A := λ s,
  let '(r, (h, w)) := m (gd_hook s.1, s.2) in (r, (set_hook h s.1, w)).

Section Handlers.
Context `{Host W, LocalAuth W, Digest}.

Definition succeed (g : guard) : guard :=
  MkGuard (gd_hook g) (gd_showPIN g) (gd_pin g) (gd_isAuthenticating g) true (S (gd_succeeded g)) (gd_failed g).
Definition fail (g : guard) : guard :=
  MkGuard (gd_hook g) (gd_showPIN g) (gd_pin g) (gd_isAuthenticating g) (gd_authComplete g) (gd_succeeded g) (S (gd_failed g)).
Definition ask_pin (g : guard) : guard :=
  MkGuard (gd_hook g) true (gd_pin g) (gd_isAuthenticating g) (gd_authComplete g) (gd_succeeded g) (gd_failed g).
Definition close_pin (g : guard) : guard :=
  MkGuard (gd_hook g) false [] (gd_isAuthenticating g) (gd_authComplete g) (gd_succeeded g) (gd_failed g).

(** [hasPIN] is the value of the render that made the handler. *)
Definition performAuth (operation : operation) (fallbackToPIN : bool) : M (guard * W) unit :=
  g0 ← get_state;
  modify_state (set_authenticating true);;
  try_finally
    (success ← in_hook (authenticate (Some operation));
     if success : bool then modify_state succeed
     else if fallbackToPIN && hk_hasPIN (gd_hook g0) then modify_state ask_pin
     else modify_state fail)
    (λ s, (set_authenticating false s.1, s.2)).

(** The effect, after a render in which the preference or [authComplete] changed. *)
Definition auth_effect (operation : operation) (fallbackToPIN : bool) : M (guard * W) unit :=
  g ← get_state;
  if hk_enabled (gd_hook g) && negb (gd_authComplete g) && negb (gd_isAuthenticating g)
  then performAuth operation fallbackToPIN else mret tt.

Definition handlePINSubmit : M (guard * W) unit :=
  g ← get_state;
  if (length (gd_pin g) <? 4)%nat then mret tt
  else
    valid ← in_hook (authenticateWithPIN (gd_pin g));
    if valid : bool then modify_state (λ g, succeed (close_pin g)) else mret tt.

Definition handleCancel : M (guard * W) unit := modify_state (λ g, fail (close_pin g)).
End Handlers.

Inductive view := Children | Spinner | Locked (pin_asked : bool).
Definition render (g : guard) : view :=
  if negb (hk_enabled (gd_hook g)) then Children
  else if hk_isLoading (gd_hook g) then Spinner
  else if gd_authComplete g then Children
  else Locked (gd_showPIN g).

(** *** Properties *)

Section Spec.
Context `{Host W, LocalAuth W, Digest}.
Implicit Types (g : guard) (w : W).

Lemma in_hook_run {A} (m : M (hook * W) A) g w r h w' :
  m (gd_hook g, w) = (r, (h, w')) → in_hook m (g, w) = (r, (set_hook h g, w')).
Proof. intros E. unfold in_hook. cbn [fst snd]. by rewrite E. Qed.

(** what the guard protects is shown before anything is known about the preference, and
    it stays shown, with no authentication asked for, when the preference cannot be read: the first
    branch takes "not yet known" for "not required". *)
Theorem guard_open_until_known operation fallbackToPIN w :
  render mounted = Children ∧
  (unreadable w → ∃ g w', in_hook refreshStatus (mounted, w) = (Ok tt, (g, w')) ∧ render g = Children ∧
     auth_effect operation fallbackToPIN (g, w') = (Ok tt, (g, w'))).
Proof.
  split; [done|]. intros Hu. destruct (refresh_unreadable initial w Hu) as (h & w' & E & E1 & E2 & E3).
  exists (set_hook h mounted), w'. split; [by apply in_hook_run|]. cbn in E1. unfold render, auth_effect. cbn [gd_hook set_hook].
  split; [by rewrite E1|]. rewrite (run_bind_ok _ _ _ _ _ (run_get_state _ _)). cbn [gd_hook set_hook]. by rewrite E1.
Qed.

(** C29: once the preference is known to be on, the children appear only after a prompt for
    the operation that succeeded or a PIN of at least four characters that was verified; cancelling and
    failing keep them hidden. *)
Theorem guard_opens_on_proof operation fallbackToPIN g w r g' w' (handler : M (guard * W) unit) :
  handler = auth_effect operation fallbackToPIN ∨ handler = handlePINSubmit ∨ handler = handleCancel →
  hk_enabled (gd_hook g) = true → gd_authComplete g = false → handler (g, w) = (r, (g', w')) →
  render g' = Children →
  (∃ result w1, promptForOperation operation w = (Ok result, w1) ∧ ba_success result = true) ∨
  (∃ w1, verifyPIN (gd_pin g) w = (Ok true, w1) ∧ 4 ≤ length (gd_pin g)).
Proof.
  intros Hh He Hc E Hr.
  assert (R : ∀ g1, hk_enabled (gd_hook g1) = true → gd_authComplete g1 = false → render g1 ≠ Children).
  { intros g1 G1 G2. unfold render. rewrite G1, G2. by destruct (hk_isLoading _). }
  assert (S : ∀ (x : guard), x = g' → hk_enabled (gd_hook x) = true → gd_authComplete x = false → False).
  { intros x -> G1 G2. by eapply R. }
  destruct Hh as [->|[->| ->]].
  - revert E. unfold auth_effect, performAuth. rewrite (run_bind_ok _ _ _ _ _ (run_get_state _ _)), He, Hc. cbn [andb negb].
    destruct (gd_isAuthenticating g); cbn [negb]; [intros [= _ <- _]; by destruct (S g eq_refl)|].
    rewrite (run_bind_ok _ _ _ _ _ (run_get_state _ _)), (run_bind_ok _ _ _ _ _ (run_modify_state _ _ _)).
    unfold try_finally. set (g1 := set_authenticating true g).
    pose proof (authenticate_run (Some operation) (gd_hook g1) w He) as A. cbn [prompt] in A.
    destruct (promptForOperation operation w) as [[result|e] w1] eqn:Ep.
    + destruct A as (h' & A & A1 & A2 & A3). rewrite (run_bind_ok _ _ _ _ _ (in_hook_run _ g1 w _ _ _ A)).
      destruct (ba_success result) eqn:Es; [left; by exists result, w1|].
      destruct (fallbackToPIN && _); intros [= _ <- _]; exfalso; (eapply S; [reflexivity|exact A1|exact Hc]).
    + destruct A as (h' & A & A1). rewrite (run_bind_throw _ _ _ _ _ (in_hook_run _ g1 w _ _ _ A)).
      intros [= _ <- _]. exfalso. eapply S; [reflexivity|exact A1|exact Hc].
  - revert E. unfold handlePINSubmit. rewrite (run_bind_ok _ _ _ _ _ (run_get_state _ _)).
    destruct (Nat.ltb_spec (length (gd_pin g)) 4) as [L|L]; [intros [= _ <- _]; by destruct (S g eq_refl)|].
    pose proof (pin_run (gd_pin g) (gd_hook g) w) as A. destruct (verifyPIN (gd_pin g) w) as [[[]|e] w1] eqn:Ev.
    + right. by exists w1.
    + destruct A as (h' & A & A1). rewrite (run_bind_ok _ _ _ _ _ (in_hook_run _ g w _ _ _ A)).
      intros [= _ <- _]. exfalso. eapply S; [reflexivity|cbn; congruence|exact Hc].
    + destruct A as (h' & A & A1 & _). rewrite (run_bind_ok _ _ _ _ _ (in_hook_run _ g w _ _ _ A)).
      intros [= _ <- _]. exfalso. eapply S; [reflexivity|cbn; congruence|exact Hc].
  - injection E as _ <- _. exfalso. eapply S; [reflexivity|exact He|exact Hc].
Qed.
End Spec.
End Guard.

(** ** Confirming a payment *)

Module Pay.
(** The preference the hook knows, the spinner, the prompts that are open, the payments in flight and
    the calls of [onConfirm] so far. *)
Record confirm := MkConfirm {
  pc_enabled : bool; pc_isProcessing : bool; pc_prompts : nat; pc_paying : nat; pc_paid : nat }.
Definition mounted : confirm := MkConfirm (Hook.hk_enabled Hook.initial) false 0 0 0.

(** What happens to the dialog: the hook learns the preference, a press on the button, the answer of a
    prompt ([None] when it rejects) and the end of a payment. *)
Inductive event := Known (enabled : bool) | Press | Answer (success : option bool) | Settled.
#[export] Instance event_eq_dec : EqDecision event.
Proof. solve_decision. Defined.

Definition executePayment (s : confirm) : confirm :=
  MkConfirm (pc_enabled s) true (pc_prompts s) (S (pc_paying s)) (S (pc_paid s)).

Definition handleConfirm (s : confirm) : confirm :=
  if negb (pc_enabled s) then executePayment s
  else MkConfirm (pc_enabled s) (pc_isProcessing s) (S (pc_prompts s)) (pc_paying s) (pc_paid s).

(** The button is there unless a payment is in flight. *)
Definition button (s : confirm) : option str :=
  if pc_isProcessing s then None
  else Some (if pc_enabled s then js "Authenticate & Pay" else js "Confirm Payment").

Definition step (s : confirm) (e : event) : option confirm :=
  match e with
  | Known b => Some (MkConfirm b (pc_isProcessing s) (pc_prompts s) (pc_paying s) (pc_paid s))
  | Press => if bool_decide (is_Some (button s)) then Some (handleConfirm s) else None
  | Answer success =>
      match pc_prompts s with
      | 0 => None
      | S n =>
          let s' := MkConfirm (pc_enabled s) (pc_isProcessing s) n (pc_paying s) (pc_paid s) in
          Some (if success is Some true then executePayment s' else s')
      end
  | Settled =>
      match pc_paying s with
      | 0 => None
      | S n => Some (MkConfirm (pc_enabled s) false (pc_prompts s) n (pc_paid s))
      end
  end.

Fixpoint run (s : confirm) (es : list event) : option confirm :=
  match es with [] => Some s | e :: es => s' ← step s e; run s' es end.

(** *** Properties *)

Definition proofs (es : list event) : nat := length (filter (λ e, e = Answer (Some true)) es).

Lemma step_required e s s1 : step s e = Some s1 → pc_enabled s = true → Known false ≠ e →
  pc_enabled s1 = true ∧ pc_paid s1 = pc_paid s + (if decide (e = Answer (Some true)) then 1 else 0).
Proof.
  intros Es He Hn. destruct e as [[]| |[[]|]|]; try done; unfold step, handleConfirm in Es; rewrite ?He in Es.
  all: repeat (case_match; try done); simplify_eq/=; (split; [done|lia]).
Qed.

Lemma run_required es : ∀ s s', run s es = Some s' → pc_enabled s = true → Known false ∉ es →
  pc_enabled s' = true ∧ pc_paid s' = pc_paid s + proofs es.
Proof.
  induction es as [|e es IH]; intros s s' Hr He Hn.
  - injection Hr as <-. unfold proofs. cbn. split; [done|lia].
  - cbn [run] in Hr. destruct (step s e) as [s1|] eqn:Es; [|done]. apply not_elem_of_cons in Hn as [N1 N2].
    destruct (step_required e s s1 Es He) as [E1 E2]; [done|].
    destruct (IH s1 s' Hr E1 N2) as [I1 I2]. split; [done|]. rewrite I2, E2. unfold proofs.
    rewrite filter_cons. case_decide; cbn; lia.
Qed.

(** once the preference is known to be on, the payments sent are the prompts passed, one for one;
    but while the preference is unknown a press pays without a prompt, and nothing stops a second press
    while a prompt is open: two presses answered twice pay twice, the spinner of the first payment hiding
    the button only once it is too late. *)
Theorem payments_match_proofs es s s' :
  run s es = Some s' → pc_enabled s = true → Known false ∉ es →
  pc_paid s' = pc_paid s + proofs es ∧
  option_map pc_paid (run mounted [Press; Known true]) = Some 1 ∧
  option_map pc_paid (run mounted [Known true; Press; Press; Answer (Some true); Answer (Some true); Settled; Settled]) = Some 2.
Proof. intros Hr He Hn. split; [by eapply run_required|]. by split. Qed.
End Pay.

(** ** The settings *)

Module Settings.
Import Hook.

Record settings := MkSettings {
  se_hook : hook; se_showPINSetup : bool; se_newPIN : str; se_alerts : list (str * str * list str) }.

Definition in_hook {W A} (m : M (hook * W) A) : M (settings * W) A := λ s,
  let '(r, (h, w)) := m (se_hook s.1, s.2) in
  (r, (MkSettings h (se_showPINSetup s.1) (se_newPIN s.1) (se_alerts s.1), w)).

(** [Alert.alert], with the labels of its buttons. *)
Definition alert {W} (title message : str) (buttons : list str) : M (settings * W) unit :=
  modify_state (λ s, MkSettings (se_hook s) (se_showPINSetup s) (se_newPIN s) (se_alerts s ++ [(title, message, buttons)])).

(** The presses on "Set Up" and "Cancel". *)
Definition show_setup (b : bool) (s : settings) : settings := MkSettings (se_hook s) b (se_newPIN s) (se_alerts s).

Section Handlers.
Context `{Host W, LocalAuth W, Digest}.

(** [biometric] is the hook of the render that made the handler. *)
Definition handleToggle (value : bool) : M (settings * W) unit :=
  s ← get_state;
  let biometric := se_hook s in
  try_catch
    (if value then
       in_hook enableBiometric;;
       (if negb (hk_hasPIN biometric) then
          alert (js "Set Up PIN Fallback") (js "Would you like to set up a PIN as a backup authentication method?")
            [js "Not Now"; js "Set Up"]
        else mret tt)
     else
       success ← in_hook (authenticate (Some securitySettings));
       if success : bool then in_hook disableBiometric else mret tt)
    (λ e, alert (js "Error") (err_message e) []).

Definition handlePINSetup : M (settings * W) unit :=
  s ← get_state;
  if (length (se_newPIN s) <? 4)%nat then alert (js "Invalid PIN") (js "PIN must be at least 4 digits") []
  else
    try_catch
      (in_hook (setupPIN_action (se_newPIN s));;
       modify_state (λ s, MkSettings (se_hook s) false [] (se_alerts s));;
       alert (js "Success") (js "PIN fallback has been set up") [])
      (λ e, alert (js "Error") (err_message e) []).
End Handlers.

(** The labels. *)
Definition typeLabel (types : list BiometricType) : str :=
  if bool_decide (FaceId ∈ types) then js "Face ID"
  else if bool_decide (Fingerprint ∈ types) then js "Fingerprint"
  else if bool_decide (Iris ∈ types) then js "Iris"
  else js "Biometric".

Definition subtitle `{UnicodeCase} (status : option BiometricStatus) : str :=
  let label := typeLabel (from_option bs_types [] status) in
  if from_option bs_available false status then
    if from_option bs_enrolled false status then js "Use " ++ to_lower label ++ js " to secure your wallet"
    else label ++ js " not enrolled. Set up in device settings."
  else js "Not available on this device".

Definition switch_disabled (status : option BiometricStatus) : bool :=
  negb (from_option bs_available false status) || negb (from_option bs_enrolled false status).

(** *** Properties *)

Section Spec.
Context `{Host W, LocalAuth W, Digest}.
Implicit Types (s : settings) (w : W).

Lemma in_hook_settings {A} (m : M (hook * W) A) s w r h w' : m (se_hook s, w) = (r, (h, w')) →
  in_hook m (s, w) = (r, (MkSettings h (se_showPINSetup s) (se_newPIN s) (se_alerts s), w')).
Proof. intros E. unfold in_hook. cbn [fst snd]. by rewrite E. Qed.

(** a switch that is on goes off only after the prompt for the security settings
    succeeded; the handler itself never rejects, every failure ends in one alert. *)
Theorem disabling_needs_proof s w r s' w' :
  hk_enabled (se_hook s) = true → handleToggle false (s, w) = (r, (s', w')) →
  r = Ok tt ∧
  (hk_enabled (se_hook s') = false → ∃ result w1, promptForOperation securitySettings w = (Ok result, w1) ∧ ba_success result = true) ∧
  length (se_alerts s') ≤ S (length (se_alerts s)).
Proof.
  intros He. unfold handleToggle, try_catch. rewrite (run_bind_ok _ _ _ _ _ (run_get_state _ _)).
  pose proof (authenticate_run (Some securitySettings) (se_hook s) w He) as A. cbn [prompt] in A.
  destruct (promptForOperation securitySettings w) as [[result|e] w1] eqn:Ep.
  - destruct A as (h' & A & A1 & _). rewrite (run_bind_ok _ _ _ _ _ (in_hook_settings _ s w _ _ _ A)).
    destruct (ba_success result) eqn:Es.
    + unfold in_hook. cbn [fst snd se_hook]. destruct (disableBiometric (h', w1)) as [[[]|e] [h2 w2]] eqn:Ed.
      all: intros [= <- <- _]; cbn; rewrite ?length_app; cbn; repeat split; [|lia]; intros _; by exists result, w1.
    + intros [= <- <- _]. cbn. rewrite A1. repeat split; [done|lia].
  - destruct A as (h' & A & A1). rewrite (run_bind_throw _ _ _ _ _ (in_hook_settings _ s w _ _ _ A)).
    intros [= <- <- _]. cbn. rewrite A1, length_app. cbn. repeat split; [done|lia].
Qed.

(** What the screen can do to its state: the switch, the button of the form and its opening and closing. *)
Inductive screen_step : settings * W → settings * W → Prop :=
  | step_toggle v s w r s' w' : handleToggle v (s, w) = (r, (s', w')) → screen_step (s, w) (s', w')
  | step_save s w r s' w' : handlePINSetup (s, w) = (r, (s', w')) → screen_step (s, w) (s', w')
  | step_show b s w : screen_step (s, w) (show_setup b s, w)
  | step_refresh s w r s' w' : in_hook refreshStatus (s, w) = (r, (s', w')) → screen_step (s, w) (s', w').

Lemma in_hook_pin {A} (m : M (hook * W) A) s w r s' w' : in_hook m (s, w) = (r, (s', w')) → se_newPIN s' = se_newPIN s.
Proof. unfold in_hook. cbn [fst snd]. destruct (m _) as [? [? ?]]. by intros [= _ <- _]. Qed.

Lemma toggle_keeps_pin v s w r s' w' : handleToggle v (s, w) = (r, (s', w')) → se_newPIN s' = se_newPIN s.
Proof.
  unfold handleToggle, try_catch. rewrite (run_bind_ok _ _ _ _ _ (run_get_state _ _)). destruct v.
  - destruct (in_hook enableBiometric (s, w)) as [[[]|e] [s1 w1]] eqn:E1; pose proof (in_hook_pin _ _ _ _ _ _ E1) as P.
    + rewrite (run_bind_ok _ _ _ _ _ E1). destruct (negb _); by intros [= _ <- _].
    + rewrite (run_bind_throw _ _ _ _ _ E1). by intros [= _ <- _].
  - destruct (in_hook (authenticate (Some securitySettings)) (s, w)) as [[b|e] [s1 w1]] eqn:E1; pose proof (in_hook_pin _ _ _ _ _ _ E1) as P.
    + rewrite (run_bind_ok _ _ _ _ _ E1). destruct b; [|by intros [= _ <- _]].
      destruct (in_hook disableBiometric (s1, w1)) as [[[]|e] [s2 w2]] eqn:E2; pose proof (in_hook_pin _ _ _ _ _ _ E2) as P2.
      all: intros [= _ <- _]; cbn; congruence.
    + rewrite (run_bind_throw _ _ _ _ _ E1). by intros [= _ <- _].
Qed.

(** the form for the fallback PIN cannot be completed: it has no field, so that in every
    state the screen reaches the PIN is still empty, and saving only warns, without touching the storage. *)
Theorem pin_never_saved s w s' w' :
  rtc screen_step (s, w) (s', w') → se_newPIN s = [] →
  handlePINSetup (s', w') = (Ok tt, (MkSettings (se_hook s') (se_showPINSetup s') []
    (se_alerts s' ++ [(js "Invalid PIN", js "PIN must be at least 4 digits", [])]), w')).
Proof.
  assert (G : ∀ t v, se_newPIN t = [] → handlePINSetup (t, v) = (Ok tt, (MkSettings (se_hook t) (se_showPINSetup t) []
    (se_alerts t ++ [(js "Invalid PIN", js "PIN must be at least 4 digits", [])]), v))).
  { intros [h sh p al] v Hp. cbn in Hp. by subst p. }
  intros Hs He. apply G. revert He. remember (s, w) as x eqn:Ex. remember (s', w') as y eqn:Ey. revert s w Ex.
  induction Hs as [x|x [s1 w1] z Hxy Hyz IH]; intros s w Ex He; [congruence|]. subst x z.
  apply (IH eq_refl s1 w1 eq_refl). inversion Hxy; subst.
  - erewrite toggle_keeps_pin; eauto.
  - rewrite G in *; [|done]. simplify_eq. done.
  - done.
  - erewrite in_hook_pin; eauto.
Qed.
End Spec.
End Settings.

(** ** Social sign-in *)

Module Social.
(** The links of the host. *)
Class Links (W : Type) := { canOpenURL : str → M W bool; openLink : str → M W unit }.

Inductive provider := google | apple | email.
Definition provider_text (p : provider) : str :=
  match p with google => js "google" | apple => js "apple" | email => js "email" end.

Definition PRIVY_APP_ID (EXPO_PUBLIC_PRIVY_APP_ID : option str) : str :=
  or_text EXPO_PUBLIC_PRIVY_APP_ID (js "clzaps_privy_app_id").

Definition buildPrivyAuthUrl (env : option str) (p : provider) : str :=
  js "https://auth.privy.io/apps/" ++ PRIVY_APP_ID env ++ js "/login?provider=" ++ provider_text p ++
  js "&redirect_uri=zaps://privy-callback".

(** The provider shown as active, and the timers that run, oldest first. *)
Record social := MkSocial { so_activeProvider : option provider; so_timers : list provider }.
Definition idle : social := MkSocial None [].

(** What a timer does: it tells the parent, follows the next route, or nothing. *)
Inductive arrival := Succeeded (p : provider) | Pushed (route : str) | Stays.

Section Handlers.
Context `{Links W}.
Variables (env : option str) (onSuccess : bool) (nextRoute : str).

Definition handleLaunchPrivy (p : provider) : M (social * W) unit :=
  modify_state (λ s, MkSocial (Some p) (so_timers s));;
  let url := buildPrivyAuthUrl env p in
  try_finally
    (try_catch
       (supported ← host (canOpenURL url);
        if supported : bool then host (openLink url)
        else host (openLink (js "https://auth.privy.io/login?provider=" ++ provider_text p)))
       (λ _, mret tt))
    (λ s, (MkSocial (so_activeProvider s.1) (so_timers s.1 ++ [p]), s.2)).

Definition fire (s : social) : option (social * arrival) :=
  match so_timers s with
  | [] => None
  | p :: ps => Some (MkSocial None ps, if onSuccess then Succeeded p else if bool_decide (nextRoute = []) then Stays else Pushed nextRoute)
  end.

(** the sign-in is never checked: whatever the links do, the link not opening included, the
    handler resolves with a timer set, and the timer reports the provider as a success (or moves on to the
    next screen) with no answer from the provider at all. *)
Theorem sign_in_never_verified p s w : ∃ s' w',
  handleLaunchPrivy p (s, w) = (Ok tt, (s', w')) ∧ so_timers s' = so_timers s ++ [p] ∧
  (so_timers s = [] → ∃ s'', fire s' = Some (s'', if onSuccess then Succeeded p else if bool_decide (nextRoute = []) then Stays else Pushed nextRoute)
     ∧ s'' = idle).
Proof.
  assert (G : ∃ w', handleLaunchPrivy p (s, w) = (Ok tt, (MkSocial (Some p) (so_timers s ++ [p]), w'))).
  { unfold handleLaunchPrivy, try_finally, try_catch. rewrite (run_bind_ok _ _ _ _ _ (run_modify_state _ _ _)).
    destruct (canOpenURL (buildPrivyAuthUrl env p) w) as [[b|e] w1] eqn:Ec.
    - rewrite (run_bind_ok _ _ _ _ _ (run_host _ _ _ _ _ Ec)). destruct b; unfold host; cbn [fst snd];
        (match goal with |- context[openLink ?u ?v] => destruct (openLink u v) as [[[]|e] w2] end; by eexists).
    - rewrite (run_bind_throw _ _ _ _ _ (run_host _ _ _ _ _ Ec)). by eexists. }
  destruct G as (w' & G). exists (MkSocial (Some p) (so_timers s ++ [p])), w'. split; [done|]. split; [done|].
  intros E. unfold fire. cbn [so_timers]. rewrite E. by eexists.
Qed.
End Handlers.
End Social.

(** ** Runs *)

Module Runs.
Import Hook Guard Pay Settings Social.

#[local] Instance demo_digest : Digest := λ d, Some (1%N :: d).
#[local] Instance demo_auth : LocalAuth scripted := {|
  hasHardwareAsync w := (Ok true, w);
  isEnrolledAsync w := (Ok true, w);
  supportedTypesAsync w := (Ok [1; 2]%Z, w);
  authenticateAsync _ w := (Ok (true, None), w);
  is_android := true;
  btoa s := s;
|}.

Definition on : hook := MkHook None true true false None.

Lemma guard_opens_on_proof_witness :
  (∃ result w1, promptForOperation walletAccess (world [] []) = (Ok result, w1) ∧ ba_success result = true) ∨
  (∃ w1, verifyPIN [] (world [] []) = (Ok true, w1) ∧ 4 ≤ length (@nil N)).
Proof.
  eapply (guard_opens_on_proof walletAccess true (MkGuard on false [] false false 0 0) (world [] []) _ _ _
    (auth_effect walletAccess true)); [left; reflexivity|reflexivity|reflexivity|vm_compute; reflexivity|reflexivity].
Defined.

(** A sensor whose services reject. *)
Definition broken_auth : LocalAuth scripted := {|
  hasHardwareAsync w := (Throw (new_error (js "no sensor service")), w);
  isEnrolledAsync w := (Ok true, w);
  supportedTypesAsync w := (Ok [], w);
  authenticateAsync _ w := (Ok (true, None), w);
  is_android := true;
  btoa s := s;
|}.

Lemma guard_open_until_known_witness : ∃ g w',
  Guard.in_hook (refreshStatus (H0 := broken_auth)) (Guard.mounted, world [] []) = (Ok tt, (g, w')) ∧
  render g = Children ∧ auth_effect (H0 := broken_auth) walletAccess true (g, w') = (Ok tt, (g, w')).
Proof.
  apply (guard_open_until_known (H0 := broken_auth) walletAccess true (world [] [])).
  eexists. left. eexists. vm_compute. reflexivity.
Defined.

Lemma payments_match_proofs_witness :
  pc_paid (MkConfirm true true 0 1 1) = 0 + proofs [Press; Answer (Some true)] ∧
  option_map pc_paid (run Pay.mounted [Press; Known true]) = Some 1 ∧
  option_map pc_paid (run Pay.mounted [Known true; Press; Press; Answer (Some true); Answer (Some true); Settled; Settled]) = Some 2.
Proof.
  apply (payments_match_proofs [Press; Answer (Some true)] (MkConfirm true false 0 0 0));
    [reflexivity|reflexivity|apply (bool_decide_unpack _); vm_compute; exact I].
Defined.

Lemma disabling_needs_proof_witness : ∃ r s',
  r = Ok tt ∧
  (hk_enabled (se_hook s') = false → ∃ result w1,
     promptForOperation securitySettings (world [] []) = (Ok result, w1) ∧ ba_success result = true) ∧
  length (se_alerts s') ≤ 1.
Proof.
  destruct (handleToggle false (MkSettings on false [] [], world [] [])) as [r [s' w']] eqn:E. exists r, s'.
  destruct (disabling_needs_proof (MkSettings on false [] []) (world [] []) r s' w') as (A & B & C); [reflexivity|exact E|].
  repeat split; assumption.
Defined.

Lemma pin_never_saved_witness :
  handlePINSetup (MkSettings on true [] [], world [] []) = (Ok tt, (MkSettings on true []
    ([] ++ [(js "Invalid PIN", js "PIN must be at least 4 digits", [])]), world [] [])).
Proof.
  apply (pin_never_saved (MkSettings on false [] []) (world [] []) (MkSettings on true [] []) (world [] [])); [|reflexivity].
  apply rtc_once. apply (step_show true (MkSettings on false [] [])).
Defined.

#[local] Instance no_links : Links scripted := {| canOpenURL _ w := (Throw (new_error (js "no browser")), w); openLink _ w := (Ok tt, w) |}.

Lemma sign_in_never_verified_witness : ∃ s' w',
  handleLaunchPrivy None google (idle, world [] []) = (Ok tt, (s', w')) ∧ so_timers s' = so_timers idle ++ [google] ∧
  (so_timers idle = [] → ∃ s'', fire false (js "/username") s' = Some (s'', Pushed (js "/username")) ∧ s'' = idle).
Proof. apply (sign_in_never_verified None false (js "/username") google idle (world [] [])). Defined.
End Runs.
