(* ===== verification/DeviceAuth.v ===== *)
(** * Key rotation, the account PIN and the identity prompt

    Model of [mobileapp/app/biometric.tsx]: the two slots the session tokens are rotated
    between (over the failing stores of file Faults), the PIN hash in 32-bit arithmetic, the PIN modal, [authenticateWithBiometrics]
    and the onboarding screen. *)

From S2P Require Import Prelude JsString JsNumber JsDate Json Effects Faults Decode Scripts MobileApi.

(** ** Rotation of the stored tokens *)

Module Rotation.
Inductive RotatableKey := PrivySessionToken | PrivyUserState.

Definition base_text (k : RotatableKey) : str :=
  match k with PrivySessionToken => js "privy_session_token" | PrivyUserState => js "privy_user_state" end.

Definition ROTATABLE_TOKEN_KEYS : list RotatableKey := [PrivySessionToken; PrivyUserState].

Definition KEY_ROTATION_VERSION_KEY : str := js "auth_key_rotation_version".
Definition KEY_ROTATION_INTERVAL_MS : Z := 7 * 24 * 60 * 60 * 1000.
Definition LAST_ROTATION_TIMESTAMP_KEY : str := js "auth_key_last_rotation_ts".

Definition versionedKey (base : RotatableKey) (version : Z) : str :=
  base_text base ++ js "_v" ++ Z_to_str version.

(** [Number.isFinite(parsed) ? parsed % 2 : 0] of a parsed integer *)
Definition slot_of (parsed : num) : Z :=
  match parsed with Fin m e => Z.rem (Z.quot m (2 ^ (- e))) 2 | _ => 0 end.

Section Storage.
Context `{Host W}.

Definition getActiveKeyVersion : M W Z :=
  try_catch
    (raw ← st_get SecureStore KEY_ROTATION_VERSION_KEY;
     mret (slot_of (parseInt10 (default (js "0") raw))))
    (λ _, mret 0%Z).

(** The last read is returned, not awaited: its rejection is not caught. *)
Definition getRotatedToken (base : RotatableKey) : M W (option str) :=
  version ← getActiveKeyVersion;
  versioned ← try_catch
    (v ← st_get SecureStore (versionedKey base version); mret (Some v))
    (λ _, mret None);
  match versioned with
  | None => mret None
  | Some (Some t) => mret (Some t)
  | Some None => st_get SecureStore (base_text base)
  end.

Definition setRotatedToken (base : RotatableKey) (value : str) : M W unit :=
  version ← getActiveKeyVersion;
  st_set SecureStore (versionedKey base version) value.

Definition deleteRotatedToken (base : RotatableKey) : M W unit :=
  version ← getActiveKeyVersion;
  swallow (st_del SecureStore (versionedKey base version));;
  swallow (st_del SecureStore (base_text base)).

Definition or_null (m : M W (option str)) : M W (option str) := try_catch m (λ _, mret None).

(** Step 1: a token of the current slot, or the one stored before rotation existed. *)
Definition current_value (version : Z) (key : RotatableKey) : M W (option str) :=
  value ← or_null (st_get SecureStore (versionedKey key version));
  match value with
  | Some t => mret (Some t)
  | None => or_null (st_get SecureStore (base_text key))
  end.

Definition read_values (version : Z) : M W (list (RotatableKey * option str)) :=
  for_each (λ (acc : list (RotatableKey * option str)) key, value ← current_value version key; mret (acc ++ [(key, value)])) [] ROTATABLE_TOKEN_KEYS.

(** Step 2 *)
Definition write_values (version : Z) (values : list (RotatableKey * option str)) : M W unit :=
  for_each (λ (_ : unit) (kv : RotatableKey * option str), match kv.2 with
                    | Some value => st_set SecureStore (versionedKey kv.1 version) value
                    | None => mret tt
                    end) tt values.

(** Step 4 *)
Definition delete_slot (version : Z) : M W unit :=
  for_each (λ (_ : unit) (key : RotatableKey), swallow (st_del SecureStore (versionedKey key version));;
                     swallow (st_del SecureStore (base_text key))) tt ROTATABLE_TOKEN_KEYS.

Definition rotateSecureStorageKey : M W bool :=
  try_catch
    (currentVersion ← getActiveKeyVersion;
     let nextVersion := Z.rem (currentVersion + 1) 2 in
     tokenValues ← read_values currentVersion;
     write_values nextVersion tokenValues;;
     st_set SecureStore KEY_ROTATION_VERSION_KEY (Z_to_str nextVersion);;
     delete_slot currentVersion;;
     now ← date_now;
     swallow (st_set AsyncStorage LAST_ROTATION_TIMESTAMP_KEY (Z_to_str now));;
     mret true)
    (λ _, mret false).

(** [Date.now() - lastRotation < KEY_ROTATION_INTERVAL_MS] is false. *)
Definition rotation_due (raw : option str) (now : Z) : bool :=
  let lastRotation := match raw with
                      | Some r => if truthy r then parseInt10 r else Fin 0 0
                      | None => Fin 0 0
                      end in
  negb (num_ltb (num_sub (num_of_Z now) lastRotation) (num_of_Z KEY_ROTATION_INTERVAL_MS)).

Definition maybeRotateSecureStorageKey : M W bool :=
  due ← try_catch (raw ← st_get AsyncStorage LAST_ROTATION_TIMESTAMP_KEY; now ← date_now; mret (rotation_due raw now))
          (λ _, mret false);
  if (due : bool) then rotateSecureStorageKey else mret false.
End Storage.

(** *** The store as the rotation sees it *)

(** The secure store, and one change of it. *)
Definition secure := str → option str.
Definition change : Type := str * option str.
Definition apply_change (s : secure) (c : change) : secure := λ k, if decide (k = c.1) then c.2 else s k.
Definition apply_changes (s : secure) (cs : list change) : secure := foldl apply_change s cs.

Definition active (s : secure) : Z := slot_of (parseInt10 (default (js "0") (s KEY_ROTATION_VERSION_KEY))).

(** What [getRotatedToken] reads. *)
Definition token_in (s : secure) (version : Z) (base : RotatableKey) : option str :=
  match s (versionedKey base version) with Some t => Some t | None => s (base_text base) end.
Definition token_seen (s : secure) (base : RotatableKey) : option str := token_in s (active s) base.

(** The changes of a rotation, in their order. *)
Definition token_writes (s : secure) (next : Z) : list change :=
  omap (λ base, pair (versionedKey base next) ∘ Some <$> token_in s (active s) base) ROTATABLE_TOKEN_KEYS.
Definition slot_deletes (version : Z) : list change :=
  concat ((λ base, [(versionedKey base version, None); (base_text base, None)]) <$> ROTATABLE_TOKEN_KEYS).
Definition rotation_plan (s : secure) : list change :=
  let next := Z.rem (active s + 1) 2 in
  token_writes s next ++ (KEY_ROTATION_VERSION_KEY, Some (Z_to_str next)) :: slot_deletes (active s).

Definition slot_ok (s : secure) : Prop := active s = 0%Z ∨ active s = 1%Z.

(** *** Lemmas *)

Lemma apply_changes_app s cs cs' : apply_changes s (cs ++ cs') = apply_changes (apply_changes s cs) cs'.
Proof. apply foldl_app. Qed.

Lemma apply_notin s cs k : k ∉ cs.*1 → apply_changes s cs k = s k.
Proof.
  induction cs as [|c cs IH] using rev_ind; [done|]. rewrite fmap_app, not_elem_of_app. intros [Hk Hc].
  rewrite apply_changes_app. cbn. unfold apply_change. rewrite decide_False; [by apply IH|].
  intros ->. apply Hc. cbn. by left.
Qed.

Lemma apply_ext s s' cs : (∀ k, s k = s' k) → ∀ k, apply_changes s cs k = apply_changes s' cs k.
Proof.
  intros E. induction cs as [|c cs IH] using rev_ind; [done|]. intros k. rewrite !apply_changes_app. cbn.
  unfold apply_change. case_decide; [done|apply IH].
Qed.

(** Deleting leaves a key as it was or removes it. *)
Lemma apply_deletes s cs k : Forall (λ c : change, c.2 = None) cs → apply_changes s cs k = s k ∨ apply_changes s cs k = None.
Proof.
  induction cs as [|c cs IH] using rev_ind; [by left|]. intros [Hcs [Hc _]%Forall_cons]%Forall_app.
  rewrite apply_changes_app. cbn. unfold apply_change. case_decide; [by right|by apply IH].
Qed.

Definition slot_value (v : Z) : Prop := v = 0%Z ∨ v = 1%Z.

(** Different keys of the rotation, once the slots are known. *)
Ltac distinct_keys := let E := fresh in intros E; vm_compute in E; discriminate E.
Ltac not_among := apply (bool_decide_unpack _); vm_compute; exact I.

Lemma slots_differ v : slot_value v → slot_value (Z.rem (v + 1) 2) ∧ Z.rem (v + 1) 2 ≠ v.
Proof. intros [-> | ->]; cbn; (split; [by (left + right)|done]). Qed.

Lemma plan_keys s : slot_ok s → let next := Z.rem (active s + 1) 2 in
  (∀ base, (versionedKey base (active s) ∉ (token_writes s next).*1) ∧ (base_text base ∉ (token_writes s next).*1) ∧
     (versionedKey base next ∉ (slot_deletes (active s)).*1)) ∧
  (KEY_ROTATION_VERSION_KEY ∉ (token_writes s next).*1) ∧ (KEY_ROTATION_VERSION_KEY ∉ (slot_deletes (active s)).*1) ∧
  (∀ base, versionedKey base next ≠ KEY_ROTATION_VERSION_KEY).
Proof.
  intros Hs next. unfold token_writes, ROTATABLE_TOKEN_KEYS, next. clear next. unfold slot_ok in Hs.
  cbn [omap list_omap]. generalize (token_in s (active s) PrivySessionToken), (token_in s (active s) PrivyUserState).
  generalize dependent (active s). intros v Hv t1 t2. destruct Hv as [-> | ->], t1 as [t1|], t2 as [t2|]; cbn [fmap option_fmap option_map compose];
    (split; [intros []; split_and!; not_among|]); (split; [not_among|]); (split; [not_among|intros []; distinct_keys]).
Qed.

Lemma writes_lookup s next base :
  apply_changes s (token_writes s next) (versionedKey base next) =
    match token_in s (active s) base with Some t => Some t | None => s (versionedKey base next) end.
Proof.
  assert (N : versionedKey PrivySessionToken next ≠ versionedKey PrivyUserState next).
  { intros E. apply (f_equal (lookup 6)) in E. vm_compute in E. discriminate E. }
  unfold token_writes, ROTATABLE_TOKEN_KEYS. cbn [omap list_omap].
  destruct base, (token_in s (active s) PrivySessionToken) as [t1|], (token_in s (active s) PrivyUserState) as [t2|];
    cbn [fmap option_fmap option_map compose apply_changes foldl]; unfold apply_change; cbn [fst snd];
    rewrite ?(decide_True (P := versionedKey PrivySessionToken next = versionedKey PrivySessionToken next)) by done;
    rewrite ?(decide_True (P := versionedKey PrivyUserState next = versionedKey PrivyUserState next)) by done;
    rewrite ?(decide_False (P := versionedKey PrivySessionToken next = versionedKey PrivyUserState next)) by done;
    rewrite ?(decide_False (P := versionedKey PrivyUserState next = versionedKey PrivySessionToken next)) by done; done.
Qed.

Lemma slot_text v : slot_value v → slot_of (parseInt10 (Z_to_str v)) = v.
Proof. by intros [-> | ->]; vm_compute. Qed.

Lemma seen_next s v base : s KEY_ROTATION_VERSION_KEY = Some (Z_to_str v) → slot_value v → token_seen s base = token_in s v base.
Proof. intros E Hv. unfold token_seen, active. rewrite E. cbn [default from_option id]. by rewrite slot_text. Qed.

(** After the pointer and any of the deletions. *)
Lemma seen_after s ds base : slot_ok s → ds ⊆ slot_deletes (active s) → let next := Z.rem (active s + 1) 2 in
  token_seen (apply_changes s (token_writes s next ++ (KEY_ROTATION_VERSION_KEY, Some (Z_to_str next)) :: ds)) base =
    match token_seen s base with Some t => Some t | None => s (versionedKey base next) end.
Proof.
  intros Hs Hds next. destruct (plan_keys s Hs) as (Kb & Kw & Kd & Kn). fold next in Kb, Kw, Kd, Kn.
  destruct (slots_differ _ Hs) as [Sv _]. fold next in Sv.
  set (s1 := apply_changes s (token_writes s next)). set (s2 := apply_change s1 (KEY_ROTATION_VERSION_KEY, Some (Z_to_str next))).
  rewrite apply_changes_app. cbn [apply_changes foldl]. fold s1. fold s2. change (foldl apply_change s2 ds) with (apply_changes s2 ds).
  assert (Sub : ∀ k, k ∉ (slot_deletes (active s)).*1 → k ∉ ds.*1).
  { intros k Hk Hin. apply Hk. apply list_elem_of_fmap in Hin as (c & -> & Hc). apply list_elem_of_fmap. exists c. auto. }
  assert (P : apply_changes s2 ds KEY_ROTATION_VERSION_KEY = Some (Z_to_str next)).
  { rewrite apply_notin by (by apply Sub). unfold s2, apply_change. by rewrite decide_True. }
  rewrite (seen_next _ _ _ P Sv). unfold token_in.
  destruct (Kb base) as (K1 & K2 & K3). rewrite apply_notin by (by apply Sub).
  assert (E2 : s2 (versionedKey base next) = match token_in s (active s) base with Some t => Some t | None => s (versionedKey base next) end).
  { unfold s2, apply_change. rewrite decide_False by (apply Kn). apply writes_lookup. }
  rewrite E2. unfold token_seen. destruct (token_in s (active s) base) as [t|] eqn:Et; [done|].
  destruct (s (versionedKey base next)); [done|].
  assert (B : s2 (base_text base) = None).
  { unfold s2, apply_change. rewrite decide_False by (destruct base; distinct_keys). unfold s1. rewrite apply_notin by done.
    unfold token_in in Et. by destruct (s (versionedKey base (active s))). }
  destruct (apply_deletes s2 ds (base_text base)) as [->| ->]; [|done..].
  apply Forall_forall. intros c Hc. apply Hds in Hc. revert c Hc. apply Forall_forall.
  unfold slot_deletes, ROTATABLE_TOKEN_KEYS. repeat constructor.
Qed.

Lemma seen_before s cs base : slot_ok s → (∃ j, cs = take j (token_writes s (Z.rem (active s + 1) 2))) → token_seen (apply_changes s cs) base = token_seen s base.
Proof.
  intros Hs [j ->]. destruct (plan_keys s Hs) as (Kb & Kw & _). destruct (Kb base) as (K1 & K2 & _).
  assert (Sub : ∀ k, k ∉ (token_writes s (Z.rem (active s + 1) 2)).*1 → k ∉ (take j (token_writes s (Z.rem (active s + 1) 2))).*1).
  { intros k Hk Hin. apply Hk. rewrite fmap_take in Hin. by apply (subseteq_take j) in Hin. }
  set (s' := apply_changes s _). assert (Ea : active s' = active s) by (unfold active, s'; by rewrite apply_notin by (by apply Sub)).
  unfold token_seen. rewrite Ea. unfold token_in, s'. by rewrite !apply_notin by (by apply Sub).
Qed.

(** *** The code performs the plan *)

Section Refinement.
Context `{HostLaws W}.
Implicit Types (w : W).

Definition secure_of (w : W) : secure := st_peek w SecureStore.

(** The secure store changed as listed, and nothing else did. *)
Record changed (w w' : W) (cs : list change) : Prop := Changed {
  ch_secure : ∀ k, st_peek w' SecureStore k = apply_changes (secure_of w) cs k;
  ch_other : ∀ st k, st ≠ SecureStore → st_peek w' st k = st_peek w st k;
  ch_trace : net_trace w' = net_trace w;
  ch_live : st_live w → st_live w';
}.

Lemma changed_kept w w' : kept w w' → changed w w' [].
Proof. intros K. split; [intros k; apply K|intros; apply K|apply K|apply K]. Qed.

Lemma changed_stored w w' k v : stored w w' SecureStore k v → changed w w' [(k, v)].
Proof.
  intros S. split; [|intros st k' Hst; apply (stored_ne _ _ _ _ _ S); congruence|apply S|apply S].
  intros k'. cbn. unfold apply_change, secure_of. cbn. case_decide as E; [subst; apply S|].
  apply (stored_ne _ _ _ _ _ S). congruence.
Qed.

Lemma changed_app w1 w2 w3 cs cs' : changed w1 w2 cs → changed w2 w3 cs' → changed w1 w3 (cs ++ cs').
Proof.
  intros [s1 o1 t1 l1] [s2 o2 t2 l2]. split; [|intros; by rewrite o2, o1|by rewrite t2, t1|auto].
  intros k. rewrite s2, apply_changes_app. apply apply_ext. exact s1.
Qed.

Lemma secure_kept w w' : kept w w' → ∀ k, secure_of w' k = secure_of w k.
Proof. intros K k. apply K. Qed.

Lemma token_in_ext s s' v base : (∀ k, s k = s' k) → token_in s v base = token_in s' v base.
Proof. intros E. unfold token_in. by rewrite !E. Qed.

Lemma active_ext s s' : (∀ k, s k = s' k) → active s = active s'.
Proof. intros E. unfold active. by rewrite E. Qed.

(** Reading the version and the tokens, on a store whose reads answer while [P] holds. *)
Section Reads.
Context (P : W → Prop) (reads : ∀ s k w, P w → ∃ w', st_get s k w = (Ok (st_peek w s k), w') ∧ kept w w' ∧ P w').

Lemma version_reads w : P w → ∃ w', getActiveKeyVersion w = (Ok (active (secure_of w)), w') ∧ kept w w' ∧ P w'.
Proof.
  intros L. destruct (reads SecureStore KEY_ROTATION_VERSION_KEY w L) as (w' & E & K). exists w'. split; [|done].
  unfold getActiveKeyVersion, try_catch. by rewrite (run_bind_ok _ _ _ _ _ E).
Qed.

Lemma or_null_reads k w : P w → ∃ w', or_null (st_get SecureStore k) w = (Ok (secure_of w k), w') ∧ kept w w' ∧ P w'.
Proof. intros L. destruct (reads SecureStore k w L) as (w' & E & K). exists w'. split; [by apply run_try_ok|done]. Qed.

Lemma current_value_reads v key w : P w → ∃ w', current_value v key w = (Ok (token_in (secure_of w) v key), w') ∧ kept w w' ∧ P w'.
Proof.
  intros L. destruct (or_null_reads (versionedKey key v) w L) as (w1 & E1 & K1 & P1). unfold current_value, token_in.
  rewrite (run_bind_ok _ _ _ _ _ E1). destruct (secure_of w (versionedKey key v)) as [t|]; [by exists w1|].
  destruct (or_null_reads (base_text key) w1 P1) as (w2 & E2 & K2 & P2).
  exists w2. rewrite E2. rewrite (secure_kept _ _ K1). split; [done|]. split; [by etrans|done].
Qed.

Lemma read_values_reads v w : P w → ∃ w',
  read_values v w = (Ok ((λ key, (key, token_in (secure_of w) v key)) <$> ROTATABLE_TOKEN_KEYS), w') ∧ kept w w' ∧ P w'.
Proof.
  intros L. destruct (current_value_reads v PrivySessionToken w L) as (w1 & E1 & K1 & P1).
  destruct (current_value_reads v PrivyUserState w1 P1) as (w2 & E2 & K2 & P2).
  exists w2. split; [|split; [by etrans|done]]. unfold read_values, ROTATABLE_TOKEN_KEYS. cbn [for_each].
  rewrite run_bind, (run_bind_ok _ _ _ _ _ E1). cbn [mret M_ret app]. rewrite run_bind, (run_bind_ok _ _ _ _ _ E2). cbn [mret M_ret app].
  by rewrite (token_in_ext (secure_of w1) (secure_of w) v PrivyUserState (secure_kept _ _ K1)).
Qed.
End Reads.

Lemma live_reads s k w : st_live w → ∃ w', st_get s k w = (Ok (st_peek w s k), w') ∧ kept w w' ∧ st_live w'.
Proof. intros L. destruct (get_live s k w L) as (w' & E & K). exists w'. split; [done|]. split; [done|by apply K]. Qed.

Lemma version_run w : st_live w → ∃ w', getActiveKeyVersion w = (Ok (active (secure_of w)), w') ∧ kept w w'.
Proof. intros L. destruct (version_reads st_live live_reads w L) as (w' & E & K & _). by exists w'. Qed.

Lemma read_values_run v w : st_live w → ∃ w',
  read_values v w = (Ok ((λ key, (key, token_in (secure_of w) v key)) <$> ROTATABLE_TOKEN_KEYS), w') ∧ kept w w'.
Proof. intros L. destruct (read_values_reads st_live live_reads v w L) as (w' & E & K & _). by exists w'. Qed.

Lemma write_values_run v (values : list (RotatableKey * option str)) w : st_live w → ∃ w',
  write_values v values w = (Ok tt, w') ∧ changed w w' (omap (λ kv, pair (versionedKey kv.1 v) ∘ Some <$> kv.2) values).
Proof.
  revert w. unfold write_values. induction values as [|[key [value|]] values IH]; intros w L; cbn [for_each omap list_omap fst snd].
  - exists w. split; [done|]. by apply changed_kept.
  - destruct (set_live SecureStore (versionedKey key v) value w L) as (w1 & E1 & S1).
    destruct (IH w1) as (w2 & E2 & C2); [by apply S1|]. exists w2. rewrite (run_bind_ok _ _ _ _ _ E1). split; [done|].
    apply (changed_app w w1 w2 [(versionedKey key v, Some value)]); [by apply changed_stored|done].
  - destruct (IH w L) as (w2 & E2 & C2). exists w2. by rewrite (run_bind_ok _ _ _ _ _ (run_ret tt w)).
Qed.

Lemma delete_run k w : st_live w → ∃ w', swallow (st_del SecureStore k) w = (Ok tt, w') ∧ changed w w' [(k, None)].
Proof.
  intros L. destruct (swallow_del_run SecureStore k w L) as (w' & E & S). exists w'. split; [done|]. by apply changed_stored.
Qed.

Lemma delete_slot_run v w : st_live w → ∃ w', delete_slot v w = (Ok tt, w') ∧ changed w w' (slot_deletes v).
Proof.
  intros L. unfold delete_slot, slot_deletes, ROTATABLE_TOKEN_KEYS. cbn [for_each fmap list_fmap concat app].
  destruct (delete_run (versionedKey PrivySessionToken v) w L) as (w1 & E1 & C1).
  destruct (delete_run (base_text PrivySessionToken) w1) as (w2 & E2 & C2); [by apply C1|].
  destruct (delete_run (versionedKey PrivyUserState v) w2) as (w3 & E3 & C3); [by apply C2, C1|].
  destruct (delete_run (base_text PrivyUserState) w3) as (w4 & E4 & C4); [by apply C3, C2, C1|].
  exists w4. split.
  - rewrite run_bind, (run_bind_ok _ _ _ _ _ E1), E2, run_bind, (run_bind_ok _ _ _ _ _ E3), E4. done.
  - by apply (changed_app _ _ _ [_] [_; _; _] C1), (changed_app _ _ _ [_] [_; _] C2), (changed_app _ _ _ [_] [_] C3).
Qed.

Lemma rotate_run w : st_live w → ∃ now w1 w2, rotateSecureStorageKey w = (Ok true, w2) ∧
  changed w w1 (rotation_plan (secure_of w)) ∧ stored w1 w2 AsyncStorage LAST_ROTATION_TIMESTAMP_KEY (Some (Z_to_str now)).
Proof.
  intros L. destruct (version_run w L) as (wa & Ea & Ka). set (v := active (secure_of w)) in *.
  destruct (read_values_run v wa) as (wb & Eb & Kb); [by apply Ka|].
  set (values := (λ key, (key, token_in (secure_of wa) v key)) <$> ROTATABLE_TOKEN_KEYS) in *.
  set (next := Z.rem (v + 1) 2).
  destruct (write_values_run next values wb) as (wc & Ec & Cc); [by apply Kb, Ka|].
  destruct (set_live SecureStore KEY_ROTATION_VERSION_KEY (Z_to_str next) wc) as (wd & Ed & Sd); [by apply Cc, Kb, Ka|].
  destruct (delete_slot_run v wd) as (we & Ee & Ce); [by apply Sd, Cc, Kb, Ka|].
  destruct (now_spec we) as (now & wf & Ef & Kf & _).
  destruct (set_live AsyncStorage LAST_ROTATION_TIMESTAMP_KEY (Z_to_str now) wf) as (wg & Eg & Sg); [by apply Kf, Ce, Sd, Cc, Kb, Ka|].
  exists now, wf, wg. split; [|split; [|done]].
  - unfold rotateSecureStorageKey, try_catch. rewrite (run_bind_ok _ _ _ _ _ Ea). fold v. cbn zeta. fold next.
    rewrite (run_bind_ok _ _ _ _ _ Eb), (run_bind_ok _ _ _ _ _ Ec), (run_bind_ok _ _ _ _ _ Ed), (run_bind_ok _ _ _ _ _ Ee), (run_bind_ok _ _ _ _ _ Ef).
    unfold swallow. by rewrite (run_bind_ok _ _ _ _ _ (run_try_ok _ _ _ _ _ Eg)).
  - unfold rotation_plan. fold v. fold next.
    assert (Ew : token_writes (secure_of w) next = omap (λ kv : RotatableKey * option str, pair (versionedKey kv.1 next) ∘ Some <$> kv.2) values).
    { unfold token_writes, values, ROTATABLE_TOKEN_KEYS. cbn [fmap list_fmap omap list_omap fst snd]. fold v.
      by rewrite !(token_in_ext (secure_of wa) (secure_of w) v _ (secure_kept _ _ Ka)). }
    rewrite Ew. apply (changed_app w wb wf []); [apply changed_kept; by etrans|].
    apply (changed_app wb wc wf); [done|]. apply (changed_app wc wd wf [_]); [by apply changed_stored|].
    rewrite <-(app_nil_r (slot_deletes v)). apply (changed_app wd we wf); [done|by apply changed_kept].
Qed.

Lemma rotated_run base w : st_live w → ∃ w', getRotatedToken base w = (Ok (token_seen (secure_of w) base), w') ∧ kept w w'.
Proof.
  intros L. destruct (version_run w L) as (w1 & E1 & K1). unfold getRotatedToken. rewrite (run_bind_ok _ _ _ _ _ E1).
  set (v := active (secure_of w)). destruct (get_live SecureStore (versionedKey base v) w1) as (w2 & E2 & K2); [by apply K1|].
  assert (T : try_catch (x ← st_get SecureStore (versionedKey base v); mret (Some x)) (λ _, mret None) w1 =
              (Ok (Some (secure_of w (versionedKey base v))), w2)).
  { unfold try_catch. rewrite (run_bind_ok _ _ _ _ _ E2). by rewrite (kept_peek _ _ K1). }
  rewrite (run_bind_ok _ _ _ _ _ T). unfold token_seen, token_in. fold v.
  destruct (secure_of w (versionedKey base v)) as [t|]; [exists w2; split; [done|by etrans]|].
  destruct (get_live SecureStore (base_text base) w2) as (w3 & E3 & K3); [by apply K2, K1|].
  exists w3. rewrite E3, (kept_peek _ _ K2), (kept_peek _ _ K1). split; [done|]. by repeat (etrans; [eassumption|]).
Qed.

Lemma rotated_secure w w1 w2 now : changed w w1 (rotation_plan (secure_of w)) →
  stored w1 w2 AsyncStorage LAST_ROTATION_TIMESTAMP_KEY (Some (Z_to_str now)) →
  ∀ k, secure_of w2 k = apply_changes (secure_of w) (rotation_plan (secure_of w)) k.
Proof. intros C S k. unfold secure_of. rewrite (stored_ne _ _ _ _ _ S) by done. apply C. Qed.

Lemma token_seen_ext s s' base : (∀ k, s k = s' k) → token_seen s base = token_seen s' base.
Proof. intros E. unfold token_seen. rewrite (active_ext s s' E). by apply token_in_ext. Qed.

Lemma active_after s : slot_ok s → active (apply_changes s (rotation_plan s)) = Z.rem (active s + 1) 2.
Proof.
  intros Hs. destruct (plan_keys s Hs) as (_ & _ & Kd & _). destruct (slots_differ _ Hs) as [Sv _].
  unfold active at 1, rotation_plan. rewrite apply_changes_app. cbn [apply_changes foldl].
  change (foldl apply_change ?x ?l) with (apply_changes x l). rewrite apply_notin by done.
  unfold apply_change. rewrite decide_True by done. cbn [snd default from_option id]. by rewrite slot_text.
Qed.

Lemma bare_gone s base : slot_ok s → apply_changes s (rotation_plan s) (base_text base) = None.
Proof.
  intros Hs. unfold rotation_plan. rewrite apply_changes_app. generalize (apply_changes s (token_writes s (Z.rem (active s + 1) 2))). intros s1.
  unfold slot_deletes, ROTATABLE_TOKEN_KEYS. cbn [fmap list_fmap concat app apply_changes foldl]. unfold apply_change. cbn [fst snd].
  destruct base; repeat (case_decide as D; [done|]); done.
Qed.

(** a rotation reports success and performs its plan, so [getRotatedToken] reads the
    session token it read before. But [api.ts] reads and writes the entry the rotation
    deletes: to its requests the user is signed out, and the token of a new sign-in is
    deleted by the next rotation in favour of the old one. *)
Theorem rotation_ends_session w t : st_live w → slot_ok (secure_of w) → token_seen (secure_of w) PrivySessionToken = Some t → ∃ w1,
  rotateSecureStorageKey w = (Ok true, w1) ∧
  (∃ w', getRotatedToken PrivySessionToken w1 = (Ok (Some t), w')) ∧
  (∃ w', getSessionToken w1 = (Ok None, w')) ∧
  ∀ fresh, ∃ w2 w3, setSessionToken fresh None w1 = (Ok tt, w2) ∧ token_of w2 = Some fresh ∧
    rotateSecureStorageKey w2 = (Ok true, w3) ∧ token_of w3 = None ∧
    token_seen (secure_of w3) PrivySessionToken = Some t.
Proof.
  intros L Hs Ht. destruct (rotate_run w L) as (now & wa & w1 & E1 & C1 & S1).
  pose proof (rotated_secure _ _ _ _ C1 S1) as P1. exists w1. split; [done|].
  assert (L1 : st_live w1) by (by apply S1, C1).
  assert (R : ∀ s, slot_ok s → token_seen s PrivySessionToken = Some t → token_seen (apply_changes s (rotation_plan s)) PrivySessionToken = Some t).
  { intros s Hs' Ht'. unfold rotation_plan. rewrite seen_after by done. by rewrite Ht'. }
  assert (B : ∀ s, slot_ok s → apply_changes s (rotation_plan s) SESSION_TOKEN_KEY = None).
  { intros s Hs'. by apply (bare_gone s PrivySessionToken). }
  split; [|split].
  - destruct (rotated_run PrivySessionToken w1 L1) as (w' & E & _). exists w'.
    by rewrite E, (token_seen_ext _ _ _ P1), R.
  - destruct (getSessionToken_run w1 L1) as (w' & E & _). exists w'. unfold token_of in E. rewrite E.
    change (st_peek w1 SecureStore) with (secure_of w1). by rewrite P1, B.
  - intros fresh. destruct (set_live SecureStore SESSION_TOKEN_KEY fresh w1 L1) as (w2 & E2 & S2).
    destruct (rotate_run w2) as (now' & wb & w3 & E3 & C3 & S3); [by apply S2|].
    pose proof (rotated_secure _ _ _ _ C3 S3) as P3. exists w2, w3.
    assert (P2 : ∀ k, secure_of w2 k = apply_change (secure_of w1) (SESSION_TOKEN_KEY, Some fresh) k).
    { intros k. apply (changed_stored _ _ _ _ S2). }
    assert (A2 : active (secure_of w2) = active (secure_of w1)).
    { unfold active. rewrite P2. unfold apply_change. by rewrite decide_False by distinct_keys. }
    assert (A1 : active (secure_of w1) = Z.rem (active (secure_of w) + 1) 2) by (rewrite (active_ext _ _ P1); by apply active_after).
    destruct (slots_differ _ Hs) as [Sv _].
    assert (H2 : slot_ok (secure_of w2)) by (unfold slot_ok; by rewrite A2, A1).
    assert (T1 : secure_of w1 (versionedKey PrivySessionToken (active (secure_of w1))) = Some t).
    { pose proof (R _ Hs Ht) as T. rewrite <-(token_seen_ext _ _ _ P1) in T. unfold token_seen, token_in in T.
      destruct (secure_of w1 (versionedKey _ _)); [done|]. rewrite P1 in T. by rewrite (bare_gone _ PrivySessionToken Hs) in T. }
    assert (T2 : token_seen (secure_of w2) PrivySessionToken = Some t).
    { unfold token_seen, token_in. rewrite A2, P2. unfold apply_change.
      rewrite decide_False, T1; [done|]. cbn [fst]. rewrite A1. destruct Sv as [-> | ->]; distinct_keys. }
    split; [unfold setSessionToken; by rewrite (run_bind_ok _ _ _ _ _ E2)|]. split; [apply S2|]. split; [done|]. split.
    + unfold token_of. change (st_peek w3 SecureStore) with (secure_of w3). by rewrite P3, B.
    + by rewrite (token_seen_ext _ _ _ P3), R.
Qed.
End Refinement.

(** *** A rotation that is interfered with *)

Section Interference.
Context `{HostLaws W}.
Implicit Types (w : W) (c : faulty W).

Lemma write_values_faulty v (values : list (RotatableKey * option str)) c : readable c → ∃ r c' j,
  write_values v values c = (r, c') ∧ readable c' ∧
  let ws := omap (λ kv, pair (versionedKey kv.1 v) ∘ Some <$> kv.2) values in
  changed c c' (take j ws) ∧ (r = Ok tt → take j ws = ws).
Proof.
  revert c. unfold write_values. induction values as [|[key [value|]] values IH]; intros c L; cbn [for_each omap list_omap fst snd].
  - exists (Ok tt), c, 0. split; [done|]. split; [done|]. split; [by apply changed_kept|done].
  - destruct (readable_set SecureStore (versionedKey key v) value c L) as (r1 & c1 & E1 & L1 & [[-> St]|[[e ->] K]]).
    + destruct (IH c1 L1) as (r2 & c2 & j & E2 & L2 & C2 & R2). exists r2, c2, (S j). rewrite (run_bind_ok _ _ _ _ _ E1).
      split; [done|]. split; [done|]. cbn [fmap option_fmap option_map compose take]. split; [|intros Hr; by rewrite R2].
      apply (changed_app c c1 c2 [(versionedKey key v, Some value)]); [by apply changed_stored|done].
    + exists (Throw e), c1, 0. rewrite (run_bind_throw _ _ _ _ _ E1). split; [done|]. split; [done|]. split; [by apply changed_kept|done].
  - destruct (IH c L) as (r2 & c2 & j & E2 & P2). exists r2, c2, j. by rewrite (run_bind_ok _ _ _ _ _ (run_ret tt c)).
Qed.

Lemma delete_faulty k c : readable c → ∃ c' ds, swallow (st_del SecureStore k) c = (Ok tt, c') ∧ readable c' ∧
  ds ⊆ [(k, None)] ∧ changed c c' ds.
Proof.
  intros L. destruct (readable_del SecureStore k c L) as (r & c' & E & L' & [[-> St]|[[e ->] K]]).
  - exists c', [(k, None)]. unfold swallow. rewrite (run_try_ok _ _ _ _ _ E). split; [done|]. split; [done|]. split; [done|by apply changed_stored].
  - exists c', []. unfold swallow. rewrite (run_try_throw _ _ _ _ _ E). split; [done|]. split; [done|]. split; [by intros ? ?%elem_of_nil|by apply changed_kept].
Qed.

Lemma delete_slot_faulty v c : readable c → ∃ c' ds, delete_slot v c = (Ok tt, c') ∧ readable c' ∧
  ds ⊆ slot_deletes v ∧ changed c c' ds.
Proof.
  intros L. unfold delete_slot, slot_deletes, ROTATABLE_TOKEN_KEYS. cbn [for_each fmap list_fmap concat app].
  destruct (delete_faulty (versionedKey PrivySessionToken v) c L) as (c1 & d1 & E1 & L1 & D1 & C1).
  destruct (delete_faulty (base_text PrivySessionToken) c1 L1) as (c2 & d2 & E2 & L2 & D2 & C2).
  destruct (delete_faulty (versionedKey PrivyUserState v) c2 L2) as (c3 & d3 & E3 & L3 & D3 & C3).
  destruct (delete_faulty (base_text PrivyUserState) c3 L3) as (c4 & d4 & E4 & L4 & D4 & C4).
  exists c4, (d1 ++ d2 ++ d3 ++ d4). split.
  { rewrite run_bind, (run_bind_ok _ _ _ _ _ E1), E2, run_bind, (run_bind_ok _ _ _ _ _ E3), E4. done. }
  split; [done|]. split.
  { intros x. rewrite !elem_of_app. intros [Hx|[Hx|[Hx|Hx]]]; [apply D1 in Hx|apply D2 in Hx|apply D3 in Hx|apply D4 in Hx];
      apply list_elem_of_singleton in Hx as ->; rewrite !elem_of_cons; tauto. }
  by apply (changed_app _ _ _ _ _ C1), (changed_app _ _ _ _ _ C2), (changed_app _ _ _ _ _ C3).
Qed.

(** What a rotation did to the secure store: some of the writes and nothing more, or all of
    them, the pointer and some of the deletions. *)
Definition cut (s : secure) (finished : bool) (cs : list change) : Prop :=
  let next := Z.rem (active s + 1) 2 in
  if finished then ∃ ds, ds ⊆ slot_deletes (active s) ∧
    cs = token_writes s next ++ (KEY_ROTATION_VERSION_KEY, Some (Z_to_str next)) :: ds
  else ∃ j, cs = take j (token_writes s next).

Lemma stamp_faulty t c : readable c → ∃ c',
  swallow (st_set AsyncStorage LAST_ROTATION_TIMESTAMP_KEY t) c = (Ok tt, c') ∧ readable c' ∧ ∀ k, secure_of c' k = secure_of c k.
Proof.
  intros L. destruct (readable_set AsyncStorage LAST_ROTATION_TIMESTAMP_KEY t c L) as (r & c' & E & L' & [[-> St]|[[e ->] K]]); exists c'.
  - unfold swallow. rewrite (run_try_ok _ _ _ _ _ E). split; [done|]. split; [done|]. intros k. by apply (stored_ne _ _ _ _ _ St).
  - unfold swallow. rewrite (run_try_throw _ _ _ _ _ E). split; [done|]. split; [done|]. intros k. apply K.
Qed.

(** After the values are read. *)
Lemma move_faulty s c : (∀ k, secure_of c k = s k) → readable c → ∃ finished c' cs,
  try_catch
    (write_values (Z.rem (active s + 1) 2) ((λ key, (key, token_in s (active s) key)) <$> ROTATABLE_TOKEN_KEYS);;
     st_set SecureStore KEY_ROTATION_VERSION_KEY (Z_to_str (Z.rem (active s + 1) 2));;
     delete_slot (active s);;
     now ← date_now;
     swallow (st_set AsyncStorage LAST_ROTATION_TIMESTAMP_KEY (Z_to_str now));;
     mret true) (λ _, mret false) c = (Ok finished, c') ∧
  readable c' ∧ cut s finished cs ∧ ∀ k, secure_of c' k = apply_changes s cs k.
Proof.
  intros Es L. set (next := Z.rem (active s + 1) 2). set (values := _ <$> ROTATABLE_TOKEN_KEYS).
  assert (Ew : omap (λ kv : RotatableKey * option str, pair (versionedKey kv.1 next) ∘ Some <$> kv.2) values = token_writes s next) by done.
  destruct (write_values_faulty next values c L) as (r1 & c1 & j & E1 & L1 & C1 & R1). rewrite Ew in C1, R1. unfold try_catch.
  assert (A1 : ∀ k, secure_of c1 k = apply_changes s (take j (token_writes s next)) k).
  { intros k. etrans; [apply C1|by apply apply_ext]. }
  destruct r1 as [[]|e]; [|exists false, c1, (take j (token_writes s next)); rewrite (run_bind_throw _ _ _ _ _ E1); (split_and!; [done|done|by exists j|done])].
  rewrite (run_bind_ok _ _ _ _ _ E1).
  destruct (readable_set SecureStore KEY_ROTATION_VERSION_KEY (Z_to_str next) c1 L1) as (r2 & c2 & E2 & L2 & [[-> S2]|[[e ->] K2]]).
  2:{ exists false, c2, (take j (token_writes s next)). rewrite (run_bind_throw _ _ _ _ _ E2). split_and!; try done; [by exists j|].
      intros k. rewrite <-A1. apply K2. }
  rewrite (run_bind_ok _ _ _ _ _ E2). destruct (delete_slot_faulty (active s) c2 L2) as (c3 & ds & E3 & L3 & D3 & C3).
  rewrite (run_bind_ok _ _ _ _ _ E3). destruct (readable_now c3 L3) as (t & c4 & E4 & K4 & L4). rewrite (run_bind_ok _ _ _ _ _ E4).
  destruct (stamp_faulty (Z_to_str t) c4 L4) as (c5 & E5 & L5 & A5). rewrite (run_bind_ok _ _ _ _ _ E5).
  exists true, c5, (token_writes s next ++ (KEY_ROTATION_VERSION_KEY, Some (Z_to_str next)) :: ds).
  split_and!; [done|done|by exists ds|]. intros k. rewrite A5. etrans; [apply K4|]. rewrite <-(R1 eq_refl).
  change (?x :: ds) with ([x] ++ ds). rewrite app_assoc.
  assert (C : changed c1 c3 ([(KEY_ROTATION_VERSION_KEY, Some (Z_to_str next))] ++ ds)) by (eapply changed_app; [by apply changed_stored|done]).
  rewrite <-app_assoc, apply_changes_app. etrans; [apply C|]. by apply apply_ext.
Qed.

Lemma rotate_faulty c : readable c → ∃ finished c' cs, rotateSecureStorageKey c = (Ok finished, c') ∧ readable c' ∧
  cut (secure_of c) finished cs ∧ ∀ k, secure_of c' k = apply_changes (secure_of c) cs k.
Proof.
  intros L. destruct (version_reads readable readable_get c L) as (c1 & E1 & K1 & L1). set (v := active (secure_of c)) in *.
  destruct (read_values_reads readable readable_get v c1 L1) as (c2 & E2 & K2 & L2).
  assert (Ev : (λ key, (key, token_in (secure_of c1) v key)) <$> ROTATABLE_TOKEN_KEYS = (λ key, (key, token_in (secure_of c) v key)) <$> ROTATABLE_TOKEN_KEYS).
  { unfold ROTATABLE_TOKEN_KEYS. cbn [fmap list_fmap]. by rewrite !(token_in_ext (secure_of c1) (secure_of c) v _ (secure_kept _ _ K1)). }
  rewrite Ev in E2. destruct (move_faulty (secure_of c) c2) as (b & c' & cs & E3 & R).
  { intros k. rewrite (secure_kept _ _ K2). apply (secure_kept _ _ K1). }
  { done. }
  exists b, c', cs. split; [|done]. rewrite <-E3. unfold rotateSecureStorageKey, try_catch. rewrite (run_bind_ok _ _ _ _ _ E1).
  fold v. cbn zeta. by rewrite (run_bind_ok _ _ _ _ _ E2).
Qed.

Lemma slot_of_version w v : st_live w → (getActiveKeyVersion w).1 = Ok v → active (secure_of w) = v.
Proof. intros L. destruct (version_run w L) as (w' & -> & _). by intros [= ->]. Qed.

Lemma rotated_reads base w : st_live w → (getRotatedToken base w).1 = Ok (token_seen (secure_of w) base).
Proof. intros L. by destruct (rotated_run base w L) as (w' & -> & _). Qed.

Lemma cut_seen s b cs base : slot_ok s → cut s b cs →
  token_seen (apply_changes s cs) base =
    if b then match token_seen s base with Some t => Some t | None => s (versionedKey base (Z.rem (active s + 1) 2)) end
    else token_seen s base.
Proof. intros Hs. destruct b; [intros (ds & D & ->); by apply seen_after|intros C; by apply seen_before]. Qed.

Lemma cut_active s b cs : slot_ok s → cut s b cs →
  active (apply_changes s cs) = if b then Z.rem (active s + 1) 2 else active s.
Proof.
  intros Hs. destruct (plan_keys s Hs) as (_ & Kw & Kd & _). destruct (slots_differ _ Hs) as [Sv _]. unfold active at 1. destruct b.
  - intros (ds & D & ->). rewrite apply_changes_app. cbn [apply_changes foldl]. change (foldl apply_change ?x ?l) with (apply_changes x l).
    rewrite apply_notin.
    + unfold apply_change. rewrite decide_True by done. cbn [snd default from_option id]. by rewrite slot_text.
    + intros Hin. apply Kd. apply list_elem_of_fmap in Hin as (c & E & Hc). apply list_elem_of_fmap. exists c. auto.
  - intros (j & ->). rewrite apply_notin; [done|]. intros Hin. apply Kw. rewrite fmap_take in Hin. by apply (subseteq_take j) in Hin.
Qed.

(** C11: a rotation of the key slots loses no token, whichever of its writes and deletions
    fail and wherever it is cut off. From any schedule of these, [rotateSecureStorageKey]
    answers, and what a restart finds in the store reads as before: [getRotatedToken] answers
    the same for every key, provided that a key without a token has nothing in the slot that
    becomes active. If it has, because an earlier deletion failed, a rotation that reports
    success brings that old token back. The active slot is the other one exactly if it
    reports success. *)
Theorem rotation_crash_safe w v (schedule : list bool) :
  st_live w → (getActiveKeyVersion w).1 = Ok v → v = 0%Z ∨ v = 1%Z → ∃ finished c,
  let next := (1 - v)%Z in
  rotateSecureStorageKey (Faulty [] schedule w) = (Ok finished, c) ∧
  (getActiveKeyVersion (fa_disk c)).1 = Ok (if finished then next else v) ∧
  (∀ base, ((getRotatedToken base w).1 = Ok None → st_peek w SecureStore (versionedKey base next) = None) →
     (getRotatedToken base (fa_disk c)).1 = (getRotatedToken base w).1) ∧
  (∀ base old, finished = true → (getRotatedToken base w).1 = Ok None →
     st_peek w SecureStore (versionedKey base next) = Some old →
     (getRotatedToken base (fa_disk c)).1 = Ok (Some old)).
Proof.
  intros L Ev Hv. assert (Av := slot_of_version w v L Ev).
  destruct (rotate_faulty (Faulty [] schedule w)) as (b & c & cs & E & [_ L'] & C & P); [by split|].
  change (secure_of (Faulty [] schedule w)) with (secure_of w) in C, P.
  change (∀ k, secure_of (fa_disk c) k = apply_changes (secure_of w) cs k) in P.
  assert (Hs : slot_ok (secure_of w)) by (unfold slot_ok; by rewrite Av).
  assert (N : Z.rem (active (secure_of w) + 1) 2 = (1 - v)%Z) by (rewrite Av; by destruct Hv as [-> | ->]).
  pose proof (cut_seen (secure_of w) b cs) as T. rewrite N in T. exists b, c. cbn zeta. split; [done|]. split; [|split].
  - destruct (version_run (fa_disk c) L') as (w' & -> & _). cbn. by rewrite (active_ext _ _ P), (cut_active _ b), N, Av.
  - intros base. rewrite !rotated_reads, (token_seen_ext _ _ base P), T by done. intros Hn. destruct b; [|done].
    destruct (token_seen (secure_of w) base); [done|]. f_equal. by apply Hn.
  - intros base old -> Hn Ho. rewrite rotated_reads in Hn by done. injection Hn as Hn.
    rewrite rotated_reads, (token_seen_ext _ _ base P), T, Hn by done. f_equal. exact Ho.
Qed.
End Interference.
End Rotation.

(** ** The account PIN *)

Module Pin.
Local Open Scope Z_scope.

Definition PIN_HASH_KEY : str := js "zaps_account_pin_hash".
Definition PIN_MIN_LENGTH : nat := 4.

(** One round of the loop: [h = ((h << 5) - h + c) | 0]. *)
Definition pin_round (h : Z) (c : N) : Z := to_int32 (to_int32 (Z.shiftl h 5) - h + Z.of_N c).

(** The text of [h >>> 0]. *)
Definition hashPin (pin : str) : str := Z_to_str (foldl pin_round 0 pin mod 4294967296).

Section Storage.
Context `{Host W}.

Definition saveAccountPin (pin : str) : M W unit := st_set AsyncStorage PIN_HASH_KEY (hashPin pin).

Definition verifyAccountPin (pin : str) : M W bool :=
  try_catch
    (stored ← st_get AsyncStorage PIN_HASH_KEY;
     mret (match (stored : option str) with
           | Some h => if truthy h then str_eqb (hashPin pin) h else true
           | None => true
           end))
    (λ _, mret false).

(** *** [PinFallbackModal] *)

Record pin_modal := PinModal { pm_pin : str; pm_confirm : str; pm_error : option str; pm_loading : bool; pm_succeeded : nat }.

Definition opened_modal : pin_modal := PinModal [] [] None false 0.
Definition type_pin (v : str) (s : pin_modal) : pin_modal := PinModal v (pm_confirm s) None (pm_loading s) (pm_succeeded s).
Definition type_confirm (v : str) (s : pin_modal) : pin_modal := PinModal (pm_pin s) v None (pm_loading s) (pm_succeeded s).
Definition modal_error (e : option str) (s : pin_modal) : pin_modal := PinModal (pm_pin s) (pm_confirm s) e (pm_loading s) (pm_succeeded s).
Definition modal_loading (b : bool) (s : pin_modal) : pin_modal := PinModal (pm_pin s) (pm_confirm s) (pm_error s) b (pm_succeeded s).
(** [onSuccess()] *)
Definition modal_success (s : pin_modal) : pin_modal := PinModal (pm_pin s) (pm_confirm s) (pm_error s) (pm_loading s) (S (pm_succeeded s)).

Definition handleSubmit (isSetup : bool) : M (pin_modal * W) unit :=
  modify_state (modal_error None);;
  s ← get_state;
  if (length (pm_pin s) <? PIN_MIN_LENGTH)%nat then
    modify_state (modal_error (Some (js "PIN must be at least 4 digits.")))
  else if (isSetup : bool) then
    if negb (str_eqb (pm_pin s) (pm_confirm s)) then
      modify_state (modal_error (Some (js "PINs do not match. Please try again.")))
    else
      modify_state (modal_loading true);;
      try_catch (host (saveAccountPin (pm_pin s));; modify_state modal_success)
        (λ _, modify_state (modal_error (Some (js "Failed to save PIN. Please try again."))));;
      modify_state (modal_loading false)
  else
    modify_state (modal_loading true);;
    try_catch
      (ok ← host (verifyAccountPin (pm_pin s));
       if (ok : bool) then modify_state modal_success
       else modify_state (modal_error (Some (js "Incorrect PIN. Please try again."))))
      (λ _, modify_state (modal_error (Some (js "Could not verify PIN. Please try again."))));;
    modify_state (modal_loading false).
End Storage.

(** *** The hash *)

(** The polynomial in 31, without machine arithmetic. *)
Definition poly31 (pin : str) : Z := foldl (λ h c, 31 * h + Z.of_N c) 0 pin.

Lemma pin_round_mod h h' c : h mod 4294967296 = h' mod 4294967296 → pin_round h c mod 4294967296 = (31 * h' + Z.of_N c) mod 4294967296.
Proof.
  intros E. unfold pin_round. rewrite to_int32_mod, Z.shiftl_mul_pow2 by lia. change (2 ^ 5) with 32.
  assert (E2 : (to_int32 (h * 32) - h + Z.of_N c) mod 4294967296 = (h * 32 - h + Z.of_N c) mod 4294967296).
  { rewrite (Zplus_mod (_ - h)), (Zminus_mod _ h), to_int32_mod, <-Zminus_mod. by rewrite <-Zplus_mod. }
  rewrite E2. replace (h * 32 - h + Z.of_N c) with (31 * h + Z.of_N c) by lia.
  rewrite (Zplus_mod (31 * h)), (Zmult_mod 31 h), E, <-Zmult_mod. by rewrite <-Zplus_mod.
Qed.

Lemma pin_fold pin h h' : h mod 4294967296 = h' mod 4294967296 →
  foldl pin_round h pin mod 4294967296 = foldl (λ h c, 31 * h + Z.of_N c) h' pin mod 4294967296.
Proof. revert h h'. induction pin as [|c pin IH]; intros h h' E; cbn [foldl]; [done|]. by apply IH, pin_round_mod. Qed.

Lemma hashPin_poly pin : hashPin pin = Z_to_str (poly31 pin mod 4294967296).
Proof. unfold hashPin, poly31. by rewrite (pin_fold pin 0 0). Qed.

(** A PIN of digits. *)
Definition digit_pin (pin : str) : Prop := Forall (λ c, is_digit c = true) pin.

Lemma poly31_snoc pin c : poly31 (pin ++ [c]) = 31 * poly31 pin + Z.of_N c.
Proof. unfold poly31. by rewrite foldl_app. Qed.

Lemma digit_range c : is_digit c = true → 48 <= Z.of_N c <= 57.
Proof. unfold is_digit. rewrite andb_true_iff, !N.leb_le. lia. Qed.

Lemma poly31_range pin : digit_pin pin →
  48 * (31 ^ Z.of_nat (length pin) - 1) <= 30 * poly31 pin <= 57 * (31 ^ Z.of_nat (length pin) - 1).
Proof.
  induction pin as [|c pin IH] using rev_ind; [cbn; lia|]. intros [Hp [Hc%digit_range _]%Forall_cons]%Forall_app.
  rewrite poly31_snoc, length_app. cbn [length]. rewrite Nat2Z.inj_add, Z.pow_add_r by lia. specialize (IH Hp). lia.
Qed.

Lemma poly31_inj p q : digit_pin p → digit_pin q → length p = length q → poly31 p = poly31 q → p = q.
Proof.
  revert q. induction p as [|c p IH] using rev_ind; intros q Hp Hq Hl E.
  { by destruct q. }
  destruct q as [|d q _] using rev_ind; [rewrite length_app in Hl; cbn in Hl; lia|].
  apply Forall_app in Hp as [Hp [Hc%digit_range _]%Forall_cons]. apply Forall_app in Hq as [Hq [Hd%digit_range _]%Forall_cons].
  rewrite !poly31_snoc in E. rewrite !length_app in Hl. cbn in Hl.
  assert (poly31 p = poly31 q ∧ c = d) as [E' ->] by lia. f_equal. apply IH; [done..|lia|done].
Qed.

Lemma poly31_length p q : digit_pin p → digit_pin q → poly31 p = poly31 q → (length p <= length q)%nat.
Proof.
  intros Hp Hq E. pose proof (poly31_range p Hp) as [Rp _]. pose proof (poly31_range q Hq) as [_ Rq]. rewrite E in Rp.
  destruct (decide (length p <= length q)%nat) as [|Hn]; [done|]. exfalso.
  assert (31 ^ Z.of_nat (S (length q)) <= 31 ^ Z.of_nat (length p)) by (apply Z.pow_le_mono_r; lia).
  rewrite Nat2Z.inj_succ, Z.pow_succ_r in H by lia.
  assert (0 < 31 ^ Z.of_nat (length q)) by (apply Z.pow_pos_nonneg; lia). lia.
Qed.

Lemma short_pin_small p : digit_pin p → (length p <= 6)%nat → 0 <= poly31 p < 4294967296.
Proof.
  intros Hp Hl. pose proof (poly31_range p Hp) as R.
  assert (1 <= 31 ^ Z.of_nat (length p) <= 31 ^ 6) by (split; [apply (Z.pow_le_mono_r 31 0); lia|apply Z.pow_le_mono_r; lia]).
  change (31 ^ 6) with 887503681 in *. lia.
Qed.

Lemma short_pins_differ p q : digit_pin p → digit_pin q → (length p <= 6)%nat → (length q <= 6)%nat → hashPin p = hashPin q → p = q.
Proof.
  intros Hp Hq Lp Lq E. rewrite !hashPin_poly in E. pose proof (short_pin_small p Hp Lp). pose proof (short_pin_small q Hq Lq).
  rewrite !Z.mod_small in E by done. apply (inj Z_to_str) in E.
  apply poly31_inj; [done..| |done].
  pose proof (poly31_length p q Hp Hq E). pose proof (poly31_length q p Hq Hp (eq_sym E)). lia.
Qed.

(** the PIN hash, computed in wrapping 32-bit arithmetic, is the polynomial in 31 of the
    character codes modulo [2^32]. On digit PINs of at most six digits it does not wrap and
    no two of them share a hash; longer ones, which the form accepts, may share theirs. *)
Theorem pin_hash_exact p :
  hashPin p = Z_to_str (poly31 p mod 4294967296) ∧
  (∀ q, digit_pin p → digit_pin q → (length p <= 6)%nat → (length q <= 6)%nat → hashPin p = hashPin q → p = q) ∧
  hashPin (js "93025873") = hashPin (js "22746169").
Proof.
  split; [apply hashPin_poly|]. split; [intros q; apply short_pins_differ|by vm_compute].
Qed.

(** *** The stored PIN *)

Section Spec.
Context `{HostLaws W}.

(** What [verifyAccountPin] answers for what the store holds. *)
Definition pin_verdict (stored : option str) (pin : str) : bool :=
  match stored with Some h => if truthy h then str_eqb (hashPin pin) h else true | None => true end.

Lemma verify_run pin w : ∃ w', verifyAccountPin pin w =
    (Ok (match (st_get AsyncStorage PIN_HASH_KEY w).1 with Ok stored => pin_verdict stored pin | Throw _ => false end), w') ∧ kept w w'.
Proof.
  destruct (get_spec AsyncStorage PIN_HASH_KEY w) as (r & w' & E & K & _). exists w'. split; [|done].
  unfold verifyAccountPin, try_catch. rewrite run_bind, E. by destruct r as [[h|]|e].
Qed.

Lemma hash_truthy pin : truthy (hashPin pin) = true.
Proof.
  unfold hashPin. destruct (_ mod _) as [|n|n] eqn:E; [done| |pose proof (Z.mod_pos_bound (foldl pin_round 0 pin) 4294967296 ltac:(lia)); lia].
  change (truthy (N_to_str (N.pos n)) = true). pose proof (N_to_str_nonempty (N.pos n)). by destruct (N_to_str (N.pos n)).
Qed.

(** a PIN saved through the form is the one that verifies: among digit PINs of four to
    six digits no other does, and in set-up mode nothing is saved before both fields agree
    and are long enough. Without a saved PIN any text of four characters verifies. *)
Theorem pin_form_sound (s : pin_modal) w : st_live w → ∃ s' w',
  handleSubmit true (s, w) = (Ok tt, (s', w')) ∧
  (if ((4 <=? length (pm_pin s))%nat && str_eqb (pm_pin s) (pm_confirm s)) then
     pm_succeeded s' = S (pm_succeeded s) ∧ st_peek w' AsyncStorage PIN_HASH_KEY = Some (hashPin (pm_pin s)) ∧
     (∃ w2, verifyAccountPin (pm_pin s) w' = (Ok true, w2)) ∧
     (∀ q, digit_pin (pm_pin s) → digit_pin q → (length (pm_pin s) <= 6)%nat → (length q <= 6)%nat →
        ∃ w2, verifyAccountPin q w' = (Ok (str_eqb q (pm_pin s)), w2))
   else pm_succeeded s' = pm_succeeded s ∧ w' = w ∧ pm_error s' ≠ None) ∧
  (st_peek w AsyncStorage PIN_HASH_KEY = None → (4 <= length (pm_pin s))%nat →
     ∃ s2 w2, handleSubmit false (s, w) = (Ok tt, (s2, w2)) ∧ pm_succeeded s2 = S (pm_succeeded s)).
Proof.
  intros L.
  assert (V : ∀ q w1, st_live w1 → ∃ w2, verifyAccountPin q w1 = (Ok (pin_verdict (st_peek w1 AsyncStorage PIN_HASH_KEY) q), w2)).
  { intros q w1 L1. destruct (verify_run q w1) as (w2 & E & _). destruct (get_live AsyncStorage PIN_HASH_KEY w1 L1) as (w3 & E3 & _).
    rewrite E3 in E. by exists w2. }
  assert (Guard : handleSubmit true (s, w) = handleSubmit true (s, w)) by done.
  unfold handleSubmit at 1 in Guard. rewrite (run_bind_ok _ _ _ _ _ (run_modify_state _ _ _)), (run_bind_ok _ _ _ _ _ (run_get_state _ _)) in Guard.
  cbn [pm_pin pm_confirm modal_error] in Guard. unfold PIN_MIN_LENGTH in Guard.
  destruct (Nat.ltb_spec (length (pm_pin s)) 4) as [Hl|Hl].
  { rewrite run_modify_state in Guard. rewrite <-Guard. rewrite (proj2 (Nat.leb_gt 4 _)) by lia. eexists _, w. split; [done|].
    split; [done|]. intros _ ?. lia. }
  rewrite (proj2 (Nat.leb_le 4 _)) by lia.
  assert (Open : st_peek w AsyncStorage PIN_HASH_KEY = None → (4 <= length (pm_pin s))%nat →
     ∃ s2 w2, handleSubmit false (s, w) = (Ok tt, (s2, w2)) ∧ pm_succeeded s2 = S (pm_succeeded s)).
  { intros Hn _. destruct (V (pm_pin s) w L) as (w2 & Ev). rewrite Hn in Ev. unfold handleSubmit.
    rewrite (run_bind_ok _ _ _ _ _ (run_modify_state _ _ _)), (run_bind_ok _ _ _ _ _ (run_get_state _ _)). cbn [pm_pin modal_error].
    rewrite (proj2 (Nat.ltb_ge _ _)) by (unfold PIN_MIN_LENGTH; lia). rewrite (run_bind_ok _ _ _ _ _ (run_modify_state _ _ _)), run_bind.
    unfold try_catch. rewrite (run_bind_ok _ _ _ _ _ (run_host _ _ _ _ _ Ev)). cbn [pin_verdict]. rewrite !run_modify_state. by eexists _, _. }
  destruct (str_eqb (pm_pin s) (pm_confirm s)) eqn:Ec; cbn [negb andb] in *.
  2:{ rewrite run_modify_state in Guard. rewrite <-Guard. eexists _, w. by split_and!. }
  rewrite (run_bind_ok _ _ _ _ _ (run_modify_state _ _ _)), run_bind in Guard. unfold try_catch in Guard.
  destruct (set_live AsyncStorage PIN_HASH_KEY (hashPin (pm_pin s)) w L) as (w1 & E1 & S1).
  rewrite (run_bind_ok _ _ _ _ _ (run_host _ _ _ _ _ E1)), !run_modify_state in Guard. rewrite <-Guard.
  eexists _, w1. split; [done|]. split; [|done]. split; [done|]. split; [apply S1|].
  assert (L1 : st_live w1) by by apply S1. split.
  - destruct (V (pm_pin s) w1 L1) as (w2 & Ev). exists w2. rewrite Ev, (stored_eq _ _ _ _ _ S1). cbn [pin_verdict]. by rewrite hash_truthy, str_eqb_refl.
  - intros q Dp Dq Lp Lq. destruct (V q w1 L1) as (w2 & Ev). exists w2. rewrite Ev, (stored_eq _ _ _ _ _ S1). cbn [pin_verdict]. rewrite hash_truthy.
    do 2 f_equal. unfold str_eqb. apply bool_decide_ext. split; [by apply short_pins_differ|by intros ->].
Qed.
End Spec.
End Pin.

(** ** The identity prompt and the onboarding screen *)

Module Onboarding.
Import Pin.

Inductive failure_reason := no_hardware | not_enrolled | cancelled | failed | error.

Inductive BiometricAuthResult :=
  | AuthSuccess
  | AuthFailure (reason : failure_reason) (message : option str).

(** The options of [authenticateAsync]; [disableDeviceFallback] is [false] and the cancel
    label the same in all three calls. *)
Record prompt_options := PromptOptions { po_message : str; po_fallback : option str }.

(** [expo-local-authentication] *)
Class Sensor (W : Type) := {
  hasHardwareAsync : M W bool;
  isEnrolledAsync : M W bool;
  authenticateAsync : prompt_options → M W (bool * option str);   (** [success], [error] *)
}.

(** [result.error === "user_cancel" ? "cancelled" : otherwise] *)
Definition prompt_verdict (otherwise : failure_reason) (result : bool * option str) : BiometricAuthResult :=
  if result.1 then AuthSuccess
  else AuthFailure (if bool_decide (result.2 = Some (js "user_cancel")) then cancelled else otherwise) None.

Inductive HardwareStatus := checking | available | unavailable | unenrolled.

#[export] Instance HardwareStatus_eq_dec : EqDecision HardwareStatus.
Proof. solve_decision. Defined.

(** A route the screen moved to, and how. *)
Inductive move := Replaced (route : str) | Pushed (route : str).

Record screen := Screen {
  sc_loading : bool;
  sc_status : HardwareStatus;
  sc_pin_modal : bool;
  sc_pin_setup : bool;
  sc_alert : bool;              (** the "Biometric Failed" alert was raised *)
  sc_moves : list move;
}.

Definition opened : screen := Screen false checking false false false [].
Definition set_loading (b : bool) (s : screen) : screen :=
  Screen b (sc_status s) (sc_pin_modal s) (sc_pin_setup s) (sc_alert s) (sc_moves s).
Definition set_status (h : HardwareStatus) (s : screen) : screen :=
  Screen (sc_loading s) h (sc_pin_modal s) (sc_pin_setup s) (sc_alert s) (sc_moves s).
Definition set_modal (b : bool) (s : screen) : screen :=
  Screen (sc_loading s) (sc_status s) b (sc_pin_setup s) (sc_alert s) (sc_moves s).
Definition set_setup (b : bool) (s : screen) : screen :=
  Screen (sc_loading s) (sc_status s) (sc_pin_modal s) b (sc_alert s) (sc_moves s).
Definition raise_alert (s : screen) : screen :=
  Screen (sc_loading s) (sc_status s) (sc_pin_modal s) (sc_pin_setup s) true (sc_moves s).

(** [navigateForward], for the [type] of the address. *)
Definition navigateForward (type : option str) (s : screen) : screen :=
  Screen (sc_loading s) (sc_status s) (sc_pin_modal s) (sc_pin_setup s) (sc_alert s)
    (sc_moves s ++ [if bool_decide (type = Some (js "returning")) then Replaced (js "/account-type")
                    else Pushed (js "/create-wallet")]).

Definition handleSkip := navigateForward.

(** The modal's [onSuccess] and [onCancel]. *)
Definition modal_done (type : option str) (s : screen) : screen := navigateForward type (set_modal false s).
Definition modal_closed (s : screen) : screen := set_modal false s.

(** The status sends the user to a PIN. *)
Definition no_biometrics (h : HardwareStatus) : bool :=
  match h with unavailable | unenrolled => true | _ => false end.

Section Screen.
Context `{Host W, !Sensor W}.

Definition authenticateWithBiometrics (promptMessage : str) : M W BiometricAuthResult :=
  try_catch
    (hasHardware ← hasHardwareAsync;
     if negb (hasHardware : bool) then
       passcodeResult ← authenticateAsync (PromptOptions promptMessage None);
       mret (prompt_verdict failed passcodeResult)
     else
       isEnrolled ← isEnrolledAsync;
       if negb (isEnrolled : bool) then
         passcodeResult ← authenticateAsync (PromptOptions promptMessage None);
         mret (prompt_verdict not_enrolled passcodeResult)
       else
         result ← authenticateAsync (PromptOptions promptMessage (Some (js "Use Passcode")));
         mret (prompt_verdict failed result))
    (λ err, mret (AuthFailure error (Some (err_message err)))).

(** The check on mount, while the screen is shown. *)
Definition checkHardware : M (screen * W) unit :=
  try_catch
    (hasHardware ← host hasHardwareAsync;
     if negb (hasHardware : bool) then modify_state (set_status unavailable)
     else
       isEnrolled ← host isEnrolledAsync;
       modify_state (set_status (if (isEnrolled : bool) then available else unenrolled)))
    (λ _, modify_state (set_status unavailable)).

(** The read of the PIN hash and its two continuations, of the effect on the status,
    of [handleContinue] and of the alert's "Use PIN" alike. *)
Definition askPin : M (screen * W) unit :=
  try_catch
    (stored ← host (st_get AsyncStorage PIN_HASH_KEY);
     modify_state (λ s, set_modal true (set_setup (negb (truthy_opt stored)) s)))
    (λ _, modify_state (λ s, set_modal true (set_setup true s))).

(** The effect on [hardwareStatus]. *)
Definition status_effect : M (screen * W) unit :=
  s ← get_state;
  if no_biometrics (sc_status s) then askPin else mret tt.

(** [handleContinue], which its button offers outside [loading] and [checking]. *)
Definition handleContinue (type : option str) : M (screen * W) unit :=
  s ← get_state;
  if sc_loading s || bool_decide (sc_status s = checking) then mret tt
  else if no_biometrics (sc_status s) then modify_state (set_modal true)
  else
    modify_state (set_loading true);;
    result ← host (authenticateWithBiometrics (js "Confirm your identity to enable biometric login"));
    forward ← match (result : BiometricAuthResult) with
      | AuthFailure (no_hardware | not_enrolled) _ => modify_state (set_status unavailable);; askPin;; mret false
      | AuthFailure (failed | error) _ => modify_state raise_alert;; mret false
      | _ => mret true
      end;
    modify_state (set_loading false);;
    if (forward : bool) then modify_state (navigateForward type) else mret tt.
End Screen.

Section Spec.
Context `{HostLaws W, SW : !Sensor W}.

Lemma prompt_verdict_success d r : prompt_verdict d r = AuthSuccess ↔ r.1 = true.
Proof. unfold prompt_verdict. by destruct r.1. Qed.

Lemma prompt_verdict_hardware d r m : d ≠ no_hardware → prompt_verdict d r ≠ AuthFailure no_hardware m.
Proof. unfold prompt_verdict. intros Hd. destruct r.1; [done|]. case_bool_decide; [done|]. congruence. Qed.

(** What [authenticateWithBiometrics] answers, by what the sensor answers. *)
Lemma authenticate_cases msg w : ∃ r w', authenticateWithBiometrics msg w = (Ok r, w') ∧
  ((∃ m, r = AuthFailure error m) ∨
   (∃ d o w1 p, d ≠ no_hardware ∧ po_message o = msg ∧ authenticateAsync o w1 = (Ok p, w') ∧ r = prompt_verdict d p)).
Proof.
  unfold authenticateWithBiometrics, try_catch. rewrite run_bind.
  destruct (hasHardwareAsync w) as [[[]|e] w1]; cbn [negb]; [| |eexists _, _; eauto].
  - rewrite run_bind. destruct (isEnrolledAsync w1) as [[[]|e] w2]; cbn [negb]; [| |eexists _, _; eauto]; rewrite run_bind;
      (destruct (authenticateAsync _ w2) as [[p|e] w3] eqn:E; eexists _, _; (split; [done|]); [|eauto]); right;
      eexists _, _, w2, p; (split_and!; [| |exact E|reflexivity]; done).
  - rewrite run_bind. destruct (authenticateAsync _ w1) as [[p|e] w3] eqn:E; eexists _, _; (split; [done|]); [|eauto].
    right. eexists _, _, w1, p. split_and!; [| |exact E|reflexivity]; done.
Qed.

(** The read of the PIN hash settles the modal's mode. *)
Lemma askPin_run s w : ∃ setup w', askPin (s, w) = (Ok tt, (set_modal true (set_setup setup s), w')) ∧ kept w w' ∧
  (st_live w → setup = negb (truthy_opt (st_peek w AsyncStorage PIN_HASH_KEY))) ∧ (setup = false → is_Some (st_peek w AsyncStorage PIN_HASH_KEY)).
Proof.
  destruct (get_spec AsyncStorage PIN_HASH_KEY w) as (r & w' & E & K & R). unfold askPin, try_catch.
  destruct R as [->|[[e ->] D]].
  - rewrite (run_bind_ok _ _ _ _ _ (run_host _ _ _ _ _ E)), run_modify_state. eexists _, w'. split; [done|]. split; [done|]. split; [done|].
    by destruct (st_peek w AsyncStorage PIN_HASH_KEY).
  - rewrite (run_bind_throw _ _ _ _ _ (run_host _ _ _ _ _ E)), run_modify_state. by exists true, w'.
Qed.

(** [authenticateWithBiometrics] never throws and never answers ["no_hardware"]; it
    succeeds only on a prompt, with the given message, that the system reports passed. On
    the onboarding screen a cancelled prompt moves on exactly as a passed one; every other
    answer stays, with the alert or the PIN modal. *)
Theorem prompt_settles_screen type s w : sc_loading s = false → sc_status s = available → ∃ r w1 s' w2,
  authenticateWithBiometrics (js "Confirm your identity to enable biometric login") w = (Ok r, w1) ∧
  (∀ m, r ≠ AuthFailure no_hardware m) ∧
  (r = AuthSuccess → ∃ o w0 e, po_message o = js "Confirm your identity to enable biometric login" ∧ authenticateAsync o w0 = (Ok (true, e), w1)) ∧
  handleContinue type (s, w) = (Ok tt, (s', w2)) ∧ sc_loading s' = false ∧
  match r with
  | AuthSuccess | AuthFailure cancelled _ => s' = navigateForward type s
  | AuthFailure not_enrolled _ => sc_moves s' = sc_moves s ∧ sc_pin_modal s' = true ∧ sc_status s' = unavailable
  | _ => s' = raise_alert s
  end.
Proof.
  intros Hl Hs. destruct (authenticate_cases (js "Confirm your identity to enable biometric login") w) as (r & w1 & E & C).
  assert (Hh : ∀ m, r ≠ AuthFailure no_hardware m).
  { intros m. destruct C as [[m' ->]|(d & o & w0 & p & Hd & _ & _ & ->)]; [done|by apply prompt_verdict_hardware]. }
  assert (Hok : r = AuthSuccess → ∃ o w0 e, po_message o = js "Confirm your identity to enable biometric login" ∧ authenticateAsync o w0 = (Ok (true, e), w1)).
  { intros Hr. destruct C as [[m' ->]|(d & o & w0 & [b e] & _ & Ho & Ea & ->)]; [done|]. apply prompt_verdict_success in Hr as [=->]. by exists o, w0, e. }
  exists r, w1.
  assert (G : handleContinue type (s, w) = handleContinue type (s, w)) by done. revert G.
  unfold handleContinue at 1. rewrite (run_bind_ok _ _ _ _ _ (run_get_state _ _)), Hl, Hs. cbn [orb no_biometrics].
  rewrite bool_decide_eq_false_2 by done.
  rewrite (run_bind_ok _ _ _ _ _ (run_modify_state _ _ _)), (run_bind_ok _ _ _ _ _ (run_host _ _ _ _ _ E)), run_bind.
  assert (R : set_loading false (set_loading true s) = s) by (destruct s; cbn in *; by subst).
  assert (Rn : navigateForward type (set_loading false (set_loading true s)) = navigateForward type s) by by rewrite R.
  assert (Ra : set_loading false (raise_alert (set_loading true s)) = raise_alert s) by (rewrite <-R at 2; done).
  destruct r as [|[] m].
  - cbn. intros G. rewrite <-G. eexists _, _. by split_and!.
  - by destruct (Hh m).
  - rewrite (run_bind_ok _ _ _ _ _ (run_modify_state _ _ _)).
    destruct (askPin_run (set_status unavailable (set_loading true s)) w1) as (setup & w2 & Eq & _).
    rewrite (run_bind_ok _ _ _ _ _ Eq). cbn. intros G. rewrite <-G. eexists _, _. by split_and!.
  - cbn. intros G. rewrite <-G. eexists _, _. by split_and!.
  - cbn. intros G. rewrite <-G. eexists _, _. by split_and!.
  - cbn. intros G. rewrite <-G. eexists _, _. by split_and!.
Qed.

(** without a sensor and without a saved PIN, waiting for the stored hash opens the modal
    in set-up mode. A tap on the button before that opens it in verify mode, where any four
    characters pass and the user moves on with no PIN saved. *)
Theorem early_tap_skips_pin type (pin : str) w w1 : hasHardwareAsync w = (Ok false, w1) → st_live w1 →
  st_peek w1 AsyncStorage PIN_HASH_KEY = None → (4 <= length pin)%nat →
  (∃ s w2, (checkHardware;; status_effect) (opened, w) = (Ok tt, (s, w2)) ∧ sc_pin_modal s = true ∧ sc_pin_setup s = true) ∧
  ∃ s w2, (checkHardware;; handleContinue type) (opened, w) = (Ok tt, (s, w2)) ∧ sc_pin_modal s = true ∧ sc_pin_setup s = false ∧
  ∃ f w3, handleSubmit (sc_pin_setup s) (type_pin pin opened_modal, w2) = (Ok tt, (f, w3)) ∧ pm_succeeded f = 1%nat ∧
    st_peek w3 AsyncStorage PIN_HASH_KEY = None ∧ sc_moves (modal_done type s) ≠ [].
Proof.
  intros E L Hn Hp.
  assert (C : checkHardware (opened, w) = (Ok tt, (set_status unavailable opened, w1))).
  { unfold checkHardware, try_catch. by rewrite (run_bind_ok _ _ _ _ _ (run_host _ _ _ _ _ E)). }
  rewrite !(run_bind_ok _ _ _ _ _ C). split.
  - destruct (askPin_run (set_status unavailable opened) w1) as (setup & w2 & Eq & _ & S & _).
    unfold status_effect. rewrite (run_bind_ok _ _ _ _ _ (run_get_state _ _)). cbn [no_biometrics sc_status set_status].
    rewrite Eq. eexists _, w2. split; [done|]. split; [done|]. cbn. by rewrite S, Hn.
  - eexists _, w1. split; [done|]. split; [done|]. split; [done|].
    destruct (get_live AsyncStorage PIN_HASH_KEY w1 L) as (w3 & E3 & K). exists (modal_loading false (modal_success (modal_loading true (modal_error None (type_pin pin opened_modal))))), w3.
    split; [|split; [done|split; [by rewrite (kept_peek _ _ K)|by cbn; case_bool_decide]]].
    match goal with |- handleSubmit ?b _ = _ => change b with false end. unfold handleSubmit. rewrite (run_bind_ok _ _ _ _ _ (run_modify_state _ _ _)), (run_bind_ok _ _ _ _ _ (run_get_state _ _)).
    cbn [pm_pin modal_error type_pin].
    rewrite (proj2 (Nat.ltb_ge _ _)) by (unfold PIN_MIN_LENGTH; lia).
    rewrite (run_bind_ok _ _ _ _ _ (run_modify_state _ _ _)), run_bind. unfold try_catch.
    assert (V : verifyAccountPin pin w1 = (Ok true, w3)) by (unfold verifyAccountPin, try_catch; by rewrite run_bind, E3, Hn).
    by rewrite (run_bind_ok _ _ _ _ _ (run_host _ _ _ _ _ V)).
Qed.
End Spec.
End Onboarding.

(** ** Runs on a scripted host *)

Module Runs.
Import Rotation Pin Onboarding.

#[local] Instance demo_sensor : Sensor scripted := {|
  hasHardwareAsync w := (Ok false, w);
  isEnrolledAsync w := (Ok false, w);
  authenticateAsync _ w := (Ok (false, Some (js "user_cancel")), w);
|}.

Definition signed_in : scripted := world [(SecureStore, js "privy_session_token", js "t0")] [].

Lemma signed_in_slot : slot_ok (secure_of signed_in).
Proof. left. reflexivity. Qed.

(** Cut off after the pointer: the deletions are lost. *)
Lemma rotation_crash_safe_witness : ∃ finished c,
  rotateSecureStorageKey (Faulty [] [true; true] signed_in) = (Ok finished, c) ∧
  (getActiveKeyVersion (fa_disk c)).1 = Ok (if finished then 1 else 0)%Z ∧
  (getRotatedToken PrivySessionToken (fa_disk c)).1 = (getRotatedToken PrivySessionToken signed_in).1.
Proof.
  destruct (rotation_crash_safe signed_in 0 [true; true] ltac:(exact (eq_refl false)) eq_refl ltac:(by left)) as (b & c & E & V & G & _).
  exists b, c. split; [exact E|]. split; [exact V|]. apply G. discriminate.
Defined.

(** A rotation with nothing in its way reports success. *)
Example unhindered : (rotateSecureStorageKey (Faulty [] (replicate 8 true) signed_in)).1 = Ok true.
Proof. vm_compute. reflexivity. Qed.

(** A read that fails is taken for an absent token: the rotation goes on, and deletes it. *)
Theorem unread_token_deleted : ∃ c,
  rotateSecureStorageKey (Faulty [true; false; false] (replicate 8 true) signed_in) = (Ok true, c) ∧
  (getRotatedToken PrivySessionToken signed_in).1 = Ok (Some (js "t0")) ∧
  (getRotatedToken PrivySessionToken (fa_disk c)).1 = Ok None.
Proof. eexists. split; [vm_compute; reflexivity|]. split; vm_compute; reflexivity. Qed.

Lemma rotation_ends_session_witness : ∃ w1, rotateSecureStorageKey signed_in = (Ok true, w1) ∧
  (∃ w', getRotatedToken PrivySessionToken w1 = (Ok (Some (js "t0")), w')) ∧
  ∃ w', getSessionToken w1 = (Ok None, w').
Proof.
  destruct (rotation_ends_session signed_in (js "t0") ltac:(exact (eq_refl false)) signed_in_slot eq_refl) as (w1 & E & G & S & _).
  by exists w1.
Defined.

Lemma pin_form_sound_witness : ∃ s' w',
  handleSubmit true (type_confirm (js "2580") (type_pin (js "2580") opened_modal), world [] []) = (Ok tt, (s', w')) ∧
  pm_succeeded s' = 1 ∧ ∃ w2, verifyAccountPin (js "2580") w' = (Ok true, w2).
Proof.
  destruct (pin_form_sound (type_confirm (js "2580") (type_pin (js "2580") opened_modal)) (world [] []) ltac:(exact (eq_refl false)))
    as (s' & w' & E & P & _).
  exists s', w'. split; [exact E|]. by destruct P as (? & _ & ? & _).
Defined.

Lemma prompt_settles_screen_witness : ∃ r w1,
  authenticateWithBiometrics (js "Confirm your identity to enable biometric login") (world [] []) = (Ok r, w1).
Proof.
  destruct (prompt_settles_screen None (set_status available opened) (world [] []) eq_refl eq_refl) as (r & w1 & s' & w2 & E & _).
  by exists r, w1.
Defined.

Lemma early_tap_skips_pin_witness : ∃ s w2,
  (checkHardware;; handleContinue None) (opened, world [] []) = (Ok tt, (s, w2)) ∧ sc_pin_setup s = false.
Proof.
  destruct (early_tap_skips_pin (SW := demo_sensor) None (js "0000") (world [] []) (world [] []) ltac:(reflexivity) ltac:(exact (eq_refl false)) eq_refl ltac:(vm_compute; lia))
    as (_ & s & w2 & E & _ & S & _).
  by exists s, w2.
Defined.

Example wrong_pin : (verifyAccountPin (js "0000") (saveAccountPin (js "2580") (world [] [])).2).1 = Ok false.
Proof. reflexivity. Qed.
End Runs.
