(* ===== verification/TransferScreen.v ===== *)
(** * The transfer screen

    Model of [mobileapp/app/transfer.tsx]: the CSV of a batch payout, the recipient field with
    its searches and checks, and the steps of the transfer with their wallet connection, fee
    estimate and payment. The handlers of the steps are also tasks (file Tasks), which go on while
    the screen is used. *)

From S2P Require Import Prelude JsString JsNumber JsRound UriCodec Json Effects Decode Hashing Scripts MobileApi Sep0007 Retry StellarWallet Contacts DeviceAuth Tasks.

(** ** The CSV of a batch payout *)

Module BatchCsv.
Inductive item_status := Pending | Completed | ItemFailed.

Record BatchPayoutItem := MkItem {
  bi_id : str;
  bi_recipientName : str;
  bi_recipientAddress : str;
  bi_amount : str;
  bi_currency : str;
  bi_status : item_status;
}.

Definition EXPECTED_CSV_HEADERS : list str := [js "recipient_name"; js "recipient_address"; js "amount"; js "currency"].

(** [s.split(/\r?\n/)]: a carriage return before the separator goes with it. *)
Definition drop_cr (l : str) : str := match rev l with 13%N :: r => rev r | _ => l end.
Definition split_lines (s : str) : list str :=
  match rev (split_on 10 s) with
  | [] => []
  | final :: before => rev (final :: (drop_cr <$> before))
  end.

(** [c.trim().replace(/^"|"$/g, "")] *)
Definition unquoted (c : str) : str :=
  let s := trim c in
  let s := match s with 34%N :: r => r | _ => s end in
  match rev s with 34%N :: r => rev r | _ => s end.

(** [cols[idx] || ""] *)
Definition column (cols : list str) (idx : nat) : str := default [] (cols !! idx).

(** [headers.indexOf(name)] of a header that is there. *)
Definition column_of (headers : list str) (name : str) : nat := default 0 (find_index (str_eqb name) headers).

Definition row_text (i : nat) (rest : str) : str := js "Row " ++ Z_to_str (Z.of_nat i) ++ js ": " ++ rest.

Section Parse.
Context `{UnicodeCase}.

(** The messages of one row, or its item. *)
Definition check_row (i : nat) (name address amount currency : str) : list str + BatchPayoutItem :=
  let rowErrors :=
    (if truthy name then [] else [row_text i (js "recipient_name is required.")]) ++
    (if negb (truthy address) then [row_text i (js "recipient_address is required.")]
     else if negb (starts_with (js "G") address) || (length address <? 20) then
       [row_text i ([34%N] ++ address ++ [34%N] ++ js " is not a valid Stellar address.")]
     else []) ++
    (if negb (truthy amount) then [row_text i (js "amount is required.")]
     else if is_nan (Number amount) || num_leb (Number amount) (Fin 0 0) then
       [row_text i (js "amount must be a positive number.")]
     else []) ++
    (if truthy currency then [] else [row_text i (js "currency is required.")]) in
  match rowErrors with
  | [] => inr (MkItem (js "item-" ++ Z_to_str (Z.of_nat i)) name address amount (to_upper currency) Pending)
  | _ => inl rowErrors
  end.

(** One turn of the loop; [None] for a blank line. *)
Definition parse_row (headers : list str) (i : nat) (line : str) : option (list str + BatchPayoutItem) :=
  let row := trim line in
  if negb (truthy row) then None
  else
    let cols := unquoted <$> split_on 44 row in
    let get name := column cols (column_of headers (js name)) in
    Some (check_row i (get "recipient_name") (get "recipient_address") (get "amount") (get "currency")).

Record parsed := Parsed { items : list BatchPayoutItem; errors : list str }.

Definition push_row (acc : parsed) (r : option (list str + BatchPayoutItem)) : parsed :=
  match r with
  | None => acc
  | Some (inl es) => Parsed (items acc) (errors acc ++ es)
  | Some (inr it) => Parsed (items acc ++ [it]) (errors acc)
  end.

Definition parse_rows (headers : list str) (rows : list str) : parsed :=
  foldl push_row (Parsed [] []) (imap (λ j line, parse_row headers (S j) line) rows).

Definition parseCSV (text : str) : parsed :=
  match split_lines (trim text) with
  | headerLine :: ((_ :: _) as rows) =>
      let headers := unquoted <$> split_on 44 (trim (to_lower headerLine)) in
      let missingHeaders := List.filter (λ expected, negb (existsb (str_eqb expected) headers)) EXPECTED_CSV_HEADERS in
      match missingHeaders with
      | _ :: _ =>
          Parsed [] [js "Missing required columns: " ++ join (js ", ") missingHeaders ++
            js ". Expected: " ++ join (js ", ") EXPECTED_CSV_HEADERS]
      | [] =>
          let r := parse_rows headers rows in
          match items r, errors r with
          | [], [] => Parsed [] [js "No valid data rows found in CSV."]
          | _, _ => r
          end
      end
  | _ => Parsed [] [js "CSV must contain a header row and at least one data row."]
  end.
End Parse.

(** The preview: the sum of the amounts, under the first item's currency. *)
Definition preview (batchItems : list BatchPayoutItem) : option (str * str * nat) :=
  match batchItems with
  | [] => None
  | first :: _ =>
      Some (num_to_fixed 2 (foldl (λ sum it, num_add sum (Number (bi_amount it))) (Fin 0 0) batchItems),
            bi_currency first, length batchItems)
  end.

(** *** Properties *)

Section Spec.
Context `{UnicodeCase}.

Definition row_errors (r : option (list str + BatchPayoutItem)) : list str :=
  match r with Some (inl es) => es | _ => [] end.
Definition row_item (r : option (list str + BatchPayoutItem)) : option BatchPayoutItem :=
  match r with Some (inr it) => Some it | _ => None end.

Lemma push_rows rs acc : foldl push_row acc rs = Parsed (items acc ++ omap row_item rs) (errors acc ++ concat (row_errors <$> rs)).
Proof.
  revert acc. induction rs as [|[[es|it]|] rs IH]; intros [its es']; cbn.
  - by rewrite !app_nil_r.
  - rewrite IH. cbn. by rewrite app_assoc.
  - rewrite IH. cbn. by rewrite <-app_assoc.
  - by rewrite IH.
Qed.

Lemma parse_rows_eq headers rows : parse_rows headers rows =
  Parsed (omap row_item (imap (λ j line, parse_row headers (S j) line) rows))
         (concat (row_errors <$> imap (λ j line, parse_row headers (S j) line) rows)).
Proof. unfold parse_rows. by rewrite push_rows. Qed.

(** What every item satisfies. *)
Record item_ok (it : BatchPayoutItem) : Prop := ItemOk {
  ok_name : bi_recipientName it ≠ [];
  ok_address : starts_with (js "G") (bi_recipientAddress it) = true ∧ (20 <= length (bi_recipientAddress it))%nat;
  ok_amount : is_nan (Number (bi_amount it)) = false ∧ num_leb (Number (bi_amount it)) (Fin 0 0) = false;
  ok_status : bi_status it = Pending;
}.

Lemma check_row_item i name address amount currency it :
  check_row i name address amount currency = inr it → item_ok it ∧ bi_id it = js "item-" ++ Z_to_str (Z.of_nat i).
Proof.
  unfold check_row.
  destruct (truthy name) eqn:En; [|done]. destruct (truthy address); [|done]. cbn [negb app].
  destruct (negb (starts_with (js "G") address) || (length address <? 20)) eqn:Ea; [done|]. destruct (truthy amount); [|done]. cbn [negb app].
  destruct (is_nan (Number amount) || num_leb (Number amount) (Fin 0 0)) eqn:Em; [done|]. destruct (truthy currency); [|done].
  cbn [app]. intros [= <-]. apply orb_false_iff in Ea as [Ea El], Em as [En' El']. apply negb_false_iff in Ea. apply Nat.ltb_ge in El.
  split; [|done]. by split; [apply truthy_true| | |].
Qed.

Lemma row_text_starts i rest : starts_with (row_text i []) (row_text i rest) = true.
Proof.
  apply starts_with_spec. exists rest. unfold row_text. by rewrite <-!app_assoc.
Qed.

Lemma check_row_error i name address amount currency es :
  check_row i name address amount currency = inl es → es ≠ [] ∧ Forall (starts_with (row_text i [])) es.
Proof.
  unfold check_row. set (l := _ ++ _). intros E.
  assert (Forall (starts_with (row_text i [])) l) as Hl.
  { unfold l. repeat apply Forall_app_2; repeat case_match; try apply Forall_nil_2; apply Forall_singleton; by rewrite row_text_starts. }
  destruct l; [done|]. by injection E as <-.
Qed.

Lemma parse_row_cases headers i line :
  (trim line = [] ∧ parse_row headers i line = None) ∨
  (∃ es, parse_row headers i line = Some (inl es) ∧ es ≠ [] ∧ Forall (starts_with (row_text i [])) es) ∨
  (∃ it, parse_row headers i line = Some (inr it) ∧ item_ok it ∧ bi_id it = js "item-" ++ Z_to_str (Z.of_nat i)).
Proof.
  unfold parse_row. destruct (truthy (trim line)) eqn:E; cbn [negb]; [right|left; by apply truthy_false in E].
  destruct (check_row _ _ _ _ _) as [es|it] eqn:Ec; [left|right].
  - exists es. split; [done|]. by eapply check_row_error.
  - exists it. split; [done|]. by eapply check_row_item.
Qed.

Lemma item_id_inj (i j : nat) : js "item-" ++ Z_to_str (Z.of_nat i) = js "item-" ++ Z_to_str (Z.of_nat j) → i = j.
Proof. intros E%app_inv_head. apply (inj Z_to_str) in E. lia. Qed.

Lemma parsed_ids headers rows (o : nat) : NoDup (bi_id <$> omap row_item (imap (λ j line, parse_row headers (o + S j) line) rows)) ∧
  ∀ it, it ∈ omap row_item (imap (λ j line, parse_row headers (o + S j) line) rows) → ∃ j, (o < j)%nat ∧ bi_id it = js "item-" ++ Z_to_str (Z.of_nat j).
Proof.
  revert o. induction rows as [|line rows IH]; intros o; [split; [constructor|by intros it ?%elem_of_nil]|].
  rewrite imap_cons. cbn [omap list_omap].
  assert (Ei : imap ((λ j l, parse_row headers (o + S j) l) ∘ S) rows = imap (λ j l, parse_row headers (S o + S j) l) rows).
  { apply imap_ext. intros j l _. cbn. f_equal. lia. }
  rewrite Ei. destruct (IH (S o)) as [Nd In].
  destruct (parse_row_cases headers (o + 1) line) as [[_ ->]|[(es & -> & _)|(it & -> & _ & Eid)]]; cbn [row_item].
  1,2: (split; [done|]; intros it' (j & Hj & E)%In; exists j; (split; [lia|done])).
  split.
  - cbn. apply NoDup_cons_2; [|done]. rewrite Eid. intros (it' & E & (j & Hj & E')%In)%list_elem_of_fmap.
    rewrite E' in E. apply item_id_inj in E. lia.
  - intros it' [->|(j & Hj & E)%In]%elem_of_cons; [|exists j; (split; [lia|done])]. exists (o + 1). split; [lia|done].
Qed.

(** The header names every expected column. *)
Definition header_complete (headerLine : str) : Prop :=
  Forall (λ h, h ∈ unquoted <$> split_on 44 (trim (to_lower headerLine))) EXPECTED_CSV_HEADERS.

Lemma complete_none_missing headerLine : header_complete headerLine →
  List.filter (λ expected, negb (existsb (str_eqb expected) (unquoted <$> split_on 44 (trim (to_lower headerLine))))) EXPECTED_CSV_HEADERS = [].
Proof.
  unfold header_complete. generalize (unquoted <$> split_on 44 (trim (to_lower headerLine))). intros hs Hc.
  induction Hc as [|h l Hh _ IH]; [done|]. cbn [List.filter].
  assert (existsb (str_eqb h) hs = true) as ->; [|done]. apply existsb_exists. exists h. split; [by apply list_elem_of_In|apply str_eqb_refl].
Qed.

(** A file with a complete header is the items and the messages of its rows. *)
Lemma parseCSV_rows text headerLine rows : split_lines (trim text) = headerLine :: rows → rows ≠ [] → header_complete headerLine →
  let r := parse_rows (unquoted <$> split_on 44 (trim (to_lower headerLine))) rows in
  items (parseCSV text) = items r ∧ ∀ e, e ∈ errors r → e ∈ errors (parseCSV text).
Proof.
  intros E Hr Hc r. unfold parseCSV. rewrite E. destruct rows as [|row rows]; [done|]. rewrite complete_none_missing by done.
  fold r. destruct (items r) as [|it l] eqn:Ei, (errors r) as [|e es] eqn:Ee; rewrite ?Ei, ?Ee; (split; [done|]); done || by intros ? ?%elem_of_nil.
Qed.

Lemma parseCSV_cases text : (∃ e, parseCSV text = Parsed [] [e]) ∨ ∃ headers rows, parseCSV text = parse_rows headers rows ∧
  (items (parseCSV text) = [] → errors (parseCSV text) ≠ []).
Proof.
  unfold parseCSV. destruct (split_lines (trim text)) as [|hl [|row rows]]; [left; by eexists..|].
  destruct (List.filter _ _); [|left; by eexists].
  set (r := parse_rows _ _). destruct (items r) as [|it l] eqn:Ei, (errors r) as [|e es] eqn:Ee; [left; by eexists|right..];
    eexists _, _; (split; [reflexivity|]); fold r; rewrite ?Ei, ?Ee; done.
Qed.

(** every item of a parsed file has a name, an address that starts with G and has twenty
    characters, and an amount that reads as a number above zero; no two items share an id,
    and a file without items has a message. Under a complete header every line that is not
    blank is an item or is named in a message. *)
Theorem csv_rows_accounted text :
  Forall item_ok (items (parseCSV text)) ∧ NoDup (bi_id <$> items (parseCSV text)) ∧
  (items (parseCSV text) = [] → errors (parseCSV text) ≠ []) ∧
  ∀ headerLine rows j line, split_lines (trim text) = headerLine :: rows → header_complete headerLine →
    rows !! j = Some line → trim line ≠ [] →
    (∃ it, it ∈ items (parseCSV text) ∧ bi_id it = js "item-" ++ Z_to_str (Z.of_nat (S j))) ∨
    (∃ e, e ∈ errors (parseCSV text) ∧ starts_with (row_text (S j) []) e = true).
Proof.
  split; [|split; [|split]].
  - destruct (parseCSV_cases text) as [(e & ->)|(headers & rows & -> & _)]; [constructor|]. rewrite parse_rows_eq. cbn.
    apply Forall_forall. intros it (r & Hr & Er)%list_elem_of_omap. apply elem_of_lookup_imap in Hr as (j & line & -> & _).
    destruct (parse_row_cases headers (S j) line) as [[_ Ep]|[(es & Ep & _)|(it' & Ep & Ok & _)]]; rewrite Ep in Er; [done..|].
    by injection Er as <-.
  - destruct (parseCSV_cases text) as [(e & ->)|(headers & rows & -> & _)]; [constructor|]. rewrite parse_rows_eq. cbn [items].
    apply (parsed_ids headers rows 0).
  - destruct (parseCSV_cases text) as [(e & ->)|(headers & rows & _ & He)]; [done|exact He].
  - intros headerLine rows j line E Hc Hj Hn.
    destruct (parseCSV_rows text headerLine rows E ltac:(by intros ->) Hc) as [-> He]. rewrite parse_rows_eq in *. cbn [items errors] in *.
    set (headers := unquoted <$> _) in *.
    assert (Hin : parse_row headers (S j) line ∈ imap (λ j line, parse_row headers (S j) line) rows) by (apply elem_of_lookup_imap; eauto).
    destruct (parse_row_cases headers (S j) line) as [[? _]|[(es & Ep & Hes & Hf)|(it & Ep & _ & Eid)]]; [done|right|left].
    + destruct es as [|e es]; [done|]. exists e. apply Forall_cons in Hf as [Hf _]. split; [|by apply Is_true_true]. apply He.
      apply list_elem_of_In, in_concat. exists (e :: es). split; [|by left]. apply list_elem_of_In, list_elem_of_fmap. eexists. split; [|exact Hin]. by rewrite Ep.
    + exists it. split; [|done]. apply list_elem_of_omap. exists (parse_row headers (S j) line). split; [done|]. by rewrite Ep.
Qed.

(** *** Reading back *)

(** A line of the file someone wrote: name, address, amount and currency. *)
Definition line_cells (r : BatchPayoutItem) : list str := [bi_recipientName r; bi_recipientAddress r; bi_amount r; bi_currency r].
Definition line_text (r : BatchPayoutItem) : str := join [44%N] (line_cells r).
Definition csv_text (rows : list BatchPayoutItem) : str := join [10%N] (join [44%N] EXPECTED_CSV_HEADERS :: (line_text <$> rows)).

(** Cells without comma, line end, quotes or white space around them. *)
Definition plain_cell (c : str) : Prop := tight c ∧ (44%N ∉ c) ∧ (10%N ∉ c) ∧ (34%N ∉ c).

Lemma drop_cr_tight s : tight s → drop_cr s = s.
Proof. intros [_ (c & t & -> & W)]. unfold drop_cr. rewrite rev_app_distr. cbn. by repeat case_match; subst. Qed.

Lemma split_lines_join ls : ls ≠ [] → Forall (λ l, tight l ∧ 10%N ∉ l) ls → split_lines (join [10%N] ls) = ls.
Proof.
  intros Hn Hf. unfold split_lines. rewrite split_join; [|done|eapply Forall_impl; [exact Hf|by intros ? []]].
  destruct (rev ls) as [|x before] eqn:E; [by apply (f_equal (rev (A:=str))) in E; rewrite rev_involutive in E|].
  assert (drop_cr <$> before = before) as ->; [|by rewrite <-E, rev_involutive].
  assert (Forall (λ l, tight l ∧ 10%N ∉ l) before) as Hb.
  { assert (Forall (λ l, tight l ∧ 10%N ∉ l) (rev ls)) as H' by (rewrite Forall_forall in *; intros l Hl; apply Hf; by apply list_elem_of_In, in_rev, list_elem_of_In).
    rewrite E in H'. by apply Forall_cons in H' as [_ ?]. }
  clear -Hb. induction Hb as [|l ls [Ht _] _ IH]; cbn; [done|]. rewrite drop_cr_tight by done. by f_equal.
Qed.

Lemma unquoted_plain c : tight c → 34%N ∉ c → unquoted c = c.
Proof.
  intros Ht Hq. unfold unquoted. rewrite tight_trim by done.
  assert ((match c with 34%N :: r => r | _ => c end) = c) as ->.
  { destruct c as [|a c]; [done|]. apply not_elem_of_cons in Hq as [Ha _]. by repeat case_match; subst. }
  destruct (rev c) as [|a r] eqn:E; [done|].
  assert (a ∈ c) by (apply list_elem_of_In, in_rev; rewrite E; by left).
  assert (a ≠ 34%N) by (by intros ->). by repeat case_match; subst.
Qed.

Lemma line_plain r : Forall plain_cell (line_cells r) → tight (line_text r) ∧ 10%N ∉ line_text r.
Proof.
  unfold line_text.
  intros Hf. split.
  - apply tight_join; [done|]. eapply Forall_impl; [exact Hf|]. by intros c [? _].
  - intros [Hc|(c & Hc & Hx)]%elem_of_join; [by apply list_elem_of_singleton in Hc|].
    rewrite Forall_forall in Hf. by apply Hf in Hc as (_ & _ & ? & _).
Qed.

Lemma parse_line (i : nat) headers r : headers = EXPECTED_CSV_HEADERS → Forall plain_cell (line_cells r) → item_ok r →
  parse_row headers i (line_text r) =
    Some (inr (MkItem (js "item-" ++ Z_to_str (Z.of_nat i)) (bi_recipientName r) (bi_recipientAddress r) (bi_amount r) (to_upper (bi_currency r)) Pending)).
Proof.
  intros -> Hf Ok. destruct (line_plain r Hf) as [Ht _]. unfold parse_row.
  rewrite tight_trim, tight_nonempty by done. cbn [negb]. unfold line_text.
  rewrite split_join; [|done|eapply Forall_impl; [exact Hf|by intros ? (_ & ? & _)]].
  assert (unquoted <$> line_cells r = line_cells r) as ->.
  { clear -Hf. induction Hf as [|c l (Ht & _ & _ & Hq) _ IH]; cbn; [done|]. by rewrite unquoted_plain, IH. }
  assert (column_of EXPECTED_CSV_HEADERS (js "recipient_name") = 0 ∧ column_of EXPECTED_CSV_HEADERS (js "recipient_address") = 1 ∧
          column_of EXPECTED_CSV_HEADERS (js "amount") = 2 ∧ column_of EXPECTED_CSV_HEADERS (js "currency") = 3) as (-> & -> & -> & ->) by by vm_compute.
  unfold column, line_cells. cbn [lookup list_lookup default from_option id].
  unfold line_cells in Hf. apply Forall_cons in Hf as [(T1 & _) Hf]. apply Forall_cons in Hf as [(T2 & _) Hf].
  apply Forall_cons in Hf as [(T3 & _) Hf]. apply Forall_cons in Hf as [(T4 & _) _].
  destruct Ok as [_ [Hg Hl] [Hn Hz] _]. unfold check_row.
  rewrite (tight_nonempty _ T1), (tight_nonempty _ T2), (tight_nonempty _ T3), (tight_nonempty _ T4), Hg, Hn, Hz.
  rewrite (proj2 (Nat.ltb_ge _ _)) by done. done.
Qed.

Definition read_item (j : nat) (r : BatchPayoutItem) : BatchPayoutItem :=
  MkItem (js "item-" ++ Z_to_str (Z.of_nat (S j))) (bi_recipientName r) (bi_recipientAddress r) (bi_amount r) (to_upper (bi_currency r)) Pending.

Lemma parse_lines rows : Forall (λ r, Forall plain_cell (line_cells r) ∧ item_ok r) rows →
  imap (λ j line, parse_row EXPECTED_CSV_HEADERS (S j) line) (line_text <$> rows) = Some ∘ inr <$> imap read_item rows.
Proof.
  intros Hf. apply list_eq. intros j. rewrite list_lookup_imap, !list_lookup_fmap, list_lookup_imap.
  destruct (rows !! j) as [r|] eqn:Er; [|done]. rewrite Forall_lookup in Hf. destruct (Hf _ _ Er) as [Hp Ok].
  change (Some (parse_row EXPECTED_CSV_HEADERS (S j) (line_text r)) = Some (Some (inr (read_item j r)))). by rewrite parse_line.
Qed.

Lemma omap_inr (l : list BatchPayoutItem) : omap row_item (Some ∘ inr <$> l) = l.
Proof. induction l as [|it l IH]; [done|]. cbn in *. by rewrite IH. Qed.

Lemma errors_inr (l : list BatchPayoutItem) : concat (row_errors <$> (Some ∘ inr <$> l)) = [].
Proof. by induction l. Qed.

(** a file of plain cells reads back as one pending item per line, in order, with the
    currencies in capitals and no message. A quoted cell with a comma does not: the line is
    split inside the quotes and refused. *)
Theorem csv_reads_back rows : rows ≠ [] → Forall (λ r, Forall plain_cell (line_cells r) ∧ item_ok r) rows →
  parseCSV (csv_text rows) = Parsed (imap read_item rows) [] ∧
  items (parseCSV (join [44%N] EXPECTED_CSV_HEADERS ++ [10; 34]%N ++ js "Doe, Jane" ++ [34; 44]%N ++ js "G" ++ replicate 55 65%N ++ js ",10,USDC")) = [].
Proof.
  intros Hn Hf. split; [|by vm_compute].
  assert (Hh : tight (join [44%N] EXPECTED_CSV_HEADERS) ∧ 10%N ∉ join [44%N] EXPECTED_CSV_HEADERS).
  { split; [|apply (bool_decide_unpack _); vm_compute; exact I]. apply tight_join; [done|].
    repeat apply Forall_cons_2; try apply Forall_nil_2; (split; [by eexists _, _|]).
    - by exists 101%N, (js "recipient_nam").
    - by exists 115%N, (js "recipient_addres").
    - by exists 116%N, (js "amoun").
    - by exists 121%N, (js "currenc"). }
  assert (Hls : Forall (λ l, tight l ∧ 10%N ∉ l) (join [44%N] EXPECTED_CSV_HEADERS :: (line_text <$> rows))).
  { apply Forall_cons_2; [done|]. apply Forall_fmap. eapply Forall_impl; [exact Hf|]. intros r [Hp _]. by apply line_plain. }
  unfold parseCSV, csv_text. rewrite tight_trim; [|apply tight_join; [done|eapply Forall_impl; [exact Hls|by intros ? []]]].
  rewrite split_lines_join by done. destruct rows as [|r0 rows]; [done|]. cbn [fmap list_fmap].
  assert (unquoted <$> split_on 44 (trim (to_lower (join [44%N] EXPECTED_CSV_HEADERS))) = EXPECTED_CSV_HEADERS) as -> by by vm_compute.
  assert (List.filter (λ expected, negb (existsb (str_eqb expected) EXPECTED_CSV_HEADERS)) EXPECTED_CSV_HEADERS = []) as -> by by vm_compute.
  rewrite parse_rows_eq. change (line_text r0 :: (line_text <$> rows)) with (line_text <$> (r0 :: rows)).
  rewrite parse_lines by done. by rewrite omap_inr, errors_inr.
Qed.
End Spec.
End BatchCsv.

(** ** The recipient field *)

Module Recipient.
Record ZapsUser := MkUser { zu_username : str; zu_address : str; zu_avatar_url : option str; zu_isVerified : option bool }.

Inductive UsernameStatus := Idle | Checking | Registered | NotRegistered | Blacklisted.
Inductive FederationStatus := FedIdle | FedResolving | FedResolved | FedError.

#[export] Instance UsernameStatus_eq_dec : EqDecision UsernameStatus.
Proof. solve_decision. Defined.

Record lookup := Lookup {
  lk_recipient : str;
  lk_results : json;                       (** [searchResults], as received *)
  lk_recent : list str;
  lk_searching : bool;
  lk_dropdown : bool;
  lk_selected : option ZapsUser;
  lk_status : UsernameStatus;
  lk_federation : FederationStatus;
  lk_federationError : option str;
  lk_contacts : list MatchedContact;
  lk_loadingContacts : bool;
  lk_contactsLoaded : bool;
}.

Definition initial_lookup : lookup := Lookup [] (JArr []) [] false false None Idle FedIdle None [] false false.

Definition set_recipient v s := Lookup v (lk_results s) (lk_recent s) (lk_searching s) (lk_dropdown s) (lk_selected s) (lk_status s) (lk_federation s) (lk_federationError s) (lk_contacts s) (lk_loadingContacts s) (lk_contactsLoaded s).
Definition set_results v s := Lookup (lk_recipient s) v (lk_recent s) (lk_searching s) (lk_dropdown s) (lk_selected s) (lk_status s) (lk_federation s) (lk_federationError s) (lk_contacts s) (lk_loadingContacts s) (lk_contactsLoaded s).
Definition set_recent v s := Lookup (lk_recipient s) (lk_results s) v (lk_searching s) (lk_dropdown s) (lk_selected s) (lk_status s) (lk_federation s) (lk_federationError s) (lk_contacts s) (lk_loadingContacts s) (lk_contactsLoaded s).
Definition set_searching v s := Lookup (lk_recipient s) (lk_results s) (lk_recent s) v (lk_dropdown s) (lk_selected s) (lk_status s) (lk_federation s) (lk_federationError s) (lk_contacts s) (lk_loadingContacts s) (lk_contactsLoaded s).
Definition set_dropdown v s := Lookup (lk_recipient s) (lk_results s) (lk_recent s) (lk_searching s) v (lk_selected s) (lk_status s) (lk_federation s) (lk_federationError s) (lk_contacts s) (lk_loadingContacts s) (lk_contactsLoaded s).
Definition set_selected v s := Lookup (lk_recipient s) (lk_results s) (lk_recent s) (lk_searching s) (lk_dropdown s) v (lk_status s) (lk_federation s) (lk_federationError s) (lk_contacts s) (lk_loadingContacts s) (lk_contactsLoaded s).
Definition set_status v s := Lookup (lk_recipient s) (lk_results s) (lk_recent s) (lk_searching s) (lk_dropdown s) (lk_selected s) v (lk_federation s) (lk_federationError s) (lk_contacts s) (lk_loadingContacts s) (lk_contactsLoaded s).
Definition set_federation v e s := Lookup (lk_recipient s) (lk_results s) (lk_recent s) (lk_searching s) (lk_dropdown s) (lk_selected s) (lk_status s) v e (lk_contacts s) (lk_loadingContacts s) (lk_contactsLoaded s).
Definition set_contacts v s := Lookup (lk_recipient s) (lk_results s) (lk_recent s) (lk_searching s) (lk_dropdown s) (lk_selected s) (lk_status s) (lk_federation s) (lk_federationError s) v (lk_loadingContacts s) (lk_contactsLoaded s).
Definition set_contacts_progress l d s := Lookup (lk_recipient s) (lk_results s) (lk_recent s) (lk_searching s) (lk_dropdown s) (lk_selected s) (lk_status s) (lk_federation s) (lk_federationError s) (lk_contacts s) l d.

(** *** Search *)

(** [query.trim().replace(/^@/, "")] *)
Definition clean_query (query : str) : str := match trim query with 64%N :: r => r | s => s end.

Definition no_results (s : lookup) : lookup := set_dropdown false (set_results (JArr []) s).

(** [data.length > 0] *)
Definition has_length (data : json) : res bool :=
  match data with
  | JNull => Throw type_error
  | JArr l => Ok (negb (length l =? 0))
  | JStr t => Ok (truthy t)
  | _ => Ok (match json_get (js "length") data with
             | Some v => num_ltb (Fin 0 0) (Number (json_to_string v))
             | None => false
             end)
  end.

Section Remote.
Context `{StellarEnv, Host W}.

Definition API_BASE : str := or_text EXPO_PUBLIC_API_URL (js "http://localhost:8080").

Definition searchUsers (query : str) : M (lookup * W) unit :=
  let cleanQuery := clean_query query in
  if length cleanQuery <? 2 then modify_state no_results
  else
    modify_state (set_searching true);;
    try_catch
      (q ← encode_uri cleanQuery;
       res ← host (fetch (Request (API_BASE ++ js "/api/users/search?q=" ++ q ++ js "&limit=6") (js "GET") [] None));
       if negb (rs_ok res) then throw (new_error (js "Search failed"))
       else
         data ← JSON_parse (rs_body res);
         modify_state (set_results data);;
         some ← of_res (has_length data);
         modify_state (set_dropdown some))
      (λ _, modify_state no_results);;
    modify_state (set_searching false).

(** *** The registry check *)

Definition check_begins (username : str) : bool := negb (length username <? 2).

(** What the answer makes of the status. *)
Definition check_verdict (r : res response) : UsernameStatus :=
  match r with
  | Throw _ => Idle
  | Ok res =>
      if (rs_status res =? 404)%Z then NotRegistered
      else if negb (rs_ok res) then Idle
      else match json_parse (rs_body res) with
           | None | Some JNull => Idle
           | Some body => if json_truthy (json_get (js "is_blacklisted") body) then Blacklisted else Registered
           end
  end.

Definition check_request (encoded : str) : request :=
  Request (API_BASE ++ js "/api/users/resolve/" ++ encoded) (js "GET") [] None.

Definition checkUsernameRegistry (username : str) : M (lookup * W) unit :=
  if negb (check_begins username) then modify_state (set_status Idle)
  else
    modify_state (set_status Checking);;
    try_catch
      (u ← encode_uri username;
       res ← host (fetch (check_request u));
       modify_state (set_status (check_verdict (Ok res))))
      (λ e, modify_state (set_status (check_verdict (Throw e)))).

Definition load_recent : M (lookup * W) unit :=
  cached ← host getRecentRecipients; modify_state (set_recent cached).
End Remote.

(** [loadContacts], reading a token nothing in the application writes. *)
Definition loadContacts `{ApiEnv, Digest, Scheduler, Host W, !ContactBook W} : M (lookup * W) unit :=
  s ← get_state;
  if lk_contactsLoaded s || lk_loadingContacts s then mret tt
  else
    modify_state (set_contacts_progress true (lk_contactsLoaded s));;
    try_catch
      (token ← host (st_get AsyncStorage (js "auth_token"));
       matches ← host (fetchMatchedContacts token 500);
       modify_state (set_contacts matches))
      (λ _, mret tt);;
    modify_state (set_contacts_progress false true).

(** *** Federation

    [StellarSdk] is not imported by the file, so reading it throws before anything is
    resolved; what follows that read in the source is never reached. *)

Class Engine := undeclared : str → js_error.   (** the [ReferenceError] of an undeclared name *)

Definition resolveFederationAddress `{Engine} (address : str) (s : lookup) : lookup :=
  if negb (isFederatedAddress address) then set_federation FedIdle None s
  else set_federation FedError (Some (err_message (undeclared (js "StellarSdk")))) (set_federation FedResolving None s).

(** *** Choices *)

Definition onChangeText (zaps : bool) (text : str) (s : lookup) : lookup :=
  let s := set_federation FedIdle None (set_status Idle (set_selected None (set_recipient text s))) in
  if zaps && (length text <? 2) then set_results (JArr []) (set_dropdown false s) else s.

Definition handleSelectUser (user : ZapsUser) (s : lookup) : lookup :=
  set_status Registered (no_results (set_selected (Some user) (set_recipient (zu_username user) s))).

Definition handleSelectContact (contact : MatchedContact) (s : lookup) : lookup :=
  set_status Registered (no_results
    (set_selected (Some (MkUser (mc_username contact) (mc_address contact) (mc_avatarUrl contact) (Some false)))
      (set_recipient (mc_username contact) s))).

(** The state part of a tap on a recent recipient, before its check. *)
Definition pick_recent (username : str) (s : lookup) : lookup := set_dropdown false (set_recipient username s).

(** The effect on [recipient], up to its two timers. *)
Definition debounce_effect (zaps : bool) (s : lookup) : lookup :=
  if negb zaps then s
  else
    let s := if 2 <=? length (lk_recipient s) then set_status Idle s else s in
    set_federation FedIdle None s.

(** The search timer checks the name if it is long enough and not federated. *)
Definition timer_checks (recipient : str) : bool := (3 <=? length recipient) && negb (isFederatedAddress recipient).

(** *** The button of the recipient step *)

Definition is_bad (u : UsernameStatus) : bool := match u with NotRegistered | Blacklisted => true | _ => false end.

Definition review_disabled (zaps : bool) (amount : str) (s : lookup) : bool :=
  negb (truthy (lk_recipient s)) || negb (truthy amount) ||
  (zaps && (3 <=? length (lk_recipient s)) && is_bad (lk_status s)) ||
  match lk_federation s with FedResolving | FedError => true | _ => false end.

(** *** The field under events, for a Zaps transfer

    The timers of the effect and the checks in flight are kept beside the state; the
    searches, which leave the status alone, are not. *)

Record field := Field { fd_lookup : lookup; fd_timer : option str; fd_federation : option str; fd_checks : list str }.

Inductive field_event :=
  | Typed (text : str)
  | Picked (user : ZapsUser)
  | PickedContact (contact : MatchedContact)
  | PickedRecent (username : str)
  | SearchDue
  | FederationDue
  | Answered (k : nat) (r : res response).     (** the [k]-th check in flight settles *)

(** A commit: the effect runs when the recipient changed, and arms the timers anew. *)
Definition commit (f : field) (s : lookup) (checks : list str) : field :=
  if str_eqb (lk_recipient s) (lk_recipient (fd_lookup f)) then Field s (fd_timer f) (fd_federation f) checks
  else Field (debounce_effect true s) (Some (lk_recipient s))
         (if isFederatedAddress (lk_recipient s) then Some (lk_recipient s) else None) checks.

Definition started (username : str) (s : lookup) : lookup :=
  set_status (if check_begins username then Checking else Idle) s.
Definition in_flight (username : str) (checks : list str) : list str :=
  if check_begins username then checks ++ [username] else checks.

Definition field_step `{Engine} (e : field_event) (f : field) : field :=
  match e with
  | Typed text => commit f (onChangeText true text (fd_lookup f)) (fd_checks f)
  | Picked user => commit f (handleSelectUser user (fd_lookup f)) (fd_checks f)
  | PickedContact contact => commit f (handleSelectContact contact (fd_lookup f)) (fd_checks f)
  | PickedRecent u => commit f (started u (pick_recent u (fd_lookup f))) (in_flight u (fd_checks f))
  | SearchDue =>
      match fd_timer f with
      | None => f
      | Some r =>
          if timer_checks r then Field (started r (fd_lookup f)) None (fd_federation f) (in_flight r (fd_checks f))
          else Field (set_status Idle (fd_lookup f)) None (fd_federation f) (fd_checks f)
      end
  | FederationDue =>
      match fd_federation f with
      | None => f
      | Some r => Field (resolveFederationAddress r (fd_lookup f)) (fd_timer f) None (fd_checks f)
      end
  | Answered k r =>
      match fd_checks f !! k with
      | None => f
      | Some _ => Field (set_status (check_verdict r) (fd_lookup f)) (fd_timer f) (fd_federation f) (delete k (fd_checks f))
      end
  end.

Definition field_run `{Engine} (es : list field_event) (f : field) : field := foldl (λ f e, field_step e f) f es.

(** An event that settles the status. *)
Definition speaks (e : field_event) (f : field) : bool :=
  match e with
  | Typed _ | Picked _ | PickedContact _ | PickedRecent _ => true
  | SearchDue => match fd_timer f with Some _ => true | None => false end
  | FederationDue => false
  | Answered k _ => match fd_checks f !! k with Some _ => true | None => false end
  end.

Section FieldSpec.
Context `{Engine}.

Lemma commit_not_bad f s checks : is_bad (lk_status s) = false → is_bad (lk_status (fd_lookup (commit f s checks))) = false.
Proof. intros Hs. unfold commit, debounce_effect. case_match; [done|]. cbn [negb]. by case_match. Qed.

Lemma started_not_bad u s : is_bad (lk_status (started u s)) = false.
Proof. unfold started. cbn. by destruct (check_begins u). Qed.

(** Only an answer makes the status bad, and any answer settles it. *)
Lemma bad_after e f : is_bad (lk_status (fd_lookup (field_step e f))) =
  if speaks e f then match e with Answered _ r => is_bad (check_verdict r) | _ => false end
  else is_bad (lk_status (fd_lookup f)).
Proof.
  destruct e as [t|u|c|u| | |k r]; cbn [speaks field_step].
  - apply commit_not_bad. unfold onChangeText. by case_match.
  - by apply commit_not_bad.
  - by apply commit_not_bad.
  - by apply commit_not_bad, started_not_bad.
  - destruct (fd_timer f) as [r|]; [|done]. destruct (timer_checks r); [apply started_not_bad|done].
  - destruct (fd_federation f) as [r|]; [|done]. unfold resolveFederationAddress. by case_match.
  - by destruct (fd_checks f !! k).
Qed.

Lemma typed_text text f : lk_recipient (fd_lookup (field_step (Typed text) f)) = text.
Proof.
  cbn [field_step]. unfold commit. assert (lk_recipient (onChangeText true text (fd_lookup f)) = text) by (unfold onChangeText; by case_match).
  case_match; [done|]. unfold debounce_effect. cbn [negb]. by case_match.
Qed.

Lemma review_enabled zaps amount s : truthy (lk_recipient s) = true → truthy amount = true → is_bad (lk_status s) = false →
  lk_federation s = FedIdle → review_disabled zaps amount s = false.
Proof. intros Hr Ha Hb Hf. unfold review_disabled. by rewrite Hr, Ha, Hb, Hf, andb_false_r. Qed.

(** the recipient step blocks a name as unknown or flagged exactly when the last event
    that settled the status was such an answer, whatever name the answered check was for:
    any edit unblocks the button until the next answer, and a late answer for an earlier
    text unblocks a flagged one. *)
Theorem review_follows_last_answer es f : is_bad (lk_status (fd_lookup f)) = false →
  (is_bad (lk_status (fd_lookup (field_run es f))) = true ↔
     ∃ pre k r post, es = pre ++ Answered k r :: post ∧ speaks (Answered k r) (field_run pre f) = true ∧
       is_bad (check_verdict r) = true ∧
       ∀ mid e rest, post = mid ++ e :: rest → speaks e (field_run (pre ++ Answered k r :: mid) f) = false) ∧
  (∀ text amount, truthy text = true → truthy amount = true →
     review_disabled true amount (fd_lookup (field_step (Typed text) f)) = false).
Proof.
  intros Hf. split.
  - induction es as [|e es IH] using rev_ind.
    + split; [cbn; by rewrite Hf|]. intros (pre & k & r & post & E & _). by destruct pre.
    + unfold field_run at 1. rewrite foldl_app. cbn [foldl]. fold (field_run es f). rewrite bad_after.
      destruct (speaks e (field_run es f)) eqn:Es.
      * split.
        -- intros Hb. destruct e as [| | | | | |k r]; try done. exists es, k, r, []. split_and!; [done..|]. by intros [|] ? ?.
        -- intros (pre & k & r & post & E & Hs & Hb & Hq). destruct post as [|e' post _] using rev_ind.
           ++ apply app_inj_2 in E as [_ [= ->]]; [done|done].
           ++ rewrite app_comm_cons, app_assoc in E. apply app_inj_2 in E as [E1 [= E2]]; [|done]. subst e' es.
              specialize (Hq post e [] eq_refl). congruence.
      * rewrite IH. split.
        -- intros (pre & k & r & post & -> & Hs & Hb & Hq). exists pre, k, r, (post ++ [e]). split_and!; [by rewrite <-app_assoc|done|done|].
           intros mid e' rest Ep. destruct rest as [|x rest _] using rev_ind.
           ++ apply app_inj_2 in Ep as [-> [= <-]]; done.
           ++ rewrite app_comm_cons, app_assoc in Ep. apply app_inj_2 in Ep as [-> _]; [|done]. by apply (Hq mid e' rest).
        -- intros (pre & k & r & post & E & Hs & Hb & Hq). destruct post as [|e' post _] using rev_ind.
           ++ apply app_inj_2 in E as [-> [= ->]]; [congruence|done].
           ++ rewrite app_comm_cons, app_assoc in E. apply app_inj_2 in E as [-> [= ->]]; [|done].
              exists pre, k, r, post. split_and!; [done..|]. intros mid e2 rest ->. apply (Hq mid e2 (rest ++ [e'])). by rewrite <-app_assoc.
  - intros text amount Ht Ha. apply review_enabled; [by rewrite typed_text|done|by rewrite bad_after|].
    cbn [field_step]. unfold commit. case_match; [|done]. unfold onChangeText. by case_match.
Qed.
End FieldSpec.
End Recipient.

(** ** The steps of the transfer *)

Module Wizard.
Import BatchCsv Recipient.

Inductive transfer_type := ZAPS | External | BATCH.
Inductive visibility := PUBLIC | FRIENDS | PRIVATE.

Definition visibility_text (v : visibility) : str :=
  match v with PUBLIC => js "PUBLIC" | FRIENDS => js "FRIENDS" | PRIVATE => js "PRIVATE" end.

(** [TOKENS]: id and symbol. *)
Definition TOKENS : list (str * str) := [(js "xlm", js "XLM"); (js "usdt", js "USDT"); (js "usdc", js "USDC")].

Definition STELLAR_ASSET_ISSUERS : list (str * str) :=
  [(js "USDC", js "GA5ZSEJYB37JRC5AVCIA5MOP4RHTM335X2KGX3IHOJAPP5RE34K4KZVN");
   (js "USDT", js "GCQTGZQQ5G4PTM2GL7CDIFKUBIPEC52BROAQIAPW53XBRJVN6ZJVTG6V")].

(** The symbol of the selected token, the first one by default. *)
Definition token_symbol (selectedToken : str) : str :=
  default (js "XLM") (snd <$> find (λ t, str_eqb t.1 selectedToken) TOKENS).

Definition asset_issuer (symbol : str) : option str :=
  if str_eqb symbol (js "XLM") then None else snd <$> find (λ i, str_eqb i.1 symbol) STELLAR_ASSET_ISSUERS.

Record wizard := MkWizard {
  wz_step : nat;
  wz_type : transfer_type;
  wz_lookup : lookup;
  wz_amount : str;
  wz_description : str;
  wz_visibility : visibility;
  wz_token : str;
  wz_wallet : option StellarWalletState;
  wz_fee : option TransactionFeeEstimate;
  wz_connecting : bool;
  wz_submitting : bool;
  wz_items : list BatchPayoutItem;
  wz_errors : list str;
  wz_uploading : bool;
  wz_alerts : list (str * str);           (** raised, oldest first *)
  wz_left : bool;                         (** [router.back] or [router.replace] was called *)
}.

Definition initial_wizard : wizard :=
  MkWizard 0 ZAPS initial_lookup [] [] PUBLIC (js "xlm") None None false false [] [] false [] false.

Definition set_step v s := MkWizard v (wz_type s) (wz_lookup s) (wz_amount s) (wz_description s) (wz_visibility s) (wz_token s) (wz_wallet s) (wz_fee s) (wz_connecting s) (wz_submitting s) (wz_items s) (wz_errors s) (wz_uploading s) (wz_alerts s) (wz_left s).
Definition set_type v s := MkWizard (wz_step s) v (wz_lookup s) (wz_amount s) (wz_description s) (wz_visibility s) (wz_token s) (wz_wallet s) (wz_fee s) (wz_connecting s) (wz_submitting s) (wz_items s) (wz_errors s) (wz_uploading s) (wz_alerts s) (wz_left s).
Definition set_lookup v s := MkWizard (wz_step s) (wz_type s) v (wz_amount s) (wz_description s) (wz_visibility s) (wz_token s) (wz_wallet s) (wz_fee s) (wz_connecting s) (wz_submitting s) (wz_items s) (wz_errors s) (wz_uploading s) (wz_alerts s) (wz_left s).
Definition set_amount v s := MkWizard (wz_step s) (wz_type s) (wz_lookup s) v (wz_description s) (wz_visibility s) (wz_token s) (wz_wallet s) (wz_fee s) (wz_connecting s) (wz_submitting s) (wz_items s) (wz_errors s) (wz_uploading s) (wz_alerts s) (wz_left s).
Definition set_details d v t s := MkWizard (wz_step s) (wz_type s) (wz_lookup s) (wz_amount s) d v t (wz_wallet s) (wz_fee s) (wz_connecting s) (wz_submitting s) (wz_items s) (wz_errors s) (wz_uploading s) (wz_alerts s) (wz_left s).
Definition set_wallet v s := MkWizard (wz_step s) (wz_type s) (wz_lookup s) (wz_amount s) (wz_description s) (wz_visibility s) (wz_token s) v (wz_fee s) (wz_connecting s) (wz_submitting s) (wz_items s) (wz_errors s) (wz_uploading s) (wz_alerts s) (wz_left s).
Definition set_fee v s := MkWizard (wz_step s) (wz_type s) (wz_lookup s) (wz_amount s) (wz_description s) (wz_visibility s) (wz_token s) (wz_wallet s) v (wz_connecting s) (wz_submitting s) (wz_items s) (wz_errors s) (wz_uploading s) (wz_alerts s) (wz_left s).
Definition set_connecting v s := MkWizard (wz_step s) (wz_type s) (wz_lookup s) (wz_amount s) (wz_description s) (wz_visibility s) (wz_token s) (wz_wallet s) (wz_fee s) v (wz_submitting s) (wz_items s) (wz_errors s) (wz_uploading s) (wz_alerts s) (wz_left s).
Definition set_submitting v s := MkWizard (wz_step s) (wz_type s) (wz_lookup s) (wz_amount s) (wz_description s) (wz_visibility s) (wz_token s) (wz_wallet s) (wz_fee s) (wz_connecting s) v (wz_items s) (wz_errors s) (wz_uploading s) (wz_alerts s) (wz_left s).
Definition set_batch i e s := MkWizard (wz_step s) (wz_type s) (wz_lookup s) (wz_amount s) (wz_description s) (wz_visibility s) (wz_token s) (wz_wallet s) (wz_fee s) (wz_connecting s) (wz_submitting s) i e (wz_uploading s) (wz_alerts s) (wz_left s).
Definition set_uploading v s := MkWizard (wz_step s) (wz_type s) (wz_lookup s) (wz_amount s) (wz_description s) (wz_visibility s) (wz_token s) (wz_wallet s) (wz_fee s) (wz_connecting s) (wz_submitting s) (wz_items s) (wz_errors s) v (wz_alerts s) (wz_left s).
Definition add_alert a s := MkWizard (wz_step s) (wz_type s) (wz_lookup s) (wz_amount s) (wz_description s) (wz_visibility s) (wz_token s) (wz_wallet s) (wz_fee s) (wz_connecting s) (wz_submitting s) (wz_items s) (wz_errors s) (wz_uploading s) (wz_alerts s ++ [a]) (wz_left s).
Definition set_left s := MkWizard (wz_step s) (wz_type s) (wz_lookup s) (wz_amount s) (wz_description s) (wz_visibility s) (wz_token s) (wz_wallet s) (wz_fee s) (wz_connecting s) (wz_submitting s) (wz_items s) (wz_errors s) (wz_uploading s) (wz_alerts s) true.

(** [description || undefined] *)
Definition or_undefined (t : str) : option str := if truthy t then Some t else None.

(** *** Steps without effects *)

Definition handleBack (s : wizard) : wizard :=
  match wz_step s with
  | 0 | 4 => set_left s
  | 5 => set_step 3 s
  | 1 => match wz_type s with BATCH => set_step 0 (set_type ZAPS s) | _ => set_step 0 s end
  | n => set_step (n - 1) s
  end.

Definition handleDisconnect (s : wizard) : wizard := set_step 3 (set_wallet None s).

(** [prev.slice(0, -1)] on backspace, else the key appended. *)
Definition handleKeypadPress (value : str) (s : wizard) : wizard :=
  set_amount (if str_eqb value (js "backspace") then removelast (wz_amount s) else wz_amount s ++ value) s.

(** The cards of the first step. *)
Definition choose (t : transfer_type) (s : wizard) : wizard :=
  match t with BATCH => set_step 1 (set_type BATCH s) | _ => set_type t s end.

(** [stored ? JSON.parse(stored) : []], then [list.unshift]. *)
Definition pending_entry (s : wizard) (hash : str) : json :=
  JObj [(js "recipient", JStr (lk_recipient (wz_lookup s))); (js "amount", JStr (wz_amount s));
        (js "description", JStr (if truthy (wz_description s) then wz_description s else js "Sent money"));
        (js "visibility", JStr (visibility_text (wz_visibility s))); (js "token", JStr (token_symbol (wz_token s)));
        (js "hash", JStr hash)].

Definition PENDING_KEY : str := js "pending_transfers".

(** *** Steps with effects

    A handler is the closure of a render: it reads the state [c] it was rendered with and
    writes the current one. *)

Inductive picked_file := Canceled | Chosen (uri : option str).

(** [DocumentPicker] and [FileSystem]. *)
Class FilePicker (W : Type) := {
  getDocumentAsync : M W picked_file;
  readAsStringAsync : str → M W str;
}.

Definition status_text (st : item_status) : str :=
  match st with Pending => js "pending" | Completed => js "completed" | ItemFailed => js "failed" end.

Definition item_json (it : BatchPayoutItem) : json :=
  JObj [(js "id", JStr (bi_id it)); (js "recipientName", JStr (bi_recipientName it));
        (js "recipientAddress", JStr (bi_recipientAddress it)); (js "amount", JStr (bi_amount it));
        (js "currency", JStr (bi_currency it)); (js "status", JStr (status_text (bi_status it)))].

Section Effects.
Context `{UnicodeCase, StellarEnv, Host W, SDK : !StellarSdk W, BW : !BrowserWallets W, SN : !Onboarding.Sensor W, FP : !FilePicker W}.
Abbreviation world := (ui_log * W)%type.
Abbreviation screen := (M (wizard * world)).

(** [list.unshift(entry)] on what is stored, written back. *)
Definition write_pending (c : wizard) (hash : str) (stored : option str) : M W unit :=
  list ← match stored with
         | Some t => if truthy t then JSON_parse t else mret (JArr [])
         | None => mret (JArr [])
         end;
  match (list : json) with
  | JArr l => st_set AsyncStorage PENDING_KEY (stringify (JArr (pending_entry c hash :: l)))
  | _ => throw type_error
  end.

Definition record_transfer (c : wizard) (hash : str) : M W unit :=
  stored ← st_get AsyncStorage PENDING_KEY; write_pending c hash stored.

Definition pay (c : wizard) (wallet : StellarWalletState) : M world PaymentResult :=
  let symbol := token_symbol (wz_token c) in
  submitPayment (lk_recipient (wz_lookup c)) (wz_amount c) (default SLocal (sw_source wallet)) (sw_publicKey wallet)
    (Some symbol) (asset_issuer symbol) (or_undefined (wz_description c)).

(** The body of the [try] of the last step. *)
Definition send (c : wizard) : M world unit :=
  wallet ← match wz_wallet c with Some w => mret w | None => throw type_error end;
  result ← pay c wallet;
  host (record_transfer c (pay_hash result));;
  host (saveRecentRecipient (lk_recipient (wz_lookup c))).

Definition is_connected (c : wizard) : bool :=
  match wz_wallet c with Some w => sw_isConnected w | None => false end.

Definition CONFIRM : str := js "Verify your identity to confirm the transfer".
Definition auth_required : str * str :=
  (js "Authentication Required", js "You must verify your identity before sending a payment. Please try again.").

Definition confirm_and_send (c : wizard) : screen unit :=
  result ← host (host (Onboarding.authenticateWithBiometrics CONFIRM));
  match (result : Onboarding.BiometricAuthResult) with
  | Onboarding.AuthFailure Onboarding.cancelled _ => mret tt
  | Onboarding.AuthFailure _ _ => modify_state (add_alert auth_required)
  | Onboarding.AuthSuccess =>
      modify_state (set_submitting true);;
      sent ← try_catch (host (send c);; mret true)
        (λ e, modify_state (set_submitting false ∘ add_alert (js "Transfer Failed", err_message e));; mret false);
      if (sent : bool) then modify_state (set_step 4 ∘ set_submitting false) else mret tt
  end.

Definition handleNext (c : wizard) : screen unit :=
  match wz_step c with
  | 0 => modify_state (set_step 1)
  | 2 => if is_connected c then modify_state (set_step 3) else modify_state (set_step 5)
  | 3 => confirm_and_send c
  | 4 => modify_state set_left
  | n => modify_state (set_step (S n))
  end.

(** The wallet of a source; [None] without the browser extension. *)
Definition connect (source : wallet_source) : M W (option StellarWalletState) :=
  match source with
  | SFreighter =>
      hasFreighter ← checkFreighter;
      if negb (hasFreighter : bool) then mret None else s ← connectFreighter; mret (Some s)
  | SAlbedo => s ← connectAlbedo; mret (Some s)
  | SLocal =>
      existing ← getLocalKeypair;
      match (existing : option keypair) with
      | Some _ => s ← connectLocalWallet; mret (Some s)
      | None =>
          kp ← generateLocalKeypair;
          saveLocalKeypair (kp : str * str).2;;
          mret (Some (MkStellarWallet kp.1 true (Some SLocal)))
      end
  end.

Definition connected (state : option StellarWalletState) : wizard → wizard :=
  match state with
  | Some s => set_wallet (Some s)
  | None => add_alert (js "Freighter Not Found", js "Please install the Freighter wallet extension.")
  end.

Definition handleConnectWallet (source : wallet_source) : screen unit :=
  modify_state (set_connecting true);;
  try_catch (state ← host (host (connect source)); modify_state (connected state))
    (λ e, modify_state (add_alert (js "Connection Failed", err_message e)));;
  modify_state (set_connecting false).

(** The stored key pair is the wallet on mount. *)
Definition mount_wallet : screen unit :=
  kp ← host (host getLocalKeypair);
  match (kp : option keypair) with
  | Some kp => modify_state (set_wallet (Some (MkStellarWallet (kp_publicKey kp) true (Some SLocal))))
  | None => mret tt
  end.

(** The fee effect, while the screen is mounted. *)
Definition fee_effect : screen unit :=
  s ← get_state;
  match wz_wallet s with
  | Some wallet =>
      if negb (wz_step s =? 3) || negb (sw_isConnected wallet) || negb (truthy (lk_recipient (wz_lookup s))) || negb (truthy (wz_amount s))
      then modify_state (set_fee None)
      else
        try_catch
          (let symbol := token_symbol (wz_token s) in
           txXdr ← host (host (buildPaymentEnvelope (sw_publicKey wallet) (lk_recipient (wz_lookup s)) (wz_amount s)
             (Some symbol) (asset_issuer symbol) (or_undefined (wz_description s))));
           estimate ← host (host (estimateTransactionFee txXdr));
           modify_state (set_fee (Some estimate)))
          (λ _, modify_state (set_fee None))
  | None => modify_state (set_fee None)
  end.

Definition handlePickFile : screen unit :=
  try_catch
    (result ← host (host getDocumentAsync);
     match (result : picked_file) with
     | Chosen (Some uri) =>
         content ← host (host (readAsStringAsync uri));
         let r := parseCSV content in
         modify_state (set_batch (items r) (errors r))
     | _ => mret tt
     end)
    (λ e, modify_state (λ s, set_batch (wz_items s) [err_message e] s)).

Definition batch_request (batchItems : list BatchPayoutItem) (token : option str) : request :=
  Request (API_BASE ++ js "/api/admin/distribution-lists") (js "POST") (content_type_json :: auth_header token)
    (Some (stringify (JObj [(js "items", JArr (item_json <$> batchItems))]))).

Definition handleSubmitBatch (c : wizard) : screen unit :=
  modify_state (set_uploading true);;
  try_catch
    (token ← host (host (st_get AsyncStorage (js "auth_token")));
     res ← host (host (fetch (batch_request (wz_items c) token)));
     if negb (rs_ok res) then
       throw (new_error (if truthy (rs_body res) then rs_body res else js "HTTP " ++ Z_to_str (rs_status res)))
     else modify_state (set_step 4))
    (λ e, modify_state (add_alert (js "Upload Failed", err_message e)));;
  modify_state (set_uploading false).

(** *** What the screen offers *)

(** The button of the footer; [None] where it is not rendered or disabled. *)
Definition footer (c : wizard) : option (screen unit) :=
  match wz_type c with
  | BATCH =>
      if (wz_step c =? 4) || ((wz_step c =? 1) && (length (wz_items c) =? 0)) || wz_uploading c then None
      else Some match wz_step c with
                | 0 => modify_state (set_step 1)
                | 1 => modify_state (set_step 2)
                | 2 => handleSubmitBatch c
                | _ => mret tt
                end
  | _ =>
      if (wz_step c =? 5) || (wz_step c =? 4) ||
         ((wz_step c =? 1) && review_disabled (match wz_type c with ZAPS => true | _ => false end) (wz_amount c) (wz_lookup c)) ||
         wz_submitting c
      then None else Some (handleNext c)
  end.

(** *** The handlers cut at each [await] *)

Abbreviation left := (task (wizard * world)).

(** The [catch] around the rest of a handler. *)
Definition or_else (caught : js_error → wizard → wizard) (m : screen left) : screen left :=
  try_catch m (λ e, modify_state (caught e);; mret Rest).

Definition send_failed (e : js_error) : wizard → wizard :=
  set_submitting false ∘ add_alert (js "Transfer Failed", err_message e).

Definition recorded (c : wizard) : left :=
  Await (or_else send_failed (host (host (saveRecentRecipient (lk_recipient (wz_lookup c))));; mret (
  Await (modify_state (set_step 4 ∘ set_submitting false);; mret Rest)))).

Definition paid (c : wizard) (result : PaymentResult) : left :=
  Await (or_else send_failed (stored ← host (host (st_get AsyncStorage PENDING_KEY)); mret (
  Await (or_else send_failed (host (host (write_pending c (pay_hash result) stored));; mret (recorded c)))))).

Definition sending (c : wizard) : left :=
  Await (result ← host (host (Onboarding.authenticateWithBiometrics CONFIRM)); mret (
  Await (match (result : Onboarding.BiometricAuthResult) with
         | Onboarding.AuthFailure Onboarding.cancelled _ => mret Rest
         | Onboarding.AuthFailure _ _ => modify_state (add_alert auth_required);; mret Rest
         | Onboarding.AuthSuccess =>
             modify_state (set_submitting true);;
             or_else send_failed
               (wallet ← match wz_wallet c with Some w => mret w | None => throw type_error end;
                result ← host (pay c wallet); mret (paid c result))
         end))).

Definition upload_failed (e : js_error) : wizard → wizard :=
  set_uploading false ∘ add_alert (js "Upload Failed", err_message e).

Definition uploading (c : wizard) : left :=
  Await (modify_state (set_uploading true);; or_else upload_failed (
         token ← host (host (st_get AsyncStorage (js "auth_token"))); mret (
  Await (or_else upload_failed (res ← host (host (fetch (batch_request (wz_items c) token))); mret (
  Await (or_else upload_failed (
    if negb (rs_ok res) then
      throw (new_error (if truthy (rs_body res) then rs_body res else js "HTTP " ++ Z_to_str (rs_status res)))
    else modify_state (set_step 4);; modify_state (set_uploading false);; mret Rest)))))))).

Definition connect_failed (e : js_error) : wizard → wizard :=
  set_connecting false ∘ add_alert (js "Connection Failed", err_message e).

Definition connecting (source : wallet_source) : left :=
  Await (modify_state (set_connecting true);; or_else connect_failed (
         state ← host (host (connect source)); mret (
  Await (modify_state (connected state);; modify_state (set_connecting false);; mret Rest)))).

Definition pick_failed (e : js_error) (s : wizard) : wizard := set_batch (wz_items s) [err_message e] s.

Definition picking : left :=
  Await (or_else pick_failed (result ← host (host getDocumentAsync); mret (
  Await (or_else pick_failed (
    match (result : picked_file) with
    | Chosen (Some uri) =>
        content ← host (host (readAsStringAsync uri)); mret (
        Await (let r := parseCSV content in modify_state (set_batch (items r) (errors r));; mret Rest))
    | _ => mret Rest
    end))))).

Definition mounting : left :=
  Await (kp ← host (host getLocalKeypair); mret (
  Await (match (kp : option keypair) with
         | Some kp => modify_state (set_wallet (Some (MkStellarWallet (kp_publicKey kp) true (Some SLocal))));; mret Rest
         | None => mret Rest
         end))).

(** *** What the screen offers *)

(** An update of the state, or the start of a handler that awaits, with the state of the
    render it belongs to. *)
Inductive action :=
  | Now (f : wizard → wizard)
  | Sending (c : wizard)
  | Uploading (c : wizard)
  | Connecting (source : wallet_source)
  | Picking
  | Mounting.

Definition task_of (a : action) : left :=
  match a with
  | Now f => Await (modify_state f;; mret Rest)
  | Sending c => sending c
  | Uploading c => uploading c
  | Connecting source => connecting source
  | Picking => picking
  | Mounting => mounting
  end.

(** What the button of the footer does. *)
Definition next_action (c : wizard) : action :=
  match wz_type c, wz_step c with
  | BATCH, 0 => Now (set_step 1)
  | BATCH, 1 => Now (set_step 2)
  | BATCH, 2 => Uploading c
  | BATCH, _ => Now id
  | _, 0 => Now (set_step 1)
  | _, 2 => Now (if is_connected c then set_step 3 else set_step 5)
  | _, 3 => Sending c
  | _, 4 => Now set_left
  | _, n => Now (set_step (S n))
  end.

(** The actions a render puts on the screen. *)
Inductive offers (c : wizard) : action → Prop :=
  | OfferFooter : is_Some (footer c) → offers c (next_action c)
  | OfferBack : wz_step c ≠ 4 → offers c (Now handleBack)
  | OfferChoose t : wz_step c = 0 → offers c (Now (choose t))
  | OfferPick : wz_step c = 1 → wz_type c = BATCH → offers c Picking
  | OfferKey v : wz_step c = 1 → wz_type c ≠ BATCH → offers c (Now (handleKeypadPress v))
  | OfferLookup l : wz_step c = 1 → wz_type c ≠ BATCH → offers c (Now (set_lookup l))
  | OfferDetails d v t : wz_step c = 1 → wz_type c ≠ BATCH → offers c (Now (set_details d v t))
  | OfferConnect src : wz_step c = 5 → wz_type c ≠ BATCH → is_connected c = false → wz_connecting c = false → offers c (Connecting src)
  | OfferContinue : wz_step c = 5 → wz_type c ≠ BATCH → is_connected c = true → offers c (Now (set_step 3))
  | OfferDisconnect : wz_step c = 5 → wz_type c ≠ BATCH → is_connected c = true → offers c (Now handleDisconnect).

(** The screen with the handlers started on it and what is left of each. *)
Record use := Use { us_started : list action; us_left : list left; us_screen : wizard * world }.

(** The handler runs up to its first [await] at once. *)
Definition begin (a : action) (u : use) : use :=
  let '(ts, x) := turn (us_left u ++ [task_of a], us_screen u) (length (us_left u)) in
  Use (us_started u ++ [a]) ts x.

Definition resume (i : nat) (u : use) : use :=
  let '(ts, x) := turn (us_left u, us_screen u) i in Use (us_started u) ts x.

(** What the user and the answers do, in any order: an offered action begins, a handler goes
    on, an answer to a look-up of the recipient field settles, or the fee estimate does.
    [isMounted] drops an estimate whose inputs have changed, so that one that settles runs
    on the state it was made from. *)
Inductive moves : use → use → Prop :=
  | MoveBegin a u : offers (us_screen u).1 a → moves u (begin a u)
  | MoveResume i u : moves u (resume i u)
  | MoveLookup l as_ ts c v : lk_recipient l = lk_recipient (wz_lookup c) →
      moves (Use as_ ts (c, v)) (Use as_ ts (set_lookup l c, v))
  | MoveFee as_ ts x : moves (Use as_ ts x) (Use as_ ts (fee_effect x).2).

Definition opened (v : world) : use := begin Mounting (Use [] [] (initial_wizard, v)).
End Effects.

(** *** Properties *)

Section Spec.
Context `{UnicodeCase, StellarEnv, HostLaws W, SDK : !StellarSdk W, BW : !BrowserWallets W, SN : !Onboarding.Sensor W, FP : !FilePicker W}.
Abbreviation world := (ui_log * W)%type.

(** *** A handler run alone *)

Lemma host2_bind {A B} (q : M W A) (k : A → M (wizard * world) B) s l w :
  (host (host q) ≫= k) (s, (l, w)) =
  match q w with (Ok a, w') => k a (s, (l, w')) | (Throw e, w') => (Throw e, (s, (l, w'))) end.
Proof. rewrite run_bind. unfold host. cbn. by destruct (q w) as [[a|e] w']. Qed.

Lemma host_world_bind {A B} (q : M world A) (k : A → M (wizard * world) B) s v :
  (host q ≫= k) (s, v) =
  match q v with (Ok a, v') => k a (s, v') | (Throw e, v') => (Throw e, (s, v')) end.
Proof. rewrite run_bind. unfold host. cbn. by destruct (q v) as [[a|e] v']. Qed.

Lemma or_else_run caught (m : M (wizard * world) (task (wizard * world))) x :
  or_else caught m x =
  match m x with (Ok t, x') => (Ok t, x') | (Throw e, (s, v)) => (Ok Rest, (caught e s, v)) end.
Proof. unfold or_else, try_catch. destruct (m x) as [[t|e] [s v]]; reflexivity. Qed.

Lemma finish_paid c p s l w : finish (paid c p) (s, (l, w)) =
  match (record_transfer c (pay_hash p);; saveRecentRecipient (lk_recipient (wz_lookup c))) w with
  | (Ok _, w') => (Ok tt, (set_step 4 (set_submitting false s), (l, w')))
  | (Throw e, w') => (Ok tt, (send_failed e s, (l, w')))
  end.
Proof.
  cbn [finish paid]. rewrite or_else_run, host2_bind. unfold record_transfer. rewrite !run_bind.
  destruct (st_get _ _ w) as [[o|e] w1]; [|done]. cbn [finish mret M_ret]. rewrite or_else_run, host2_bind.
  destruct (write_pending _ _ _ w1) as [[[]|e] w2]; [|done]. cbn [finish mret M_ret recorded].
  rewrite or_else_run, host2_bind. by destruct (saveRecentRecipient _ w2) as [[[]|e] w3].
Qed.

Lemma confirm_settles c s v :
  (sent ← try_catch (host (send c);; mret true)
     (λ e, modify_state (set_submitting false ∘ add_alert (js "Transfer Failed", err_message e));; mret false);
   if (sent : bool) then modify_state (set_step 4 ∘ set_submitting false) else mret tt) (s, v) =
  match send c v with
  | (Ok _, v') => (Ok tt, (set_step 4 (set_submitting false s), v'))
  | (Throw e, v') => (Ok tt, (send_failed e s, v'))
  end.
Proof. rewrite run_bind. unfold try_catch. rewrite host_world_bind. by destruct (send c v) as [[[]|e] v']. Qed.

Lemma finish_sending c x : finish (sending c) x = confirm_and_send c x.
Proof.
  destruct x as [s [l w]]. unfold sending, confirm_and_send. cbn [finish]. rewrite !host2_bind.
  destruct (Onboarding.authenticateWithBiometrics CONFIRM w) as [[r|e] w1]; [|done]. cbn [finish mret M_ret].
  destruct r as [|[] ?]; try done. rewrite !(run_bind_ok _ _ _ _ _ (run_modify_state _ _ _)).
  rewrite confirm_settles, or_else_run. unfold send. destruct (wz_wallet c) as [wallet|]; [|done].
  rewrite !(run_bind_ok (mret wallet) _ _ _ wallet eq_refl), host_world_bind, run_bind.
  destruct (pay c wallet (l, w1)) as [[p|e] [l1 w2]]; [|done]. cbn [mret M_ret]. rewrite finish_paid.
  unfold host. rewrite !run_bind. cbn. destruct (record_transfer _ _ w2) as [[[]|e] w3]; [|done].
  cbn. by destruct (saveRecentRecipient _ w3) as [[[]|e] w4].
Qed.

Lemma finish_uploading c x : finish (uploading c) x = handleSubmitBatch c x.
Proof.
  destruct x as [s [l w]]. unfold uploading, handleSubmitBatch. cbn [finish].
  rewrite !(run_bind_ok _ _ _ _ _ (run_modify_state _ _ _)), or_else_run, host2_bind, run_bind. unfold try_catch at 1.
  rewrite host2_bind. destruct (st_get _ _ w) as [[token|e] w1]; [|done]. cbn [finish mret M_ret].
  rewrite or_else_run, !host2_bind. destruct (fetch _ w1) as [[res|e] w2]; [|done]. cbn [finish mret M_ret].
  rewrite or_else_run. by destruct (rs_ok res).
Qed.

Lemma finish_connecting src x : finish (connecting src) x = handleConnectWallet src x.
Proof.
  destruct x as [s [l w]]. unfold connecting, handleConnectWallet. cbn [finish].
  rewrite !(run_bind_ok _ _ _ _ _ (run_modify_state _ _ _)), or_else_run, host2_bind, run_bind. unfold try_catch at 1.
  rewrite host2_bind. by destruct (connect src w) as [[st|e] w1].
Qed.

Lemma finish_picking x : finish picking x = handlePickFile x.
Proof.
  destruct x as [s [l w]]. unfold picking, handlePickFile. cbn [finish]. rewrite or_else_run, host2_bind.
  unfold try_catch. rewrite host2_bind. destruct (getDocumentAsync w) as [[[|[uri|]]|e] w1]; try done.
  cbn [finish mret M_ret]. rewrite or_else_run, !host2_bind. by destruct (readAsStringAsync uri w1) as [[content|e] w2].
Qed.

Lemma finish_mounting x : finish mounting x = mount_wallet x.
Proof.
  destruct x as [s [l w]]. unfold mounting, mount_wallet. cbn [finish]. rewrite !host2_bind.
  by destruct (getLocalKeypair w) as [[[kp|]|e] w1].
Qed.

(** the cut handlers are the whole ones: run alone to its end, each does what the handler
    the button calls does, and the button of the footer starts the one it runs. *)
Theorem handlers_alone x :
  (∀ c, finish (sending c) x = confirm_and_send c x) ∧ (∀ c, finish (uploading c) x = handleSubmitBatch c x) ∧
  (∀ source, finish (connecting source) x = handleConnectWallet source x) ∧
  finish picking x = handlePickFile x ∧ finish mounting x = mount_wallet x ∧
  (∀ c m, footer c = Some m → m x = finish (task_of (next_action c)) x).
Proof.
  split_and!; intros; [apply finish_sending|apply finish_uploading|apply finish_connecting|apply finish_picking|apply finish_mounting|].
  unfold footer, next_action in *. destruct (wz_type c).
  3:{ destruct (_ || _); [done|]. simplify_eq. destruct (wz_step c) as [|[|[|n]]]; destruct x; try done. by rewrite <-finish_uploading. }
  all: destruct (_ || _); [done|]; simplify_eq; unfold handleNext; destruct (wz_step c) as [|[|[|[|[|n]]]]]; destruct x; try done;
    [by destruct (is_connected c)|by rewrite <-finish_sending].
Qed.

(** *** Every use of the screen *)

(** A turn keeps the kind of transfer, the recipient field and the amount; only the last turn
    of a payment or of an upload moves to the success step. *)
Definition late (pays : bool) (x : wizard * world) (t : task (wizard * world)) (x' : wizard * world) : Prop :=
  wz_type x'.1 = wz_type x.1 ∧ wz_lookup x'.1 = wz_lookup x.1 ∧ wz_amount x'.1 = wz_amount x.1 ∧
  (wz_step x'.1 = wz_step x.1 ∨ pays = true ∧ wz_step x'.1 = 4 ∧ t = Rest).

Ltac done_late := unfold late; cbn; by split_and!; first [reflexivity|left; reflexivity|right; split_and!; reflexivity].

Lemma recorded_late c : turns_by (late true) (recorded c).
Proof.
  intros [s [l w]]. rewrite or_else_run, host2_bind. destruct (saveRecentRecipient _ w) as [[[]|e] w1]; [|split; [done_late|done]].
  split; [done_late|]. intros [s1 v1]. split; [done_late|done].
Qed.

Lemma paid_late c p : turns_by (late true) (paid c p).
Proof.
  intros [s [l w]]. rewrite or_else_run, host2_bind. destruct (st_get _ _ w) as [[o|e] w1]; [|split; [done_late|done]].
  split; [done_late|]. intros [s1 [l1 w2]]. rewrite or_else_run, host2_bind.
  destruct (write_pending _ _ _ w2) as [[[]|e] w3]; (split; [done_late|]); [apply recorded_late|done].
Qed.

Lemma sending_late c : turns_by (late true) (sending c).
Proof.
  intros [s [l w]]. rewrite host2_bind. destruct (Onboarding.authenticateWithBiometrics _ w) as [[r|e] w1]; [|done_late].
  split; [done_late|]. intros [s1 v1]. destruct r as [|[] ?]; try (split; [done_late|done]).
  rewrite (run_bind_ok _ _ _ _ _ (run_modify_state _ _ _)), or_else_run.
  destruct (wz_wallet c) as [wallet|]; [|split; [done_late|done]].
  rewrite (run_bind_ok (mret wallet) _ _ _ wallet eq_refl), host_world_bind.
  destruct (pay c wallet v1) as [[p|e] v2]; (split; [done_late|]); [apply paid_late|done].
Qed.

Lemma uploading_late c : turns_by (late true) (uploading c).
Proof.
  intros [s [l w]]. rewrite (run_bind_ok _ _ _ _ _ (run_modify_state _ _ _)), or_else_run, host2_bind.
  destruct (st_get _ _ w) as [[o|e] w1]; [|split; [done_late|done]]. split; [done_late|].
  intros [s1 [l1 w2]]. rewrite or_else_run, host2_bind. destruct (fetch _ w2) as [[res|e] w3]; [|split; [done_late|done]].
  split; [done_late|]. intros [s2 v2]. rewrite or_else_run. destruct (rs_ok res); (split; [done_late|done]).
Qed.

Lemma connecting_late src : turns_by (late false) (connecting src).
Proof.
  intros [s [l w]]. rewrite (run_bind_ok _ _ _ _ _ (run_modify_state _ _ _)), or_else_run, host2_bind.
  destruct (connect src w) as [[st|e] w1]; [|split; [done_late|done]]. split; [done_late|].
  intros [s1 v1]. destruct st; (split; [done_late|done]).
Qed.

Lemma picking_late : turns_by (late false) picking.
Proof.
  intros [s [l w]]. rewrite or_else_run, host2_bind. destruct (getDocumentAsync w) as [[r|e] w1]; [|split; [done_late|done]].
  split; [done_late|]. intros [s1 [l1 w2]]. rewrite or_else_run. destruct r as [|[uri|]]; try (split; [done_late|done]).
  rewrite host2_bind. destruct (readAsStringAsync uri w2) as [[content|e] w3]; [|split; [done_late|done]].
  split; [done_late|]. intros [s2 v2]. split; [done_late|done].
Qed.

Lemma mounting_late : turns_by (late false) mounting.
Proof.
  intros [s [l w]]. rewrite host2_bind. destruct (getLocalKeypair w) as [[kp|e] w1]; [|done_late]. split; [done_late|].
  intros [s1 v1]. destruct kp; (split; [done_late|done]).
Qed.

(** A payout list is only at its two steps and the last; any other transfer is past the
    recipient step, short of the last, only with a recipient and an amount. *)
Definition form (s : wizard) : Prop :=
  wz_step s <= 5 ∧
  match wz_type s with
  | BATCH => wz_step s = 1 ∨ wz_step s = 2 ∨ wz_step s = 4
  | _ => wz_step s = 2 ∨ wz_step s = 3 ∨ wz_step s = 5 →
         truthy (lk_recipient (wz_lookup s)) = true ∧ truthy (wz_amount s) = true
  end.

(** The state a payment or an upload was started from. *)
Definition begun (a : action) : Prop :=
  match a with
  | Sending c => wz_type c ≠ BATCH ∧ wz_step c = 3 ∧ wz_submitting c = false ∧
                 truthy (lk_recipient (wz_lookup c)) = true ∧ truthy (wz_amount c) = true
  | Uploading c => wz_type c = BATCH ∧ wz_step c = 2 ∧ wz_uploading c = false
  | _ => True
  end.

Definition pays (a : action) : bool := match a with Sending _ | Uploading _ => true | _ => false end.

(** A payment or an upload has come to its end. *)
Definition settled_one (as_ : list action) (ts : list (task (wizard * world))) : Prop :=
  ∃ i a, as_ !! i = Some a ∧ pays a = true ∧ ts !! i = Some Rest.

Record fit (u : use) : Prop := Fit {
  fit_length : length (us_started u) = length (us_left u);
  fit_left : ∀ i a t, us_started u !! i = Some a → us_left u !! i = Some t → turns_by (late (pays a)) t;
  fit_form : form (us_screen u).1;
  fit_begun : ∀ a, a ∈ us_started u → begun a;
  fit_done : wz_step (us_screen u).1 = 4 → settled_one (us_started u) (us_left u);
}.

Lemma review_passed zaps amount l : review_disabled zaps amount l = false →
  truthy (lk_recipient l) = true ∧ truthy amount = true.
Proof. unfold review_disabled. rewrite !orb_false_iff, !negb_false_iff. by intros [[[? ?] _] _]. Qed.

(** What an enabled footer button starts. *)
Lemma footer_form c : form c → is_Some (footer (W := W) c) →
  match next_action c with Now f => form (f c) ∧ wz_step (f c) ≠ 4 | a => begun a end.
Proof.
  intros [G1 G2] [m E]. unfold footer, next_action in *. destruct (wz_type c) eqn:Et.
  3:{ destruct (_ || _) eqn:Eb; [done|]. rewrite !orb_false_iff in Eb. destruct Eb as [[Ew _] Eu].
      apply Nat.eqb_neq in Ew. destruct G2 as [G2|[G2|G2]]; rewrite G2 in *; [|by cbn|lia].
      unfold form. cbn. rewrite Et. split; [|lia]. split; [lia|by right; left]. }
  all: destruct (_ || _) eqn:Eb; [done|]; rewrite !orb_false_iff in Eb; destruct Eb as [[[E5 E4] Er] Es];
    apply Nat.eqb_neq in E5, E4; destruct (wz_step c) as [|[|[|[|[|n]]]]] eqn:En; try lia.
  all: try (destruct (is_connected c)); unfold form; cbn; rewrite ?Et.
  all: try (split; [split; [lia|]|lia]; intros ?; apply G2; lia).
  all: try (split_and!; try done; apply G2; lia).
  all: split; [split; [lia|]|lia]; intros _; by apply review_passed in Er.
Qed.

Lemma offered_form c a : form c → offers (W := W) c a →
  match a with Now f => form (f c) ∧ wz_step (f c) ≠ 4 | a => begun a end.
Proof.
  intros G O. pose proof G as [G1 G2].
  destruct O as [E|Hs|t Hs|Hs Ht|k Hs Ht|l Hs Ht|d vis tk Hs Ht|src Hs Ht _ _|Hs Ht _|Hs Ht _]; try done.
  - pose proof (footer_form c G E) as F. by destruct (next_action c).
  - unfold handleBack, form. destruct (wz_step c) as [|[|[|[|[|[|n]]]]]] eqn:Es; try lia; cbn; rewrite ?Es; destruct (wz_type c) eqn:Et; cbn; rewrite ?Et;
      (split; [|lia]); (split; [lia|]); try (intros ?; lia); try (by intros _; apply G2; lia); lia.
  - unfold form. destruct t; cbn; rewrite ?Hs; (split; [|lia]); (split; [lia|]); try (intros ?; lia). by left.
  - unfold form. cbn. rewrite Hs. split; [|lia]. split; [lia|]. destruct (wz_type c); [intros ?; lia..|done].
  - unfold form. cbn. rewrite Hs. split; [|lia]. split; [lia|]. destruct (wz_type c); [intros ?; lia..|done].
  - unfold form. cbn. rewrite Hs. split; [|lia]. split; [lia|]. destruct (wz_type c); [intros ?; lia..|done].
  - unfold form. cbn. split; [|lia]. split; [lia|]. destruct (wz_type c); [intros _; apply G2; lia..|done].
  - unfold form. cbn. split; [|lia]. split; [lia|]. destruct (wz_type c); [intros _; apply G2; lia..|done].
Qed.

Lemma task_late a : match a with Now _ => True | _ => turns_by (late (pays a)) (task_of a) end.
Proof.
  destruct a; cbn -[turns_by]; [done|apply sending_late|apply uploading_late|apply connecting_late|apply picking_late|apply mounting_late].
Qed.

Lemma form_late b x t x' : form x.1 → late b x t x' → form x'.1.
Proof.
  unfold form. intros [G1 G2] (-> & -> & -> & [->|(_ & -> & _)]); [by split|]. split; [lia|].
  destruct (wz_type x.1); [intros ?; lia..|by right; right].
Qed.

(** A turn of a handler on a fit screen; its last turn may end a payment. *)
Lemma resume_fit u i : fit u → fit (resume i u).
Proof.
  intros [Hl Ht Hf Hb Hd]. destruct u as [as_ ts x]; cbn in *. unfold resume. cbn.
  destruct (ts !! i) as [[|m]|] eqn:Ei; [unfold turn; cbn; by rewrite Ei| |by rewrite turn_none].
  assert (Ea : is_Some (as_ !! i)) by (apply lookup_lt_is_Some; rewrite Hl; by eapply lookup_lt_Some).
  destruct Ea as [a Ea]. destruct (turn_by (late (pays a)) ts i x (Await m) Ei) as [->|(t' & x' & -> & L & T)]; [by eapply Ht|done|].
  split; cbn; [by rewrite length_insert| |by eapply form_late|done|].
  - intros j b t2 Ej Et. apply list_lookup_insert_Some in Et as [(-> & -> & _)|(_ & Et)]; [|by eapply Ht].
    rewrite Ea in Ej. by injection Ej as <-.
  - intros H4. destruct L as (_ & _ & _ & [Hs|(Hp & _ & ->)]).
    + rewrite Hs in H4. destruct (Hd H4) as (j & b & Ej & Hp & Er). exists j, b. split; [done|]. split; [done|].
      rewrite list_lookup_insert_ne; [done|]. intros ->. by rewrite Ei in Er.
    + exists i, a. split; [done|]. split; [done|]. apply list_lookup_insert_eq. by eapply lookup_lt_Some.
Qed.

Lemma settled_one_more as_ ts a t : settled_one as_ ts → settled_one (as_ ++ [a]) (ts ++ [t]).
Proof. intros (i & b & Ei & Hp & Er). exists i, b. split_and!; [by apply lookup_app_l_Some|done|by apply lookup_app_l_Some]. Qed.

(** An action that is no plain update begins with its first turn. *)
Lemma begin_late a u : begin a u = resume (length (us_left u)) (Use (us_started u ++ [a]) (us_left u ++ [task_of a]) (us_screen u)).
Proof. done. Qed.

Lemma started_fit a u : fit u → begun a → turns_by (late (pays a)) (task_of a) →
  fit (Use (us_started u ++ [a]) (us_left u ++ [task_of a]) (us_screen u)).
Proof.
  intros [Hl Ht Hf Hb Hd] Ha T. split; cbn.
  - by rewrite !length_app, Hl.
  - intros i b t Ei Et. apply lookup_app_Some in Ei as [Ei|[Hi Ei]].
    + rewrite lookup_app_l in Et; [by eapply Ht|]. rewrite <-Hl. by eapply lookup_lt_Some.
    + rewrite lookup_app_r in Et by lia. apply list_lookup_singleton_Some in Ei as [E0 <-].
      rewrite Hl in E0. rewrite E0 in Et. by injection Et as <-.
  - done.
  - intros b Hin. apply elem_of_app in Hin as [Hin| ->%list_elem_of_singleton]; [by apply Hb|done].
  - intros H4. apply settled_one_more. by apply Hd.
Qed.

Lemma begin_now f as_ ts s v : begin (Now f) (Use as_ ts (s, v)) = Use (as_ ++ [Now f]) (ts ++ [Rest]) (f s, v).
Proof.
  unfold begin, turn. cbn [us_left us_started us_screen fst snd]. rewrite list_lookup_middle by done.
  change (Use (as_ ++ [Now f]) (<[length ts := Rest]> (ts ++ [task_of (Now f)])) (f s, v) = Use (as_ ++ [Now f]) (ts ++ [Rest]) (f s, v)).
  f_equal. rewrite insert_app_r_alt by done. by rewrite Nat.sub_diag.
Qed.

Lemma now_fit f u : fit u → form (f (us_screen u).1) ∧ wz_step (f (us_screen u).1) ≠ 4 → fit (begin (Now f) u).
Proof.
  intros [Hl Ht Hf Hb Hd] [Ff F4]. destruct u as [as_ ts [s v]]; cbn in *. rewrite begin_now.
  split; cbn; [by rewrite !length_app, Hl| |done| |done].
  - intros i b t Ei Et. apply lookup_app_Some in Et as [Et|[Hi Et]]; [|by apply list_lookup_singleton_Some in Et as [_ <-]].
    rewrite lookup_app_l in Ei; [by eapply Ht|]. rewrite Hl. by eapply lookup_lt_Some.
  - intros b Hin. apply elem_of_app in Hin as [Hin| ->%list_elem_of_singleton]; [by apply Hb|done].
Qed.

Lemma begin_fit a u : fit u → offers (W := W) (us_screen u).1 a → fit (begin a u).
Proof.
  intros F O. pose proof (offered_form _ a (fit_form u F) O) as G. pose proof (task_late a) as T.
  destruct a as [f|c|c|src| |]; [by apply now_fit|..]; rewrite begin_late; by apply resume_fit, started_fit.
Qed.

Lemma same_form_fit u s v : fit u → wz_step s = wz_step (us_screen u).1 → wz_type s = wz_type (us_screen u).1 →
  lk_recipient (wz_lookup s) = lk_recipient (wz_lookup (us_screen u).1) → wz_amount s = wz_amount (us_screen u).1 →
  fit (Use (us_started u) (us_left u) (s, v)).
Proof.
  intros [Hl Ht Hf Hb Hd] Es Et El Ea. split; cbn; try done.
  - unfold form in *. by rewrite Es, Et, El, Ea.
  - intros H4. apply Hd. congruence.
Qed.

Definition keeps_form (s s' : wizard) : Prop :=
  wz_step s' = wz_step s ∧ wz_type s' = wz_type s ∧ wz_lookup s' = wz_lookup s ∧ wz_amount s' = wz_amount s.
#[export] Instance keeps_form_preorder : PreOrder keeps_form.
Proof. split; [done|]. intros s1 s2 s3 (a1 & b1 & c1 & d1) (a2 & b2 & c2 & d2). repeat split; congruence. Qed.
Lemma fee_keeps : within (W := world) keeps_form fee_effect.
Proof. unfold fee_effect. by frame. Qed.

Lemma move_fit u u' : fit u → moves u u' → fit u'.
Proof.
  intros F St. revert F. destruct St as [a u1 O|i u1|l as_ ts c v Hl|as_ ts [s v]]; intros F.
  - by apply begin_fit.
  - by apply resume_fit.
  - by apply (same_form_fit _ (set_lookup l c) v F).
  - destruct (fee_keeps s v) as (E1 & E2 & E3 & E4). destruct (fee_effect (s, v)) as [r [s' v']]. cbn in *.
    apply (same_form_fit _ s' v' F); cbn; congruence.
Qed.

Lemma opened_fit v : fit (opened v).
Proof.
  unfold opened. rewrite begin_late. apply resume_fit, started_fit; [|done|apply mounting_late].
  split; cbn; try done; [|intros a Ha; by apply elem_of_nil in Ha].
  unfold form. cbn. split; [lia|]. intros ?; lia.
Qed.

(** C3: whatever the user taps while payments, uploads, wallet connections and file readings
    are under way, and in whatever order these go on: the transfer screen only reaches its six
    steps, and the summary, confirmation and wallet steps only with a recipient and an amount;
    every payment under way was confirmed on the confirmation step with a recipient and an
    amount, with no other one known to be submitting, and every upload on the preview of the
    list; the success step is reached only by a payment or an upload that has come to its end,
    and offers no action at all. *)
Theorem wizard_steps v u : rtc moves (opened v) u →
  form (us_screen u).1 ∧ (∀ a, a ∈ us_started u → begun a) ∧
  (wz_step (us_screen u).1 = 4 → settled_one (us_started u) (us_left u) ∧ ∀ a, ¬ offers (W := W) (us_screen u).1 a).
Proof.
  intros R. assert (F : fit u).
  { pose proof (opened_fit v) as F0. revert F0. induction R; eauto using move_fit. }
  split; [apply F|]. split; [apply F|]. intros Hs. split; [by apply F|].
  intros a O. destruct O as [[m E]| | | | | | | | |]; try congruence; try lia.
  unfold footer in E. rewrite Hs in E. cbn [Nat.eqb] in E. by destruct (wz_type _); rewrite ?orb_true_r in E.
Qed.
(** *** Sending *)

(** C4: the last step sends nothing unless the system passed the identity prompt: a
    dismissed prompt changes nothing, any other refusal raises an alert. A passed one runs
    the payment of the state the button was rendered with, whatever the state is by then:
    success moves to the success step, any failure raises its message and keeps the step. *)
Theorem send_outcome c s v : wz_step c = 3 → ∃ r v1 s' v2,
  host (Onboarding.authenticateWithBiometrics CONFIRM) v = (Ok r, v1) ∧
  (r = Onboarding.AuthSuccess → ∃ o w0 e, Onboarding.po_message o = CONFIRM ∧ Onboarding.authenticateAsync o w0 = (Ok (true, e), v1.2)) ∧
  handleNext c (s, v) = (Ok tt, (s', v2)) ∧
  match r with
  | Onboarding.AuthFailure Onboarding.cancelled _ => s' = s ∧ v2 = v1
  | Onboarding.AuthFailure _ _ => s' = add_alert auth_required s ∧ v2 = v1
  | Onboarding.AuthSuccess => ∃ o, send c v1 = (o, v2) ∧
      s' = match o with
           | Ok _ => set_step 4 (set_submitting false (set_submitting true s))
           | Throw e => set_submitting false (add_alert (js "Transfer Failed", err_message e) (set_submitting true s))
           end
  end.
Proof.
  intros Hc. destruct v as [l w]. destruct (Onboarding.authenticate_cases CONFIRM w) as (r & w1 & E & C).
  assert (Eh : host (Onboarding.authenticateWithBiometrics CONFIRM) (l, w) = (Ok r, (l, w1))) by (by apply run_host).
  assert (En : handleNext c (s, (l, w)) = confirm_and_send c (s, (l, w))) by (unfold handleNext; by rewrite Hc).
  rewrite En. unfold confirm_and_send. rewrite (run_bind_ok _ _ _ _ _ (run_host _ _ _ _ _ Eh)).
  assert (P : r = Onboarding.AuthSuccess → ∃ o w0 e, Onboarding.po_message o = CONFIRM ∧ Onboarding.authenticateAsync o w0 = (Ok (true, e), w1)).
  { intros ->. destruct C as [[m ?]|(d & o & w0 & [b e] & _ & Ho & Ea & Ev)]; [done|]. symmetry in Ev. apply Onboarding.prompt_verdict_success in Ev as [=->]. by exists o, w0, e. }
  exists r, (l, w1). destruct r as [|[] m].
  2-6: eexists _, _; (split; [done|]); (split; [done|]); (split; [reflexivity|done]).
  rewrite (run_bind_ok _ _ _ _ _ (run_modify_state _ _ _)). destruct (send c (l, w1)) as [[[]|e] v2] eqn:Es.
  - eexists _, v2. split; [done|]. split; [done|]. split; [|by exists (Ok tt)].
    unfold try_catch. rewrite run_bind, (run_bind_ok _ _ _ _ _ (run_host _ _ _ _ _ Es)). reflexivity.
  - eexists _, v2. split; [done|]. split; [done|]. split; [|by exists (Throw e)].
    unfold try_catch. rewrite run_bind, (run_bind_throw _ _ _ _ _ (run_host _ _ _ _ _ Es)). reflexivity.
Qed.

Lemma save_recent_ok u w : ∃ w', saveRecentRecipient u w = (Ok tt, w').
Proof.
  unfold saveRecentRecipient. destruct (truthy u); cbn [negb]; [|by eexists]. unfold try_catch. match goal with |- context [match ?m with _ => _ end] => destruct m as [[[]|] ?] end; by eexists.
Qed.

(** The pending transfers as [record_transfer] reads them; [None] where it throws. *)
Definition stored_list (stored : option str) : option (list json) :=
  match stored with
  | Some t => if truthy t then match json_parse t with Some (JArr l) => Some l | _ => None end else Some []
  | None => Some []
  end.

Lemma record_run c hash w : st_live w → ∃ r w', record_transfer c hash w = (r, w') ∧
  match stored_list (st_peek w AsyncStorage PENDING_KEY) with
  | Some l => r = Ok tt ∧ st_peek w' AsyncStorage PENDING_KEY = Some (stringify (JArr (pending_entry c hash :: l)))
  | None => ∃ e, r = Throw e
  end.
Proof.
  intros L. destruct (get_live AsyncStorage PENDING_KEY w L) as (w1 & E1 & K1). assert (L1 : st_live w1) by by apply K1.
  unfold record_transfer, write_pending, stored_list, JSON_parse. rewrite (run_bind_ok _ _ _ _ _ E1).
  assert (Put : ∀ l, ∃ r w', (mret (JArr l) ≫= λ list : json, match list with
      | JArr l => st_set AsyncStorage PENDING_KEY (stringify (JArr (pending_entry c hash :: l)))
      | _ => throw type_error end) w1 = (r, w') ∧ r = Ok tt ∧ st_peek w' AsyncStorage PENDING_KEY = Some (stringify (JArr (pending_entry c hash :: l)))).
  { intros l. destruct (set_live AsyncStorage PENDING_KEY (stringify (JArr (pending_entry c hash :: l))) w1 L1) as (w2 & E2 & S2).
    exists (Ok tt), w2. split; [exact E2|]. split; [done|apply S2]. }
  destruct (st_peek w AsyncStorage PENDING_KEY) as [t|]; [|apply Put]. destruct (truthy t); [|apply Put].
  destruct (json_parse t) as [[]|]; try (eexists _, _; split; [reflexivity|by eexists]). apply Put.
Qed.

(** C25: once the network has the payment, the screen reports success exactly if the list of
    pending transfers can be read: the new entry then stands first in it. Otherwise the
    payment that was made is reported as failed, the step is kept and the button offers to
    pay again. *)
Theorem payment_then_record c v wallet p l w2 : wz_wallet c = Some wallet → pay c wallet v = (Ok p, (l, w2)) → st_live w2 →
  match stored_list (st_peek w2 AsyncStorage PENDING_KEY) with
  | Some stored => ∃ w3 w4, record_transfer c (pay_hash p) w2 = (Ok tt, w3) ∧ send c v = (Ok tt, (l, w4)) ∧
      st_peek w3 AsyncStorage PENDING_KEY = Some (stringify (JArr (pending_entry c (pay_hash p) :: stored)))
  | None => ∃ e w3, send c v = (Throw e, (l, w3)) ∧
      ∀ s, wz_step s = 3 → wz_type s ≠ BATCH →
        let s' := set_submitting false (add_alert (js "Transfer Failed", err_message e) (set_submitting true s)) in
        footer (W := W) s' = Some (handleNext s')
  end.
Proof.
  intros Hw Ep L. unfold send. rewrite Hw. rewrite (run_bind_ok (mret wallet : M world _) _ v v wallet eq_refl), (run_bind_ok _ _ _ _ _ Ep).
  destruct (record_run c (pay_hash p) w2 L) as (r & w3 & Er & P). destruct (stored_list _) as [stored|].
  - destruct P as [-> P]. destruct (save_recent_ok (lk_recipient (wz_lookup c)) w3) as (w4 & E4). exists w3, w4.
    by rewrite (run_bind_ok _ _ _ _ _ (run_host _ _ _ _ _ Er)), (run_host _ _ _ _ _ E4).
  - destruct P as [e ->]. exists e, w3. rewrite (run_bind_throw _ _ _ _ _ (run_host _ _ _ _ _ Er)). split; [done|].
    intros s Hs3 Hb. unfold footer. cbn. rewrite Hs3. by destruct (wz_type s).
Qed.

(** submitting a payout list sends exactly the valid items of the file, also when other
    rows were refused. A good answer moves to the success step, any other keeps the step and
    raises an alert with the body or the status, and the button is free again. *)
Theorem batch_submit_outcome c s l w : st_live w → wz_type c = BATCH → wz_step c = 2 → wz_uploading c = false → ∃ token rq r s' w',
  footer c = Some (handleSubmitBatch c) ∧ handleSubmitBatch c (s, (l, w)) = (Ok tt, (s', (l, w'))) ∧
  rq = batch_request (wz_items c) token ∧ net_trace w' = net_trace w ++ [(rq, r)] ∧ token = st_peek w AsyncStorage (js "auth_token") ∧
  wz_uploading s' = false ∧
  match r with
  | Ok res => if rs_ok res then wz_step s' = 4 ∧ wz_alerts s' = wz_alerts s
              else wz_step s' = wz_step s ∧ wz_alerts s' = wz_alerts s ++ [(js "Upload Failed", if truthy (rs_body res) then rs_body res else js "HTTP " ++ Z_to_str (rs_status res))]
  | Throw e => wz_step s' = wz_step s ∧ wz_alerts s' = wz_alerts s ++ [(js "Upload Failed", err_message e)]
  end.
Proof.
  intros L Ht Hs Hu. destruct (get_live AsyncStorage (js "auth_token") w L) as (w1 & E1 & K1).
  set (token := st_peek w AsyncStorage (js "auth_token")) in *.
  destruct (fetch_spec (batch_request (wz_items c) token) w1) as (r & w2 & E2 & S2).
  assert (T : net_trace w2 = net_trace w ++ [(batch_request (wz_items c) token, r)]) by by rewrite (sent_trace _ _ _ _ S2), (kept_trace _ _ K1).
  assert (F : footer (W := W) c = Some (handleSubmitBatch c)) by (unfold footer; by rewrite Ht, Hs, Hu).
  assert (G1 : host (host (st_get AsyncStorage (js "auth_token"))) (set_uploading true s, (l, w)) = (Ok token, (set_uploading true s, (l, w1)))) by (by apply run_host, run_host).
  assert (G2 : host (host (fetch (batch_request (wz_items c) token))) (set_uploading true s, (l, w1)) = (r, (set_uploading true s, (l, w2)))) by (by apply run_host, run_host).
  unfold handleSubmitBatch. rewrite (run_bind_ok _ _ _ _ _ (run_modify_state _ _ _)), run_bind. unfold try_catch.
  rewrite (run_bind_ok _ _ _ _ _ G1), run_bind, G2.
  destruct r as [res|e]; [destruct (rs_ok res) eqn:Eo|]; eexists token, (batch_request (wz_items c) token), _, _, w2; (split; [exact F|]); cbn [negb]; rewrite ?Eo; (split; [reflexivity|]); (split; [done|]); (split; [exact T|]); (split; [done|]); (split; [done|]); by rewrite ?Eo.
Qed.
End Spec.
End Wizard.

(** ** Runs on a scripted host *)

Module Runs.
Import BatchCsv Recipient Wizard.
#[local] Existing Instance ascii_case.
#[local] Existing Instance StellarWallet.Runs.demo_env.
#[local] Existing Instance StellarWallet.Runs.demo_sdk.
#[local] Existing Instance StellarWallet.Runs.no_extension.

Definition demo_item : BatchPayoutItem :=
  MkItem [] (js "Ada") (js "G" ++ replicate 55 65%N) (js "12.5") (js "usdc") Pending.

#[local] Instance demo_sensor : Onboarding.Sensor scripted := {|
  Onboarding.hasHardwareAsync w := (Ok true, w);
  Onboarding.isEnrolledAsync w := (Ok true, w);
  Onboarding.authenticateAsync _ w := (Ok (true, None), w);
|}.
(** The file that is picked holds one item when it is read first, and nothing afterwards. *)
#[local] Instance demo_picker : FilePicker scripted := {|
  getDocumentAsync w := (Ok (Chosen (Some (js "list.csv"))), w);
  readAsStringAsync _ w := match sc_online w with
    | Some _ => (Ok (csv_text [demo_item]), Scripted (sc_stores w) (sc_dead w) (sc_replies w) (sc_trace w) None (sc_clock w) (sc_random w))
    | None => (Ok [], w)
    end |}.
#[local] Instance demo_engine : Engine := λ name, new_error (name ++ js " is not defined").

Lemma plain_word c : Forall (λ a, is_ws a = false) c → c ≠ [] → 44%N ∉ c → 10%N ∉ c → 34%N ∉ c → plain_cell c.
Proof.
  intros Hf Hn H1 H2 H3. split; [|done]. split.
  - destruct c as [|a c]; [done|]. apply Forall_cons in Hf as [Ha _]. by exists a, c.
  - destruct c as [|a c _] using rev_ind; [done|]. apply Forall_app in Hf as [_ [Ha _]%Forall_cons]. by exists a, c.
Qed.

Lemma csv_reads_back_witness : parseCSV (csv_text [demo_item]) =
  Parsed [MkItem (js "item-1") (js "Ada") (js "G" ++ replicate 55 65%N) (js "12.5") (js "USDC") Pending] [].
Proof.
  refine (proj1 (csv_reads_back [demo_item] _ _)); [discriminate|]. apply Forall_singleton. split.
  - repeat apply Forall_cons_2; try apply Forall_nil_2; (apply plain_word; [| discriminate | | |]; apply (bool_decide_unpack _); vm_compute; exact I).
  - split; [discriminate|split; [reflexivity|vm_compute; lia]|split; reflexivity|reflexivity].
Defined.

Example mixed_currencies : preview [demo_item; MkItem [] [] [] (js "1e1") (js "XLM") Pending] = Some (js "22.50", js "usdc", 2).
Proof. vm_compute. reflexivity. Qed.

(** "bobby" is flagged; the late answer for "bob" unblocks it. *)
Definition late_answer : list field_event :=
  [Typed (js "bob"); SearchDue; Typed (js "bobby"); SearchDue;
   Answered 1 (reply 200 (stringify (JObj [(js "is_blacklisted", JBool true)]))); Answered 0 (reply 200 (js "{}"))].

Definition blank_field : field := Field initial_lookup None None [].

Example late_answer_unblocks :
  lk_recipient (fd_lookup (field_run late_answer blank_field)) = js "bobby" ∧
  review_disabled true (js "5") (fd_lookup (field_run (take 5 late_answer) blank_field)) = true ∧
  review_disabled true (js "5") (fd_lookup (field_run late_answer blank_field)) = false.
Proof. by split_and!; vm_compute. Qed.

Lemma review_follows_last_answer_witness :
  review_disabled true (js "5") (fd_lookup (field_step (Typed (js "bobby")) blank_field)) = false.
Proof. by apply (review_follows_last_answer [] blank_field eq_refl). Defined.

Definition ready : wizard :=
  set_wallet (Some (MkStellarWallet (js "GSKEY") true (Some SLocal)))
    (set_amount (js "10") (set_lookup (set_recipient (js "GDEST") initial_lookup) (set_step 3 initial_wizard))).

Definition funded : scripted := world [(AsyncStorage, KEY_STORAGE_KEY, js "SKEY")] [reply 200 (js "{}"); reply 200 (js "{}")].
Definition spoilt : scripted := world [(AsyncStorage, KEY_STORAGE_KEY, js "SKEY"); (AsyncStorage, PENDING_KEY, js "oops")] [reply 200 (js "{}")].

(** The taps up to the confirmation of a payment, then Back twice and an emptied form while it
    is under way; its last turns move to the success step. *)
Definition to_recipient : lookup := set_recipient (js "GDEST") initial_lookup.
Definition tap (u : use) : use := begin (next_action (us_screen u).1) u.
Definition confirmed : use :=
  tap (tap (tap (begin (Now (handleKeypadPress (js "1"))) (begin (Now (set_lookup to_recipient)) (tap (resume 0 (opened (UiLog [] [], funded)))))))).
Definition emptied : use :=
  begin (Now (set_lookup initial_lookup)) (begin (Now (handleKeypadPress (js "backspace")))
    (begin (Now handleBack) (begin (Now handleBack) (resume 6 confirmed)))).
Definition succeeded : use := Nat.iter 4 (resume 6) emptied.

Lemma footer_on (c : wizard) : (if footer (W := scripted) c is Some _ then true else false) = true → is_Some (footer (W := scripted) c).
Proof. by destruct (footer c). Qed.

Ltac tap_footer := apply MoveBegin, OfferFooter, footer_on; vm_compute; reflexivity.
Ltac by_moves k := eapply rtc_r; [|k].

Lemma confirmed_reached : rtc moves (opened (UiLog [] [], funded)) confirmed.
Proof.
  unfold confirmed. do 3 (by_moves tap_footer). by_moves ltac:(apply MoveBegin, OfferKey; [vm_compute; reflexivity|discriminate]).
  by_moves ltac:(apply MoveBegin, OfferLookup; [vm_compute; reflexivity|discriminate]). by_moves tap_footer.
  by_moves ltac:(apply MoveResume). reflexivity.
Qed.

Lemma succeeded_reached : rtc moves (opened (UiLog [] [], funded)) succeeded.
Proof.
  unfold succeeded, Nat.iter, emptied. cbn [nat_rect]. do 4 (by_moves ltac:(apply MoveResume)).
  by_moves ltac:(apply MoveBegin, OfferLookup; [vm_compute; reflexivity|vm_compute; discriminate]).
  by_moves ltac:(apply MoveBegin, OfferKey; [vm_compute; reflexivity|vm_compute; discriminate]).
  do 2 (by_moves ltac:(apply MoveBegin, OfferBack; vm_compute; discriminate)).
  by_moves ltac:(apply MoveResume). apply confirmed_reached.
Qed.

Lemma wizard_steps_witness : form (us_screen succeeded).1 ∧ wz_step (us_screen succeeded).1 = 4 ∧
  settled_one (us_started succeeded) (us_left succeeded).
Proof.
  destruct (wizard_steps (UiLog [] [], funded) succeeded succeeded_reached) as (F & _ & H4).
  assert (E : wz_step (us_screen succeeded).1 = 4) by (vm_compute; reflexivity).
  split; [exact F|]. split; [exact E|]. apply (H4 E).
Defined.

(** Back stays enabled while a payment is under way, and the success step then shows over a
    form that is empty: the payment went to the recipient and the amount of its confirmation. *)
Theorem success_over_emptied_form : ∃ u, rtc moves (opened (UiLog [] [], funded)) u ∧
  wz_step (us_screen u).1 = 4 ∧ wz_amount (us_screen u).1 = [] ∧ lk_recipient (wz_lookup (us_screen u).1) = [].
Proof. exists succeeded. split; [apply succeeded_reached|]. by split_and!; vm_compute. Qed.

(** Two readings of the file under way: the second settles after the preview was opened. *)
Definition picked_twice : use :=
  resume 2 (resume 3 (begin Picking (resume 2 (begin Picking (begin (Now (choose BATCH)) (opened (UiLog [] [], funded))))))).
Definition uploaded_empty : use := tap (resume 3 (tap picked_twice)).

Lemma uploaded_reached : rtc moves (opened (UiLog [] [], funded)) uploaded_empty.
Proof.
  unfold uploaded_empty, picked_twice. by_moves tap_footer. by_moves ltac:(apply MoveResume). by_moves tap_footer.
  do 2 (by_moves ltac:(apply MoveResume)). by_moves ltac:(apply MoveBegin, OfferPick; vm_compute; reflexivity).
  by_moves ltac:(apply MoveResume). by_moves ltac:(apply MoveBegin, OfferPick; vm_compute; reflexivity).
  by_moves ltac:(apply MoveBegin, OfferChoose; vm_compute; reflexivity). reflexivity.
Qed.

(** The preview of a payout list can be emptied under the button that submits it. *)
Theorem empty_list_uploaded : ∃ u c, rtc moves (opened (UiLog [] [], funded)) u ∧
  last (us_started u) = Some (Uploading c) ∧ wz_items c = [].
Proof.
  exists uploaded_empty, (us_screen (resume 3 (tap picked_twice))).1. split; [apply uploaded_reached|].
  by split; vm_compute.
Qed.

Lemma send_outcome_witness : ∃ s' v2, handleNext ready (ready, (UiLog [] [], funded)) = (Ok tt, (s', v2)).
Proof. destruct (send_outcome ready ready (UiLog [] [], funded) eq_refl) as (r & v1 & s' & v2 & _ & _ & E & _). by exists s', v2. Defined.

(** Two taps before the first prompt settles pay twice. *)
Example two_taps : wz_step ((handleNext ready;; handleNext ready) (ready, (UiLog [] [], funded))).2.1 = 4 ∧
  length (net_trace ((handleNext ready;; handleNext ready) (ready, (UiLog [] [], funded))).2.2.2) = 2.
Proof. by split; vm_compute. Qed.

Lemma payment_then_record_witness : ∃ e w3, send ready (UiLog [] [], spoilt) = (Throw e, (UiLog [] [], w3)).
Proof.
  destruct (pay ready (MkStellarWallet (js "GSKEY") true (Some SLocal)) (UiLog [] [], spoilt)) as [[p|e] [l w2]] eqn:E; [|by vm_compute in E].
  pose proof (payment_then_record ready (UiLog [] [], spoilt) _ p l w2 eq_refl E) as P. vm_compute in E. injection E as <- <- <-.
  destruct (P (eq_refl false)) as (e & w3 & Es & _). by exists e, w3.
Defined.

Definition listed : wizard := set_batch [demo_item] [js "Row 2: amount is required."] (set_step 2 (set_type BATCH initial_wizard)).

Lemma batch_submit_outcome_witness : ∃ s' l' w', handleSubmitBatch listed (listed, (UiLog [] [], funded)) = (Ok tt, (s', (l', w'))) ∧ wz_uploading s' = false.
Proof.
  destruct (batch_submit_outcome listed listed (UiLog [] []) funded ltac:(exact (eq_refl false)) eq_refl eq_refl eq_refl) as (tk & rq & r & s' & w' & _ & E & _ & _ & _ & U & _).
  by exists s', (UiLog [] []), w'.
Defined.
End Runs.
