(* ===== verification/HomeScreen.v ===== *)
(** * The home screen

    Model of [mobileapp/app/(personal)/home.tsx] and [mobileapp/src/utils/balanceDisplay.ts]:
    the payment feed with its cache, likes and comments, the yield card with its requests,
    the display currency and the notification prompt. *)

From S2P Require Import Prelude JsString JsNumber JsRound JsDate Json Effects Decode Scripts MobileApi Retry MobileServices Notifications.

(** ** The feed *)

Module PaymentFeed.
Import Social.

Inductive visibility := PUBLIC | FRIENDS | PRIVATE.

#[export] Instance visibility_eq_dec : EqDecision visibility.
Proof. solve_decision. Defined.

Definition visibility_text (v : visibility) : str :=
  match v with PUBLIC => js "PUBLIC" | FRIENDS => js "FRIENDS" | PRIVATE => js "PRIVATE" end.
Definition visibility_of (s : str) : option visibility :=
  if str_eqb s (js "PUBLIC") then Some PUBLIC else if str_eqb s (js "FRIENDS") then Some FRIENDS
  else if str_eqb s (js "PRIVATE") then Some PRIVATE else None.

Record FeedItem := MkFeedItem {
  fi_id : str; fi_sender : str; fi_receiver : str; fi_amount : str; fi_description : str; fi_timestamp : str;
  fi_likes : Z; fi_comments : Z; fi_hasLiked : bool; fi_visibility : visibility;
}.

#[export] Instance feed_item_codec : Codec FeedItem := {
  to_json i := literal [present (js "id") (JStr (fi_id i)); present (js "sender") (JStr (fi_sender i));
    present (js "receiver") (JStr (fi_receiver i)); present (js "amount") (JStr (fi_amount i));
    present (js "description") (JStr (fi_description i)); present (js "timestamp") (JStr (fi_timestamp i));
    present (js "likes") (JNum (Fin (fi_likes i) 0)); present (js "comments") (JNum (Fin (fi_comments i) 0));
    present (js "hasLiked") (JBool (fi_hasLiked i)); present (js "visibility") (JStr (visibility_text (fi_visibility i)))];
  of_json v :=
    id ← field_str (js "id") v; sender ← field_str (js "sender") v; receiver ← field_str (js "receiver") v;
    amount ← field_str (js "amount") v; description ← field_str (js "description") v;
    timestamp ← field_str (js "timestamp") v; likes ← field_int (js "likes") v; comments ← field_int (js "comments") v;
    hasLiked ← field_bool (js "hasLiked") v; vis ← field_str (js "visibility") v ≫= visibility_of;
    Some (MkFeedItem id sender receiver amount description timestamp likes comments hasLiked vis);
  storable i := safe_int (fi_likes i) ∧ safe_int (fi_comments i);
}.

#[export] Instance feed_item_codec_laws : CodecLaws FeedItem.
Proof.
  split; intros [id s r a d t l c h v] [Hl Hc]; cbn [to_json of_json feed_item_codec fi_id fi_sender fi_receiver fi_amount fi_description fi_timestamp fi_likes fi_comments fi_hasLiked fi_visibility] in *.
  - read_literal. by destruct v.
  - solve_literal_ok; [exact Hl|exact Hc].
Qed.

Definition like_count (i : FeedItem) (liked : bool) (likes : Z) : FeedItem :=
  MkFeedItem (fi_id i) (fi_sender i) (fi_receiver i) (fi_amount i) (fi_description i) (fi_timestamp i) likes (fi_comments i) liked (fi_visibility i).
Definition comment_count (i : FeedItem) (comments : Z) : FeedItem :=
  MkFeedItem (fi_id i) (fi_sender i) (fi_receiver i) (fi_amount i) (fi_description i) (fi_timestamp i) (fi_likes i) comments (fi_hasLiked i) (fi_visibility i).

(** [prev.map((f) => f.id === id ? g(f) : f)] *)
Definition on_item (id : str) (g : FeedItem → FeedItem) (feed : list FeedItem) : list FeedItem :=
  (λ f, if str_eqb (fi_id f) id then g f else f) <$> feed.

(** A comment in the drawer; a saved one takes its fields from the answer. *)
Record Comment := MkComment { cm_id : option json; cm_user : json; cm_text : option json }.

Record home := Home {
  hm_feed : list FeedItem;
  hm_friends_tab : bool;
  hm_refreshing : bool;
  hm_modal : bool;
  hm_selected : option FeedItem;
  hm_text : str;
  hm_comments : list Comment;
  hm_crashed : bool;             (** an update threw while rendering *)
}.

Definition set_feed v s := Home v (hm_friends_tab s) (hm_refreshing s) (hm_modal s) (hm_selected s) (hm_text s) (hm_comments s) (hm_crashed s).
Definition map_feed f s := set_feed (f (hm_feed s)) s.
Definition set_tab v s := Home (hm_feed s) v (hm_refreshing s) (hm_modal s) (hm_selected s) (hm_text s) (hm_comments s) (hm_crashed s).
Definition set_refreshing v s := Home (hm_feed s) (hm_friends_tab s) v (hm_modal s) (hm_selected s) (hm_text s) (hm_comments s) (hm_crashed s).
Definition set_text v s := Home (hm_feed s) (hm_friends_tab s) (hm_refreshing s) (hm_modal s) (hm_selected s) v (hm_comments s) (hm_crashed s).
Definition map_comments f s := Home (hm_feed s) (hm_friends_tab s) (hm_refreshing s) (hm_modal s) (hm_selected s) (hm_text s) (f (hm_comments s)) (hm_crashed s).
Definition crash s := Home (hm_feed s) (hm_friends_tab s) (hm_refreshing s) (hm_modal s) (hm_selected s) (hm_text s) (hm_comments s) true.

Definition openComments (item : FeedItem) (s : home) : home :=
  Home (hm_feed s) (hm_friends_tab s) (hm_refreshing s) true (Some item) [] [] (hm_crashed s).

(** The rows of the chosen tab. *)
Definition shown_in (friends : bool) (item : FeedItem) : bool :=
  if bool_decide (fi_visibility item = PRIVATE) then false
  else if friends then
    bool_decide (fi_visibility item = FRIENDS) || str_eqb (fi_sender item) (js "Me") || str_eqb (fi_receiver item) (js "Me")
  else true.
Definition filteredFeed (s : home) : list FeedItem := List.filter (shown_in (hm_friends_tab s)) (hm_feed s).

Definition FEED_CACHE_KEY : str := js "feed_items_cache".

Definition row (id sender receiver amount description timestamp : str) (likes comments : Z) (hasLiked : bool) (v : visibility) : FeedItem :=
  MkFeedItem id sender receiver amount description timestamp likes comments hasLiked v.

(** The texts of the three sample rows beyond ASCII, as code units. *)
Definition naira : N := 8358.
Definition INITIAL_FEED : list FeedItem :=
  [row (js "1") (js "Ebube") (js "Tolu") (naira :: js "5,000") (js "Lunch " ++ [55356; 57173]%N) (js "2h ago") 5 2 false PUBLIC;
   row (js "2") (js "Ejembiii") (js "Amina") (naira :: js "12,500") (js "Concert tickets " ++ [55356; 57247; 65039]%N) (js "5h ago") 12 4 true PUBLIC;
   row (js "3") (js "Tunde") (js "Chidi") (naira :: js "2,000") (js "Taxi ride " ++ [55357; 56981]%N) (js "1d ago") 2 0 false FRIENDS].

Definition initial_home : home := Home INITIAL_FEED false false false None [] [] false.

Section Actions.
Context `{Env : ApiEnv, Host W}.
Abbreviation screen := (M (home * (ui_log * W))).

(** A fresh feed replaces rows and cache unless it is empty. *)
Definition take_fresh : screen unit :=
  data ← host fetchFeed;
  fresh ← cast data;
  match (fresh : list FeedItem) with
  | [] => mret tt
  | _ => modify_state (set_feed fresh);; host (host (st_set AsyncStorage FEED_CACHE_KEY (to_text fresh)))
  end.

Definition read_cache : screen unit :=
  cached ← host (host (st_get AsyncStorage FEED_CACHE_KEY));
  match (cached : option str) with
  | None => mret tt
  | Some text => data ← JSON_parse text; feed ← cast data; modify_state (set_feed feed)
  end.

Definition loadFeed : screen unit :=
  try_catch read_cache (λ _, mret tt);;
  try_catch take_fresh (λ _, mret tt).

(** The feed part of a pull; the yield card reloads by itself. *)
Definition onPullRefresh : screen unit :=
  modify_state (set_refreshing true);;
  try_catch take_fresh (λ _, mret tt);;
  modify_state (set_refreshing false).

(** [handleLike], closed over the feed [rendered]. *)
Definition handleLike (rendered : list FeedItem) (id : str) : screen unit :=
  match find (λ f, str_eqb (fi_id f) id) rendered with
  | None => mret tt
  | Some currentItem =>
      let newHasLiked := negb (fi_hasLiked currentItem) in
      let newLikes := (if fi_hasLiked currentItem then fi_likes currentItem - 1 else fi_likes currentItem + 1)%Z in
      modify_state (map_feed (on_item id (λ f, like_count f newHasLiked newLikes)));;
      try_catch (host (if newHasLiked then likePayment id else unlikePayment id))
        (λ _, modify_state (map_feed (on_item id (λ f, like_count f (fi_hasLiked currentItem) (fi_likes currentItem)))))
  end.

Definition local_id (now : Z) : json := JStr (js "local-" ++ Z_to_str now).
Definition optimistic (now : Z) (text : str) : Comment := MkComment (Some (local_id now)) (JStr (js "Me")) (Some (JStr text)).

Definition has_id (i : json) (c : Comment) : bool :=
  match cm_id c, i with Some (JStr a), JStr b => str_eqb a b | _, _ => false end.

(** [saved.username || "Me"] *)
Definition saved_comment (saved : json) : Comment :=
  MkComment (json_get (js "id") saved)
    (if json_truthy (json_get (js "username") saved) then default JNull (json_get (js "username") saved) else JStr (js "Me"))
    (json_get (js "content") saved).

(** The update with the saved comment; reading [null] throws while rendering. *)
Definition replace_saved (now : Z) (saved : json) (s : home) : home :=
  if existsb (has_id (local_id now)) (hm_comments s) then
    match saved with
    | JNull => crash s
    | _ => map_comments (fmap (λ c, if has_id (local_id now) c then saved_comment saved else c)) s
    end
  else s.

(** [submitComment], closed over the state [c]. *)
Definition submitComment (c : home) : screen unit :=
  let trimmed := trim (hm_text c) in
  match hm_selected c with
  | Some selectedItem =>
      if negb (truthy trimmed) then mret tt
      else
        let paymentId := fi_id selectedItem in
        now ← host (host date_now);
        modify_state (λ s, set_text [] (map_comments (λ l, l ++ [optimistic now trimmed]) s));;
        modify_state (map_feed (on_item paymentId (λ i, comment_count i (fi_comments i + 1))));;
        try_catch
          (saved ← host (addComment paymentId trimmed);
           modify_state (replace_saved now saved))
          (λ _,
            modify_state (map_comments (List.filter (λ x, negb (has_id (local_id now) x))));;
            modify_state (map_feed (on_item paymentId (λ i, comment_count i (Z.max 0 (fi_comments i - 1))))))
  | None => mret tt
  end.
End Actions.

(** *** Properties *)

Section Spec.
Context `{Env : ApiEnv, HostLaws W}.

Lemma on_item_id id g feed : (∀ f, f ∈ feed → fi_id f = id → g f = f) → on_item id g feed = feed.
Proof.
  intros Hg. unfold on_item. rewrite <-(list_fmap_id feed) at 2. apply list_fmap_ext. intros j f Hj. cbn.
  destruct (str_eqb (fi_id f) id) eqn:E; [|done]. apply str_eqb_true in E. apply Hg; [by eapply list_elem_of_lookup_2|done].
Qed.

Lemma on_item_twice id g h feed : (∀ f, fi_id (g f) = fi_id f) → on_item id h (on_item id g feed) = on_item id (h ∘ g) feed.
Proof.
  intros Hg. unfold on_item. rewrite <-list_fmap_compose. apply list_fmap_ext. intros j f _. cbn.
  destruct (str_eqb (fi_id f) id) eqn:E; [by rewrite Hg, E|by rewrite E].
Qed.

Lemma found_item id feed item : find (λ f, str_eqb (fi_id f) id) feed = Some item → item ∈ feed ∧ fi_id item = id.
Proof. intros [Hi Hs]%find_some. split; [by apply list_elem_of_In|by apply str_eqb_true]. Qed.

Lemma only_item feed item f : NoDup (fi_id <$> feed) → item ∈ feed → f ∈ feed → fi_id f = fi_id item → f = item.
Proof.
  intros Hn Hi Hf E. apply list_elem_of_lookup in Hi as [i Hi], Hf as [j Hj].
  assert (i = j) as ->; [|congruence]. apply (NoDup_lookup _ _ _ (fi_id item) Hn); rewrite list_lookup_fmap, ?Hi, ?Hj; cbn; congruence.
Qed.

(** The row a tap leaves behind. *)
Definition toggled (item f : FeedItem) : FeedItem :=
  like_count f (negb (fi_hasLiked item)) (if fi_hasLiked item then fi_likes item - 1 else fi_likes item + 1)%Z.

(** a tap on the heart asks the backend for the opposite of what the tapped row shows and
    leaves the row toggled if it answers. If it does not, the row gets back the mark and the
    count it had when it was tapped: exactly the former feed, unless a refresh came between,
    whose fresh count is then overwritten with the old one. *)
Theorem like_settles rendered id item s v : find (λ f, str_eqb (fi_id f) id) rendered = Some item → ∃ r v',
  (if fi_hasLiked item then unlikePayment id else likePayment id) v = (r, v') ∧
  handleLike rendered id (s, v) = (Ok tt, (set_feed (on_item id (match r with Ok _ => toggled item | Throw _ => λ f, like_count f (fi_hasLiked item) (fi_likes item) end) (hm_feed s)) s, v')) ∧
  (∀ e, r = Throw e → hm_feed s = rendered → NoDup (fi_id <$> rendered) →
     on_item id (λ f, like_count f (fi_hasLiked item) (fi_likes item)) (hm_feed s) = rendered).
Proof.
  intros Hf. destruct ((if fi_hasLiked item then unlikePayment id else likePayment id) v) as [r v'] eqn:E. exists r, v'. split; [done|]. split.
  - unfold handleLike. rewrite Hf. rewrite (run_bind_ok _ _ _ _ _ (run_modify_state _ _ _)). unfold try_catch.
    assert (E' : (if negb (fi_hasLiked item) then likePayment id else unlikePayment id) v = (r, v')) by (rewrite <-E; by destruct (fi_hasLiked item)).
    rewrite (run_host _ _ _ _ _ E'). destruct r as [[]|e]; [done|]. cbv beta iota. rewrite run_modify_state. unfold map_feed. cbn [hm_feed set_feed]. by rewrite on_item_twice.
  - intros e _ -> Hn. apply found_item in Hf as [Hi Hid]. apply on_item_id. intros f Hfin Ef. rewrite <-Hid in Ef.
    rewrite (only_item rendered item f Hn Hi Hfin Ef). by destruct item.
Qed.

(** What a mount makes of the cache and of the backend's answer. *)
Definition cached_feed (r : res (option str)) : option (list FeedItem) :=
  match r with Ok (Some text) => match of_text text with Some o => o | None => None end | _ => None end.
Definition fresh_feed (d : res json) : option (list FeedItem) :=
  match d with Ok v => match of_json v with Some (x :: l) => Some (x :: l) | _ => None end | Throw _ => None end.

Lemma cache_run s l w : ∃ r w1, st_get AsyncStorage FEED_CACHE_KEY w = (r, w1) ∧
  (read_cache (s, (l, w))).2 = (match cached_feed r with Some f => set_feed f s | None => s end, (l, w1)).
Proof.
  destruct (get_spec AsyncStorage FEED_CACHE_KEY w) as (r & w1 & E & _). exists r, w1. split; [done|]. unfold read_cache.
  assert (Eh : host (host (st_get AsyncStorage FEED_CACHE_KEY)) (s, (l, w)) = (r, (s, (l, w1)))) by (by apply run_host, run_host).
  rewrite run_bind, Eh. destruct r as [[text|]|e]; [|done..].
  cbn [cached_feed]. unfold JSON_parse, of_text, cast. destruct (json_parse text) as [v|]; [|done]. rewrite run_bind. cbn [mret M_ret fmap option_fmap option_map].
  by destruct (of_json v).
Qed.

Lemma fresh_run s l w : ∃ d l1 w1 w2, fetchFeed (l, w) = (d, (l1, w1)) ∧
  (take_fresh (s, (l, w))).2 = (match fresh_feed d with Some f => set_feed f s | None => s end, (l1, w2)) ∧
  ∀ f, fresh_feed d = Some f → st_live w1 → st_peek w2 AsyncStorage FEED_CACHE_KEY = Some (to_text f).
Proof.
  destruct (fetchFeed (l, w)) as [d [l1 w1]] eqn:E. exists d, l1, w1. unfold take_fresh.
  rewrite run_bind, (run_host _ _ _ _ _ E). destruct d as [v|e]; [|by exists w1]. cbn [fresh_feed]. unfold cast.
  destruct (of_json v) as [[|x f]|] eqn:Ef; [by exists w1| |by exists w1].
  destruct (set_spec AsyncStorage FEED_CACHE_KEY (to_text (x :: f)) w1) as (r & w2 & E2 & R). exists w2. split; [done|].
  assert (Eh : host (host (st_set AsyncStorage FEED_CACHE_KEY (to_text (x :: f)))) (set_feed (x :: f) s, (l1, w1)) = (r, (set_feed (x :: f) s, (l1, w2)))) by (by apply run_host, run_host).
  rewrite run_bind. cbn [mret M_ret]. rewrite (run_bind_ok _ _ _ _ _ (run_modify_state _ _ _)), Eh. split; [done|].
  intros f' [= <-] L. destruct R as [[_ S]|(_ & _ & N)]; [apply S|done].
Qed.

Lemma ignored {S V} (m : M (S * V) unit) s : ((try_catch m (λ _, mret tt)) s) = (Ok tt, (m s).2).
Proof. unfold try_catch. by destruct (m s) as [[[]|e] s']. Qed.

(** on mount the feed is the backend's unless that is missing, empty or unreadable, then
    the cached one, and only without either the rows it started with. A fresh feed is cached,
    and the cached text reads back as that feed. *)
Theorem load_feed_outcome s l w : ∃ r w1 d l1 w2 s' w3,
  st_get AsyncStorage FEED_CACHE_KEY w = (r, w1) ∧ fetchFeed (l, w1) = (d, (l1, w2)) ∧
  loadFeed (s, (l, w)) = (Ok tt, (s', (l1, w3))) ∧
  hm_feed s' = default (default (hm_feed s) (cached_feed r)) (fresh_feed d) ∧
  ∀ f, fresh_feed d = Some f → st_live w2 → st_peek w3 AsyncStorage FEED_CACHE_KEY = Some (to_text f) ∧
    (Forall storable f → cached_feed (Ok (Some (to_text f))) = Some f).
Proof.
  destruct (cache_run s l w) as (r & w1 & E1 & R1).
  set (s1 := match cached_feed r with Some f => set_feed f s | None => s end) in *.
  destruct (fresh_run s1 l w1) as (d & l1 & w2 & w3 & E2 & R2 & P). exists r, w1, d, l1, w2, (match fresh_feed d with Some f => set_feed f s1 | None => s1 end), w3. split; [done|]. split; [done|].
  split; [|split].
  - unfold loadFeed. rewrite (run_bind_ok _ _ _ _ _ (ignored _ _)), R1, ignored, R2. reflexivity.
  - destruct (fresh_feed d); [done|]. unfold s1. by destruct (cached_feed r).
  - intros f Hf L. split; [by apply P|]. intros Hs. cbn [cached_feed]. by rewrite of_to_text.
Qed.

Lemma filter_optimistic now text l : Forall (λ x, has_id (local_id now) x = false) l →
  List.filter (λ x, negb (has_id (local_id now) x)) (l ++ [optimistic now text]) = l.
Proof.
  intros Hl. induction Hl as [|x l Hx _ IH]; cbn; [by rewrite str_eqb_refl|]. cbn in IH. by rewrite Hx, IH.
Qed.

(** a comment is shown, and counted, before the backend has it. The backend's answer
    takes its place; a failure takes it away again and leaves list and counts as they were.
    Only the field stays empty: the text is gone. Blank text sends nothing. *)
Theorem comment_settles c item l w : hm_selected c = Some item → Forall (λ f, (0 <= fi_comments f)%Z) (hm_feed c) →
  (truthy (trim (hm_text c)) = false → submitComment c (c, (l, w)) = (Ok tt, (c, (l, w)))) ∧
  (truthy (trim (hm_text c)) = true → ∃ now w1 r v', date_now w = (Ok now, w1) ∧
     addComment (fi_id item) (trim (hm_text c)) (l, w1) = (r, v') ∧
     (Forall (λ x, has_id (local_id now) x = false) (hm_comments c) → ∃ s', submitComment c (c, (l, w)) = (Ok tt, (s', v')) ∧ hm_text s' = [] ∧
        match r with
        | Ok JNull => hm_crashed s' = true
        | Ok saved => hm_comments s' = hm_comments c ++ [saved_comment saved] ∧
            hm_feed s' = on_item (fi_id item) (λ i, comment_count i (fi_comments i + 1)) (hm_feed c)
        | Throw _ => hm_comments s' = hm_comments c ∧ hm_feed s' = hm_feed c
        end)).
Proof.
  intros Hs Hf. unfold submitComment. rewrite Hs. split; intros Ht; rewrite Ht; cbn [negb]; [done|].
  destruct (now_spec w) as (now & w1 & En & _ & _). exists now, w1.
  destruct (addComment (fi_id item) (trim (hm_text c)) (l, w1)) as [r v'] eqn:Ea. exists r, v'. split; [done|]. split; [done|]. intros Hl.
  assert (Eh : host (host date_now) (c, (l, w)) = (Ok now, (c, (l, w1)))) by (by apply run_host, run_host).
  rewrite (run_bind_ok _ _ _ _ _ Eh), (run_bind_ok _ _ _ _ _ (run_modify_state _ _ _)), (run_bind_ok _ _ _ _ _ (run_modify_state _ _ _)).
  set (s1 := map_feed _ _). assert (Ec : hm_comments s1 = hm_comments c ++ [optimistic now (trim (hm_text c))]) by done.
  assert (Ef : hm_feed s1 = on_item (fi_id item) (λ i, comment_count i (fi_comments i + 1)) (hm_feed c)) by done.
  assert (Et : hm_text s1 = []) by done. clearbody s1.
  unfold try_catch. destruct r as [saved|e].
  - rewrite (run_bind_ok _ _ _ _ _ (run_host _ _ _ _ _ Ea)), run_modify_state. eexists. split; [reflexivity|].
    assert (Hin : existsb (has_id (local_id now)) (hm_comments s1) = true) by (rewrite Ec, existsb_app; cbn; by rewrite str_eqb_refl, orb_true_r).
    assert (Hm : (λ x, if has_id (local_id now) x then saved_comment saved else x) <$> hm_comments s1 = hm_comments c ++ [saved_comment saved]).
    { rewrite Ec, fmap_app. f_equal; [|cbn; by rewrite str_eqb_refl]. clear -Hl. induction Hl as [|x l Hx _ IH]; cbn; [done|]. by rewrite Hx, IH. }
    unfold replace_saved. rewrite Hin. destruct saved; cbn; by rewrite ?Et, ?Hm, ?Ef.
  - rewrite (run_bind_throw _ _ _ _ _ (run_host _ _ _ _ _ Ea)). rewrite (run_bind_ok _ _ _ _ _ (run_modify_state _ _ _)), run_modify_state.
    eexists. split; [reflexivity|]. unfold map_feed, map_comments. cbn [hm_feed hm_text hm_comments set_feed]. rewrite Ec, Ef, Et, filter_optimistic by done. split; [done|]. split; [done|].
    rewrite on_item_twice by done. apply on_item_id. intros f Hin _. rewrite Forall_forall in Hf. specialize (Hf f Hin).
    destruct f. cbn in *. unfold comment_count. cbn. f_equal. lia.
Qed.
End Spec.
End PaymentFeed.

(** ** The yield card *)

Module YieldCard.

(** [toLocaleString] of the platform: language, least and most fraction digits. *)
Class Locale := to_locale : str → nat → nat → num → str.

Inductive BalanceCurrency := NGN | XLM.

Definition XLM_TO_NGN_RATE : num := num_of_Z 1600.

Section Display.
Context `{Locale}.

Definition formatTokenBalance (xlm : num) : str := to_locale (js "en-US") 2 6 xlm ++ js " XLM".
Definition formatFiatBalance (ngn : num) : str := 8358%N :: to_locale (js "en-NG") 2 2 ngn.
Definition fiatFromTokens (xlm : num) : num := num_mul xlm XLM_TO_NGN_RATE.
Definition formatBalance (xlm : num) (currency : BalanceCurrency) : str :=
  match currency with XLM => formatTokenBalance xlm | NGN => formatFiatBalance (fiatFromTokens xlm) end.
End Display.

(** [String(v)] of a property *)
Definition string_of (o : option json) : str := match o with None => js "undefined" | Some v => json_to_string v end.

(** [value.replace(/[^\d.-]/g, "")], read as a number, 0 unless finite. *)
Definition parseCurrencyAmount (value : str) : num :=
  let parsed := Number (List.filter (λ c, is_digit c || (c =? 46)%N || (c =? 45)%N) value) in
  if is_finite parsed then parsed else Fin 0 0.

Definition parseRawBalance (val : option json) : num :=
  match val with Some (JNum n) => n | _ => parseCurrencyAmount (string_of val) end.

Record YieldSnapshot := MkSnapshot { ys_apy : str; ys_totalYieldEarned : str; ys_explanation : option json }.

Definition apy_text (apy : option json) : str :=
  match apy with
  | Some (JNum n) => num_to_str n ++ js "%"
  | _ => if includes (js "%") (string_of apy) then string_of apy else string_of apy ++ js "%"
  end.

Inductive yield_status := YLoading | YSuccess | YError.

Record card := Card {
  yc_latest : nat;                    (** [yieldRequestRef] *)
  yc_status : yield_status;
  yc_error : str;
  yc_data : option YieldSnapshot;
  yc_available : num;
  yc_earned : num;
  yc_auto : bool;
  yc_syncing : bool;
  yc_currency : BalanceCurrency;
  yc_open : list nat;                 (** requests the network has not answered *)
  yc_waiting : list nat;              (** requests whose race with the timeout is open *)
}.

Definition initial_card : card := Card 0 YLoading [] None (Fin 0 0) (Fin 0 0) true false NGN [] [].

Definition set_view st er d c := Card (yc_latest c) st er d (yc_available c) (yc_earned c) (yc_auto c) (yc_syncing c) (yc_currency c) (yc_open c) (yc_waiting c).
Definition set_balances a e au c := Card (yc_latest c) (yc_status c) (yc_error c) (yc_data c) a e au (yc_syncing c) (yc_currency c) (yc_open c) (yc_waiting c).
Definition set_auto au c := set_balances (yc_available c) (yc_earned c) au c.
Definition set_syncing v c := Card (yc_latest c) (yc_status c) (yc_error c) (yc_data c) (yc_available c) (yc_earned c) (yc_auto c) v (yc_currency c) (yc_open c) (yc_waiting c).
Definition set_currency v c := Card (yc_latest c) (yc_status c) (yc_error c) (yc_data c) (yc_available c) (yc_earned c) (yc_auto c) (yc_syncing c) v (yc_open c) (yc_waiting c).
Definition set_requests n o w c := Card n (yc_status c) (yc_error c) (yc_data c) (yc_available c) (yc_earned c) (yc_auto c) (yc_syncing c) (yc_currency c) o w.

Definition view (c : card) : yield_status * str * option YieldSnapshot := (yc_status c, yc_error c, yc_data c).

(** *** Loading *)

Section Loading.
Context `{Locale}.

(** What [fetchYieldSnapshot] makes of the answer: a rejection, or the balances it sets at
    once and the snapshot it returns. *)
Definition snapshot_of (r : res json) : res YieldSnapshot :=
  match r with
  | Throw e => Throw e
  | Ok JNull => Throw type_error
  | Ok data => Ok (MkSnapshot (apy_text (json_get (js "apy") data))
      (formatFiatBalance (fiatFromTokens (parseRawBalance (json_get (js "totalYieldEarned") data))))
      (json_get (js "explanation") data))
  end.

Definition take_balances (r : res json) (c : card) : card :=
  match r with
  | Throw _ | Ok JNull => c
  | Ok data => set_balances (parseRawBalance (json_get (js "availableBalance") data))
      (parseRawBalance (json_get (js "totalYieldEarned") data)) (json_truthy (json_get (js "autoEarnEnabled") data)) c
  end.

(** The end of [loadYieldData] for request [id]. *)
Definition settle (id : nat) (r : res YieldSnapshot) (c : card) : card :=
  if negb (id =? yc_latest c) then c
  else match r with
       | Ok data => set_view YSuccess (yc_error c) (Some data) c
       | Throw e => set_view YError (err_message e) (yc_data c) c
       end.

Definition timed_out : js_error := new_error (js "Request timed out. Please try again.").

Inductive load_event :=
  | Load
  | Answered (id : nat) (r : res json)
  | TimedOut (id : nat).

Definition is_in (id : nat) (l : list nat) : bool := existsb (Nat.eqb id) l.
Definition without (id : nat) (l : list nat) : list nat := List.filter (λ j, negb (id =? j)) l.

Definition load_step (e : load_event) (c : card) : card :=
  match e with
  | Load =>
      let id := S (yc_latest c) in
      set_view YLoading [] (yc_data c) (set_requests id (id :: yc_open c) (id :: yc_waiting c) c)
  | Answered id r =>
      if is_in id (yc_open c) then
        let c1 := take_balances r c in
        let c2 := if is_in id (yc_waiting c) then settle id (snapshot_of r) c1 else c1 in
        set_requests (yc_latest c2) (without id (yc_open c2)) (without id (yc_waiting c2)) c2
      else c
  | TimedOut id =>
      if is_in id (yc_waiting c) then
        let c1 := settle id (Throw timed_out) c in
        set_requests (yc_latest c1) (yc_open c1) (without id (yc_waiting c1)) c1
      else c
  end.

Definition load_run (es : list load_event) (c : card) : card := foldl (λ c e, load_step e c) c es.

(** *** The chart's months *)

Definition MONTHLY_EARNINGS : list (str * Z) :=
  [(js "Jan", 140); (js "Feb", 172); (js "Mar", 205); (js "Apr", 238); (js "May", 261); (js "Jun", 296);
   (js "Jul", 317); (js "Aug", 334); (js "Sep", 352); (js "Oct", 365); (js "Nov", 388); (js "Dec", 412)]%Z.

Definition monthlyEarnings (yieldData : option YieldSnapshot) : list (str * num) :=
  let baseTotal := foldl (λ sum m, num_add sum (num_of_Z m.2)) (Fin 0 0) MONTHLY_EARNINGS in
  let targetTotal := parseCurrencyAmount (match yieldData with Some d => ys_totalYieldEarned d | None => 8358%N :: js "3,280.45" end) in
  let scale := if num_ltb (Fin 0 0) targetTotal && num_ltb (Fin 0 0) baseTotal then num_div targetTotal baseTotal else num_of_Z 1 in
  (λ m, (m.1, Number (num_to_fixed 2 (num_mul (num_of_Z m.2) scale)))) <$> MONTHLY_EARNINGS.
End Loading.

(** *** Switches *)

Definition HOME_CURRENCY_PREF_KEY : str := js "home_display_currency".
Definition currency_text (c : BalanceCurrency) : str := match c with NGN => js "NGN" | XLM => js "XLM" end.

Definition toggleCurrency `{Host W} : M (card * W) unit :=
  c ← get_state;
  let next := match yc_currency c with NGN => XLM | XLM => NGN end in
  swallow (host (st_set AsyncStorage HOME_CURRENCY_PREF_KEY (currency_text next)));;
  modify_state (set_currency next).

Definition restoreCurrency `{Host W} : M (card * W) unit :=
  swallow
    (stored ← host (st_get AsyncStorage HOME_CURRENCY_PREF_KEY);
     match (stored : option str) with
     | Some t =>
         if str_eqb t (js "NGN") then modify_state (set_currency NGN)
         else if str_eqb t (js "XLM") then modify_state (set_currency XLM) else mret tt
     | None => mret tt
     end).

(** [handleAutoYieldToggle], closed over [previous]. *)
Definition handleAutoYieldToggle `{ApiEnv, Host W} (previous value : bool) : M (card * (api_state * W)) unit :=
  modify_state (set_auto value);;
  modify_state (set_syncing true);;
  try_catch (host (updateAutoEarn value)) (λ _, modify_state (set_auto previous));;
  modify_state (set_syncing false).

(** *** The notification prompt *)

Record prompt := Prompt { np_visible : bool; np_requesting : bool }.

Section Consent.
Context `{Host W, E : !ExpoNotifications W, ApiEnv}.

Definition mount_prompt : M (prompt * (api_state * W)) unit :=
  shouldShow ← host (host shouldShowNotificationConsentPrompt);
  modify_state (λ p, Prompt shouldShow (np_requesting p)).

(** [try { ... } finally { ... }]; the rejection is passed on. *)
Definition handleEnableNotifications : M (prompt * (api_state * W)) unit :=
  modify_state (λ p, Prompt (np_visible p) true);;
  let finish : M (prompt * (api_state * W)) unit :=
    host (host markNotificationPromptDismissed);; modify_state (λ _, Prompt false false) in
  try_catch
    (status ← host (host requestNotificationPermissionsAsync);
     if str_eqb status (STATUS_GRANTED (W := W)) then
       host (host (saveNotificationPreference true));;
       host (registerForPushNotificationsAsync true);; mret tt
     else mret tt)
    (λ e, finish;; throw e);;
  finish.

Definition handleDismissNotifPrompt : M (prompt * (api_state * W)) unit :=
  host (host markNotificationPromptDismissed);; modify_state (λ p, Prompt false (np_requesting p)).
End Consent.

(** *** Properties *)

Section LoadingSpec.
Context `{Locale}.

Definition concerns (id : nat) (e : load_event) : bool :=
  match e with Load => false | Answered j _ | TimedOut j => id =? j end.
Definition is_load (e : load_event) : bool := match e with Load => true | _ => false end.

(** The card after one load, by the first event of its request. *)
Definition decision (before : option YieldSnapshot) (first : option load_event) : yield_status * str * option YieldSnapshot :=
  match first with
  | Some (Answered _ r) =>
      match snapshot_of r with Ok d => (YSuccess, [], Some d) | Throw e => (YError, err_message e, before) end
  | Some (TimedOut _) => (YError, err_message timed_out, before)
  | _ => (YLoading, [], before)
  end.

Lemma is_in_without i j l : is_in i (without j l) = is_in i l && negb (i =? j).
Proof.
  unfold is_in, without. induction l as [|k l IH]; [done|]. cbn [List.filter].
  destruct (Nat.eqb_spec j k), (Nat.eqb_spec i k), (Nat.eqb_spec i j); cbn [negb existsb]; rewrite IH;
    try (exfalso; congruence); rewrite ?(proj2 (Nat.eqb_eq _ _)) by done; rewrite ?(proj2 (Nat.eqb_neq i k)) by done; cbn; by rewrite ?andb_false_r, ?andb_true_r.
Qed.

#[local] Arguments is_in : simpl never.
#[local] Arguments without : simpl never.

Lemma take_balances_view r c : view (take_balances r c) = view c ∧ yc_latest (take_balances r c) = yc_latest c ∧
  yc_open (take_balances r c) = yc_open c ∧ yc_waiting (take_balances r c) = yc_waiting c.
Proof. by destruct r as [[]|]. Qed.

Lemma settle_other id r c : yc_latest c ≠ id → settle id r c = c.
Proof. intros Hn. unfold settle. by rewrite (proj2 (Nat.eqb_neq _ _)). Qed.

Lemma settle_lists id r c : yc_latest (settle id r c) = yc_latest c ∧ yc_open (settle id r c) = yc_open c ∧ yc_waiting (settle id r c) = yc_waiting c.
Proof. unfold settle. destruct (negb _); [done|]. by destruct r. Qed.

(** An event that is not a load keeps the latest request, and the view unless it ends the
    latest request's race. *)
Lemma quiet_step e c : is_load e = false → yc_latest (load_step e c) = yc_latest c ∧
  (concerns (yc_latest c) e = false ∨ is_in (yc_latest c) (yc_waiting c) = false →
     view (load_step e c) = view c) ∧
  (is_in (yc_latest c) (yc_waiting c) = false → is_in (yc_latest c) (yc_waiting (load_step e c)) = false) ∧
  (concerns (yc_latest c) e = false → is_in (yc_latest c) (yc_waiting (load_step e c)) = is_in (yc_latest c) (yc_waiting c) ∧
     is_in (yc_latest c) (yc_open (load_step e c)) = is_in (yc_latest c) (yc_open c)).
Proof.
  destruct e as [|id r|id]; [done|intros _..]; cbn [load_step concerns].
  - destruct (is_in id (yc_open c)) eqn:Eo; [|by split_and!]. destruct (take_balances_view r c) as (V & Lt & Op & Wt).
    set (c1 := take_balances r c) in *.
    set (c2 := if is_in id (yc_waiting c) then settle id (snapshot_of r) c1 else c1).
    assert (yc_latest c2 = yc_latest c ∧ yc_open c2 = yc_open c ∧ yc_waiting c2 = yc_waiting c) as (L2 & O2 & W2).
    { unfold c2. destruct (is_in id (yc_waiting c)); [|done]. destruct (settle_lists id (snapshot_of r) c1) as (-> & -> & ->). done. }
    cbn. rewrite L2, O2, W2, !is_in_without. split_and!; [done| |by intros ->|].
    + intros Hc. change (view c2 = view c). unfold c2. destruct (is_in id (yc_waiting c)) eqn:Ew; [|done].
      rewrite settle_other; [done|]. rewrite Lt. intros E. destruct Hc as [Hc|Hc]; [rewrite E, Nat.eqb_refl in Hc|rewrite E in Hc]; congruence.
    + intros Hc. rewrite Hc. cbn. by rewrite !andb_true_r.
  - destruct (is_in id (yc_waiting c)) eqn:Ew; [|by split_and!].
    destruct (settle_lists id (Throw timed_out) c) as (L2 & O2 & W2). set (c2 := settle id (Throw timed_out) c) in *.
    cbn. rewrite L2, O2, W2, is_in_without. split_and!; [done| |by intros ->|].
    + intros Hc. change (view c2 = view c). unfold c2. rewrite settle_other; [done|]. intros E.
      destruct Hc as [Hc|Hc]; [rewrite E, Nat.eqb_refl in Hc|rewrite E in Hc]; congruence.
    + intros Hc. rewrite Hc. cbn. by rewrite andb_true_r.
Qed.

Lemma settled_run es c : Forall (λ e, is_load e = false) es → is_in (yc_latest c) (yc_waiting c) = false → view (load_run es c) = view c.
Proof.
  revert c. induction es as [|e es IH]; [done|]. intros c [He Hes]%Forall_cons Hw.
  destruct (quiet_step e c He) as (L & V & W & _). cbn. fold (load_run es (load_step e c)).
  rewrite IH; [by apply V; right|done|]. rewrite L. by apply W.
Qed.

Lemma deciding_step e c : is_load e = false → concerns (yc_latest c) e = true → is_in (yc_latest c) (yc_waiting c) = true →
  is_in (yc_latest c) (yc_open c) = true → view c = (YLoading, [], yc_data c) →
  view (load_step e c) = decision (yc_data c) (Some e) ∧ yc_latest (load_step e c) = yc_latest c ∧ is_in (yc_latest c) (yc_waiting (load_step e c)) = false.
Proof.
  intros Hl Hc Hw Ho Hv. assert (Er : yc_error c = []) by (unfold view in Hv; congruence).
  destruct e as [|id r|id]; [done|..]; cbn [concerns] in Hc; apply Nat.eqb_eq in Hc; subst id; cbn [load_step].
  - rewrite Ho. destruct (take_balances_view r c) as (V & Lt & Op & Wt). rewrite Hw.
    destruct (settle_lists (yc_latest c) (snapshot_of r) (take_balances r c)) as (L2 & O2 & W2).
    split; [|cbn; rewrite L2, W2, Lt, Wt, is_in_without, Nat.eqb_refl; by rewrite andb_false_r].
    cbn [decision]. change (view (settle (yc_latest c) (snapshot_of r) (take_balances r c)) = match snapshot_of r with Ok d => (YSuccess, [], Some d) | Throw e => (YError, err_message e, yc_data c) end).
    unfold settle. rewrite Lt, Nat.eqb_refl. cbn [negb]. unfold view in V. injection V as V1 V2 V3.
    destruct (snapshot_of r); cbn; unfold view; cbn; by rewrite ?V2, ?V3, ?Er.
  - rewrite Hw. destruct (settle_lists (yc_latest c) (Throw timed_out) c) as (L2 & O2 & W2).
    split; [|cbn; rewrite L2, W2, is_in_without, Nat.eqb_refl; by rewrite andb_false_r].
    unfold settle. rewrite Nat.eqb_refl. done.
Qed.

Lemma waiting_run es c : Forall (λ e, is_load e = false) es → is_in (yc_latest c) (yc_waiting c) = true →
  is_in (yc_latest c) (yc_open c) = true → view c = (YLoading, [], yc_data c) →
  view (load_run es c) = decision (yc_data c) (find (concerns (yc_latest c)) es).
Proof.
  revert c. induction es as [|e es IH]; [done|]. intros c [He Hes]%Forall_cons Hw Ho Hv.
  cbn [load_run foldl find]. fold (load_run es (load_step e c)). destruct (concerns (yc_latest c) e) eqn:Ec.
  - destruct (deciding_step e c He Ec Hw Ho Hv) as (V & L & W). rewrite settled_run; [done|done|]. by rewrite L.
  - destruct (quiet_step e c He) as (L & V & _ & M). destruct (M Ec) as [M1 M2]. specialize (V (or_introl Ec)).
    assert (Ed : yc_data (load_step e c) = yc_data c) by (unfold view in V; congruence).
    rewrite IH, L, Ed; [done|done|by rewrite L, M1|by rewrite L, M2|by rewrite V, Hv, Ed].
Qed.

(** C32: after a load the card shows what the first event of that very request makes of it, an
    answer or the timeout, whatever older requests do. The balances do not keep to that: any
    answer sets them, also a stale one or one that came after its timeout. *)
Theorem latest_request_decides es c : Forall (λ e, is_load e = false) es →
  view (load_run es (load_step Load c)) = decision (yc_data c) (find (concerns (S (yc_latest c))) es) ∧
  (∀ id data, is_in id (yc_open c) = true → data ≠ JNull →
     yc_available (load_step (Answered id (Ok data)) c) = parseRawBalance (json_get (js "availableBalance") data) ∧
     (id ≠ yc_latest c → view (load_step (Answered id (Ok data)) c) = view c)).
Proof.
  intros Hes. split.
  - rewrite waiting_run; [done|done|unfold is_in; cbn; by rewrite Nat.eqb_refl|unfold is_in; cbn; by rewrite Nat.eqb_refl|done].
  - intros id data Ho Hd. split; [|intros Hn; apply quiet_step; [done|left; cbn; by apply Nat.eqb_neq]].
    cbn [load_step]. rewrite Ho. cbn [set_requests yc_available].
    assert (B : yc_available (take_balances (Ok data) c) = parseRawBalance (json_get (js "availableBalance") data)) by (by destruct data).
    destruct (is_in id (yc_waiting c)); [|exact B]. unfold settle. destruct (negb _); [exact B|]. by destruct (snapshot_of _).
Qed.
End LoadingSpec.

Section SwitchSpec.
Context `{HostLaws W}.

(** the switch of automatic earning stays where it was put whatever the backend says:
    [updateAutoEarn] rejects nothing, so the revert of the handler is never run. *)
Theorem auto_earn_never_reverts `{ApiEnv} previous value c v : ∃ v',
  handleAutoYieldToggle previous value (c, v) = (Ok tt, (set_syncing false (set_syncing true (set_auto value c)), v')).
Proof.
  unfold handleAutoYieldToggle. rewrite (run_bind_ok _ _ _ _ _ (run_modify_state _ _ _)), (run_bind_ok _ _ _ _ _ (run_modify_state _ _ _)).
  assert (∃ v', updateAutoEarn value v = (Ok tt, v')) as (v' & E).
  { unfold updateAutoEarn, try_catch. rewrite run_bind. destruct (apiFetch _ _ v) as [[]  v']; by eexists. }
  exists v'. rewrite (run_bind_ok _ _ _ _ _ (run_try_ok _ _ _ _ _ (run_host _ _ _ _ _ E))). by rewrite run_modify_state.
Qed.

Lemma set_currency_same c : set_currency (yc_currency c) c = c.
Proof. by destruct c. Qed.

(** a toggle shows the balances in the other currency at once, and a working store
    brings that choice back on the next mount. *)
Theorem currency_survives c w c' : st_live w → ∃ w1 w2,
  toggleCurrency (c, w) = (Ok tt, (set_currency (match yc_currency c with NGN => XLM | XLM => NGN end) c, w1)) ∧
  restoreCurrency (c', w1) = (Ok tt, (set_currency (match yc_currency c with NGN => XLM | XLM => NGN end) c', w2)).
Proof.
  intros L. set (next := match yc_currency c with NGN => XLM | XLM => NGN end).
  destruct (set_live AsyncStorage HOME_CURRENCY_PREF_KEY (currency_text next) w L) as (w1 & E1 & S1).
  destruct (get_live AsyncStorage HOME_CURRENCY_PREF_KEY w1 ltac:(by apply S1)) as (w2 & E2 & _). exists w1, w2. split.
  - unfold toggleCurrency. rewrite (run_bind_ok _ _ _ _ _ (run_get_state _ _)). fold next.
    unfold swallow. by rewrite (run_bind_ok _ _ _ _ _ (run_try_ok _ _ _ _ _ (run_host _ _ _ _ _ E1))), run_modify_state.
  - rewrite (stored_eq _ _ _ _ _ S1) in E2. unfold restoreCurrency, swallow. apply run_try_ok.
    rewrite (run_bind_ok _ _ _ _ _ (run_host _ _ _ _ _ E2)). by destruct next.
Qed.

Lemma register_total `{E : !ExpoNotifications W, !ExpoLaws W, ApiEnv} (s : api_state) w : ∃ o v', registerForPushNotificationsAsync true (s, w) = (Ok o, v').
Proof.
  unfold registerForPushNotificationsAsync. destruct (isDevice (W := W)); cbn [negb]; [|by eexists _, _].
  destruct (request_permissions_run w) as (status & w1 & E1 & _). rewrite (run_bind_ok _ _ _ _ _ (run_host _ s _ _ _ E1)).
  destruct (str_eqb _ _); cbn [negb]; [|by eexists _, _]. unfold store_and_send_token, try_catch.
  match goal with |- context [match ?m with _ => _ end] => destruct m as [[o|e] v'] end; by eexists _, _.
Qed.

Lemma mark_dismissed w : ∃ w', markNotificationPromptDismissed w = (Ok tt, w') ∧
  (st_live w → ∃ w2, getHasDismissedNotificationPrompt w' = (Ok true, w2)).
Proof.
  destruct (set_spec AsyncStorage NOTIFICATION_PROMPT_DISMISSED_KEY (js "true") w) as (r & w' & E & R). exists w'. split.
  - unfold markNotificationPromptDismissed, swallow, try_catch. rewrite E. by destruct r as [[]|].
  - intros L. destruct R as [[_ S]|(_ & K & N)].
    + destruct (get_live AsyncStorage NOTIFICATION_PROMPT_DISMISSED_KEY w' ltac:(by apply S)) as (w2 & E2 & _). rewrite (stored_eq _ _ _ _ _ S) in E2.
      exists w2. unfold getHasDismissedNotificationPrompt. apply run_try_ok. by rewrite (run_bind_ok _ _ _ _ _ E2).
    + by destruct N.
Qed.

(** whatever the user and the system answer, asking for notifications ends with the
    prompt closed, its mark switched off and, in a store that works by then, its dismissal
    recorded, so it is not shown again. *)
Theorem consent_prompt_closes `{E : !ExpoNotifications W, !ExpoLaws W, ApiEnv} p (s : api_state) w : ∃ s' w0 w',
  handleEnableNotifications (p, (s, w)) = (Ok tt, (Prompt false false, (s', w'))) ∧
  markNotificationPromptDismissed w0 = (Ok tt, w') ∧
  (st_live w0 → ∃ w2, getHasDismissedNotificationPrompt w' = (Ok true, w2)).
Proof.
  unfold handleEnableNotifications. rewrite (run_bind_ok _ _ _ _ _ (run_modify_state _ _ _)). cbn [fst snd].
  set (p1 := Prompt _ true). destruct (request_permissions_run w) as (status & w1 & E1 & _).
  assert (∃ v2, (status ← host (host requestNotificationPermissionsAsync);
     if str_eqb status (STATUS_GRANTED (W := W)) then
       host (host (saveNotificationPreference true));; host (registerForPushNotificationsAsync true);; mret tt
     else mret tt) (p1, (s, w)) = (Ok tt, (p1, v2))) as (v2 & B).
  { assert (Eh : host (host requestNotificationPermissionsAsync) (p1, (s, w)) = (Ok status, (p1, (s, w1)))) by (by apply run_host, run_host).
    rewrite (run_bind_ok _ _ _ _ _ Eh). destruct (str_eqb _ _); [|by eexists].
    destruct (swallow_ok (st_set AsyncStorage NOTIFICATION_PREFERENCE_KEY (js "true")) w1) as (w2 & E2 & _).
    assert (Eh2 : host (host (saveNotificationPreference true)) (p1, (s, w1)) = (Ok tt, (p1, (s, w2)))) by (by apply run_host, run_host).
    rewrite (run_bind_ok _ _ _ _ _ Eh2). destruct (register_total s w2) as (o & v3 & E3). exists v3.
    by rewrite (run_bind_ok _ _ _ _ _ (run_host _ _ _ _ _ E3)). }
  cbv zeta. rewrite (run_bind_ok _ _ _ _ _ (run_try_ok _ _ _ _ _ B)). destruct v2 as [s2 w2].
  destruct (mark_dismissed w2) as (w3 & E3 & P). exists s2, w2, w3. split; [|by split].
  assert (Eh : host (host markNotificationPromptDismissed) (p1, (s2, w2)) = (Ok tt, (p1, (s2, w3)))) by (by apply run_host, run_host).
  by rewrite (run_bind_ok _ _ _ _ _ Eh), run_modify_state.
Qed.
End SwitchSpec.
End YieldCard.

(** ** Runs on a scripted host *)

Module Runs.
Import PaymentFeed YieldCard.
#[local] Instance demo_env : ApiEnv := None.
#[local] Existing Instance Notifications.Runs.demo_expo.
#[local] Existing Instance Notifications.Runs.demo_laws.
#[local] Instance plain_locale : Locale := λ _ low _ n, num_to_fixed low n.

Definition no_log : ui_log := UiLog [] [].

Lemma like_settles_witness : ∃ s' v', handleLike INITIAL_FEED (js "1") (initial_home, (no_log, world [] [reply 500 []])) = (Ok tt, (s', v')).
Proof.
  destruct (like_settles INITIAL_FEED (js "1") (row (js "1") (js "Ebube") (js "Tolu") (naira :: js "5,000") (js "Lunch " ++ [55356; 57173]%N) (js "2h ago") 5 2 false PUBLIC)
    initial_home (no_log, world [] [reply 500 []]) ltac:(vm_compute; reflexivity)) as (r & v' & _ & E & _).
  by eexists _, v'.
Defined.

Lemma load_feed_outcome_witness : ∃ s' v', loadFeed (initial_home, (no_log, world [] [reply 200 (js "[]")])) = (Ok tt, (s', v')).
Proof.
  destruct (load_feed_outcome initial_home no_log (world [] [reply 200 (js "[]")])) as (r & w1 & d & l1 & w2 & s' & w3 & _ & _ & E & _).
  by exists s', (l1, w3).
Defined.

Definition writing : home := set_text (js " hi ") (openComments (row (js "3") [] [] [] [] [] 0 0 false PUBLIC) initial_home).

Lemma comment_settles_witness : truthy (trim (hm_text (set_text (js "  ") writing))) = false ∧
  submitComment (set_text (js "  ") writing) (set_text (js "  ") writing, (no_log, world [] [])) = (Ok tt, (set_text (js "  ") writing, (no_log, world [] []))).
Proof.
  split; [reflexivity|].
  apply (comment_settles (set_text (js "  ") writing) (row (js "3") [] [] [] [] [] 0 0 false PUBLIC) no_log (world [] []) eq_refl); [|reflexivity].
  apply (bool_decide_unpack _). vm_compute. exact I.
Defined.

Definition answer_with (xlm : string) : json :=
  JObj [(js "availableBalance", JStr (js xlm)); (js "totalYieldEarned", JStr (js "0.5")); (js "apy", JStr (js "8.4"))].

Lemma latest_request_decides_witness :
  view (load_run [Answered 7 (Ok JNull); Answered 1 (Ok (answer_with "2"))] (load_step Load initial_card)) =
    (YSuccess, [], Some (MkSnapshot (js "8.4%") (8358%N :: js "800.00") None)).
Proof. refine (proj1 (latest_request_decides _ initial_card _)). repeat constructor. Defined.

(** The answer of the first load comes last: the balance is its balance. *)
Example stale_balance : let c := load_run [Load; Load; Answered 2 (Ok (answer_with "20")); Answered 1 (Ok (answer_with "10"))] initial_card in
  yc_status c = YSuccess ∧ formatBalance (yc_available c) XLM = js "10.00 XLM".
Proof. by vm_compute. Qed.

(** Before anything is loaded the chart shows the months of an example total. *)
Example sample_chart : snd <$> last (monthlyEarnings None) = Some (Number (js "388.38")).
Proof. vm_compute. reflexivity. Qed.

Lemma auto_earn_never_reverts_witness : ∃ v', handleAutoYieldToggle true false (initial_card, (ApiState false 0, world [] [])) =
  (Ok tt, (set_syncing false (set_syncing true (set_auto false initial_card)), v')).
Proof. apply auto_earn_never_reverts. Defined.

Lemma currency_survives_witness : ∃ w1 w2, toggleCurrency (initial_card, world [] []) = (Ok tt, (set_currency XLM initial_card, w1)) ∧
  restoreCurrency (initial_card, w1) = (Ok tt, (set_currency XLM initial_card, w2)).
Proof. apply (currency_survives initial_card (world [] []) initial_card). exact (eq_refl false). Defined.

Lemma consent_prompt_closes_witness : ∃ s' w', handleEnableNotifications (Prompt true false, (ApiState false 0, world [] [])) = (Ok tt, (Prompt false false, (s', w'))).
Proof.
  destruct (consent_prompt_closes (Prompt true false) (ApiState false 0) (world [] [])) as (s' & w0 & w' & E & _). by exists s', w'.
Defined.
End Runs.
