(* ===== verification/HistoryScreen.v ===== *)
(** * The history screen of the mobile application

    Model of [mobileapp/app/(personal)/history.tsx] and of its filter sheet
    [src/components/TransactionFilterSheet.tsx]: the list grouped by day, the search with its
    delay, the chips, the presets of the date range and the sheet, over the feed of
    [MobileHooks.Feed], and "Speed up" over the wallet of [StellarWallet].

    Local time is the pair of conversions of the language's specification, [LocalTime]; the texts
    of [Intl.DateTimeFormat] are the parameter [IntlDates]. *)

From S2P Require Import Prelude JsString JsNumber JsDate Json Tables Effects Decode Scripts TransactionService MobileHooks StellarWallet.
Import Feed.

(** ** Local time *)

(** [LocalTime(t)] and [UTC(t)] of the language, in milliseconds. *)
Class LocalTime := { to_local : Z → Z; of_local : Z → Z }.

Section Local.
Context `{LocalTime}.

(** [d.toDateString()] is decided by the local day. *)
Definition local_day (t : Z) : Z := (to_local t / ms_per_day)%Z.

(** [d.setDate(d.getDate() - days)] *)
Definition days_before (days t : Z) : Z := of_local ((local_day t - days) * ms_per_day + to_local t mod ms_per_day)%Z.

(** [d.setHours(0, 0, 0, 0)] *)
Definition local_midnight (t : Z) : Z := of_local (local_day t * ms_per_day)%Z.
End Local.

(** What [formatDate] of [utils/formatting.ts] obtains from the platform for a time value:
    the text of [Intl.DateTimeFormat] ([None] when it throws) and of [toLocaleDateString]. *)
Inductive date_style := MonthDayTime | MonthDayYear.
Class IntlDates := { intl_date : date_style → num → option str; locale_date : num → str }.

Definition formatDate `{IntlDates} (d : num) (style : date_style) : str :=
  match intl_date style d with Some s => s | None => locale_date d end.

(** ** The list by days *)

Module Days.
Inductive ListItem :=
  | Header (key title : str)
  | MassPayoutHeader (key : str)
  | Tx (key : str) (tx : Transaction).

Definition item_key (i : ListItem) : str :=
  match i with Header k _ => k | MassPayoutHeader k => k | Tx k _ => k end.

Definition item_tx (i : ListItem) : option Transaction := match i with Tx _ tx => Some tx | _ => None end.

Definition header (label : str) : ListItem := Header (js "hdr_" ++ label) label.
Definition mass_header (label : str) : ListItem := MassPayoutHeader (js "mp_hdr_" ++ label).
Definition tx_item (tx : Transaction) : ListItem := Tx (tx_id tx) tx.
Definition is_mass (tx : Transaction) : bool := bool_decide (tx_type tx = TMassPayout).

(** The variables of the loop. *)
Record grouping := Grouping { gr_result : list ListItem; gr_lastDate : str; gr_massShown : bool }.

Definition push (i : ListItem) (g : grouping) : grouping := Grouping (gr_result g ++ [i]) (gr_lastDate g) (gr_massShown g).

(** One row, once its label is known. *)
Definition add_row (label : str) (tx : Transaction) (g : grouping) : grouping :=
  let g := if bool_decide (label ≠ gr_lastDate g) then push (header label) (Grouping (gr_result g) label false) else g in
  let g := if is_mass tx && negb (gr_massShown g) then push (mass_header label) (Grouping (gr_result g) (gr_lastDate g) true) else g in
  push (tx_item tx) g.

Section Group.
Context `{HostDates, LocalTime, IntlDates}.

(** The label of a timestamp seen at [now]. *)
Definition day_label (now : Z) (timestamp : str) : str :=
  let d := date_ms timestamp in
  let day := match d with Fin t _ => Some (local_day t) | _ => None end in
  if bool_decide (day = Some (local_day now)) then js "Today"
  else if bool_decide (day = Some (local_day (days_before 1 now))) then js "Yesterday"
  else formatDate d MonthDayYear.

Context `{Host W}.

(** The clock is read for every row. *)
Definition group_row (g : grouping) (tx : Transaction) : M W grouping :=
  now ← date_now;
  mret (add_row (day_label now (tx_timestamp tx)) tx g).

Definition groupByDate (txs : list Transaction) : M W (list ListItem) :=
  g ← for_each group_row (Grouping [] [] false) txs;
  mret (gr_result g).
End Group.

(** *** The reference: runs of equal labels *)

(** Neighbours with the same label together. *)
Fixpoint runs (l : list (str * Transaction)) : list (str * list Transaction) :=
  match l with
  | [] => []
  | (label, tx) :: l' =>
      match runs l' with
      | (label', txs) :: rs =>
          if bool_decide (label = label') then (label, tx :: txs) :: rs else (label, [tx]) :: (label', txs) :: rs
      | [] => [(label, [tx])]
      end
  end.

(** The rows of a day, the mass payout header before the first mass payout. *)
Fixpoint day_rows (label : str) (txs : list Transaction) : list ListItem :=
  match txs with
  | [] => []
  | tx :: txs' => if is_mass tx then mass_header label :: (tx_item <$> txs) else tx_item tx :: day_rows label txs'
  end.

Definition day_items (day : str * list Transaction) : list ListItem := header day.1 :: day_rows day.1 day.2.

(** What the loop adds for rows with their labels. *)
Definition rest_rows (shown : bool) (label : str) (txs : list Transaction) : list ListItem :=
  if shown then tx_item <$> txs else day_rows label txs.

Definition add_rows (l : list (str * Transaction)) (g : grouping) : grouping := foldl (λ g r, add_row r.1 r.2 g) g l.

Lemma add_rows_runs l : ∀ g, gr_result (add_rows l g) = gr_result g ++
  match runs l with
  | [] => []
  | (a, ts) :: rs =>
      (if bool_decide (a = gr_lastDate g) then rest_rows (gr_massShown g) a ts else day_items (a, ts)) ++ concat (day_items <$> rs)
  end.
Proof.
  induction l as [|[a t] l IH]; intros g; [by rewrite app_nil_r|].
  change (add_rows ((a, t) :: l) g) with (add_rows l (add_row a t g)). rewrite IH. clear IH. cbn [runs].
  assert (G : ∃ sh r, add_row a t g = Grouping (gr_result g ++ r) a sh ∧ ∀ ts,
    r ++ rest_rows sh a ts = if bool_decide (a = gr_lastDate g) then rest_rows (gr_massShown g) a (t :: ts) else day_items (a, t :: ts)).
  { unfold add_row, day_items, rest_rows. destruct g as [res last sh]. cbn [gr_lastDate gr_massShown gr_result].
    destruct (decide (a = last)) as [->|Hn].
    - rewrite bool_decide_eq_false_2 by naive_solver. rewrite bool_decide_eq_true_2 by done. cbn [gr_massShown].
      destruct (is_mass t) eqn:Em; destruct sh; unfold push; cbn [andb negb gr_result gr_lastDate gr_massShown]; eexists _, _;
        (split; [rewrite <-?app_assoc; reflexivity|]); intros ts; cbn [day_rows fmap list_fmap app]; by rewrite ?Em.
    - rewrite bool_decide_eq_true_2 by done. rewrite bool_decide_eq_false_2 by done. unfold push. cbn [gr_massShown gr_result gr_lastDate].
      destruct (is_mass t) eqn:Em; unfold push; cbn [andb negb gr_result gr_lastDate gr_massShown]; eexists _, _;
        (split; [rewrite <-?app_assoc; reflexivity|]); intros ts; cbn [day_rows fmap list_fmap app fst snd]; by rewrite ?Em. }
  destruct G as (sh & r & -> & Hr). cbn [gr_result gr_lastDate gr_massShown]. rewrite <-app_assoc. f_equal.
  destruct (runs l) as [|[b ts] rs].
  - rewrite app_nil_r. specialize (Hr []). cbn [fmap list_fmap concat]. rewrite app_nil_r, <-Hr.
    destruct sh; cbn; by rewrite app_nil_r.
  - destruct (decide (a = b)) as [<-|Hn].
    + rewrite !(bool_decide_eq_true_2 (a = a)) by done. by rewrite app_assoc, Hr.
    + rewrite (bool_decide_eq_false_2 (a = b)) by done. rewrite (bool_decide_eq_false_2 (b = a)) by done.
      specialize (Hr []). rewrite <-Hr, <-!app_assoc. f_equal. by destruct sh.
Qed.

Lemma day_rows_txs label txs : omap item_tx (day_rows label txs) = txs.
Proof.
  assert (T : ∀ l : list Transaction, omap item_tx (tx_item <$> l) = l) by (intros l; induction l as [|x l IH]; cbn; [done|by f_equal]).
  induction txs as [|tx txs IH]; [done|]. cbn [day_rows]. destruct (is_mass tx).
  - change (omap item_tx (mass_header label :: (tx_item <$> tx :: txs))) with (omap item_tx (tx_item <$> tx :: txs)). apply T.
  - change (omap item_tx (tx_item tx :: day_rows label txs)) with (tx :: omap item_tx (day_rows label txs)). by f_equal.
Qed.

Lemma runs_txs l : concat (snd <$> runs l) = l.*2.
Proof.
  induction l as [|[a t] l IH]; [done|]. cbn [runs]. destruct (runs l) as [|[b ts] rs]; cbn in *; [by rewrite <-IH|].
  case_bool_decide; cbn; by rewrite <-IH.
Qed.

Lemma days_txs ds : omap item_tx (concat (day_items <$> ds)) = concat (snd <$> ds).
Proof.
  induction ds as [|[a ts] ds IH]; [done|]. cbn [fmap list_fmap concat]. rewrite omap_app, IH. f_equal.
  change (omap item_tx (day_items (a, ts))) with (omap item_tx (day_rows a ts)). apply day_rows_txs.
Qed.

(** The days with a mass payout. *)
Definition mass_days (ds : list (str * list Transaction)) : list str := (filter (λ d, existsb is_mass d.2 = true) ds).*1.

Lemma day_rows_keys label txs : item_key <$> day_rows label txs ≡ₚ
  (if existsb is_mass txs then [js "mp_hdr_" ++ label] else []) ++ (tx_id <$> txs).
Proof.
  assert (K : ∀ l : list Transaction, item_key <$> (tx_item <$> l) = tx_id <$> l) by (intros l; by rewrite <-list_fmap_compose).
  induction txs as [|tx txs IH]; [done|]. cbn [day_rows existsb]. destruct (is_mass tx).
  - cbn [orb]. rewrite fmap_cons, K. done.
  - cbn [orb]. rewrite !fmap_cons, IH. cbn [item_key tx_item]. by destruct (existsb is_mass txs); [rewrite Permutation_middle|].
Qed.

Lemma days_keys ds : item_key <$> concat (day_items <$> ds) ≡ₚ
  ((js "hdr_" ++.) <$> ds.*1) ++ ((js "mp_hdr_" ++.) <$> mass_days ds) ++ (tx_id <$> concat (snd <$> ds)).
Proof.
  induction ds as [|[a ts] ds IH]; [done|]. cbn [fmap list_fmap concat]. rewrite fmap_app, IH. unfold day_items. cbn [fst snd].
  rewrite fmap_cons, day_rows_keys. cbn [item_key header]. unfold mass_days. rewrite filter_cons. cbn [snd].
  rewrite fmap_app. destruct (existsb is_mass ts).
  - rewrite decide_True by done. cbn [fmap list_fmap fst app]. solve_Permutation.
  - rewrite decide_False by done. cbn [app]. solve_Permutation.
Qed.

Section Theorems.
Context `{HostDates, LocalTime, IntlDates, HostLaws W}.

(** The platform writes no empty date. *)
Definition dates_written : Prop := (∀ style d s, intl_date style d = Some s → s ≠ []) ∧ ∀ d, locale_date d ≠ [].

Lemma day_label_nonempty now ts : dates_written → day_label now ts ≠ [].
Proof.
  intros [Hi Hl]. unfold day_label. cbn zeta. case_bool_decide; [discriminate|]. case_bool_decide; [discriminate|].
  unfold formatDate. destruct (intl_date MonthDayYear (date_ms ts)) as [s|] eqn:E; [by apply Hi in E|apply Hl].
Qed.

(** The label of every row, at some reading of the clock. *)
Definition labelled : list str → list Transaction → Prop :=
  Forall2 (λ label tx, ∃ now, iso_range now ∧ label = day_label now (tx_timestamp tx)).

Lemma group_rows_run txs : ∀ g (w : W), ∃ labels w', for_each group_row g txs w = (Ok (add_rows (zip labels txs) g), w') ∧
  kept w w' ∧ labelled labels txs.
Proof.
  induction txs as [|tx txs IH]; intros g w; [exists [], w; split_and!; [done|done|constructor]|].
  destruct (now_spec w) as (now & w1 & E & K & R). cbn [for_each].
  assert (Er : group_row g tx w = (Ok (add_row (day_label now (tx_timestamp tx)) tx g), w1)) by (unfold group_row; by rewrite (run_bind_ok _ _ _ _ _ E)).
  rewrite (run_bind_ok _ _ _ _ _ Er).
  destruct (IH (add_row (day_label now (tx_timestamp tx)) tx g) w1) as (labels & w2 & E2 & K2 & L).
  exists (day_label now (tx_timestamp tx) :: labels), w2. split; [exact E2|]. split; [by etrans|].
  constructor; [by exists now|done].
Qed.

(** C37: the grouped list is the reference one: the rows cut into runs of equal day labels, every
    run under one header, its "Mass Payouts" header before its first mass payout only. The rows
    themselves are all there, in their order. As long as no day comes back after another one, and
    row ids are distinct and do not look like header keys, no two entries share a list key. *)
Theorem grouped_by_day txs (w : W) : dates_written → ∃ labels w',
  labelled labels txs ∧ kept w w' ∧
  groupByDate txs w = (Ok (concat (day_items <$> runs (zip labels txs))), w') ∧
  omap item_tx (concat (day_items <$> runs (zip labels txs))) = txs ∧
  (NoDup (runs (zip labels txs)).*1 → NoDup (tx_id <$> txs) →
   Forall (λ tx, starts_with (js "hdr_") (tx_id tx) = false ∧ starts_with (js "mp_hdr_") (tx_id tx) = false) txs →
   NoDup (item_key <$> concat (day_items <$> runs (zip labels txs)))).
Proof.
  intros D. destruct (group_rows_run txs (Grouping [] [] false) w) as (labels & w' & E & K & L).
  exists labels, w'. split; [done|]. split; [done|].
  assert (Z : (zip labels txs).*2 = txs) by (apply snd_zip; apply Forall2_length in L; lia).
  split; [|split].
  - unfold groupByDate. rewrite (run_bind_ok _ _ _ _ _ E), run_ret, add_rows_runs. cbn [gr_result gr_lastDate gr_massShown app].
    destruct L as [|label tx labels txs (now & _ & ->) L]; [done|]. cbn [zip zip_with runs].
    pose proof (day_label_nonempty now (tx_timestamp tx) D) as Hne. destruct (runs (zip labels txs)) as [|[b ts] rs].
    + by rewrite (bool_decide_eq_false_2 (_ = [])).
    + case_bool_decide; by rewrite (bool_decide_eq_false_2 (_ = [])).
  - by rewrite days_txs, runs_txs.
  - intros Nl Ni Hk. rewrite days_keys, runs_txs, Z. rewrite !NoDup_app.
    assert (Inj (=) (=) (js "hdr_" ++.)) by (intros x y; apply app_inv_head).
    assert (Inj (=) (=) (js "mp_hdr_" ++.)) by (intros x y; apply app_inv_head).
    split; [by apply NoDup_fmap_2|]. split.
    + intros k (x & -> & _)%list_elem_of_fmap [(y & Ey & _)%list_elem_of_fmap|(tx & Etx & Hin)%list_elem_of_fmap]%elem_of_app.
      * vm_compute in Ey. discriminate Ey.
      * rewrite Forall_forall in Hk. destruct (Hk _ Hin) as [Hs _]. by rewrite <-Etx, starts_with_app in Hs.
    + split; [|split; [|done]].
      * apply NoDup_fmap_2; [done|]. unfold mass_days. by apply NoDup_fmap_filter.
      * intros k (x & -> & _)%list_elem_of_fmap (tx & Etx & Hin)%list_elem_of_fmap.
        rewrite Forall_forall in Hk. destruct (Hk _ Hin) as [_ Hs]. by rewrite <-Etx, starts_with_app in Hs.
Qed.
End Theorems.
End Days.

(** ** Filters *)

Module Filters.
Definition given (o : option str) : bool := truthy_opt o.

Definition hasActiveFilters (f : TransactionFilters) : bool :=
  bool_decide (f_type f ≠ None) || bool_decide (f_status f ≠ None) || given (f_dateFrom f) || given (f_dateTo f)
  || given (f_amountMin f) || given (f_amountMax f) || bool_decide (f_yieldOnly f = Some true) || given (f_asset f).

(** [{ ...f, search }] and the other updates of one filter *)
Definition with_search (search : str) (f : TransactionFilters) : TransactionFilters :=
  MkFilters (f_type f) (f_status f) (f_dateFrom f) (f_dateTo f) search (f_amountMin f) (f_amountMax f) (f_yieldOnly f) (f_asset f).
Definition with_type (t : option TransactionType) (f : TransactionFilters) : TransactionFilters :=
  MkFilters t (f_status f) (f_dateFrom f) (f_dateTo f) (f_search f) (f_amountMin f) (f_amountMax f) (f_yieldOnly f) (f_asset f).
Definition with_status (st : option TransactionStatus) (f : TransactionFilters) : TransactionFilters :=
  MkFilters (f_type f) st (f_dateFrom f) (f_dateTo f) (f_search f) (f_amountMin f) (f_amountMax f) (f_yieldOnly f) (f_asset f).
Definition with_yield (y : option bool) (f : TransactionFilters) : TransactionFilters :=
  MkFilters (f_type f) (f_status f) (f_dateFrom f) (f_dateTo f) (f_search f) (f_amountMin f) (f_amountMax f) y (f_asset f).
Definition with_asset (a : option str) (f : TransactionFilters) : TransactionFilters :=
  MkFilters (f_type f) (f_status f) (f_dateFrom f) (f_dateTo f) (f_search f) (f_amountMin f) (f_amountMax f) (f_yieldOnly f) a.
Definition with_dates (from to : option str) (f : TransactionFilters) : TransactionFilters :=
  MkFilters (f_type f) (f_status f) from to (f_search f) (f_amountMin f) (f_amountMax f) (f_yieldOnly f) (f_asset f).
Definition with_amounts (lo hi : option str) (f : TransactionFilters) : TransactionFilters :=
  MkFilters (f_type f) (f_status f) (f_dateFrom f) (f_dateTo f) (f_search f) lo hi (f_yieldOnly f) (f_asset f).

(** *** Presets of the date range *)

Definition DATE_PRESETS : list (str * Z) := [(js "7D", 7%Z); (js "30D", 30%Z); (js "90D", 90%Z); (js "1Y", 365%Z)].

Section Presets.
Context `{LocalTime}.

Definition presetStartIso (now days : Z) : str := take 10 (to_iso (local_midnight (days_before days now))).

Definition isPresetActive (now : Z) (f : TransactionFilters) (days : Z) : bool :=
  bool_decide (f_dateFrom f = Some (presetStartIso now days)) && negb (given (f_dateTo f)).
End Presets.

(** *** The asset chips *)

(** [Array.from(new Set(l))] *)
Definition distinct (l : list str) : list str := foldl (λ seen x, if bool_decide (x ∈ seen) then seen else seen ++ [x]) [] l.

Definition assetOptions `{UC : UnicodeCase} (items : list Transaction) : list str :=
  js "All" :: Tables.sort_by unit_order (distinct ((λ tx, to_upper (tx_asset tx)) <$> items)).

(** *** The screen *)

(** [searchText], the timer with the filters it will apply, [filterVisible] and the sheet's
    own copy of the filters. *)
Record screen := MkScreen {
  hs_feed : feed;
  hs_searchText : str;
  hs_timer : option TransactionFilters;
  hs_filterVisible : bool;
  hs_local : TransactionFilters;
}.

Definition mounted : screen := MkScreen (reload None initial_feed) [] None false DEFAULT_FILTERS.

Definition filters (s : screen) : TransactionFilters := fd_filters (hs_feed s).

(** The sheet's effect: its copy follows the filters while it is open. *)
Definition sync (s : screen) : screen :=
  if hs_filterVisible s then MkScreen (hs_feed s) (hs_searchText s) (hs_timer s) true (filters s) else s.

Definition apply_filters (f : TransactionFilters) (s : screen) : screen :=
  sync (MkScreen (applyFilters f (hs_feed s)) (hs_searchText s) (hs_timer s) (hs_filterVisible s) (hs_local s)).

Definition handleSearch (text : str) (s : screen) : screen :=
  MkScreen (hs_feed s) text (Some (with_search text (filters s))) (hs_filterVisible s) (hs_local s).

(** 350 ms after the last key. *)
Definition search_due (s : screen) : screen :=
  match hs_timer s with
  | Some f => apply_filters f (MkScreen (hs_feed s) (hs_searchText s) None (hs_filterVisible s) (hs_local s))
  | None => s
  end.

Definition handleApplyFilters (f : TransactionFilters) (s : screen) : screen := apply_filters (with_search (hs_searchText s) f) s.

(** The chips. *)
Definition toggle_yieldOnly (s : screen) : screen :=
  handleApplyFilters (with_yield (Some (negb (bool_decide (f_yieldOnly (filters s) = Some true)))) (filters s)) s.
Definition toggle_massPayouts (s : screen) : screen :=
  handleApplyFilters (with_yield (Some false) (with_type
    (if bool_decide (f_type (filters s) = Some TMassPayout) then None else Some TMassPayout) (filters s))) s.
Definition choose_asset (asset : str) (s : screen) : screen :=
  handleApplyFilters (with_asset (if bool_decide (asset = js "All") then None else Some asset) (filters s)) s.
Definition all_dates (s : screen) : screen := handleApplyFilters (with_dates None None (filters s)) s.
Definition choose_preset `{LocalTime} (now days : Z) (s : screen) : screen :=
  handleApplyFilters (with_dates (Some (presetStartIso now days)) None (filters s)) s.

(** The sheet. *)
Definition open_sheet (s : screen) : screen := sync (MkScreen (hs_feed s) (hs_searchText s) (hs_timer s) true (hs_local s)).
Definition close_sheet (s : screen) : screen := MkScreen (hs_feed s) (hs_searchText s) (hs_timer s) false (hs_local s).
Definition edit_sheet (u : TransactionFilters → TransactionFilters) (s : screen) : screen :=
  MkScreen (hs_feed s) (hs_searchText s) (hs_timer s) (hs_filterVisible s) (u (hs_local s)).
Definition reset_sheet : screen → screen := edit_sheet (λ _, MkFilters None None None None [] None None (Some false) None).

(** [onApply(local); onClose()]: both updates are rendered at once, so the copy is not synced in between. *)
Definition apply_sheet (s : screen) : screen := handleApplyFilters (hs_local s) (close_sheet s).

Inductive event :=
  | EType (text : str) | EDue | EYield | EMass | EAsset (a : str) | EAllDates | EDates (from to : option str)
  | EOpen | EClose | EEdit (u : TransactionFilters → TransactionFilters) | EReset | EApply | ESettle (i : nat) (r : res TransactionPage).

Definition step (s : screen) (e : event) : screen :=
  match e with
  | EType t => handleSearch t s
  | EDue => search_due s
  | EYield => toggle_yieldOnly s
  | EMass => toggle_massPayouts s
  | EAsset a => choose_asset a s
  | EAllDates => all_dates s
  | EDates from to => handleApplyFilters (with_dates from to (filters s)) s
  | EOpen => open_sheet s
  | EClose => close_sheet s
  | EEdit u => edit_sheet u s
  | EReset => reset_sheet s
  | EApply => apply_sheet s
  | ESettle i r => MkScreen (Feed.settle i r (hs_feed s)) (hs_searchText s) (hs_timer s) (hs_filterVisible s) (hs_local s)
  end.

Definition run (es : list event) (s : screen) : screen := foldl step s es.

(** No key is pressed and the delay has not passed. *)
Definition quiet (e : event) : bool := match e with EType _ | EDue => false | _ => true end.

Lemma filters_sync s : filters (sync s) = filters s.
Proof. unfold sync. by destruct (hs_filterVisible s). Qed.

Lemma filters_apply f s : filters (apply_filters f s) = f.
Proof. unfold apply_filters. by rewrite filters_sync. Qed.

Lemma timer_sync s : hs_timer (sync s) = hs_timer s.
Proof. unfold sync. by destruct (hs_filterVisible s). Qed.

Lemma text_sync s : hs_searchText (sync s) = hs_searchText s.
Proof. unfold sync. by destruct (hs_filterVisible s). Qed.

(** Quiet events leave the search and its timer alone. *)
Lemma quiet_list_step s e : quiet e = true → hs_timer (step s e) = hs_timer s ∧ hs_searchText (step s e) = hs_searchText s.
Proof.
  assert (A : ∀ f t, hs_timer (handleApplyFilters f t) = hs_timer t ∧ hs_searchText (handleApplyFilters f t) = hs_searchText t).
  { intros f t. unfold handleApplyFilters, apply_filters. by rewrite timer_sync, text_sync. }
  destruct e; intros Hq; try done; try (apply A); cbn [step open_sheet]; by rewrite timer_sync, text_sync.
Qed.

Lemma settle_filters i r s : fd_filters (Feed.settle i r s) = fd_filters s.
Proof. unfold Feed.settle. destruct (fd_pending s !! i) as [p|]; [|done]. by destruct p as [[]], r. Qed.

(** the delayed search restores the filters of the moment the key was pressed: whatever is
    chosen with the chips or the sheet before it is due is undone by it. If nothing else is chosen,
    it adds exactly the text typed last. *)
Theorem delayed_search_reverts s text es : forallb quiet es = true →
  let s' := search_due (run es (handleSearch text s)) in
  filters s' = with_search text (filters s) ∧ hs_searchText s' = text ∧ hs_timer s' = None ∧
  (hs_filterVisible (run es (handleSearch text s)) = true → hs_local s' = filters s').
Proof.
  intros Hq s'. assert (Q : hs_timer (run es (handleSearch text s)) = Some (with_search text (filters s)) ∧
      hs_searchText (run es (handleSearch text s)) = text).
  { revert Hq. induction es as [|e es IH] using rev_ind; [done|]. rewrite forallb_app. cbn. intros [Hq [He _]%andb_true_iff]%andb_true_iff.
    unfold run in *. rewrite foldl_app. cbn. destruct (quiet_list_step (foldl step (handleSearch text s) es) e He) as [-> ->]. by apply IH. }
  unfold s', search_due. destruct Q as [-> Et]. rewrite filters_apply. split; [done|].
  unfold apply_filters. rewrite text_sync, timer_sync. split; [done|]. split; [done|].
  intros Hv. unfold sync. cbn [hs_filterVisible]. rewrite Hv. done.
Qed.

(** applying the sheet sets exactly what it shows, with the text of the search field: opened
    and applied untouched it keeps the filters; reset and applied it clears all of them, after which
    no filter counts as active. *)
Theorem sheet_applies_what_it_shows s us : let s1 := foldl (λ s u, edit_sheet u s) (open_sheet s) us in
  hs_local s1 = foldl (λ f u, u f) (filters s) us ∧
  filters (apply_sheet s1) = with_search (hs_searchText s) (foldl (λ f u, u f) (filters s) us) ∧
  hs_filterVisible (apply_sheet s1) = false ∧
  hasActiveFilters (filters (apply_sheet (reset_sheet s1))) = false ∧ filters (close_sheet s1) = filters s.
Proof.
  intros s1. assert (E : hs_local s1 = foldl (λ f u, u f) (filters s) us ∧ hs_feed s1 = hs_feed s ∧ hs_searchText s1 = hs_searchText s).
  { unfold s1. induction us as [|u us IH] using rev_ind; [done|]. rewrite !foldl_app. cbn [foldl]. destruct IH as (IH & ? & ?).
    split; [|done]. cbn [edit_sheet hs_local]. by rewrite IH. }
  destruct E as (El & Ef & Et). split; [done|]. unfold apply_sheet, handleApplyFilters.
  rewrite !filters_apply. cbn [hs_searchText close_sheet reset_sheet edit_sheet hs_local].
  rewrite Et, El. split; [done|]. split; [done|]. split; [done|]. unfold filters. cbn. by rewrite Ef.
Qed.

(** the asset chips are "All" and then every asset code of the rows, in capitals, once each
    and in order. *)
Theorem asset_chips `{UC : UnicodeCase} items : ∃ codes, assetOptions items = js "All" :: codes ∧ NoDup codes ∧
  (∀ a, a ∈ codes ↔ ∃ tx, tx ∈ items ∧ a = to_upper (tx_asset tx)) ∧
  StronglySorted (λ x y, unit_order x y ≠ Gt) codes.
Proof.
  unfold assetOptions. eexists. split; [reflexivity|].
  assert (D : ∀ l seen, NoDup seen → let r := foldl (λ seen x, if bool_decide (x ∈ seen) then seen else seen ++ [x]) seen l in
    NoDup r ∧ ∀ a : str, a ∈ r ↔ a ∈ seen ∨ a ∈ l).
  { intros l. induction l as [|x l IH]; intros seen Hn; cbn [foldl].
    - split; [done|]. intros a. rewrite elem_of_nil. tauto.
    - case_bool_decide as Hx.
      + destruct (IH seen Hn) as [H1 H2]. split; [done|]. intros a. rewrite H2, elem_of_cons. naive_solver.
      + destruct (IH (seen ++ [x])) as [H1 H2].
        { apply NoDup_app. split; [done|]. split; [|apply NoDup_singleton]. by intros y Hy ->%list_elem_of_singleton. }
        split; [done|]. intros a. rewrite H2, elem_of_app, !elem_of_cons, elem_of_nil. tauto. }
  destruct (D ((λ tx, to_upper (tx_asset tx)) <$> items) [] (NoDup_nil_2)) as [Nd El].
  split; [by rewrite Tables.sort_by_perm|]. split.
  - intros a. rewrite Tables.sort_by_perm. unfold distinct. rewrite El, elem_of_nil, list_elem_of_fmap. naive_solver.
  - pose proof unit_order_laws as L. apply (Tables.sort_by_sorted (λ _, True) unit_order L). by apply Forall_true.
Qed.

(** The date of a day, as [to_iso] writes it. *)
Definition iso_day (day : Z) : str :=
  let '(y, m, d) := civil_from_days day in pad4 y ++ [45%N] ++ pad2 m ++ [45%N] ++ pad2 d.

Lemma iso_prefix t : take 10 (to_iso t) = iso_day (t / ms_per_day).
Proof. unfold to_iso, iso_day. by destruct (civil_from_days _) as [[y m] d]. Qed.

(** in a zone that is [o] milliseconds ahead of UTC all year, a preset of [days] starts on the
    local date that many days ago where [o] is not positive. East of it the date sent is the one
    before, so that the range holds one day more than it says; either way the chip it sets is shown
    active the same local day. *)
Theorem preset_start `{LocalTime} o now days f s : (∀ t, to_local t = t + o)%Z → (∀ t, of_local t = t - o)%Z →
  (- ms_per_day < o < ms_per_day)%Z →
  let day := local_day now in
  presetStartIso now days = iso_day (day - days - (if (0 <? o)%Z then 1 else 0)) ∧
  (∀ later, local_day later = day →
     isPresetActive later (filters (choose_preset now days s)) days = true ∧
     f_search (filters (choose_preset now days s)) = hs_searchText s ∧
     f_dateTo (filters (choose_preset now days s)) = None ∧ f_type (filters (choose_preset now days s)) = f_type (filters s)) ∧
  (isPresetActive now f days = true ↔ f_dateFrom f = Some (presetStartIso now days) ∧ truthy_opt (f_dateTo f) = false).
Proof.
  intros Hl Ho Hr day.
  assert (Pd : ∀ t, local_day t = day → presetStartIso t days = iso_day (day - days - (if (0 <? o)%Z then 1 else 0))).
  { intros t Ht. unfold presetStartIso. rewrite iso_prefix. f_equal. unfold local_midnight, days_before.
    rewrite Ho. unfold local_day at 1. rewrite Hl. rewrite Ht, Ho. unfold ms_per_day in *.
    rewrite Z.sub_add, Z.div_add_l by lia. rewrite (Z.div_small (to_local t mod _)) by (apply Z.mod_pos_bound; lia).
    destruct (Z.ltb_spec 0 o).
    - symmetry. apply (Z.div_unique _ _ _ (86400000 - o)); lia.
    - symmetry. apply (Z.div_unique _ _ _ (- o)); lia. }
  split; [by apply Pd|]. split.
  - intros later El. unfold choose_preset, handleApplyFilters. rewrite filters_apply.
    cbn [with_search with_dates f_search f_dateTo f_type]. split; [|done]. unfold isPresetActive. cbn [f_dateFrom f_dateTo].
    rewrite (Pd later El), (Pd now eq_refl). by rewrite bool_decide_eq_true_2.
  - unfold isPresetActive, given. by rewrite andb_true_iff, bool_decide_eq_true, negb_true_iff.
Qed.
End Filters.

(** ** Speeding up a pending transaction *)

Module SpeedUp.
Definition STUCK_PENDING_MS : Z := 60 * 1000.

Definition canSpeedUp `{HostDates} (now : Z) (tx : Transaction) : bool :=
  if negb (bool_decide (tx_status tx = TransactionService.Pending)) || negb (truthy_opt (tx_stellarTxXdr tx)) then false
  else num_ltb (num_of_Z STUCK_PENDING_MS) (num_sub (num_of_Z now) (date_ms (tx_timestamp tx))).

(** [speedingUpId]; the toasts raised (whether they report success) where a toaster is
    mounted; the reloads asked for. *)
Record speed := MkSpeed {
  sp_id : option str;
  sp_toaster : bool;
  sp_toasts : list (bool * str);
  sp_reloads : nat;
}.

Definition set_id (i : option str) (s : speed) : speed := MkSpeed i (sp_toaster s) (sp_toasts s) (sp_reloads s).
Definition toast (ok : bool) (text : str) (s : speed) : speed :=
  MkSpeed (sp_id s) (sp_toaster s) (if sp_toaster s then sp_toasts s ++ [(ok, text)] else sp_toasts s) (sp_reloads s).
Definition ask_reload (s : speed) : speed := MkSpeed (sp_id s) (sp_toaster s) (sp_toasts s) (S (sp_reloads s)).

Section Run.
Context `{StellarEnv, Host W, !StellarSdk W, !BrowserWallets W}.

Definition resolveWalletSource : M W wallet_source :=
  kp ← getLocalKeypair;
  match kp with
  | Some _ => mret SLocal
  | None => found ← checkFreighter; mret (if (found : bool) then SFreighter else SLocal)
  end.

Definition handleSpeedUp (tx : Transaction) : M (speed * W) unit :=
  match tx_stellarTxXdr tx with
  | Some xdr =>
      if truthy xdr then
        modify_state (set_id (Some (tx_id tx)));;
        try_catch
          (source ← host resolveWalletSource;
           host (speedUpTransaction xdr source None);;
           modify_state (toast true (js "Transaction sped up"));;
           modify_state ask_reload)
          (λ e, modify_state (toast false (err_message e)));;
        modify_state (set_id None)
      else mret tt
  | None => mret tt
  end.
End Run.

(** *** The button *)

Section Button.
Context `{HostDates}.

(** on a row whose timestamp is the ISO text of [t], "Speed up" is offered exactly when the
    row is pending, carries an envelope, and is more than a minute old. *)
Theorem speed_up_offered now t tx : tx_timestamp tx = to_iso t → iso_range t → iso_range now →
  canSpeedUp now tx = true ↔ tx_status tx = TransactionService.Pending ∧ (∃ x, tx_stellarTxXdr tx = Some x ∧ x ≠ []) ∧ (t + 60000 < now)%Z.
Proof.
  intros Et Rt Rn. unfold canSpeedUp. rewrite Et. unfold date_ms. rewrite parse_to_iso by done.
  rewrite !num_of_Z_safe by (unfold safe_int, iso_range, STUCK_PENDING_MS in *; lia).
  rewrite num_sub_safe by (unfold safe_int, iso_range in *; lia). cbn [num_ltb].
  assert (X : truthy_opt (tx_stellarTxXdr tx) = true ↔ ∃ x, tx_stellarTxXdr tx = Some x ∧ x ≠ []).
  { destruct (tx_stellarTxXdr tx) as [x|]; cbn; [rewrite truthy_true; naive_solver|]. split; [done|]. by intros (? & ? & _). }
  rewrite <-X. destruct (truthy_opt (tx_stellarTxXdr tx)); cbn [negb]; [|rewrite orb_true_r; naive_solver].
  rewrite orb_false_r. case_bool_decide; cbn [negb]; [|naive_solver].
  rewrite Z.ltb_lt. unfold STUCK_PENDING_MS. change (2 ^ (- 0))%Z with 1%Z. rewrite !Z.mul_1_r. naive_solver lia.
Qed.
End Button.

Section Spec.
Context `{StellarEnv, HostLaws W, SDK : !StellarSdk W, BW : !BrowserWallets W}.
Implicit Types (w : W).

Lemma getLocalKeypair_total w : ∃ kp w', getLocalKeypair w = (Ok kp, w') ∧ kept w w'.
Proof.
  destruct (get_spec AsyncStorage KEY_STORAGE_KEY w) as (r & w' & E & K & C). unfold getLocalKeypair, try_catch. rewrite run_bind, E.
  destruct C as [->|[[e ->] _]]; [|by eexists _, _].
  destruct (st_peek w AsyncStorage KEY_STORAGE_KEY) as [x|]; [|by eexists _, _].
  destruct (truthy x); [|by eexists _, _]. unfold of_res. rewrite run_bind. by destruct (kp_fromSecret x); eexists _, _.
Qed.

Lemma getLocalKeypair_stable w w' kp : kept w w' → st_live w → getLocalKeypair w = (Ok kp, w') →
  ∃ w2, getLocalKeypair w' = (Ok kp, w2) ∧ kept w' w2.
Proof.
  intros K L E. destruct (get_live AsyncStorage KEY_STORAGE_KEY w L) as (v & Ev & _).
  destruct (get_live AsyncStorage KEY_STORAGE_KEY w') as (w2 & E2 & K2); [by apply (kept_live _ _ K)|].
  exists w2. split; [|done]. revert E. unfold getLocalKeypair, try_catch. rewrite !run_bind, Ev, E2, (kept_peek _ _ K).
  destruct (st_peek w AsyncStorage KEY_STORAGE_KEY) as [x|]; [|by intros [= <- <-]].
  destruct (truthy x); [|by intros [= <- <-]]. unfold of_res. rewrite !run_bind.
  destruct (kp_fromSecret x); by intros [= <- <-].
Qed.

(** speeding up uses the local key where there is one, else the extension where there is one;
    whatever the wallet answers, the row stops spinning, success is announced and the list reloaded,
    and a failure is announced with its message and reloads nothing. With neither a key nor the
    extension nothing is signed or sent. *)
Theorem speed_up_settles tx xdr s w : tx_stellarTxXdr tx = Some xdr → xdr ≠ [] → ∃ source w1,
  resolveWalletSource w = (Ok source, w1) ∧ kept w w1 ∧
  (source = SFreighter ↔ (∃ v, getLocalKeypair w = (Ok None, v)) ∧ is_Some (freighter (W := W))) ∧ source ≠ SAlbedo ∧
  handleSpeedUp tx (s, w) =
    (Ok tt, (set_id None match (speedUpTransaction xdr source None w1).1 with
       | Ok _ => ask_reload (toast true (js "Transaction sped up") s)
       | Throw e => toast false (err_message e) s
       end, (speedUpTransaction xdr source None w1).2)) ∧
  (st_live w → (∃ v, getLocalKeypair w = (Ok None, v)) → freighter (W := W) = None →
     ∃ w2, speedUpTransaction xdr source None w1 = (Throw no_keypair, w2) ∧ kept w w2).
Proof.
  intros Ex Hx. destruct (getLocalKeypair_total w) as (kp & w1 & E & K).
  assert (R : ∃ source, resolveWalletSource w = (Ok source, w1) ∧ source = match kp with Some _ => SLocal | None =>
      match freighter (W := W) with Some _ => SFreighter | None => SLocal end end).
  { unfold resolveWalletSource. rewrite (run_bind_ok _ _ _ _ _ E). destruct kp; [by eexists|].
    unfold checkFreighter. rewrite run_bind. destruct (freighter (W := W)); by eexists. }
  destruct R as (source & R & Es). exists source, w1. split; [done|]. split; [done|]. split.
  { subst source. destruct kp as [kp|].
    - split; [done|]. intros [(v & Ev) _]. congruence.
    - destruct (freighter (W := W)); split; try done; [by intros _; split; eauto|]. by intros [_ [? ?]]. }
  split; [subst source; destruct kp; [done|by destruct (freighter (W := W))]|]. split.
  - unfold handleSpeedUp. rewrite Ex, (proj2 (truthy_true xdr) Hx), (run_bind_ok _ _ _ _ _ (run_modify_state _ _ _)), run_bind.
    unfold try_catch. rewrite (run_bind_ok _ _ _ _ _ (run_host _ _ _ _ _ R)), run_bind. unfold host. cbn [fst snd].
    by destruct (speedUpTransaction xdr source None w1) as [[h|e] w2].
  - intros L (v & Ev) Hf. assert (kp = None) as -> by congruence. rewrite Hf in Es. subst source.
    destruct (getLocalKeypair_stable w w1 None K L E) as (w2 & E2 & K2). exists w2. split; [|by etrans].
    unfold speedUpTransaction, fee_payer, local_keypair. cbn [truthy_opt].
    rewrite !run_bind, E2. done.
Qed.
End Spec.

(** *** Two rows at once *)

(** Calls of [handleSpeedUp] between their first and last update. *)
Record flights := Flights { fl_id : option str; fl_running : list str }.

Inductive flight_step : flights → flights → Prop :=
  | flight_press s id : fl_id s ≠ Some id → flight_step s (Flights (Some id) (fl_running s ++ [id]))
  | flight_end s id l1 l2 : fl_running s = l1 ++ id :: l2 → flight_step s (Flights None (l1 ++ l2)).

(** the one [speedingUpId] does not keep a row's button disabled: after a press on another
    row, the first is offered again while its fee bump is still on its way, and a second one is sent. *)
Theorem speed_up_sent_twice a b : a ≠ b →
  rtc flight_step (Flights None []) (Flights (Some a) [a; b; a]).
Proof.
  intros Hab. eapply rtc_l; [by apply (flight_press _ a)|]. cbn. eapply rtc_l; [apply (flight_press _ b); cbn; congruence|].
  cbn. eapply rtc_l; [apply (flight_press _ a); cbn; congruence|]. done.
Qed.
End SpeedUp.

(** ** Runs *)

Module Runs.
Import Days Filters SpeedUp.
#[local] Existing Instances ascii_case iso_only StellarWallet.Runs.demo_env StellarWallet.Runs.demo_sdk StellarWallet.Runs.no_extension.

(** One hour ahead of UTC, as in Lagos. *)
#[local] Instance lagos : LocalTime := {| to_local t := (t + 3600000)%Z; of_local t := (t - 3600000)%Z |}.
#[local] Instance plain_dates : IntlDates := {|
  intl_date _ d := match d with Fin t _ => Some (iso_day (local_day t)) | _ => None end;
  locale_date _ := js "Invalid Date" |}.

Definition sent (id : str) (type : TransactionType) (at_ : str) : Transaction :=
  MkTransaction id type TransactionService.Pending (js "1") (js "xlm") (js "1") (js "USD") (js "GA") None at_ None None None None None None
    (Some (js "AAAA")) None None.

(** The world's clock stands at 2026-01-01T00:00:00Z. *)
Definition rows : list Transaction :=
  [sent (js "t1") TSent (js "2026-01-01T00:00:00.000Z"); sent (js "t2") TMassPayout (js "2025-12-31T22:00:00.000Z");
   sent (js "t3") TMassPayout (js "2025-12-31T20:00:00.000Z"); sent (js "t4") TSent (js "2025-12-01T00:00:00.000Z")].

Example grouped : item_key <$> match (groupByDate rows (world [] [])).1 with Ok l => l | Throw _ => [] end =
  [js "hdr_Today"; js "t1"; js "hdr_Yesterday"; js "mp_hdr_Yesterday"; js "t2"; js "t3"; js "hdr_2025-12-01"; js "t4"].
Proof. vm_compute. reflexivity. Qed.

Lemma plain_dates_written : dates_written.
Proof.
  split; [|done]. intros style d s. cbn. destruct d as [| |t e]; [done..|].
  assert (iso_day (local_day t) ≠ []) as N by (unfold iso_day; by destruct (civil_from_days (local_day t)) as [[y m] dd]).
  congruence.
Qed.

Lemma grouped_by_day_witness : ∃ labels w',
  groupByDate rows (world [] []) = (Ok (concat (day_items <$> Days.runs (zip labels rows))), w').
Proof.
  destruct (grouped_by_day rows (world [] []) plain_dates_written) as (labels & w' & _ & _ & E & _).
  exists labels, w'. exact E.
Defined.

Lemma delayed_search_reverts_witness :
  filters (search_due (Filters.run [EYield] (handleSearch (js "rent") mounted))) = with_search (js "rent") DEFAULT_FILTERS.
Proof. apply (delayed_search_reverts mounted (js "rent") [EYield] eq_refl). Defined.

Lemma preset_start_witness : presetStartIso 1767225600000 7 = js "2025-12-24".
Proof.
  etrans; [apply (preset_start 3600000 1767225600000 7 DEFAULT_FILTERS mounted)|vm_compute; reflexivity]; [intros; reflexivity..|].
  vm_compute. split; reflexivity.
Defined.

Lemma speed_up_offered_witness : canSpeedUp 1767225700000 (sent (js "t1") TSent (to_iso 1767225600000)) = true.
Proof.
  apply (speed_up_offered 1767225700000 1767225600000); [reflexivity|vm_compute; split; [discriminate|reflexivity]..|].
  split; [reflexivity|]. split; [|reflexivity]. exists (js "AAAA"). split; [reflexivity|discriminate].
Defined.

Lemma speed_up_settles_witness : ∃ source w1,
  resolveWalletSource StellarWallet.Runs.w0 = (Ok source, w1) ∧ source ≠ SAlbedo.
Proof.
  destruct (speed_up_settles (sent (js "t1") TSent (js "")) (js "AAAA") (MkSpeed None true [] 0) StellarWallet.Runs.w0 eq_refl)
    as (source & w1 & R & _ & _ & N & _); [discriminate|].
  exists source, w1. split; [exact R|exact N].
Defined.

Lemma speed_up_sent_twice_witness : rtc flight_step (Flights None []) (Flights (Some (js "a")) [js "a"; js "b"; js "a"]).
Proof. apply (speed_up_sent_twice (js "a") (js "b")). discriminate. Defined.
End Runs.
