(* ===== verification/HistoryRows.v ===== *)
(** * The rows of the history

    Model of what [mobileapp/app/(personal)/history.tsx] shows for the list that [HistoryScreen] groups: the
    headers, a row per transaction with its labels, badges, amount and button, and the texts of an
    empty list. *)

From S2P Require Import Prelude JsString JsNumber JsDate Json Effects Decode Scripts TransactionService HistoryScreen.

Module Rows.
Import Days.

Definition statusColor (s : TransactionStatus) : str :=
  match s with Completed => js "#22C55E" | Pending => js "#F59E0B" | Failed => js "#EF4444" end.

(** Name, background and color. *)
Definition typeIcon (t : TransactionType) : str * str * str :=
  match t with
  | TSent => (js "arrow-up", js "#FFEBEE", js "#EF4444")
  | TReceived => (js "arrow-down", js "#E8F5E9", js "#22C55E")
  | TYield => (js "trending-up", js "#F0FDF4", js "#16A34A")
  | TMassPayout => (js "people", js "#EDE9FE", js "#7C3AED")
  | _ => (js "swap-horizontal", js "#E3F2FD", js "#2196F3")
  end.

Definition yieldTagLabel (y : option YieldType) : str :=
  match y with Some Interest => js "Interest" | Some Reward => js "Reward" | Some Apy => js "APY" | None => js "Yield" end.

Definition truncateAddress (addr : str) : str :=
  if length addr <=? 20 then addr else take 8 addr ++ [8230%N] ++ slice_last 6 addr.

(** What a row shows. *)
Record row := MkRow {
  rw_icon : str * str * str;
  rw_title : str;
  rw_massBadge : bool;
  rw_anchor : option str;
  rw_time : str;
  rw_yieldTag : option str;
  rw_status : option (str * str);
  rw_speedUp : option bool;   (** the button, if it is there: whether it is busy *)
  rw_amountColor : str;
  rw_amount : str;
  rw_fiat : str;
}.

Definition BLACK : str := js "#000000".

Section View.
Context `{HostDates, IntlDates}.

Definition TransactionRow (now : Z) (speedingUp : bool) (item : Transaction) : row :=
  let isOutgoing := bool_decide (tx_type item = TSent) in
  let isMassPayout := is_mass item in
  MkRow (typeIcon (tx_type item))
    (if isMassPayout && truthy_opt (tx_senderName item) then default [] (tx_senderName item)
     else default (truncateAddress (tx_address item)) (tx_addressLabel item))
    isMassPayout
    (if isMassPayout && truthy_opt (tx_senderAnchor item) then Some (js "via " ++ default [] (tx_senderAnchor item)) else None)
    (formatDate (date_ms (tx_timestamp item)) MonthDayTime)
    (if bool_decide (tx_type item = TYield) then Some (yieldTagLabel (tx_yieldType item)) else None)
    (if bool_decide (tx_status item = Completed) then None else Some (statusColor (tx_status item), status_text (tx_status item)))
    (if SpeedUp.canSpeedUp now item then Some speedingUp else None)
    (if isOutgoing then BLACK else if isMassPayout then js "#7C3AED" else js "#22C55E")
    ((if isOutgoing then [8722%N] else js "+") ++ tx_amount item ++ js " " ++ tx_asset item)
    (tx_fiatValue item ++ js " " ++ tx_fiatCurrency item).

(** An entry of the list; a row opens the screen of its transaction. *)
Inductive entry := SectionHeader (title : str) | MassPayoutSectionHeader | Row (route : str) (r : row).

Definition renderItem (now : Z) (speedingUpId : option str) (i : ListItem) : entry :=
  match i with
  | Header _ title => SectionHeader title
  | MassPayoutHeader _ => MassPayoutSectionHeader
  | Tx _ tx => Row (js "/transaction/" ++ tx_id tx) (TransactionRow now (bool_decide (speedingUpId = Some (tx_id tx))) tx)
  end.

(** What stands below and instead of the rows. *)
Definition ListFooter (loadingMore : bool) : bool := loadingMore.
Definition ListEmpty (loading filtersActive : bool) (searchText : str) : option str :=
  if loading then None
  else Some (if filtersActive || truthy searchText then js "Try adjusting your filters or search."
             else js "Your transactions will appear here.").
End View.

(** *** Properties *)

(** an address of at most twenty characters is shown whole; a longer one in fifteen, and two longer ones cannot be told apart
    exactly when they share the first eight and the last six. *)
Theorem shown_address a b :
  (length a ≤ 20 → truncateAddress a = a) ∧
  (20 < length a → length (truncateAddress a) = 15) ∧
  (20 < length a → 20 < length b →
   truncateAddress a = truncateAddress b ↔ take 8 a = take 8 b ∧ slice_last 6 a = slice_last 6 b).
Proof.
  unfold truncateAddress. split_and!.
  - by intros ->%Nat.leb_le.
  - intros L. rewrite (proj2 (Nat.leb_gt _ _)) by lia. unfold slice_last. rewrite !length_app, length_take, length_drop. change (length [8230%N]) with 1. lia.
  - intros La Lb. rewrite !(proj2 (Nat.leb_gt _ _)) by lia. split; [|by intros [-> ->]].
    intros E. apply app_inj_1 in E as [E1 E2]; [|rewrite !length_take; lia]. by injection E2 as E2.
Qed.

Section Shown.
Context `{HostDates, LocalTime, IntlDates, HostLaws W}.

Definition entry_row (e : entry) : option (str * row) := match e with Row route r => Some (route, r) | _ => None end.

Lemma add_rows_txs l g : omap item_tx (gr_result (add_rows l g)) = omap item_tx (gr_result g) ++ l.*2.
Proof.
  revert g. induction l as [|[label tx] l IH]; intros g; [by rewrite app_nil_r|].
  change (add_rows ((label, tx) :: l) g) with (add_rows l (add_row label tx g)). rewrite IH. cbn [fmap list_fmap snd].
  change (tx :: l.*2) with ([tx] ++ l.*2). rewrite app_assoc. f_equal.
  unfold add_row, push. repeat case_match; cbn [gr_result gr_lastDate gr_massShown]; rewrite !omap_app; cbn; by rewrite ?app_nil_r.
Qed.

(** the list shows one row per transaction, in their order, each leading to the screen of its transaction; a busy button
    stands only on a row whose transaction is the one being sped up and can be. *)
Theorem history_rows txs now speedingUpId (w : W) : ∃ items w',
  groupByDate txs w = (Ok items, w') ∧ kept w w' ∧
  omap entry_row (renderItem now speedingUpId <$> items) =
    (λ tx, (js "/transaction/" ++ tx_id tx, TransactionRow now (bool_decide (speedingUpId = Some (tx_id tx))) tx)) <$> txs ∧
  ∀ route r, Row route r ∈ renderItem now speedingUpId <$> items → rw_speedUp r = Some true →
    ∃ tx, tx ∈ txs ∧ speedingUpId = Some (tx_id tx) ∧ SpeedUp.canSpeedUp now tx = true.
Proof.
  destruct (group_rows_run txs (Grouping [] [] false) w) as (labels & w' & E & K & L).
  set (items := gr_result (add_rows (zip labels txs) (Grouping [] [] false))).
  assert (T : omap item_tx items = txs).
  { unfold items. rewrite add_rows_txs. cbn. apply snd_zip. apply Forall2_length in L. lia. }
  exists items, w'. split; [unfold groupByDate; by rewrite (run_bind_ok _ _ _ _ _ E)|]. split; [done|]. split.
  - rewrite <-T. clear. induction items as [|[k t|k|k tx] items IH]; cbn in *; [done..|]. by f_equal.
  - intros route r (i & Ei & Hi)%list_elem_of_fmap Hr. destruct i as [?|?|k tx]; [done..|]. injection Ei as -> ->.
    exists tx. assert (Hin : tx ∈ txs) by (rewrite <-T; apply list_elem_of_omap; by exists (Tx k tx)). split; [done|].
    cbn [TransactionRow rw_speedUp] in Hr. destruct (SpeedUp.canSpeedUp now tx); [|done]. injection Hr as Hr. by apply bool_decide_eq_true in Hr.
Qed.
End Shown.
End Rows.

(** ** Concrete runs *)

Module Runs.
Import Days Rows.
#[local] Existing Instances ascii_case iso_only HistoryScreen.Runs.lagos HistoryScreen.Runs.plain_dates.
Abbreviation sample := HistoryScreen.Runs.rows.

Lemma shown_address_witness :
  let a := js "GABCDEFGHIJKLMNOPQRSTUVWXYZ" in let b := js "GABCDEFG-UVWXYZ-GABCD-UVWXYZ" in
  (length a ≤ 20 → truncateAddress a = a) ∧ (20 < length a → length (truncateAddress a) = 15) ∧
  (20 < length a → 20 < length b → truncateAddress a = truncateAddress b ↔ take 8 a = take 8 b ∧ slice_last 6 a = slice_last 6 b).
Proof. apply shown_address. Defined.

Example same_label : truncateAddress (js "GABCDEFGHIJKLMNOPQRSTUVWXYZ") = truncateAddress (js "GABCDEFG-UVWXYZ-GABCD-UVWXYZ").
Proof. vm_compute. reflexivity. Qed.

Lemma history_rows_witness : ∃ items w',
  groupByDate sample (world [] []) = (Ok items, w') ∧ kept (world [] []) w' ∧
  omap entry_row (renderItem 1767225700000 (Some (js "t4")) <$> items) =
    (λ tx, (js "/transaction/" ++ tx_id tx, TransactionRow 1767225700000 (bool_decide (Some (js "t4") = Some (tx_id tx))) tx)) <$> sample ∧
  ∀ route r, Row route r ∈ renderItem 1767225700000 (Some (js "t4")) <$> items → rw_speedUp r = Some true →
    ∃ tx, tx ∈ sample ∧ Some (js "t4") = Some (tx_id tx) ∧ SpeedUp.canSpeedUp 1767225700000 tx = true.
Proof. apply (history_rows sample 1767225700000 (Some (js "t4")) (world [] [])). Defined.

(** A row that waits, outgoing, and the same seen for a mass payout. *)
Example two_rows :
  (λ tx, (rw_amount (TransactionRow 1767225700000 false tx), rw_title (TransactionRow 1767225700000 false tx),
          rw_massBadge (TransactionRow 1767225700000 false tx))) <$> take 2 sample
  = [([8722%N] ++ js "1 xlm", js "GA", false); (js "+1 xlm", js "GA", true)].
Proof. vm_compute. reflexivity. Qed.
End Runs.
