(* ===== verification/Merchant.v ===== *)
(** * Merchant screens

    Model of the point of sale of [mobileapp/app/merchant]: withdrawing ([withdraw-bank.tsx],
    [transfer-summary.tsx], [success.tsx], module Withdraw), the PIN of a transfer ([transfer-confirmation.tsx],
    Pin), the sale ([accept-payment.tsx], [waiting-payment.tsx], [contact-made.tsx], [payment-received.tsx],
    Sale), the payment code ([qr-code.tsx], Code), the history tab ([(tabs)/history.tsx], History) and the
    password form ([change-password.tsx], Password). The animations between two screens are left out: only
    what their end does is modelled. *)

From S2P Require Import Prelude JsString JsNumber JsRound UriCodec Sep0007 HomeScreen.

(** ** Withdrawing *)

Module Withdraw.
Import YieldCard.

Definition MOCK_BALANCE : num := Number (js "15046.12").
Definition recipient_number : str := js "91235704180".

Record MOCK_TRANSACTION := MkTransaction {
  wt_id : str; wt_amount : num; wt_bankName : str; wt_date : str; wt_status : str }.
Definition MOCK_TRANSACTIONS : list MOCK_TRANSACTION :=
  [MkTransaction (js "1") (num_of_Z 500) (js "Opay") (js "Jan 28, 2026") (js "completed");
   MkTransaction (js "2") (num_of_Z 1200) (js "Opay") (js "Jan 25, 2026") (js "completed");
   MkTransaction (js "3") (num_of_Z 350) (js "Opay") (js "Jan 20, 2026") (js "pending")].

Inductive TabType := withdraw | history.
Record screen := MkScreen { wd_activeTab : TabType; wd_amount : str; wd_pushed : list str }.
Definition mounted : screen := MkScreen withdraw [] [].

(** What the user does: the tabs, the field, "Max" and "Withdraw". *)
Inductive event := Tab (t : TabType) | Typed (text : str) | Max | Withdraw.

Definition handleTabPress (t : TabType) (s : screen) : screen := MkScreen t (wd_amount s) (wd_pushed s).
Definition setAmount (text : str) (s : screen) : screen := MkScreen (wd_activeTab s) text (wd_pushed s).
Definition handleMaxPress (s : screen) : screen := setAmount (num_to_fixed 2 MOCK_BALANCE) s.
Definition handleWithdraw (s : screen) : screen :=
  MkScreen (wd_activeTab s) (wd_amount s) (wd_pushed s ++ [js "/merchant/transfer-summary"]).

Definition step (s : screen) (e : event) : screen :=
  match e with Tab t => handleTabPress t s | Typed x => setAmount x s | Max => handleMaxPress s | Withdraw => handleWithdraw s end.

Section Display.
Context `{Locale}.
Definition formatCurrency (value : num) : str := to_locale (js "en-US") 2 2 value.

(** The cards of the history tab: account, time, dollars and naira, the same account and time on each. *)
Definition history_cards : list (str * str * str * str) :=
  (λ t, (recipient_number, js "14:03:23pm , Nov 12", js "$" ++ formatCurrency (wt_amount t),
         8358%N :: to_locale (js "en-NG") 2 3 (num_mul (wt_amount t) (num_of_Z 1500)))) <$> MOCK_TRANSACTIONS.

(** The screens that follow: the summary, and the success. *)
Definition summary_lines : list str :=
  [js "$" ++ formatCurrency (Number (js "15046.12")); recipient_number; js "Nov 12 2025, 8.12 AM"].
Definition summary_confirm : str := js "/merchant/success".
Definition success_line : str := js "$" ++ formatCurrency (Number (js "15046.12")).

(** whatever amount was typed, none at all included, the withdrawal goes on to a summary
    and a success that state the whole balance; "Max" writes that balance to the cent. *)
Theorem withdrawal_ignores_amount es :
  wd_pushed (foldl step mounted (es ++ [Withdraw])) = wd_pushed (foldl step mounted es) ++ [js "/merchant/transfer-summary"] ∧
  head summary_lines = Some success_line ∧ success_line = js "$" ++ formatCurrency MOCK_BALANCE ∧
  wd_amount (foldl step mounted (es ++ [Max])) = js "15046.12".
Proof.
  split; [by rewrite foldl_app|]. split; [done|]. split; [done|]. rewrite foldl_app. cbn. vm_compute. reflexivity.
Qed.
End Display.
End Withdraw.

(** ** The PIN of a transfer *)

Module Pin.
Definition PIN_LENGTH : nat := 4.

(** The PIN typed, the error shown, the checks that run (each with the PIN of its render, oldest first), the
    timers that clear the error, and the routes pushed. *)
Record screen := MkScreen { pn_pin : str; pn_error : bool; pn_checks : list str; pn_clears : nat; pn_pushed : list str }.
Definition mounted : screen := MkScreen [] false [] 0 [].

(** The effect of a changed PIN: a full one is checked in 300 ms. *)
Definition pin_changed (s : screen) : screen :=
  if (length (pn_pin s) =? PIN_LENGTH)%nat
  then MkScreen (pn_pin s) (pn_error s) (pn_checks s ++ [pn_pin s]) (pn_clears s) (pn_pushed s) else s.

Definition setPin (value : str) (s : screen) : screen :=
  if str_eqb value (pn_pin s) then s
  else pin_changed (MkScreen value (pn_error s) (pn_checks s) (pn_clears s) (pn_pushed s)).

Definition handlePinInput (value : str) (s : screen) : screen :=
  if pn_error s then s else if (length value <=? PIN_LENGTH)%nat then setPin value s else s.

(** The oldest check runs out. *)
Definition check (s : screen) : screen :=
  match pn_checks s with
  | [] => s
  | pin :: rest =>
      if str_eqb pin (js "1234") then MkScreen (pn_pin s) (pn_error s) rest (pn_clears s) (pn_pushed s ++ [js "/merchant/success"])
      else setPin [] (MkScreen (pn_pin s) true rest (S (pn_clears s)) (pn_pushed s))
  end.

(** The oldest of the timers that clear the error runs out. *)
Definition clear_error (s : screen) : screen :=
  match pn_clears s with 0 => s | S n => MkScreen (pn_pin s) false (pn_checks s) n (pn_pushed s) end.

Inductive event := Input (value : str) | Check_due | Clear_due.
Definition step (s : screen) (e : event) : screen :=
  match e with Input v => handlePinInput v s | Check_due => check s | Clear_due => clear_error s end.
Definition run (es : list event) : screen := foldl step mounted es.

(** *** Properties *)

#[export] Instance event_eq_dec : EqDecision event.
Proof. solve_decision. Defined.

Definition right_inputs (es : list event) : nat := length (filter (λ e, e = Input (js "1234")) es).
Definition right_checks (s : screen) : nat := length (filter (λ p, p = js "1234") (pn_checks s)).

(** Every check that runs, and every success pushed, comes from an entry of the right PIN; a PIN is never
    longer than four characters. *)
Record sound (es : list event) (s : screen) : Prop := Sound {
  so_pin : length (pn_pin s) ≤ PIN_LENGTH;
  so_count : length (pn_pushed s) + right_checks s ≤ right_inputs es;
  so_routes : Forall (λ r, r = js "/merchant/success") (pn_pushed s);
}.

Lemma right_checks_snoc pin e c n r (cs : list str) :
  right_checks (MkScreen pin e (cs ++ [c]) n r) = right_checks (MkScreen pin e cs n r) + (if decide (c = js "1234") then 1 else 0).
Proof. unfold right_checks. cbn [pn_checks]. rewrite filter_app, length_app, filter_cons. case_decide; cbn; lia. Qed.

Lemma right_inputs_snoc es e : right_inputs (es ++ [e]) = right_inputs es + (if decide (e = Input (js "1234")) then 1 else 0).
Proof. unfold right_inputs. rewrite filter_app, length_app, filter_cons. case_decide; cbn; lia. Qed.

Lemma input_sound es s v : sound es s → sound (es ++ [Input v]) (handlePinInput v s).
Proof.
  intros [P C R]. unfold handlePinInput.
  assert (Hs : sound (es ++ [Input v]) s) by (split; [done|rewrite right_inputs_snoc; lia|done]).
  destruct (pn_error s); [done|]. destruct (Nat.leb_spec (length v) PIN_LENGTH) as [L|]; [|done].
  unfold setPin. destruct (str_eqb v (pn_pin s)); [done|]. unfold pin_changed. cbn [pn_pin pn_error pn_checks pn_clears pn_pushed].
  destruct (_ =? _)%nat.
  - split; cbn [pn_pin pn_pushed]; [done| |done]. rewrite right_checks_snoc, right_inputs_snoc.
    change (right_checks (MkScreen _ _ (pn_checks s) _ _)) with (right_checks s).
    destruct (decide (v = js "1234")) as [->|N]; [rewrite decide_True by done; lia|]. lia.
  - split; cbn [pn_pin pn_pushed]; [done| |done]. change (right_checks (MkScreen _ _ (pn_checks s) _ _)) with (right_checks s).
    rewrite right_inputs_snoc. lia.
Qed.

Lemma check_sound es s : sound es s → sound (es ++ [Check_due]) (check s).
Proof.
  intros [P C R]. unfold check. assert (Hn : right_inputs es ≤ right_inputs (es ++ [Check_due])) by (rewrite right_inputs_snoc; lia).
  destruct (pn_checks s) as [|pin rest] eqn:E; [by split; [done|lia|]|].
  assert (Hc : right_checks s = (if decide (pin = js "1234") then 1 else 0) + length (filter (λ p, p = js "1234") rest)).
  { unfold right_checks. rewrite E, filter_cons. case_decide; cbn; lia. }
  destruct (str_eqb pin (js "1234")) eqn:Ep.
  - apply str_eqb_true in Ep as ->. rewrite decide_True in Hc by done.
    split; cbn [pn_pin pn_pushed]; [done| |by apply Forall_app; split; [|constructor]].
    unfold right_checks in *. cbn [pn_checks]. rewrite length_app. cbn [length]. lia.
  - assert (length (filter (λ p, p = js "1234") rest) ≤ right_checks s) by (case_decide; lia).
    unfold setPin. cbn [pn_pin]. destruct (str_eqb [] (pn_pin s)).
    all: unfold pin_changed; cbn [pn_pin length PIN_LENGTH Nat.eqb]; split; cbn [pn_pin pn_pushed]; unfold PIN_LENGTH in *; cbn [length]; try done; try lia.
    all: unfold right_checks in *; cbn [pn_checks]; lia.
Qed.

(** the transfer is confirmed at most once for each time the right PIN was entered, and for
    no other PIN; but a check that has begun is not called off: the right PIN confirms even after a digit of
    it was taken back, and entering it again within the delay confirms twice. *)
Theorem confirmed_by_right_pin es :
  length (pn_pushed (run es)) ≤ right_inputs es ∧ length (pn_pin (run es)) ≤ PIN_LENGTH ∧
  pn_pushed (run [Input (js "1234"); Input (js "123"); Check_due]) = [js "/merchant/success"] ∧
  pn_pushed (run [Input (js "1234"); Input (js "123"); Input (js "1234"); Check_due; Check_due])
    = [js "/merchant/success"; js "/merchant/success"].
Proof.
  assert (sound es (run es)) as [P C _].
  { induction es as [|e es IH] using rev_ind; [split; cbn; [lia|lia|constructor]|].
    unfold run in *. rewrite foldl_app. cbn [foldl]. destruct e as [v| |]; cbn [step]; [by apply input_sound|by apply check_sound|].
    destruct IH as [P C R]. unfold clear_error. destruct (pn_clears _); split; try done; rewrite right_inputs_snoc;
      unfold right_checks in *; cbn [pn_checks pn_pushed] in *; lia. }
  split; [lia|]. split; [done|]. split; vm_compute; reflexivity.
Qed.
End Pin.

(** ** The sale *)

Module Sale.
Definition predefinedAmounts : list Z := [5; 10; 15; 20; 35; 50; 75; 100]%Z.

(** The screens from the amount to the receipt; the amount is a parameter of the route, [None] when absent. *)
Inductive screen :=
  | AcceptPayment (amount : str)
  | WaitingPayment (amount : option str)
  | ContactMade (amount : option str)
  | PaymentReceived (amount : option str)
  | MerchantHome.

(** A template literal writes an absent parameter as a word. *)
Definition in_route (amount : option str) : str := default (js "undefined") amount.
Definition shown (amount : option str) : str :=
  js "$" ++ (match amount with Some a => if truthy a then a else js "0" | None => js "0" end).

(** What happens: typing, an amount button, the button that makes the code; the end of the 20 seconds, of the
    5 seconds and their fade; "Scan instead" and "Done". *)
Inductive event := Typed (text : str) | Chosen (value : Z) | Generate | Timer | Scan_instead | Done.

Section Flow.
(** How the router reads the [amount] of a route. *)
Variable amount_param : str → option str.

Definition open (route : str) : option screen :=
  let at_ p := starts_with p route in
  if at_ (js "/merchant/waiting-payment") then Some (WaitingPayment (amount_param route))
  else if at_ (js "/merchant/contact-made") then Some (ContactMade (amount_param route))
  else if at_ (js "/merchant/payment-received") then Some (PaymentReceived (amount_param route))
  else if at_ (js "/merchant/accept-payment") then Some (AcceptPayment [])
  else if str_eqb route (js "/merchant") then Some MerchantHome
  else None.

(** The route an event pushes on a screen. *)
Definition pushes (s : screen) (e : event) : option str :=
  match s, e with
  | AcceptPayment amount, Generate => if truthy amount then Some (js "/merchant/waiting-payment?amount=" ++ amount) else None
  | WaitingPayment amount, Timer => Some (js "/merchant/contact-made?amount=" ++ in_route amount)
  | ContactMade amount, Timer => Some (js "/merchant/payment-received?amount=" ++ in_route amount)
  | ContactMade _, Scan_instead => Some (js "/merchant/accept-payment")
  | PaymentReceived _, Done => Some (js "/merchant")
  | _, _ => None
  end.

Definition step (s : screen) (e : event) : screen :=
  match s, e with
  | AcceptPayment _, Typed text => AcceptPayment text
  | AcceptPayment _, Chosen value => AcceptPayment (Z_to_str value)
  | _, _ =>
      match pushes s e with
      | Some route => default s (open route)
      | None => s
      end
  end.

Definition lines (s : screen) : list str :=
  match s with
  | WaitingPayment a => [js "Waiting for Payment..."; shown a; shown a ++ js " waiting to be confirmed"]
  | PaymentReceived a => [js "Payment Received"; shown a; js "USD added to your balance"]
  | _ => []
  end.

(** a sale is reported as paid with no payment at all: once an amount is entered, the two
    timers alone lead from the code to "Payment Received", stating the amount that was asked for. *)
Theorem sale_always_received amount :
  truthy amount = true →
  (∀ base, amount_param (base ++ js "?amount=" ++ amount) = Some amount) →
  foldl step (AcceptPayment []) [Typed amount; Generate; Timer; Timer] = PaymentReceived (Some amount) ∧
  lines (PaymentReceived (Some amount)) = [js "Payment Received"; js "$" ++ amount; js "USD added to your balance"] ∧
  foldl step (AcceptPayment []) [Typed amount; Generate; Timer; Timer; Done] = MerchantHome.
Proof.
  intros Ht Hp.
  pose proof (Hp (js "/merchant/waiting-payment")) as P1. pose proof (Hp (js "/merchant/contact-made")) as P2.
  pose proof (Hp (js "/merchant/payment-received")) as P3.
  assert (S1 : step (AcceptPayment amount) Generate = WaitingPayment (Some amount)).
  { unfold step, pushes. rewrite Ht. unfold open.
    change (starts_with (js "/merchant/waiting-payment") (js "/merchant/waiting-payment?amount=" ++ amount)) with true. cbv iota. cbn [default from_option id]. f_equal. exact P1. }
  assert (S2 : step (WaitingPayment (Some amount)) Timer = ContactMade (Some amount)).
  { unfold step, pushes, in_route. cbn [default from_option id]. unfold open.
    change (starts_with (js "/merchant/waiting-payment") (js "/merchant/contact-made?amount=" ++ amount)) with false.
    change (starts_with (js "/merchant/contact-made") (js "/merchant/contact-made?amount=" ++ amount)) with true. cbv iota. cbn [default from_option id]. f_equal. exact P2. }
  assert (S3 : step (ContactMade (Some amount)) Timer = PaymentReceived (Some amount)).
  { unfold step, pushes, in_route. cbn [default from_option id]. unfold open.
    change (starts_with (js "/merchant/waiting-payment") (js "/merchant/payment-received?amount=" ++ amount)) with false.
    change (starts_with (js "/merchant/contact-made") (js "/merchant/payment-received?amount=" ++ amount)) with false.
    change (starts_with (js "/merchant/payment-received") (js "/merchant/payment-received?amount=" ++ amount)) with true. cbv iota. cbn [default from_option id]. f_equal. exact P3. }
  cbn [foldl]. change (step (AcceptPayment []) (Typed amount)) with (AcceptPayment amount). rewrite S1, S2, S3.
  split; [done|]. split; [|done]. unfold lines, shown. by rewrite Ht.
Qed.
End Flow.
End Sale.

(** ** The payment code *)

Module Code.
Definition MERCHANT_STELLAR_ADDRESS : str := js "GABC1234EXAMPLESTELLARADDRESSXXXXXXXXXXXXXXXXXXXXXXXXXXXXXXX".

Definition code_params (amount : option str) : Sep0007PaymentParams :=
  MkPay MERCHANT_STELLAR_ADDRESS (if truthy_opt amount then amount else None) (Some (js "USDC")) None
    (Some (js "Zaps merchant payment")) None None None None None None.

(** [None]: the amount cannot be percent-encoded, and the screen does not render. *)
Definition sep0007Uri (amount : option str) : option str := buildSep0007PayUri (code_params amount).

(** the code is a well-formed payment link that no scanner accepts: its destination is a
    placeholder, which the parser of this app refuses before it looks at the amount. *)
Theorem code_refused `{UrlParser} amount : opt_ok (if truthy_opt amount then amount else None) →
  ∃ uri, sep0007Uri amount = Some uri ∧ detectQrContentType uri = QrSep0007 ∧
    parseSep0007Uri uri = Ok (ParseError (quoted (js "Invalid Stellar destination address: ") MERCHANT_STELLAR_ADDRESS)).
Proof.
  intros Ha. destruct (build_reads (code_params amount)) as (uri & E & P & D).
  { assert (T : ∀ x, truthy x && forallb (λ c, c <? 65536)%N x && match encodeURIComponent x with Some _ => true | None => false end = true →
      opt_ok (Some x)) by (intros x Hx; by apply text_ok_check).
    unfold pay_entries, code_params. cbn [pp_destination pp_amount pp_asset_code pp_asset_issuer pp_memo pp_memo_type pp_callback
      pp_msg pp_network_passphrase pp_origin_domain pp_signature].
    repeat (apply Forall_cons; split; [cbn [snd]; try exact I; try (apply T; vm_compute; reflexivity)|]); [exact Ha|constructor]. }
  exists uri. split; [exact E|]. split; [exact D|]. rewrite P. unfold pay_result.
  rewrite (raw_get_written (js "destination")) by (apply (bool_decide_unpack _); vm_compute; exact I).
  change (given (entry_get (js "destination") (pay_entries (code_params amount)))) with (Some MERCHANT_STELLAR_ADDRESS). reflexivity.
Qed.
End Code.

(** ** The history tab *)

Module History.
Record TRANSACTION := MkTransaction {
  ht_id : str; ht_type : str; ht_address : str; ht_time : str; ht_date : str; ht_amount : str; ht_value : str }.
(** The rows share all but their identifier and type. *)
Definition row (id type : str) : TRANSACTION :=
  MkTransaction id type (js "0x4A7d5cBe16...da79bB2cF9a1B") (js "14:03:23pm") (js "Nov 12") (js "0.00") (js "$0.00").
Definition TRANSACTION_DATA : list TRANSACTION :=
  [row (js "1") (js "received"); row (js "2") (js "transfer"); row (js "3") (js "transfer");
   row (js "4") (js "received"); row (js "5") (js "received")].
Definition tabs : list str := [js "All"; js "Transfer"; js "Received"].

Definition filteredData `{UnicodeCase} (activeFilter : str) : list TRANSACTION :=
  filter (λ t, activeFilter = js "All" ∨ ht_type t = to_lower activeFilter) TRANSACTION_DATA.

(** the two other tabs split the list: together they show every transaction of "All"
    once. *)
Theorem tabs_partition `{UnicodeCase} :
  filteredData (js "All") = TRANSACTION_DATA ∧
  filteredData (js "Transfer") ++ filteredData (js "Received") ≡ₚ filteredData (js "All").
Proof.
  split; [reflexivity|]. change (filteredData (js "All")) with TRANSACTION_DATA.
  symmetry. exact (Permutation_middle (filteredData (js "Transfer")) (drop 3 TRANSACTION_DATA) (row (js "1") (js "received"))).
Qed.
End History.

(** ** The password form *)

Module Password.
Record form := MkForm { pw_current : str; pw_new : str; pw_confirm : str; pw_alerts : list str; pw_left : bool }.
Definition disabled (s : form) : bool :=
  negb (truthy (pw_current s)) || negb (truthy (pw_new s)) || negb (str_eqb (pw_new s) (pw_confirm s)).
Definition handleUpdate (s : form) : form :=
  MkForm (pw_current s) (pw_new s) (pw_confirm s) (pw_alerts s ++ [js "Password updated successfully!"]) true.
Definition press (s : form) : form := if disabled s then s else handleUpdate s.
End Password.

(** ** Concrete runs *)

Module Runs.
(** A router that hands on what follows the first "=". *)
Definition after_equals (route : str) : option str :=
  match split_on 61 route with _ :: rest => Some (join (js "=") rest) | [] => None end.

Lemma sale_always_received_witness :
  foldl (Sale.step (λ _, Some (js "12.50"))) (Sale.AcceptPayment []) [Sale.Typed (js "12.50"); Sale.Generate; Sale.Timer; Sale.Timer]
    = Sale.PaymentReceived (Some (js "12.50")) ∧
  Sale.lines (Sale.PaymentReceived (Some (js "12.50"))) = [js "Payment Received"; js "$12.50"; js "USD added to your balance"] ∧
  foldl (Sale.step (λ _, Some (js "12.50"))) (Sale.AcceptPayment []) [Sale.Typed (js "12.50"); Sale.Generate; Sale.Timer; Sale.Timer; Sale.Done]
    = Sale.MerchantHome.
Proof. apply (Sale.sale_always_received (λ _, Some (js "12.50")) (js "12.50")); [reflexivity|intros base; reflexivity]. Defined.

Example sale_demo : foldl (Sale.step after_equals) (Sale.AcceptPayment []) [Sale.Chosen 20; Sale.Generate; Sale.Timer; Sale.Timer]
  = Sale.PaymentReceived (Some (js "20")).
Proof. vm_compute. reflexivity. Qed.

#[local] Instance no_urls : UrlParser := λ _, None.

Lemma code_refused_witness : ∃ uri, Code.sep0007Uri (Some (js "12.5")) = Some uri ∧ detectQrContentType uri = QrSep0007 ∧
  parseSep0007Uri uri = Ok (ParseError (quoted (js "Invalid Stellar destination address: ") Code.MERCHANT_STELLAR_ADDRESS)).
Proof. apply (Code.code_refused (Some (js "12.5"))). apply text_ok_check. vm_compute. reflexivity. Defined.
End Runs.
