(* ===== verification/Deposits.v ===== *)
(** * Deposits and receiving

    Model of [mobileapp/app/yield-transaction.tsx], the drawer that confirms a deposit into the yield vault
    (module Deposit), and of [mobileapp/app/receive.tsx], the screen that shows one's own code (Receive). *)

From S2P Require Import Prelude JsString JsNumber JsRound UriCodec Sep0007 HomeScreen.

(** ** The deposit drawer *)

Module Deposit.
Import YieldCard.

(** The text of the field, what the hook knows of the biometric preference, the spinner, the amounts of the
    prompts that are open (oldest first), the deposits in flight and those confirmed so far. *)
Record drawer := MkDrawer {
  dp_depositAmount : str; dp_enabled : bool; dp_isProcessing : bool;
  dp_prompts : list num; dp_paying : nat; dp_confirmed : list num }.
Definition mounted : drawer := MkDrawer [] false false [] 0 [].

(** [text.replace(/[^0-9.]/g, "")] *)
Definition cleaned (text : str) : str := filter (λ c, is_digit c || (c =? 46)%N = true) text.

Definition parsedAmount (depositAmount : str) : num :=
  let value := Number depositAmount in
  if is_nan value || num_leb value (Fin 0 0) then Fin 0 0 else value.

Definition projectedAnnualReturn (apy : num) (amount : str) : num := num_div (num_mul (parsedAmount amount) apy) (num_of_Z 100).
Definition projectedMonthlyReturn (apy : num) (amount : str) : num := num_div (projectedAnnualReturn apy amount) (num_of_Z 12).

Definition canConfirm (s : drawer) : bool := num_ltb (Fin 0 0) (parsedAmount (dp_depositAmount s)) && negb (dp_isProcessing s).

Definition handleAmountChange (text : str) (s : drawer) : drawer :=
  MkDrawer (cleaned text) (dp_enabled s) (dp_isProcessing s) (dp_prompts s) (dp_paying s) (dp_confirmed s).

(** From [setIsProcessing(true)] to the call of [onConfirm]. *)
Definition deposit (amount : num) (s : drawer) : drawer :=
  MkDrawer (dp_depositAmount s) (dp_enabled s) true (dp_prompts s) (S (dp_paying s)) (dp_confirmed s ++ [amount]).

Definition handleConfirm (s : drawer) : drawer :=
  if negb (canConfirm s) then s
  else if dp_enabled s then
    MkDrawer (dp_depositAmount s) (dp_enabled s) (dp_isProcessing s) (dp_prompts s ++ [parsedAmount (dp_depositAmount s)]) (dp_paying s) (dp_confirmed s)
  else deposit (parsedAmount (dp_depositAmount s)) s.

(** Typing, the preference becoming known, a press, the answer of the oldest prompt ([None] when it
    rejects), the end of a deposit. *)
Inductive event := Typed (text : str) | Known (enabled : bool) | Press | Answer (success : option bool) | Settled.

Definition step (s : drawer) (e : event) : drawer :=
  match e with
  | Typed text => handleAmountChange text s
  | Known b => MkDrawer (dp_depositAmount s) b (dp_isProcessing s) (dp_prompts s) (dp_paying s) (dp_confirmed s)
  | Press => handleConfirm s
  | Answer success =>
      match dp_prompts s with
      | [] => s
      | amount :: rest =>
          let s' := MkDrawer (dp_depositAmount s) (dp_enabled s) (dp_isProcessing s) rest (dp_paying s) (dp_confirmed s) in
          if success is Some true then deposit amount s' else s'
      end
  | Settled =>
      match dp_paying s with
      | 0 => s
      | S n => MkDrawer (dp_depositAmount s) (dp_enabled s) false (dp_prompts s) n (dp_confirmed s)
      end
  end.
Definition run (s : drawer) (es : list event) : drawer := foldl step s es.

Definition confirm_label (s : drawer) : str := if dp_enabled s then js "Authenticate & Deposit" else js "Confirm Deposit".

Section Display.
Context `{Locale}.
Definition formatCurrency (value : num) : str := 8358%N :: to_locale (js "en-NG") 2 2 value.
(** The card of the projected returns: month, year; shown for a positive amount. *)
Definition projections (apy : num) (s : drawer) : option (str * str) :=
  if num_ltb (Fin 0 0) (parsedAmount (dp_depositAmount s))
  then Some (formatCurrency (projectedMonthlyReturn apy (dp_depositAmount s)), formatCurrency (projectedAnnualReturn apy (dp_depositAmount s)))
  else None.
End Display.

(** *** Properties *)

Definition positive (x : num) : Prop := num_ltb (Fin 0 0) x = true.

#[export] Instance event_eq_dec : EqDecision event.
Proof. solve_decision. Defined.

Definition proofs (es : list event) : nat := length (filter (λ e, e = Answer (Some true)) es).

Record sound (s : drawer) : Prop := Sound {
  so_confirmed : Forall positive (dp_confirmed s); so_prompts : Forall positive (dp_prompts s) }.

Lemma deposit_step_sound s e : sound s → sound (step s e).
Proof.
  intros [C P]. destruct e as [text|b| |success|]; cbn [step].
  - done.
  - done.
  - unfold handleConfirm. destruct (canConfirm s) eqn:E; [|done]. cbn [negb].
    apply andb_true_iff in E as [E _]. destruct (dp_enabled s); split; cbn; try done; apply Forall_app; (split; [done|]); by constructor.
  - destruct (dp_prompts s) as [|a rest] eqn:E; [by split; rewrite ?E|]. apply Forall_cons in P as [Pa Pr].
    destruct success as [[]|]; split; cbn; try done. apply Forall_app. split; [done|by constructor].
  - destruct (dp_paying s); done.
Qed.

Lemma step_counts s e : dp_enabled s = true → Known false ≠ e →
  dp_enabled (step s e) = true ∧
  length (dp_confirmed (step s e)) ≤ length (dp_confirmed s) + (if decide (e = Answer (Some true)) then 1 else 0).
Proof.
  intros He Hn. destruct e as [text|[]| |success|]; cbn [step]; try done; try (split; [done|cbn; lia]).
  - unfold handleConfirm. rewrite He. destruct (canConfirm s); cbn; (split; [done|lia]).
  - destruct (dp_prompts s) as [|a rest]; [split; [done|lia]|]. destruct success as [[]|]; cbn; rewrite ?length_app; cbn.
    + rewrite decide_True by done. split; [done|lia].
    + split; [done|lia].
    + split; [done|lia].
  - destruct (dp_paying s); cbn; (split; [done|lia]).
Qed.

Lemma run_counts es : ∀ s, dp_enabled s = true → Known false ∉ es →
  length (dp_confirmed (run s es)) ≤ length (dp_confirmed s) + proofs es.
Proof.
  induction es as [|e es IH]; intros s He Hn; [cbn; lia|]. apply not_elem_of_cons in Hn as [N1 N2].
  destruct (step_counts s e He N1) as [E1 L1]. specialize (IH (step s e) E1 N2). unfold run, proofs in *. cbn [foldl].
  rewrite filter_cons. case_decide; cbn [length]; lia.
Qed.

(** only positive amounts are deposited, and once the preference is known to be on, no more
    deposits than prompts passed; a prompt deposits the amount of its press, whatever the field shows by then;
    400 digits deposit an infinite amount; two presses answered twice deposit twice. *)
Theorem deposits_sound s es :
  Forall positive (dp_confirmed (run mounted es)) ∧
  (dp_enabled s = true → Known false ∉ es → length (dp_confirmed (run s es)) ≤ length (dp_confirmed s) + proofs es) ∧
  dp_confirmed (run mounted [Known true; Typed (js "5"); Press; Typed (js "500"); Answer (Some true)]) = [num_of_Z 5] ∧
  dp_confirmed (run mounted [Typed (replicate 400 57%N); Press]) = [Inf false] ∧
  dp_confirmed (run mounted [Known true; Typed (js "5"); Press; Press; Answer (Some true); Answer (Some true)]) = [num_of_Z 5; num_of_Z 5].
Proof.
  split; [|split; [apply run_counts|by split_and!; vm_compute]].
  assert (G : ∀ x, sound x → sound (run x es)); [|by apply G; split; constructor].
  unfold run. induction es as [|e es IH]; intros x Hx; [done|]. cbn [foldl]. by apply IH, deposit_step_sound.
Qed.

(** what is typed counts by its digits: signs, letters and grouping commas are dropped, so
    that any text whose remains are digits means their whole number; a decimal comma is dropped too, and
    with a dot for the thousands the amount is a thousand times too small. *)
Theorem typed_amount text : cleaned text ≠ [] → Forall (λ c, is_digit c = true) (cleaned text) → (digits_val 0 (cleaned text) < 2 ^ 53)%N →
  parsedAmount (cleaned text) = Fin (Z.of_N (digits_val 0 (cleaned text))) 0 ∧
  parsedAmount (cleaned (js "1.000,50")) = Number (js "1.0005") ∧
  parsedAmount (cleaned (js "1.2.3")) = Fin 0 0 ∧ parsedAmount (cleaned (js "-7")) = Fin 7 0.
Proof.
  intros Hne Hd Hb. split; [|by split_and!; vm_compute]. unfold parsedAmount. rewrite Number_digits by done.
  rewrite num_of_Z_safe by (unfold safe_int; lia). cbn [is_nan orb].
  destruct (digits_val 0 (cleaned text)) as [|n]; [done|]. done.
Qed.
End Deposit.

(** ** The receive screen *)

Module Receive.
Inductive receive_type := ZAPS | external.
Record screen := MkScreen { rc_step : nat; rc_receiveType : option receive_type; rc_left : bool }.
Definition mounted : screen := MkScreen 0 None false.

Definition blinkId : str := js "ejembiii.zaps".
Definition walletAddress : str := js "GABC1234EXAMPLESTELLARADDRESSXXXXXXXXXXXXXXXXXXXXXXXXXXXXXXX".

Definition sep0007Uri : option str :=
  buildSep0007PayUri (MkPay walletAddress None None None None None None None None None None).

Definition qrValue (s : screen) : option str :=
  match rc_receiveType s with Some ZAPS => Some blinkId | _ => sep0007Uri end.

(** What "Copy ID" copies, "Share ID" shares and the card shows. *)
Definition own_id (s : screen) : str := match rc_receiveType s with Some ZAPS => blinkId | _ => walletAddress end.
Definition id_label (s : screen) : str := match rc_receiveType s with Some ZAPS => js "Zaps ID" | _ => js "Wallet Address" end.

Inductive event := Choose (t : receive_type) | Next | Back.

Definition handleNext (s : screen) : screen := MkScreen (S (rc_step s)) (rc_receiveType s) (rc_left s).
Definition handleBack (s : screen) : screen :=
  match rc_step s with 0 => MkScreen 0 (rc_receiveType s) true | S n => MkScreen n (rc_receiveType s) (rc_left s) end.

(** The cards and "Review" are on the first step only; "Review" waits for a card. *)
Definition step (s : screen) (e : event) : screen :=
  match e with
  | Choose t => if (rc_step s =? 0)%nat then MkScreen (rc_step s) (Some t) (rc_left s) else s
  | Next => if (rc_step s =? 0)%nat && match rc_receiveType s with Some _ => true | None => false end then handleNext s else s
  | Back => handleBack s
  end.
Definition run (es : list event) : screen := foldl step mounted es.

(** the code is only reached with a type chosen, which then stays; but neither code can be
    paid: the scanner of this app takes the Zaps identifier for an unknown text, and refuses the placeholder
    address of the other. *)
Theorem codes_cannot_be_paid `{UrlParser} es :
  rc_step (run es) ≤ 1 ∧
  (rc_step (run es) = 1 → ∃ code t, rc_receiveType (run es) = Some t ∧ qrValue (run es) = Some code ∧
     match t with
     | ZAPS => detectQrContentType code = QrUnknown
     | external => parseSep0007Uri code = Ok (ParseError (quoted (js "Invalid Stellar destination address: ") (own_id (run es))))
     end).
Proof.
  assert (I : rc_step (run es) ≤ 1 ∧ (rc_step (run es) = 1 → is_Some (rc_receiveType (run es)))).
  { induction es as [|e es [I1 I2]] using rev_ind; [by split; [cbn; lia|]|]. unfold run in *. rewrite foldl_app. cbn [foldl].
    set (s := foldl step mounted es) in *. destruct e as [t| |]; cbn [step].
    - destruct (rc_step s =? 0)%nat; cbn; [|done]. split; [lia|by eexists].
    - destruct (Nat.eqb_spec (rc_step s) 0) as [E|]; [|done]. destruct (rc_receiveType s) as [t|] eqn:Et; cbn; [|by rewrite Et].
      rewrite E. split; [lia|by rewrite Et].
    - unfold handleBack. destruct (rc_step s) as [|n]; cbn; [lia|]. split; [lia|]. intros ->. lia. }
  destruct I as [I1 I2]. split; [done|]. intros E. destruct (I2 E) as [t Et]. unfold qrValue, own_id. rewrite Et.
  destruct t.
  - exists blinkId, ZAPS. split; [done|]. split; [done|]. vm_compute. reflexivity.
  - destruct (build_reads (MkPay walletAddress None None None None None None None None None None)) as (uri & B & P & _).
    { repeat (apply Forall_cons; split; [first [exact I|apply text_ok_check; vm_compute; reflexivity]|]). constructor. }
    exists uri, external. split; [done|]. split; [exact B|]. rewrite P. vm_compute. reflexivity.
Qed.
End Receive.

(** ** Concrete runs *)

Module Runs.
Lemma typed_amount_witness :
  Deposit.parsedAmount (Deposit.cleaned (js "$1,250 now")) = Fin 1250 0 ∧
  Deposit.parsedAmount (Deposit.cleaned (js "1.000,50")) = Number (js "1.0005") ∧
  Deposit.parsedAmount (Deposit.cleaned (js "1.2.3")) = Fin 0 0 ∧ Deposit.parsedAmount (Deposit.cleaned (js "-7")) = Fin 7 0.
Proof.
  apply (Deposit.typed_amount (js "$1,250 now")); [discriminate|apply (bool_decide_unpack _); vm_compute; exact I|reflexivity].
Defined.

#[local] Instance no_urls : UrlParser := λ _, None.

Example receive_demo : Receive.rc_step (Receive.run [Receive.Next; Receive.Choose Receive.ZAPS; Receive.Next; Receive.Next]) = 1.
Proof. reflexivity. Qed.
End Runs.
