(* ===== verification/SetupScreens.v ===== *)
(** * Choosing a username and funding the wallet

    Model of [mobileapp/app/username.tsx] (Module Username: the format, the availability check
    and its debounce, the stored profile) and of [mobileapp/app/fund.tsx] (Module Funding: bridge
    quotes, starting a transfer and polling its status).

    A screen that re-renders runs the clean-ups of its effects whose dependencies changed; where
    that matters it is a step of the model. *)

From S2P Require Import Prelude JsString JsNumber UriCodec JsDate Json Effects Decode Scripts Retry StellarWallet.

(** ** username.tsx *)

Module Username.
Definition USERNAME_STORAGE_KEY : str := js "user_username".
Definition PROFILE_KEY : str := js "user_profile".
Definition MIN_USERNAME_LENGTH : nat := 3.
Definition MAX_USERNAME_LENGTH : nat := 20.

(** [isValid] and [error] *)
Record ValidationResult := MkValidation { vr_isValid : bool; vr_error : option str }.

(** [/[a-zA-Z0-9_]/] *)
Definition name_unit (c : N) : bool := is_alpha c || is_digit c || (c =? 95)%N.

Definition validateUsernameFormat (username : str) : ValidationResult :=
  if negb (truthy username) then MkValidation false None
  else if (length username <? MIN_USERNAME_LENGTH)%nat then MkValidation false (Some (js "Username must be at least 3 characters"))
  else if (MAX_USERNAME_LENGTH <? length username)%nat then MkValidation false (Some (js "Username must be at most 20 characters"))
  else if negb (forallb name_unit username) then
    MkValidation false (Some (js "Username can only contain letters, numbers, and underscores"))
  else MkValidation true None.

(** *** The check by the backend *)

Section Check.
Context `{StellarEnv, Host W}.

Definition check_request (encoded : str) : request :=
  Request (API_BASE ++ js "/api/v1/users/check-username?username=" ++ encoded) (js "GET") [] None.

Definition checkUsernameAvailabilityApi (username : str) : M (ui_log * W) bool :=
  try_catch
    (encoded ← encode_uri username;
     res ← fetchWithRetry (check_request encoded) (MkRetry None None None None);
     if (rs_status res =? 404)%Z then mret true
     else if rs_ok res then
       body ← try_catch (JSON_parse (rs_body res)) (λ _, mret (JObj []));
       mret (match json_get (js "available") body with Some (JBool b) => b | _ => true end)
     else mret true)
    (λ _, mret true).
End Check.

(** *** The screen *)

(** What [useState] holds. *)
Record view := MkView {
  vw_username : str;
  vw_formatError : option str;
  vw_isChecking : bool;
  vw_isAvailable : option bool;
  vw_submitting : bool;
}.

#[export] Instance view_eq_dec : EqDecision view.
Proof. solve_decision. Defined.

(** With it the timer of [useDebounce] (the name it will check), the checks on their way,
    and the routes taken. *)
Record screen := MkScreen {
  sc_view : view;
  sc_timer : option str;
  sc_checks : list str;
  sc_routes : list str;
}.

Definition opened : screen := MkScreen (MkView [] None false None false) None [] [].

Definition set_view (v : view) (s : screen) : screen := MkScreen v (sc_timer s) (sc_checks s) (sc_routes s).

(** [text.replace(/^@/, "")] *)
Definition strip_at (text : str) : str := match text with 64%N :: rest => rest | _ => text end.

(** The state updates of [handleChangeText], and the timer it arms. *)
Definition handleChangeText (text : str) (s : screen) : screen :=
  let cleaned := strip_at text in
  let v := sc_view s in
  if negb (truthy cleaned) then set_view (MkView cleaned None false None (vw_submitting v)) s
  else
    let validation := validateUsernameFormat cleaned in
    if negb (vr_isValid validation) then set_view (MkView cleaned (vr_error validation) false None (vw_submitting v)) s
    else MkScreen (MkView cleaned None true None (vw_submitting v)) (Some cleaned) (sc_checks s) (sc_routes s).

(** A changed state renders again: [useDebounce] gets a new callback and answers a new function,
    so the clean-up of the effect on it calls [cancel]. *)
Definition rerender (before : view) (s : screen) : screen :=
  if bool_decide (sc_view s = before) then s else MkScreen (sc_view s) None (sc_checks s) (sc_routes s).

(** The debounced callback, once the delay has passed and once it is answered. *)
Definition check_due (s : screen) : screen :=
  match sc_timer s with Some name => MkScreen (sc_view s) None (sc_checks s ++ [name]) (sc_routes s) | None => s end.

Definition check_answered (i : nat) (available : bool) (s : screen) : screen :=
  match sc_checks s !! i with
  | None => s
  | Some _ =>
      let v := sc_view s in
      MkScreen (MkView (vw_username v) (vw_formatError v) false (Some available) (vw_submitting v)) (sc_timer s)
        (delete i (sc_checks s)) (sc_routes s)
  end.

Inductive event := EType (text : str) | EDue | EAnswer (i : nat) (available : bool).

Definition step (s : screen) (e : event) : screen :=
  match e with
  | EType t => rerender (sc_view s) (handleChangeText t s)
  | EDue => check_due s
  | EAnswer i b => rerender (sc_view s) (check_answered i b s)
  end.

Definition run (es : list event) : screen := foldl step opened es.

Definition canContinue (s : screen) : bool :=
  let v := sc_view s in
  (MIN_USERNAME_LENGTH <=? length (trim (vw_username v)))%nat && negb (truthy_opt (vw_formatError v))
  && negb (vw_isChecking v) && bool_decide (vw_isAvailable v = Some true) && negb (vw_submitting v).

(** *** Continuing *)

(** [parsed.username = cleanName]: a primitive cannot be assigned to, an array does not print it. *)
Definition assign_username (name : str) (parsed : json) : res json :=
  match parsed with
  | JObj fs => Ok (JObj (obj_set (js "username") (JStr name) fs))
  | JArr l => Ok (JArr l)
  | _ => Throw type_error
  end.

Definition set_submitting (b : bool) (s : screen) : screen :=
  let v := sc_view s in set_view (MkView (vw_username v) (vw_formatError v) (vw_isChecking v) (vw_isAvailable v) b) s.
Definition go_home (s : screen) : screen := MkScreen (sc_view s) (sc_timer s) (sc_checks s) (sc_routes s ++ [js "/(personal)/home"]).

Section Continue.
Context `{Host W}.

Definition store_username (cleanName : str) : M W unit :=
  st_set AsyncStorage USERNAME_STORAGE_KEY cleanName;;
  existingProfile ← st_get AsyncStorage PROFILE_KEY;
  match existingProfile with
  | Some p =>
      if truthy p then
        parsed ← JSON_parse p;
        merged ← of_res (assign_username cleanName parsed);
        st_set AsyncStorage PROFILE_KEY (stringify merged)
      else st_set AsyncStorage PROFILE_KEY (stringify (JObj [(js "username", JStr cleanName)]))
  | None => st_set AsyncStorage PROFILE_KEY (stringify (JObj [(js "username", JStr cleanName)]))
  end.

Definition handleContinue : M (screen * W) unit :=
  s ← get_state;
  if canContinue s then
    modify_state (set_submitting true);;
    try_catch
      (host (store_username (trim (vw_username (sc_view s))));; modify_state go_home)
      (λ _, modify_state go_home);;
    modify_state (set_submitting false)
  else mret tt.
End Continue.

(** *** Properties *)

Lemma validate_spec name : vr_isValid (validateUsernameFormat name) = true ↔
  3 ≤ length name ≤ 20 ∧ Forall (λ c, name_unit c = true) name.
Proof.
  unfold validateUsernameFormat, MIN_USERNAME_LENGTH, MAX_USERNAME_LENGTH.
  assert (F : forallb name_unit name = true ↔ Forall (λ c, name_unit c = true) name) by (by rewrite forallb_forall, List.Forall_forall).
  rewrite <-F. destruct name as [|c name]; [cbn; split; [done|lia]|]. cbn [truthy negb].
  destruct (Nat.ltb_spec (length (c :: name)) 3); [split; [done|lia]|].
  destruct (Nat.ltb_spec 20 (length (c :: name))); [split; [done|lia]|].
  destruct (forallb name_unit (c :: name)); cbn [negb vr_isValid]; [|naive_solver]. split; [|done]. intros _. split; [lia|done].
Qed.

Lemma name_unit_not_ws c : name_unit c = true → is_ws c = false.
Proof.
  unfold name_unit, is_alpha, is_upper, is_lower, is_digit, is_ws. intros Hs. apply not_true_iff_false. intros Hw.
  rewrite ?orb_true_iff, ?andb_true_iff, ?N.leb_le, ?N.eqb_eq in *. lia.
Qed.

(** A name that is typed over itself is the only change that does not render again. *)
Fixpoint retypes (cur : str) (es : list event) : bool :=
  match es with
  | [] => false
  | EType t :: es' =>
      (str_eqb (strip_at t) cur && vr_isValid (validateUsernameFormat (strip_at t))) || retypes (strip_at t) es'
  | _ :: es' => retypes cur es'
  end.

(** No timer runs, no check is on its way and no name was found available. *)
Definition unchecked (s : screen) : Prop :=
  sc_timer s = None ∧ sc_checks s = [] ∧ vw_isAvailable (sc_view s) = None.

(** What holds of every state: an entry without an error is nothing or well formed, an error has
    a text, a running timer and an accepted name without an answer show as "checking". *)
Record entry_ok (s : screen) : Prop := {
  eo_valid : vw_formatError (sc_view s) = None → vw_username (sc_view s) = [] ∨
    vr_isValid (validateUsernameFormat (vw_username (sc_view s))) = true;
  eo_error : ∀ e, vw_formatError (sc_view s) = Some e → truthy e = true;
  eo_timer : sc_timer s ≠ None → vw_isChecking (sc_view s) = true;
  eo_waits : vr_isValid (validateUsernameFormat (vw_username (sc_view s))) = true →
    vw_isChecking (sc_view s) = true ∨ vw_isAvailable (sc_view s) ≠ None;
}.

Lemma invalid_error name : truthy name = true → vr_isValid (validateUsernameFormat name) = false →
  ∃ e, vr_error (validateUsernameFormat name) = Some e ∧ truthy e = true.
Proof.
  unfold validateUsernameFormat. intros ->. cbn [negb].
  destruct (_ <? _)%nat; [by eexists|]. destruct (_ <? _)%nat; [by eexists|].
  destruct (forallb _ _); [done|by eexists].
Qed.

Lemma truthy_false_nil s : truthy s = false → s = [].
Proof. by destruct s. Qed.

Lemma rerender_same b s : sc_view (rerender b s) = sc_view s ∧ sc_checks (rerender b s) = sc_checks s ∧
  (sc_timer (rerender b s) ≠ None → sc_view s = b ∧ sc_timer s ≠ None).
Proof. unfold rerender. case_bool_decide; cbn; naive_solver. Qed.

Lemma rerender_ok s s' : entry_ok s →
  (vw_formatError (sc_view s') = None → vw_username (sc_view s') = [] ∨
    vr_isValid (validateUsernameFormat (vw_username (sc_view s'))) = true) →
  (∀ e, vw_formatError (sc_view s') = Some e → truthy e = true) →
  (sc_timer s' = sc_timer s ∨ vw_isChecking (sc_view s') = true) →
  (vr_isValid (validateUsernameFormat (vw_username (sc_view s'))) = true →
    vw_isChecking (sc_view s') = true ∨ vw_isAvailable (sc_view s') ≠ None) →
  entry_ok (rerender (sc_view s) s').
Proof.
  intros [_ _ T _] V E Ht Hw. destruct (rerender_same (sc_view s) s') as (Ev & _ & Et). split; rewrite ?Ev; [done|done| |done].
  intros N. destruct (Et N) as [Es N']. destruct Ht as [Ht|]; [|done]. rewrite Es. apply T. by rewrite <-Ht.
Qed.

(** One typed text, by cases. *)
Lemma typed t s (R : screen → Prop) :
  (strip_at t = [] → R (set_view (MkView [] None false None (vw_submitting (sc_view s))) s)) →
  (∀ e, truthy e = true → vr_isValid (validateUsernameFormat (strip_at t)) = false → R (set_view (MkView (strip_at t) (Some e) false None (vw_submitting (sc_view s))) s)) →
  (vr_isValid (validateUsernameFormat (strip_at t)) = true →
     R (MkScreen (MkView (strip_at t) None true None (vw_submitting (sc_view s))) (Some (strip_at t)) (sc_checks s) (sc_routes s))) →
  R (handleChangeText t s).
Proof.
  intros R1 R2 R3. unfold handleChangeText. cbv zeta.
  destruct (truthy (strip_at t)) eqn:Ht; cbn [negb].
  - destruct (vr_isValid _) eqn:Hv; cbn [negb]; [by apply R3|].
    destruct (invalid_error _ Ht Hv) as (e & -> & He). by apply R2.
  - apply truthy_false_nil in Ht. rewrite Ht. by apply R1.
Qed.

Lemma step_ok s e : entry_ok s → entry_ok (step s e).
Proof.
  intros I. destruct e as [t| |i b]; cbn [step].
  - apply (typed t s (λ s', entry_ok (rerender (sc_view s) s'))); intros; apply rerender_ok; cbn; naive_solver.
  - unfold check_due. destruct (sc_timer s) eqn:E; [|done]. destruct I as [V Er T Wt]. by split.
  - unfold check_answered. destruct (sc_checks s !! i); apply rerender_ok; cbn; try apply I; auto.
Qed.

Lemma run_ok es : entry_ok (run es).
Proof.
  unfold run. assert (I : entry_ok opened) by (split; cbn; naive_solver). revert I. generalize opened.
  induction es as [|e es IH]; intros s I; [done|]. by apply IH, step_ok.
Qed.

Lemma valid_trimmed name : vr_isValid (validateUsernameFormat name) = true → trim name = name.
Proof.
  intros V. apply validate_spec in V as [_ V]. apply trim_id_forall.
  eapply Forall_impl; [exact V|]. intros c. apply name_unit_not_ws.
Qed.

Lemma can_continue_entry s : entry_ok s → canContinue s = true →
  vr_isValid (validateUsernameFormat (vw_username (sc_view s))) = true ∧ vw_isAvailable (sc_view s) = Some true.
Proof.
  intros [V E _ _] C. unfold canContinue in C. rewrite !andb_true_iff, bool_decide_eq_true in C.
  destruct C as ((((Hl & Hf) & _) & Ha) & _). split; [|done].
  assert (vw_formatError (sc_view s) = None) as Hn.
  { destruct (vw_formatError (sc_view s)) as [e|] eqn:Ef; [|done]. cbn in Hf. by rewrite (E e) in Hf. }
  destruct (V Hn) as [H0|]; [|done]. by rewrite H0 in Hl.
Qed.

Definition name_after (s : screen) (e : event) : str := match e with EType t => strip_at t | _ => vw_username (sc_view s) end.

Lemma step_name s e : vw_username (sc_view (step s e)) = name_after s e.
Proof.
  destruct e as [t| |i b]; cbn [step name_after]; rewrite ?(proj1 (rerender_same _ _)).
  - by apply (typed t s (λ s', vw_username (sc_view s') = strip_at t)); intros.
  - unfold check_due. by destruct (sc_timer s).
  - unfold check_answered. by destruct (sc_checks s !! i).
Qed.

Lemma unchecked_rerender b s : sc_checks s = [] → vw_isAvailable (sc_view s) = None →
  (sc_timer s ≠ None → sc_view s ≠ b) → unchecked (rerender b s).
Proof.
  intros Hc Ha Ht. destruct (rerender_same b s) as (Ev & Ec & Et). split; [|by rewrite Ev, Ec].
  destruct (sc_timer (rerender b s)); [|done]. exfalso. destruct Et as [Es N]; [done|]. by apply Ht.
Qed.

Lemma unchecked_step s e : unchecked s → retypes (vw_username (sc_view s)) [e] = false → unchecked (step s e).
Proof.
  intros (Ht & Hc & Ha) Hr. destruct e as [t| |i b]; cbn [step].
  - cbn in Hr. rewrite orb_false_r in Hr.
    apply (typed t s (λ s', unchecked (rerender (sc_view s) s'))); intros; apply unchecked_rerender; cbn; try done.
    intros _ Ev. rewrite <-Ev in Hr. cbn in Hr. rewrite str_eqb_refl, andb_true_l in Hr. congruence.
  - unfold check_due. by rewrite Ht.
  - unfold check_answered. rewrite Hc, lookup_nil. by apply unchecked_rerender.
Qed.

Lemma unchecked_run es : ∀ s, unchecked s → retypes (vw_username (sc_view s)) es = false → unchecked (foldl step s es).
Proof.
  induction es as [|e es IH]; intros s U R; [done|]. cbn [foldl]. apply IH.
  - apply unchecked_step; [done|]. destruct e; cbn in *; [|done|done]. apply orb_false_iff in R as [-> _]. done.
  - rewrite step_name. destruct e; cbn in *; [|done|done]. by apply orb_false_iff in R as [_ ->].
Qed.

(** The availability of a username is never checked while each accepted text
    differs from the one before: the render that shows "checking" makes a new debounced function, and
    the clean-up of the effect on it cancels the timer. No request is made, the screen keeps
    "checking", and Continue stays disabled. *)
Theorem typing_never_checks es : retypes [] es = false →
  sc_timer (run es) = None ∧ sc_checks (run es) = [] ∧ canContinue (run es) = false ∧
  (vr_isValid (validateUsernameFormat (vw_username (sc_view (run es)))) = true →
     vw_isChecking (sc_view (run es)) = true).
Proof.
  intros R. destruct (unchecked_run es opened) as (Ht & Hc & Ha); [done|exact R|]. split; [done|]. split; [done|].
  split.
  - apply not_true_iff_false. intros C. apply can_continue_entry in C as [_ C]; [|apply run_ok]. unfold run in C. congruence.
  - intros V. by destruct (eo_waits _ (run_ok es) V).
Qed.
(** Continue opens only for a well formed name, which is stored as it was typed. *)
Theorem continue_needs_valid_name es : canContinue (run es) = true →
  let name := vw_username (sc_view (run es)) in
  3 ≤ length name ≤ 20 ∧ Forall (λ c, name_unit c = true) name ∧ trim name = name.
Proof.
  intros C name. destruct (can_continue_entry _ (run_ok es) C) as [V _].
  pose proof (valid_trimmed _ V). apply validate_spec in V as [? ?]. done.
Qed.

Lemma strip_valid a : vr_isValid (validateUsernameFormat a) = true → strip_at a = a.
Proof.
  intros V. apply validate_spec in V as [_ V]. destruct a as [|c a]; [done|]. apply Forall_cons in V as [V _].
  unfold strip_at. destruct (N.eq_dec c 64) as [->|Ne]; [done|]. destruct c as [|p]; [done|].
  do 7 (destruct p as [p|p|]; try done).
Qed.

Lemma typed_valid t a s : strip_at t = a → vr_isValid (validateUsernameFormat a) = true →
  handleChangeText t s = MkScreen (MkView a None true None (vw_submitting (sc_view s))) (Some a) (sc_checks s) (sc_routes s).
Proof.
  intros E V. unfold handleChangeText. rewrite E, V. cbv zeta. cbn [negb].
  destruct (truthy a) eqn:Ht; [done|]. apply truthy_false_nil in Ht. by subst a; rewrite Ht in V.
Qed.

(** Two accepted texts in a row for one name leave the timer running. *)
Lemma retyped_due a : vr_isValid (validateUsernameFormat a) = true →
  run [EType a; EType (js "@" ++ a); EDue] = MkScreen (MkView a None true None false) None [a] [].
Proof.
  intros V. change (run _) with (foldl step (step opened (EType a)) [EType (js "@" ++ a); EDue]).
  assert (step opened (EType a) = MkScreen (MkView a None true None false) None [] []) as ->.
  { cbn [step]. rewrite (typed_valid a a) by (done || by apply strip_valid). unfold rerender.
    rewrite bool_decide_eq_false_2; [done|]. intros [= ->]. }
  cbn [foldl step]. rewrite (typed_valid (js "@" ++ a) a) by done. unfold rerender. by rewrite bool_decide_eq_true_2.
Qed.

(** The one way to an answer is to type the same name again with an "@"; the
    answer is then taken for whatever name is entered by the time it arrives, checked or not. *)
Theorem answer_unlocks_another_name a b :
  vr_isValid (validateUsernameFormat a) = true → vr_isValid (validateUsernameFormat b) = true →
  let at_sign := js "@" in
  let entered := run [EType a; EType (at_sign ++ a); EDue; EType b] in
  sc_checks entered = [a] ∧ vw_username (sc_view entered) = b ∧ canContinue entered = false ∧
  canContinue (step entered (EAnswer 0 true)) = true ∧
  vw_username (sc_view (step entered (EAnswer 0 true))) = b.
Proof.
  intros Va Vb at_sign entered.
  assert (∃ t, run [EType a; EType (at_sign ++ a); EDue; EType b] = MkScreen (MkView b None true None false) t [a] []) as [t E].
  { unfold run. change [EType a; EType (at_sign ++ a); EDue; EType b] with ([EType a; EType (js "@" ++ a); EDue] ++ [EType b]).
    rewrite foldl_app. fold (run [EType a; EType (js "@" ++ a); EDue]). rewrite (retyped_due a Va).
    cbn [foldl step]. rewrite (typed_valid b b) by (done || by apply strip_valid). unfold rerender. case_bool_decide; by eexists. }
  unfold entered. rewrite E. split; [done|]. split; [done|]. split.
  - unfold canContinue. cbn. by rewrite !andb_false_r.
  - cbn [step]. unfold check_answered. cbn. split; [|by rewrite (proj1 (rerender_same _ _))].
    unfold canContinue. rewrite (proj1 (rerender_same _ _)).
    cbn [sc_view vw_username vw_formatError vw_isChecking vw_isAvailable vw_submitting]. rewrite valid_trimmed by done.
    apply validate_spec in Vb as [[L _] _]. destruct b as [|? [|? [|? b]]]; cbn in *; try lia. done.
Qed.

Section CheckSpec.
Context `{StellarEnv, HostLaws W}.

(** The availability check always answers, and answers "taken" only for a 2xx
    reply whose JSON says [available: false]: whatever else happens, the name counts as free. *)
Theorem availability_fails_open name l (w : W) : ∃ b lw', checkUsernameAvailabilityApi name (l, w) = (Ok b, lw') ∧
  (b = false → ∃ encoded r body tries, encodeURIComponent name = Some encoded ∧ rs_ok r = true ∧
     net_trace lw'.2 = net_trace w ++ tries ++ [(retry_request (rq_url (check_request encoded)) (js "GET") [] None, Ok r)] ∧
     (∀ w0 : W, JSON_parse (rs_body r) w0 = (Ok body, w0)) ∧ json_get (js "available") body = Some (JBool false)).
Proof.
  unfold checkUsernameAvailabilityApi, encode_uri. destruct (encodeURIComponent name) as [encoded|] eqn:En; [|by eexists true, _].
  destruct (fetchWithRetry_run (check_request encoded) (MkRetry None None None None) l w) as (rs & last & out & [l1 w1] & E & _ & _ & Ht & _ & _ & Ho); [done|].
  cbn [snd rq_headers rq_body rq_method check_request] in Ht. destruct out as [r|e].
  2: { eexists true, _. split; [|done]. unfold try_catch. rewrite run_bind_ok with (a := encoded) (w' := (l, w)) by done.
       by rewrite (run_bind_throw _ _ _ _ _ E). }
  destruct (Ho r eq_refl) as [-> Hok].
  assert ((rs_status r =? 404)%Z = false) as H404.
  { unfold rs_ok in Hok. rewrite andb_true_iff, Z.ltb_lt in Hok. apply Z.eqb_neq. lia. }
  unfold try_catch. rewrite run_bind_ok with (a := encoded) (w' := (l, w)) by done.
  rewrite (run_bind_ok _ _ _ _ _ E), H404, Hok. unfold JSON_parse. destruct (json_parse (rs_body r)) as [v|] eqn:P; cbn; [|by eexists true, _].
  eexists _, _. split; [reflexivity|]. intros Hb. cbn [snd].
  exists encoded, r, v, (pair (retry_request (rq_url (check_request encoded)) (js "GET") [] None) <$> rs).
  split; [done|]. split; [done|]. split; [etrans; [exact Ht|by rewrite fmap_app]|]. split; [intros w0; by rewrite P|].
  destruct (json_get (js "available") v) as [[ | []| | | | ]|]; done.
Qed.
End CheckSpec.

Section ContinueSpec.
Context `{HostLaws W}.

(** The profile after the merge; [None] where it is left as it was. *)
Definition merged_profile (name : str) (existing : option str) : option str :=
  match existing with
  | Some p =>
      if truthy p then
        match json_parse p with
        | Some (JObj fs) => Some (stringify (JObj (obj_set (js "username") (JStr name) fs)))
        | Some (JArr l) => Some (stringify (JArr l))
        | _ => None
        end
      else Some (stringify (JObj [(js "username", JStr name)]))
  | None => Some (stringify (JObj [(js "username", JStr name)]))
  end.

Lemma store_username_run name (w : W) : ∃ r w', store_username name w = (r, w') ∧ net_trace w' = net_trace w ∧
  (st_live w → st_peek w' AsyncStorage USERNAME_STORAGE_KEY = Some name ∧
     st_peek w' AsyncStorage PROFILE_KEY = from_option Some (st_peek w AsyncStorage PROFILE_KEY) (merged_profile name (st_peek w AsyncStorage PROFILE_KEY))).
Proof.
  unfold store_username.
  destruct (set_spec AsyncStorage USERNAME_STORAGE_KEY name w) as (r1 & w1 & E1 & [[-> S1]|([e1 ->] & K1 & D)]).
  2: { eexists _, w1. split; [exact (run_bind_throw _ _ _ _ _ E1)|]. split; [apply K1|done]. }
  destruct (get_spec AsyncStorage PROFILE_KEY w1) as (r2 & w2 & E2 & K2 & G).
  rewrite (run_bind_ok _ _ _ _ _ E1).
  destruct G as [->|[[e ->] D]].
  2: { eexists _, w2. split; [exact (run_bind_throw _ _ _ _ _ E2)|]. split; [by rewrite (kept_trace _ _ K2), (stored_trace _ _ _ _ _ S1)|].
       intros L. by destruct D; apply (stored_live _ _ _ _ _ S1). }
  rewrite (run_bind_ok _ _ _ _ _ E2), (stored_ne _ _ _ _ _ S1) by done.
  pose proof (stored_kept_r _ _ _ _ _ _ S1 K2) as S2.
  assert (P : ∀ t, ∃ r w', st_set AsyncStorage PROFILE_KEY t w2 = (r, w') ∧ net_trace w' = net_trace w ∧
    (st_live w → st_peek w' AsyncStorage USERNAME_STORAGE_KEY = Some name ∧ st_peek w' AsyncStorage PROFILE_KEY = Some t)).
  { intros t. destruct (set_spec AsyncStorage PROFILE_KEY t w2) as (r & w' & E & [[-> S]|(_ & K & D)]); eexists _, w'; (split; [done|]).
    - split; [by rewrite (stored_trace _ _ _ _ _ S), (stored_trace _ _ _ _ _ S2)|]. intros _.
      rewrite (stored_eq _ _ _ _ _ S), (stored_ne _ _ _ _ _ S), (stored_eq _ _ _ _ _ S2) by done. done.
    - split; [by rewrite (kept_trace _ _ K), (stored_trace _ _ _ _ _ S2)|]. intros L. by destruct D; apply (stored_live _ _ _ _ _ S2). }
  assert (N : net_trace w2 = net_trace w ∧ (st_live w → st_peek w2 AsyncStorage USERNAME_STORAGE_KEY = Some name ∧
    st_peek w2 AsyncStorage PROFILE_KEY = st_peek w AsyncStorage PROFILE_KEY)).
  { split; [apply (stored_trace _ _ _ _ _ S2)|]. intros _. by rewrite (stored_eq _ _ _ _ _ S2), (stored_ne _ _ _ _ _ S2). }
  destruct (st_peek w AsyncStorage PROFILE_KEY) as [p|]; [|apply P]. cbn [merged_profile].
  destruct (truthy p); [|apply P]. unfold JSON_parse. destruct (json_parse p) as [[]|]; cbn; try (by eexists _, w2); apply P.
Qed.

(** Continue stores the name on the phone, merges it into the stored profile where
    that is an object, and goes home whether or not storing worked; nothing is sent to the backend. *)
Theorem continue_outcome s (w : W) : canContinue s = true →
  let name := trim (vw_username (sc_view s)) in
  ∃ w', handleContinue (s, w) = (Ok tt, (set_submitting false (go_home (set_submitting true s)), w')) ∧
    net_trace w' = net_trace w ∧
    (st_live w → st_peek w' AsyncStorage USERNAME_STORAGE_KEY = Some name ∧
       st_peek w' AsyncStorage PROFILE_KEY = from_option Some (st_peek w AsyncStorage PROFILE_KEY) (merged_profile name (st_peek w AsyncStorage PROFILE_KEY))).
Proof.
  intros C name. unfold handleContinue. rewrite (run_bind_ok _ _ _ _ _ (run_get_state s w)), C, (run_bind_ok _ _ _ _ _ (run_modify_state _ s w)).
  fold name. destruct (store_username_run name w) as (r & w' & E & Ht & Hp). exists w'.
  split; [|by split].
  assert (try_catch (host (store_username name);; modify_state go_home) (λ _, modify_state go_home) (set_submitting true s, w)
    = (Ok tt, (go_home (set_submitting true s), w'))) as R.
  { unfold try_catch. rewrite run_bind, (run_host _ _ _ _ _ E). by destruct r. }
  by rewrite (run_bind_ok _ _ _ _ _ R).
Qed.
End ContinueSpec.
End Username.

(** ** fund.tsx *)

Module Funding.
Record Network := MkNetwork { nw_id : str; nw_name : str }.
Record Token := MkToken { tk_id : str; tk_name : str; tk_symbol : str }.

Definition NETWORKS : list Network := [
  MkNetwork (js "solana") (js "Solana"); MkNetwork (js "ethereum") (js "Ethereum");
  MkNetwork (js "bsc") (js "BNB Chain"); MkNetwork (js "polygon") (js "Polygon") ].
Definition TOKENS : list Token := [
  MkToken (js "usdc") (js "USDC") (js "USDC"); MkToken (js "usdt") (js "USDT") (js "USDT");
  MkToken (js "sol") (js "SOL") (js "SOL"); MkToken (js "eth") (js "ETH") (js "ETH") ].

(** [BRIDGE_STEPS], by key, and the keys [pollBridgeStatus] looks a step up in. *)
Definition BRIDGE_STEPS : list str := [js "init"; js "lock"; js "relay"; js "receive"].
Definition step_keys : list str := [js "init"; js "lock"; js "relay"; js "receive"].

(** What the quote effect and [fetchQuote] depend on. *)
Record inputs := MkInputs { in_network : Network; in_token : Token; in_amount : str }.

#[export] Instance network_eq_dec : EqDecision Network.
Proof. solve_decision. Defined.
#[export] Instance token_eq_dec : EqDecision Token.
Proof. solve_decision. Defined.
#[export] Instance inputs_eq_dec : EqDecision inputs.
Proof. solve_decision. Defined.

(** *** Requests *)

Section Requests.
Context `{StellarEnv}.

Definition quote_request (i : inputs) : request :=
  Request (API_BASE ++ js "/api/bridge/quote") (js "POST") []
    (Some (stringify (JObj [(js "sourceNetwork", JStr (nw_id (in_network i))); (js "sourceToken", JStr (tk_symbol (in_token i)));
      (js "amount", JStr (in_amount i)); (js "destinationNetwork", JStr (js "stellar")); (js "destinationToken", JStr (js "USDC"))]))).

(** [quoteId: quote.bridgeId]: an absent property is not written. *)
Definition initiate_request (i : inputs) (quote : json) : request :=
  Request (API_BASE ++ js "/api/bridge/initiate") (js "POST") []
    (Some (stringify (JObj ([(js "sourceNetwork", JStr (nw_id (in_network i))); (js "sourceToken", JStr (tk_symbol (in_token i)));
      (js "amount", JStr (in_amount i))] ++ match json_get (js "bridgeId") quote with Some q => [(js "quoteId", q)] | None => [] end)))).

(** A property put into a template string. *)
Definition shown (o : option json) : str := match o with Some v => json_to_string v | None => js "undefined" end.

Definition status_request (id : option json) : request :=
  Request (API_BASE ++ js "/api/bridge/status/" ++ shown id) (js "GET") [] None.
End Requests.

(** How [fetchWithRetry] and [res.json()] settle: [None] for a throw. *)
Definition settled (r : res response) : option json :=
  match r with Ok rs => json_parse (rs_body rs) | Throw _ => None end.

(** *** The screen *)

Record fund := MkFund {
  fd_inputs : inputs;
  fd_loadingQuote : bool;
  fd_quote : option json;
  fd_error : str;
  fd_bridgeStep : nat;
  fd_stepMessage : option json;
  fd_bridgeStatus : option json;
  fd_bridgeId : option json;
}.

(** With it the timer of the quote effect, the requests on their way (quotes, initiations,
    status polls), the running intervals with the transfer each polls, [pollingRef], and how many
    intervals were ever made. *)
Record screen := MkScreen {
  sc_fund : fund;
  sc_timer : option inputs;
  sc_quotes : list inputs;
  sc_starts : list (inputs * json);
  sc_polls : list (option json);
  sc_intervals : list (nat * option json);
  sc_pollingRef : option nat;
  sc_made : nat;
}.

Definition set_fund (f : fund) (s : screen) : screen :=
  MkScreen f (sc_timer s) (sc_quotes s) (sc_starts s) (sc_polls s) (sc_intervals s) (sc_pollingRef s) (sc_made s).

Definition set_quote (q : option json) (f : fund) : fund :=
  MkFund (fd_inputs f) (fd_loadingQuote f) q (fd_error f) (fd_bridgeStep f) (fd_stepMessage f) (fd_bridgeStatus f) (fd_bridgeId f).
Definition set_error (e : str) (f : fund) : fund :=
  MkFund (fd_inputs f) (fd_loadingQuote f) (fd_quote f) e (fd_bridgeStep f) (fd_stepMessage f) (fd_bridgeStatus f) (fd_bridgeId f).
Definition set_loading (b : bool) (f : fund) : fund :=
  MkFund (fd_inputs f) b (fd_quote f) (fd_error f) (fd_bridgeStep f) (fd_stepMessage f) (fd_bridgeStatus f) (fd_bridgeId f).
Definition set_step (n : nat) (msg : option json) (f : fund) : fund :=
  MkFund (fd_inputs f) (fd_loadingQuote f) (fd_quote f) (fd_error f) n msg (fd_bridgeStatus f) (fd_bridgeId f).
Definition set_inputs (i : inputs) (f : fund) : fund :=
  MkFund i (fd_loadingQuote f) (fd_quote f) (fd_error f) (fd_bridgeStep f) (fd_stepMessage f) (fd_bridgeStatus f) (fd_bridgeId f).
Definition set_status (v : option json) (f : fund) : fund :=
  MkFund (fd_inputs f) (fd_loadingQuote f) (fd_quote f) (fd_error f) (fd_bridgeStep f) (fd_stepMessage f) v (fd_bridgeId f).
Definition set_bridgeId (v : option json) (f : fund) : fund :=
  MkFund (fd_inputs f) (fd_loadingQuote f) (fd_quote f) (fd_error f) (fd_bridgeStep f) (fd_stepMessage f) (fd_bridgeStatus f) v.

(** [amount && parseFloat(amount) > 0] *)
Definition quotable (amount : str) : bool := truthy amount && num_ltb (Fin 0 0) (parseFloat amount).

Definition opened : screen :=
  MkScreen (MkFund (MkInputs (MkNetwork (js "solana") (js "Solana")) (MkToken (js "usdc") (js "USDC") (js "USDC")) []) false None [] 0 (Some (JStr [])) None None)
    None [] [] [] [] None 0.

(** The quote effect: it runs when an input changed, and its clean-up clears the timer before. *)
Definition quote_effect (before : inputs) (s : screen) : screen :=
  let i := fd_inputs (sc_fund s) in
  if bool_decide (i = before) then s
  else
    MkScreen (set_error [] (set_quote None (sc_fund s))) (if quotable (in_amount i) then Some i else None)
      (sc_quotes s) (sc_starts s) (sc_polls s) (sc_intervals s) (sc_pollingRef s) (sc_made s).

(** A network, a token or a typed amount: the quote goes, and the effect runs if something changed. *)
Definition choose (i : inputs) (s : screen) : screen :=
  quote_effect (fd_inputs (sc_fund s)) (set_fund (set_quote None (set_inputs i (sc_fund s))) s).

(** [fetchQuote] when its timer fires, and when it settles. *)
Definition fetchQuote_due (s : screen) : screen :=
  match sc_timer s with
  | None => s
  | Some i =>
      let s := MkScreen (sc_fund s) None (sc_quotes s) (sc_starts s) (sc_polls s) (sc_intervals s) (sc_pollingRef s) (sc_made s) in
      if negb (truthy (in_amount i)) || num_leb (parseFloat (in_amount i)) (Fin 0 0) then s
      else
        MkScreen (set_error [] (set_loading true (sc_fund s))) None (sc_quotes s ++ [i]) (sc_starts s) (sc_polls s) (sc_intervals s)
          (sc_pollingRef s) (sc_made s)
  end.

(** [setQuote(data)]: a [null] is no quote. *)
Definition as_quote (v : json) : option json := match v with JNull => None | _ => Some v end.

Definition fetchQuote_settled (k : nat) (r : res response) (s : screen) : screen :=
  match sc_quotes s !! k with
  | None => s
  | Some _ =>
      let f := match settled r with
        | Some v => set_quote (as_quote v) (sc_fund s)
        | None => set_error (js "Failed to fetch bridge quote. Please try again.") (sc_fund s)
        end in
      MkScreen (set_loading false f) (sc_timer s) (delete k (sc_quotes s)) (sc_starts s) (sc_polls s) (sc_intervals s)
        (sc_pollingRef s) (sc_made s)
  end.

(** The form is on the screen, and on it a quote with its button. *)
Definition form_shown (s : screen) : bool := (fd_bridgeStep (sc_fund s) =? 0)%nat.
Definition quote_shown (s : screen) : bool := form_shown s && negb (fd_loadingQuote (sc_fund s)) && json_truthy (fd_quote (sc_fund s)).

Definition set_starts (l : list (inputs * json)) (f : fund) (s : screen) : screen :=
  MkScreen f (sc_timer s) (sc_quotes s) l (sc_polls s) (sc_intervals s) (sc_pollingRef s) (sc_made s).
Definition set_polls (l : list (option json)) (s : screen) : screen :=
  MkScreen (sc_fund s) (sc_timer s) (sc_quotes s) (sc_starts s) l (sc_intervals s) (sc_pollingRef s) (sc_made s).

Definition startBridge (s : screen) : screen :=
  match fd_quote (sc_fund s) with
  | Some q =>
      if json_truthy (Some q) then
        set_starts (sc_starts s ++ [(fd_inputs (sc_fund s), q)])
          (set_step 1 (Some (JStr (js "1. Initiating transfer..."))) (sc_fund s)) s
      else s
  | None => s
  end.

(** [setInterval]: its handle replaces the one in [pollingRef]. *)
Definition start_polling (id : option json) (s : screen) : screen :=
  MkScreen (sc_fund s) (sc_timer s) (sc_quotes s) (sc_starts s) (sc_polls s) (sc_intervals s ++ [(sc_made s, id)]) (Some (sc_made s)) (S (sc_made s)).

(** [data.bridgeId || data.id] *)
Definition transfer_id (data : json) : option json :=
  let b := json_get (js "bridgeId") data in if json_truthy b then b else json_get (js "id") data.

Definition start_settled (k : nat) (r : res response) (s : screen) : screen :=
  match sc_starts s !! k with
  | None => s
  | Some _ =>
      let s := set_starts (delete k (sc_starts s)) (sc_fund s) s in
      match settled r with
      | None | Some JNull => set_fund (set_step 0 (Some (JStr (js "Bridge initiation failed. Please try again."))) (sc_fund s)) s
      | Some data =>
          let id := transfer_id data in
          let f := set_bridgeId id (sc_fund s) in
          start_polling id (set_fund (set_step (fd_bridgeStep f) (Some (JStr (js "2. Awaiting lock confirmations..."))) f) s)
      end
  end.

(** [arr.findIndex((s) => s.key === k) + 1], for a key that may be [undefined]. *)
Fixpoint index_from (n : nat) (k : str) (l : list str) : option nat :=
  match l with [] => None | x :: l' => if str_eqb x k then Some n else index_from (S n) k l' end.

(** [["init", "lock", "relay", "receive"][data.step]]: the index is read as a property name. *)
Definition step_key (step : option json) : option str :=
  match step with
  | None => None
  | Some v =>
      if str_eqb (json_to_string v) (js "0") then step_keys !! 0
      else if str_eqb (json_to_string v) (js "1") then step_keys !! 1
      else if str_eqb (json_to_string v) (js "2") then step_keys !! 2
      else if str_eqb (json_to_string v) (js "3") then step_keys !! 3
      else None
  end.

Definition polled_step (step : option json) : nat :=
  let stepIndex1 := match step_key step with Some k => match index_from 0 k BRIDGE_STEPS with Some i => S i | None => 0 end | None => 0 end in
  Nat.min stepIndex1 (length BRIDGE_STEPS).

(** [clearInterval(pollingRef.current); pollingRef.current = null] *)
Definition stop_polling (s : screen) : screen :=
  match sc_pollingRef s with
  | Some k =>
      MkScreen (sc_fund s) (sc_timer s) (sc_quotes s) (sc_starts s) (sc_polls s)
        (List.filter (λ i, negb (i.1 =? k)%nat) (sc_intervals s)) None (sc_made s)
  | None => s
  end.

Definition pollBridgeStatus_settled (k : nat) (r : res response) (s : screen) : screen :=
  match sc_polls s !! k with
  | None => s
  | Some _ =>
      let s := set_polls (delete k (sc_polls s)) s in
      match settled r with
      | None => s
      | Some JNull => set_fund (set_status None (sc_fund s)) s
      | Some data =>
          let f := set_step (polled_step (json_get (js "step") data)) (json_get (js "message") data) (set_status (Some data) (sc_fund s)) in
          if json_truthy (json_get (js "completed") data)
          then stop_polling (set_fund (set_step (length BRIDGE_STEPS) (fd_stepMessage f) f) s)
          else set_fund f s
      end
  end.

(** Three seconds of interval [k]. *)
Definition tick (k : nat) (s : screen) : screen :=
  match find (λ i : nat * option json, (i.1 =? k)%nat) (sc_intervals s) with
  | Some (_, id) => set_polls (sc_polls s ++ [id]) s
  | None => s
  end.

(** Leaving: the clean-ups clear the quote timer and the interval in [pollingRef]; what is on its
    way still settles. *)
Definition leave (s : screen) : screen :=
  let s := match sc_pollingRef s with
    | Some k => MkScreen (sc_fund s) (sc_timer s) (sc_quotes s) (sc_starts s) (sc_polls s)
        (List.filter (λ i, negb (i.1 =? k)%nat) (sc_intervals s)) (Some k) (sc_made s)
    | None => s
    end in
  MkScreen (sc_fund s) None (sc_quotes s) (sc_starts s) (sc_polls s) (sc_intervals s) (sc_pollingRef s) (sc_made s).

(** [getStepIndex()] for a step of the declared type; [None] otherwise. *)
Definition getStepIndex (f : fund) : option num :=
  match fd_bridgeStatus f with
  | Some v =>
      if json_truthy (Some v) then
        match json_get (js "step") v with
        | Some (JNum n) => Some (num_min (num_add n (Fin 1 0)) (num_of_nat (length BRIDGE_STEPS)))
        | _ => None
        end
      else Some (num_of_nat (Nat.min (fd_bridgeStep f) (length BRIDGE_STEPS)))
  | None => Some (num_of_nat (Nat.min (fd_bridgeStep f) (length BRIDGE_STEPS)))
  end.

Inductive event :=
  | EChoose (i : inputs) | EDue | EQuote (k : nat) (r : res response)
  | EStart | EStarted (k : nat) (r : res response)
  | ETick (k : nat) | EPolled (k : nat) (r : res response) | ELeave.

Definition step (s : screen) (e : event) : screen :=
  match e with
  | EChoose i => if form_shown s then choose i s else s
  | EDue => fetchQuote_due s
  | EQuote k r => fetchQuote_settled k r s
  | EStart => if quote_shown s then startBridge s else s
  | EStarted k r => start_settled k r s
  | ETick k => tick k s
  | EPolled k r => pollBridgeStatus_settled k r s
  | ELeave => leave s
  end.

Definition run (es : list event) : screen := foldl step opened es.

(** *** Properties *)

(** The transfer is done as the screen shows it: "Bridging Successful!" and the way back. *)
Definition completed (f : fund) : bool :=
  match fd_bridgeStatus f with Some v => json_truthy (json_get (js "completed") v) | None => false end.

Lemma polled_step_bound v : polled_step v ≤ length BRIDGE_STEPS.
Proof. unfold polled_step. lia. Qed.

(** *** Where the transfers come from *)

(** Transfer [id] was answered by an initiation in [es]. *)
Definition initiated (es : list event) (id : option json) : Prop :=
  ∃ k r data, EStarted k r ∈ es ∧ settled r = Some data ∧ id = transfer_id data.

(** The transfers that are polled or being asked about are among [P]; the step is one of the four
    or none. *)
Record polls_ok (P : option json → Prop) (s : screen) : Prop := {
  po_intervals : Forall (λ i, P i.2) (sc_intervals s);
  po_polls : Forall P (sc_polls s);
  po_step : fd_bridgeStep (sc_fund s) ≤ length BRIDGE_STEPS;
}.

Lemma filter_forall {A} (P : A → Prop) f l : Forall P l → Forall P (List.filter f l).
Proof. induction 1; cbn; [constructor|]. by case_match; [constructor|]. Qed.

Lemma polls_ok_mono P Q s : (∀ i, P i → Q i) → polls_ok P s → polls_ok Q s.
Proof.
  intros HPQ [Hi Hp Hs]. split; [|by eapply Forall_impl|done]. eapply Forall_impl; [exact Hi|naive_solver].
Qed.

(** Steps that leave what is polled alone. *)
Lemma polls_ok_frame P s s' : sc_intervals s' = sc_intervals s → sc_polls s' = sc_polls s →
  fd_bridgeStep (sc_fund s') ≤ length BRIDGE_STEPS → polls_ok P s → polls_ok P s'.
Proof. intros Ei Ep Hs [Hi Hp _]. by split; rewrite ?Ei, ?Ep. Qed.

Lemma stop_polling_ok P s : polls_ok P s → polls_ok P (stop_polling s).
Proof.
  intros [Hi Hp Hs]. unfold stop_polling. destruct (sc_pollingRef s); [|done]. split; [by apply filter_forall|done|done].
Qed.

Lemma start_polling_ok (P : option json → Prop) id s : P id → polls_ok P s → polls_ok P (start_polling id s).
Proof. intros Hid [Hi Hp Hs]. split; [|done|done]. cbn. apply Forall_app. split; [done|by repeat constructor]. Qed.

Lemma step_polls_ok P s e : polls_ok P s → polls_ok (λ i, P i ∨ initiated [e] i) (step s e).
Proof.
  intros I. apply (polls_ok_mono _ (λ i, P i ∨ initiated [e] i)) in I; [|by left]. destruct e as [i| |k r| |k r|k|k r|]; cbn [step].
  - destruct (form_shown s); [|done]. unfold choose, quote_effect. case_bool_decide; (apply (polls_ok_frame _ s); [done..|apply I|exact I]).
  - unfold fetchQuote_due. destruct (sc_timer s); [|done]. cbv zeta. destruct (_ || _); (apply (polls_ok_frame _ s); [done..|apply I|exact I]).
  - unfold fetchQuote_settled. destruct (_ !! _); [|done]. cbv zeta.
    destruct (settled r); (apply (polls_ok_frame _ s); [done..|apply I|exact I]).
  - destruct (quote_shown s); [|done]. unfold startBridge. destruct (fd_quote _); [|done]. destruct (json_truthy _); [|done].
    apply (polls_ok_frame _ s); [done..|cbn; lia|exact I].
  - unfold start_settled. destruct (_ !! _); [|done]. cbv zeta. destruct (settled r) as [data|] eqn:E.
    2: { apply (polls_ok_frame _ s); [done..|cbn; lia|exact I]. }
    destruct data eqn:Ed; [apply (polls_ok_frame _ s); [done..|cbn; lia|exact I]|..];
      (apply start_polling_ok; [right; exists k, r, data; subst; by repeat constructor|apply (polls_ok_frame _ s); [done..|apply I|exact I]]).
  - unfold tick. destruct (find _ _) as [[j id]|] eqn:E; [|done]. apply find_some in E as [E _]. destruct I as [Hi Hp Hs]. split; [done| |done].
    cbn. apply Forall_app. split; [done|]. constructor; [|constructor]. rewrite List.Forall_forall in Hi. exact (Hi _ E).
  - unfold pollBridgeStatus_settled. destruct (_ !! _); [|done]. cbv zeta.
    assert (D : polls_ok (λ i, P i ∨ initiated [EPolled k r] i) (set_polls (delete k (sc_polls s)) s)).
    { destruct I as [Hi Hp Hs]. split; [done| |done]. cbn. by apply Forall_delete. }
    revert D. generalize (set_polls (delete k (sc_polls s)) s). intros s0 D. destruct (settled r) as [data|]; [|done].
    destruct data; [apply (polls_ok_frame _ s0); [done..|apply D|exact D]|..];
      (destruct (json_truthy _); try apply stop_polling_ok; apply (polls_ok_frame _ s0);
       [done..|first [apply polled_step_bound|reflexivity]|exact D]).
  - unfold leave. destruct (sc_pollingRef s); [|by destruct I; split]. destruct I as [Hi Hp Hs].
    split; [by apply filter_forall|done|done].
Qed.

Lemma initiated_app es fs id : initiated es id ∨ initiated fs id → initiated (es ++ fs) id.
Proof. intros [(k & r & d & H & ?)|(k & r & d & H & ?)]; exists k, r, d; (split; [apply elem_of_app; auto|done]). Qed.

(** Every transfer the screen polls was answered by an initiation it sent, and the
    step shown is one of the four or none, whatever the backend answers and in whatever order. *)
Theorem polls_initiated_transfers es :
  Forall (λ i, initiated es i.2) (sc_intervals (run es)) ∧ Forall (initiated es) (sc_polls (run es)) ∧
  fd_bridgeStep (sc_fund (run es)) ≤ length BRIDGE_STEPS.
Proof.
  enough (polls_ok (initiated es) (run es)) as [? ? ?] by done.
  unfold run. induction es as [|e es IH] using rev_ind; [by repeat split; cbn; try constructor; lia|].
  rewrite foldl_app. cbn [foldl]. eapply polls_ok_mono; [|apply step_polls_ok, IH]. intros i. apply initiated_app.
Qed.
(** *** Quotes and the transfers started with them *)

(** The inputs and the quote a step sends to be initiated, and those it is answered. *)
Definition started (s : screen) (e : event) : list (inputs * json) :=
  match e with EStart => if quote_shown s then drop (length (sc_starts s)) (sc_starts (startBridge s)) else [] | _ => [] end.
Definition answered (s : screen) (e : event) : list (inputs * json) :=
  match e with
  | EQuote k r => match sc_quotes s !! k, settled r with Some i, Some v => [(i, v)] | _, _ => [] end
  | _ => []
  end.
Definition calm (s : screen) (e : event) : bool :=
  match e with EChoose i => bool_decide (sc_quotes s = [] ∨ i = fd_inputs (sc_fund s)) | _ => true end.

(** What the steps of [es] give from [s] on. *)
Fixpoint along {A} (f : screen → event → A) (s : screen) (es : list event) : list A :=
  match es with [] => [] | e :: es' => f s e :: along f (step s e) es' end.

Record quoted (L : list (inputs * json)) (s : screen) : Prop := {
  qu_shown : ∀ q, fd_quote (sc_fund s) = Some q → (fd_inputs (sc_fund s), q) ∈ L;
  qu_asked : Forall (eq (fd_inputs (sc_fund s))) (sc_quotes s);
  qu_due : ∀ i, sc_timer s = Some i → i = fd_inputs (sc_fund s);
}.

Lemma quoted_frame L s s' : fd_quote (sc_fund s') = fd_quote (sc_fund s) → fd_inputs (sc_fund s') = fd_inputs (sc_fund s) →
  sc_quotes s' = sc_quotes s → (sc_timer s' = sc_timer s ∨ sc_timer s' = None) → quoted L s → quoted L s'.
Proof. intros Eq Ei Es Et [Q A D]. split; rewrite ?Eq, ?Ei, ?Es; [done..|]. intros i Hi. destruct Et as [Et|Et]; [apply D; congruence|congruence]. Qed.

Lemma quoted_mono L L' s : (∀ p, p ∈ L → p ∈ L') → quoted L s → quoted L' s.
Proof. intros HL [Q A D]. split; [|done|done]. intros q Hq. by apply HL, Q. Qed.

Lemma stop_polling_frame s : sc_fund (stop_polling s) = sc_fund s ∧ sc_quotes (stop_polling s) = sc_quotes s ∧ sc_timer (stop_polling s) = sc_timer s.
Proof. unfold stop_polling. by destruct (sc_pollingRef s). Qed.

Lemma choose_quoted L i s : (sc_quotes s = [] ∨ i = fd_inputs (sc_fund s)) → quoted L s → quoted L (choose i s).
Proof.
  intros Hc [Q A D]. unfold choose, quote_effect. case_bool_decide as E; cbn in E; split; cbn; try done.
  - by rewrite E.
  - by rewrite E.
  - destruct Hc as [->| ->]; [constructor|done].
  - intros j. destruct (quotable _); naive_solver.
Qed.

Lemma step_quoted L s e : calm s e = true → quoted L s → quoted (L ++ answered s e) (step s e).
Proof.
  intros C I. apply (quoted_mono _ (L ++ answered s e)) in I; [|intros; apply elem_of_app; auto].
  destruct e as [i| |k r| |k r|k|k r|]; cbn [step].
  - destruct (form_shown s); [|done]. apply choose_quoted; [|done]. by apply bool_decide_eq_true in C.
  - unfold fetchQuote_due. destruct (sc_timer s) eqn:Et; [|done]. cbv zeta. destruct I as [Q A D].
    destruct (_ || _); split; cbn; try done. apply Forall_app. split; [done|]. constructor; [|constructor]. symmetry. by apply D.
  - unfold fetchQuote_settled. cbn [answered] in *. destruct (sc_quotes s !! k) eqn:Ek; [|done]. cbv zeta. destruct I as [Q A D].
    assert (fd_inputs (sc_fund s) = i) as Ei by (rewrite Forall_lookup in A; by eapply A).
    destruct (settled r) as [v|]; split; cbn; try done; try (by apply Forall_delete).
    intros q Hq. apply elem_of_app. right. destruct v; cbn in Hq; simplify_eq; by constructor.
  - destruct (quote_shown s); [|done]. unfold startBridge. destruct (fd_quote _) eqn:Eq; [|done]. destruct (json_truthy _); [|done].
    apply (quoted_frame _ s); auto.
  - unfold start_settled. destruct (_ !! _); [|done]. cbv zeta. destruct (settled r) as [[]|]; apply (quoted_frame _ s); auto.
  - unfold tick. destruct (find _ _) as [[j id]|]; [|done]. apply (quoted_frame _ s); auto.
  - unfold pollBridgeStatus_settled. destruct (_ !! _); [|done]. cbv zeta.
    destruct (settled r) as [[]|]; try destruct (json_truthy _);
      (apply (quoted_frame _ s); rewrite ?(proj1 (stop_polling_frame _)), ?(proj1 (proj2 (stop_polling_frame _))), ?(proj2 (proj2 (stop_polling_frame _))); auto).
  - unfold leave. destruct (sc_pollingRef s); apply (quoted_frame _ s); auto.
Qed.

Lemma started_quoted L s e : quoted L s → ∀ p, p ∈ started s e → p ∈ L.
Proof.
  intros [Q _ _] p. destruct e; cbn [started]; try (by intros ?%elem_of_nil).
  destruct (quote_shown s); [|by intros ?%elem_of_nil]. unfold startBridge. destruct (fd_quote (sc_fund s)) as [q|] eqn:Eq.
  - destruct (json_truthy (Some q)).
    + cbn. rewrite drop_app_length. intros ->%list_elem_of_singleton. by apply Q.
    + rewrite drop_all. by intros ?%elem_of_nil.
  - rewrite drop_all. by intros ?%elem_of_nil.
Qed.

(** While the inputs are only changed when no quote is on its way, each transfer is
    started with a quote that was answered for the very network, token and amount it sends. *)
Theorem transfers_match_quotes es : forallb id (along calm opened es) = true →
  ∀ p, p ∈ concat (along started opened es) → p ∈ concat (along answered opened es).
Proof.
  assert (G : ∀ es s L, quoted L s → forallb id (along calm s es) = true →
    ∀ p, p ∈ concat (along started s es) → p ∈ L ++ concat (along answered s es)).
  { clear es. induction es as [|e es IH]; intros s L I C p Hp; [by apply elem_of_nil in Hp|].
    cbn [along forallb concat] in *. apply andb_true_iff in C as [C1 C2]. apply elem_of_app in Hp as [Hp|Hp].
    - apply elem_of_app. left. by apply (started_quoted L s e).
    - rewrite app_assoc. by apply (IH (step s e)); [apply step_quoted|..]. }
  intros C p. apply (G es opened []); [by split|done].
Qed.

(** Inputs with an amount above zero, once their timer fired. *)
Lemma quote_asked i : quotable (in_amount i) = true → i ≠ fd_inputs (sc_fund opened) →
  run [EChoose i; EDue] = MkScreen (set_loading true (set_inputs i (sc_fund opened))) None [i] [] [] [] None 0.
Proof.
  intros Q N. unfold run. cbn [foldl step]. change (form_shown opened) with true. unfold choose, quote_effect. cbn match.
  rewrite bool_decide_eq_false_2 by done. cbn [sc_fund set_fund fd_inputs set_quote set_inputs]. rewrite Q. unfold fetchQuote_due. cbn [sc_timer].
  unfold quotable in Q. apply andb_true_iff in Q as [-> Q].
  by rewrite (num_ltb_not_leb _ _ Q).
Qed.

(** The quote of an amount that was replaced while it was on its way is shown for
    the new amount, and a transfer of the new amount is started with it. *)
Theorem replaced_amount_bridged i j r v :
  quotable (in_amount i) = true → i ≠ fd_inputs (sc_fund opened) → settled r = Some v → json_truthy (Some v) = true →
  let s := run [EChoose i; EDue; EChoose j; EQuote 0 r] in
  sc_quotes (run [EChoose i; EDue]) = [i] ∧ quote_shown s = true ∧ sc_starts (step s EStart) = [(j, v)].
Proof.
  intros Q N Ev Tv s.
  assert (∃ t, s = MkScreen (MkFund j false (Some v) [] 0 (Some (JStr [])) None None) t [] [] [] [] None 0) as [t Es].
  { unfold s. change (run _) with (foldl step (run [EChoose i; EDue]) [EChoose j; EQuote 0 r]). rewrite quote_asked by done.
    cbn [foldl step]. unfold form_shown. cbn. unfold choose, quote_effect. cbn.
    case_bool_decide; cbn; unfold fetchQuote_settled; cbn; rewrite Ev; destruct v; try done; by eexists. }
  rewrite Es, quote_asked by done. split; [done|]. assert (quote_shown (MkScreen (MkFund j false (Some v) [] 0 (Some (JStr [])) None None) t [] [] [] [] None 0) = true) as Hq.
  { unfold quote_shown. cbn -[json_truthy]. by rewrite Tv. }
  split; [done|]. cbn [step]. rewrite Hq. unfold startBridge. cbn [sc_fund fd_quote]. by rewrite Tv.
Qed.

(** *** Losing a quote, and the end of a transfer *)

(** Without a quote, a request for one or a timer. *)
Definition quoteless (i : inputs) (s : screen) : Prop :=
  sc_timer s = None ∧ sc_quotes s = [] ∧ fd_quote (sc_fund s) = None ∧ fd_inputs (sc_fund s) = i.

Definition no_change (i : inputs) (e : event) : bool := match e with EChoose j => bool_decide (j = i) | _ => true end.

Lemma quoteless_step i s e : quoteless i s → no_change i e = true → quoteless i (step s e).
Proof.
  intros (Ht & Hq & Hn & Hi) C. unfold quoteless. destruct e as [j| |k r| |k r|k|k r|]; cbn [step].
  - apply bool_decide_eq_true in C as ->. destruct (form_shown s); [|done]. unfold choose, quote_effect. cbn. by rewrite bool_decide_eq_true_2.
  - unfold fetchQuote_due. by rewrite Ht.
  - unfold fetchQuote_settled. by rewrite Hq, lookup_nil.
  - destruct (quote_shown s); [|done]. unfold startBridge. by rewrite Hn.
  - unfold start_settled. destruct (_ !! _); [|done]. cbv zeta. by destruct (settled r) as [[]|].
  - unfold tick. by destruct (find _ _) as [[j id]|].
  - unfold pollBridgeStatus_settled. destruct (_ !! _); [|done]. cbv zeta. destruct (settled r) as [[]|]; try done;
      (destruct (json_truthy _); [|done]; unfold stop_polling; cbn [sc_pollingRef set_fund set_polls]; by destruct (sc_pollingRef s)).
  - unfold leave. by destruct (sc_pollingRef s).
Qed.

(** Choosing what is already chosen drops the quote, and no new one is asked for:
    until a different network, token or amount is entered, there is nothing to confirm. *)
Theorem reselecting_loses_quote s es : sc_timer s = None → sc_quotes s = [] → form_shown s = true →
  let i := fd_inputs (sc_fund s) in
  forallb (no_change i) es = true → quote_shown (foldl step (step s (EChoose i)) es) = false.
Proof.
  intros Ht Hq Hf i C.
  assert (quoteless i (step s (EChoose i))) as I.
  { cbn [step]. rewrite Hf. unfold choose, quote_effect, quoteless. cbn. by rewrite bool_decide_eq_true_2. }
  revert C I. generalize (step s (EChoose i)). induction es as [|e es IH]; intros s' C I.
  - destruct I as (_ & _ & Hn & _). cbn. unfold quote_shown. rewrite Hn. cbn. by rewrite andb_false_r.
  - cbn in *. apply andb_true_iff in C as [C1 C2]. by apply IH, quoteless_step.
Qed.

(** In progress with nothing left that could change it. *)
Definition stuck (s : screen) : Prop :=
  form_shown s = false ∧ completed (sc_fund s) = false ∧ sc_intervals s = [] ∧ sc_polls s = [] ∧ sc_starts s = [].

Lemma stuck_step s e : stuck s → stuck (step s e).
Proof.
  intros (Hf & Hc & Hi & Hp & Hs). unfold stuck. destruct e as [j| |k r| |k r|k|k r|]; cbn [step].
  - by rewrite Hf.
  - unfold fetchQuote_due. destruct (sc_timer s); [|done]. cbv zeta. by destruct (_ || _).
  - unfold fetchQuote_settled. destruct (_ !! _); [|done]. cbv zeta. by destruct (settled r).
  - unfold quote_shown. by rewrite Hf.
  - unfold start_settled. by rewrite Hs, lookup_nil.
  - unfold tick. by rewrite Hi.
  - unfold pollBridgeStatus_settled. by rewrite Hp, lookup_nil.
  - unfold leave. destruct (sc_pollingRef s); [|done]. cbn. by rewrite Hi.
Qed.

(** Polls are sent every three seconds whether or not the last one was answered.
    When the later of two is answered first, with the completion, the interval is cleared; the earlier
    answer then puts the transfer back in progress, and no later event completes it. *)
Theorem late_poll_undoes_completion s k id a b r0 r1 d0 d1 es :
  sc_pollingRef s = Some k → sc_intervals s = [(k, id)] → sc_polls s = [a; b] → sc_starts s = [] →
  settled r1 = Some d1 → json_truthy (json_get (js "completed") d1) = true →
  settled r0 = Some d0 → json_truthy (json_get (js "completed") d0) = false → polled_step (json_get (js "step") d0) ≠ 0 →
  let s1 := step s (EPolled 1 r1) in
  completed (sc_fund s1) = true ∧ fd_bridgeStep (sc_fund s1) = 4 ∧ sc_intervals s1 = [] ∧
  completed (sc_fund (foldl step (step s1 (EPolled 0 r0)) es)) = false.
Proof.
  intros Hr Hi Hp Hs E1 C1 E0 C0 N s1.
  assert (s1 = MkScreen (set_step 4 (json_get (js "message") d1) (set_status (Some d1) (sc_fund s))) (sc_timer s) (sc_quotes s) [] [a] [] None (sc_made s)) as Es1.
  { unfold s1. cbn [step]. unfold pollBridgeStatus_settled. rewrite Hp, E1. cbn [lookup list_lookup]. destruct d1; try done.
    all: cbv zeta; rewrite C1; unfold stop_polling; cbn; rewrite Hr, Hi, Hs; cbn; by rewrite Nat.eqb_refl. }
  rewrite Es1. unfold completed at 1. split; [exact C1|]. split; [done|]. split; [done|].
  assert (stuck (step (MkScreen (set_step 4 (json_get (js "message") d1) (set_status (Some d1) (sc_fund s))) (sc_timer s) (sc_quotes s) [] [a] [] None (sc_made s)) (EPolled 0 r0))) as S.
  { cbn [step]. unfold pollBridgeStatus_settled. cbn [sc_polls lookup list_lookup]. rewrite E0. cbv zeta. destruct d0; try done.
    all: rewrite C0; unfold stuck, form_shown; cbn -[polled_step json_get]; repeat split; try done; by apply Nat.eqb_neq. }
  revert S. generalize (step (MkScreen (set_step 4 (json_get (js "message") d1) (set_status (Some d1) (sc_fund s))) (sc_timer s) (sc_quotes s) [] [a] [] None (sc_made s)) (EPolled 0 r0)).
  induction es as [|e es IH]; intros s' S; [apply S|]. cbn. by apply IH, stuck_step.
Qed.
End Funding.

(** ** Concrete runs *)

Module Runs.
#[local] Instance env : StellarEnv := {| EXPO_PUBLIC_API_URL := None;
  EXPO_PUBLIC_STELLAR_NETWORK := None; EXPO_PUBLIC_SOROBAN_RPC_URL := None |}.

Definition keys : list Username.event := [Username.EType (js "bo"); Username.EType (js "bob"); Username.EDue; Username.EType (js "bobby")].
Definition again : list Username.event :=
  [Username.EType (js "bob"); Username.EType (js "@bob"); Username.EDue; Username.EType (js "alice"); Username.EAnswer 0 true].

Lemma typing_never_checks_witness : Username.retypes [] keys = false ∧
  Username.sc_timer (Username.run keys) = None ∧ Username.canContinue (Username.run keys) = false ∧
  Username.vw_isChecking (Username.sc_view (Username.run keys)) = true.
Proof.
  assert (Username.retypes [] keys = false) as R by (vm_compute; reflexivity). split; [exact R|].
  destruct (Username.typing_never_checks keys R) as (Ht & _ & Hc & Hw). split; [exact Ht|]. split; [exact Hc|].
  apply Hw. vm_compute. reflexivity.
Defined.

Lemma continue_needs_valid_name_witness : Username.canContinue (Username.run again) = true ∧
  trim (Username.vw_username (Username.sc_view (Username.run again))) = js "alice".
Proof.
  assert (Username.canContinue (Username.run again) = true) as C by (vm_compute; reflexivity). split; [exact C|].
  destruct (Username.continue_needs_valid_name again C) as (_ & _ & E). rewrite E. vm_compute. reflexivity.
Defined.

Lemma answer_unlocks_another_name_witness :
  Username.sc_checks (Username.run [Username.EType (js "bob"); Username.EType (js "@" ++ js "bob"); Username.EDue; Username.EType (js "alice")]) = [js "bob"] ∧
  Username.canContinue (Username.step (Username.run [Username.EType (js "bob"); Username.EType (js "@" ++ js "bob"); Username.EDue; Username.EType (js "alice")])
    (Username.EAnswer 0 true)) = true.
Proof.
  destruct (Username.answer_unlocks_another_name (js "bob") (js "alice")) as (Hc & _ & _ & Hy & _); [vm_compute; reflexivity..|].
  split; [exact Hc|exact Hy].
Defined.

Lemma availability_fails_open_witness : ∃ b lw',
  Username.checkUsernameAvailabilityApi (js "bob") (UiLog [] [], world [] [reply 200 (stringify (JObj [(js "available", JBool false)]))]) = (Ok b, lw').
Proof.
  destruct (Username.availability_fails_open (js "bob") (UiLog [] []) (world [] [reply 200 (stringify (JObj [(js "available", JBool false)]))])) as (b & lw' & E & _).
  exists b, lw'. exact E.
Defined.
Definition profiled : scripted :=
  world [(AsyncStorage, Username.PROFILE_KEY, stringify (JObj [(js "name", JStr (js "Al")); (js "username", JStr (js "old"))]))] [].

Lemma continue_outcome_witness : ∃ w', Username.handleContinue (Username.run again, profiled) =
    (Ok tt, (Username.set_submitting false (Username.go_home (Username.set_submitting true (Username.run again))), w')) ∧
  st_peek w' AsyncStorage Username.PROFILE_KEY = Some (stringify (JObj [(js "name", JStr (js "Al")); (js "username", JStr (js "alice"))])).
Proof.
  assert (Username.canContinue (Username.run again) = true) as C by (vm_compute; reflexivity).
  destruct (Username.continue_outcome (Username.run again) profiled C) as (w' & E & _ & L).
  exists w'. split; [exact E|]. destruct L as [_ P]; [exact (eq_refl false)|]. rewrite P. vm_compute. reflexivity.
Defined.

(** *** Funding *)

Definition sol (amount : str) : Funding.inputs :=
  Funding.MkInputs (Funding.MkNetwork (js "solana") (js "Solana")) (Funding.MkToken (js "usdc") (js "USDC") (js "USDC")) amount.
Definition quote_of (id : str) : json := JObj [(js "fee", JStr (js "0.10")); (js "bridgeId", JStr id)].
Definition answer (v : json) : res response := reply 200 (stringify v).
Definition status (n : nat) (done_ : bool) : json := JObj [(js "step", JNum (num_of_nat n)); (js "message", JStr (js "m")); (js "completed", JBool done_)].
Definition a_quote : list Funding.event := [Funding.EChoose (sol (js "10")); Funding.EDue; Funding.EQuote 0 (answer (quote_of (js "q10")))].

Example quoted_demo : Funding.quote_shown (Funding.run a_quote) = true.
Proof. vm_compute. reflexivity. Qed.

Lemma transfers_match_quotes_witness :
  (sol (js "10"), quote_of (js "q10")) ∈ concat (Funding.along Funding.answered Funding.opened (a_quote ++ [Funding.EStart])).
Proof.
  apply (Funding.transfers_match_quotes (a_quote ++ [Funding.EStart])); [vm_compute; reflexivity|].
  assert (concat (Funding.along Funding.started Funding.opened (a_quote ++ [Funding.EStart])) = [(sol (js "10"), quote_of (js "q10"))]) as ->
    by (vm_compute; reflexivity).
  constructor.
Defined.

Lemma replaced_amount_bridged_witness :
  Funding.sc_starts (Funding.step (Funding.run [Funding.EChoose (sol (js "10")); Funding.EDue; Funding.EChoose (sol (js "99"));
    Funding.EQuote 0 (answer (quote_of (js "q10")))]) Funding.EStart) = [(sol (js "99"), quote_of (js "q10"))].
Proof.
  destruct (Funding.replaced_amount_bridged (sol (js "10")) (sol (js "99")) (answer (quote_of (js "q10"))) (quote_of (js "q10"))) as (_ & _ & E);
    [vm_compute; reflexivity|discriminate|vm_compute; reflexivity|reflexivity|exact E].
Defined.

Lemma reselecting_loses_quote_witness : Funding.quote_shown (Funding.run a_quote) = true ∧
  Funding.quote_shown (foldl Funding.step (Funding.step (Funding.run a_quote) (Funding.EChoose (sol (js "10")))) [Funding.EDue; Funding.EStart]) = false.
Proof.
  split; [vm_compute; reflexivity|].
  assert (Funding.fd_inputs (Funding.sc_fund (Funding.run a_quote)) = sol (js "10")) as Ei by (vm_compute; reflexivity).
  rewrite <-Ei. apply (Funding.reselecting_loses_quote (Funding.run a_quote) [Funding.EDue; Funding.EStart]); vm_compute; reflexivity.
Defined.

Definition polling : Funding.screen :=
  Funding.run (a_quote ++ [Funding.EStart; Funding.EStarted 0 (answer (JObj [(js "id", JStr (js "t1"))])); Funding.ETick 0; Funding.ETick 0]).

Lemma late_poll_undoes_completion_witness :
  Funding.completed (Funding.sc_fund (Funding.step polling (Funding.EPolled 1 (answer (status 3 true))))) = true ∧
  Funding.completed (Funding.sc_fund (foldl Funding.step (Funding.step (Funding.step polling (Funding.EPolled 1 (answer (status 3 true))))
    (Funding.EPolled 0 (answer (status 2 false)))) [Funding.ETick 0; Funding.EDue])) = false.
Proof.
  destruct (Funding.late_poll_undoes_completion polling 0 (Some (JStr (js "t1"))) (Some (JStr (js "t1"))) (Some (JStr (js "t1")))
    (answer (status 2 false)) (answer (status 3 true)) (status 2 false) (status 3 true) [Funding.ETick 0; Funding.EDue]) as (C & _ & _ & D);
    [vm_compute; reflexivity..|vm_compute; discriminate|].
  split; [exact C|exact D].
Defined.
End Runs.
