(* ===== verification/ProfileSetup.v ===== *)
(** * Profile set-up

    Model of [mobileapp/app/onboarding-start.tsx]: the cached profile, the avatar picker, and saving, on top of
    the retries of Retry. The picker of the phone and the text of a multipart body are parameters; the waits
    and toasts of the retries stand beside the host world. *)

From S2P Require Import Prelude JsString JsNumber UriCodec JsDate Json Effects Decode Scripts MobileApi Retry MobileServices.

Definition PROFILE_CACHE_KEY : str := js "user_profile".

Record screen := MkScreen {
  ps_displayName : str; ps_bio : str; ps_avatarUri : option str; ps_saving : bool; ps_loadingProfile : bool;
  ps_alerts : list (str * str); ps_replaced : list str }.
Definition mounted : screen := MkScreen [] [] None false true [] [].

Definition set_fields (name bio : str) (avatar : option str) (s : screen) : screen :=
  MkScreen name bio avatar (ps_saving s) (ps_loadingProfile s) (ps_alerts s) (ps_replaced s).
Definition set_displayName (v : str) (s : screen) : screen := set_fields v (ps_bio s) (ps_avatarUri s) s.
Definition set_bio (v : str) (s : screen) : screen := set_fields (ps_displayName s) v (ps_avatarUri s) s.
Definition set_avatarUri (v : option str) (s : screen) : screen := set_fields (ps_displayName s) (ps_bio s) v s.
Definition set_saving (b : bool) (s : screen) : screen :=
  MkScreen (ps_displayName s) (ps_bio s) (ps_avatarUri s) b (ps_loadingProfile s) (ps_alerts s) (ps_replaced s).
Definition set_loaded (s : screen) : screen :=
  MkScreen (ps_displayName s) (ps_bio s) (ps_avatarUri s) (ps_saving s) false (ps_alerts s) (ps_replaced s).
Definition alert (title message : str) (s : screen) : screen :=
  MkScreen (ps_displayName s) (ps_bio s) (ps_avatarUri s) (ps_saving s) (ps_loadingProfile s) (ps_alerts s ++ [(title, message)]) (ps_replaced s).
Definition replace (route : str) (s : screen) : screen :=
  MkScreen (ps_displayName s) (ps_bio s) (ps_avatarUri s) (ps_saving s) (ps_loadingProfile s) (ps_alerts s) (ps_replaced s ++ [route]).

Definition home_route : str := js "/(personal)/home".

(** The image library of the phone: the permission, and whether the choice was cancelled with the location of the
    first image. *)
Class ImagePicker (W : Type) := {
  requestMediaLibraryPermissions : M W bool;
  launchImageLibrary : M W (bool * option str);
}.

Section Handlers.
Context `{Host W, Avatars.AvatarForm}.
Variable EXPO_PUBLIC_API_URL : option str.
Abbreviation scr := (M (screen * (ui_log * W))).

Definition API_BASE : str :=
  match EXPO_PUBLIC_API_URL with Some u => if truthy u then u else js "http://localhost:8080" | None => js "http://localhost:8080" end.

(** [profile[k] || ""] *)
Definition text_or_empty (k : str) (profile : json) : scr str :=
  v ← read_prop k profile;
  if json_truthy v then as_string v else mret [].

Definition fill_form (profile : json) : scr unit :=
  name ← text_or_empty (js "displayName") profile;
  modify_state (set_displayName name);;
  bio ← text_or_empty (js "bio") profile;
  modify_state (set_bio bio);;
  avatar ← text_or_empty (js "avatarUri") profile;
  modify_state (set_avatarUri (if truthy avatar then Some avatar else None)).

Definition load : scr unit :=
  try_finally
    (cached ← host (host (st_get AsyncStorage PROFILE_CACHE_KEY));
     match cached with
     | Some text => if truthy text then profile ← JSON_parse text; fill_form profile else mret tt
     | None => mret tt
     end)
    (λ s, (set_loaded s.1, s.2)).

Definition handlePickAvatar `{ImagePicker W} : scr unit :=
  granted ← host (host requestMediaLibraryPermissions);
  if negb granted then
    modify_state (alert (js "Permission Required") (js "Camera roll permission is needed to select an avatar."))
  else
    result ← host (host launchImageLibrary);
    match result with
    | (false, Some uri) => modify_state (set_avatarUri (Some uri))
    | _ => mret tt
    end.

(** [uri.split("/").pop() || "avatar.jpg"] *)
Definition file_name (uri : str) : str :=
  let name := default [] (last (split_on 47 uri)) in if truthy name then name else js "avatar.jpg".

Definition no_retry_options : RetryOptions := MkRetry None None None None.

Definition upload_request (uri : str) : request :=
  Request (API_BASE ++ js "/api/profile/avatar") (js "POST") [] (Some (Avatars.avatar_body uri (file_name uri) (js "image/jpeg"))).

(** An avatar picked on this phone is uploaded; any other is kept as it is. *)
Definition final_avatar (avatarUri : option str) : scr (option str) :=
  match avatarUri with
  | Some uri =>
      if truthy uri && starts_with (js "file://") uri then
        uploadRes ← host (fetchWithRetry (upload_request uri) no_retry_options);
        uploadData ← response_json uploadRes;
        url ← read_prop (js "url") uploadData;
        if json_truthy url then u ← as_string url; mret (Some u) else mret avatarUri
      else mret avatarUri
  | None => mret None
  end.

Definition profile_json (name bio : str) (avatar : option str) : json :=
  JObj [(js "displayName", JStr name); (js "bio", JStr bio);
        (js "avatarUri", match avatar with Some u => JStr u | None => JNull end)].

Definition put_request (name bio : str) (avatar : option str) : request :=
  Request (API_BASE ++ js "/api/profile") (js "PUT") [] (Some (stringify (profile_json name bio avatar))).

Definition save_profile (s : screen) : scr unit :=
  finalAvatarUri ← final_avatar (ps_avatarUri s);
  let name := trim (ps_displayName s) in
  let bio := trim (ps_bio s) in
  host (fetchWithRetry (put_request name bio finalAvatarUri) no_retry_options);;
  host (host (st_set AsyncStorage PROFILE_CACHE_KEY (stringify (profile_json name bio finalAvatarUri))));;
  if negb (ps_loadingProfile s) then modify_state (replace home_route) else mret tt.

Definition handleSave : scr unit :=
  s ← get_state;
  if negb (truthy (trim (ps_displayName s))) then modify_state (alert (js "Required") (js "Display name is required."))
  else
    modify_state (set_saving true);;
    try_finally
      (try_catch (save_profile s)
         (λ _, modify_state (alert (js "Error") (js "Failed to save profile. Please try again."))))
      (λ x, (set_saving false x.1, x.2)).

Definition handleSkip : scr unit := modify_state (replace home_route).
End Handlers.

(** ** Properties *)

Section Spec.
Context `{HostLaws W, Avatars.AvatarForm}.
Variable env : option str.
Implicit Types (s : screen) (l : ui_log) (w : W).

Definition json_labelled (p : request * res response) : Prop :=
  header (js "Content-Type") (rq_headers p.1) = Some (js "application/json").

(** The requests of [fetchWithRetry], as the screen uses it. *)
Lemma save_retried rq l w : rq_headers rq = [] → ∃ out l' w' tr,
  fetchWithRetry rq no_retry_options (l, w) = (out, (l', w')) ∧ stores_kept w w' ∧
  net_trace w' = net_trace w ++ tr ∧ Forall json_labelled tr ∧ Forall (λ p, rq_url p.1 = rq_url rq) tr ∧
  (∀ r, out = Ok r → rs_ok r = true ∧ ∃ sentrq, last tr = Some (sentrq, Ok r) ∧ rq_body sentrq = rq_body rq ∧ rq_method sentrq = rq_method rq).
Proof.
  intros Hh. pose proof (fetchWithRetry_stores rq no_retry_options l w) as K.
  destruct (fetchWithRetry_run rq no_retry_options l w) as (rs & lst & out & [l' w'] & E & _ & _ & T & _ & _ & O); [by cbn|].
  rewrite E in K. exists out, l', w'. eexists. split; [exact E|]. split; [exact K|]. split; [exact T|].
  rewrite Hh. split; [|split].
  - apply Forall_fmap, Forall_true. done.
  - apply Forall_fmap, Forall_true. done.
  - intros r ->. destruct (O r eq_refl) as [-> Hr]. split; [done|]. eexists. rewrite fmap_app, last_app. by cbn.
Qed.

(** What may become of the avatar. *)
Definition avatar_of (picked final : option str) : Prop :=
  final = picked ∨ ∃ url, final = Some url ∧ truthy url = true.

Lemma as_string_run (o : option json) (x : screen * (ui_log * W)) :
  as_string o x = (match o with Some (JStr u) => Ok u | _ => Throw unchecked_cast end, x).
Proof. by destruct o as [[]|]. Qed.

Lemma final_avatar_run av s l w : ∃ out l' w' tr,
  final_avatar env av (s, (l, w)) = (out, (s, (l', w'))) ∧ stores_kept w w' ∧ net_trace w' = net_trace w ++ tr ∧
  Forall json_labelled tr ∧ (∀ fa, out = Ok fa → avatar_of av fa).
Proof.
  unfold final_avatar. destruct av as [uri|].
  2:{ exists (Ok None), l, w, []. rewrite app_nil_r. split_and!; try done. intros fa [= <-]. by left. }
  destruct (truthy uri && _).
  2:{ exists (Ok (Some uri)), l, w, []. rewrite app_nil_r. split_and!; try done. intros fa [= <-]. by left. }
  destruct (save_retried (upload_request env uri) l w eq_refl) as (out & l' & w' & tr & E & K & T & F & _ & _).
  destruct out as [r|e].
  2:{ exists (Throw e), l', w', tr. rewrite (run_bind_throw _ _ _ _ _ (run_host _ s _ _ _ E)). by split_and!. }
  rewrite (run_bind_ok _ _ _ _ _ (run_host _ s _ _ _ E)). unfold response_json, JSON_parse.
  destruct (json_parse (rs_body r)) as [v|]; rewrite run_bind; cbn [mret M_ret throw].
  2:{ exists (Throw syntax_error), l', w', tr. by split_and!. }
  rewrite run_bind. unfold read_prop. destruct (match v with JNull => _ | _ => _ end) as [[url|e] x] eqn:Er.
  2:{ assert (x = (s, (l', w'))) as -> by (destruct v; cbv [mret M_ret throw] in Er; congruence). exists (Throw e), l', w', tr. by split_and!. }
  assert (x = (s, (l', w'))) as -> by (destruct v; cbv [mret M_ret throw] in Er; congruence).
  destruct (json_truthy url) eqn:Tr.
  - rewrite run_bind, as_string_run. destruct url as [[| | |u| |]|]; cbn.
    4:{ exists (Ok (Some u)), l', w', tr. split_and!; try done. intros fa [= <-]. right. by exists u. }
    all: exists (Throw unchecked_cast), l', w', tr; by split_and!.
  - exists (Ok (Some uri)), l', w', tr. split_and!; try done. intros fa [= <-]. by left.
Qed.

(** What saving makes of the screen. *)
Definition saved_screen s : screen := if ps_loadingProfile s then set_saving false s else set_saving false (replace home_route s).
Definition failed_screen s : screen := set_saving false (alert (js "Error") (js "Failed to save profile. Please try again.") s).

Lemma handleSave_run s l w : st_live w → truthy (trim (ps_displayName s)) = true →
  ∃ s' l' w' tr, handleSave env (s, (l, w)) = (Ok tt, (s', (l', w'))) ∧ net_trace w' = net_trace w ++ tr ∧ Forall json_labelled tr ∧
  st_live w' ∧
  ((s' = failed_screen s ∧ (∀ i k, st_peek w' i k = st_peek w i k)) ∨
   (s' = saved_screen s ∧ ∃ final r sentrq, avatar_of (ps_avatarUri s) final ∧
     last tr = Some (sentrq, Ok r) ∧ rs_ok r = true ∧ rq_method sentrq = js "PUT" ∧
     rq_body sentrq = Some (stringify (profile_json (trim (ps_displayName s)) (trim (ps_bio s)) final)) ∧
     st_peek w' AsyncStorage PROFILE_CACHE_KEY = rq_body sentrq)).
Proof.
  intros L Hn. unfold handleSave. rewrite (run_bind_ok _ _ _ _ _ (run_get_state _ _)), Hn. cbn [negb].
  rewrite (run_bind_ok _ _ _ _ _ (run_modify_state _ _ _)). unfold try_finally, try_catch, save_profile.
  set (s1 := set_saving true s).
  destruct (final_avatar_run (ps_avatarUri s) s1 l w) as (out & l1 & w1 & tr1 & E1 & K1 & T1 & F1 & A1).
  destruct out as [final|e].
  2:{ rewrite (run_bind_throw _ _ _ _ _ E1). eexists _, l1, w1, tr1. split; [reflexivity|]. split; [done|]. split; [done|].
      split; [by apply K1|]. left. split; [done|apply K1]. }
  rewrite (run_bind_ok _ _ _ _ _ E1).
  destruct (save_retried (put_request env (trim (ps_displayName s)) (trim (ps_bio s)) final) l1 w1 eq_refl) as (out & l2 & w2 & tr2 & E2 & K2 & T2 & F2 & _ & O2).
  assert (T : net_trace w2 = net_trace w ++ (tr1 ++ tr2)) by (by rewrite T2, T1, app_assoc).
  destruct out as [r|e].
  2:{ rewrite (run_bind_throw _ _ _ _ _ (run_host _ s1 _ _ _ E2)). eexists _, l2, w2, (tr1 ++ tr2). split; [reflexivity|].
      split; [done|]. split; [by apply Forall_app|]. split; [by apply K2, K1|]. left. split; [done|].
      intros i k. by rewrite (stores_peek _ _ K2), (stores_peek _ _ K1). }
  rewrite (run_bind_ok _ _ _ _ _ (run_host _ s1 _ _ _ E2)).
  destruct (set_live AsyncStorage PROFILE_CACHE_KEY (stringify (profile_json (trim (ps_displayName s)) (trim (ps_bio s)) final)) w2) as (w3 & E3 & S3).
  { by apply K2, K1. }
  rewrite (run_bind_ok _ _ _ _ _ (run_host _ s1 _ _ _ (run_host _ l2 _ _ _ E3))).
  destruct (O2 r eq_refl) as (Hr & sentrq & Hl & Hb & Hm).
  exists (saved_screen s), l2, w3, (tr1 ++ tr2). split; [unfold saved_screen; by destruct (ps_loadingProfile s)|].
  split; [by rewrite (stored_trace _ _ _ _ _ S3)|]. split; [by apply Forall_app|]. split; [by apply S3, K2, K1|]. right. split; [done|].
  exists final, r, sentrq. split; [by apply A1|]. split; [by rewrite last_app, Hl|]. split; [done|]. split; [done|].
  split; [done|]. rewrite (stored_eq _ _ _ _ _ S3). by rewrite Hb.
Qed.

(** saving always settles. Without a display name nothing is sent; else either an alert
    is shown, nothing is cached and the screen stays, or the last request sent is the accepted one that
    carries the trimmed fields, what was sent is what is cached, and the app moves on. Every request,
    the one with the bytes of the picture included, is labelled as JSON. *)
Theorem save_outcome s l w : st_live w →
  ∃ s' l' w' tr, handleSave env (s, (l, w)) = (Ok tt, (s', (l', w'))) ∧ net_trace w' = net_trace w ++ tr ∧ Forall json_labelled tr ∧
  if truthy (trim (ps_displayName s)) then
    (s' = failed_screen s ∧ st_peek w' AsyncStorage PROFILE_CACHE_KEY = st_peek w AsyncStorage PROFILE_CACHE_KEY) ∨
    (s' = saved_screen s ∧ ∃ final r sentrq, avatar_of (ps_avatarUri s) final ∧
       last tr = Some (sentrq, Ok r) ∧ rs_ok r = true ∧ rq_method sentrq = js "PUT" ∧
       rq_body sentrq = Some (stringify (profile_json (trim (ps_displayName s)) (trim (ps_bio s)) final)) ∧
       st_peek w' AsyncStorage PROFILE_CACHE_KEY = rq_body sentrq)
  else tr = [] ∧ w' = w ∧ s' = alert (js "Required") (js "Display name is required.") s.
Proof.
  intros L. destruct (truthy (trim (ps_displayName s))) eqn:Hn.
  - destruct (handleSave_run s l w L Hn) as (s' & l' & w' & tr & E & T & F & _ & D). exists s', l', w', tr.
    split; [done|]. split; [done|]. split; [done|]. destruct D as [[-> P]|D]; [left; by rewrite P|by right].
  - unfold handleSave. rewrite (run_bind_ok _ _ _ _ _ (run_get_state _ _)), Hn. cbn [negb].
    eexists _, l, w, []. rewrite app_nil_r. split; [reflexivity|]. by split_and!.
Qed.

(** A cached profile fills the form, over whatever stands there. *)
Lemma load_profile_run name bio avatar s l w : st_live w →
  st_peek w AsyncStorage PROFILE_CACHE_KEY = Some (stringify (profile_json name bio avatar)) →
  ∃ w', load (s, (l, w)) = (Ok tt, (set_loaded (set_fields name bio (if truthy_opt avatar then avatar else None) s), (l, w'))) ∧ kept w w'.
Proof.
  intros L P. destruct (get_live AsyncStorage PROFILE_CACHE_KEY w L) as (w1 & E & K). exists w1. split; [|done].
  unfold load, try_finally. rewrite (run_bind_ok _ _ _ _ _ (run_host _ s _ _ _ (run_host _ l _ _ _ E))), P.
  assert (truthy (stringify (profile_json name bio avatar)) = true) as -> by done. unfold JSON_parse.
  rewrite parse_stringify; cycle 1.
  { apply json_ok_obj. split; [apply (bool_decide_unpack _); vm_compute; exact I|]. repeat constructor; by destruct avatar. }
  rewrite run_bind. cbn [mret M_ret]. unfold fill_form, text_or_empty, read_prop, profile_json.
  change (json_get (js "displayName") _) with (Some (JStr name)).
  change (json_get (js "bio") _) with (Some (JStr bio)).
  change (json_get (js "avatarUri") _) with (Some (match avatar with Some u => JStr u | None => JNull end)).
  destruct name as [|n name], bio as [|b bio], avatar as [[|u avatar]|]; reflexivity.
Qed.

(** a profile that was saved comes back, trimmed, when the screen is next opened, and
    replaces whatever was typed before the cache answered. *)
Theorem saved_profile_reads_back s l w s' l' w' s2 l2 : st_live w →
  truthy (trim (ps_displayName s)) = true → handleSave env (s, (l, w)) = (Ok tt, (s', (l', w'))) → ps_alerts s' = ps_alerts s →
  ∃ s3 w3, load (s2, (l2, w')) = (Ok tt, (s3, (l2, w3))) ∧ ps_displayName s3 = trim (ps_displayName s) ∧
    ps_bio s3 = trim (ps_bio s) ∧ ps_loadingProfile s3 = false ∧
    (ps_avatarUri s3 = ps_avatarUri s ∨ truthy_opt (ps_avatarUri s3) = true ∨ ps_avatarUri s = Some []).
Proof.
  intros L Hn E Ha. destruct (handleSave_run s l w L Hn) as (s1 & l1 & w1 & tr & E1 & _ & _ & L1 & D).
  rewrite E in E1. injection E1 as <- <- <-. destruct D as [[-> _]|(_ & final & r & rq & A & _ & _ & _ & B & P)].
  - exfalso. cbn in Ha. apply (f_equal length) in Ha. rewrite length_app in Ha. cbn in Ha. lia.
  - rewrite B in P. destruct (load_profile_run _ _ _ s2 l2 w' L1 P) as (w3 & E3 & _). eexists _, w3. split; [exact E3|].
    cbn. split; [done|]. split; [done|]. split; [done|]. destruct final as [[|c u]|]; cbn.
    + destruct A as [A|(u & A & T)]; [by right; right|by simplify_eq].
    + by right; left.
    + destruct A as [A|(u & A & _)]; [by left|done].
Qed.

(** an unreadable cache is an unhandled rejection, but never keeps the form loading or
    changes what was typed. *)
Theorem corrupt_cache_ignored text s l w : st_live w →
  st_peek w AsyncStorage PROFILE_CACHE_KEY = Some text → truthy text = true → json_parse text = None →
  ∃ w', load (s, (l, w)) = (Throw syntax_error, (set_loaded s, (l, w'))).
Proof.
  intros L P T J. destruct (get_live AsyncStorage PROFILE_CACHE_KEY w L) as (w1 & E & K). exists w1.
  unfold load, try_finally. rewrite (run_bind_ok _ _ _ _ _ (run_host _ s _ _ _ (run_host _ l _ _ _ E))), P, T.
  unfold JSON_parse. by rewrite J.
Qed.
End Spec.

(** ** Concrete runs *)

Module Runs.
#[local] Instance demo_form : Avatars.AvatarForm := λ uri name type, uri ++ name ++ type.

Definition typed : screen := MkScreen (js " Ada ") (js "hello") (Some (js "file:///tmp/me.png")) false false [] [].
Definition server : scripted :=
  world [] [reply 200 (stringify (JObj [(js "url", JStr (js "https://cdn/me"))])); reply 503 []; reply 200 (js "{}")].
Definition quiet : ui_log := UiLog [] [].

Lemma save_outcome_witness : ∃ s' l' w' tr, handleSave None (typed, (quiet, server)) = (Ok tt, (s', (l', w'))) ∧
  net_trace w' = net_trace server ++ tr ∧ Forall json_labelled tr ∧
  ((s' = failed_screen typed ∧ st_peek w' AsyncStorage PROFILE_CACHE_KEY = st_peek server AsyncStorage PROFILE_CACHE_KEY) ∨
   (s' = saved_screen typed ∧ ∃ final r sentrq, avatar_of (ps_avatarUri typed) final ∧
      last tr = Some (sentrq, Ok r) ∧ rs_ok r = true ∧ rq_method sentrq = js "PUT" ∧
      rq_body sentrq = Some (stringify (profile_json (trim (ps_displayName typed)) (trim (ps_bio typed)) final)) ∧
      st_peek w' AsyncStorage PROFILE_CACHE_KEY = rq_body sentrq)).
Proof. apply (save_outcome None typed quiet server). reflexivity. Defined.

Lemma saved_profile_reads_back_witness : ∃ s3 w3,
  load (mounted, (quiet, (handleSave None (typed, (quiet, server))).2.2.2)) = (Ok tt, (s3, (quiet, w3))) ∧
  ps_displayName s3 = js "Ada" ∧ ps_bio s3 = js "hello" ∧ ps_loadingProfile s3 = false ∧
  (ps_avatarUri s3 = ps_avatarUri typed ∨ truthy_opt (ps_avatarUri s3) = true ∨ ps_avatarUri typed = Some []).
Proof.
  eapply (saved_profile_reads_back None typed quiet server _ _ _ mounted quiet);
    [reflexivity|reflexivity|vm_compute; reflexivity|vm_compute; reflexivity].
Defined.

Lemma corrupt_cache_ignored_witness : ∃ w',
  load (typed, (quiet, world [(AsyncStorage, PROFILE_CACHE_KEY, js "oops")] [])) = (Throw syntax_error, (set_loaded typed, (quiet, w'))).
Proof.
  apply (corrupt_cache_ignored (js "oops")); [reflexivity|reflexivity|reflexivity|vm_compute; reflexivity].
Defined.

Example save_demo : ps_replaced (handleSave None (typed, (quiet, server))).2.1 = [home_route].
Proof. vm_compute. reflexivity. Qed.
End Runs.
