(* ===== verification/MobileSettings.v ===== *)
(** * Settings of the mobile application

    Models of [mobileapp/src/hooks/useNotificationPreferences.ts] with what the settings screens show of it
    (module Preferences), of the languages of [src/locales/i18n.ts] and [src/components/LanguageSelector.tsx]
    (Language), of [src/components/Avatar.tsx] (Picker), of [src/components/ErrorBoundary.tsx] (Boundary) and
    of [src/hooks/useAccessibility.ts] (Reader). A handler that awaits is a task, cut at each [await],
    so that handlers can be run alone or in turns (file Tasks). The Expo modules are parameters. *)

From S2P Require Import Prelude JsString JsNumber UriCodec JsDate Json Effects Decode Scripts MobileApi Notifications Retry MobileServices ProfileSetup Tasks.

(** ** Notification preferences *)

Module Preferences.

(** The state of the hook; statuses are the texts of expo-notifications. *)
Record prefs := MkPrefs { np_enabled : bool; np_permissionStatus : str; np_loading : bool }.

(** The status of a refused permission, and [Linking.openSettings] of expo-linking. *)
Class SystemSettings (W : Type) := { STATUS_DENIED : str; openSettings : M W unit }.

Abbreviation hook W := (prefs * (api_state * W))%type.

Definition set_enabled (v : bool) (p : prefs) : prefs := MkPrefs v (np_permissionStatus p) (np_loading p).
Definition set_permissionStatus (v : str) (p : prefs) : prefs := MkPrefs (np_enabled p) v (np_loading p).
Definition set_loading (v : bool) (p : prefs) : prefs := MkPrefs (np_enabled p) (np_permissionStatus p) v.

Section Hook.
Context `{Host W, E : !ExpoNotifications W, S : !SystemSettings W, ApiEnv}.
Abbreviation device := (λ m, host (host m)).

Definition mounted : prefs := MkPrefs true (STATUS_UNDETERMINED (W := W)) true.

(** The effect of the first render. *)
Definition loadPreferences : task (hook W) :=
  Await (stored ← device getStoredNotificationPreference; mret (
  Await (current ← device getPermissions; mret (
  Await (modify_state (set_enabled stored);;
         modify_state (set_permissionStatus (pm_status current));;
         modify_state (set_loading false);;
         mret Rest))))).

Definition turned_on : M (hook W) (task (hook W)) :=
  status ← device requestNotificationPermissionsAsync; mret (
  Await (modify_state (set_permissionStatus status);;
         if str_eqb status (STATUS_GRANTED (W := W)) then host (registerForPushNotificationsAsync true);; mret Rest
         else if str_eqb status STATUS_DENIED then device openSettings;; mret Rest
         else mret Rest)).

Definition turned_off : M (hook W) (task (hook W)) :=
  device removeStoredPushToken;; mret (
  Await (current ← device getPermissions; mret (
  Await (modify_state (set_permissionStatus (pm_status current));; mret Rest)))).

Definition toggleNotifications (value : bool) : task (hook W) :=
  Await (device (saveNotificationPreference value);; mret (
  Await (modify_state (set_enabled value);; if value then turned_on else turned_off))).

Definition openSystemSettings : task (hook W) := Await (device openSettings;; mret Rest).
End Hook.

(** What the settings screens say under the switch, and whether they offer the settings of the system. *)
Definition notificationSublabel (p : prefs) : str :=
  if np_loading p then js "Loading notification preferences..."
  else if str_eqb (np_permissionStatus p) (js "denied") then js "Notifications are blocked. Open system settings."
  else if np_enabled p then js "Push notifications enabled"
  else js "Push notifications disabled".

Definition system_offered (p : prefs) : bool := str_eqb (np_permissionStatus p) (js "denied").
(** *** Properties *)

Class SystemLaws (W : Type) `{Host W, !SystemSettings W} : Prop := openSettings_inert : inert openSettings.

Section Settles.
Context `{HostLaws W, E : !ExpoNotifications W, !ExpoLaws W, S : !SystemSettings W, !SystemLaws W, ApiEnv}.
Implicit Types (p : prefs) (s : api_state) (w : W).

(** The preference the store holds: on, until it was turned off. *)
Definition preference w : bool := negb (bool_decide (st_peek w AsyncStorage NOTIFICATION_PREFERENCE_KEY = Some (js "false"))).

Lemma save_preference_run v w : st_live w → ∃ w', saveNotificationPreference v w = (Ok tt, w') ∧
  stored w w' AsyncStorage NOTIFICATION_PREFERENCE_KEY (Some (if v then js "true" else js "false")) ∧ preference w' = v.
Proof.
  intros L. destruct (set_live AsyncStorage NOTIFICATION_PREFERENCE_KEY (if v then js "true" else js "false") w L) as (w' & E1 & S1).
  exists w'. split; [unfold saveNotificationPreference, swallow; by rewrite (run_try_ok _ _ _ _ _ E1)|]. split; [done|].
  unfold preference. rewrite (stored_eq _ _ _ _ _ S1). by destruct v.
Qed.

Lemma preference_but_token w w' : but_token w w' → preference w' = preference w.
Proof. intros [_ P]. unfold preference. by rewrite P by (vm_compute; congruence). Qed.

(** What an answered toggle leaves behind: the switch shows what is stored. Turning it on ends with the permission not
    granted and nothing registered, or with a registration; turning it off removes the token of the store, and tells
    the backend nothing. *)
Definition toggled (value : bool) p w p' w' : Prop :=
  np_enabled p' = value ∧ preference w' = value ∧ np_loading p' = np_loading p ∧
  if value then
    ∃ w1, stored w w1 AsyncStorage NOTIFICATION_PREFERENCE_KEY (Some (js "true")) ∧
      if str_eqb (np_permissionStatus p') (STATUS_GRANTED (W := W)) then ∃ out, registration w1 w' out
      else push_token w' = push_token w ∧ net_trace w' = net_trace w
  else push_token w' = None ∧ net_trace w' = net_trace w.

Lemma but_token_stored w w1 w' k v : k ≠ PUSH_TOKEN_KEY → stored w w1 AsyncStorage k v → but_token w1 w' →
  st_live w' ∧ st_peek w' AsyncStorage k = v.
Proof. intros Hk [e _ _ _] [L P]. by rewrite P, e. Qed.

Lemma open_settings_run w : ∃ r w', openSettings w = (r, w') ∧ kept w w'.
Proof. pose proof (openSettings_inert w) as K. destruct (openSettings w) as [r w']. by exists r, w'. Qed.

Lemma permissions_run w : ∃ r w', getPermissions w = (r, w') ∧ kept w w'.
Proof. pose proof (getPermissions_inert w) as K. destruct (getPermissions w) as [r w']. by exists r, w'. Qed.

Lemma registration_kept w w1 w' out : kept w w1 → registration w1 w' out → registration w w' out.
Proof.
  intros K. unfold registration, registered, token_of, push_token.
  destruct out as [t|]; by rewrite (kept_trace _ _ K), (kept_peek _ _ K).
Qed.

(** Turned on, once that is saved. *)
Lemma on_settles p s w w1 : st_live w → stored w w1 AsyncStorage NOTIFICATION_PREFERENCE_KEY (Some (js "true")) →
  ∃ r p' s' w', finish (Await turned_on) (set_enabled true p, (s, w1)) = (r, (p', (s', w'))) ∧ st_live w' ∧ toggled true p w p' w'.
Proof.
  intros L S1. assert (L1 : st_live w1) by by apply (stored_live _ _ _ _ _ S1).
  destruct (request_permissions_run w1) as (status & w2 & E2 & K2).
  unfold turned_on. rewrite finish_bind, (run_device _ _ _ _ _ _ E2), finish_ret, finish_bind, run_modify_state.
  set (p' := set_permissionStatus status (set_enabled true p)).
  assert (T : ∀ w', but_token w1 w' →
    (if str_eqb status (STATUS_GRANTED (W := W)) then ∃ out, registration w1 w' out
     else push_token w' = push_token w ∧ net_trace w' = net_trace w) → st_live w' ∧ toggled true p w p' w').
  { intros w' B R. split; [apply B|]. split; [done|]. split; [|split; [done|by exists w1]].
    rewrite (preference_but_token _ _ B). unfold preference. by rewrite (stored_eq _ _ _ _ _ S1). }
  assert (Q : ∀ w', kept w1 w' → but_token w1 w' ∧ push_token w' = push_token w ∧ net_trace w' = net_trace w).
  { intros w' K. split; [by apply but_token_kept|]. unfold push_token.
    by rewrite (kept_peek _ _ K), (kept_trace _ _ K), (stored_trace _ _ _ _ _ S1), (stored_ne _ _ _ _ _ S1) by (vm_compute; congruence). }
  destruct (str_eqb status _) eqn:G; [|destruct (str_eqb status STATUS_DENIED)].
  - destruct (register_settles s w2) as (out & s' & w3 & E3 & R3 & B3); [by apply (kept_live _ _ K2)|].
    rewrite finish_bind, (run_host _ p' _ _ _ E3). eexists _, p', s', w3. split; [done|]. apply T.
    + eapply but_token_trans; [by apply but_token_kept|done].
    + exists out. by apply (registration_kept _ _ _ _ K2).
  - destruct (open_settings_run w2) as (r & w3 & E3 & K3). destruct (Q w3) as [B R]; [by etransitivity|].
    rewrite finish_bind, (run_device _ _ _ _ _ _ E3). destruct r as [[]|e]; eexists _, p', s, w3; (split; [done|]); by apply T.
  - eexists _, p', s, w2. split; [done|]. destruct (Q w2 K2) as [B R]. by apply T.
Qed.

(** Turned off, once that is saved. *)
Lemma off_settles p s w w1 : st_live w → stored w w1 AsyncStorage NOTIFICATION_PREFERENCE_KEY (Some (js "false")) →
  ∃ r p' s' w', finish (Await turned_off) (set_enabled false p, (s, w1)) = (r, (p', (s', w'))) ∧ st_live w' ∧ toggled false p w p' w'.
Proof.
  intros L S1. assert (L1 : st_live w1) by by apply (stored_live _ _ _ _ _ S1).
  destruct (swallow_del_run AsyncStorage PUSH_TOKEN_KEY w1 L1) as (w2 & E2 & S2).
  unfold turned_off, removeStoredPushToken. rewrite finish_bind, (run_device _ _ _ _ _ _ E2), finish_ret, finish_bind.
  destruct (permissions_run w2) as (r & w3 & E3 & K3). rewrite (run_device _ _ _ _ _ _ E3).
  assert (T : ∀ p', np_enabled p' = false → np_loading p' = np_loading p → st_live w3 ∧ toggled false p w p' w3).
  { intros p' Ep El. split; [by apply (kept_live _ _ K3), (stored_live _ _ _ _ _ S2)|]. split; [done|]. split; [|split; [done|]].
    - unfold preference. rewrite (kept_peek _ _ K3), (stored_ne _ _ _ _ _ S2) by (vm_compute; congruence).
      by rewrite (stored_eq _ _ _ _ _ S1).
    - unfold push_token. rewrite (kept_peek _ _ K3), (stored_eq _ _ _ _ _ S2).
      by rewrite (kept_trace _ _ K3), (stored_trace _ _ _ _ _ S2), (stored_trace _ _ _ _ _ S1). }
  destruct r as [current|e]; eexists _, _, s, w3; (split; [done|]); by apply T.
Qed.

Lemma toggle_settles value p s w : st_live w → ∃ r p' s' w',
  finish (toggleNotifications value) (p, (s, w)) = (r, (p', (s', w'))) ∧ st_live w' ∧ toggled value p w p' w'.
Proof.
  intros L. destruct (set_live AsyncStorage NOTIFICATION_PREFERENCE_KEY (if value then js "true" else js "false") w L) as (w1 & E1 & S1).
  assert (saveNotificationPreference value w = (Ok tt, w1)) as E2 by (unfold saveNotificationPreference, swallow; by rewrite (run_try_ok _ _ _ _ _ E1)).
  unfold toggleNotifications. rewrite finish_bind, (run_device _ _ _ _ _ _ E2), finish_ret, finish_bind, run_modify_state.
  destruct value; [by apply on_settles|by apply off_settles].
Qed.

(** Toggles that wait for each other, whatever becomes of each. *)
Fixpoint toggles (values : list bool) : M (hook W) unit := λ x,
  match values with
  | [] => (Ok tt, x)
  | v :: values' => toggles values' (finish (toggleNotifications v) x).2
  end.

(** The switch shows what is stored, and there is no token to be found once notifications are off. *)
Definition in_step p w : Prop := np_enabled p = preference w ∧ (np_enabled p = false → push_token w = None).

(** C30: toggles that wait for each other keep the switch in step with the store, whatever the platform and the backend
    answer to each: it shows the value asked for last, which is the value stored, and while it is off no push token
    is stored. *)
Theorem toggles_in_turn values p s w : st_live w → in_step p w → ∃ p' s' w',
  toggles values (p, (s, w)) = (Ok tt, (p', (s', w'))) ∧ in_step p' w' ∧
  np_enabled p' = default (np_enabled p) (last values) ∧ np_loading p' = np_loading p.
Proof.
  revert p s w. induction values as [|v values IH]; intros p s w L I; [by exists p, s, w|]. cbn [toggles].
  destruct (toggle_settles v p s w L) as (r & p1 & s1 & w1 & E1 & L1 & (Ev & Pv & Lv & T)). rewrite E1. cbn [snd].
  destruct (IH p1 s1 w1 L1) as (p' & s' & w' & E2 & I2 & V2 & N2).
  { split; [congruence|]. intros F. rewrite Ev in F. rewrite F in T. apply T. }
  exists p', s', w'. split; [done|]. split; [done|]. split; [|congruence].
  rewrite V2, Ev, last_cons. by destruct (last values).
Qed.

(** Opening the settings: the switch shows what is stored once the platform has said what is permitted. When it rejects,
    the screen stays as it was opened: it shows the switch on, and says that it is loading for good. *)
Theorem preferences_load p s w : st_live w → ∃ w1, kept w w1 ∧
  finish loadPreferences (p, (s, w)) =
    match getPermissions w1 with
    | (Ok current, w2) => (Ok tt, (MkPrefs (preference w) (pm_status current) false, (s, w2)))
    | (Throw e, w2) => (Throw e, (p, (s, w2)))
    end.
Proof.
  intros L. destruct (preference_run w L) as (w1 & E1 & K1). exists w1. split; [done|].
  unfold loadPreferences. rewrite finish_bind, (run_device _ _ _ _ _ _ E1), finish_ret, finish_bind.
  destruct (getPermissions w1) as [r w2] eqn:E2. rewrite (run_device _ _ _ _ _ _ E2). by destruct r.
Qed.
End Settles.
End Preferences.

(** ** Languages *)

Module Language.
(** react-native-localize: missing, or what [getLocales] answers, each with its language code if it has one. *)
Class Localize := localize_getLocales : option (res (list (option str))).

(** i18next: switching to a language. *)
Class I18next (W : Type) := changeLanguage : str → M W unit.

Definition languageMap : list (str * str) :=
  [(js "en", js "en"); (js "es", js "es"); (js "fr", js "fr"); (js "ar", js "ar"); (js "sw", js "sw")].

(** [languageMap[deviceLanguage] || "en"], as a text: a name that every object inherits gives no text. *)
Definition mapped (deviceLanguage : str) : option str :=
  match snd <$> find (λ p, str_eqb p.1 deviceLanguage) languageMap with
  | Some l => Some l
  | None => if inherited deviceLanguage then None else Some (js "en")
  end.

Definition deviceLanguage (locales : list (option str)) : str :=
  match locales with
  | Some code :: _ => if truthy code then code else js "en"
  | _ => js "en"
  end.

Definition getDeviceLanguage `{Localize} : res (option str) :=
  match localize_getLocales with
  | None => Ok (mapped (js "en"))
  | Some (Ok locales) => Ok (mapped (deviceLanguage locales))
  | Some (Throw e) => Throw e
  end.

Record Language := MkLanguage { lg_code : str; lg_name : str; lg_nativeName : str; lg_isRTL : option bool }.

Definition languages : list Language :=
  [MkLanguage (js "en") (js "English") (js "English") None;
   MkLanguage (js "es") (js "Spanish") (js "Espa" ++ [241%N] ++ js "ol") None;
   MkLanguage (js "fr") (js "French") (js "Fran" ++ [231%N] ++ js "ais") None;
   MkLanguage (js "ar") (js "Arabic") [1575; 1604; 1593; 1585; 1576; 1610; 1577]%N (Some true);
   MkLanguage (js "sw") (js "Swahili") (js "Kiswahili") None].

(** What the selector has done: the layout directions it forced, the languages it announced, and the toasts, true for
    a success. *)
Record selector := MkSelector { sl_forced : list bool; sl_announced : list str; sl_toasts : list bool }.

Definition forceRTL (v : bool) (s : selector) : selector := MkSelector (sl_forced s ++ [v]) (sl_announced s) (sl_toasts s).
Definition announce (code : str) (s : selector) : selector := MkSelector (sl_forced s) (sl_announced s ++ [code]) (sl_toasts s).
Definition toast (ok : bool) (s : selector) : selector := MkSelector (sl_forced s) (sl_announced s) (sl_toasts s ++ [ok]).

(** [selectedLanguage?.isRTL] *)
Definition selected_isRTL (languageCode : str) : option bool :=
  find (λ l, str_eqb (lg_code l) languageCode) languages ≫= lg_isRTL.

Section Selector.
Context {W : Type} `{!I18next W}.

(** [isRTL] is the direction of the layout until the app restarts. *)
Definition handleLanguageChange (isRTL : bool) (languageCode : str) : M (selector * W) unit :=
  try_catch
    ((if bool_decide (selected_isRTL languageCode = Some isRTL) then mret tt
      else modify_state (forceRTL (default false (selected_isRTL languageCode))));;
     host (changeLanguage languageCode);;
     modify_state (announce languageCode);;
     modify_state (toast true))
    (λ _, modify_state (toast false)).

(** The direction that a press forces: none when the layout is already that of Arabic, else the one of the language, even
    if it is the one the layout has. *)
Definition forced_by (isRTL : bool) (languageCode : str) : list bool :=
  let arabic := bool_decide (languageCode = js "ar") in if isRTL && arabic then [] else [arabic].

Lemma selected_direction languageCode :
  selected_isRTL languageCode = if bool_decide (languageCode = js "ar") then Some true else None.
Proof.
  unfold selected_isRTL, languages, str_eqb. cbn [find lg_code].
  repeat (case_bool_decide; [subst; try done|]); cbn; try done; congruence.
Qed.

(** a press of the selector ends with one toast and never throws, and a language is announced exactly when i18next has
    taken it; but the direction of the layout is forced before, so that it turns even when the language does not. *)
Theorem language_change isRTL languageCode s w : ∃ w',
  handleLanguageChange isRTL languageCode (s, w) =
    (Ok tt, (MkSelector (sl_forced s ++ forced_by isRTL languageCode)
               (sl_announced s ++ match (changeLanguage languageCode w).1 with Ok _ => [languageCode] | Throw _ => [] end)
               (sl_toasts s ++ [match (changeLanguage languageCode w).1 with Ok _ => true | Throw _ => false end]), w')).
Proof.
  unfold handleLanguageChange, forced_by, try_catch. rewrite selected_direction.
  destruct (changeLanguage languageCode w) as [r w'] eqn:E. exists w'.
  assert (G : ∀ s0, (host (changeLanguage languageCode);; modify_state (announce languageCode);; modify_state (toast true)) (s0, w)
    = match r with Ok _ => (Ok tt, (toast true (announce languageCode s0), w')) | Throw e => (Throw e, (s0, w')) end).
  { intros s0. rewrite run_bind, (run_host _ s0 _ _ _ E). by destruct r as [[]|e]. }
  rewrite run_bind.
  destruct (bool_decide (languageCode = js "ar")), isRTL; cbn [andb default];
    rewrite ?bool_decide_eq_true_2, ?bool_decide_eq_false_2 by done; rewrite ?run_modify_state; cbn [mret M_ret];
    rewrite G; unfold toast, announce, forceRTL; destruct r as [[]|e]; cbn; rewrite ?app_nil_r; by destruct s.
Qed.
End Selector.

Lemma mapped_known code : code ∈ lg_code <$> languages → mapped code = Some code.
Proof.
  change (lg_code <$> languages) with [js "en"; js "es"; js "fr"; js "ar"; js "sw"]. intros Hc.
  by repeat (apply elem_of_cons in Hc as [->|Hc]; [reflexivity|]); apply elem_of_nil in Hc.
Qed.

Lemma mapped_unknown code : code ∉ lg_code <$> languages → mapped code = if inherited code then None else Some (js "en").
Proof.
  change (lg_code <$> languages) with [js "en"; js "es"; js "fr"; js "ar"; js "sw"]. intros Hn.
  repeat apply not_elem_of_cons in Hn as [? Hn]. unfold mapped, languageMap, str_eqb. cbn [find fst].
  by rewrite !bool_decide_eq_false_2 by congruence.
Qed.

(** The app opens in a language it has: that of the device, or else English. Only a code which every object has as a
    member gives no text. *)
Theorem device_language_supported locales (L : Localize) : L = Some (Ok locales) →
  let code := deviceLanguage locales in
  (code ∈ lg_code <$> languages → getDeviceLanguage = Ok (Some code)) ∧
  (code ∉ lg_code <$> languages → getDeviceLanguage = Ok (if inherited code then None else Some (js "en"))).
Proof.
  intros -> code. unfold getDeviceLanguage, localize_getLocales. fold code. generalize code. clear code. intros code. split; intros Hc.
  - by rewrite (mapped_known code Hc).
  - by rewrite (mapped_unknown code Hc).
Qed.
End Language.

(** ** Avatars *)

Module Picker.

(** [/[\s._-]/] *)
Definition separator (c : N) : bool := is_ws c || (c =? 46)%N || (c =? 95)%N || (c =? 45)%N.

(** [name.split(/[\s._-]+/).filter(Boolean)]: the runs of other characters. *)
Fixpoint runs (word name : str) : list str :=
  match name with
  | [] => if truthy word then [word] else []
  | c :: name' => if separator c then (if truthy word then word :: runs [] name' else runs [] name') else runs (word ++ [c]) name'
  end.

Section Initials.
Context `{UnicodeCase}.

Definition initials (name : str) : str := concat ((λ w, to_upper (take 1 w)) <$> take 2 (runs [] name)).

(** What the placeholder shows. *)
Definition placeholder (name : str) : str := if truthy (initials name) then initials name else js "?".

Lemma runs_grow c word name : ∃ u l, runs (c :: word) name = (c :: u) :: l.
Proof.
  revert word. induction name as [|d name IH]; intros word; cbn; [by eexists _, _|].
  destruct (separator d); [by eexists _, _|apply IH].
Qed.

Lemma runs_head name : match drop_while separator name with
  | [] => runs [] name = []
  | c :: _ => ∃ u l, runs [] name = (c :: u) :: l
  end.
Proof.
  induction name as [|c name IH]; [done|]. cbn. destruct (separator c); [done|]. apply runs_grow.
Qed.

Lemma runs_ascii word name : forallb is_ascii (word ++ name) = true → Forall (λ w, forallb is_ascii w = true) (runs word name).
Proof.
  revert word. induction name as [|c name IH]; intros word Hw; cbn.
  - rewrite app_nil_r in Hw. destruct (truthy word); by repeat constructor.
  - assert (forallb is_ascii word = true ∧ forallb is_ascii name = true) as [H1 H2].
    { rewrite forallb_app in Hw. cbn in Hw. apply andb_true_iff in Hw as [? [? ?]%andb_true_iff]. done. }
    destruct (separator c); [|apply IH; by rewrite <-app_assoc].
    destruct (truthy word); [constructor; [done|]|]; by apply IH.
Qed.

Lemma initials_short l : Forall (λ w, forallb is_ascii w = true) l → length (concat ((λ w : str, to_upper (take 1 w)) <$> l)) ≤ length l.
Proof.
  assert (U : ∀ w : str, forallb is_ascii w = true → length (to_upper (take 1 w)) ≤ 1).
  { intros [|c w] Hw; [by apply Nat.le_0_l|]. cbn in Hw. apply andb_true_iff in Hw as [Hc _]. unfold to_upper. cbn. by rewrite Hc. }
  induction 1 as [|w l Hw F IH]; [done|]. cbn [fmap list_fmap concat length]. rewrite length_app. specialize (U w Hw). cbn in IH |- *. unfold fmap, list_fmap in *. lia.
Qed.

(** the placeholder of an avatar is never blank: a name of nothing but separators shows a question mark, any other name
    shows one or two letters, the first of them the upper case of its first character that is no separator. *)
Theorem placeholder_letters name : forallb is_ascii name = true →
  match drop_while separator name with
  | [] => placeholder name = js "?"
  | c :: _ => head (placeholder name) = Some (ascii_upper c) ∧ length (placeholder name) ≤ 2
  end.
Proof.
  intros Ha. pose proof (runs_head name) as Hh. unfold placeholder, initials. destruct (drop_while separator name) as [|c rest] eqn:E.
  - by rewrite Hh.
  - destruct Hh as (u & l & R). assert (F := runs_ascii [] name Ha).
    assert (Hc : is_ascii c = true) by (rewrite R in F; inversion F as [|? ? Hu]; subst; cbn in Hu; by apply andb_true_iff in Hu as [? _]).
    rewrite R. cbn [take fmap list_fmap concat]. replace (to_upper (take 1 (c :: u))) with [ascii_upper c] by (unfold to_upper; cbn; by rewrite Hc).
    cbn [app truthy head]. split; [done|]. cbn [length]. apply le_n_S.
    etransitivity; [apply initials_short|rewrite length_take; lia].
    rewrite R in F. inversion F; subst. by apply Forall_take.
Qed.
End Initials.

(** The state of the component, with the alerts it showed and the addresses it handed to its caller. *)
Record picker := MkPicker { pk_uploading : bool; pk_alerts : list (str * str); pk_uploaded : list str }.

Definition set_uploading (v : bool) (p : picker) : picker := MkPicker v (pk_alerts p) (pk_uploaded p).
Definition alert (title message : str) (p : picker) : picker := MkPicker (pk_uploading p) (pk_alerts p ++ [(title, message)]) (pk_uploaded p).
Definition onAvatarUploaded (url : str) (p : picker) : picker := MkPicker (pk_uploading p) (pk_alerts p) (pk_uploaded p ++ [url]).

Definition denied : picker → picker :=
  alert (js "Permission required") (js "Please grant photo library access to change your avatar.").

(** The [catch] and the [finally] of the upload. *)
Definition upload_settled (r : res str) (p : picker) : picker :=
  set_uploading false (match r with Ok avatarUrl => onAvatarUploaded avatarUrl p | Throw err => alert (js "Upload failed") (err_message err) p end).

(** The image of an answer of the library. *)
Definition chosen (result : bool * option str) : option str :=
  match result with (false, Some uri) => if truthy uri then Some uri else None | _ => None end.

(** What a computation ends with. *)
Definition attempt {X A} (m : M X A) : M X (res A) := λ x, let '(r, x') := m x in (Ok r, x').

Section Pick.
Context `{Env : ApiEnv, UnicodeCase, Form : Avatars.AvatarForm, Host W, FS : !Avatars.FileSystem W, IP : !ImagePicker W}.
Abbreviation device := (λ m, host (host m)).

(** [uploading] is the one of the render that the press belongs to. *)
Definition pickImage (uploading : bool) (authToken : option str) : task (picker * (api_state * W)) :=
  if uploading then Rest
  else Await (granted ← device requestMediaLibraryPermissions; mret (
       Await (if negb granted then modify_state denied;; mret Rest
              else result ← device launchImageLibrary; mret (
                match chosen result with
                | None => Rest
                | Some uri =>
                    Await (modify_state (set_uploading true);;
                           r ← attempt (host (Avatars.uploadAvatar uri authToken)); mret (
                           Await (modify_state (upload_settled r);; mret Rest)))
                end)))).
End Pick.

(** The image library changes nothing of the application. *)
Class PickerLaws (W : Type) `{Host W, !ImagePicker W} : Prop := {
  permission_inert : inert requestMediaLibraryPermissions;
  library_inert : inert launchImageLibrary }.

Section Picked.
Context `{Env : ApiEnv, UnicodeCase, Form : Avatars.AvatarForm, HostLaws W, FS : !Avatars.FileSystem W,
  !Avatars.FileSystemLaws W, IP : !ImagePicker W, !PickerLaws W}.
Implicit Types (p : picker) (s : api_state) (w : W).

(** What an upload says of the requests that were sent. *)
Definition upload_sent w w' (uri : str) (authToken : option str) (out : res str) : Prop :=
  (net_trace w' = net_trace w ∧ ∃ e, out = Throw e) ∨
  ∃ r more, out = Avatars.upload_outcome r ∧ net_trace w' = net_trace w ++ (Avatars.upload_request uri authToken, r) :: more.

Lemma upload_run uri authToken s w : st_live w → ∃ out s' w',
  Avatars.uploadAvatar uri authToken (s, w) = (out, (s', w')) ∧ upload_sent w w' uri authToken out.
Proof.
  intros L. destruct (Avatars.avatar_outcome uri authToken s w L) as (out & s' & w' & E1 & O). exists out, s', w'. split; [done|].
  destruct (Avatars.size_verdict _) as [e|]; [left; destruct O as (-> & T & _); eauto|].
  destruct O as (r & -> & T). right. exists r. destruct (Avatars.upload_outcome r); [destruct T as [r2 T]; eauto|eauto].
Qed.

(** a press that is let through ends with the button free again and at most one thing said: that the library was
    refused, that the upload failed, or the address of the new image; and an address is only handed on when the proxy
    answered with it. Nothing is sent without an image. *)
Theorem pick_settles authToken p s w : st_live w → pk_uploading p = false → ∃ r p' s' w',
  finish (pickImage false authToken) (p, (s, w)) = (r, (p', (s', w'))) ∧ pk_uploading p' = false ∧
  (((p' = p ∨ p' = denied p) ∧ net_trace w' = net_trace w) ∨
   ∃ uri out, p' = upload_settled out p ∧ upload_sent w w' uri authToken out).
Proof.
  intros L Hp. pose proof (permission_inert w) as K1. destruct (requestMediaLibraryPermissions w) as [r1 w1] eqn:E1. cbn in K1.
  unfold pickImage. rewrite finish_bind, (run_device _ _ _ _ _ _ E1).
  destruct r1 as [granted|e]; [|exists (Throw e), p, s, w1; split_and!; [done..|left; split; [by left|apply K1]]].
  rewrite finish_ret. destruct granted; cbn [negb].
  2:{ rewrite finish_bind, run_modify_state, finish_ret. cbn [finish].
      exists (Ok tt), (denied p), s, w1. split_and!; [done..|left; split; [by right|apply K1]]. }
  pose proof (library_inert w1) as K2. destruct (launchImageLibrary w1) as [r2 w2] eqn:E2. cbn in K2.
  rewrite finish_bind, (run_device _ _ _ _ _ _ E2).
  assert (K : kept w w2) by by etransitivity.
  destruct r2 as [result|e]; [|exists (Throw e), p, s, w2; split_and!; [done..|left; split; [by left|apply K]]].
  rewrite finish_ret. destruct (chosen result) as [uri|]; [|exists (Ok tt), p, s, w2; split_and!; [done..|left; split; [by left|apply K]]].
  destruct (upload_run uri authToken s w2) as (out & s' & w3 & E3 & U); [by apply (kept_live _ _ K)|].
  rewrite finish_bind, run_modify_state, finish_bind. unfold attempt, host at 1. cbn [fst snd]. rewrite E3. cbn.
  exists (Ok tt), (upload_settled out p), s', w3. split; [|split; [done|right; exists uri, out; split; [done|]]].
  - unfold upload_settled. by destruct out.
  - unfold upload_sent in *. by rewrite <-(kept_trace _ _ K).
Qed.
End Picked.
End Picker.

(** ** Failures of the screen *)

Module Boundary.
(** [hasError], [error], and how often the navigation was reset. *)
Record boundary := MkBoundary { eb_hasError : bool; eb_error : option js_error; eb_resets : nat }.

Definition initial : boundary := MkBoundary false None 0.
Definition getDerivedStateFromError (error : js_error) (b : boundary) : boundary := MkBoundary true (Some error) (eb_resets b).
Definition handleRetry (b : boundary) : boundary := MkBoundary false None (S (eb_resets b)).

(** What is rendered: the children, a fallback of the caller, or the page, with the message in a development build. *)
Inductive view := Children | Fallback | ErrorPage (errorDetail : option str).

Definition render (fallback dev : bool) (b : boundary) : view :=
  if eb_hasError b then if fallback then Fallback else ErrorPage (if dev then err_message <$> eb_error b else None)
  else Children.

Section Events.
Context `{ApiEnv, Host W}.

(** The children throw, with the stacks the runtime gives, or the user taps the button. *)
Inductive event := EThrow (error : js_error) (stack componentStack : option str) | ERetry.

Definition step (e : event) : M (boundary * W) unit :=
  match e with
  | EThrow error stack componentStack =>
      modify_state (getDerivedStateFromError error);; host (Crashes.reportCrash error stack componentStack)
  | ERetry => modify_state handleRetry
  end.

Definition run (es : list event) : M (boundary * W) unit := foldr (λ e m, step e;; m) (mret tt) es.
End Events.

Definition is_retry (e : event) : bool := match e with ERetry => true | EThrow _ _ _ => false end.
Section Spec.
Context `{ApiEnv, HostLaws W}.
Implicit Types (b : boundary) (w : W).

(** the boundary itself never fails, however storage and network answer: it shows the children exactly when nothing was thrown
    since the last tap on the button, each tap resets the navigation once, and the page names the last error. *)
Theorem boundary_view es b w : ∃ b' w', run es (b, w) = (Ok tt, (b', w')) ∧
  eb_resets b' = eb_resets b + length (filter (λ e, is_retry e = true) es) ∧
  match last es with
  | None => b' = b
  | Some ERetry => render false true b' = Children
  | Some (EThrow error _ _) => render false true b' = ErrorPage (Some (err_message error))
  end.
Proof.
  revert b w. induction es as [|e es IH]; intros b w; [exists b, w; split_and!; [done|cbn; lia|done]|]. cbn [run foldr].
  assert (∃ b1 w1, step e (b, w) = (Ok tt, (b1, w1)) ∧ b1 = match e with ERetry => handleRetry b | EThrow error _ _ => getDerivedStateFromError error b end)
    as (b1 & w1 & E1 & ->).
  { destruct e as [error stack cs|]; [|by eexists _, _]. cbn [step]. rewrite run_bind, run_modify_state.
    unfold Crashes.reportCrash. edestruct (swallow_ok (W := W)) as (w1 & E2 & _). eexists _, w1. split; [by apply run_host|done]. }
  rewrite run_bind, E1. destruct (IH (match e with ERetry => handleRetry b | EThrow error _ _ => getDerivedStateFromError error b end) w1)
    as (b' & w' & E2 & R & V). exists b', w'. split; [done|]. split.
  - rewrite R, filter_cons. destruct e; case_decide; cbn [is_retry length eb_resets handleRetry getDerivedStateFromError] in *; try done; lia.
  - rewrite last_cons. destruct (last es); [done|]. by destruct e; subst.
Qed.
End Spec.
End Boundary.

(** ** Concrete runs *)

Module Runs.
Import Preferences.
#[local] Instance demo_env : ApiEnv := None.

(** A phone whose permission is granted already. *)
#[local] Instance granted_phone : ExpoNotifications scripted := {|
  platform_os := js "ios"; isDevice := true; manifest_slug := None; expoConfig_slug := Some (js "zaps");
  STATUS_GRANTED := js "granted"; STATUS_UNDETERMINED := js "undetermined"; STATUS_PROVISIONAL := Some (js "provisional");
  setNotificationCategory _ _ := mret tt;
  getPermissions := mret (Permission true (js "granted") None);
  requestPermissions := mret (Permission true (js "granted") None);
  getExpoPushToken := mret (js "ExponentPushToken[x]");
  openURL _ := mret tt |}.
#[local] Instance granted_laws : ExpoLaws scripted.
Proof. by split. Qed.
#[local] Instance system : SystemSettings scripted := {| STATUS_DENIED := js "denied"; openSettings := mret tt |}.
#[local] Instance system_laws : SystemLaws scripted.
Proof. intros w. done. Qed.

Definition phone : scripted := world [(SecureStore, SESSION_TOKEN_KEY, js "s")] [reply 200 (js "{}")].
Definition no_expiry : api_state := MobileApi.ApiState false 0.

Lemma toggles_in_turn_witness : ∃ p' s' w',
  toggles [true; false] (mounted (W := scripted), (no_expiry, phone)) = (Ok tt, (p', (s', w'))) ∧ in_step p' w' ∧
  np_enabled p' = false ∧ np_loading p' = true.
Proof. apply (toggles_in_turn [true; false] (mounted (W := scripted)) no_expiry phone); [reflexivity|]. split; [reflexivity|discriminate]. Defined.

Lemma preferences_load_witness : ∃ w1, kept phone w1 ∧
  finish loadPreferences (mounted (W := scripted), (no_expiry, phone)) =
    match getPermissions w1 with
    | (Ok current, w2) => (Ok tt, (MkPrefs (preference phone) (pm_status current) false, (no_expiry, w2)))
    | (Throw e, w2) => (Throw e, (mounted (W := scripted), (no_expiry, w2)))
    end.
Proof. apply (preferences_load (mounted (W := scripted)) no_expiry phone). reflexivity. Defined.

(** What the screen shows, what the store holds and whether the phone still has a push token. *)
Definition shown_and_stored (x : list (task (hook scripted)) * hook scripted) : bool * bool * bool :=
  let '(p, (_, w)) := x.2 in (np_enabled p, preference w, truthy_opt (push_token w)).

Definition together (handlers : list (task (hook scripted))) (order : list nat) : bool * bool * bool :=
  shown_and_stored (interleave handlers order (mounted (W := scripted), (no_expiry, phone))).

(** Handlers that do not wait for each other do not keep the switch in step. A switch turned off while the preferences
    load comes back on, with the preference stored as off. And turned on and off again while the phone is being
    registered, it leaves a push token behind, registered with the backend, while notifications are off. *)
Theorem toggles_race :
  together [loadPreferences; toggleNotifications false] [0;1;1;1;1;0;0] = (true, false, false) ∧
  together [toggleNotifications true; toggleNotifications false] [0;0;1;1;1;1;0] = (false, false, true).
Proof. vm_compute. by split. Qed.

(** *** The other modules *)

#[local] Existing Instance ascii_case.
#[local] Instance demo_form : Avatars.AvatarForm := λ uri name mime, name ++ js ";" ++ mime.
#[local] Instance demo_files : Avatars.FileSystem scripted := λ uri w, (Ok (Some 1048576%Z), w).
#[local] Instance demo_files_laws : Avatars.FileSystemLaws scripted.
Proof. intros uri w. done. Qed.
#[local] Instance demo_library : ImagePicker scripted := {|
  requestMediaLibraryPermissions := mret true;
  launchImageLibrary := mret (false, Some (js "file:///tmp/me.png")) |}.
#[local] Instance demo_library_laws : Picker.PickerLaws scripted.
Proof. by split. Qed.

Definition proxy : scripted := world [] [reply 200 (stringify (JObj [(js "avatarUrl", JStr (js "ipfs://Qm"))])); reply 200 (js "{}")].
Definition idle : Picker.picker := Picker.MkPicker false [] [].

Lemma pick_settles_witness : ∃ r p' s' w',
  finish (Picker.pickImage false None) (idle, (no_expiry, proxy)) = (r, (p', (s', w'))) ∧ Picker.pk_uploading p' = false ∧
  (((p' = idle ∨ p' = Picker.denied idle) ∧ net_trace w' = net_trace proxy) ∨
   ∃ uri out, p' = Picker.upload_settled out idle ∧ Picker.upload_sent proxy w' uri None out).
Proof. apply (Picker.pick_settles None idle no_expiry proxy); reflexivity. Defined.

Example picked : Picker.pk_uploaded (finish (Picker.pickImage false None) (idle, (no_expiry, proxy))).2.1 = [js "ipfs://Qm"].
Proof. vm_compute. reflexivity. Qed.

Lemma placeholder_letters_witness :
  match drop_while Picker.separator (js " ada.love_lace") with
  | [] => Picker.placeholder (js " ada.love_lace") = js "?"
  | c :: _ => head (Picker.placeholder (js " ada.love_lace")) = Some (ascii_upper c) ∧ length (Picker.placeholder (js " ada.love_lace")) ≤ 2
  end.
Proof. apply (Picker.placeholder_letters (js " ada.love_lace")). reflexivity. Defined.

Example two_letters : Picker.placeholder (js " ada.love_lace") = js "AL".
Proof. vm_compute. reflexivity. Qed.

Lemma device_language_supported_witness :
  (js "pt" ∈ Language.lg_code <$> Language.languages → @Language.getDeviceLanguage (Some (Ok [Some (js "pt")])) = Ok (Some (js "pt"))) ∧
  (js "pt" ∉ Language.lg_code <$> Language.languages →
     @Language.getDeviceLanguage (Some (Ok [Some (js "pt")])) = Ok (if inherited (js "pt") then None else Some (js "en"))).
Proof. apply (Language.device_language_supported [Some (js "pt")] (Some (Ok [Some (js "pt")]))). reflexivity. Defined.

(** Arabic is picked in a layout that runs from left to right, and i18next refuses: the layout turns all the same. *)
Example refused_language :
  (Language.handleLanguageChange (W := unit) (I18next0 := λ _ w, (Throw type_error, w)) false (js "ar") (Language.MkSelector [] [] [], tt)).2.1
  = Language.MkSelector [true] [] [false].
Proof. vm_compute. reflexivity. Qed.

Lemma boundary_view_witness : ∃ b' w',
  Boundary.run [Boundary.EThrow type_error None None; Boundary.ERetry] (Boundary.initial, phone) = (Ok tt, (b', w')) ∧
  Boundary.eb_resets b' = 1 ∧ Boundary.render false true b' = Boundary.Children.
Proof. apply (Boundary.boundary_view [Boundary.EThrow type_error None None; Boundary.ERetry] Boundary.initial phone). Defined.
End Runs.
