(* ===== verification/ScanScreen.v ===== *)
(** * The scanner of the mobile application

    Model of [mobileapp/app/scan.tsx]: what a scanned or typed text becomes (a payment to look
    at, or an error), and the address the payment is handed on with. Recognition and parsing are
    those of [Sep0007], the text of the query that of [FormCodec]. *)

From S2P Require Import Prelude JsString JsNumber UriCodec FormCodec Effects Decode Scripts Sep0007.

(** ** State *)

Inductive ScreenState := SScanner | SManual | SPreview | SError.

#[export] Instance ScreenState_eq_dec : EqDecision ScreenState.
Proof. solve_decision. Defined.

Record PaymentPreview := MkPreview {
  pv_destination : str;
  pv_amount : option str;
  pv_asset : option str;
  pv_memo : option str;
  pv_msg : option str;
  pv_origin_domain : option str;
  pv_rawUri : str;
}.

Record scan := MkScan {
  sn_screenState : ScreenState;
  sn_flash : bool;
  sn_scanned : bool;
  sn_manualAddress : str;
  sn_preview : option PaymentPreview;
  sn_errorMsg : str;
  sn_pushed : list str;      (** the routes pushed *)
}.

Definition opened : scan := MkScan SScanner false false [] None [] [].

Definition show_error (e : str) (s : scan) : scan :=
  MkScan SError (sn_flash s) (sn_scanned s) (sn_manualAddress s) (sn_preview s) e (sn_pushed s).
Definition show_preview (p : PaymentPreview) (s : scan) : scan :=
  MkScan SPreview (sn_flash s) (sn_scanned s) (sn_manualAddress s) (Some p) (sn_errorMsg s) (sn_pushed s).
Definition set_scanned (b : bool) (s : scan) : scan :=
  MkScan (sn_screenState s) (sn_flash s) b (sn_manualAddress s) (sn_preview s) (sn_errorMsg s) (sn_pushed s).

(** ** Handlers *)

Definition unrecognized : str :=
  js "Unrecognized QR code content." ++ [10; 10]%N ++ js "Expected a SEP-0007 payment URI (web+stellar:pay?" ++ [8230%N]
  ++ js "), a Zaps pay URI (zaps://pay?" ++ [8230%N] ++ js "), or a Stellar address.".

Definition preview_of_pay (p : Sep0007PaymentParams) (data : str) : PaymentPreview :=
  MkPreview (pp_destination p) (pp_amount p) (pp_asset_code p) (pp_memo p) (pp_msg p) (pp_origin_domain p) data.

Definition tx_destination : str := js "XDR Transaction".
Definition preview_of_tx (data : str) : PaymentPreview :=
  MkPreview tx_destination None None None (Some (js "This QR contains a signed transaction envelope.")) None data.

Section Handlers.
Context `{UrlParser}.

(** What a text becomes; a [Throw] is the exception of the parser. *)
Definition read_qr (data : str) : res (str + PaymentPreview) :=
  match detectQrContentType data with
  | QrSep0007 | QrZapsPay =>
      let result := match detectQrContentType data with
                    | QrZapsPay => Ok (parseZapsPayUri data)
                    | _ => parseSep0007Uri data
                    end in
      match result with
      | Throw e => Throw e
      | Ok (ParseError e) => Ok (inl e)
      | Ok (ValidPay p) => Ok (inr (preview_of_pay p data))
      | Ok (ValidTx _) => Ok (inr (preview_of_tx data))
      end
  | QrStellarAddress => Ok (inr (MkPreview (trim data) None None None None None (trim data)))
  | QrUnknown => Ok (inl unrecognized)
  end.

(** [handleQrData] and [handleBarcodeScanned]; an exception leaves the updates made before it. *)
Definition handleQrData (data : str) (s : scan) : scan :=
  if sn_scanned s then s
  else
    let s := set_scanned true s in
    match read_qr data with
    | Ok (inl e) => show_error e s
    | Ok (inr p) => show_preview p s
    | Throw _ => s
    end.

Definition handleManualSubmit (s : scan) : scan :=
  let trimmed := trim (sn_manualAddress s) in
  if truthy trimmed then handleQrData trimmed s else s.

(** [params.set(k, v)] for a value that is given *)
Definition set_param (k : str) (v : option str) : list (str * str) :=
  match v with Some v => if truthy v then [(k, v)] else [] | None => [] end.

Definition transfer_params (p : PaymentPreview) : list (str * str) :=
  (js "destination", pv_destination p) :: set_param (js "amount") (pv_amount p) ++ set_param (js "asset") (pv_asset p)
    ++ set_param (js "memo") (pv_memo p).

Definition handleConfirmPayment (s : scan) : scan :=
  match sn_preview s with
  | None => s
  | Some p => MkScan (sn_screenState s) (sn_flash s) (sn_scanned s) (sn_manualAddress s) (sn_preview s) (sn_errorMsg s)
                (sn_pushed s ++ [js "/transfer?" ++ params_to_string (transfer_params p)])
  end.

Definition resetScanner (s : scan) : scan := MkScan SScanner (sn_flash s) false [] None [] (sn_pushed s).

(** The error screen's "Enter Address Manually", the scanner's "Manual" and flash buttons, the text field. *)
Definition manual_fallback (s : scan) : scan :=
  MkScan SManual (sn_flash s) false (sn_manualAddress s) (sn_preview s) [] (sn_pushed s).
Definition open_manual (s : scan) : scan :=
  MkScan SManual (sn_flash s) (sn_scanned s) (sn_manualAddress s) (sn_preview s) (sn_errorMsg s) (sn_pushed s).
Definition toggle_flash (s : scan) : scan :=
  MkScan (sn_screenState s) (negb (sn_flash s)) (sn_scanned s) (sn_manualAddress s) (sn_preview s) (sn_errorMsg s) (sn_pushed s).
Definition type_address (t : str) (s : scan) : scan :=
  MkScan (sn_screenState s) (sn_flash s) (sn_scanned s) t (sn_preview s) (sn_errorMsg s) (sn_pushed s).

(** What each screen offers; the header's arrow resets everywhere but on the scanner, which it leaves. *)
Inductive scan_event := EvCode (data : str) | EvFlash | EvManual | EvType (t : str) | EvSubmit | EvFallback | EvReset | EvConfirm.

Definition scan_step (s : scan) (e : scan_event) : scan :=
  match sn_screenState s, e with
  | SScanner, EvCode data => handleQrData data s
  | SScanner, EvFlash => toggle_flash s
  | SScanner, EvManual => open_manual s
  | SManual, EvType t => type_address t s
  | SManual, EvSubmit => handleManualSubmit s
  | SError, EvFallback => manual_fallback s
  | SPreview, EvConfirm => handleConfirmPayment s
  | (SManual | SPreview | SError), EvReset => resetScanner s
  | _, _ => s
  end.

Definition scan_run (es : list scan_event) : scan := foldl scan_step opened es.
End Handlers.

(** ** Properties *)

Section Spec.
Context `{UrlParser}.

(** A payment the screen may show: a destination the network could have, an amount that reads
    as a number that is not negative; or the placeholder of a transaction. *)
Definition preview_ok (p : PaymentPreview) : Prop :=
  (isValidStellarDestination (pv_destination p) = true ∧ ∀ a, pv_amount p = Some a → amount_ok a = true) ∨
  (pv_destination p = tx_destination ∧ pv_amount p = None).

Lemma pay_amount_ok uri p : parseSep0007Uri uri = Ok (ValidPay p) ∨ parseZapsPayUri uri = ValidPay p →
  isValidStellarDestination (pp_destination p) = true ∧ ∀ a, pp_amount p = Some a → amount_ok a = true.
Proof.
  assert (C : accepted (ValidPay p) → isValidStellarDestination (pp_destination p) = true ∧ ∀ a, pp_amount p = Some a → amount_ok a = true).
  { intros [D A]. split; [done|]. intros a Ea. destruct (A a Ea) as (x & <- & N & L). unfold amount_ok. by rewrite N, L. }
  intros [E|E]; apply C; [by eapply parse_accepted|]. rewrite <-E. apply zaps_accepted.
Qed.

Lemma read_qr_ok data p : read_qr data = Ok (inr p) → preview_ok p.
Proof.
  unfold read_qr. destruct (detectQrContentType data) eqn:D.
  - destruct (parseSep0007Uri data) as [[q|q|e]|e] eqn:E; intros [= <-]; [|by right]. left. eapply pay_amount_ok. by left.
  - destruct (parseZapsPayUri data) as [q|q|e] eqn:E; intros [= <-]; [|by right]. left. eapply pay_amount_ok. by right.
  - intros [= <-]. left. split; [|done]. cbn. unfold detectQrContentType in D. repeat case_match; try done.
  - done.
Qed.

Definition scan_ok (s : scan) : Prop :=
  (sn_screenState s = SPreview → ∃ p, sn_preview s = Some p) ∧ (∀ p, sn_preview s = Some p → preview_ok p) ∧
  (sn_screenState s = SPreview ∨ sn_screenState s = SError → sn_scanned s = true) ∧
  (∀ r, r ∈ sn_pushed s → ∃ p, preview_ok p ∧ r = js "/transfer?" ++ params_to_string (transfer_params p)).

Lemma handleQrData_ok data s : scan_ok s → scan_ok (handleQrData data s).
Proof.
  intros (A & B & C & D). unfold handleQrData. destruct (sn_scanned s) eqn:Es; [by repeat split|].
  destruct (read_qr data) as [[e|p]|e] eqn:E.
  - split; [done|]. split; [exact B|]. by split.
  - split; [by exists p|]. split; [|by split]. intros p' [= <-]. by eapply read_qr_ok.
  - split; [exact A|]. split; [exact B|]. by split.
Qed.

(** Leaving for the scanner or the manual entry. *)
Lemma scan_ok_keep s s' : scan_ok s → sn_preview s' = sn_preview s ∨ sn_preview s' = None → sn_pushed s' = sn_pushed s →
  sn_screenState s' = SScanner ∨ sn_screenState s' = SManual → scan_ok s'.
Proof.
  intros (_ & B & _ & D) Hp Hr Hs. split; [intros E; rewrite E in Hs; by destruct Hs|]. split.
  - intros p Ep. destruct Hp as [Hp|Hp]; rewrite Hp in Ep; [by apply B|done].
  - split; [|by rewrite Hr]. intros [E|E]; rewrite E in Hs; by destruct Hs.
Qed.

Lemma scan_step_ok s e : scan_ok s → scan_ok (scan_step s e).
Proof.
  intros I. unfold scan_step.
  destruct (sn_screenState s) eqn:Es, e; try exact I; try (by apply handleQrData_ok);
    try (by (apply (scan_ok_keep s); [exact I|by (left + right)|reflexivity|(left + right); done])).
  - unfold handleManualSubmit. destruct (truthy _); [|exact I]. by apply handleQrData_ok.
  - unfold handleConfirmPayment. destruct (sn_preview s) as [p|] eqn:Ep; [|exact I].
    destruct I as (A & B & C & D). split; [by exists p|]. split; [intros q [= <-]; by apply B|].
    split; [intros _; apply C; by left|].
    cbn [sn_pushed]. intros r [Hr| ->%list_elem_of_singleton]%elem_of_app; [by apply D|]. exists p. split; [by apply B|done].
Qed.

(** whatever is scanned, typed and pressed, the payment screen always has a payment, whose
    destination is a Stellar or federated address and whose amount reads as a number that is not
    negative (or which is the placeholder of a transaction), and every route taken is the one of
    such a payment. *)
Theorem scanned_payments_sound es : scan_ok (scan_run es).
Proof.
  unfold scan_run. assert (I : scan_ok opened).
  { split; [done|]. split; [done|]. split; [by intros [|]|]. by intros r ?%elem_of_nil. }
  revert I. generalize opened. induction es as [|e es IH]; intros s I; [done|]. apply IH. by apply scan_step_ok.
Qed.

(** A query field that is written and read again. *)
Definition field_ok (o : option str) : Prop := from_option (λ v, well_paired v) True o.

(** the address a confirmed payment is handed on with reads back as exactly its destination,
    amount, asset and memo, whatever these texts hold: no value adds, drops or alters a parameter. *)
Theorem transfer_address_reads_back p s : sn_preview s = Some p → well_paired (pv_destination p) →
  field_ok (pv_amount p) → field_ok (pv_asset p) → field_ok (pv_memo p) →
  ∃ q, sn_pushed (handleConfirmPayment s) = sn_pushed s ++ [js "/transfer?" ++ q] ∧
    parse_params q = Some (transfer_params p) ∧
    search_get (js "destination") (transfer_params p) = Some (pv_destination p) ∧
    search_get (js "amount") (transfer_params p) = given (pv_amount p) ∧
    search_get (js "asset") (transfer_params p) = given (pv_asset p) ∧
    search_get (js "memo") (transfer_params p) = given (pv_memo p).
Proof.
  intros Ep Hd Ha Hs Hm. unfold handleConfirmPayment. rewrite Ep. eexists. split; [reflexivity|]. split.
  - apply parse_params_text.
    assert (F : ∀ k o, forallb is_ascii k = true → field_ok o → Forall (λ q : str * str, well_paired q.1 ∧ well_paired q.2) (set_param k o)).
    { intros k [v|] Hk Hv; cbn; [|done]. destruct (truthy v); [|done]. constructor; [|done]. split; [by apply well_paired_ascii|exact Hv]. }
    constructor; [split; [by apply well_paired_ascii|exact Hd]|]. rewrite !Forall_app. by split_and!; apply F.
  - destruct p as [d am ac mm msg od raw]. cbn [pv_destination pv_amount pv_asset pv_memo transfer_params].
    unfold given, set_param.
    destruct am as [[|? ?]|], ac as [[|? ?]|], mm as [[|? ?]|]; cbn [truthy truthy_opt app];
      split_and!; reflexivity.
Qed.

(** a payment link built from well-formed parameters, scanned and confirmed, hands on its
    destination, amount, asset code and memo as they were built. Its issuer, memo type, callback and
    network are not handed on. *)
Theorem link_to_transfer pp : pay_ok pp → well_paired (pp_destination pp) → ∃ uri q,
  buildSep0007PayUri pp = Some uri ∧
  sn_pushed (scan_run [EvCode uri; EvConfirm]) = [js "/transfer?" ++ q] ∧
  parse_params q = Some ((js "destination", pp_destination pp) :: set_param (js "amount") (pp_amount pp)
    ++ set_param (js "asset") (pp_asset_code pp) ++ set_param (js "memo") (pp_memo pp)).
Proof.
  intros Hp Hd. destruct (build_parses pp Hp) as (uri & Eb & Eq & Ec).
  exists uri, (params_to_string (transfer_params (preview_of_pay pp uri))). split; [done|]. split.
  - unfold scan_run. cbn [foldl scan_step sn_screenState opened]. unfold handleQrData. cbn [sn_scanned opened].
    unfold read_qr. by rewrite Ec, Eq.
  - apply parse_params_text. destruct Hp as [_ _ Ht]. unfold pay_entries in Ht. rewrite !Forall_cons in Ht. cbn [snd] in Ht.
    destruct Ht as (_ & H2 & H3 & _ & H5 & _).
    assert (F : ∀ k o, forallb is_ascii k = true → opt_ok o → Forall (λ q : str * str, well_paired q.1 ∧ well_paired q.2) (set_param k o)).
    { intros k [v|] Hk Hv; cbn; [|done]. destruct (truthy v); [|done]. destruct Hv as (_ & Hw & He).
      constructor; [|done]. split; [by apply well_paired_ascii|done]. }
    constructor; [split; [by apply well_paired_ascii|exact Hd]|]. rewrite !Forall_app. by split_and!; apply F.
Qed.

(** a code with a malformed escape freezes the scanner: no error and no payment is shown, no
    further code is read, and the manual entry it leads to ignores whatever is typed. *)
Theorem bad_code_freezes data e typed others : read_qr data = Throw e →
  let s := scan_run (EvCode data :: (EvCode <$> others)) in
  s = set_scanned true opened ∧
  let m := foldl scan_step s [EvManual; EvType typed; EvSubmit] in
  sn_screenState m = SManual ∧ sn_preview m = None ∧ sn_errorMsg m = [].
Proof.
  intros E s. assert (Es : s = set_scanned true opened).
  { unfold s, scan_run. cbn [foldl].
    assert (scan_step opened (EvCode data) = set_scanned true opened) as -> by (cbn [scan_step sn_screenState opened]; unfold handleQrData; by rewrite E).
    clear s. induction others as [|d others IH]; [done|]. exact IH. }
  split; [exact Es|]. rewrite Es.
  assert (Em : foldl scan_step (set_scanned true opened) [EvManual; EvType typed; EvSubmit] = type_address typed (open_manual (set_scanned true opened))).
  { cbn [foldl scan_step sn_screenState open_manual set_scanned opened type_address]. unfold handleManualSubmit. by destruct (truthy _). }
  rewrite Em. by split_and!.
Qed.

(** confirming the preview of a transaction hands on the placeholder as the destination to
    pay; nothing of the envelope goes with it. *)
Theorem transaction_code_pays_placeholder data q : detectQrContentType data = QrSep0007 → parseSep0007Uri data = Ok (ValidTx q) →
  sn_pushed (scan_run [EvCode data; EvConfirm]) = [js "/transfer?destination=XDR+Transaction"] ∧
  isValidStellarDestination tx_destination = false.
Proof.
  intros Ed Eq. split; [|reflexivity]. unfold scan_run. cbn [foldl scan_step sn_screenState opened]. unfold handleQrData. cbn [sn_scanned opened].
  unfold read_qr. by rewrite Ed, Eq.
Qed.
End Spec.

(** ** Runs *)

Module Runs.
#[local] Existing Instance Sep0007.Runs.no_urls.

Definition preview : PaymentPreview :=
  MkPreview Sep0007.Runs.dest (Some (js "5")) None (Some (js "a & b = c")) None None [].

Lemma transfer_address_reads_back_witness : ∃ q,
  sn_pushed (handleConfirmPayment (show_preview preview opened)) = [js "/transfer?" ++ q] ∧ parse_params q = Some (transfer_params preview).
Proof.
  destruct (transfer_address_reads_back preview (show_preview preview opened) eq_refl) as (q & E & P & _);
    [apply well_paired_ascii; reflexivity|apply well_paired_ascii; reflexivity|exact I|apply well_paired_ascii; reflexivity|].
  exists q. split; [exact E|exact P].
Defined.

Lemma link_to_transfer_witness : ∃ uri q, buildSep0007PayUri Sep0007.Runs.pay = Some uri ∧
  sn_pushed (scan_run [EvCode uri; EvConfirm]) = [js "/transfer?" ++ q].
Proof.
  destruct (link_to_transfer Sep0007.Runs.pay Sep0007.Runs.pay_is_ok) as (uri & q & E & P & _); [apply well_paired_ascii; reflexivity|].
  exists uri, q. split; [exact E|exact P].
Defined.

Lemma bad_code_freezes_witness :
  sn_screenState (scan_run [EvCode (js "web+stellar:pay?destination=%zz"); EvCode Sep0007.Runs.dest]) = SScanner.
Proof.
  assert (read_qr (js "web+stellar:pay?destination=%zz") = Throw uri_error) as E by (vm_compute; reflexivity).
  destruct (bad_code_freezes _ _ [] [Sep0007.Runs.dest] E) as [Es _]. cbn zeta in Es.
  exact (f_equal sn_screenState Es).
Defined.

Lemma transaction_code_pays_placeholder_witness :
  sn_pushed (scan_run [EvCode (js "web+stellar:tx?xdr=AAAA"); EvConfirm]) = [js "/transfer?destination=XDR+Transaction"].
Proof.
  apply (transaction_code_pays_placeholder _ (MkTx (js "AAAA") None None None None None None)); vm_compute; reflexivity.
Defined.
End Runs.
