(* ===== verification/WalletScreens.v ===== *)
(** * The wallet screens

    Model of [mobileapp/app/mnemonic-backup.tsx] (Modules Quiz and Backup: the phrase, its copy
    with the visible countdown, the three-word quiz) and [mobileapp/app/wallet-recovery.tsx]
    (Module Recovery: word fields, paste, restoration, recovery by social login), over the
    wallet service and the session of the API client.

    A screen's state is a record threaded beside the host; each handler is one function of it. *)

From S2P Require Import Prelude JsString JsNumber JsDate Json Effects Decode Scripts OfflineQueue TransactionService MobileApi WalletSecurity.

(** ** The quiz on the phrase *)

Module Quiz.
Section Shuffle.
Context `{Host W}.

(** [[out[i], out[j]] = [out[j], out[i]]] *)
Definition swap {A} (i j : nat) (out : list A) : list A :=
  match out !! i, out !! j with
  | Some x, Some y => <[j:=x]> (<[i:=y]> out)
  | _, _ => out
  end.

(** [Math.floor(Math.random() * n)] *)
Definition random_below (n : nat) : M W nat :=
  r ← math_random; mret (Z.to_nat (int_of (num_floor (num_mul r (Fin (Z.of_nat n) 0))))).

(** The loop from [i] down to 1. *)
Fixpoint shuffle_from {A} (i : nat) (out : list A) : M W (list A) :=
  match i with
  | 0 => mret out
  | S i' => j ← random_below (S i); shuffle_from i' (swap i j out)
  end.

Definition shuffle {A} (arr : list A) : M W (list A) := shuffle_from (length arr - 1) arr.

(** A position past the end reads [undefined]. *)
Definition word_at (words : list str) (position : nat) : option str := words !! (position - 1).

Definition quizWordOptions (words : list str) (position : nat) : M W (list (option str)) :=
  let correct := word_at words position in
  decoys ← shuffle (filter (λ w, Some w ≠ correct) words);
  shuffle (correct :: (Some <$> take 3 decoys)).
End Shuffle.

Section Spec.
Context `{HostLaws W}.
Implicit Types (w : W).

Lemma swap_perm {A} i j (l : list A) : swap i j l ≡ₚ l.
Proof.
  unfold swap. destruct (l !! i) as [x|] eqn:Ei, (l !! j) as [y|] eqn:Ej; [|done..].
  apply Permutation_insert_swap; done.
Qed.

Lemma swap_length {A} i j (l : list A) : length (swap i j l) = length l.
Proof. by rewrite swap_perm. Qed.

Lemma random_below_run n w : (0 < Z.of_nat n < 2 ^ 53)%Z → ∃ j w', random_below n w = (Ok j, w') ∧ kept w w' ∧ j < n.
Proof.
  intros Hn. destruct (random_spec w) as (r & w' & E & K & U). unfold random_below. rewrite (run_bind_ok _ _ _ _ _ E).
  destruct r as [| |m e]; [done..|]. destruct U as (He & Hm & Hp).
  destruct (random_index m e (Z.of_nat n) He Hm Hp Hn) as (j & Ej & Hj). rewrite Ej. cbn [int_of].
  eexists _, w'. split; [done|]. split; [done|]. cbn. rewrite Z.div_1_r. lia.
Qed.

Lemma shuffle_from_run {A} i : ∀ (l : list A) w, (Z.of_nat i < 2 ^ 53 - 1)%Z →
  ∃ out w', shuffle_from i l w = (Ok out, w') ∧ kept w w' ∧ out ≡ₚ l.
Proof.
  induction i as [|i IH]; intros l w Hi; [by exists l, w|]. cbn [shuffle_from].
  destruct (random_below_run (S (S i)) w) as (j & w1 & E & K & _); [lia|]. rewrite (run_bind_ok _ _ _ _ _ E).
  destruct (IH (swap (S i) j l) w1) as (out & w2 & E2 & K2 & P); [lia|].
  exists out, w2. split; [done|]. split; [by etrans|]. by rewrite P, swap_perm.
Qed.

Lemma shuffle_run {A} (l : list A) w : (Z.of_nat (length l) < 2 ^ 53)%Z →
  ∃ out w', shuffle l w = (Ok out, w') ∧ kept w w' ∧ out ≡ₚ l.
Proof. intros Hl. apply shuffle_from_run. lia. Qed.

Lemma quiz_options_run ws pos c w : word_at ws pos = Some c → (Z.of_nat (length ws) < 2 ^ 53 - 4)%Z →
  ∃ out decoys w', quizWordOptions ws pos w = (Ok out, w') ∧ kept w w' ∧
    out ≡ₚ Some c :: (Some <$> decoys) ∧ decoys ⊆+ filter (λ x, x ≠ c) ws ∧
    length decoys = length (filter (λ x, x ≠ c) ws) `min` 3.
Proof.
  intros Hc Hl. unfold quizWordOptions. rewrite Hc.
  assert (Ef : filter (λ x : str, Some x ≠ Some c) ws = filter (λ x, x ≠ c) ws) by (apply list_filter_iff; naive_solver).
  rewrite Ef. set (others := filter _ ws). assert (length others ≤ length ws) by apply length_filter.
  destruct (shuffle_run others w) as (sh & w1 & E1 & K1 & P1); [lia|]. rewrite (run_bind_ok _ _ _ _ _ E1).
  destruct (shuffle_run (Some c :: (Some <$> take 3 sh)) w1) as (out & w2 & E2 & K2 & P2).
  { cbn. rewrite length_fmap, length_take. lia. }
  exists out, (take 3 sh), w2. split; [done|]. split; [by etrans|]. split; [done|]. split.
  - rewrite <-P1. apply sublist_submseteq, sublist_take.
  - by rewrite length_take, P1, Nat.min_comm.
Qed.

(** the shuffle of the quiz only reorders: whatever the random source answers, it terminates
    with a permutation of its argument. The options of a position hold the right word exactly
    once; the rest are words of the phrase at other positions, as many as exist up to three. *)
Theorem quiz_options_sound ws pos c w : word_at ws pos = Some c → (Z.of_nat (length ws) < 2 ^ 53 - 4)%Z →
  ∃ out w', quizWordOptions ws pos w = (Ok out, w') ∧ kept w w' ∧
    length (filter (λ o, o = Some c) out) = 1 ∧
    (∀ o, o ∈ out → ∃ x, o = Some x ∧ x ∈ ws) ∧
    length out = 1 + length (filter (λ x, x ≠ c) ws) `min` 3.
Proof.
  intros Hc Hl. destruct (quiz_options_run ws pos c w Hc Hl) as (out & ds & w' & E & K & P & D & Ld).
  assert (Dn : ∀ x, x ∈ ds → x ≠ c ∧ x ∈ ws).
  { intros x Hx. by apply (elem_of_submseteq _ _ _ Hx), list_elem_of_filter in D. }
  exists out, w'. split; [done|]. split; [done|]. split_and!.
  - rewrite P, filter_cons_True by done. cbn [length]. f_equal. rewrite filter_Forall_nil; [done|].
    apply Forall_forall. intros o (x & -> & Hx)%list_elem_of_fmap [= ->]. by destruct (Dn c Hx).
  - intros o. rewrite P. intros [->|(x & -> & Hx)%list_elem_of_fmap]%elem_of_cons.
    + exists c. split; [done|]. by eapply list_elem_of_lookup_2.
    + exists x. split; [done|]. by apply Dn.
  - rewrite P. cbn. by rewrite length_fmap, Ld.
Qed.
End Spec.
End Quiz.

(** ** mnemonic-backup.tsx *)

Module Backup.
Import Quiz.

Definition QUIZ_POSITIONS : list nat := [3; 7; 11].

(** The copy button: [copied], [copyCountdown], [countdownRef] (a live interval),
    [cancelClipboardRef], and the pasteboard behind them. *)
Record copy_state := CopyState {
  cp_copied : bool;
  cp_countdown : option Z;
  cp_ticking : bool;
  cp_cancel : bool;
  cp_clip : Clipboard.clip_state;
}.

(** The quiz: [stage] is ["verify"], [answers], [quizOptions]; the routes taken and the alerts raised. *)
Record quiz_state := QuizState {
  qz_verify : bool;
  qz_answers : gmap nat (option str);
  qz_options : gmap nat (list (option str));
  qz_moves : list str;
  qz_alerts : nat;
}.

Record backup := MkBackup {
  bk_wallet : option GeneratedWallet;
  bk_loading : bool;
  bk_error : option str;
  bk_confirmed : bool;
  bk_copy : copy_state;
  bk_quiz : quiz_state;
}.

Definition opened (clip : Clipboard.clip_state) : backup :=
  MkBackup None true None false (CopyState false None false false clip) (QuizState false ∅ ∅ [] 0).

Definition set_wallet (g : GeneratedWallet) (s : backup) : backup :=
  MkBackup (Some g) (bk_loading s) (bk_error s) (bk_confirmed s) (bk_copy s) (bk_quiz s).
Definition set_error (e : str) (s : backup) : backup :=
  MkBackup (bk_wallet s) (bk_loading s) (Some e) (bk_confirmed s) (bk_copy s) (bk_quiz s).
Definition set_loading (b : bool) (s : backup) : backup :=
  MkBackup (bk_wallet s) b (bk_error s) (bk_confirmed s) (bk_copy s) (bk_quiz s).
Definition set_copy (c : copy_state) (s : backup) : backup :=
  MkBackup (bk_wallet s) (bk_loading s) (bk_error s) (bk_confirmed s) c (bk_quiz s).
Definition set_quiz (q : quiz_state) (s : backup) : backup :=
  MkBackup (bk_wallet s) (bk_loading s) (bk_error s) (bk_confirmed s) (bk_copy s) q.

(** The checkbox. *)
Definition toggle_confirmed (s : backup) : backup :=
  MkBackup (bk_wallet s) (bk_loading s) (bk_error s) (negb (bk_confirmed s)) (bk_copy s) (bk_quiz s).

(** [wallet?.mnemonic.split(" ")] *)
Definition phrase_words (s : backup) : list str :=
  match bk_wallet s with Some g => split_on 32 (gw_mnemonic g) | None => [] end.

(** *** Copying *)

(** [cancelClipboardRef.current?.()] *)
Definition cancel_clip (c : copy_state) : Clipboard.clip_state :=
  if cp_cancel c then Clipboard.clearClipboard (cp_clip c) else cp_clip c.

Definition handleCopy (s : backup) : backup :=
  match bk_wallet s with
  | None => s
  | Some g =>
      set_copy (CopyState true (Some 30%Z) true true
                  (Clipboard.copyWithAutoClear (gw_mnemonic g) (cancel_clip (bk_copy s)))) s
  end.

(** The interval's callback. *)
Definition countdown_tick (c : copy_state) : copy_state :=
  if cp_ticking c then
    match cp_countdown c with
    | Some prev =>
        if (prev <=? 1)%Z then CopyState false None false (cp_cancel c) (cp_clip c)
        else CopyState (cp_copied c) (Some (prev - 1)%Z) true (cp_cancel c) (cp_clip c)
    | None => CopyState false None false (cp_cancel c) (cp_clip c)
    end
  else c.

(** A second passes: the clipboard's timer runs and the interval fires. *)
Definition second (s : backup) : backup :=
  let c := bk_copy s in
  set_copy (countdown_tick (CopyState (cp_copied c) (cp_countdown c) (cp_ticking c) (cp_cancel c)
                              (Clipboard.pass 1000 (cp_clip c)))) s.

(** The clean-up on unmount. *)
Definition unmount (s : backup) : backup :=
  let c := bk_copy s in
  set_copy (CopyState (cp_copied c) (cp_countdown c) false (cp_cancel c) (cancel_clip c)) s.

(** *** Continuing to the quiz *)

(** [handleContinue] up to its [await clearClipboard()] *)
Definition continue_clear (s : backup) : backup :=
  let c := bk_copy s in
  set_copy (CopyState (cp_copied c) (cp_countdown c) (cp_ticking c) (cp_cancel c) (Clipboard.clearClipboard (cp_clip c))) s.

(** Its state updates of the copy button after the [await]. *)
Definition continue_copy (s : backup) : backup :=
  let c := bk_copy s in set_copy (CopyState false (cp_countdown c) false false (cp_clip c)) s.

(** [setQuizOptions(options); setAnswers({}); setStage("verify")] *)
Definition show_quiz (options : gmap nat (list (option str))) (s : backup) : backup :=
  set_quiz (QuizState true ∅ options (qz_moves (bk_quiz s)) (qz_alerts (bk_quiz s))) s.

(** *** Answering *)

Definition checkAnswers (words : list str) (a : gmap nat (option str)) : bool :=
  forallb (λ pos, bool_decide (mjoin (a !! pos) = word_at words pos)) QUIZ_POSITIONS.

Definition handleSelect (pos : nat) (word : option str) (s : backup) : backup :=
  let q := bk_quiz s in
  let next := <[pos := word]> (qz_answers q) in
  if checkAnswers (phrase_words s) next then
    set_quiz (QuizState (qz_verify q) next (qz_options q) (qz_moves q ++ [js "/account-type"]) (qz_alerts q)) s
  else
    set_quiz (QuizState (qz_verify q) next (qz_options q) (qz_moves q)
                (if (size next =? length QUIZ_POSITIONS)%nat then S (qz_alerts q) else qz_alerts q)) s.

Section Effects.
Context `{UC : UnicodeCase, Host W, WL : !WalletLibs W}.

(** The effect on mount. *)
Definition generate : M (backup * W) unit :=
  try_catch (generated ← host (createNewWallet 24); modify_state (set_wallet generated))
    (λ err, modify_state (set_error (err_message err)));;
  modify_state (set_loading false).

Definition quiz_options (words : list str) : M W (gmap nat (list (option str))) :=
  for_each (λ (options : gmap nat (list (option str))) pos,
      o ← quizWordOptions words pos; mret (<[pos := o]> options)) ∅ QUIZ_POSITIONS.

(** [handleContinue] after the [await], for the wallet it closed over. *)
Definition continue_rest (g : GeneratedWallet) : M (backup * W) unit :=
  modify_state continue_copy;;
  options ← host (quiz_options (split_on 32 (gw_mnemonic g)));
  modify_state (show_quiz options).

Definition handleContinue : M (backup * W) unit :=
  s ← get_state;
  match bk_wallet s with
  | Some g => if bk_confirmed s then modify_state continue_clear;; continue_rest g else mret tt
  | None => mret tt
  end.
End Effects.

(** *** The clipboard *)

Inductive copy_event := ECopy | ESecond | EConfirm | EContinue | ESelect (pos : nat) (word : option str).

(** The events as far as the copy button sees them. *)
Definition copy_step (s : backup) (e : copy_event) : backup :=
  match e with
  | ECopy => handleCopy s
  | ESecond => second s
  | EConfirm => toggle_confirmed s
  | EContinue => match bk_wallet s with
                 | Some _ => if bk_confirmed s then continue_copy (continue_clear s) else s
                 | None => s
                 end
  | ESelect pos word => handleSelect pos word s
  end.

(** While "Copied" is shown with [n] seconds, the pasteboard is cleared in exactly [n] seconds
    and leaving cancels it; otherwise nothing is left on it. *)
Definition copy_ok (s : backup) : Prop :=
  let c := bk_copy s in
  if cp_copied c then
    cp_ticking c = true ∧ cp_cancel c = true ∧ ∃ n, cp_countdown c = Some n ∧ (1 <= n <= 30)%Z ∧
      Clipboard.clear_at (cp_clip c) = Some (Clipboard.clock (cp_clip c) + 1000 * n)%Z
  else cp_ticking c = false ∧ Clipboard.pasteboard (cp_clip c) = [] ∧ Clipboard.clear_at (cp_clip c) = None.

Lemma handleSelect_copy pos word s : bk_copy (handleSelect pos word s) = bk_copy s.
Proof. unfold handleSelect. by destruct (checkAnswers _ _). Qed.

Lemma second_ok s : copy_ok s → copy_ok (second s).
Proof.
  unfold copy_ok, second. destruct (bk_copy s) as [[] cd tk ca clip]; cbn [bk_copy set_copy cp_copied].
  - intros (-> & -> & n & -> & Hn & Hc). cbn [cp_ticking cp_countdown cp_cancel cp_clip] in *.
    unfold countdown_tick. cbn [cp_ticking cp_countdown cp_copied cp_cancel cp_clip]. unfold Clipboard.pass. rewrite Hc.
    destruct (Z.leb_spec n 1) as [H1|H1].
    + cbn [cp_copied cp_ticking cp_clip]. rewrite (proj2 (Z.leb_le _ _)) by lia. done.
    + cbn [cp_copied cp_ticking cp_clip cp_cancel cp_countdown]. rewrite (proj2 (Z.leb_gt _ _)) by lia.
      split; [done|]. split; [done|]. eexists. split; [done|]. split; [lia|]. cbn. f_equal. lia.
  - intros (-> & Hp & Hc). cbn in Hp, Hc. unfold countdown_tick. cbn. unfold Clipboard.pass. by rewrite Hc.
Qed.

Lemma copy_step_ok s e : copy_ok s → copy_ok (copy_step s e).
Proof.
  intros I. destruct e as [| | | |pos word]; cbn [copy_step].
  - unfold handleCopy. destruct (bk_wallet s); [|done]. cbn. split; [done|]. split; [done|].
    exists 30%Z. split; [done|]. split; [lia|]. by unfold cancel_clip; destruct (cp_cancel _).
  - by apply second_ok.
  - exact I.
  - destruct (bk_wallet s); [|done]. by destruct (bk_confirmed s).
  - unfold copy_ok. by rewrite handleSelect_copy.
Qed.

Lemma copy_reachable s es : copy_ok s → copy_ok (foldl copy_step s es).
Proof. revert s. induction es as [|e es IH]; intros s I; [done|]. apply IH. by apply copy_step_ok. Qed.

(** after any sequence of copies, seconds, confirmations, continuations and answers, the
    phrase is on the clipboard only while "Copied — clears in n s" is shown, and then it is
    removed in exactly the [n] seconds shown; leaving the screen at any moment removes it. *)
Theorem phrase_copied_visibly es now :
  let s := foldl copy_step (opened (Clipboard.ClipState now [] None)) es in
  (Clipboard.pasteboard (cp_clip (bk_copy s)) ≠ [] → cp_copied (bk_copy s) = true ∧ ∃ n, cp_countdown (bk_copy s) = Some n ∧
     (1 <= n <= 30)%Z ∧ Clipboard.pasteboard (Clipboard.pass (1000 * n) (cp_clip (bk_copy s))) = []) ∧
  Clipboard.pasteboard (cp_clip (bk_copy (unmount s))) = [].
Proof.
  intros s. assert (I : copy_ok s) by by apply copy_reachable. revert I. unfold copy_ok, unmount, cancel_clip.
  destruct (bk_copy s) as [[] cd tk ca clip]; cbn.
  - intros (-> & -> & n & -> & Hn & Hc). split; [|done]. intros _. split; [done|]. exists n. split; [done|]. split; [done|].
    unfold Clipboard.pass. rewrite Hc. by rewrite (proj2 (Z.leb_le _ _)) by lia.
  - intros (-> & Hp & Hc). rewrite Hp. split; [done|]. by destruct ca.
Qed.

(** a copy made while [handleContinue] awaits the clearing of the clipboard is not undone
    by it: the phrase is on the clipboard, no countdown is shown, and leaving the screen does not
    clear it. Only the service's own timer does, thirty seconds after the copy. *)
Theorem copy_during_continue s g : bk_wallet s = Some g →
  let s' := continue_copy (handleCopy (continue_clear s)) in
  Clipboard.pasteboard (cp_clip (bk_copy s')) = gw_mnemonic g ∧ cp_copied (bk_copy s') = false ∧
  Clipboard.pasteboard (cp_clip (bk_copy (unmount s'))) = gw_mnemonic g ∧
  Clipboard.pasteboard (Clipboard.pass Clipboard.CLIPBOARD_CLEAR_DELAY_MS (cp_clip (bk_copy (unmount s')))) = [].
Proof.
  intros Ew s'. assert (Eh : handleCopy (continue_clear s) = set_copy (CopyState true (Some 30%Z) true true
      (Clipboard.copyWithAutoClear (gw_mnemonic g) (cancel_clip (bk_copy (continue_clear s))))) (continue_clear s)).
  { unfold handleCopy. cbn [bk_wallet continue_clear set_copy]. by rewrite Ew. }
  unfold s'. rewrite Eh. cbn. split_and!; try done. unfold Clipboard.pass. cbn.
  by rewrite (proj2 (Z.leb_le _ _)) by (unfold Clipboard.CLIPBOARD_CLEAR_DELAY_MS; lia).
Qed.

(** *** The gate *)

Lemma checkAnswers_spec ws a :
  checkAnswers ws a = true ↔ ∀ pos, pos ∈ QUIZ_POSITIONS → mjoin (a !! pos) = word_at ws pos.
Proof.
  unfold checkAnswers. rewrite forallb_forall. setoid_rewrite bool_decide_eq_true. unfold QUIZ_POSITIONS.
  split; intros H pos Hp; apply H; by apply list_elem_of_In.
Qed.

Lemma handleSelect_answers pos word s : qz_answers (bk_quiz (handleSelect pos word s)) = <[pos := word]> (qz_answers (bk_quiz s)).
Proof. unfold handleSelect. by destruct (checkAnswers _ _). Qed.

Lemma handleSelect_words pos word s : phrase_words (handleSelect pos word s) = phrase_words s.
Proof. unfold handleSelect, phrase_words. by destruct (checkAnswers _ _). Qed.

(** a selection opens the wallet exactly when, with it, the answers at positions 3, 7 and
    11 are all the words of the phrase there, whatever was answered before. With three answers and
    one of them wrong it raises the alert and keeps the answers; it never does both. *)
Theorem select_unlocks pos word s :
  let s' := handleSelect pos word s in
  let a := <[pos := word]> (qz_answers (bk_quiz s)) in
  qz_answers (bk_quiz s') = a ∧ bk_wallet s' = bk_wallet s ∧
  ((∀ p, p ∈ QUIZ_POSITIONS → mjoin (a !! p) = word_at (phrase_words s) p) →
     qz_moves (bk_quiz s') = qz_moves (bk_quiz s) ++ [js "/account-type"] ∧ qz_alerts (bk_quiz s') = qz_alerts (bk_quiz s)) ∧
  ((∃ p, p ∈ QUIZ_POSITIONS ∧ mjoin (a !! p) ≠ word_at (phrase_words s) p) →
     qz_moves (bk_quiz s') = qz_moves (bk_quiz s) ∧
     qz_alerts (bk_quiz s') = qz_alerts (bk_quiz s) + (if decide (size a = 3) then 1 else 0)).
Proof.
  intros s' a. unfold s', handleSelect. fold a. pose proof (checkAnswers_spec (phrase_words s) a) as C.
  destruct (checkAnswers (phrase_words s) a); (split; [done|]); (split; [done|]); split.
  - done.
  - intros (p & Hp & Hn). by destruct Hn; apply C.
  - intros Ha. exfalso. by apply C in Ha.
  - intros _. cbn [bk_quiz set_quiz qz_moves qz_alerts]. split; [done|]. cbn [length QUIZ_POSITIONS].
    case_decide as Hd; destruct (Nat.eqb_spec (size a) 3); lia.
Qed.

(** no wrong answer locks the quiz: from any answers, selecting the three right words, in
    any order, leaves by ["/account-type"]. *)
Theorem quiz_always_passable s (order : list nat) : order ≡ₚ QUIZ_POSITIONS →
  ∃ r, qz_moves (bk_quiz (foldl (λ s pos, handleSelect pos (word_at (phrase_words s) pos) s) s order)) = r ++ [js "/account-type"].
Proof.
  destruct order as [|q l _] using rev_ind; [intros Ho; by apply Permutation_nil_l in Ho|]. intros Ho.
  set (f := λ s pos, handleSelect pos (word_at (phrase_words s) pos) s).
  assert (G : ∀ l t, phrase_words (foldl f t l) = phrase_words t ∧
    ∀ p, p ∈ l → mjoin (qz_answers (bk_quiz (foldl f t l)) !! p) = word_at (phrase_words t) p).
  { intros k. induction k as [|p k IH] using rev_ind; intros t; [by split; [|intros ? ?%elem_of_nil]|].
    rewrite foldl_app. cbn [foldl]. destruct (IH t) as [E1 E2]. unfold f at 1 3. rewrite handleSelect_words. split; [done|].
    rewrite handleSelect_answers, E1. intros p' Hp'. destruct (decide (p' = p)) as [->|Hn]; [by rewrite lookup_insert_eq|].
    rewrite lookup_insert_ne by done. apply E2. set_solver. }
  destruct (G (l ++ [q]) s) as [_ A]. rewrite foldl_app in *. cbn [foldl] in *. set (t := foldl f s l) in *.
  exists (qz_moves (bk_quiz t)). unfold f in A |- *. rewrite handleSelect_answers in A. unfold handleSelect.
  rewrite (proj2 (checkAnswers_spec _ _)); [done|]. intros pos Hp. rewrite (A pos) by (by rewrite Ho).
  assert (phrase_words t = phrase_words s) as -> by apply G. done.
Qed.

(** *** Generation and the way to the quiz *)

Section Flow.
Context `{WalletLaws W}.
Implicit Types (w : W).

(** opening the backup screen stores the new wallet at once, before any word is confirmed,
    and over whatever wallet the store held: the old phrase is not recoverable from it. If storing
    throws, its message is shown and no phrase is. *)
Theorem opening_replaces_wallet clip w :
  (st_live w → ∃ m kp w', generate (opened clip, w) =
       (Ok tt, (set_loading false (set_wallet (MkGenerated m [MkAccount 0 (kp_publicKey kp)]) (opened clip)), w')) ∧
     wallet_at w' m 1 ∧ deriveKeypairFromMnemonic m 0 = Ok kp ∧
     (∀ m0 n, wallet_at w m0 n → m0 ≠ m → ∀ n', ¬ wallet_at w' m0 n')) ∧
  (∀ e w', createNewWallet 24 w = (Throw e, w') →
     generate (opened clip, w) = (Ok tt, (set_loading false (set_error (err_message e) (opened clip)), w'))).
Proof.
  unfold generate, try_catch. split.
  - intros L. destruct (createNewWallet_run 24 w L) as (m & kp & w' & E & _ & _ & _ & Ekp & I & _).
    exists m, kp, w'. rewrite run_bind, (run_bind_ok _ _ _ _ _ (run_host _ _ _ _ _ E)), run_modify_state.
    split; [done|]. split; [done|]. split; [done|]. intros m0 n _ Hm n' I'.
    pose proof (wl_mnemonic _ _ _ I). pose proof (wl_mnemonic _ _ _ I'). congruence.
  - intros e w' E. by rewrite run_bind, (run_bind_throw _ _ _ _ _ (run_host _ _ _ _ _ E)), run_modify_state.
Qed.

(** The options of every listed position. *)
Lemma quiz_options_all ws ps : (∀ p, p ∈ ps → is_Some (word_at ws p)) → (Z.of_nat (length ws) < 2 ^ 53 - 4)%Z →
  ∀ acc w, ∃ (options : gmap nat (list (option str))) w', for_each (λ (options : gmap nat (list (option str))) pos,
      o ← quizWordOptions ws pos; mret (<[pos := o]> options)) acc ps w = (Ok options, w') ∧ kept w w' ∧
    (∀ p, p ∉ ps → options !! p = acc !! p) ∧
    (∀ p, p ∈ ps → ∃ out, options !! p = Some out ∧ word_at ws p ∈ out ∧ (∀ o, o ∈ out → ∃ x, o = Some x ∧ x ∈ ws)).
Proof.
  induction ps as [|p ps IH]; intros Hp Hl acc w.
  { exists acc, w. split_and!; [done|done|done|]. by intros p ?%elem_of_nil. }
  destruct (Hp p) as [c Ec]; [by left|]. destruct (quiz_options_run ws p c w Ec Hl) as (out & ds & w1 & E & K & P & D & _).
  cbn [for_each]. rewrite run_bind, (run_bind_ok _ _ _ _ _ E), run_ret.
  destruct (IH (λ q Hq, Hp q ltac:(by right)) Hl (<[p := out]> acc) w1) as (options & w2 & E2 & K2 & N2 & A2).
  exists options, w2. split; [done|]. split; [by etrans|]. split.
  - intros q [Hq1 Hq2]%not_elem_of_cons. rewrite N2 by done. by rewrite lookup_insert_ne.
  - intros q Hq. destruct (decide (q ∈ ps)) as [Hin|Hin]; [by apply A2|].
    apply elem_of_cons in Hq as [->|]; [|done]. exists out. rewrite N2, lookup_insert_eq by done. split; [done|].
    rewrite Ec. setoid_rewrite P. split; [by left|]. intros o [->|(x & -> & Hx)%list_elem_of_fmap]%elem_of_cons.
    + exists c. split; [done|]. by eapply list_elem_of_lookup_2.
    + exists x. split; [done|]. by apply (elem_of_submseteq _ _ _ Hx), list_elem_of_filter in D as [_ D].
Qed.

(** continuing does nothing without the checkbox. With it, a phrase of at least eleven words
    leads to the quiz with a clean clipboard and no answers; each of the positions 3, 7 and 11 offers
    its right word, and only words of the phrase. *)
Theorem continue_shows_quiz s w g : bk_wallet s = Some g → let ws := split_on 32 (gw_mnemonic g) in
  (bk_confirmed s = false → handleContinue (s, w) = (Ok tt, (s, w))) ∧
  (bk_confirmed s = true → 11 ≤ length ws → (Z.of_nat (length ws) < 2 ^ 53 - 4)%Z →
   ∃ s' w', handleContinue (s, w) = (Ok tt, (s', w')) ∧ kept w w' ∧ bk_wallet s' = Some g ∧
     qz_verify (bk_quiz s') = true ∧ qz_answers (bk_quiz s') = ∅ ∧ qz_moves (bk_quiz s') = qz_moves (bk_quiz s) ∧
     Clipboard.pasteboard (cp_clip (bk_copy s')) = [] ∧ cp_copied (bk_copy s') = false ∧
     ∀ p, p ∈ QUIZ_POSITIONS → ∃ out, qz_options (bk_quiz s') !! p = Some out ∧ word_at ws p ∈ out ∧
       ∀ o, o ∈ out → ∃ x, o = Some x ∧ x ∈ ws).
Proof.
  intros Eg ws. unfold handleContinue. rewrite !(run_bind_ok _ _ _ _ _ (run_get_state s w)), Eg. split; [by intros ->|].
  intros -> Hlen Hl. destruct (quiz_options_all ws QUIZ_POSITIONS) with (acc := ∅ : gmap nat (list (option str))) (w := w)
    as (options & w' & E & K & _ & A); [|done|].
  { intros p Hp. apply lookup_lt_is_Some. assert (p ≤ 11) by (revert Hp; unfold QUIZ_POSITIONS; rewrite !elem_of_cons, elem_of_nil; lia). fold ws. lia. }
  unfold continue_rest. rewrite (run_bind_ok _ _ _ _ _ (run_modify_state _ _ _)), (run_bind_ok _ _ _ _ _ (run_modify_state _ _ _)).
  rewrite (run_bind_ok _ _ _ _ _ (run_host _ _ _ _ _ E)), run_modify_state. eexists _, w'. by split_and!.
Qed.
End Flow.
End Backup.

(** ** wallet-recovery.tsx *)

Module Recovery.

(** [bip39.wordlists.english] *)
Class WordList := english : list str.

Record recovery := MkRecovery {
  rv_wordCount : nat;
  rv_words : list str;
  rv_invalidIndices : gset nat;
  rv_pasteMode : bool;
  rv_pasteText : str;
  rv_loading : bool;
  rv_validationError : option str;
  rv_socialLoading : bool;
  rv_socialError : option str;
  rv_alert : option str;         (** the "Account Recovered" alert *)
  rv_moves : list str;
}.

Definition blank (n : nat) : list str := replicate n [].

Definition opened : recovery := MkRecovery 24 (blank 24) ∅ false [] false None false None None [].

Definition set_words (ws : list str) (s : recovery) : recovery :=
  MkRecovery (rv_wordCount s) ws (rv_invalidIndices s) (rv_pasteMode s) (rv_pasteText s) (rv_loading s)
    (rv_validationError s) (rv_socialLoading s) (rv_socialError s) (rv_alert s) (rv_moves s).
Definition set_invalid (i : gset nat) (s : recovery) : recovery :=
  MkRecovery (rv_wordCount s) (rv_words s) i (rv_pasteMode s) (rv_pasteText s) (rv_loading s)
    (rv_validationError s) (rv_socialLoading s) (rv_socialError s) (rv_alert s) (rv_moves s).
Definition set_paste (mode : bool) (text : str) (s : recovery) : recovery :=
  MkRecovery (rv_wordCount s) (rv_words s) (rv_invalidIndices s) mode text (rv_loading s)
    (rv_validationError s) (rv_socialLoading s) (rv_socialError s) (rv_alert s) (rv_moves s).
Definition set_error (e : option str) (s : recovery) : recovery :=
  MkRecovery (rv_wordCount s) (rv_words s) (rv_invalidIndices s) (rv_pasteMode s) (rv_pasteText s) (rv_loading s)
    e (rv_socialLoading s) (rv_socialError s) (rv_alert s) (rv_moves s).
Definition set_loading (b : bool) (s : recovery) : recovery :=
  MkRecovery (rv_wordCount s) (rv_words s) (rv_invalidIndices s) (rv_pasteMode s) (rv_pasteText s) b
    (rv_validationError s) (rv_socialLoading s) (rv_socialError s) (rv_alert s) (rv_moves s).
Definition set_social (b : bool) (e : option str) (s : recovery) : recovery :=
  MkRecovery (rv_wordCount s) (rv_words s) (rv_invalidIndices s) (rv_pasteMode s) (rv_pasteText s) (rv_loading s)
    (rv_validationError s) b e (rv_alert s) (rv_moves s).
Definition set_alert (a : str) (s : recovery) : recovery :=
  MkRecovery (rv_wordCount s) (rv_words s) (rv_invalidIndices s) (rv_pasteMode s) (rv_pasteText s) (rv_loading s)
    (rv_validationError s) (rv_socialLoading s) (rv_socialError s) (Some a) (rv_moves s).
Definition replace_route (r : str) (s : recovery) : recovery :=
  MkRecovery (rv_wordCount s) (rv_words s) (rv_invalidIndices s) (rv_pasteMode s) (rv_pasteText s) (rv_loading s)
    (rv_validationError s) (rv_socialLoading s) (rv_socialError s) (rv_alert s) (rv_moves s ++ [r]).

(** *** Entering the phrase *)

Definition handleWordCountChange (count : nat) (s : recovery) : recovery :=
  MkRecovery count (blank count) ∅ (rv_pasteMode s) [] (rv_loading s)
    None (rv_socialLoading s) (rv_socialError s) (rv_alert s) (rv_moves s).

(** [index] is that of a field shown. *)
Definition handleWordChange (index : nat) (text : str) (s : recovery) : recovery :=
  set_error None (set_invalid (rv_invalidIndices s ∖ {[index]}) (set_words (<[index := text]> (rv_words s)) s)).

Section Entry.
Context `{UC : UnicodeCase}.

(** A field's [onChangeText]. *)
Definition type_word (index : nat) (t : str) (s : recovery) : recovery :=
  handleWordChange index (trim (to_lower t)) s.

(** [s.split(/\s+/)] *)
Definition split_ws (s : str) : list str := split_on 32 (collapse_ws false s).

Definition parsed_words (pasteText : str) : list str := filter (λ w, truthy w = true) (split_ws (to_lower (trim pasteText))).

Definition count_error (wordCount got : nat) : str :=
  js "Expected " ++ Z_to_str (Z.of_nat wordCount) ++ js " words but got " ++ Z_to_str (Z.of_nat got)
    ++ js ". Please check your phrase.".

Definition handlePasteApply (s : recovery) : recovery :=
  let parsed := parsed_words (rv_pasteText s) in
  if negb (length parsed =? rv_wordCount s)%nat then set_error (Some (count_error (rv_wordCount s) (length parsed))) s
  else set_paste false [] (set_error None (set_invalid ∅ (set_words parsed s))).

(** The toggle and the text area. *)
Definition toggle_paste (s : recovery) : recovery := set_error None (set_paste (negb (rv_pasteMode s)) (rv_pasteText s) s).
Definition type_paste (t : str) (s : recovery) : recovery := set_error None (set_paste (rv_pasteMode s) t s).

(** [w.trim() === ""] *)
Definition is_blank (w : str) : bool := negb (truthy (trim w)).

Definition activeWords (s : recovery) : list str := take (rv_wordCount s) (rv_words s).
Definition filledCount (s : recovery) : nat := length (filter (λ w, is_blank w = false) (activeWords s)).
Definition allFilled (s : recovery) : bool := (filledCount s =? rv_wordCount s)%nat.

(** The indices a predicate holds at. *)
Definition indices (p : str → bool) (ws : list str) : list nat :=
  omap id (imap (λ i w, if p w then Some i else None) ws).

(** *** Restoring *)

Definition fill_error (wordCount : nat) : str :=
  js "Please fill in all " ++ Z_to_str (Z.of_nat wordCount) ++ js " words before continuing.".

Context `{WordList}.

Definition not_bip39 (w : str) : bool := negb (bool_decide (to_lower (trim w) ∈ english)).

Definition phrase_error (bad : nat) : str :=
  if (0 <? bad)%nat then Z_to_str (Z.of_nat bad) ++ js " word(s) are not valid BIP39 words. Check the highlighted fields."
  else js "Invalid recovery phrase. Please check the word order and try again.".

Context `{Host W, WL : !WalletLibs W}.

Definition handleRecover : M (recovery * W) unit :=
  s ← get_state;
  modify_state (set_error None);;
  let activeWords := activeWords s in
  let emptyIndices := indices is_blank activeWords in
  if (0 <? length emptyIndices)%nat then
    modify_state (λ s', set_error (Some (fill_error (rv_wordCount s))) (set_invalid (list_to_set emptyIndices) s'))
  else
    let phrase := join (js " ") activeWords in
    if negb (validateMnemonic (W := W) phrase) then
      let bad : gset nat := list_to_set (indices not_bip39 activeWords) in
      modify_state (λ s', set_error (Some (phrase_error (size bad))) (set_invalid bad s'))
    else
      modify_state (set_loading true);;
      try_catch
        (host (restoreWalletFromMnemonic phrase);;
         modify_state (set_words (blank (rv_wordCount s)));;
         modify_state (replace_route (js "/account-type")))
        (λ err, modify_state (set_error (Some (err_message err))));;
      modify_state (set_loading false).

(** *** Recovery by social login *)

Context `{ApiEnv}.

Definition no_session : str := js "No social session found. Please sign in with a supported provider first.".

Definition recovered_alert (username : str) : str :=
  js "Your Zaps account @" ++ username ++ js " has been linked to a new wallet.".

Definition set_social_error (e : option str) (s : recovery) : recovery := set_social (rv_socialLoading s) e s.
Definition set_social_loading (b : bool) (s : recovery) : recovery := set_social b (rv_socialError s) s.

Definition handleSocialRecover : M (recovery * (api_state * W)) unit :=
  modify_state (set_social true None);;
  try_catch
    (token ← host (host getSessionToken);
     match token with
     | Some t =>
         if truthy t then
           result ← host (recoverWalletViaPrivy t);
           mnemonic ← host (host (generateMnemonic 24));
           host (host (restoreWalletFromMnemonic mnemonic));;
           modify_state (set_words (blank 24));;
           modify_state (λ s, set_paste (rv_pasteMode s) [] s);;
           modify_state (set_alert (recovered_alert (pr_username result)))
         else modify_state (set_social false (Some no_session))
     | None => modify_state (set_social false (Some no_session))
     end)
    (λ err, modify_state (set_social_error (Some (err_message err))));;
  modify_state (set_social_loading false).

(** The alert's "Continue". *)
Definition alert_continue : recovery → recovery := replace_route (js "/account-type").
End Entry.

(** *** The fields cover the phrase *)

(** As many fields as words are expected, or more (social recovery resets to 24). *)
Definition fields_ok (s : recovery) : Prop :=
  (rv_wordCount s = 12 ∨ rv_wordCount s = 24) ∧ rv_wordCount s ≤ length (rv_words s).

Definition keeps_fields (s s' : recovery) : Prop := fields_ok s → fields_ok s'.

#[export] Instance keeps_fields_preorder : PreOrder keeps_fields.
Proof. split; [by intros s I|]. intros s1 s2 s3 H1 H2 I. by apply H2, H1. Qed.

Inductive entry_event :=
  | ECount (count : nat) | EWord (index : nat) (t : str) | EPaste (t : str) | EToggle | EApply.

Section Entries.
Context `{UC : UnicodeCase}.

Definition entry_step (s : recovery) (e : entry_event) : recovery :=
  match e with
  | ECount n => if bool_decide (n = 12 ∨ n = 24) then handleWordCountChange n s else s
  | EWord i t => type_word i t s
  | EPaste t => type_paste t s
  | EToggle => toggle_paste s
  | EApply => handlePasteApply s
  end.

Lemma entry_step_ok s e : keeps_fields s (entry_step s e).
Proof.
  intros [C L]. destruct e as [n|i t|t| |]; cbn [entry_step]; [| | | |].
  - case_bool_decide as Hn; [|by split]. split; [exact Hn|]. cbn. unfold blank. by rewrite length_replicate.
  - split; [exact C|]. cbn. by rewrite length_insert.
  - by split.
  - by split.
  - unfold handlePasteApply. destruct (Nat.eqb_spec (length (parsed_words (rv_pasteText s))) (rv_wordCount s)) as [E|E]; [|by split].
    split; [exact C|]. cbn. lia.
Qed.

(** A count is met exactly when none is left out. *)
Lemma filter_full (l : list str) (P : str → Prop) `{∀ x, Decision (P x)} : length (filter P l) = length l ↔ Forall P l.
Proof.
  induction l as [|x l IH]; [done|]. rewrite filter_cons, Forall_cons. pose proof (length_filter P l).
  destruct (decide (P x)); cbn; [|naive_solver lia]. rewrite <-IH. split; [intros; split; [done|lia]|intros []; lia].
Qed.

Lemma elem_of_quiz_indices p ws i : i ∈ indices p ws ↔ ∃ w, ws !! i = Some w ∧ p w = true.
Proof.
  unfold indices. rewrite list_elem_of_omap. split.
  - intros (o & Ho & Eo). apply elem_of_lookup_imap in Ho as (j & w & -> & Hj). cbn in Eo.
    destruct (p w) eqn:Ep; [|done]. injection Eo as ->. eauto.
  - intros (w & Hw & Ep). exists (Some i). split; [|done]. apply elem_of_lookup_imap. exists i, w. by rewrite Ep.
Qed.

Lemma indices_nil p ws : indices p ws = [] ↔ Forall (λ w, p w = false) ws.
Proof.
  rewrite Forall_lookup. split.
  - intros E i w Hw. destruct (p w) eqn:Ep; [|done].
    assert (i ∈ indices p ws) as Hi by (apply elem_of_quiz_indices; eauto). rewrite E in Hi. by apply elem_of_nil in Hi.
  - intros F. destruct (indices p ws) as [|i l] eqn:E; [done|].
    assert (i ∈ indices p ws) as Hi by (rewrite E; left). apply elem_of_quiz_indices in Hi as (w & Hw & Ep).
    by rewrite (F i w Hw) in Ep.
Qed.

Lemma allFilled_spec s : fields_ok s → allFilled s = true ↔ Forall (λ w, is_blank w = false) (activeWords s).
Proof.
  intros [_ L]. unfold allFilled, filledCount. rewrite Nat.eqb_eq, <-filter_full. unfold activeWords at 3.
  rewrite length_take, Nat.min_l by done. done.
Qed.
End Entries.

(** *** Normal phrases *)

(** A word of lower-case letters, as the English list has them. *)
Definition plain_word (w : str) : Prop := w ≠ [] ∧ Forall (λ c, is_lower c = true) w.

Lemma lower_plain c : is_lower c = true → is_ws c = false ∧ is_ascii c = true ∧ ascii_lower c = c.
Proof.
  unfold is_lower. rewrite andb_true_iff, !N.leb_le. intros Hc. unfold is_ascii, ascii_lower, is_upper. split_and!.
  - unfold is_ws. repeat match goal with |- context [(?a <=? ?b)%N] => destruct (N.leb_spec a b); try lia
      | |- context [(?a =? ?b)%N] => destruct (N.eqb_spec a b); try lia end; reflexivity.
  - apply N.ltb_lt. lia.
  - destruct (N.leb_spec c 90); [lia|]. by rewrite andb_false_r.
Qed.

Lemma collapse_word w s : Forall (λ c, is_ws c = false) w → w ≠ [] → ∀ b, collapse_ws b (w ++ s) = w ++ collapse_ws false s.
Proof.
  induction 1 as [|c w Hc Hw IH]; intros Hne b; [done|]. cbn. rewrite Hc. f_equal.
  destruct w as [|c' w]; [done|]. by apply IH.
Qed.

Lemma plain_ws w : plain_word w → Forall (λ c, is_ws c = false) w.
Proof. intros [_ F]. eapply Forall_impl; [exact F|]. intros c Hc. by apply lower_plain. Qed.

Section Normal.
Context `{UC : UnicodeCase}.

Lemma collapse_join ws : Forall plain_word ws → ∀ b, collapse_ws b (join (js " ") ws) = join (js " ") ws.
Proof.
  induction 1 as [|w ws Hw Hws IH]; intros b; [done|]. pose proof (plain_ws w Hw). destruct Hw as [Hne _].
  destruct ws as [|w' ws].
  - cbn [join]. rewrite <-(app_nil_r w) at 1. by rewrite collapse_word, app_nil_r.
  - change (join (js " ") (w :: w' :: ws)) with (w ++ 32%N :: join (js " ") (w' :: ws)).
    rewrite collapse_word by done. f_equal. cbn [collapse_ws]. change (is_ws 32) with true. cbv iota. by rewrite IH.
Qed.

Lemma join_chars ws : Forall plain_word ws → Forall (λ c, is_lower c = true ∨ c = 32%N) (join (js " ") ws).
Proof.
  intros F. apply Forall_forall. intros c [Hc|(w & Hw & Hc)]%elem_of_join.
  - right. by apply list_elem_of_singleton in Hc.
  - left. rewrite Forall_forall in F. destruct (F w Hw) as [_ Fw]. by eapply Forall_forall in Fw.
Qed.

Lemma lower_join ws : Forall plain_word ws → to_lower (join (js " ") ws) = join (js " ") ws.
Proof.
  intros F%join_chars. assert (P : Forall (λ c, is_ascii c = true ∧ ascii_lower c = c) (join (js " ") ws)).
  { eapply Forall_impl; [exact F|]. intros c [Hc| ->]; [|done]. by apply lower_plain. }
  unfold to_lower. rewrite (proj2 (forallb_forall _ _)).
  - induction P as [|c l [_ Hc] _ IH]; [done|]. cbn. by rewrite Hc, IH by (by apply Forall_cons in F as [_ F]).
  - intros c Hc%list_elem_of_In. rewrite Forall_forall in P. by apply P.
Qed.

Lemma normal_join ws : Forall plain_word ws → ws ≠ [] → normalize_mnemonic (join (js " ") ws) = join (js " ") ws.
Proof.
  intros F Hne. unfold normalize_mnemonic. rewrite tight_trim, lower_join, collapse_join; try done.
  apply tight_join; [done|]. eapply Forall_impl; [exact F|]. intros w Hw. pose proof (plain_ws w Hw) as Fw.
  destruct Hw as [Hw _]. split.
  - destruct w as [|c t]; [done|]. apply Forall_cons in Fw as [Hc _]. by exists c, t.
  - destruct w as [|c t _] using rev_ind; [done|]. apply Forall_app in Fw as [_ [Hc _]%Forall_cons]. by exists c, t.
Qed.

Lemma parsed_normal text ws : Forall plain_word ws → ws ≠ [] → normalize_mnemonic text = join (js " ") ws → parsed_words text = ws.
Proof.
  intros F Hne E. unfold parsed_words, split_ws. fold (normalize_mnemonic text). rewrite E.
  change (js " ") with [32%N]. rewrite split_join; [|done|].
  - apply filter_Forall_id. eapply Forall_impl; [exact F|]. intros w [Hw _]. by apply truthy_true.
  - eapply Forall_impl; [exact F|]. intros w [_ Fw] Hin. rewrite Forall_forall in Fw. by specialize (Fw _ Hin).
Qed.

Lemma plain_not_blank w : plain_word w → is_blank w = false.
Proof. intros Hw. unfold is_blank. rewrite trim_id_forall by by apply plain_ws. by destruct Hw, w. Qed.
End Normal.

(** *** What the screen guarantees *)

Section Restore.
Context `{WalletLaws W} `{WordList} `{ApiEnv}.
Implicit Types (w : W) (a : api_state).

(** whatever the user switches, types, pastes and applies, there is a field for every
    expected word; "Restore Wallet" is offered for the word fields exactly when none of the expected
    words is blank; and a restoration or social recovery, however it ends, keeps a field per word. *)
Theorem fields_cover_phrase es : let s := foldl entry_step opened es in
  fields_ok s ∧ length (activeWords s) = rv_wordCount s ∧
  (allFilled s = true ↔ Forall (λ x, is_blank x = false) (activeWords s)) ∧
  (∀ w, fields_ok (handleRecover (s, w)).2.1) ∧ (∀ a w, fields_ok (handleSocialRecover (s, (a, w))).2.1).
Proof.
  intros s. assert (I : fields_ok s).
  { subst s. assert (I0 : fields_ok opened) by by split; [right|cbn; lia]. revert I0. generalize opened.
    induction es as [|e es IH]; intros s I; [done|]. apply IH. by apply entry_step_ok. }
  split; [done|]. split; [unfold activeWords; rewrite length_take; destruct I; lia|]. split; [by apply allFilled_spec|].
  set (R := λ t t', fields_ok t ∧ rv_wordCount t = rv_wordCount s → fields_ok t' ∧ rv_wordCount t' = rv_wordCount s).
  assert (PreOrder R) as HR by (split; unfold R; [by intros ? ?|intros ? ? ?; tauto]).
  split.
  - intros w. unfold handleRecover. rewrite (run_bind_ok _ _ _ _ _ (run_get_state s w)).
    match goal with |- fields_ok (?m (s, w)).2.1 => assert (F : within R m); [|by apply (F s w)] end.
    frame; try (intros [[? ?] ?]; split; [split|]; done). intros [[C L] E]. split; [|done]. split; [done|].
    cbn [rv_words set_words rv_wordCount]. unfold blank. rewrite length_replicate. lia.
  - intros a w. assert (F : within (W := api_state * W) R handleSocialRecover); [|by apply (F s (a, w))].
    unfold handleSocialRecover. frame; try (intros [[? ?] ?]; split; [split|]; done).
    intros [[C L] E]. split; [|done]. split; [done|]. cbn. lia.
Qed.

(** the outcome of "Restore Wallet" on every path. With a blank field, or a phrase that is not
    BIP39, the store is not touched: the fields at fault are marked and the message says how many.
    Otherwise the phrase is restored as one wallet; success erases the fields and leaves the screen,
    a failure of the store shows its message and keeps the words. Loading always ends. *)
Theorem recover_outcome s w : let ws := activeWords s in let phrase := join (js " ") ws in
  (¬ Forall (λ x, is_blank x = false) ws → handleRecover (s, w) =
     (Ok tt, (set_error (Some (fill_error (rv_wordCount s))) (set_invalid (list_to_set (indices is_blank ws)) (set_error None s)), w))) ∧
  (Forall (λ x, is_blank x = false) ws → validateMnemonic (W := W) phrase = false → ∃ bad : gset nat,
     (∀ i, i ∈ bad ↔ ∃ x, ws !! i = Some x ∧ not_bip39 x = true) ∧
     handleRecover (s, w) = (Ok tt, (set_error (Some (phrase_error (size bad))) (set_invalid bad (set_error None s)), w))) ∧
  (Forall (λ x, is_blank x = false) ws → validateMnemonic (W := W) phrase = true → ∀ r w', restoreWalletFromMnemonic phrase w = (r, w') →
     handleRecover (s, w) = (Ok tt, (set_loading false match r with
       | Ok _ => replace_route (js "/account-type") (set_words (blank (rv_wordCount s)) (set_loading true (set_error None s)))
       | Throw e => set_error (Some (err_message e)) (set_loading true (set_error None s))
       end, w'))).
Proof.
  intros ws phrase. unfold handleRecover. rewrite (run_bind_ok _ _ _ _ _ (run_get_state s w)).
  rewrite (run_bind_ok _ _ _ _ _ (run_modify_state _ _ _)). fold ws. fold phrase. split_and!.
  - intros F. destruct (Nat.ltb_spec 0 (length (indices is_blank ws))) as [|E]; [by rewrite run_modify_state|].
    destruct F. apply indices_nil, nil_length_inv. lia.
  - intros F V. rewrite (proj2 (indices_nil _ _) F), V. cbn [length Nat.ltb Nat.leb negb].
    exists (list_to_set (indices not_bip39 ws)). split; [|by rewrite run_modify_state].
    intros i. by rewrite elem_of_list_to_set, elem_of_quiz_indices.
  - intros F V r w' E. rewrite (proj2 (indices_nil _ _) F), V. cbn [length Nat.ltb Nat.leb negb].
    rewrite (run_bind_ok _ _ _ _ _ (run_modify_state _ _ _)), run_bind. unfold try_catch. rewrite run_bind.
    rewrite (run_host _ _ _ _ _ E). by destruct r.
Qed.

(** C8: a phrase of the expected number of lower-case words, pasted with any capitals and spacing
    around and between them, fills the fields with exactly its words; restoring it then stores the
    same wallet as handing the text to the wallet service, and leaves no word on the screen. *)
Theorem pasted_phrase_restores s text ws w : Forall plain_word ws → ws ≠ [] → length ws = rv_wordCount s →
  normalize_mnemonic text = join (js " ") ws → bip39_validate (join (js " ") ws) = true → st_live w →
  let s1 := handlePasteApply (type_paste text s) in
  rv_words s1 = ws ∧ rv_pasteText s1 = [] ∧
  ∃ s2 acc w', handleRecover (s1, w) = (Ok tt, (s2, w')) ∧ restoreWalletFromMnemonic text w = (Ok acc, w') ∧
    wallet_at w' (join (js " ") ws) 1 ∧ rv_moves s2 = rv_moves s ++ [js "/account-type"] ∧
    rv_words s2 = blank (rv_wordCount s) ∧ rv_pasteText s2 = [] ∧ rv_loading s2 = false.
Proof.
  intros F Hne Hl En Hv L. cbn zeta. set (s1 := handlePasteApply (type_paste text s)).
  assert (E1 : s1 = set_paste false [] (set_error None (set_invalid ∅ (set_words ws (type_paste text s))))).
  { unfold s1, handlePasteApply. cbn [rv_pasteText rv_wordCount type_paste set_error set_paste].
    by rewrite (parsed_normal text ws F Hne En), Hl, Nat.eqb_refl. }
  pose proof (normal_join ws F Hne) as Nj.
  assert (Ea : activeWords s1 = ws) by (rewrite E1; unfold activeWords; cbn; by rewrite take_ge by lia).
  assert (Jne : join (js " ") ws ≠ []).
  { intros Ej. destruct ws as [|x ws]; [done|]. apply Forall_cons in F as [[Hx _] _].
    destruct ws; cbn in Ej; [by subst|]. by apply app_eq_nil in Ej as [? _]. }
  destruct (restore_run (join (js " ") ws) text w L En Nj Hv Jne) as (kp & w' & Er & _ & I & _).
  assert (Er' : restoreWalletFromMnemonic (join (js " ") ws) w = (Ok (MkAccount 0 (kp_publicKey kp)), w')).
  { rewrite <-Er. unfold restoreWalletFromMnemonic. by rewrite Nj, En. }
  split; [by rewrite E1|]. split; [by rewrite E1|].
  eexists _, (MkAccount 0 (kp_publicKey kp)), w'. split; [|split; [done|split; [done|]]].
  - unfold handleRecover. rewrite (run_bind_ok _ _ _ _ _ (run_get_state s1 w)), (run_bind_ok _ _ _ _ _ (run_modify_state _ _ _)), Ea.
    rewrite (proj2 (indices_nil is_blank ws)) by (eapply Forall_impl; [exact F|]; apply plain_not_blank).
    unfold validateMnemonic. rewrite Nj, Hv. cbn [length Nat.ltb Nat.leb negb].
    rewrite (run_bind_ok _ _ _ _ _ (run_modify_state _ _ _)), run_bind. unfold try_catch.
    rewrite (run_bind_ok _ _ _ _ _ (run_host _ _ _ _ _ Er')). reflexivity.
  - by rewrite E1.
Qed.

(** recovery by social login, on every path. Without a session, or when the identity cannot
    be resolved, the store is untouched and the reason is shown. When it is resolved, a wallet of a
    fresh phrase replaces whatever the store held: the phrase is on no part of the screen, the
    recovered account's address plays no part, and no request tells the server the new key. *)
Theorem social_recovery_outcome s a w t w1 : getSessionToken w = (Ok t, w1) →
  let s0 := set_social true None s in
  (truthy_opt t = false → handleSocialRecover (s, (a, w)) = (Ok tt, (set_social false (Some no_session) s0, (a, w1)))) ∧
  (∀ token, t = Some token → truthy token = true →
    (∀ e aw, recoverWalletViaPrivy token (a, w1) = (Throw e, aw) →
       handleSocialRecover (s, (a, w)) = (Ok tt, (set_social false (Some (err_message e)) s0, aw))) ∧
    (∀ r a' w2, recoverWalletViaPrivy token (a, w1) = (Ok r, (a', w2)) → st_live w2 → ∃ m w3,
       handleSocialRecover (s, (a, w)) = (Ok tt, (set_social false None
         (set_alert (recovered_alert (pr_username r)) (set_paste (rv_pasteMode s) [] (set_words (blank 24) s))), (a', w3))) ∧
       wallet_at w3 m 1 ∧ (∃ v v', bip39_generate 256 v = (Ok m, v')) ∧ net_trace w3 = net_trace w2)).
Proof.
  intros Et s0. unfold handleSocialRecover. rewrite !(run_bind_ok _ _ _ _ _ (run_modify_state _ _ _)), !run_bind. fold s0.
  unfold try_catch. pose proof (run_host getSessionToken a w _ _ Et) as Et1.
  pose proof (run_host (host getSessionToken) s0 (a, w) _ _ Et1) as Et2. rewrite (run_bind_ok _ _ _ _ _ Et2). split.
  - intros Ht. destruct t as [t|]; [cbn in Ht; rewrite Ht|]; by rewrite !run_modify_state.
  - intros token -> Ht. rewrite Ht. split.
    + intros e aw Er. rewrite (run_bind_throw _ _ _ _ _ (run_host _ s0 _ _ _ Er)). by rewrite !run_modify_state.
    + intros r a' w2 Er L. rewrite (run_bind_ok _ _ _ _ _ (run_host _ s0 _ _ _ Er)).
      destruct (generate_spec 256 w2) as (m & w3 & Eg & K & Nm & Vm & Hm).
      assert (Eg' : generateMnemonic 24 w2 = (Ok m, w3)) by exact Eg.
      destruct (restore_run m m w3) as (kp & w4 & Em & _ & I & T); [by apply (kept_live _ _ K)|done..|].
      rewrite (run_bind_ok _ _ _ _ _ (run_host _ s0 _ _ _ (run_host _ a' _ _ _ Eg'))).
      rewrite (run_bind_ok _ _ _ _ _ (run_host _ s0 _ _ _ (run_host _ a' _ _ _ Em))).
      exists m, w4. split; [reflexivity|]. split; [done|]. split; [by exists w2, w3|]. by rewrite T, (kept_trace _ _ K).
Qed.
End Restore.
End Recovery.

(** ** Runs on a scripted host *)

Module Runs.
Import Quiz Backup Recovery.
#[local] Existing Instances ascii_case WalletSecurity.Runs.demo_libs WalletSecurity.Runs.demo_laws.
#[local] Instance english_list : WordList := [js "abandon"; js "about"; js "zoo"].
#[local] Instance no_api_url : ApiEnv := None.

Definition twelve : str := js "one two three four five six seven eight nine ten eleven zoo".
Definition shown : backup := toggle_confirmed (Backup.set_wallet (MkGenerated twelve [MkAccount 0 (js "G")]) (Backup.opened (Clipboard.ClipState 0 [] None))).
Definition phone : scripted := world [(SecureStore, js "privy_session_token", js "t")] [].

Lemma quiz_options_sound_witness : ∃ out w', quizWordOptions (split_on 32 twelve) 3 phone = (Ok out, w') ∧
  length (filter (λ o, o = Some (js "three")) out) = 1 ∧ length out = 4.
Proof.
  destruct (quiz_options_sound (split_on 32 twelve) 3 (js "three") phone eq_refl) as (out & w' & E & _ & N & _ & L); [reflexivity|].
  exists out, w'. split; [exact E|]. split; [exact N|]. rewrite L. reflexivity.
Defined.

(** a phrase that repeats a word can offer the repeated word twice among the decoys. *)
Theorem decoys_may_repeat : ∃ words out w', quizWordOptions words 1 phone = (Ok out, w') ∧ ¬ NoDup out.
Proof.
  exists [js "a"; js "b"; js "b"; js "b"]. eexists _, _. split; [vm_compute; reflexivity|].
  apply (bool_decide_unpack _). vm_compute. exact I.
Qed.

Lemma phrase_copied_visibly_witness :
  cp_copied (bk_copy (foldl copy_step (Backup.opened (Clipboard.ClipState 0 [] None)) [ECopy; ESecond])) = false ∧
  Clipboard.pasteboard (cp_clip (bk_copy (Backup.unmount (foldl copy_step (Backup.opened (Clipboard.ClipState 0 [] None)) [ECopy; ESecond])))) = [].
Proof. split; [reflexivity|]. apply (phrase_copied_visibly [ECopy; ESecond] 0). Defined.

Lemma copy_during_continue_witness :
  Clipboard.pasteboard (cp_clip (bk_copy (continue_copy (handleCopy (continue_clear shown))))) = twelve.
Proof. apply (copy_during_continue shown (MkGenerated twelve [MkAccount 0 (js "G")]) eq_refl). Defined.

Lemma quiz_always_passable_witness : ∃ r,
  qz_moves (bk_quiz (foldl (λ s pos, handleSelect pos (word_at (phrase_words s) pos) s) shown [11; 3; 7])) = r ++ [js "/account-type"].
Proof. apply (quiz_always_passable shown [11; 3; 7]). apply (bool_decide_unpack _). vm_compute. exact I. Defined.

Lemma opening_replaces_wallet_witness : ∃ m kp w', generate (Backup.opened (Clipboard.ClipState 0 [] None), phone) =
  (Ok tt, (Backup.set_loading false (Backup.set_wallet (MkGenerated m [MkAccount 0 (kp_publicKey kp)]) (Backup.opened (Clipboard.ClipState 0 [] None))), w')).
Proof.
  destruct (opening_replaces_wallet (Clipboard.ClipState 0 [] None) phone) as [G _].
  destruct (G ltac:(exact (eq_refl false))) as (m & kp & w' & E & _). by exists m, kp, w'.
Defined.

Lemma continue_shows_quiz_witness : ∃ s' w', handleContinue (shown, phone) = (Ok tt, (s', w')) ∧ qz_verify (bk_quiz s') = true.
Proof.
  destruct (continue_shows_quiz shown phone (MkGenerated twelve [MkAccount 0 (js "G")]) eq_refl) as [_ C].
  destruct (C eq_refl) as (s' & w' & E & _ & _ & V & _); [apply Nat.leb_le; reflexivity|reflexivity|].
  exists s', w'. split; [exact E|exact V].
Defined.

Definition filled : recovery := foldl entry_step Recovery.opened [ECount 12; EWord 0 (js " Zoo "); EToggle].

Lemma fields_cover_phrase_witness : length (activeWords filled) = 12.
Proof. apply (fields_cover_phrase (W := scripted) [ECount 12; EWord 0 (js " Zoo "); EToggle]). Defined.

Lemma recover_outcome_witness : handleRecover (filled, phone) =
  (Ok tt, (Recovery.set_error (Some (fill_error 12)) (set_invalid (list_to_set (indices is_blank (activeWords filled)))
     (Recovery.set_error None filled)), phone)).
Proof.
  apply (recover_outcome filled phone). intros F. apply Forall_inv_tail, Forall_inv in F. vm_compute in F. discriminate F.
Defined.

Definition typed : str := js " One  two three FOUR five six seven eight nine ten eleven zoo ".

Lemma pasted_phrase_restores_witness : ∃ s2 acc w',
  handleRecover (handlePasteApply (type_paste typed filled), phone) = (Ok tt, (s2, w')) ∧ restoreWalletFromMnemonic typed phone = (Ok acc, w').
Proof.
  destruct (pasted_phrase_restores filled typed (split_on 32 twelve) phone) as (_ & _ & s2 & acc & w' & E1 & E2 & _);
    [..|exists s2, acc, w'; split; [exact E1|exact E2]].
  - unfold plain_word. apply (bool_decide_unpack _). vm_compute. exact I.
  - discriminate.
  - reflexivity.
  - reflexivity.
  - reflexivity.
  - exact (eq_refl false).
Defined.

Lemma social_recovery_outcome_witness : handleSocialRecover (Recovery.opened, (ApiState false 0, world [] [])) =
  (Ok tt, (set_social false (Some no_session) (set_social true None Recovery.opened), (ApiState false 0, world [] []))).
Proof.
  assert (getSessionToken (world [] []) = (Ok None, world [] [])) as E by reflexivity.
  destruct (social_recovery_outcome Recovery.opened (ApiState false 0) (world [] []) None (world [] []) E) as [N _].
  exact (N eq_refl).
Defined.

Example twelve_accepted : rv_words (handlePasteApply (type_paste typed filled)) = split_on 32 twelve.
Proof. reflexivity. Qed.
End Runs.
