(* ===== verification/AppShell.v ===== *)
(** * The frame of the mobile app

    Model of [mobileapp/app/_layout.tsx] and [mobileapp/src/components/Toast.tsx]: the
    minimum version gate (module Versions), what runs when the app starts and when a link arrives
    (Launch), and the toasts of [ToastProvider] with their timers (Toasts). *)

From S2P Require Import Prelude JsString JsNumber UriCodec JsDate Json Effects Decode Scripts MobileApi Sep0007 SdpDeepLink Notifications.

(** ** The version gate *)

Module Versions.
Definition IOS_STORE_URL : str := js "https://apps.apple.com/app/zaps".
Definition ANDROID_STORE_URL : str := js "https://play.google.com/store/apps/details?id=app.zaps".

(** [parseInt(part, 10) || 0] *)
Definition part_value (part : str) : num := let x := parseInt10 part in if num_truthy x then x else Fin 0 0.

Definition parts (version : str) : list num := part_value <$> split_on 46 version.

(** [left[i] ?? 0] *)
Definition part_at (l : list num) (i : nat) : num := default (Fin 0 0) (l !! i).

(** The loop from [i], with [n] rounds to go. *)
Fixpoint compare_loop (left right : list num) (n i : nat) : Z :=
  match n with
  | O => 0
  | S n' =>
      let a := part_at left i in
      let b := part_at right i in
      if num_ltb a b then -1 else if num_ltb b a then 1 else compare_loop left right n' (S i)
  end%Z.

Definition compareVersions (installed required : str) : Z :=
  let left := parts installed in
  let right := parts required in
  compare_loop left right (Nat.max (length left) (length right)) 0.

Record gate := Gate { gt_forceUpdate : bool; gt_storeUrl : json }.

Definition default_store (ios : bool) : str := if ios then IOS_STORE_URL else ANDROID_STORE_URL.
Definition initial_gate (ios : bool) : gate := Gate false (JStr (default_store ios)).

(** [config.ios_store_url || IOS_STORE_URL] *)
Definition store_url (ios : bool) (config : json) : json :=
  let v := json_get (if ios then js "ios_store_url" else js "android_store_url") config in
  match v with Some x => if json_truthy v then x else JStr (default_store ios) | None => JStr (default_store ios) end.

(** [a ?? b ?? ""] *)
Definition nullish (o : option json) : bool := match o with None | Some JNull => true | _ => false end.
Definition required_version (config : json) : json :=
  let a := json_get (js "minimum_required_version") config in
  let b := json_get (js "min_version") config in
  match a with Some x => if nullish a then match b with Some y => if nullish b then JStr [] else y | None => JStr [] end else x
          | None => match b with Some y => if nullish b then JStr [] else y | None => JStr [] end end.

Definition config_request `{ApiEnv} : request := Request (API_BASE ++ js "/api/v1/config") (js "GET") [] None.

Section Check.
Context `{ApiEnv, Host W}.

(** [checkMinimumVersion] for the version of the app manifest; [cancelled] is what the clean-up of
    the effect has set by the time the answer is read. *)
Definition checkMinimumVersion (ios : bool) (version : option str) (cancelled : bool) : M (gate * W) unit :=
  try_catch
    (response ← host (fetch config_request);
     if negb (rs_ok response) then mret tt
     else
       config ← JSON_parse (rs_body response);
       _ ← read_prop (js "minimum_required_version") config;
       let required := required_version config in
       if negb (json_truthy (Some required)) then mret tt
       else
         match required with
         | JStr r =>
             if (0 <=? compareVersions (default (js "0.0.0") version) r)%Z then mret tt
             else if cancelled then mret tt
             else modify_state (λ _, Gate true (store_url ios config))
         | _ => throw type_error
         end)
    (λ _, mret tt).
End Check.

(** *** Properties *)

(** The first place where the parts differ decides. *)
Definition lower_at (l r : list num) (i : nat) : Prop :=
  num_ltb (part_at l i) (part_at r i) = true ∧ ∀ j, j < i → num_ltb (part_at l j) (part_at r j) = false ∧ num_ltb (part_at r j) (part_at l j) = false.

Lemma compare_loop_lower l r n i : compare_loop l r n i = (-1)%Z ↔
  ∃ k, i ≤ k < i + n ∧ num_ltb (part_at l k) (part_at r k) = true ∧
    ∀ j, i ≤ j < k → num_ltb (part_at l j) (part_at r j) = false ∧ num_ltb (part_at r j) (part_at l j) = false.
Proof.
  revert i. induction n as [|n IH]; intros i; cbn [compare_loop]; [split; [done|intros (k & ? & _); lia]|].
  destruct (num_ltb (part_at l i) (part_at r i)) eqn:E1.
  { split; [|done]. intros _. exists i. split; [lia|]. split; [done|intros; lia]. }
  destruct (num_ltb (part_at r i) (part_at l i)) eqn:E2.
  { split; [done|]. intros (k & Hk & Hl & Hb). destruct (decide (k = i)) as [->|]; [congruence|]. destruct (Hb i); [lia|congruence]. }
  rewrite IH. split; intros (k & Hk & Hl & Hb).
  - exists k. split; [lia|]. split; [done|]. intros j Hj. destruct (decide (j = i)) as [->|]; [done|apply Hb; lia].
  - exists k. destruct (decide (k = i)) as [->|]; [congruence|]. split; [lia|]. split; [done|]. intros j Hj. apply Hb. lia.
Qed.

Lemma part_at_beyond l i : length l ≤ i → part_at l i = Fin 0 0.
Proof. intros H. unfold part_at. by rewrite lookup_ge_None_2. Qed.

Lemma compare_lower installed required :
  compareVersions installed required = (-1)%Z ↔ ∃ i, lower_at (parts installed) (parts required) i.
Proof.
  unfold compareVersions. cbv zeta. rewrite compare_loop_lower. split; intros (k & Hk).
  - exists k. destruct Hk as (Hk & Hl & Hb). split; [done|]. intros j Hj. apply Hb. lia.
  - destruct Hk as [Hl Hb]. exists k. split; [|split; [done|intros j Hj; apply Hb; lia]].
    destruct (decide (k < Nat.max (length (parts installed)) (length (parts required)))); [lia|].
    rewrite !part_at_beyond in Hl by lia. done.
Qed.

Lemma compare_swap l r n i : compare_loop r l n i = (- compare_loop l r n i)%Z.
Proof.
  revert i. induction n as [|n IH]; intros i; cbn [compare_loop]; [done|].
  destruct (num_ltb (part_at l i) (part_at r i)) eqn:E1, (num_ltb (part_at r i) (part_at l i)) eqn:E2; try done.
  exfalso. destruct (part_at l i) as [|[]|m e], (part_at r i) as [|[]|m' e']; try done. cbn in E1, E2. lia.
Qed.

(** [1.2.0] for [[1; 2; 0]] *)
Definition dotted (xs : list N) : str := join [46%N] (N_to_str <$> xs).

Lemma dotted_free n : 46%N ∉ N_to_str n.
Proof. intros H. pose proof (N_to_str_digits n) as D. rewrite Forall_forall in D. by specialize (D _ H). Qed.

(** A part that is a whole number below 2^53 has its value. *)
Definition whole (n : N) : Prop := (n < 2 ^ 53)%N.
Definition part_num (n : N) : num := Fin (Z.of_N n) 0.

Lemma part_value_nat n : whole n → part_value (N_to_str n) = part_num n.
Proof.
  intros Hn. unfold part_value. rewrite parseInt10_nat, num_of_Z_safe by (unfold safe_int, whole in *; lia).
  cbv zeta. destruct (num_truthy (Fin (Z.of_N n) 0)) eqn:E; [done|]. unfold part_num. destruct n; [done|discriminate E].
Qed.

Lemma parts_dotted xs : xs ≠ [] → Forall whole xs → parts (dotted xs) = part_num <$> xs.
Proof.
  intros Hne Hw. unfold parts, dotted. rewrite split_join.
  - rewrite <-list_fmap_compose. apply list_fmap_ext. intros i n Hi. cbn. apply part_value_nat.
    rewrite Forall_forall in Hw. apply Hw. by apply list_elem_of_lookup_2 in Hi.
  - by destruct xs.
  - apply Forall_fmap, Forall_forall. intros n _. apply dotted_free.
Qed.

(** The order of two versions, the shorter one continued by zeros. *)
Fixpoint version_order (xs ys : list N) : comparison :=
  match xs, ys with
  | [], [] => Eq
  | x :: xs', [] => match (x ?= 0)%N with Eq => version_order xs' [] | c => c end
  | [], y :: ys' =>
      (fix zeros (ys : list N) := match ys with
        | [] => Eq
        | y :: ys' => match (0 ?= y)%N with Eq => zeros ys' | c => c end end) ys
  | x :: xs', y :: ys' => match (x ?= y)%N with Eq => version_order xs' ys' | c => c end
  end.

Definition sign_of (c : comparison) : Z := match c with Lt => -1 | Eq => 0 | Gt => 1 end%Z.

Lemma version_order_step xs ys : xs ≠ [] ∨ ys ≠ [] → version_order xs ys =
  match (default 0 (head xs) ?= default 0 (head ys))%N with Eq => version_order (tail xs) (tail ys) | c => c end.
Proof. intros H. destruct xs as [|x xs], ys as [|y ys]; try done. cbn. by destruct y, ys. Qed.

Lemma num_ltb_part m n : num_ltb (part_num m) (part_num n) = (m <? n)%N.
Proof. unfold part_num, num_ltb. change (2 ^ (- 0))%Z with 1%Z. destruct (N.ltb_spec m n); lia. Qed.

Lemma part_at_head xs : part_at (part_num <$> xs) 0 = part_num (default 0%N (head xs)).
Proof. by destruct xs. Qed.

Lemma compare_loop_tail l r n i : compare_loop l r n (S i) = compare_loop (tail l) (tail r) n i.
Proof.
  assert (T : ∀ (l : list num) i, part_at l (S i) = part_at (tail l) i) by by intros [|] ?.
  revert i. induction n as [|n IH]; intros i; [done|]. cbn [compare_loop]. by rewrite !T, IH.
Qed.

Lemma compare_loop_order n xs ys : Nat.max (length xs) (length ys) ≤ n →
  compare_loop (part_num <$> xs) (part_num <$> ys) n 0 = sign_of (version_order xs ys).
Proof.
  revert xs ys. induction n as [|n IH]; intros xs ys Hn.
  { by destruct xs, ys; cbn in Hn; try lia. }
  cbn [compare_loop]. rewrite !part_at_head, !num_ltb_part, compare_loop_tail.
  assert (Ht : ∀ zs, tail (part_num <$> zs) = part_num <$> tail zs) by by intros [|].
  rewrite !Ht, IH by (destruct xs, ys; cbn in *; lia).
  destruct (decide (xs = [] ∧ ys = [])) as [[-> ->]|Hne]; [done|].
  rewrite (version_order_step xs ys) by (destruct xs; [destruct ys; [by destruct Hne|by right]|by left]).
  destruct (N.compare_spec (default 0%N (head xs)) (default 0%N (head ys))) as [->|L|L].
  - by rewrite N.ltb_irrefl.
  - by rewrite (proj2 (N.ltb_lt _ _) L).
  - rewrite (proj2 (N.ltb_ge _ _)) by lia. by rewrite (proj2 (N.ltb_lt _ _) L).
Qed.

(** for versions written as dotted whole numbers below 2^53, the comparison is the
    order of the numbers part by part, the shorter version continued by zeros (so [1.10] is above
    [1.9] and [2] equals [2.0.0]); and swapping any two texts, well formed or not, swaps the answer. *)
Theorem version_order_exact :
  (∀ xs ys, xs ≠ [] → ys ≠ [] → Forall whole xs → Forall whole ys →
     compareVersions (dotted xs) (dotted ys) = sign_of (version_order xs ys)) ∧
  ∀ a b, compareVersions b a = (- compareVersions a b)%Z.
Proof.
  split.
  - intros xs ys Hx Hy Wx Wy. unfold compareVersions. rewrite !parts_dotted by done. cbv zeta.
    rewrite !length_fmap. by apply compare_loop_order.
  - intros a b. unfold compareVersions. cbv zeta. rewrite Nat.max_comm. apply compare_swap.
Qed.

Section Gate.
Context `{ApiEnv, HostLaws W}.

(** the version check sends one request and never rejects; it closes the app only
    on a successful answer whose [minimum_required_version] (or [min_version]) is a text above the
    installed version, while the layout is mounted, and then with the store address of the answer;
    whatever else happens (offline, error status, no minimum, a minimum sent as a number) leaves the
    gate as it was. *)
Theorem update_gate ios version cancelled (g : gate) (w : W) : ∃ g' w' r,
  checkMinimumVersion ios version cancelled (g, w) = (Ok tt, (g', w')) ∧
  fetch config_request w = (r, w') ∧
  (g' = g ∨
   ∃ response config required, r = Ok response ∧ rs_ok response = true ∧
     json_parse (rs_body response) = Some config ∧ required_version config = JStr required ∧
     compareVersions (default (js "0.0.0") version) required = (-1)%Z ∧ cancelled = false ∧
     g' = Gate true (store_url ios config)).
Proof.
  destruct (fetch config_request w) as [r w'] eqn:E.
  enough (∃ g', checkMinimumVersion ios version cancelled (g, w) = (Ok tt, (g', w')) ∧ (g' = g ∨
   ∃ response config required, r = Ok response ∧ rs_ok response = true ∧
     json_parse (rs_body response) = Some config ∧ required_version config = JStr required ∧
     compareVersions (default (js "0.0.0") version) required = (-1)%Z ∧ cancelled = false ∧
     g' = Gate true (store_url ios config))) as (g' & E1 & E2) by by exists g', w', r.
  unfold checkMinimumVersion, try_catch. destruct r as [response|e].
  2:{ rewrite (run_bind_throw _ _ _ _ _ (run_host _ g _ _ _ E)). exists g. split; [done|by left]. }
  rewrite (run_bind_ok _ _ _ _ _ (run_host _ g _ _ _ E)).
  destruct (rs_ok response) eqn:Eok; cbn [negb]; [|exists g; split; [done|by left]].
  unfold JSON_parse. destruct (json_parse (rs_body response)) as [config|] eqn:Ep; [|exists g; split; [done|by left]].
  rewrite (run_bind_ok (mret config) _ (g, w') (g, w') config eq_refl).
  assert (Hr : (∃ v, read_prop (W := gate * W) (js "minimum_required_version") config (g, w') = (Ok v, (g, w'))) ∨
     ∃ e, read_prop (W := gate * W) (js "minimum_required_version") config (g, w') = (Throw e, (g, w'))) by (destruct config; eauto).
  destruct Hr as [[v Ev]|[e Ev]].
  2:{ rewrite (run_bind_throw _ _ _ _ _ Ev). exists g. split; [done|by left]. }
  rewrite (run_bind_ok _ _ _ _ _ Ev). cbv zeta.
  destruct (json_truthy (Some (required_version config))); cbn [negb]; [|exists g; split; [done|by left]].
  destruct (required_version config) as [| | |required| |] eqn:Er; try (exists g; split; [done|by left]).
  destruct (0 <=? compareVersions (default (js "0.0.0") version) required)%Z eqn:Ec; [exists g; split; [done|by left]|].
  destruct cancelled; [exists g; split; [done|by left]|].
  exists (Gate true (store_url ios config)). split; [done|]. right. exists response, config, required.
  repeat split; try done. apply Z.leb_gt in Ec. revert Ec. unfold compareVersions. cbv zeta.
  generalize (Nat.max (length (parts (default (js "0.0.0") version))) (length (parts required))) 0%nat.
  intros n. induction n as [|n IH]; intros i; cbn [compare_loop]; [lia|].
  destruct (num_ltb _ _); [done|]. destruct (num_ltb _ _); [lia|]. apply IH.
Qed.
End Gate.
End Versions.

(** ** Launch *)

Module Launch.
Section Links.
Context `{UC : UnicodeCase, LinkParser}.

(** [handleIncomingUrl]; the state is the list of routes pushed so far. *)
Definition handleIncomingUrl {W} (url : option str) : M (list str * W) unit :=
  match given url with
  | None => mret tt
  | Some _ =>
      result ← of_res (parseSdpClaimUrl url);
      match result with
      | ClaimError _ => mret tt
      | ClaimToken token => modify_state (λ pushed, pushed ++ [js "/claim/" ++ token])
      end
  end.

(** The links of a session: the one of the cold start, then those of the [url] events. *)
Fixpoint links {W} (urls : list (option str)) : M (list str * W) unit :=
  match urls with
  | [] => mret tt
  | url :: urls' => try_catch (handleIncomingUrl url) (λ _, mret tt);; links urls'
  end.
End Links.

Section Start.
Context `{Host W, E : !ExpoNotifications W, ApiEnv}.

Definition setupNotifications : M (api_state * W) unit :=
  host initNotificationCategoriesAsync;;
  enabled ← host getStoredNotificationPreference;
  if enabled : bool then registerForPushNotificationsAsync false;; mret tt else mret tt.
End Start.

(** *** Properties *)

Lemma claim_token_valid `{UnicodeCase, LinkParser} url token :
  parseSdpClaimUrl url = Ok (ClaimToken token) → isValidSdpToken token = true.
Proof. unfold parseSdpClaimUrl. cbv zeta. repeat case_match; congruence. Qed.

Definition claim_route (route : str) : Prop := ∃ token, route = js "/claim/" ++ token ∧ isValidSdpToken token = true.

Lemma incoming_url_run `{UnicodeCase, LinkParser} {W} url pushed (w : W) :
  handleIncomingUrl url (pushed, w) =
    match parseSdpClaimUrl url with
    | Ok (ClaimToken token) => (Ok tt, (pushed ++ [js "/claim/" ++ token], w))
    | Ok (ClaimError _) => (Ok tt, (pushed, w))
    | Throw e => (Throw e, (pushed, w))
    end.
Proof.
  unfold handleIncomingUrl. destruct (given url) eqn:G; [|unfold parseSdpClaimUrl; by rewrite G].
  rewrite run_bind. unfold of_res. by destruct (parseSdpClaimUrl url) as [[token|e]|e].
Qed.

(** whatever links arrive, at launch and while the app runs, the only routes they
    open are claim screens whose token has the allow-listed format, so that no link can leave the
    claim path; and a link that the parser accepts opens its claim screen, once. *)
Theorem links_open_claims_only `{UnicodeCase, LinkParser} {W} urls pushed (w : W) : ∃ routes,
  links urls (pushed, w) = (Ok tt, (pushed ++ routes, w)) ∧ Forall claim_route routes ∧
  length routes ≤ length urls ∧
  ∀ url token, url ∈ urls → parseSdpClaimUrl url = Ok (ClaimToken token) → js "/claim/" ++ token ∈ routes.
Proof.
  revert pushed. induction urls as [|url urls IH]; intros pushed.
  { exists []. rewrite app_nil_r. repeat split; [constructor|done|]. by intros ? ? ?%not_elem_of_nil. }
  cbn [links]. unfold try_catch.
  set (r1 := match parseSdpClaimUrl url with Ok (ClaimToken t) => [js "/claim/" ++ t] | _ => [] end).
  destruct (IH (pushed ++ r1)) as (routes & E & F & L & C).
  exists (r1 ++ routes). rewrite app_assoc. split.
  { rewrite run_bind, incoming_url_run. unfold r1 in E.
    by destruct (parseSdpClaimUrl url) as [[token|e]|e]; rewrite ?app_nil_r in *. }
  split.
  { apply Forall_app. split; [|done]. unfold r1. destruct (parseSdpClaimUrl url) as [[token|e]|e] eqn:Ep; try constructor; [|constructor].
    exists token. split; [done|]. by eapply claim_token_valid. }
  split. { rewrite length_app. unfold r1. cbn [length]. destruct (parseSdpClaimUrl url) as [[]|]; cbn [length]; lia. }
  intros u token [->|Hu]%elem_of_cons Ep.
  - apply elem_of_app. left. unfold r1. rewrite Ep. by apply list_elem_of_here.
  - apply elem_of_app. right. by eapply C.
Qed.

(** The same platform with another answer to the permission dialog. *)
Definition with_dialog {W} (E : ExpoNotifications W) (dialog : M W permission) : ExpoNotifications W := {|
  platform_os := platform_os; isDevice := isDevice; manifest_slug := manifest_slug; expoConfig_slug := expoConfig_slug;
  STATUS_GRANTED := STATUS_GRANTED; STATUS_UNDETERMINED := STATUS_UNDETERMINED; STATUS_PROVISIONAL := STATUS_PROVISIONAL;
  setNotificationCategory := setNotificationCategory; getPermissions := getPermissions;
  requestPermissions := dialog; getExpoPushToken := getExpoPushToken; openURL := openURL |}.

Section Quiet.
Context `{HostLaws W, E : !ExpoNotifications W, !ExpoLaws W, ApiEnv}.
Implicit Types (w : W) (s : api_state).

Lemma init_categories_run w : inert (setNotificationCategory NOTIFICATION_CATEGORIES_TRANSACTION transaction_actions) →
  ∃ w', initNotificationCategoriesAsync w = (Ok tt, w') ∧ kept w w'.
Proof.
  intros Hc. unfold initNotificationCategoriesAsync. destruct (str_eqb _ _); [by exists w|].
  destruct (swallow_ok (setNotificationCategory NOTIFICATION_CATEGORIES_TRANSACTION transaction_actions) w) as (w' & E1 & E2).
  exists w'. split; [done|]. rewrite <-E2. apply Hc.
Qed.

(** The silent registration: it may reject, with the reading of the permission. *)
Lemma silent_registration s w : st_live w → ∃ out s' w',
  registerForPushNotificationsAsync false (s, w) = (out, (s', w')) ∧
  match out with
  | Ok (Some token) => isDevice (W := W) = true ∧ registered w w' token
  | _ => push_token w' = push_token w ∧ net_trace w' = net_trace w
  end.
Proof.
  intros L. unfold registerForPushNotificationsAsync.
  destruct (isDevice (W := W)) eqn:Ed; cbn [negb]; [|by eexists (Ok None), s, w].
  pose proof (getPermissions_inert w) as K1. destruct (getPermissions w) as [[current|e] w1] eqn:E1; cbn in K1.
  2:{ eexists (Throw e), s, w1. split; [|split; apply K1].
      rewrite (run_bind_throw _ _ _ (s, w1) e); [done|]. unfold host. cbn. by rewrite run_bind, E1. }
  rewrite (run_bind_ok _ _ _ (s, w1) (pm_status current)) by (unfold host; cbn; by rewrite run_bind, E1).
  destruct (str_eqb (pm_status current) _); cbn [negb].
  2:{ eexists (Ok None), s, w1. split; [done|]. split; apply K1. }
  destruct (store_and_send_run s w w1 L K1) as (out & s' & w' & -> & R). exists (Ok out), s', w'. split; [done|].
  by destruct out.
Qed.

(** starting the app does not depend on what the permission dialog would answer
    (it is never opened); with notifications switched off, or the permission not granted, or in a
    simulator, no token is stored and nothing is sent; otherwise the token of this start is stored
    and posted once under the current session. *)
Theorem cold_start_quiet s w : st_live w →
  inert (setNotificationCategory NOTIFICATION_CATEGORIES_TRANSACTION transaction_actions) →
  (∀ dialog, @setupNotifications W _ (with_dialog E dialog) _ (s, w) = setupNotifications (s, w)) ∧
  ∃ out s' w', setupNotifications (s, w) = (out, (s', w')) ∧
    ((push_token w' = push_token w ∧ net_trace w' = net_trace w) ∨
     (st_peek w AsyncStorage NOTIFICATION_PREFERENCE_KEY ≠ Some (js "false") ∧ isDevice (W := W) = true ∧
      ∃ w2 token, kept w w2 ∧ registered w2 w' token)).
Proof.
  intros L Hc. split; [done|]. unfold setupNotifications.
  destruct (init_categories_run w Hc) as (w1 & E1 & K1). rewrite (run_bind_ok _ _ _ _ _ (run_host _ s _ _ _ E1)).
  assert (L1 : st_live w1) by by apply K1.
  destruct (preference_run w1 L1) as (w2 & E2 & K2). rewrite (run_bind_ok _ _ _ _ _ (run_host _ s _ _ _ E2)).
  assert (K : kept w w2) by by etransitivity. assert (L2 : st_live w2) by by apply K.
  case_bool_decide as Hp; cbn [negb]; [eexists _, s, w2; split; [done|]; left; split; apply K|].
  destruct (silent_registration s w2 L2) as (out & s' & w3 & E3 & R).
  destruct out as [[token|]|e].
  - rewrite (run_bind_ok _ _ _ _ _ E3). eexists _, s', w3. split; [done|]. right.
    rewrite (kept_peek _ _ K1) in Hp by (vm_compute; congruence).
    split; [done|]. split; [apply R|]. exists w2, token. split; [done|apply R].
  - rewrite (run_bind_ok _ _ _ _ _ E3). eexists _, s', w3. split; [done|]. left. destruct R as [-> ->]. split; apply K.
  - rewrite (run_bind_throw _ _ _ _ _ E3). eexists _, s', w3. split; [done|]. left. destruct R as [-> ->]. split; apply K.
Qed.
End Quiet.
End Launch.

(** ** Toasts *)

Module Toasts.
Inductive ToastType := success | error | warning | info.
#[export] Instance ToastType_eq_dec : EqDecision ToastType. Proof. solve_decision. Defined.

Record ToastProps := MkProps {
  tp_message : str; tp_type : option ToastType; tp_duration : option Z; tp_action : option str }.

(** [type = "info"], [duration = 3000] *)
Definition type_of (p : ToastProps) : ToastType := default info (tp_type p).
Definition duration_of (p : ToastProps) : Z := default 3000%Z (tp_duration p).

Definition getIcon (t : ToastType) : str :=
  match t with
  | success => js "checkmark-circle" | error => js "close-circle"
  | warning => js "warning" | info => js "information-circle"
  end.
Definition getIconColor (t : ToastType) : str :=
  match t with success => js "#4CAF50" | error => js "#F44336" | warning => js "#FF9800" | info => js "#2196F3" end.
Definition getBackgroundColor (t : ToastType) : str :=
  match t with success => js "#E8F5E8" | error => js "#FFEBEE" | warning => js "#FFF3E0" | info => js "#E3F2FD" end.

(** An entry of [toasts], and whether its closing animation was started. *)
Record toast := MkToast { to_id : str; to_props : ToastProps; to_closing : bool }.

(** [ToastProvider]: its entries, and the time it last rendered: each render hands every toast a new
    [onHide], on which its effect clears the timer and starts it anew. *)
Record provider := MkProvider { pr_toasts : list toast; pr_rendered : Z }.
Definition mounted (now : Z) : provider := MkProvider [] now.

(** [Date.now().toString()] *)
Definition id_at (now : Z) : str := Z_to_str now.

Definition add_toast (now : Z) (p : ToastProps) (s : provider) : provider :=
  MkProvider (pr_toasts s ++ [MkToast (id_at now) p false]) now.
Definition removeToast (now : Z) (id : str) (s : provider) : provider :=
  MkProvider (List.filter (λ t, negb (str_eqb (to_id t) id)) (pr_toasts s)) now.

(** The context function and the functions of [global.toast]. *)
Definition showToast (now : Z) (message : str) (type : ToastType) : provider → provider :=
  add_toast now (MkProps message (Some type) None None).
Definition bridge_show (now : Z) (props : ToastProps) : provider → provider := add_toast now props.
Definition bridge (type : ToastType) (now : Z) (message : str) (action : option str) : provider → provider :=
  add_toast now (MkProps message (Some type) None action).

Definition useToast {A} (context : option A) : res A :=
  match context with Some c => Ok c | None => Throw (new_error (js "useToast must be used within ToastProvider")) end.

(** [hideToast]: the closing animation; [onHide] runs when it ends. *)
Definition hideToast (t : toast) : toast := MkToast (to_id t) (to_props t) true.
Definition hide_at (k : nat) (s : provider) : provider := MkProvider (alter hideToast k (pr_toasts s)) (pr_rendered s).

(** When the timer of a toast goes off. *)
Definition due (s : provider) (t : toast) : Z := (pr_rendered s + duration_of (to_props t))%Z.

Inductive event :=
  | Show (props : ToastProps)     (** any of the functions *)
  | Timer (k : nat)               (** the timer of entry [k] *)
  | Close (k : nat)               (** its close button *)
  | Faded (k : nat).              (** its closing animation has ended *)

(** A timer cannot go off before it is due, an animation cannot end before it was started. *)
Definition step (now : Z) (e : event) (s : provider) : provider :=
  match e with
  | Show props => add_toast now props s
  | Timer k => match pr_toasts s !! k with Some t => if (due s t <=? now)%Z then hide_at k s else s | None => s end
  | Close k => hide_at k s
  | Faded k => match pr_toasts s !! k with Some t => if to_closing t then removeToast now (to_id t) s else s | None => s end
  end.

Definition run (es : list (Z * event)) (s : provider) : provider := foldl (λ s e, step e.1 e.2 s) s es.

(** *** Properties *)

(** The provider after toasts shown at the given times. *)
Definition shown (l : list (Z * ToastProps)) : provider := foldl (λ s x, add_toast x.1 x.2 s) (mounted 0) l.
Definition entry (x : Z * ToastProps) : toast := MkToast (id_at x.1) x.2 false.

Lemma shown_snoc l x : shown (l ++ [x]) = add_toast x.1 x.2 (shown l).
Proof. unfold shown. by rewrite foldl_app. Qed.

Lemma shown_toasts l : pr_toasts (shown l) = entry <$> l.
Proof.
  induction l as [|x l IH] using rev_ind; [done|]. rewrite shown_snoc. cbn [add_toast pr_toasts].
  rewrite IH, fmap_app. by destruct x.
Qed.

Lemma id_at_eqb a b : str_eqb (id_at a) (id_at b) = (a =? b)%Z.
Proof.
  destruct (Z.eqb_spec a b) as [->|Hn]; [by apply str_eqb_true|].
  apply not_true_iff_false. intros E%str_eqb_true. by apply (inj Z_to_str) in E.
Qed.

(** taking a toast off the screen takes off every toast shown in the same
    millisecond, and no other: the rest stay, in their order. *)
Theorem toasts_share_milliseconds now t l :
  pr_toasts (removeToast now (id_at t) (shown l)) = entry <$> List.filter (λ x, negb (x.1 =? t)%Z) l.
Proof.
  cbn [removeToast pr_toasts]. rewrite shown_toasts. induction l as [|x l IH]; [done|].
  cbn [fmap list_fmap List.filter]. unfold entry at 1. cbn [to_id]. rewrite id_at_eqb, IH.
  by destruct (x.1 =? t)%Z.
Qed.

(** No close button is pressed, and whatever happens comes less than [d] milliseconds after the
    latest toast, where every toast has at least the duration [d]. *)
Fixpoint steady (d rendered : Z) (es : list (Z * event)) : Prop :=
  match es with
  | [] => True
  | (now, Show p) :: es' => (d ≤ duration_of p)%Z ∧ (now < rendered + d)%Z ∧ steady d now es'
  | (now, Close _) :: _ => False
  | (now, _) :: es' => (now < rendered + d)%Z ∧ steady d rendered es'
  end.

Definition shown_in (es : list (Z * event)) : list toast :=
  omap (λ e, match e.2 with Show p => Some (MkToast (id_at e.1) p false) | _ => None end) es.

Definition lasting (d : Z) (t : toast) : Prop := to_closing t = false ∧ (d ≤ duration_of (to_props t))%Z.

Lemma lasting_steps d s es : Forall (lasting d) (pr_toasts s) → steady d (pr_rendered s) es →
  pr_toasts (run es s) = pr_toasts s ++ shown_in es.
Proof.
  unfold run. revert s. induction es as [|[now e] es IH]; intros s Ha Hs; [by rewrite app_nil_r|].
  cbn [foldl fst snd]. destruct e as [p|k|k|k]; [|..|done|]; cbn [steady] in Hs.
  - destruct Hs as (Hp & Hn & Hs). rewrite IH; cbn [step add_toast pr_toasts pr_rendered shown_in omap list_omap].
    + by rewrite <-app_assoc.
    + apply Forall_app. split; [done|]. by constructor.
    + done.
  - destruct Hs as [Hn Hs].
    enough (step now (Timer k) s = s) as -> by by apply IH.
    cbn [step]. destruct (pr_toasts s !! k) as [t|] eqn:Ek; [|done].
    destruct (Forall_lookup_1 _ _ _ _ Ha Ek) as [_ Hd]. unfold due.
    assert ((pr_rendered s + duration_of (to_props t) <=? now)%Z = false) as -> by lia. done.
  - destruct Hs as [Hn Hs].
    enough (step now (Faded k) s = s) as -> by by apply IH.
    cbn [step]. destruct (pr_toasts s !! k) as [t|] eqn:Ek; [|done].
    destruct (Forall_lookup_1 _ _ _ _ Ha Ek) as [Hc _]. by rewrite Hc.
Qed.

(** while new toasts keep coming sooner than the shortest duration after the one
    before, no toast ever leaves by itself: they pile up in the order they were shown, because each
    new toast starts the timers of all the others again. *)
Theorem steady_toasts_pile_up d s es : Forall (lasting d) (pr_toasts s) → steady d (pr_rendered s) es →
  pr_toasts (run es s) = pr_toasts s ++ shown_in es.
Proof. apply lasting_steps. Qed.

(** once a toast is due, its timer and the end of its animation take it off the
    screen, together with those of the same millisecond only. *)
Theorem due_toast_leaves s k t now fade : pr_toasts s !! k = Some t → (due s t ≤ now)%Z → (0 ≤ fade)%Z →
  let s' := run [(now, Timer k); (now + fade, Faded k)%Z] s in
  pr_rendered s' = (now + fade)%Z ∧ (∀ u, u ∈ pr_toasts s' → to_id u ≠ to_id t) ∧
  ∀ u, u ∈ pr_toasts s → to_id u ≠ to_id t → u ∈ pr_toasts s'.
Proof.
  intros Ek Hd Hf. cbv zeta. unfold run. cbn [foldl fst snd step]. rewrite Ek. apply Z.leb_le in Hd as ->.
  assert (Eh : pr_toasts (hide_at k s) !! k = Some (hideToast t)) by (cbn [hide_at pr_toasts]; by rewrite list_lookup_alter_eq, Ek).
  rewrite Eh. cbn [hideToast to_closing removeToast pr_toasts pr_rendered to_id hide_at].
  split; [done|]. split.
  - intros u Hu%list_elem_of_In%filter_In. destruct Hu as [_ Hu]. intros E. apply negb_true_iff in Hu.
    by rewrite (proj2 (str_eqb_true _ _) E) in Hu.
  - intros u Hu Hn. apply list_elem_of_In, filter_In. split.
    + apply list_elem_of_In. apply list_elem_of_lookup in Hu as [j Hj]. apply list_elem_of_lookup. exists j.
      rewrite list_lookup_alter_ne; [done|]. intros ->. congruence.
    + apply negb_true_iff, not_true_iff_false. by intros E%str_eqb_true.
Qed.
End Toasts.

(** ** Concrete runs *)

Module Runs.
#[local] Existing Instance ascii_case.
#[local] Instance default_env : ApiEnv := None.
#[local] Existing Instance Notifications.Runs.demo_expo.
#[local] Existing Instance Notifications.Runs.demo_laws.

Example compared : Versions.compareVersions (js "1.10.0") (js "1.9") = 1%Z ∧
  Versions.compareVersions (js "2") (js "2.0.0") = 0%Z ∧
  Versions.compareVersions (js "1.0.0-beta") (js "1.0.1") = (-1)%Z ∧ Versions.dotted [1; 10; 0]%N = js "1.10.0".
Proof. vm_compute. by repeat split. Qed.

Lemma version_order_exact_witness :
  Versions.compareVersions (Versions.dotted [1; 9]%N) (Versions.dotted [1; 10; 0]%N) = (-1)%Z.
Proof.
  apply (proj1 Versions.version_order_exact [1; 9]%N [1; 10; 0]%N); [discriminate|discriminate|repeat constructor..].
Defined.

Definition config_answer : scripted :=
  world [] [reply 200 (stringify (JObj [(js "minimum_required_version", JStr (js "2.1"))]))].

Lemma update_gate_witness : ∃ g' w' r,
  Versions.checkMinimumVersion true (Some (js "1.4.0")) false (Versions.initial_gate true, config_answer) = (Ok tt, (g', w')) ∧
  fetch Versions.config_request config_answer = (r, w') ∧
  (g' = Versions.initial_gate true ∨
   ∃ response config required, r = Ok response ∧ rs_ok response = true ∧
     json_parse (rs_body response) = Some config ∧ Versions.required_version config = JStr required ∧
     Versions.compareVersions (js "1.4.0") required = (-1)%Z ∧ false = false ∧
     g' = Versions.Gate true (Versions.store_url true config)).
Proof. apply (Versions.update_gate true (Some (js "1.4.0")) false). Defined.

Example gate_closes :
  (Versions.checkMinimumVersion true (Some (js "1.4.0")) false (Versions.initial_gate true, config_answer)).2.1 =
    Versions.Gate true (JStr Versions.IOS_STORE_URL).
Proof. vm_compute. reflexivity. Qed.

#[local] Instance one_claim : LinkParser := λ url,
  if str_eqb url (js "zaps://claim/abc-123") then Some (MkParsedURL (Some (js "claim")) (Some (js "abc-123")) []) else None.

Lemma links_open_claims_only_witness : ∃ routes,
  Launch.links [Some (js "zaps://claim/abc-123"); None] ([], tt) = (Ok tt, ([] ++ routes, tt)) ∧
  Forall Launch.claim_route routes ∧ length routes ≤ 2 ∧
  ∀ url token, url ∈ [Some (js "zaps://claim/abc-123"); None] → parseSdpClaimUrl url = Ok (ClaimToken token) →
    js "/claim/" ++ token ∈ routes.
Proof. apply (Launch.links_open_claims_only [Some (js "zaps://claim/abc-123"); None] [] tt). Defined.

Lemma cold_start_quiet_witness :
  (∀ dialog, @Launch.setupNotifications scripted _ (Launch.with_dialog _ dialog) _ (ApiState false 0, Notifications.Runs.demo_world) =
     Launch.setupNotifications (ApiState false 0, Notifications.Runs.demo_world)) ∧
  ∃ out s' w', Launch.setupNotifications (ApiState false 0, Notifications.Runs.demo_world) = (out, (s', w')) ∧
    ((push_token w' = push_token Notifications.Runs.demo_world ∧ net_trace w' = net_trace Notifications.Runs.demo_world) ∨
     (st_peek Notifications.Runs.demo_world AsyncStorage NOTIFICATION_PREFERENCE_KEY ≠ Some (js "false") ∧
      isDevice (W := scripted) = true ∧
      ∃ w2 token, kept Notifications.Runs.demo_world w2 ∧ registered w2 w' token)).
Proof.
  apply (Launch.cold_start_quiet (ApiState false 0) Notifications.Runs.demo_world); [reflexivity|].
  intros w. by cbn.
Defined.

Definition toast_at (t : Z) : Z * Toasts.event := (t, Toasts.Show (Toasts.MkProps (js "Saved") (Some Toasts.success) None None)).
Definition stream : list (Z * Toasts.event) :=
  [toast_at 1000; (2500, Toasts.Timer 0); toast_at 3500; (4200, Toasts.Timer 0); (4300, Toasts.Faded 0); toast_at 6400]%Z.

(** The first toast is on screen after 5.4 seconds. *)
Lemma steady_toasts_pile_up_witness :
  Toasts.pr_toasts (Toasts.run stream (Toasts.mounted 0)) = Toasts.shown_in stream ∧ length (Toasts.shown_in stream) = 3.
Proof.
  split; [|reflexivity]. apply (Toasts.steady_toasts_pile_up 3000 (Toasts.mounted 0) stream); [constructor|].
  cbn. repeat split; try reflexivity; discriminate.
Defined.

Lemma due_toast_leaves_witness :
  let s := Toasts.run [toast_at 1000; toast_at 1000; toast_at 3500]%Z (Toasts.mounted 0) in
  let s' := Toasts.run [(6500, Toasts.Timer 0); (6500 + 300, Toasts.Faded 0)]%Z s in
  Toasts.pr_rendered s' = (6500 + 300)%Z ∧
  (∀ u, u ∈ Toasts.pr_toasts s' → Toasts.to_id u ≠ js "1000") ∧
  ∀ u, u ∈ Toasts.pr_toasts s → Toasts.to_id u ≠ js "1000" → u ∈ Toasts.pr_toasts s'.
Proof.
  cbv zeta. apply (Toasts.due_toast_leaves _ 0 (Toasts.MkToast (js "1000") (Toasts.MkProps (js "Saved") (Some Toasts.success) None None) false));
    [reflexivity|vm_compute; discriminate|discriminate].
Defined.
End Runs.
