(* ===== verification/TapToPay.v ===== *)
(** * Tap to pay

    Model of [mobileapp/src/services/nfcTapToPay.ts] and [mobileapp/app/tap-to-pay.tsx]: the payment
    link written for a terminal (module Payload), the reading of a tag (Scan) and the steps of the
    screen (Screen). react-native-nfc-manager and the global [Buffer], which the service does not
    import, are parameters. *)

From S2P Require Import Prelude JsString JsNumber JsRound UriCodec Json Effects Decode Scripts Sep0007.

(** ** The payload *)

Module Payload.
Record NfcPaymentPayload := MkPayload {
  np_destination : str; np_amount : str; np_assetCode : option str; np_assetIssuer : option str }.

(** [/^\d+(?:\.\d+)?$/] *)
Definition plain_decimal (s : str) : bool :=
  let '(ip, r) := span is_digit s in
  truthy ip && match r with [] => true | 46%N :: fp => truthy fp && forallb is_digit fp | _ => false end.

Definition amount_valid (amount : str) : bool := plain_decimal amount && negb (num_leb (Number amount) (Fin 0 0)).

(** The entries that pass [filter(Boolean)] are those whose text is not empty. *)
Definition nfc_entries (p : NfcPaymentPayload) : list (str * option str) :=
  [(js "address", Some (trim (np_destination p))); (js "amount", Some (np_amount p));
   (js "asset_code", np_assetCode p); (js "asset_issuer", np_assetIssuer p)].

(** The link of [formatNfcPaymentPayload]; its NDEF bytes are made by the NFC library. *)
Definition formatNfcPaymentPayload (p : NfcPaymentPayload) : res str :=
  if negb (truthy (trim (np_destination p))) then Throw (new_error (js "A destination is required"))
  else if negb (amount_valid (np_amount p)) then Throw (new_error (js "Amount must be a positive decimal"))
  else
    match pay_parts (nfc_entries p) with
    | Some parts => Ok (js "zaps://pay?" ++ join (js "&") parts)
    | None => Throw uri_error
    end.

(** *** Properties *)

(** The platform's URL reader on a query of unreserved and escaped units: the pairs of its parts. *)
Class UrlLaws `{UrlParser} := url_reads : ∀ parts raw,
  parts ≠ [] → Forall (λ s, forallb query_unit s = true) parts → Forall (λ s, 38%N ∉ s) parts → raw_params parts = Some raw →
  url_search_params (js "https://placeholder/pay?" ++ join [38%N] parts) = Some raw.

Lemma plain_decimal_spec s : plain_decimal s = true → ∃ ip fp,
  Forall (λ c, is_digit c = true) ip ∧ Forall (λ c, is_digit c = true) fp ∧ ip ≠ [] ∧
  ((s = ip ∧ fp = []) ∨ (s = ip ++ 46%N :: fp ∧ fp ≠ [])).
Proof.
  unfold plain_decimal. pose proof (span_join is_digit s) as J. pose proof (span_forall is_digit s) as F.
  destruct (span is_digit s) as [ip r]. cbn in F. intros [Ht Hr]%andb_true_iff. apply truthy_true in Ht.
  destruct r as [|c fp].
  - exists ip, []. rewrite app_nil_r in J. split; [done|]. split; [constructor|]. split; [done|]. by left.
  - destruct (decide (c = 46%N)) as [->|Hc]; [|exfalso; revert Hr; repeat case_match; congruence].
    apply andb_true_iff in Hr as [Hf Hd]. apply truthy_true in Hf.
    exists ip, fp. split; [done|]. split; [|split; [done|by right]].
    rewrite forallb_forall in Hd. apply Forall_forall. intros x Hx. apply Hd. by apply list_elem_of_In.
Qed.

Lemma plain_decimal_parses s : plain_decimal s = true → ∃ v, parse_decimal s = Some (v, []) ∧
  Forall (λ c, is_ws c = false) s ∧ Number s = v.
Proof.
  intros (ip & fp & Hi & Hf & Hne & [[-> ->]|[-> Hfe]])%plain_decimal_spec.
  - eexists. split; [by apply parse_decimal_digits|]. split.
    + eapply Forall_impl; [exact Hi|apply is_digit_not_ws].
    + by apply Number_digits.
  - eexists. split; [by apply parse_decimal_point|]. split; [|by apply Number_point].
    apply Forall_app. split; [eapply Forall_impl; [exact Hi|apply is_digit_not_ws]|].
    constructor; [done|]. eapply Forall_impl; [exact Hf|apply is_digit_not_ws].
Qed.

Lemma leb_ltb x y : is_nan x = false → is_nan y = false → num_leb x y = false → num_ltb x y = false.
Proof. destruct x as [|[]|m e], y as [|[]|m' e']; try done. cbn. lia. Qed.

Lemma num_of_Z_not_nan z : is_nan (num_of_Z z) = false.
Proof. apply round_ratio_not_nan. Qed.

Lemma dec_value_not_nan b m e : is_nan (dec_value b m e) = false.
Proof. unfold dec_value. cbv zeta. destruct (0 <=? e)%Z; apply round_ratio_not_nan. Qed.

Lemma plain_not_nan s : plain_decimal s = true → is_nan (Number s) = false.
Proof.
  intros (ip & fp & Hi & Hf & Hne & [[-> ->]|[-> Hfe]])%plain_decimal_spec.
  - rewrite Number_digits by done. apply num_of_Z_not_nan.
  - rewrite Number_point by done. apply dec_value_not_nan.
Qed.

Lemma amount_valid_ok amount : amount_valid amount = true →
  amount_ok amount = true ∧ num_ltb (Fin 0 0) (Number amount) = true ∧ parseFloat amount = Number amount ∧
  Forall (λ c, is_ws c = false) amount ∧ amount ≠ [].
Proof.
  unfold amount_valid. intros [Hp Hn%negb_true_iff]%andb_true_iff. pose proof (plain_not_nan _ Hp) as Hnan.
  assert (amount ≠ []) as Hne by by intros ->.
  destruct (plain_decimal_parses _ Hp) as (v & Ep & Hw & Ev).
  assert (Ef : parseFloat amount = Number amount).
  { unfold parseFloat, trim_start. rewrite drop_while_id; [by rewrite Ep|].
    intros c t ->. by apply Forall_cons in Hw as [? _]. }
  split; [|split; [|done]].
  - unfold amount_ok. rewrite Ef, Hnan. cbn [orb]. by rewrite (leb_ltb _ (Fin 0 0) Hnan eq_refl Hn).
  - revert Hn Hnan. destruct (Number amount) as [|[]|m e]; cbn; try done. lia.
Qed.

Lemma search_get_written k es : NoDup (es.*1) → search_get k (written es) = entry_get k es.
Proof.
  induction es as [|[k' o] es IH]; [done|]. intros [Hk Hnd]%NoDup_cons. cbn [fst] in Hk. cbn [entry_get fst snd].
  destruct o as [v|].
  - change (written ((k', Some v) :: es)) with ((k', v) :: written es). unfold search_get. cbn [find fst].
    destruct (str_eqb k k'); [done|]. exact (IH Hnd).
  - change (written ((k', None) :: es)) with (written es). rewrite (IH Hnd).
    destruct (str_eqb k k') eqn:E; [|done]. apply str_eqb_true in E as ->.
    clear -Hk. induction es as [|e es IH]; [done|]. apply not_elem_of_cons in Hk as [Hne Hk]. cbn [entry_get].
    by rewrite (proj2 (str_eqb_false _ _) Hne), IH.
Qed.

(** The payloads whose texts survive the writing. *)
Record payload_ok (p : NfcPaymentPayload) : Prop := PayloadOk {
  po_destination : isValidStellarDestination (trim (np_destination p)) = true;
  po_text : text_ok (trim (np_destination p));
  po_amount : amount_valid (np_amount p) = true;
  po_code : opt_ok (np_assetCode p);
  po_issuer : opt_ok (np_assetIssuer p);
}.

Lemma unreserved_digit c : is_digit c = true → uri_unreserved c = true.
Proof. unfold uri_unreserved. intros ->. by rewrite orb_true_r. Qed.

Lemma amount_text_ok amount : amount_valid amount = true → text_ok amount.
Proof.
  intros Ha. destruct (amount_valid_ok _ Ha) as (_ & _ & _ & _ & Hne). split; [done|].
  apply andb_true_iff in Ha as [(ip & fp & Hi & Hf & _ & Hs)%plain_decimal_spec _].
  assert (Hd : Forall (λ c, is_digit c = true ∨ c = 46%N) amount).
  { destruct Hs as [[-> _]|[-> _]]; [|apply Forall_app; split; [|constructor; [by right|]]];
      (eapply Forall_impl; [eassumption|by left]). }
  split.
  - eapply Forall_impl; [exact Hd|]. intros c [Hc| ->]; [|done]. apply andb_true_iff in Hc as [_ Hc%N.leb_le]. change (c < 65536)%N. lia.
  - rewrite encode_unreserved; [done|]. apply forallb_forall. intros c Hc%list_elem_of_In.
    rewrite Forall_forall in Hd. destruct (Hd c Hc) as [H| ->]; [by apply unreserved_digit|done].
Qed.

Section RoundTrip.
Context `{UrlLaws}.

Lemma nfc_entries_plain p : payload_ok p → Forall (λ e, plain_key e.1 ∧ opt_ok e.2) (nfc_entries p).
Proof.
  intros [_ Ht Ha Hc Hi]. apply amount_text_ok in Ha. unfold nfc_entries.
  assert (K : Forall plain_key [js "address"; js "amount"; js "asset_code"; js "asset_issuer"]).
  { repeat apply Forall_cons_2; [split; [|split]; vm_compute; reflexivity..|constructor]. }
  rewrite !Forall_cons in K. destruct K as (K1 & K2 & K3 & K4 & _).
  repeat apply Forall_cons_2; [done..|constructor].
Qed.

Lemma query_text_trim q : forallb query_unit q = true → trim (js "zaps://pay?" ++ q) = js "zaps://pay?" ++ q.
Proof.
  intros Hq. apply trim_id_forall, Forall_app. split; [by vm_compute; repeat constructor|].
  apply Forall_forall. intros c Hc. rewrite forallb_forall in Hq. apply query_unit_not_ws, Hq. by apply list_elem_of_In.
Qed.

Lemma parse_zaps_query q : forallb query_unit q = true →
  parseZapsPayUri (js "zaps://pay?" ++ q) =
    match url_search_params (js "https://placeholder/pay?" ++ q) with
    | None => ParseError (js "Malformed zaps URI")
    | Some ps => zaps_result ps
    end.
Proof.
  intros Hq. unfold parseZapsPayUri. cbv zeta. rewrite (query_text_trim q Hq).
  change (truthy (js "zaps://pay?" ++ q)) with true. cbn [negb].
  change (starts_with (js "zaps://") (js "zaps://pay?" ++ q)) with true. cbn [negb].
  by change (js "https://placeholder/" ++ drop 7 (js "zaps://pay?" ++ q)) with (js "https://placeholder/pay?" ++ q).
Qed.

Lemma nfc_keys p : NoDup ((nfc_entries p).*1).
Proof. change ((nfc_entries p).*1) with [js "address"; js "amount"; js "asset_code"; js "asset_issuer"]. solve_keys. Qed.

Lemma written_nfc p : payload_ok p →
  zaps_result (written (nfc_entries p)) =
    ValidPay (MkPay (trim (np_destination p)) (Some (np_amount p)) (np_assetCode p) (np_assetIssuer p)
      None None None None None None None).
Proof.
  intros [Hd Ht Ha Hc Hi]. destruct (amount_valid_ok _ Ha) as (Ho & _).
  unfold zaps_result. rewrite !search_get_written by (apply nfc_keys).
  destruct p as [d am ac ai]. cbn [np_destination np_amount np_assetCode np_assetIssuer] in *.
  set (dest := trim d) in *.
  change (entry_get (js "address") (nfc_entries (MkPayload d am ac ai))) with (Some dest).
  change (entry_get (js "amount") (nfc_entries (MkPayload d am ac ai))) with (Some am).
  change (entry_get (js "asset_code") (nfc_entries (MkPayload d am ac ai))) with ac.
  change (entry_get (js "asset_issuer") (nfc_entries (MkPayload d am ac ai))) with ai.
  change (entry_get (js "memo") (nfc_entries (MkPayload d am ac ai))) with (@None str).
  change (entry_get (js "msg") (nfc_entries (MkPayload d am ac ai))) with (@None str).
  change (entry_get (js "origin_domain") (nfc_entries (MkPayload d am ac ai))) with (@None str).
  rewrite (given_ok ac Hc), (given_ok ai Hi). assert (truthy dest = true) as Htd by (apply truthy_true, Ht).
  assert (given (or_str (Some dest) None) = Some dest) as Eg by (unfold given, or_str, truthy_opt; by rewrite !Htd).
  change (entry_get (js "destination") (nfc_entries (MkPayload d am ac ai))) with (@None str). rewrite Eg.
  cbv zeta. rewrite Hd. cbn [negb]. by rewrite Ho.
Qed.

(** for a payload with a Stellar destination and an amount the formatter takes, the
    link is written, and both parsers read from it the trimmed destination, the amount as it was
    typed and the asset: what is written for a terminal is what a Zaps reader pays. *)
Theorem nfc_payload_reads_back p : payload_ok p → ∃ uri,
  formatNfcPaymentPayload p = Ok uri ∧ detectQrContentType uri = QrZapsPay ∧
  let pay := ValidPay (MkPay (trim (np_destination p)) (Some (np_amount p)) (np_assetCode p) (np_assetIssuer p)
      None None None None None None None) in
  parseZapsPayUri uri = pay ∧ parseSep0007Uri uri = Ok pay.
Proof.
  intros Hp. destruct (pay_parts_spec (nfc_entries p) (nfc_entries_plain p Hp)) as (parts & Ep & Er & F1 & F2 & Hne).
  assert (Hparts : parts ≠ []) by by apply Hne.
  assert (Hq : forallb query_unit (join [38%N] parts) = true) by by apply join_query.
  exists (js "zaps://pay?" ++ join [38%N] parts). split.
  { unfold formatNfcPaymentPayload. destruct Hp as [_ [Ht _] Ha _ _]. rewrite (proj2 (truthy_true _) Ht), Ha. cbn [negb].
    by rewrite Ep. }
  split.
  { unfold detectQrContentType. change (truthy (js "zaps://pay?" ++ join [38%N] parts)) with true. cbn [negb].
    change (starts_with (js "web+stellar:") (js "zaps://pay?" ++ join [38%N] parts)) with false.
    unfold isZapsPayUri. by rewrite (query_text_trim _ Hq). }
  cbv zeta. assert (E : parseZapsPayUri (js "zaps://pay?" ++ join [38%N] parts) = zaps_result (written (nfc_entries p))).
  { rewrite parse_zaps_query by done. by rewrite (url_reads parts _ Hparts F2 F1 Er). }
  rewrite written_nfc in E by done. split; [done|].
  unfold parseSep0007Uri. change (truthy (js "zaps://pay?" ++ join [38%N] parts)) with true. cbn [negb].
  rewrite (query_text_trim _ Hq). change (starts_with (js "zaps://") (js "zaps://pay?" ++ join [38%N] parts)) with true.
  by rewrite E.
Qed.
End RoundTrip.

(** what the formatter takes: some text that is not blank and a decimal above zero
    without sign or exponent; then the number read from the amount is positive. *)
Theorem format_takes p :
  (∀ uri, formatNfcPaymentPayload p = Ok uri →
     trim (np_destination p) ≠ [] ∧ num_ltb (Fin 0 0) (Number (np_amount p)) = true ∧
     parseFloat (np_amount p) = Number (np_amount p)) ∧
  (trim (np_destination p) = [] → formatNfcPaymentPayload p = Throw (new_error (js "A destination is required"))) ∧
  (trim (np_destination p) ≠ [] → amount_valid (np_amount p) = false →
     formatNfcPaymentPayload p = Throw (new_error (js "Amount must be a positive decimal"))).
Proof.
  unfold formatNfcPaymentPayload. split; [|split].
  - intros uri. destruct (truthy (trim (np_destination p))) eqn:Et; [|done]. cbn [negb].
    destruct (amount_valid (np_amount p)) eqn:Ea; [|done]. intros _. apply truthy_true in Et.
    destruct (amount_valid_ok _ Ea) as (_ & Hn & Hp & _). done.
  - by intros ->.
  - intros Hd Ha. by rewrite (proj2 (truthy_true _) Hd), Ha.
Qed.
End Payload.

(** ** Reading a tag *)

Module Scan.
(** What settles the race: the first tag (an object), the refusal of the technology request, or the timer. *)
Inductive scan_event := TagDiscovered (tag : list (str * json)) | RequestRejected (e : js_error) | TimedOut.

(** react-native-nfc-manager; [nfc_first] waits for the race. *)
Class NfcManager (W : Type) := {
  nfc_start : M W unit;
  nfc_isSupported : M W bool;
  nfc_isEnabled : M W bool;
  nfc_listen : M W unit;
  nfc_first : M W scan_event;
  nfc_cancel : M W unit;
  nfc_unlisten : M W unit;
}.

(** [Buffer.from(payload).toString("utf8")], when there is a global [Buffer]. *)
Class GlobalBuffer := buffer_utf8 : option (list json → str).

Definition reference_error : js_error := new_error (js "Buffer is not defined").

(** [tag?.k] *)
Definition tag_field (k : str) (tag : json) : option json := json_get k tag.

(** The text of the first record, before trimming. *)
Definition first_payload `{GlobalBuffer} (tag : json) : res str :=
  match tag_field (js "ndefMessage") tag with
  | Some (JArr (record :: _)) =>
      match tag_field (js "payload") record with
      | Some (JArr bytes) => match buffer_utf8 with Some f => Ok (f bytes) | None => Throw reference_error end
      | Some (JStr s) => Ok s
      | _ => Ok []
      end
  | _ => Ok []
  end.

Definition tech_payload (tag : json) : str :=
  match tag_field (js "id") tag with Some (JStr id) => id | _ => [] end.

Definition raw_of_tag `{GlobalBuffer} (tag : json) : res str :=
  match first_payload tag with
  | Throw e => Throw e
  | Ok text =>
      let raw := trim text in
      if truthy raw then Ok raw
      else Ok (if truthy (tech_payload tag) then tech_payload tag else stringify tag)
  end.

Section Reader.
Context `{NfcManager W, GlobalBuffer}.

Definition scan_race (timeoutMs : Z) : M W str :=
  nfc_listen;;
  event ← nfc_first;
  match event with
  | TagDiscovered tag => swallow nfc_cancel;; of_res (raw_of_tag (JObj tag))
  | RequestRejected e => throw e
  | TimedOut => throw (new_error (js "NFC scan timed out after " ++ Z_to_str timeoutMs ++ js "ms"))
  end.

Definition scan_body (timeoutMs : Z) : M W str :=
  hasNfc ← nfc_isSupported;
  if negb hasNfc then throw (new_error (js "NFC is not supported on this device"))
  else
    isEnabled ← nfc_isEnabled;
    if negb isEnabled then throw (new_error (js "NFC is disabled. Please enable NFC"))
    else scan_race timeoutMs.

Definition scan_cleanup : M W unit := swallow nfc_cancel;; swallow nfc_unlisten.

(** [try { return await body } finally { ... }] *)
Definition scanNfcTag (timeoutMs : Z) : M W str :=
  nfc_start;;
  try_finally (scan_body timeoutMs) (λ w, (scan_cleanup w).2).
End Reader.

(** *** Properties *)

Section ReaderSpec.
Context `{NfcManager W, GlobalBuffer}.

Lemma raw_nonempty tag raw : raw_of_tag (JObj tag) = Ok raw → raw ≠ [].
Proof.
  unfold raw_of_tag. destruct (first_payload (JObj tag)) as [text|]; [|done]. cbv zeta.
  destruct (truthy (trim text)) eqn:E1; [intros [= <-]; by apply truthy_true|].
  destruct (truthy (tech_payload (JObj tag))) eqn:E2; intros [= <-]; [by apply truthy_true|done].
Qed.

(** however a scan ends once the manager has started (a tag, a refusal, the timer,
    no NFC, NFC switched off), the technology request is cancelled and the listener replaced as the
    last two calls; and an answer is the non-empty text of a tag that was found. *)
Theorem scan_cleans_up timeoutMs w w0 : nfc_start w = (Ok tt, w0) → ∃ r w1,
  scan_body timeoutMs w0 = (r, w1) ∧
  scanNfcTag timeoutMs w = (r, (swallow nfc_unlisten (swallow nfc_cancel w1).2).2) ∧
  ∀ raw, r = Ok raw → raw ≠ [] ∧ ∃ tag wa wb, nfc_first wa = (Ok (TagDiscovered tag), wb) ∧ raw_of_tag (JObj tag) = Ok raw.
Proof.
  intros Es. destruct (scan_body timeoutMs w0) as [r w1] eqn:Eb. exists r, w1. split; [done|]. split.
  - unfold scanNfcTag. rewrite (run_bind_ok _ _ _ _ _ Es). unfold try_finally. rewrite Eb. f_equal.
    unfold scan_cleanup. destruct (swallow_ok nfc_cancel w1) as (w2 & E2 & _). by rewrite (run_bind_ok _ _ _ _ _ E2), E2.
  - intros raw ->. revert Eb. unfold scan_body. rewrite run_bind. destruct (nfc_isSupported w0) as [[[]|] w2]; [|done..]. cbn [negb].
    rewrite run_bind. destruct (nfc_isEnabled w2) as [[[]|] w3]; [|done..]. cbn [negb].
    unfold scan_race. rewrite run_bind. destruct (nfc_listen w3) as [[[]|] w4]; [|done].
    rewrite run_bind. destruct (nfc_first w4) as [[[tag|e|]|] w5] eqn:Ef; [|done..].
    destruct (swallow_ok nfc_cancel w5) as (w6 & E6 & _). rewrite (run_bind_ok _ _ _ _ _ E6). unfold of_res.
    intros [= Er _]. split; [by eapply raw_nonempty|]. by exists tag, w4, w5.
Qed.

(** the bytes of a record are never a payment: without a global [Buffer] the scan
    rejects, and with one the text starts with the record's own first byte (the identifier code of a
    URI record, the status byte of a text record), so that the parser knows no scheme in it. The link
    the service itself writes in a URI record (whose first byte is 0) is among them. *)
Theorem byte_records_never_pay `{UrlParser} tag record records bytes :
  json_get (js "ndefMessage") tag = Some (JArr (record :: records)) →
  json_get (js "payload") record = Some (JArr bytes) →
  (buffer_utf8 = None → raw_of_tag tag = Throw reference_error) ∧
  ∀ f c text, buffer_utf8 = Some f → f bytes = c :: text → is_ws c = false → c ≠ 119%N → c ≠ 122%N →
    ∃ raw, raw_of_tag tag = Ok raw ∧
      parseSep0007Uri raw = Ok (ParseError (js "Not a SEP-0007 URI (missing web+stellar: scheme)")).
Proof.
  intros E1 E2. unfold raw_of_tag, first_payload, tag_field. rewrite E1, E2. split; [by intros ->|].
  intros f c text -> Ef Hws Hw Hz. rewrite Ef. cbv zeta. destruct (trim_head c text Hws) as (t & Et).
  rewrite Et. cbn [truthy]. eexists. split; [done|]. unfold parseSep0007Uri. cbn [truthy negb].
  destruct (trim_head c t Hws) as (t' & ->).
  change (js "zaps://") with (122%N :: js "aps://"). change (js "web+stellar:") with (119%N :: js "eb+stellar:").
  cbn [starts_with]. destruct (N.eqb_spec 122 c); [congruence|]. destruct (N.eqb_spec 119 c); [congruence|]. done.
Qed.
End ReaderSpec.
End Scan.

(** ** The screen *)

Module Screen.
Inductive Step := ready | searching | terminalFound | transfer | confirm | success.
#[export] Instance Step_eq_dec : EqDecision Step. Proof. solve_decision. Defined.

(** Identifier, symbol, balance and value of [TOKENS]. *)
Definition TOKENS : list (str * str * str * str) :=
  [(js "xlm", js "XLM", js "100.00", js "125.32"); (js "usdt", js "USDT", js "100.00", js "100");
   (js "usdc", js "USDC", js "100.00", js "100")].
Definition MERCHANT_NAME : str := js "Ebube One".
Definition CONFIRM_AMOUNT : str := js "$100".

(** The state of the screen, and the route it was left for. *)
Inductive exit := ExitBack | ExitReplace (route : str).
Record screen := MkScreen {
  sn_step : Step; sn_amount : str; sn_selectedToken : str; sn_destination : option str;
  sn_nfcError : option str; sn_isScanning : bool; sn_exit : option exit }.
Definition opened : screen := MkScreen ready [] (js "xlm") None None false None.

Definition set_step (st : Step) (s : screen) : screen :=
  MkScreen st (sn_amount s) (sn_selectedToken s) (sn_destination s) (sn_nfcError s) (sn_isScanning s) (sn_exit s).
Definition leave (e : exit) (s : screen) : screen :=
  MkScreen (sn_step s) (sn_amount s) (sn_selectedToken s) (sn_destination s) (sn_nfcError s) (sn_isScanning s) (Some e).
Definition set_nfc (destination error : option str) (scanning : bool) (s : screen) : screen :=
  MkScreen (sn_step s) (sn_amount s) (sn_selectedToken s) destination error scanning (sn_exit s).

Definition home : exit := ExitReplace (js "/(personal)/home").

Definition goNext (s : screen) : screen :=
  match sn_step s with
  | ready => set_step searching s
  | searching => set_step terminalFound s
  | transfer => set_step confirm s
  | confirm => set_step success s
  | success => leave home s
  | terminalFound => s
  end.

Definition handleBack (s : screen) : screen :=
  match sn_step s with
  | ready => leave ExitBack s
  | success => leave home s
  | transfer | confirm => set_step terminalFound s
  | terminalFound => set_step searching s
  | searching => set_step ready s
  end.

Definition showBack (s : screen) : bool := bool_decide (sn_step s ≠ success).

Definition headerTitle (s : screen) : str :=
  match sn_step s with
  | success => js "Success" | confirm => js "Confirm Payment" | transfer => js "Transfer" | _ => js "Tap to Pay"
  end.

(** The amount the screen states. *)
Definition stated_amount (s : screen) : option str :=
  match sn_step s with confirm | success => Some CONFIRM_AMOUNT | _ => None end.

(** The button under the content: its title, whether it can be pressed, and what it does. *)
Record footer := MkFooter { ft_title : str; ft_disabled : bool; ft_press : screen → screen }.
Definition footerButton (s : screen) : footer :=
  match sn_step s with
  | ready => MkFooter (js "Continue") false goNext
  | searching | terminalFound => MkFooter (js "Scan instead") false (leave (ExitReplace (js "/scan")))
  | transfer => MkFooter (js "Transfer") (negb (truthy (sn_amount s))) goNext
  | confirm => MkFooter (js "Transfer") false goNext
  | success => MkFooter (js "Done") false goNext
  end.

(** The effect of the [terminalFound] step, before the scan and when it has settled; [cancelled]: the
    step has changed or the screen was left since. *)
Definition scan_starts (s : screen) : screen := set_nfc (sn_destination s) None true s.

Definition scan_verdict `{UrlParser} (scanned : res str) : res str :=
  match scanned with
  | Throw e => Throw e
  | Ok raw =>
      match parseSep0007Uri raw with
      | Throw e => Throw e
      | Ok (ParseError error) => Throw (new_error error)
      | Ok (ValidTx _) => Throw (new_error (quoted (js "Only SEP-0007 ") (js "pay") ++ js " is supported for tap-to-pay"))
      | Ok (ValidPay p) => Ok (pp_destination p)
      end
  end.

Definition scan_settled `{UrlParser} (cancelled : bool) (scanned : res str) (s : screen) : screen :=
  if cancelled then s
  else
    match scan_verdict scanned with
    | Ok destination => set_step transfer (set_nfc (Some destination) (sn_nfcError s) false s)
    | Throw e => set_step terminalFound (set_nfc (sn_destination s) (Some (err_message e)) false s)
    end.

(** What can happen to the screen: the button, the back arrow, typing and choosing on the transfer
    step, and the scan, which runs on the [terminalFound] step only ([cancelled]: that step was left
    after the scan began, even if it was entered again). *)
Inductive event :=
  | Press | Back | Type_ (text : str) | Choose (token : str) | ScanStarts | ScanSettles (cancelled : bool) (scanned : res str).

Definition editable (s : screen) : bool := bool_decide (sn_step s = transfer).

Definition step `{UrlParser} (e : event) (s : screen) : screen :=
  match sn_exit s with
  | Some _ => s
  | None =>
      match e with
      | Press => let b := footerButton s in if ft_disabled b then s else ft_press b s
      | Back => if showBack s then handleBack s else s
      | Type_ text =>
          if editable s then MkScreen (sn_step s) text (sn_selectedToken s) (sn_destination s) (sn_nfcError s) (sn_isScanning s) None else s
      | Choose token =>
          if editable s || bool_decide (sn_step s = confirm)
          then MkScreen (sn_step s) (sn_amount s) token (sn_destination s) (sn_nfcError s) (sn_isScanning s) None else s
      | ScanStarts => if bool_decide (sn_step s = terminalFound) then scan_starts s else s
      | ScanSettles cancelled scanned =>
          if sn_isScanning s then scan_settled (cancelled || bool_decide (sn_step s ≠ terminalFound)) scanned s else s
      end
  end.

Definition run `{UrlParser} (es : list event) (s : screen) : screen := foldl (λ s e, step e s) s es.

(** *** Properties *)

(** Where the screen can be. *)
Definition short_of_terminal (s : screen) : Prop :=
  (sn_step s = ready ∨ sn_step s = searching) ∧ sn_isScanning s = false ∧ sn_destination s = None ∧
  match sn_exit s with
  | None => True
  | Some e => (e = ExitBack ∧ sn_step s = ready) ∨ (e = ExitReplace (js "/scan") ∧ sn_step s = searching)
  end.

Lemma step_short `{UrlParser} e s : short_of_terminal s → short_of_terminal (step e s).
Proof.
  destruct s as [st am tok d er sc ex]. intros (Hs & Hi & Hd & He). cbn in Hs, Hi, Hd, He. subst sc d.
  destruct ex as [x|]; [by repeat split|].
  destruct Hs as [-> | ->], e; unfold short_of_terminal; cbn; naive_solver.
Qed.

(** the terminal is never found: from the opened screen, whatever is pressed, the
    screen only goes between the first two steps or is left (backwards, or for the QR scanner), no
    tag is ever read and no destination known, because the button of the searching step leads to the
    scanner instead of the next step. *)
Theorem terminal_never_reached `{UrlParser} es : short_of_terminal (run es opened).
Proof.
  assert (K : ∀ s, short_of_terminal s → short_of_terminal (run es s)).
  { unfold run. induction es as [|e es IH]; intros s Hs; [done|]. cbn [foldl]. by apply IH, step_short. }
  apply K. repeat split. by left.
Qed.

(** were a terminal found, a tag with a payment link would bring the transfer step
    with its destination; and two presses after any amount was typed the screen states the success of
    a transfer of [$100], whatever amount, token and destination it holds: no step between them makes
    a payment. *)
Theorem scanned_payment_states_success `{UrlParser} raw p s amount :
  parseSep0007Uri raw = Ok (ValidPay p) → sn_exit s = None → sn_step s = terminalFound → amount ≠ [] →
  let s1 := run [ScanStarts; ScanSettles false (Ok raw)] s in
  sn_step s1 = transfer ∧ sn_destination s1 = Some (pp_destination p) ∧ sn_isScanning s1 = false ∧
  let s2 := run [Type_ amount; Press; Press] s1 in
  sn_step s2 = success ∧ headerTitle s2 = js "Success" ∧ stated_amount s2 = Some (js "$100") ∧
  sn_destination s2 = Some (pp_destination p) ∧ sn_amount s2 = amount.
Proof.
  destruct s as [st am tok d er sc ex]. cbn [sn_exit sn_step]. intros Ep -> -> Ha. destruct amount as [|c amount]; [done|].
  assert (E1 : run [ScanStarts; ScanSettles false (Ok raw)] (MkScreen terminalFound am tok d er sc None) =
    MkScreen transfer am tok (Some (pp_destination p)) None false None).
  { change (run _ _) with (scan_settled false (Ok raw) (MkScreen terminalFound am tok d None true None)).
    unfold scan_settled, scan_verdict. by rewrite Ep. }
  rewrite E1. cbv zeta. cbn [sn_step sn_destination sn_isScanning]. by repeat split.
Qed.
End Screen.

(** ** Concrete runs *)

Module Runs.
(** A URL reader for the queries the links are made of. *)
#[local] Instance query_urls : UrlParser := λ url,
  if starts_with (js "https://placeholder/pay?") url then raw_params (split_on 38 (drop 24 url)) else None.

#[local] Instance query_laws : Payload.UrlLaws.
Proof.
  intros parts raw Hne Hq Hf Er. unfold url_search_params, query_urls.
  assert (P : ∀ q, starts_with (js "https://placeholder/pay?") (js "https://placeholder/pay?" ++ q) = true) by by intros q.
  rewrite P. change (drop 24 (js "https://placeholder/pay?" ++ join [38%N] parts)) with (join [38%N] parts).
  by rewrite split_join.
Qed.

Definition account : str := 71%N :: replicate 55 65%N.
Definition demo_payload : Payload.NfcPaymentPayload :=
  Payload.MkPayload (js " " ++ account) (js "12.50") (Some (js "USDC")) None.

Lemma demo_payload_ok : Payload.payload_ok demo_payload.
Proof. split; [reflexivity|by apply text_ok_check|reflexivity|by apply (text_ok_check (js "USDC"))|exact I]. Qed.

Lemma nfc_payload_reads_back_witness : ∃ uri,
  Payload.formatNfcPaymentPayload demo_payload = Ok uri ∧ detectQrContentType uri = QrZapsPay ∧
  let pay := ValidPay (MkPay account (Some (js "12.50")) (Some (js "USDC")) None None None None None None None None) in
  parseZapsPayUri uri = pay ∧ parseSep0007Uri uri = Ok pay.
Proof. exact (Payload.nfc_payload_reads_back demo_payload demo_payload_ok). Defined.

Example format_examples :
  Payload.formatNfcPaymentPayload (Payload.MkPayload (js "GABC") (js "12.50") (Some (js "USDC")) (Some (js "GISSUER"))) =
    Ok (js "zaps://pay?address=GABC&amount=12.50&asset_code=USDC&asset_issuer=GISSUER") ∧
  forallb (λ a, negb (Payload.amount_valid a)) [[]; js "0"; js "-1"; js "1e3"; js "0.00"; js "1."; js ".5"] = true.
Proof. vm_compute. by split. Qed.

Definition link : str := js "zaps://pay?address=x".
#[local] Instance ascii_buffer : Scan.GlobalBuffer :=
  Some (λ bytes, (λ b, match b with JNum (Fin z 0) => Z.to_N z | _ => 0%N end) <$> bytes).

(** A tag written with [Ndef.uriRecord]. *)
Definition own_record : json := JObj [(js "payload", JArr (JNum (Fin 0 0) :: ((λ c, JNum (Fin (Z.of_N c) 0)) <$> link)))].
Definition own_tag : list (str * json) := [(js "id", JStr (js "04A2")); (js "ndefMessage", JArr [own_record])].

Lemma byte_records_never_pay_witness : ∃ raw, Scan.raw_of_tag (JObj own_tag) = Ok raw ∧
  parseSep0007Uri raw = Ok (ParseError (js "Not a SEP-0007 URI (missing web+stellar: scheme)")).
Proof.
  apply (proj2 (Scan.byte_records_never_pay (JObj own_tag) own_record []
    (JNum (Fin 0 0) :: ((λ c, JNum (Fin (Z.of_N c) 0)) <$> link)) eq_refl eq_refl) _ 0%N link eq_refl);
    [vm_compute; reflexivity|reflexivity|discriminate|discriminate].
Defined.

(** A manager whose first event is a given one; its state lists the calls, the latest first. *)
#[local] Instance tag_manager : Scan.NfcManager (list str) := {|
  Scan.nfc_start w := (Ok tt, js "start" :: w); Scan.nfc_isSupported w := (Ok true, w); Scan.nfc_isEnabled w := (Ok true, w);
  Scan.nfc_listen w := (Ok tt, js "listen" :: w); Scan.nfc_first w := (Ok (Scan.TagDiscovered own_tag), w);
  Scan.nfc_cancel w := (Ok tt, js "cancel" :: w); Scan.nfc_unlisten w := (Ok tt, js "unlisten" :: w) |}.

Example calls_of_scan : (Scan.scanNfcTag 15000 []).2 = [js "unlisten"; js "cancel"; js "cancel"; js "listen"; js "start"].
Proof. vm_compute. reflexivity. Qed.

Lemma scan_cleans_up_witness : ∃ r w1, Scan.scan_body 15000 [js "start"] = (r, w1) ∧
  Scan.scanNfcTag 15000 [] = (r, (swallow Scan.nfc_unlisten (swallow Scan.nfc_cancel w1).2).2) ∧
  ∀ raw, r = Ok raw → raw ≠ [] ∧ ∃ tag wa wb, Scan.nfc_first wa = (Ok (Scan.TagDiscovered tag), wb) ∧
    Scan.raw_of_tag (JObj tag) = Ok raw.
Proof. exact (Scan.scan_cleans_up 15000 [] [js "start"] eq_refl). Defined.

Definition pay_link : str := js "zaps://pay?address=" ++ account.
Definition found : Screen.screen := Screen.set_step Screen.terminalFound Screen.opened.

Lemma scanned_payment_states_success_witness :
  let s1 := Screen.run [Screen.ScanStarts; Screen.ScanSettles false (Ok pay_link)] found in
  let s2 := Screen.run [Screen.Type_ (js "7"); Screen.Press; Screen.Press] s1 in
  Screen.stated_amount s2 = Some (js "$100") ∧ Screen.sn_destination s2 = Some account ∧ Screen.sn_amount s2 = js "7".
Proof.
  assert (parseSep0007Uri pay_link = Ok (ValidPay (MkPay account None None None None None None None None None None))) as E
    by (vm_compute; reflexivity).
  destruct (Screen.scanned_payment_states_success pay_link _ found (js "7") E eq_refl eq_refl ltac:(discriminate))
    as (_ & _ & _ & _ & _ & V). exact V.
Defined.
End Runs.
