(* ===== verification/Receipts.v ===== *)
(** * Receipts, the transaction screen and the batch screen

    Model of [mobileapp/src/utils/receiptGenerator.ts] (module Receipt), of the screens
    [mobileapp/app/transaction/[id].tsx] (Detail) and [mobileapp/app/transaction/batch/[id].tsx]
    (Batch), and of the texts of [mobileapp/src/utils/formatting.ts] that do not depend on the locale
    alone (Amounts). File system, share sheet, view capture and [Intl] are parameters. *)

From S2P Require Import Prelude JsString JsNumber JsRound Json Effects Decode Scripts TransactionService.

(** ** The receipt *)

Module Receipt.
Definition STELLAR_EXPLORER : str := js "https://stellar.expert/explorer/public/tx/".

(** [formatDate(timestamp, { year, month: "long", day, hour, minute })]: the platform's text. *)
Class LongDate := long_date : str → str.

(** ["─".repeat(40)] *)
Definition line : str := replicate 40 9472%N.

Definition spaces (n : nat) : str := replicate n 32%N.

(** [v ? [label + v] : []] *)
Definition optional (label : str) (v : option str) : list str := if truthy_opt v then [label ++ default [] v] else [].

Section Text.
Context `{UC : UnicodeCase, LongDate}.

Definition typeLabel (t : TransactionType) : str :=
  match t with TSent => js "SENT" | TReceived => js "RECEIVED" | _ => to_upper (type_text t) end.
Definition statusLabel (s : TransactionStatus) : str := to_upper (status_text s).

Definition party_label (tx : Transaction) : str :=
  match tx_type tx with TSent => js "To" ++ spaces 10 | _ => js "From" ++ spaces 8 end.

(** The elements of [lines]; those with a newline of their own count as two lines of the text. *)
Definition receipt_lines (tx : Transaction) : list str :=
  [js "ZAPS PAYMENT RECEIPT"; line;
   js "Date        : " ++ long_date (tx_timestamp tx);
   js "Type        : " ++ typeLabel (tx_type tx);
   js "Status      : " ++ statusLabel (tx_status tx);
   line;
   js "Amount      : " ++ tx_amount tx ++ js " " ++ tx_asset tx;
   js "Value       : " ++ tx_fiatValue tx ++ js " " ++ tx_fiatCurrency tx]
  ++ (if truthy_opt (tx_fee tx) then [js "Fee         : " ++ default [] (tx_fee tx) ++ js " " ++ default [] (tx_feeAsset tx)] else [])
  ++ [line; party_label tx ++ js ": " ++ default (tx_address tx) (tx_addressLabel tx)]
  ++ (if truthy_opt (tx_addressLabel tx) then [js "Address     : " ++ tx_address tx] else [])
  ++ optional (js "Memo        : ") (tx_memo tx)
  ++ optional (js "Network     : ") (tx_network tx)
  ++ [line; js "Transaction ID"; tx_id tx]
  ++ (if truthy_opt (tx_stellarTxHash tx) then
        let hash := default [] (tx_stellarTxHash tx) in
        [[10%N] ++ js "Stellar Hash"; hash; [10%N] ++ js "Explorer"; STELLAR_EXPLORER ++ hash]
      else [])
  ++ [line; js "Thank you for using Zaps."].

Definition buildReceiptText (tx : Transaction) : str := join [10%N] (receipt_lines tx).
Definition getReceiptText : Transaction → str := buildReceiptText.
End Text.

(** expo-file-system and expo-sharing. *)
Class Sharing (W : Type) := {
  cacheDirectory : str;
  writeAsString : str → str → M W unit;
  sharing_available : M W bool;
  shareAsync : str → M W unit;
}.

Definition receipt_path `{Sharing W} (tx : Transaction) : str := cacheDirectory (W := W) ++ js "zaps_receipt_" ++ tx_id tx ++ js ".txt".

Definition shareReceipt `{UnicodeCase, LongDate, Sharing W} (tx : Transaction) : M W unit :=
  writeAsString (receipt_path (W := W) tx) (buildReceiptText tx);;
  canShare ← sharing_available;
  if negb canShare then throw (new_error (js "Sharing is not available on this device."))
  else shareAsync (receipt_path (W := W) tx).

(** *** Properties *)

(** The lines a reader sees: those of each element. *)
Definition seen_lines (text : str) : list str := split_on 10 text.

Lemma split_on_sep c a b : split_on c (a ++ c :: b) = split_on c a ++ split_on c b.
Proof.
  induction a as [|x a IH]; cbn [app split_on]; [by rewrite N.eqb_refl|]. destruct (N.eqb_spec x c); [by rewrite IH|].
  rewrite IH. destruct (split_on c a) as [|h t] eqn:E; [by apply split_on_nonempty in E|]. done.
Qed.

(** Splitting a joined list splits its elements. *)
Lemma split_join_any c l : l ≠ [] → split_on c (join [c] l) = concat (split_on c <$> l).
Proof.
  induction l as [|s l IH]; [done|]. intros _. destruct l as [|t l]; [cbn; by rewrite app_nil_r|].
  change (join [c] (s :: t :: l)) with (s ++ c :: join [c] (t :: l)). rewrite split_on_sep, IH by done. done.
Qed.

Lemma optional_shown label v : v ≠ [] → optional label (Some v) = [label ++ v].
Proof. unfold optional. by destruct v. Qed.

Section Spec.
Context `{UC : UnicodeCase, LongDate}.

Lemma seen_elements tx : seen_lines (buildReceiptText tx) = concat (split_on 10 <$> receipt_lines tx).
Proof. unfold seen_lines, buildReceiptText. by apply split_join_any. Qed.

Lemma seen_element tx e l : e ∈ receipt_lines tx → l ∈ split_on 10 e → l ∈ seen_lines (buildReceiptText tx).
Proof.
  rewrite seen_elements. intros He Hl. apply list_elem_of_In, in_concat. exists (split_on 10 e).
  split; [|by apply list_elem_of_In]. apply list_elem_of_In, list_elem_of_fmap. by exists e.
Qed.

(** The lines of the receipt, whatever they hold: amount with asset, value, party, identifier. *)
Lemma element_amount tx : js "Amount      : " ++ tx_amount tx ++ js " " ++ tx_asset tx ∈ receipt_lines tx.
Proof. unfold receipt_lines. apply elem_of_app. left. apply list_elem_of_In. do 6 right. by left. Qed.

(** a receipt whose texts hold no line break states the amount with its asset, the
    other party and the memo, each as a whole line of its own, and links the explorer by the hash. *)
Theorem receipt_states tx :
  (10%N ∉ tx_amount tx → 10%N ∉ tx_asset tx →
     js "Amount      : " ++ tx_amount tx ++ js " " ++ tx_asset tx ∈ seen_lines (buildReceiptText tx)) ∧
  (10%N ∉ default (tx_address tx) (tx_addressLabel tx) →
     party_label tx ++ js ": " ++ default (tx_address tx) (tx_addressLabel tx) ∈ seen_lines (buildReceiptText tx)) ∧
  (∀ memo, tx_memo tx = Some memo → memo ≠ [] → 10%N ∉ memo →
     js "Memo        : " ++ memo ∈ seen_lines (buildReceiptText tx)) ∧
  (∀ hash, tx_stellarTxHash tx = Some hash → hash ≠ [] → 10%N ∉ hash →
     hash ∈ seen_lines (buildReceiptText tx) ∧ STELLAR_EXPLORER ++ hash ∈ seen_lines (buildReceiptText tx)).
Proof.
  assert (K : ∀ e, e ∈ receipt_lines tx → 10%N ∉ e → e ∈ seen_lines (buildReceiptText tx)).
  { intros e He Hn. apply (seen_element tx e e He). rewrite split_on_free by done. by apply list_elem_of_singleton. }
  assert (F : ∀ a b, forallb (λ c, negb (c =? 10)%N) a = true → 10%N ∉ b → 10%N ∉ a ++ b).
  { intros a b Ha Hb [Hin|Hin]%elem_of_app; [|done]. rewrite forallb_forall in Ha. apply list_elem_of_In in Hin.
    specialize (Ha _ Hin). by rewrite N.eqb_refl in Ha. }
  split; [|split; [|split]].
  - intros Ha Hs. apply K; [apply element_amount|]. apply F; [done|]. intros [Hin|Hin]%elem_of_app; [done|].
    by apply F in Hin.
  - intros Hp. apply K.
    + unfold receipt_lines. rewrite !elem_of_app. do 2 right. left. apply list_elem_of_further, list_elem_of_here.
    + apply F; [unfold party_label; by destruct (tx_type tx)|by apply F].
  - intros memo Em Hm Hn. apply K; [|by apply F].
    unfold receipt_lines. rewrite Em, optional_shown by done. rewrite !elem_of_app. do 4 right. left. by apply list_elem_of_singleton.
  - intros hash Eh Hh Hn. split; (apply K; [|first [done|by apply F]]);
      unfold receipt_lines; rewrite Eh; rewrite !elem_of_app; do 7 right; left; destruct hash as [|c hash]; try done;
      cbn [truthy_opt truthy default]; change (id (c :: hash)) with (c :: hash); apply list_elem_of_In; cbn [In]; tauto.
Qed.

(** the memo is the sender's text and is written as it is: a memo with a line break
    puts any line into the receipt, a second status or amount among them. *)
Theorem memo_forges_lines tx a forged : 10%N ∉ forged → tx_memo tx = Some (a ++ 10%N :: forged) →
  forged ∈ seen_lines (buildReceiptText tx).
Proof.
  intros Hf Em. apply (seen_element tx (js "Memo        : " ++ a ++ 10%N :: forged)).
  - unfold receipt_lines. rewrite Em, optional_shown by (by destruct a). rewrite !elem_of_app. do 4 right. left.
    by apply list_elem_of_singleton.
  - rewrite app_assoc, split_on_sep. apply elem_of_app. right. rewrite (split_on_free 10 forged) by done. by apply list_elem_of_singleton.
Qed.
End Spec.
End Receipt.

(** ** The transaction screen *)

Module Detail.
Import Receipt.

Record detail := MkDetail { dt_tx : option Transaction; dt_loading : bool; dt_sharing : bool; dt_toasts : list str }.
Definition opened : detail := MkDetail None true false [].

Definition set_tx (t : option Transaction) (d : detail) : detail := MkDetail t false (dt_sharing d) (dt_toasts d).
Definition set_sharing (b : bool) (d : detail) : detail := MkDetail (dt_tx d) (dt_loading d) b (dt_toasts d).
Definition toast (m : str) (d : detail) : detail := MkDetail (dt_tx d) (dt_loading d) (dt_sharing d) (dt_toasts d ++ [m]).

Definition statusColor (s : TransactionStatus) : str :=
  match s with Completed => js "#22C55E" | Pending => js "#F59E0B" | Failed => js "#EF4444" end.
Definition typeIcon (t : TransactionType) : str :=
  match t with TSent => js "arrow-up" | TReceived => js "arrow-down" | TSwap => js "swap-horizontal" | _ => js "card" end.

(** The minus sign and the plus sign before the amount. *)
Definition amountPrefix (t : TransactionType) : str := match t with TSent => [8722%N] | _ => js "+" end.
Definition amount_hero (tx : Transaction) : str := amountPrefix (tx_type tx) ++ tx_amount tx ++ js " " ++ tx_asset tx.

(** [s.charAt(0).toUpperCase() + s.slice(1)] *)
Definition capitalised `{UnicodeCase} (s : str) : str := to_upper (take 1 s) ++ drop 1 s.

(** Label and value of the rows of the details card. *)
Definition detail_rows `{UnicodeCase, LongDate} (tx : Transaction) : list (str * str) :=
  [(js "Date", long_date (tx_timestamp tx)); (js "Type", capitalised (type_text (tx_type tx)));
   (match tx_type tx with TSent => js "To" | _ => js "From" end, default (tx_address tx) (tx_addressLabel tx))]
  ++ (if truthy_opt (tx_addressLabel tx) then [(js "Address", tx_address tx)] else [])
  ++ (if truthy_opt (tx_memo tx) then [(js "Memo", default [] (tx_memo tx))] else [])
  ++ (if truthy_opt (tx_fee tx) then [(js "Network Fee", default [] (tx_fee tx) ++ js " " ++ default [] (tx_feeAsset tx))] else [])
  ++ (if truthy_opt (tx_network tx) then [(js "Network", default [] (tx_network tx))] else []).

(** The shortened hash, and the page it opens. *)
Definition short_hash (hash : str) : str := take 16 hash ++ [8230%N] ++ drop (length hash - 8) hash.
Definition explorer_url (tx : Transaction) : option str :=
  if truthy_opt (tx_stellarTxHash tx) then Some (STELLAR_EXPLORER ++ default [] (tx_stellarTxHash tx)) else None.

Section Screen.
Context `{UC : UnicodeCase, HD : HostDates, LongDate, Host W, Sharing W}.

(** The effect: [fetchTransactionById(id).then(...)], with no handler for a rejection. *)
Definition load (id : option str) : M (detail * (tx_state * W)) unit :=
  match id with
  | None => mret tt
  | Some id =>
      if negb (truthy id) then mret tt
      else t ← host (fetchTransactionById id); modify_state (set_tx t)
  end.

(** What the screen shows. *)
Inductive view := Spinner | NotFound | Shown (tx : Transaction).
Definition render (d : detail) : view :=
  if dt_loading d then Spinner else match dt_tx d with None => NotFound | Some tx => Shown tx end.

Definition handleShare : M (detail * W) unit :=
  d ← get_state;
  match dt_tx d with
  | None => mret tt
  | Some tx =>
      modify_state (set_sharing true);;
      try_finally
        (try_catch (host (shareReceipt tx)) (λ _, modify_state (toast (js "Could not share receipt"))))
        (λ s, (set_sharing false s.1, s.2))
  end.
End Screen.

(** *** Properties *)

Section Spec.
Context `{UC : UnicodeCase, HD : HostDates, LD : LongDate, HostLaws W, SH : !Sharing W}.

(** a screen opened for an identifier shows the entry the merged list of the history
    holds under it, or that there is none; without an identifier it spins for ever, and so it does
    when the cached list cannot be read: the rejection is not handled. *)
Theorem transaction_screen id (st : tx_state) w :
  (∀ text, id = Some text → truthy text = true → st_live w → cache_wf (cache_of w) → ∃ now w' d,
     load id (opened, (st, w)) = (Ok tt, (d, (st, w'))) ∧ kept w w' ∧
     render d = match find (λ t, str_eqb (tx_id t) text) (list_at now (mocks st) (cache_of w)) with
                | Some tx => Shown tx | None => NotFound end) ∧
  (truthy_opt id = false → load id (opened, (st, w)) = (Ok tt, (opened, (st, w))) ∧ render opened = Spinner) ∧
  (∀ text e w', id = Some text → truthy text = true → fetchTransactionById text (st, w) = (Throw e, w') →
     load id (opened, (st, w)) = (Throw e, (opened, w')) ∧ render opened = Spinner).
Proof.
  split; [|split].
  - intros text -> Ht L Hc. destruct (by_id_run text st w L Hc) as (now & w' & E & K).
    exists now, w', (set_tx (find (λ t, str_eqb (tx_id t) text) (list_at now (mocks st) (cache_of w))) opened).
    unfold load. rewrite Ht. cbn [negb]. rewrite (run_bind_ok _ _ _ _ _ (run_host _ opened _ _ _ E)).
    split; [done|]. split; [done|]. unfold render, set_tx. cbn [dt_loading dt_tx]. by destruct (find _ _).
  - intros Hi. split; [|done]. unfold load. destruct id as [text|]; [|done]. cbn in Hi. by rewrite Hi.
  - intros text e w' -> Ht E. split; [|done]. unfold load. rewrite Ht. cbn [negb].
    by rewrite (run_bind_throw _ _ _ _ _ (run_host _ opened _ _ _ E)).
Qed.

(** sharing always ends with the button free again and never rejects; it shares the
    receipt file it has just written, or shows one message. *)
Theorem share_settles d w tx : dt_tx d = Some tx → ∃ d' w',
  handleShare (d, w) = (Ok tt, (d', w')) ∧ dt_sharing d' = false ∧ dt_tx d' = Some tx ∧
  ((∃ w1 w2, writeAsString (receipt_path (W := W) tx) (buildReceiptText tx) w = (Ok tt, w1) ∧ sharing_available w1 = (Ok true, w2) ∧
      shareAsync (receipt_path (W := W) tx) w2 = (Ok tt, w') ∧ dt_toasts d' = dt_toasts d) ∨
   dt_toasts d' = dt_toasts d ++ [js "Could not share receipt"]).
Proof.
  intros Et. destruct d as [t lo sh ts]. cbn in Et. subst t. unfold handleShare.
  rewrite (run_bind_ok _ _ _ _ _ (run_get_state _ _)). cbn [dt_tx].
  rewrite (run_bind_ok _ _ _ _ _ (run_modify_state _ _ _)). unfold try_finally, try_catch.
  destruct (shareReceipt tx w) as [r w'] eqn:Es. rewrite (run_host _ _ _ _ _ Es). destruct r as [[]|e].
  - exists (MkDetail (Some tx) lo false ts), w'. split; [done|]. split; [done|]. split; [done|]. left.
    revert Es. unfold shareReceipt. rewrite run_bind. destruct (writeAsString _ _ w) as [[[]|] w1]; [|done].
    rewrite run_bind. destruct (sharing_available w1) as [[[]|] w2] eqn:Ea; [|done..]. cbn [negb]. intros Es.
    exists w1, w2. split; [done|]. split; [done|]. split; [done|done].
  - exists (MkDetail (Some tx) lo false (ts ++ [js "Could not share receipt"])), w'. split; [done|].
    split; [done|]. split; [done|]. by right.
Qed.
End Spec.
End Detail.

(** ** The batch screen *)

Module Batch.
Record BatchPayoutItem := MkItem { bi_id : str; bi_amount : str; bi_currency : str; bi_status : TransactionStatus }.

(** The counts of a batch; [MOCK_SUMMARY] is what the screen shows. *)
Record BatchPayoutSummary := MkSummary { sm_itemCount : Z; sm_completedCount : Z; sm_failedCount : Z }.
Definition MOCK_SUMMARY : BatchPayoutSummary := MkSummary 48 32 3.
Definition MOCK_STATUSES : list TransactionStatus := replicate 32 Completed ++ replicate 13 Pending ++ replicate 3 Failed.

Inductive BatchStep := SPending | SParsing | SInitiating | SCompleted.
#[export] Instance BatchStep_eq_dec : EqDecision BatchStep. Proof. solve_decision. Defined.
Definition BATCH_STEPS : list BatchStep := [SPending; SParsing; SInitiating; SCompleted].

Definition count (z : Z) : num := Fin z 0.

Definition currentStep (s : BatchPayoutSummary) : BatchStep :=
  if num_ltb (Fin 0 0) (count (sm_failedCount s)) then SCompleted
  else if (sm_completedCount s =? sm_itemCount s)%Z then SCompleted
  else if num_ltb (num_div (count (sm_itemCount s)) (num_of_Z 2)) (count (sm_completedCount s)) then SInitiating
  else if num_ltb (Fin 0 0) (count (sm_completedCount s)) then SParsing
  else SPending.

(** [BATCH_STEPS.findIndex(...)], and the marks of the steps. *)
Definition step_index (s : BatchStep) : nat :=
  match s with SPending => 0 | SParsing => 1 | SInitiating => 2 | SCompleted => 3 end.
Inductive mark := Past | Active | Future.
Definition marks (s : BatchStep) : list mark :=
  (λ t, match Nat.compare (step_index t) (step_index s) with Lt => Past | Eq => Active | Gt => Future end) <$> BATCH_STEPS.

Definition progress (s : BatchPayoutSummary) : num :=
  if (0 <? sm_itemCount s)%Z
  then num_mul (num_div (count (sm_completedCount s)) (count (sm_itemCount s))) (num_of_Z 100) else Fin 0 0.

(** [Math.min(100, Math.max(0, progress))], and its text. *)
Definition bar_percent (p : num) : num := num_min (num_of_Z 100) (num_max (Fin 0 0) p).
Definition bar_text (p : num) : str := num_to_fixed 0 (bar_percent p) ++ js "%".

Definition successRate (s : BatchPayoutSummary) : str :=
  if (0 <? sm_itemCount s)%Z then
    num_to_fixed 1 (num_mul (num_div (count (sm_completedCount s)) (count (sm_itemCount s - sm_failedCount s))) (num_of_Z 100))
  else js "0".

Definition filteredItems (filter : option TransactionStatus) (items : list BatchPayoutItem) : list BatchPayoutItem :=
  match filter with None => items | Some s => List.filter (λ i, bool_decide (bi_status i = s)) items end.

(** *** The receipt image *)

(** The view capture and the share sheet. *)
Class Capture (W : Type) := { on_ios : bool; captureRef : M W str; share_url : str → str → M W unit }.
Record screen := MkScreen { sn_exporting : bool; sn_errors : list str }.

Definition handleExportReceipt `{Capture W} (mounted : bool) (id : str) : M (screen * W) unit :=
  if negb mounted then mret tt
  else
    try_finally
      (try_catch
         (modify_state (λ s, MkScreen true (sn_errors s));;
          uri ← host captureRef;
          host (share_url (if on_ios (W := W) then uri else js "file://" ++ uri) (js "ZAPS batch receipt #" ++ id)))
         (λ e, modify_state (λ s, MkScreen (sn_exporting s) (sn_errors s ++ [err_message e]))))
      (λ s, (MkScreen false (sn_errors s.1), s.2)).

(** *** Properties *)

Definition counted (s : BatchPayoutSummary) : Prop :=
  (0 < sm_itemCount s < 2 ^ 53)%Z ∧ (0 ≤ sm_completedCount s)%Z ∧ (0 ≤ sm_failedCount s)%Z ∧
  (sm_completedCount s + sm_failedCount s ≤ sm_itemCount s)%Z.

Lemma ltb_count a b : num_ltb (Fin a 0) (Fin b 0) = (a <? b)%Z.
Proof. unfold num_ltb. change (2 ^ (- 0))%Z with 1%Z. by rewrite !Z.mul_1_r. Qed.

(** the step is a function of the counts: with any failure it is the last one, however
    many payouts are pending; otherwise it tells nothing, some, more than half, or all of them, and the
    steps before it, and only those, are marked as past. *)
Theorem step_of_counts s : counted s →
  currentStep s =
    (if 0 <? sm_failedCount s then SCompleted
     else if sm_completedCount s =? sm_itemCount s then SCompleted
     else if sm_itemCount s <? 2 * sm_completedCount s then SInitiating
     else if 0 <? sm_completedCount s then SParsing else SPending)%Z ∧
  ∀ i, i < 4 → marks (currentStep s) !! i =
    Some (if (i <? step_index (currentStep s))%nat then Past else if (i =? step_index (currentStep s))%nat then Active else Future).
Proof.
  intros (Hi & Hc & Hf & Hs). split.
  - unfold currentStep, count. rewrite !ltb_count. destruct (0 <? sm_failedCount s)%Z; [done|].
    destruct (sm_completedCount s =? sm_itemCount s)%Z; [done|].
    rewrite half_exact by lia. by destruct (sm_itemCount s <? 2 * sm_completedCount s)%Z.
  - intros i Hi4. destruct (currentStep s); do 4 (destruct i as [|i]; [done|]); lia.
Qed.

(** the progress is between 0 and 100, and exactly 100 when all payouts completed; and
    once all payouts are settled the success rate does not tell how many failed: it is [100.0%] as soon
    as one completed, and [NaN%] when none did. *)
Theorem batch_rates s : counted s →
  between 0 100 (progress s) ∧
  (sm_completedCount s = sm_itemCount s → progress s = num_of_Z 100) ∧
  ((sm_completedCount s + sm_failedCount s = sm_itemCount s)%Z →
     successRate s = if (0 <? sm_completedCount s)%Z then js "100.0" else js "NaN").
Proof.
  intros (Hi & Hc & Hf & Hs). unfold progress, successRate, count. rewrite (proj2 (Z.ltb_lt 0 _)) by lia.
  assert (E100 : num_of_Z 100 = Fin 100 0) by (vm_compute; reflexivity). split; [|split].
  - rewrite E100. apply (num_mul_between 1 100).
    + apply num_div_between; [|lia|lia]. cbn. lia.
    + cbn. lia.
    + reflexivity.
  - intros ->. rewrite num_div_self by lia. vm_compute. reflexivity.
  - intros He. replace (sm_itemCount s - sm_failedCount s)%Z with (sm_completedCount s) by lia.
    destruct (Z.ltb_spec 0 (sm_completedCount s)).
    + rewrite num_div_self by lia. vm_compute. reflexivity.
    + replace (sm_completedCount s) with 0%Z by lia. vm_compute. reflexivity.
Qed.

(** exporting the receipt always ends with the button free again and never rejects; it
    reports one error exactly when capturing or sharing failed. *)
Theorem batch_export_settles `{Capture W} id (s : screen) w : ∃ s' w',
  handleExportReceipt true id (s, w) = (Ok tt, (s', w')) ∧ sn_exporting s' = false ∧
  ((sn_errors s' = sn_errors s ∧ ∃ uri w1, captureRef w = (Ok uri, w1) ∧
      share_url (if on_ios (W := W) then uri else js "file://" ++ uri) (js "ZAPS batch receipt #" ++ id) w1 = (Ok tt, w')) ∨
   ∃ m, sn_errors s' = sn_errors s ++ [m]).
Proof.
  unfold handleExportReceipt, try_finally, try_catch. cbn [negb]. rewrite (run_bind_ok _ _ _ _ _ (run_modify_state _ _ _)).
  destruct (captureRef w) as [[uri|e] w1] eqn:Ec.
  - rewrite (run_bind_ok _ _ _ _ _ (run_host _ _ _ _ _ Ec)).
    destruct (share_url (if on_ios (W := W) then uri else js "file://" ++ uri) (js "ZAPS batch receipt #" ++ id) w1) as [[[]|e] w2] eqn:Es.
    + rewrite (run_host _ _ _ _ _ Es). eexists _, w2. split; [done|]. split; [done|]. left. split; [done|]. by exists uri, w1.
    + rewrite (run_host _ _ _ _ _ Es). eexists _, w2. split; [done|]. split; [done|]. right. by eexists.
  - rewrite (run_bind_throw _ _ _ _ _ (run_host _ _ _ _ _ Ec)). eexists _, w1. split; [done|]. split; [done|]. right. by eexists.
Qed.
End Batch.

(** ** Amounts and durations *)

Module Amounts.
(** [Intl.NumberFormat]: the texts by locale, [None] when it throws. *)
Class IntlNumbers := {
  intl_currency : str → str → num → option str;   (** locale, currency, amount *)
  intl_number : str → num → option str;
  locale_number : str → num → str;
}.

Definition target_locale (locale : option str) : str := if truthy_opt locale then default [] locale else js "en".

Section Texts.
Context `{IntlNumbers}.

Definition formatCurrency (amount : num) (currency : str) (locale : option str) : str :=
  match intl_currency (target_locale locale) currency amount with
  | Some s => s
  | None => currency ++ js " " ++ num_to_fixed 2 amount
  end.

Definition formatTransactionAmount (amount : num) (currency : str) (isOutgoing : bool) (locale : option str) : str :=
  (if isOutgoing then js "-" else js "+") ++ formatCurrency (num_abs amount) currency locale.

Definition formatNumber (number : num) (locale : option str) : str :=
  match intl_number (target_locale locale) number with Some s => s | None => locale_number (target_locale locale) number end.

Definition formatLargeNumber (number : num) (locale : option str) : str :=
  let targetLocale := Some (target_locale locale) in
  if num_leb (num_of_Z 1000000000) number then formatNumber (num_div number (num_of_Z 1000000000)) targetLocale ++ js "B"
  else if num_leb (num_of_Z 1000000) number then formatNumber (num_div number (num_of_Z 1000000)) targetLocale ++ js "M"
  else if num_leb (num_of_Z 1000) number then formatNumber (num_div number (num_of_Z 1000)) targetLocale ++ js "K"
  else formatNumber number targetLocale.
End Texts.

Record units := MkUnits { un_seconds : str; un_minutes : str; un_hours : str; un_days : str }.
Definition english : units := MkUnits (js "seconds") (js "minutes") (js "hours") (js "days").

Definition formatDuration (seconds : num) (translations : option units) : str :=
  let t := default english translations in
  let whole (k : Z) := num_to_str (num_floor (num_div seconds (num_of_Z k))) in
  if num_ltb seconds (num_of_Z 60) then num_to_str seconds ++ js " " ++ un_seconds t
  else if num_ltb seconds (num_of_Z 3600) then whole 60%Z ++ js " " ++ un_minutes t
  else if num_ltb seconds (num_of_Z 86400) then whole 3600%Z ++ js " " ++ un_hours t
  else whole 86400%Z ++ js " " ++ un_days t.

(** *** Properties *)

Lemma small_int k : (0 <= k < 2 ^ 53)%Z → num_of_Z k = Fin k 0.
Proof. intros Hk. apply num_of_Z_safe. unfold safe_int. lia. Qed.

(** The number of whole units of [k] seconds, in its words. *)
Definition words (n k : Z) (unit : str) : str := Z_to_str (n / k) ++ js " " ++ unit.

(** a duration of whole seconds is told in the largest unit that fits, by the number
    of whole units in it; so what is left out is less than one unit. *)
Theorem duration_words n t : (0 ≤ n < 2 ^ 52)%Z →
  formatDuration (Fin n 0) t =
    (let u := default english t in
     if n <? 60 then words n 1 (un_seconds u)
     else if n <? 3600 then words n 60 (un_minutes u)
     else if n <? 86400 then words n 3600 (un_hours u)
     else words n 86400 (un_days u))%Z.
Proof.
  intros Hn. unfold formatDuration, words. cbv zeta. rewrite !small_int by lia.
  assert (F : ∀ k, (0 < k < 2 ^ 52)%Z → num_to_str (num_floor (num_div (Fin n 0) (Fin k 0))) = Z_to_str (n / k)).
  { intros k Hk. rewrite floor_div by lia. apply num_to_str_int. assert (0 ≤ n / k ≤ n)%Z; [|lia].
    split; [apply Z.div_pos; lia|]. apply Z.div_le_upper_bound; nia. }
  rewrite !F by lia. unfold num_ltb. change (2 ^ (- 0))%Z with 1%Z. rewrite !Z.mul_1_r.
  rewrite Z.div_1_r, num_to_str_int by lia. done.
Qed.

(** a transaction amount shows one sign, by its direction, before the amount without
    its own; when the platform does not know the currency, the code and two decimals stand for it. *)
Theorem amount_sign `{IntlNumbers} amount currency outgoing locale :
  formatTransactionAmount amount currency outgoing locale = (if outgoing then js "-" else js "+") ++ formatCurrency (num_abs amount) currency locale ∧
  formatTransactionAmount (num_opp amount) currency outgoing locale = formatTransactionAmount amount currency outgoing locale ∧
  (intl_currency (target_locale locale) currency (num_abs amount) = None →
     formatTransactionAmount amount currency outgoing locale =
       (if outgoing then js "-" else js "+") ++ currency ++ js " " ++ num_to_fixed 2 (num_abs amount)).
Proof.
  split; [done|]. split.
  - unfold formatTransactionAmount. do 2 f_equal. destruct amount as [|s|m e]; [done|done|]. cbn. by rewrite Z.abs_opp.
  - intros E. unfold formatTransactionAmount, formatCurrency. by rewrite E.
Qed.
End Amounts.

(** ** Concrete runs *)

Module Runs.
Import Receipt Detail.
#[local] Existing Instance ascii_case.
#[local] Existing Instance iso_only.
#[local] Instance plain_date : LongDate := λ t, t.
#[local] Instance no_sharing : Sharing scripted := {|
  cacheDirectory := js "/cache/"; writeAsString _ _ := mret tt; sharing_available := mret false; shareAsync _ := mret tt |}.

Definition row : Transaction :=
  MkTransaction (js "t9") TReceived Completed (js "5.00") (js "XLM") (js "0.50") (js "USD") (js "GABC") None (js "2024-01-01")
    (Some (js "aa11")) (Some (js "Thanks" ++ 10%N :: js "Amount      : 900 USDC")) None None None None None None None.

Lemma memo_forges_lines_witness : js "Amount      : 900 USDC" ∈ seen_lines (buildReceiptText row).
Proof.
  apply (memo_forges_lines row (js "Thanks") (js "Amount      : 900 USDC")); [|reflexivity].
  apply (bool_decide_unpack _). vm_compute. exact I.
Defined.

Example receipt_text : take 12 (seen_lines (buildReceiptText row)) =
  [js "ZAPS PAYMENT RECEIPT"; line; js "Date        : 2024-01-01"; js "Type        : RECEIVED"; js "Status      : COMPLETED"; line;
   js "Amount      : 5.00 XLM"; js "Value       : 0.50 USD"; line; js "From        : GABC"; js "Memo        : Thanks";
   js "Amount      : 900 USDC"].
Proof. vm_compute. reflexivity. Qed.

Lemma share_settles_witness :
  let d := MkDetail (Some row) false false [] in ∃ d' w',
  handleShare (d, world [] []) = (Ok tt, (d', w')) ∧ dt_sharing d' = false ∧ dt_tx d' = Some row ∧
  ((∃ w1 w2, writeAsString (receipt_path (W := scripted) row) (buildReceiptText row) (world [] []) = (Ok tt, w1) ∧
      sharing_available w1 = (Ok true, w2) ∧ shareAsync (receipt_path (W := scripted) row) w2 = (Ok tt, w') ∧ dt_toasts d' = []) ∨
   dt_toasts d' = [] ++ [js "Could not share receipt"]).
Proof. apply (share_settles (MkDetail (Some row) false false []) (world [] []) row eq_refl). Defined.

Lemma transaction_screen_witness : ∃ now w' d,
  load (Some (js "t9")) (opened, (TxState ∅ [row], world [] [])) = (Ok tt, (d, (TxState ∅ [row], w'))) ∧ kept (world [] []) w' ∧
  render d = match find (λ t, str_eqb (tx_id t) (js "t9")) (list_at now [row] (cache_of (world [] []))) with
             | Some tx => Shown tx | None => NotFound end.
Proof.
  apply (proj1 (transaction_screen (Some (js "t9")) (TxState ∅ [row]) (world [] [])) (js "t9") eq_refl eq_refl); [exact (eq_refl false)|].
  left. vm_compute. reflexivity.
Defined.

Definition half_done : Batch.BatchPayoutSummary := Batch.MkSummary 48 24 0.
Definition settled : Batch.BatchPayoutSummary := Batch.MkSummary 48 45 3.
Lemma half_counted : Batch.counted half_done.
Proof. repeat split; discriminate. Qed.
Lemma settled_counted : Batch.counted settled.
Proof. repeat split; discriminate. Qed.

Lemma step_of_counts_witness : Batch.currentStep half_done = Batch.SParsing ∧ Batch.currentStep Batch.MOCK_SUMMARY = Batch.SCompleted.
Proof.
  split; [exact (proj1 (Batch.step_of_counts half_done half_counted))|].
  apply (Batch.step_of_counts Batch.MOCK_SUMMARY). repeat split; discriminate.
Defined.

(** 45 of 48 payouts succeeded. *)
Lemma batch_rates_witness : Batch.successRate settled = js "100.0" ∧ between 0 100 (Batch.progress settled).
Proof.
  destruct (Batch.batch_rates settled settled_counted) as (B & _ & S). split; [exact (S eq_refl)|exact B].
Defined.

Lemma duration_words_witness : Amounts.formatDuration (Fin 7322 0) None = js "2 hours".
Proof.
  transitivity (Amounts.words 7322 3600 (js "hours")); [|vm_compute; reflexivity].
  apply (Amounts.duration_words 7322 None). split; [discriminate|reflexivity].
Defined.
End Runs.
