(* ===== verification/DashboardApi.v ===== *)
(** * Dashboard API client

    Model of [dashboard/lib/api.ts]: the session in [localStorage] and its cookie,
    the exchange of a refresh token, the authenticated request that retries once
    after a 401, the three base URLs with their headers, and every endpoint.

    A call runs to completion in [authedFetch]; the promise shared by calls that
    meet a 401 at the same time is the step model of module [SharedRefresh]. *)

From S2P Require Import Prelude JsString JsNumber UriCodec FormCodec JsDate Json Effects Decode Scripts.

(** [process.env]; [typeof window !== "undefined"]; the multipart text of a form. *)
Class DashEnv := {
  NEXT_PUBLIC_API_URL : option str;
  NEXT_PUBLIC_SERVER_URL : option str;
  NEXT_PUBLIC_SDP_URL : option str;
  NEXT_PUBLIC_SDP_ADMIN_TOKEN : option str;
}.
Class Browser := in_browser : bool.

Record file := File { file_name : str; file_size : Z; file_content : str }.
Inductive form_value := FormText (s : str) | FormFile (f : file).
Class Multipart := form_body : list (str * form_value) → str.

Definition BASE `{DashEnv} : str := default (js "http://localhost:8080") NEXT_PUBLIC_API_URL.
Definition SERVER_BASE `{DashEnv} : str := default (js "http://localhost:3000") NEXT_PUBLIC_SERVER_URL.
Definition SDP_BASE `{DashEnv} : str := default (js "http://localhost:8000") NEXT_PUBLIC_SDP_URL.

Definition TOKEN_KEY : str := js "token".
Definition REFRESH_TOKEN_KEY : str := js "refresh_token".
Definition AUTH_COOKIE : str := js "zaps-auth".

Section Session.
Context `{Host W, Browser}.

Definition readStored (key : str) : M W (option str) :=
  if in_browser then st_get LocalStorage key else mret None.

Definition getToken : M W (option str) := readStored TOKEN_KEY.
Definition getRefreshToken : M W (option str) := readStored REFRESH_TOKEN_KEY.

(** The assignment to [document.cookie] sets one cookie. *)
Definition storeSession (token : str) (refreshToken : option str) : M W unit :=
  if negb in_browser then mret tt else
  st_set LocalStorage TOKEN_KEY token;;
  (match refreshToken with
   | Some r => if truthy r then st_set LocalStorage REFRESH_TOKEN_KEY r else mret tt
   | None => mret tt
   end);;
  encoded ← encode_uri token;
  st_set CookieJar TOKEN_KEY encoded.

(** [max-age=0] removes a cookie. *)
Definition clearSession : M W unit :=
  if negb in_browser then mret tt else
  st_del LocalStorage TOKEN_KEY;;
  st_del LocalStorage REFRESH_TOKEN_KEY;;
  st_del CookieJar TOKEN_KEY;;
  st_del CookieJar AUTH_COOKIE.
End Session.

(** [refreshInFlight]: the pending promise, by the value it will settle with. *)
Record api_state := ApiState { refreshInFlight : option (option str) }.

Inductive body := TextBody (s : str) | FormBody (entries : list (str * form_value)).

Record request_init := RequestInit {
  ri_method : option str;
  ri_body : option body;
  ri_headers : list (str * str);
}.

Definition post (text : str) : option request_init :=
  Some (RequestInit (Some (js "POST")) (Some (TextBody text)) []).

(** A field of a JSON answer that the code stores when it is truthy, as the text stored. *)
Definition text_field (k : str) (v : json) : option str :=
  match json_get k v with
  | Some x => if json_truthy (Some x) then Some (json_to_string x) else None
  | None => None
  end.

Section Requests.
Context `{Host W, Browser, DashEnv, Multipart}.
Abbreviation dash := (M (api_state * W)).

Definition wire_body (b : body) : str :=
  match b with TextBody s => s | FormBody entries => form_body entries end.

(** [fetch(url, { ...init, headers })] *)
Definition request_of (url : str) (init : option request_init) (headers : list (str * str)) : request :=
  Request url (default (js "GET") (init ≫= ri_method)) headers (wire_body <$> (init ≫= ri_body)).

Definition refresh_request (refresh_token : str) : request :=
  Request (BASE ++ js "/auth/refresh") (js "POST") [content_type_json]
    (Some (stringify (JObj [(js "refresh_token", JStr refresh_token)]))).

(** The body of the refresh promise, up to its [finally]. *)
Definition exchange (refresh_token : str) : M W (option str) :=
  try_catch
    (res ← fetch (refresh_request refresh_token);
     if negb (rs_ok res) then clearSession;; mret None
     else
       data ← JSON_parse (rs_body res);
       token ← read_prop (js "token") data;
       if negb (json_truthy token) then clearSession;; mret None
       else
         let token := json_to_string (default JNull token) in
         storeSession token (text_field (js "refresh_token") data);;
         mret (Some token))
    (λ _, mret None).

Definition refreshAccessToken : dash (option str) :=
  s ← get_state;
  match refreshInFlight s with
  | Some pending => mret pending
  | None =>
      refresh_token ← host getRefreshToken;
      match refresh_token with
      | Some t =>
          if truthy t then try_finally (host (exchange t)) (λ sw, (ApiState None, sw.2))
          else mret None
      | None => mret None
      end
  end.

Definition authHeaders (token : option str) (init : option request_init) (base : list (str * str))
    : list (str * str) :=
  spread_headers base (auth_header token ++ default [] (ri_headers <$> init)).

Definition authedFetch (url : str) (init : option request_init)
    (buildHeaders : option str → list (str * str)) : dash response :=
  stored ← host getToken;
  res ← host (fetch (request_of url init (buildHeaders stored)));
  if negb (rs_status res =? 401)%Z then mret res
  else
    token ← refreshAccessToken;
    match token with
    | Some t =>
        if truthy t then host (fetch (request_of url init (buildHeaders (Some t)))) else mret res
    | None => mret res
    end.

(** [if (!res.ok) throw ...; return res.json()] *)
Definition json_result (res : response) : dash json :=
  if negb (rs_ok res) then throw (new_error (Z_to_str (rs_status res) ++ js " " ++ rs_statusText res))
  else JSON_parse (rs_body res).

Definition req (path : str) (init : option request_init) : dash json :=
  res ← authedFetch (BASE ++ path) init (λ token, authHeaders token init [content_type_json]);
  json_result res.

Definition serverReq (path : str) (init : option request_init) : dash json :=
  res ← authedFetch (SERVER_BASE ++ path) init (λ token, authHeaders token init [content_type_json]);
  json_result res.

Definition is_multipart (init : option request_init) : bool :=
  match init ≫= ri_body with Some (FormBody _) => true | _ => false end.

Definition sdp_headers (init : option request_init) (token : option str) : list (str * str) :=
  let sdpAdminToken := default [] NEXT_PUBLIC_SDP_ADMIN_TOKEN in
  spread_headers
    (authHeaders token None (if is_multipart init then [] else [content_type_json]))
    ((if truthy sdpAdminToken then [(js "SDP-Admin-Token", sdpAdminToken)] else [])
       ++ default [] (ri_headers <$> init)).

Definition sdpReq (path : str) (init : option request_init) : dash json :=
  res ← authedFetch (SDP_BASE ++ path) init (sdp_headers init);
  json_result res.
End Requests.

(** ** Endpoints *)

Record QrRequest := MkQrRequest {
  qr_merchant_id : str; qr_amount : num; qr_asset : str; qr_memo : option str; qr_expiry : num }.
Record WithdrawalRequest := MkWithdrawalRequest {
  wr_destination_address : str; wr_amount : num; wr_asset : str }.
Record PayoutRequest := MkPayoutRequest {
  po_amount : str; po_asset : str; po_bankAccountId : str; po_anchorId : str }.

(** The parameters [transmitBatchParameters] reads. *)
Record BatchDisbursementParams := MkBatchParams {
  bp_file : option file;
  bp_disbursement_name : option str;
  bp_asset_code : option str;
  bp_memo : option str;
  bp_wallet_id : option str;
  bp_auto_start : option bool;
}.

Record YieldAuditQuery := MkYieldAudit {
  ya_q : option str; ya_action : option str; ya_limit : option num; ya_offset : option num;
  ya_from : option str; ya_to : option str }.

Record IdentityQuery := MkIdentityQuery {
  iq_query : option str; iq_limit : option num; iq_offset : option num }.

Definition qr_json (b : QrRequest) : json :=
  literal [present (js "merchant_id") (JStr (qr_merchant_id b)); present (js "amount") (JNum (qr_amount b));
           present (js "asset") (JStr (qr_asset b)); optional (js "memo") (qr_memo b);
           present (js "expiry") (JNum (qr_expiry b))].

Definition withdrawal_json (b : WithdrawalRequest) : json :=
  literal [present (js "destination_address") (JStr (wr_destination_address b));
           present (js "amount") (JNum (wr_amount b)); present (js "asset") (JStr (wr_asset b))].

Definition payout_json (b : PayoutRequest) : json :=
  literal [present (js "amount") (JStr (po_amount b)); present (js "asset") (JStr (po_asset b));
           present (js "bankAccountId") (JStr (po_bankAccountId b));
           present (js "anchorId") (JStr (po_anchorId b))].

Definition bool_text (b : bool) : str := if b then js "true" else js "false".

(** [params.set(k, v)] when [v] is truthy; the names set are distinct. *)
Definition if_truthy (k : str) (o : option str) : list (str * str) :=
  match o with Some v => if truthy v then [(k, v)] else [] | None => [] end.
(** A number set when neither null nor undefined. *)
Definition if_given (k : str) (o : option num) : list (str * str) :=
  match o with Some n => [(k, num_to_str n)] | None => [] end.

(** The parameters of [yieldAuditLogs], in the order they are set. *)
Definition yield_audit_params (p : YieldAuditQuery) : list (str * str) :=
  if_truthy (js "q") (ya_q p)
  ++ match ya_action p with
     | Some a => if truthy a && negb (str_eqb a (js "all")) then [(js "action", a)] else []
     | None => []
     end
  ++ if_given (js "limit") (ya_limit p) ++ if_given (js "offset") (ya_offset p)
  ++ if_truthy (js "from") (ya_from p) ++ if_truthy (js "to") (ya_to p).

Definition identity_params (p : IdentityQuery) : list (str * str) :=
  if_truthy (js "q") (iq_query p) ++ if_given (js "limit") (iq_limit p)
  ++ if_given (js "offset") (iq_offset p).

(** A query text with its question mark, empty when there is no parameter. *)
Definition suffix (ps : list (str * str)) : str :=
  let query := params_to_string ps in if truthy query then js "?" ++ query else [].

(** [?limit=..&offset=..] *)
Definition page_query (limit offset : num) : str :=
  js "?limit=" ++ num_to_str limit ++ js "&offset=" ++ num_to_str offset.

(** The form of a batch upload. *)
Definition batch_form (f : file) (p : BatchDisbursementParams) : list (str * form_value) :=
  let text k o := match o with Some v => if truthy v then [(js k, FormText v)] else [] | None => [] end in
  [(js "file", FormFile f)]
  ++ text "disbursement_name" (bp_disbursement_name p) ++ text "asset_code" (bp_asset_code p)
  ++ text "memo" (bp_memo p) ++ text "wallet_id" (bp_wallet_id p)
  ++ match bp_auto_start p with Some b => [(js "auto_start", FormText (bool_text b))] | None => [] end.

Definition batch_json (p : BatchDisbursementParams) : json :=
  literal [optional (js "disbursement_name") (bp_disbursement_name p);
           optional (js "asset_code") (bp_asset_code p); optional (js "memo") (bp_memo p);
           optional (js "wallet_id") (bp_wallet_id p); (js "auto_start", JBool <$> bp_auto_start p)].

Definition volume_fallback : json :=
  let row asset volume count :=
    JObj [(js "asset", JStr (js asset)); (js "volume", JNum (num_of_Z volume)); (js "count", JNum (num_of_Z count))] in
  JObj [(js "totals_by_asset", JArr [row "NGNC" 18500000%Z 420%Z; row "USDC" 32400%Z 215%Z; row "XLM" 95000%Z 110%Z]);
        (js "total_naira_volume", JNum (num_of_Z 18500000)); (js "total_usd_volume", JNum (num_of_Z 32400))].

Definition providers_fallback : json :=
  let row provider count percentage :=
    JObj [(js "provider", JStr (js provider)); (js "count", JNum (num_of_Z count)); (js "percentage", JNum percentage)] in
  JObj [(js "privy_signups", JNum (num_of_Z 1420)); (js "standard_signups", JNum (num_of_Z 680));
        (js "keypair_signups", JNum (num_of_Z 240)); (js "total_users", JNum (num_of_Z 2340));
        (js "breakdown", JArr [row "Privy (Web3/Social)" 1420%Z (dec_value false 607 (-1));
                               row "Standard (PIN/ID)" 680%Z (dec_value false 291 (-1));
                               row "Keypair/Freighter" 240%Z (dec_value false 102 (-1))])].

Section Endpoints.
Context `{Host W, Browser, DashEnv, Multipart}.
Abbreviation dash := (M (api_state * W)).

Definition login (user_id pin : str) : dash json :=
  req (js "/auth/login")
    (post (stringify (JObj [(js "user_id", JStr user_id); (js "pin", JStr pin)]))).
Definition dashboardStats : dash json := req (js "/admin/dashboard/stats") None.
Definition socialFeed (limit : option num) : dash json :=
  req (js "/api/feed/public?limit=" ++ num_to_str (default (num_of_Z 100) limit) ++ js "&offset=0") None.
Definition transactions (params : option (list (str * str))) : dash json :=
  req (js "/admin/transactions" ++
       match params with Some ps => js "?" ++ params_to_string ps | None => [] end) None.
Definition getPayment (id : str) : dash json := req (js "/payments/" ++ id) None.
Definition generateQr (b : QrRequest) : dash json := req (js "/qr/generate") (post (stringify (qr_json b))).
Definition createWithdrawal (b : WithdrawalRequest) : dash json :=
  req (js "/withdrawals") (post (stringify (withdrawal_json b))).
Definition getWithdrawal (id : str) : dash json := req (js "/withdrawals/" ++ id) None.
Definition requestPayout (b : PayoutRequest) : dash json := req (js "/payouts") (post (stringify (payout_json b))).

Definition payoutHistory (limit offset : option num) : dash json :=
  req (js "/payouts/history" ++ page_query (default (num_of_Z 20) limit) (default (num_of_Z 0) offset)) None.
Definition listBatchPayouts (limit offset : option num) : dash json :=
  req (js "/api/payouts/batches" ++ page_query (default (num_of_Z 20) limit) (default (num_of_Z 0) offset)) None.
Definition getBatchPayout (id : str) : dash json := req (js "/api/payouts/batch/" ++ id) None.
Definition retryBatchItem (id : str) (itemIndex : num) : dash json :=
  serverReq (js "/api/v1/payouts/batch/" ++ id ++ js "/retry")
    (post (stringify (JObj [(js "item_index", JNum itemIndex)]))).
Definition myProfile : dash json := req (js "/profiles/me") None.

Definition contractHealth : dash json := serverReq (js "/api/v1/admin/contracts/health") None.
Definition contractMetrics : dash json := serverReq (js "/api/v1/admin/contracts/metrics") None.
Definition contractAlerts : dash json := serverReq (js "/api/v1/admin/contracts/alerts") None.
Definition contractConfig : dash json := serverReq (js "/api/v1/admin/contracts/config") None.
Definition setFeeCoefficient (fee_coefficient : num) : dash json :=
  serverReq (js "/api/v1/admin/contracts/config/fee-coefficient")
    (post (stringify (JObj [(js "fee_coefficient", JNum fee_coefficient)]))).

Definition yieldStats : dash json := req (js "/admin/vault/stats") None.
Definition yieldRateHistory : dash json := req (js "/api/yield/rates/history") None.
Definition yieldAuditLogs (params : option YieldAuditQuery) : dash json :=
  req (js "/api/yield/history" ++ suffix (default [] (yield_audit_params <$> params))) None.

Definition searchUsers (query : str) : dash json :=
  q ← encode_uri query;
  req (js "/api/users/search?q=" ++ q) None.
Definition registryClaims : dash json := req (js "/api/registry/claims") None.
Definition registryStats : dash json := req (js "/api/registry/stats") None.
Definition userPayments (username : str) : dash json :=
  u ← encode_uri username;
  req (js "/api/users/" ++ u ++ js "/payments") None.
Definition identityLinks (params : option IdentityQuery) : dash json :=
  req (js "/admin/identity/links" ++ suffix (default [] (identity_params <$> params))) None.
Definition getIdentityLink (userId : str) : dash json :=
  u ← encode_uri userId;
  req (js "/admin/identity/links/" ++ u) None.
Definition adminLogs (limit offset : option num) : dash json :=
  serverReq (js "/api/v1/admin/logs" ++ page_query (default (num_of_Z 50) limit) (default (num_of_Z 0) offset)) None.

(** No token, and the answer is read whatever its status. *)
Definition health : dash json :=
  res ← host (fetch (Request (BASE ++ js "/health") (js "GET") [] None));
  JSON_parse (rs_body res).

Definition getSdpStatus : dash json := sdpReq (js "/api/status") None.

Definition multipart_post (entries : list (str * form_value)) : option request_init :=
  Some (RequestInit (Some (js "POST")) (Some (FormBody entries)) []).

Definition uploadDisbursementCSV (f : file) (disbursementName : str) : dash json :=
  sdpReq (js "/api/disbursements")
    (multipart_post [(js "file", FormFile f); (js "disbursement_name", FormText disbursementName)]).
Definition listDisbursements (limit offset : option num) : dash json :=
  sdpReq (js "/api/disbursements" ++ page_query (default (num_of_Z 20) limit) (default (num_of_Z 0) offset)) None.
Definition getDisbursement (id : str) : dash json := sdpReq (js "/api/disbursements/" ++ id) None.
Definition getDisbursementLogs (id : str) : dash json :=
  sdpReq (js "/api/disbursements/" ++ id ++ js "/logs") None.
Definition transmitBatchParameters (params : BatchDisbursementParams) : dash json :=
  match bp_file params with
  | Some f => sdpReq (js "/api/disbursements") (multipart_post (batch_form f params))
  | None => sdpReq (js "/api/disbursements") (post (stringify (batch_json params)))
  end.

Definition getDisbursedVolumeStats : dash json :=
  try_catch (sdpReq (js "/api/disbursements/stats/volume") None) (λ _, mret volume_fallback).
Definition authProviderStats : dash json :=
  try_catch (req (js "/admin/analytics/auth-providers") None) (λ _, mret providers_fallback).
End Endpoints.

(** ** The session as the stores hold it *)

Record session := Session { access : option str; refresh : option str }.

(** What the server's answer to an exchange means. *)
Inductive outcome :=
  | Lost                                            (** no answer that can be read *)
  | Refused                                         (** the refresh token is spent or revoked *)
  | Renewed (token : str) (rotated : option str).

Definition outcome_of (r : res response) : outcome :=
  match r with
  | Throw _ => Lost
  | Ok res =>
      if negb (rs_ok res) then Refused
      else match json_parse (rs_body res) with
           | None | Some JNull => Lost
           | Some data =>
               if json_truthy (json_get (js "token") data)
               then Renewed (json_to_string (default JNull (json_get (js "token") data)))
                      (text_field (js "refresh_token") data)
               else Refused
           end
  end.

Definition store_pure (token : str) (rotated : option str) (s : session) : session :=
  Session (Some token) (if truthy_opt rotated then rotated else refresh s).

Definition settle (o : outcome) (s : session) : session :=
  match o with
  | Lost => s
  | Refused => Session None None
  | Renewed token rotated => store_pure token rotated s
  end.

(** The token handed to the waiting calls: a token that cannot be written as a
    cookie is stored but not handed out. *)
Definition outcome_token (o : outcome) : option str :=
  match o with
  | Renewed token _ => if encodeURIComponent token is Some _ then Some token else None
  | _ => None
  end.

Section SessionFacts.
Context `{HostLaws W, Browser}.
Implicit Types w : W.

Definition session_of w : session :=
  Session (st_peek w LocalStorage TOKEN_KEY) (st_peek w LocalStorage REFRESH_TOKEN_KEY).

Lemma session_kept w w' : (∀ s k, st_peek w' s k = st_peek w s k) → session_of w' = session_of w.
Proof. intros K. unfold session_of. by rewrite !K. Qed.

Lemma readStored_run key w : in_browser = true → st_live w →
  ∃ w', readStored key w = (Ok (st_peek w LocalStorage key), w') ∧ kept w w'.
Proof. intros B L. unfold readStored. rewrite B. by apply get_live. Qed.

Lemma clearSession_run w : in_browser = true → st_live w → ∃ w',
  clearSession w = (Ok tt, w') ∧ session_of w' = Session None None ∧
  st_peek w' CookieJar TOKEN_KEY = None ∧ st_peek w' CookieJar AUTH_COOKIE = None ∧
  (∀ s k, (s, k) ∉ [(LocalStorage, TOKEN_KEY); (LocalStorage, REFRESH_TOKEN_KEY);
                    (CookieJar, TOKEN_KEY); (CookieJar, AUTH_COOKIE)] →
     st_peek w' s k = st_peek w s k) ∧
  net_trace w' = net_trace w ∧ st_live w'.
Proof.
  intros B L. unfold clearSession. rewrite B. cbn [negb].
  destruct (del_live LocalStorage TOKEN_KEY w L) as (w1 & E1 & S1).
  assert (L1 : st_live w1) by by apply S1.
  destruct (del_live LocalStorage REFRESH_TOKEN_KEY w1 L1) as (w2 & E2 & S2).
  assert (L2 : st_live w2) by by apply S2.
  destruct (del_live CookieJar TOKEN_KEY w2 L2) as (w3 & E3 & S3).
  assert (L3 : st_live w3) by by apply S3.
  destruct (del_live CookieJar AUTH_COOKIE w3 L3) as (w4 & E4 & S4).
  exists w4. rewrite (run_bind_ok _ _ _ _ _ E1), (run_bind_ok _ _ _ _ _ E2),
    (run_bind_ok _ _ _ _ _ E3), E4.
  destruct S1 as [e1 n1 t1 _], S2 as [e2 n2 t2 _], S3 as [e3 n3 t3 _], S4 as [e4 n4 t4 l4].
  split; [done|]. unfold session_of. repeat split.
  - rewrite n4, n3, n2, e1 by (vm_compute; congruence).
    rewrite n4, n3, e2 by (vm_compute; congruence). done.
  - by rewrite n4, e3 by (vm_compute; congruence).
  - exact e4.
  - intros s k Hk. rewrite !not_elem_of_cons in Hk. destruct Hk as (? & ? & ? & ? & _).
    by rewrite n4, n3, n2, n1.
  - congruence.
  - by apply l4.
Qed.

Lemma storeSession_run token rotated w : in_browser = true → st_live w → ∃ w',
  storeSession token rotated w
    = (if encodeURIComponent token is Some _ then Ok tt else Throw uri_error, w') ∧
  session_of w' = store_pure token rotated (session_of w) ∧
  (∀ e, encodeURIComponent token = Some e → st_peek w' CookieJar TOKEN_KEY = Some e) ∧
  net_trace w' = net_trace w ∧ st_live w'.
Proof.
  intros B L. unfold storeSession. rewrite B. cbn [negb].
  destruct (set_live LocalStorage TOKEN_KEY token w L) as (w1 & E1 & [e1 n1 t1 l1]).
  assert (L1 : st_live w1) by auto.
  rewrite (run_bind_ok _ _ _ _ _ E1). clear E1.
  set (m := match rotated with Some r => _ | None => _ end : M W unit).
  assert (Hm : ∃ w2, m w1 = (Ok tt, w2) ∧ session_of w2 = store_pure token rotated (session_of w) ∧
                 net_trace w2 = net_trace w ∧ st_live w2).
  { subst m. unfold store_pure, session_of. rewrite <-t1.
    destruct rotated as [r|]; [destruct r as [|c r]|].
    2:{ cbn [truthy truthy_opt].
        destruct (set_live LocalStorage REFRESH_TOKEN_KEY (c :: r) w1 L1) as (w2 & E2 & [e2 n2 t2 l2]).
        exists w2. rewrite n2, e1, e2 by (vm_compute; congruence). repeat split; auto. }
    all: exists w1; rewrite e1, n1 by (vm_compute; congruence); by repeat split. }
  destruct Hm as (w2 & E2 & S2 & T2 & L2). rewrite (run_bind_ok _ _ _ _ _ E2).
  unfold encode_uri. destruct (encodeURIComponent token) as [enc|].
  - destruct (set_live CookieJar TOKEN_KEY enc w2 L2) as (w3 & E3 & [e3 n3 t3 l3]). exists w3.
    rewrite (run_bind_ok _ _ _ w2 enc eq_refl), E3. split; [done|]. unfold session_of.
    rewrite !n3 by (vm_compute; congruence). split; [exact S2|]. split; [by intros e [= <-]|].
    split; [congruence|auto].
  - exists w2. split; [done|]. split; [done|]. by split.
Qed.
End SessionFacts.

(** ** Exchange, retry *)

Section Properties.
Context `{HostLaws W, Browser, DashEnv, Multipart}.
Context (B : in_browser = true).
Implicit Types (w : W) (s : api_state).

(** One exchange: exactly the refresh request, and the session its answer dictates. *)
Lemma exchange_run t w : st_live w → ∃ r w',
  exchange t w = (Ok (outcome_token (outcome_of r)), w') ∧
  net_trace w' = net_trace w ++ [(refresh_request t, r)] ∧
  session_of w' = settle (outcome_of r) (session_of w) ∧ st_live w'.
Proof.
  intros L. destruct (fetch_spec (refresh_request t) w) as (r & w1 & E1 & [p1 t1 l1]).
  assert (L1 : st_live w1) by auto. pose proof (session_kept w w1 p1) as S1.
  exists r. unfold exchange. destruct r as [res|e].
  2:{ exists w1. split; [by rewrite (run_try_throw _ _ _ _ _ (run_bind_throw _ _ _ _ _ E1))|]. by split. }
  unfold try_catch. rewrite (run_bind_ok _ _ _ _ _ E1). cbn [outcome_of].
  assert (C : ∃ w', (clearSession;; mret (M := M W) (A := option str) None) w1 = (Ok None, w') ∧
            net_trace w' = net_trace w ++ [(refresh_request t, Ok res)] ∧
            session_of w' = Session None None ∧ st_live w').
  { destruct (clearSession_run w1 B L1) as (w2 & E2 & S2 & _ & _ & _ & T2 & L2). exists w2.
    rewrite (run_bind_ok _ _ _ _ _ E2). split; [done|]. by rewrite T2. }
  destruct (rs_ok res); cbn [negb].
  2:{ destruct C as (w2 & E2 & C). exists w2. by rewrite E2. }
  unfold JSON_parse. destruct (json_parse (rs_body res)) as [data|].
  2:{ exists w1. by split. }
  rewrite (run_bind_ok _ _ _ w1 data eq_refl).
  assert (D : data = JNull ∨ data ≠ JNull) by (destruct data; auto; by right).
  destruct D as [->|D]; [by exists w1|].
  rewrite (run_bind_ok _ _ _ w1 (json_get (js "token") data)) by (by destruct data).
  replace (match data with JNull => Lost | _ => _ end) with
    (if json_truthy (json_get (js "token") data)
     then Renewed (json_to_string (default JNull (json_get (js "token") data)))
            (text_field (js "refresh_token") data)
     else Refused) by (by destruct data).
  destruct (json_truthy _); cbn [negb].
  2:{ destruct C as (w2 & E2 & C). exists w2. by rewrite E2. }
  set (tok := json_to_string _). set (rot := text_field _ _).
  destruct (storeSession_run tok rot w1 B L1) as (w2 & E2 & S2 & _ & T2 & L2). exists w2.
  cbn [outcome_token settle]. rewrite S1 in S2. rewrite T2.
  destruct (encodeURIComponent tok).
  - rewrite (run_bind_ok _ _ _ _ _ E2). by split.
  - rewrite (run_bind_throw _ _ _ _ _ E2). by split.
Qed.

(** What a call of [refreshAccessToken] with nothing pending does: [None] when there is
    no token to exchange, otherwise the settled exchange. *)
Definition refreshed w (r : option (str * res response)) (out : option str) w' : Prop :=
  match r with
  | None => truthy_opt (refresh (session_of w)) = false ∧ out = None ∧
      session_of w' = session_of w ∧ net_trace w' = net_trace w
  | Some (t, r) => refresh (session_of w) = Some t ∧ t ≠ [] ∧
      out = outcome_token (outcome_of r) ∧
      session_of w' = settle (outcome_of r) (session_of w) ∧
      net_trace w' = net_trace w ++ [(refresh_request t, r)]
  end.

Lemma refresh_run w : st_live w → ∃ r out w',
  refreshAccessToken (ApiState None, w) = (Ok out, (ApiState None, w')) ∧
  refreshed w r out w' ∧ st_live w'.
Proof.
  intros L. unfold refreshAccessToken. rewrite (run_bind_ok _ _ _ _ _ (run_get_state _ _)).
  cbn [refreshInFlight]. destruct (readStored_run REFRESH_TOKEN_KEY w B L) as (w1 & E1 & K1).
  rewrite (run_bind_ok _ _ _ _ _ (run_host _ (ApiState None) _ _ _ E1)).
  assert (L1 : st_live w1) by by apply K1.
  pose proof (session_kept w w1 (kept_peek _ _ K1)) as S1.
  destruct (st_peek w LocalStorage REFRESH_TOKEN_KEY) as [t|] eqn:Et.
  2:{ exists None, None, w1. split; [done|]. split; [|done]. unfold refreshed. cbn. rewrite Et.
      repeat split; [done|by apply K1]. }
  destruct (truthy t) eqn:Ht.
  2:{ exists None, None, w1. split; [done|]. split; [|done]. unfold refreshed. cbn. rewrite Et. cbn.
      repeat split; [done|done|by apply K1]. }
  destruct (exchange_run t w1 L1) as (r & w2 & E2 & T2 & S2 & L2).
  exists (Some (t, r)), (outcome_token (outcome_of r)), w2. split.
  - unfold try_finally. by rewrite (run_host _ (ApiState None) _ _ _ E2).
  - split; [|done]. cbn. split; [exact Et|]. split; [by apply truthy_true|]. split; [done|].
    rewrite S2, S1, T2, (kept_trace _ _ K1). done.
Qed.

(** What one authenticated request amounts to. *)
Inductive retried (mk : option str → request) w : res response → W → Prop :=
  | answered r w' :                       (** not a 401: handed back as it is *)
      (∀ res, r = Ok res → rs_status res ≠ 401%Z) →
      session_of w' = session_of w →
      net_trace w' = net_trace w ++ [(mk (access (session_of w)), r)] →
      retried mk w r w'
  | not_refreshed res x out w1 w' :      (** no new token: the 401 is handed back *)
      rs_status res = 401%Z → session_of w1 = session_of w →
      net_trace w1 = net_trace w ++ [(mk (access (session_of w)), Ok res)] →
      refreshed w1 x out w' → truthy_opt out = false → retried mk w (Ok res) w'
  | replayed res x t r w1 w2 w' :        (** replayed once, with the new token *)
      rs_status res = 401%Z → session_of w1 = session_of w →
      net_trace w1 = net_trace w ++ [(mk (access (session_of w)), Ok res)] →
      refreshed w1 x (Some t) w2 → t ≠ [] →
      session_of w' = session_of w2 →
      net_trace w' = net_trace w2 ++ [(mk (Some t), r)] → retried mk w r w'.

Lemma authedFetch_run url init build w : st_live w → ∃ r w',
  authedFetch url init build (ApiState None, w) = (r, (ApiState None, w')) ∧
  retried (λ token, request_of url init (build token)) w r w' ∧ st_live w'.
Proof.
  intros L. set (mk := λ token, request_of url init (build token)). unfold authedFetch.
  destruct (readStored_run TOKEN_KEY w B L) as (w1 & E1 & K1).
  rewrite (run_bind_ok _ _ _ _ _ (run_host _ (ApiState None) _ _ _ E1)).
  change (request_of url init (build (st_peek w LocalStorage TOKEN_KEY)))
    with (mk (access (session_of w))).
  destruct (fetch_spec (mk (access (session_of w))) w1) as (r & w2 & E2 & [p2 t2 l2]).
  assert (S2 : session_of w2 = session_of w).
  { apply session_kept. intros s k. by rewrite p2, (kept_peek _ _ K1). }
  assert (T2 : net_trace w2 = net_trace w ++ [(mk (access (session_of w)), r)]).
  { by rewrite t2, (kept_trace _ _ K1). }
  assert (L2 : st_live w2) by by apply l2, K1.
  destruct r as [res|e].
  2:{ exists (Throw e), w2. rewrite (run_bind_throw _ _ _ _ _ (run_host _ _ _ _ _ E2)).
      split; [done|]. split; [|done]. by apply answered. }
  rewrite (run_bind_ok _ _ _ _ _ (run_host _ _ _ _ _ E2)).
  destruct (Z.eqb_spec (rs_status res) 401) as [H401|H401]; cbn [negb].
  2:{ exists (Ok res), w2. split; [done|]. split; [|done]. apply answered; [|done..]. by intros ? [= <-]. }
  destruct (refresh_run w2 L2) as (x & out & w3 & E3 & R3 & L3).
  rewrite (run_bind_ok _ _ _ _ _ E3).
  destruct (truthy_opt out) eqn:Ho.
  - destruct out as [t|]; [|done]. cbn in Ho. rewrite Ho.
    destruct (fetch_spec (mk (Some t)) w3) as (r & w4 & E4 & [p4 t4 l4]).
    exists r, w4. rewrite (run_host _ _ _ _ _ E4). split; [done|]. split; [|by apply l4].
    eapply replayed; try done; [by apply truthy_true|by apply session_kept].
  - exists (Ok res), w3. split; [destruct out as [t|]; [cbn in Ho; by rewrite Ho|done]|].
    split; [|done]. by eapply not_refreshed.
Qed.

(** C5: an authenticated request sends the request with the stored token; only a 401 answer
    makes it spend the stored refresh token, once; a renewed session is stored and the same
    request is sent a second and last time with the new token, whose answer is final, while
    a refused or failed renewal hands the 401 back; no path rejects except by the network
    failure of the request itself, and the refresh is never left pending. *)
Theorem authed_fetch_retries_once url init build w : st_live w → ∃ r w',
  authedFetch url init build (ApiState None, w) = (r, (ApiState None, w')) ∧
  retried (λ token, request_of url init (build token)) w r w' ∧
  (length (net_trace w') <= length (net_trace w) + 3)%nat.
Proof.
  intros L. destruct (authedFetch_run url init build w L) as (r & w' & E & R & _).
  exists r, w'. split; [done|]. split; [done|].
  destruct R as [r w' _ _ T|res x out w1 w' _ _ T1 F _|res x t r w1 w2 w' _ _ T1 F _ _ T2];
    [rewrite T, length_app; cbn; lia|..].
  all: destruct x as [[t' r']|]; cbn in F; destruct_and?;
    repeat match goal with E : net_trace _ = _ |- _ => rewrite E; clear E end;
    rewrite ?length_app; cbn; lia.
Qed.

(** C9: refreshing never rejects: without a refresh token it answers [null] and sends
    nothing; otherwise it posts the stored refresh token once, a network failure or an
    unreadable answer leaves the session alone, a refusal empties it, and a renewal stores
    the new access token and the rotated refresh token (the old one when none came back);
    with a promise already pending nothing is sent and its value is shared. *)
Theorem refresh_outcomes w : st_live w →
  (∃ r out w', refreshAccessToken (ApiState None, w) = (Ok out, (ApiState None, w')) ∧
     refreshed w r out w') ∧
  (∀ v, refreshAccessToken (ApiState (Some v), w) = (Ok v, (ApiState (Some v), w))).
Proof.
  intros L. split; [|done]. destruct (refresh_run w L) as (r & out & w' & E & R & _). eauto 6.
Qed.

(** a stored session is read back (an absent or empty refresh token keeps the old
    one) and its cookie decodes to the token; clearing removes both tokens and both cookies,
    so that nothing authenticates, and touches nothing else. *)
Theorem dashboard_session_round_trip token rotated w : st_live w → well_paired token → ∃ w1 w2,
  storeSession token rotated w = (Ok tt, w1) ∧
  session_of w1 = store_pure token rotated (session_of w) ∧
  (st_peek w1 CookieJar TOKEN_KEY ≫= decodeURIComponent) = Some token ∧
  clearSession w1 = (Ok tt, w2) ∧ session_of w2 = Session None None ∧
  st_peek w2 CookieJar TOKEN_KEY = None ∧ st_peek w2 CookieJar AUTH_COOKIE = None.
Proof.
  intros L [Hwf [e He]]. destruct (storeSession_run token rotated w B L) as (w1 & E1 & S1 & C1 & _ & L1).
  destruct (clearSession_run w1 B L1) as (w2 & E2 & S2 & C2 & D2 & _).
  exists w1, w2. rewrite He in E1. rewrite (C1 e He).
  change (Some e ≫= decodeURIComponent) with (decodeURIComponent e).
  by rewrite (decode_encode token e).
Qed.

(** ** Answers *)

(** What a request helper resolves or rejects with. *)
Definition answer_of (r : res response) : res json :=
  match r with
  | Throw e => Throw e
  | Ok res =>
      if rs_ok res then match json_parse (rs_body res) with Some v => Ok v | None => Throw syntax_error end
      else Throw (new_error (Z_to_str (rs_status res) ++ js " " ++ rs_statusText res))
  end.

Lemma helper_run url init build w : st_live w → ∃ r w',
  retried (λ token, request_of url init (build token)) w r w' ∧
  (res ← authedFetch url init build; json_result res) (ApiState None, w)
    = (answer_of r, (ApiState None, w')) ∧ st_live w'.
Proof.
  intros L. destruct (authedFetch_run url init build w L) as (r & w' & E & R & L').
  exists r, w'. split; [done|]. split; [|done]. destruct r as [res|e].
  - rewrite (run_bind_ok _ _ _ _ _ E). unfold json_result, JSON_parse, answer_of.
    destruct (rs_ok res); [|done]. by destruct (json_parse _).
  - by rewrite (run_bind_throw _ _ _ _ _ E).
Qed.

Lemma sdpReq_run path init w : st_live w → ∃ r w',
  retried (λ token, request_of (SDP_BASE ++ path) init (sdp_headers init token)) w r w' ∧
  sdpReq path init (ApiState None, w) = (answer_of r, (ApiState None, w')) ∧ st_live w'.
Proof. apply (helper_run (SDP_BASE ++ path) init (sdp_headers init)). Qed.

Lemma authHeaders_bearer init base t :
  default [] (ri_headers <$> init) = [] → t ≠ [] →
  header (js "Authorization") (authHeaders (Some t) init base) = Some (js "Bearer " ++ t).
Proof.
  intros Hi Ht. unfold authHeaders. rewrite Hi, app_nil_r.
  apply (header_bearer base [] t). by apply truthy_true.
Qed.

Lemma sdp_headers_bearer init t :
  default [] (ri_headers <$> init) = [] → t ≠ [] →
  header (js "Authorization") (sdp_headers init (Some t)) = Some (js "Bearer " ++ t).
Proof.
  intros Hi Ht. unfold sdp_headers. rewrite Hi, app_nil_r. destruct (truthy _).
  - unfold spread_headers. cbn [foldl fst snd]. rewrite header_set_ne by (vm_compute; congruence).
    by apply authHeaders_bearer.
  - by apply authHeaders_bearer.
Qed.

(** every helper resolves with the parsed JSON of a 2xx answer and rejects otherwise,
    with the status line, the failure of the network or a syntax error; every attempt of
    a request without headers of its own carries the token it was made with as its bearer
    token. *)
Theorem helper_answers path init w : st_live w →
  let json_headers token := authHeaders token init [content_type_json] in
  (∃ r w', retried (λ token, request_of (BASE ++ path) init (json_headers token)) w r w' ∧
     req path init (ApiState None, w) = (answer_of r, (ApiState None, w'))) ∧
  (∃ r w', retried (λ token, request_of (SERVER_BASE ++ path) init (json_headers token)) w r w' ∧
     serverReq path init (ApiState None, w) = (answer_of r, (ApiState None, w'))) ∧
  (∃ r w', retried (λ token, request_of (SDP_BASE ++ path) init (sdp_headers init token)) w r w' ∧
     sdpReq path init (ApiState None, w) = (answer_of r, (ApiState None, w'))) ∧
  (default [] (ri_headers <$> init) = [] → ∀ t, t ≠ [] →
     header (js "Authorization") (json_headers (Some t)) = Some (js "Bearer " ++ t) ∧
     header (js "Authorization") (sdp_headers init (Some t)) = Some (js "Bearer " ++ t)).
Proof.
  intros L json_headers.
  destruct (helper_run (BASE ++ path) init json_headers w L) as (r1 & w1 & R1 & E1 & _).
  destruct (helper_run (SERVER_BASE ++ path) init json_headers w L) as (r2 & w2 & R2 & E2 & _).
  destruct (sdpReq_run path init w L) as (r3 & w3 & R3 & E3 & _).
  split; [by exists r1, w1|]. split; [by exists r2, w2|]. split; [by exists r3, w3|].
  intros Hi t Ht. split; [by apply authHeaders_bearer|by apply sdp_headers_bearer].
Qed.
End Properties.

Lemma if_truthy_keys k o : (if_truthy k o).*1 `sublist_of` [k].
Proof. destruct o as [[|c v]|]; cbn; [apply sublist_nil_l|done|apply sublist_nil_l]. Qed.
Lemma if_given_keys k o : (if_given k o).*1 `sublist_of` [k].
Proof. destruct o as [n|]; cbn; [done|apply sublist_nil_l]. Qed.

Definition audit_keys : list str :=
  [js "q"; js "action"; js "limit"; js "offset"; js "from"; js "to"].

Lemma audit_params_keys p : (yield_audit_params p).*1 `sublist_of` audit_keys.
Proof.
  unfold yield_audit_params. rewrite !fmap_app.
  change audit_keys with ([js "q"] ++ [js "action"] ++ [js "limit"] ++ [js "offset"] ++ [js "from"] ++ [js "to"]).
  repeat apply sublist_app; try apply if_truthy_keys; try apply if_given_keys.
  destruct (ya_action p) as [a|]; [|apply sublist_nil_l].
  destruct (_ && _); [done|apply sublist_nil_l].
Qed.

Lemma params_text_truthy ps : truthy (params_to_string ps) = true ↔ ps ≠ [].
Proof.
  rewrite truthy_true. destruct ps as [|[k v] ps]; [done|]. split; [done|]. intros _.
  unfold params_to_string. destruct ps; cbn; unfold param_text; cbn; by destruct (form_encode k).
Qed.

(** the query text of the audit log request reads back as exactly the parameters that
    were given, each name at most once: empty values and the action "all" are left out, and
    no value, whatever characters it holds, can add, drop or change another parameter. *)
Theorem audit_query_faithful p :
  Forall (λ kv, well_paired kv.2) (yield_audit_params p) →
  parse_params (drop 1 (suffix (yield_audit_params p))) = Some (yield_audit_params p) ∧
  NoDup (yield_audit_params p).*1.
Proof.
  intros Hwf. split.
  2:{ eapply sublist_NoDup; [|apply audit_params_keys]. apply keys_distinct_true. vm_compute. reflexivity. }
  assert (Hs : drop 1 (suffix (yield_audit_params p)) = params_to_string (yield_audit_params p)).
  { unfold suffix. pose proof (params_text_truthy (yield_audit_params p)) as Ht.
    destruct (truthy (params_to_string _)) eqn:E; [done|]. by apply truthy_false in E as ->. }
  rewrite Hs. apply parse_params_text, Forall_forall. intros kv Hkv. split.
  - apply well_paired_ascii. assert (Hk : kv.1 ∈ audit_keys).
    { eapply elem_of_submseteq; [|apply sublist_submseteq, audit_params_keys].
      apply list_elem_of_fmap. by exists kv. }
    assert (A : forallb (forallb is_ascii) audit_keys = true) by (vm_compute; reflexivity).
    rewrite forallb_forall in A. by apply A, list_elem_of_In.
  - rewrite Forall_forall in Hwf. by apply Hwf.
Qed.

(** ** Calls that meet a 401 together

    Between two [await]s other calls run. A state holds the session, the refresh token of
    the pending promise, the calls of [authedFetch] by the point they have reached, each
    with the request it makes from a token, and the log of what went over the network:
    requests and exchanges of a refresh token, each with its answer. *)
Module SharedRefresh.

Inductive phase :=
  | Asked (make : option str → request) (token : option str)   (** awaiting the first answer *)
  | Waiting (make : option str → request) (first : response)   (** awaiting the shared promise *)
  | Replaying (make : option str → request) (token : str)      (** awaiting the second answer *)
  | Finished (answer : res response).

Inductive sent :=
  | Requested (rq : request) (r : res response)
  | Exchanged (token : str) (r : res response).

Record sys := Sys {
  held : session;
  pending : option str;
  calls : list phase;
  log : list sent;
}.

(** The exchanges, oldest first, and the refresh tokens posted so far. *)
Definition exchange_in (m : sent) : option (str * res response) :=
  match m with Exchanged t r => Some (t, r) | Requested _ _ => None end.
Definition exchanges (s : sys) : list (str * res response) := omap exchange_in (log s).
Definition posted (s : sys) : list str := (exchanges s).*1 ++ option_list (pending s).

(** The settled promise resumes a waiting call. *)
Definition wake (out : option str) (ph : phase) : phase :=
  match ph with
  | Waiting make first =>
      match out with
      | Some t => if truthy t then Replaying make t else Finished (Ok first)
      | None => Finished (Ok first)
      end
  | _ => ph
  end.

Definition unauthorised (r : res response) : bool :=
  match r with Ok res => (rs_status res =? 401)%Z | Throw _ => false end.

Section Steps.
(** What the server may send along as the next refresh token, given those posted. *)
Context `{DashEnv} (issues : list str → option str → Prop).

(** The code between two [await]s of [authedFetch] and of the refresh promise. *)
Inductive request_step : sys → sys → Prop :=
  | call_starts se p cs lg make :
      request_step (Sys se p cs lg) (Sys se p (cs ++ [Asked make (access se)]) lg)
  | call_answered se p cs lg i make tok r :
      cs !! i = Some (Asked make tok) → unauthorised r = false →
      request_step (Sys se p cs lg)
        (Sys se p (<[i := Finished r]> cs) (lg ++ [Requested (make tok) r]))
  | call_joins se t cs lg i make tok first :
      cs !! i = Some (Asked make tok) → unauthorised (Ok first) = true →
      request_step (Sys se (Some t) cs lg)
        (Sys se (Some t) (<[i := Waiting make first]> cs) (lg ++ [Requested (make tok) (Ok first)]))
  | call_gives_up se cs lg i make tok first :
      cs !! i = Some (Asked make tok) → unauthorised (Ok first) = true →
      truthy_opt (refresh se) = false →
      request_step (Sys se None cs lg)
        (Sys se None (<[i := Finished (Ok first)]> cs) (lg ++ [Requested (make tok) (Ok first)]))
  | call_refreshes se t cs lg i make tok first :
      cs !! i = Some (Asked make tok) → unauthorised (Ok first) = true →
      refresh se = Some t → t ≠ [] →
      request_step (Sys se None cs lg)
        (Sys se (Some t) (<[i := Waiting make first]> cs) (lg ++ [Requested (make tok) (Ok first)]))
  | refresh_settles se t cs lg r :
      (∀ token rotated, outcome_of r = Renewed token rotated →
         issues (posted (Sys se (Some t) cs lg)) rotated) →
      request_step (Sys se (Some t) cs lg)
        (Sys (settle (outcome_of r) se) None (wake (outcome_token (outcome_of r)) <$> cs)
             (lg ++ [Exchanged t r]))
  | replay_answered se p cs lg i make tok r :
      cs !! i = Some (Replaying make tok) →
      request_step (Sys se p cs lg)
        (Sys se p (<[i := Finished r]> cs) (lg ++ [Requested (make (Some tok)) r])).

(** The user signs in and out while requests are under way. *)
Inductive user_step : sys → sys → Prop :=
  | logs_in se p cs lg token rotated :
      issues (posted (Sys se p cs lg)) rotated →
      user_step (Sys se p cs lg) (Sys (store_pure token rotated se) p cs lg)
  | logs_out se p cs lg :
      user_step (Sys se p cs lg) (Sys (Session None None) p cs lg).

Definition step (s s' : sys) : Prop := request_step s s' ∨ user_step s s'.
End Steps.

(** Any server; a server that rotates: every login or renewal comes with a refresh
    token that was never posted. *)
Definition any (po : list str) (rotated : option str) : Prop := True.
Definition rotates (po : list str) (rotated : option str) : Prop :=
  ∃ f, rotated = Some f ∧ f ≠ [] ∧ f ∉ po.

Definition start (se : session) : sys := Sys se None [] [].

(** An exchange the client could not read: no answer came, or a 2xx one whose body is not
    JSON or is [null]. *)
Definition unread (r : res response) : Prop :=
  match r with
  | Throw _ => True
  | Ok res => rs_ok res = true ∧ (json_parse (rs_body res) = None ∨ json_parse (rs_body res) = Some JNull)
  end.

Lemma unread_lost r : outcome_of r = Lost ↔ unread r.
Proof.
  destruct r as [res|e]; [|done]. cbn. destruct (rs_ok res); cbn; [|by split; [|intros []]].
  destruct (json_parse (rs_body res)) as [v|]; [|tauto].
  split; [|intros (_ & [|[= ->]]); done]. intros E. split; [done|]. right.
  destruct v; try done; by destruct (json_truthy _).
Qed.

(** Every earlier exchange of a refresh token in use went unread. *)
Definition fresh_after (exs : list (str * res response)) (t : str) : Prop :=
  ∀ r, (t, r) ∈ exs → unread r.
Definition used_once (exs : list (str * res response)) : Prop :=
  ∀ i j t r r', (i < j)%nat → exs !! i = Some (t, r) → exs !! j = Some (t, r') → unread r.

Record sound (s : sys) : Prop := Sound {
  so_log : used_once (exchanges s);
  so_held : ∀ t, refresh (held s) = Some t → fresh_after (exchanges s) t;
  so_pending : ∀ t, pending s = Some t → fresh_after (exchanges s) t;
  so_waiting : pending s = None → ∀ make first, Waiting make first ∉ calls s;
}.

Lemma wake_not_waiting out (cs : list phase) make first : Waiting make first ∉ (wake out <$> cs).
Proof.
  rewrite list_elem_of_fmap. intros (ph & E & _). destruct ph; try done.
  destruct out as [t|]; cbn in E; [destruct (truthy t)|]; done.
Qed.

Lemma insert_finished_waiting i r (cs : list phase) :
  (∀ make first, Waiting make first ∉ cs) → ∀ make first, Waiting make first ∉ <[i := Finished r]> cs.
Proof.
  intros Hw make first Hin. apply list_elem_of_lookup in Hin as [j Hj].
  apply list_lookup_insert_Some in Hj as [(_ & Hj & _)|(_ & Hj)]; [done|].
  apply (Hw make first). by eapply list_elem_of_lookup_2.
Qed.

Lemma exchanges_requested se p cs lg se' p' cs' rq r :
  exchanges (Sys se p cs (lg ++ [Requested rq r])) = exchanges (Sys se' p' cs' lg).
Proof. unfold exchanges. cbn. by rewrite omap_app, app_nil_r. Qed.

Lemma exchanges_exchanged se p cs lg se' p' cs' t r :
  exchanges (Sys se p cs (lg ++ [Exchanged t r])) = exchanges (Sys se' p' cs' lg) ++ [(t, r)].
Proof. unfold exchanges. cbn. by rewrite omap_app. Qed.

Lemma store_refresh po token rotated se :
  rotates po rotated → refresh (store_pure token rotated se) = rotated.
Proof. intros (f & -> & Hf & _). cbn. by apply truthy_true in Hf as ->. Qed.

Lemma unposted_fresh s t : t ∉ posted s → fresh_after (exchanges s) t.
Proof.
  intros Ht r Hin. destruct Ht. unfold posted. apply elem_of_app. left.
  apply list_elem_of_fmap. by exists (t, r).
Qed.

Lemma used_once_snoc exs t r : used_once exs → fresh_after exs t → used_once (exs ++ [(t, r)]).
Proof.
  intros U F i j t' r1 r2 Hij Hi Hj. rewrite lookup_app_l in Hi.
  2:{ apply lookup_lt_Some in Hj. rewrite length_app in Hj. cbn in Hj. lia. }
  apply lookup_app_Some in Hj as [Hj|(Hl & Hj)]; [by eapply U|].
  destruct (j - length exs)%nat; cbn in Hj; [|done]. injection Hj as <- <-.
  apply F. by eapply list_elem_of_lookup_2.
Qed.

Lemma fresh_after_snoc exs t t' r :
  fresh_after exs t → (t = t' → unread r) → fresh_after (exs ++ [(t', r)]) t.
Proof.
  intros F Hr r' Hin. apply elem_of_app in Hin as [Hin|Hin]; [by apply F|].
  apply list_elem_of_singleton in Hin as [= -> ->]. by apply Hr.
Qed.

Section Rotating.
Context `{DashEnv}.

Lemma settle_sound se t cs lg r :
  sound (Sys se (Some t) cs lg) →
  (∀ token rotated, outcome_of r = Renewed token rotated →
     rotates (posted (Sys se (Some t) cs lg)) rotated) →
  sound (Sys (settle (outcome_of r) se) None (wake (outcome_token (outcome_of r)) <$> cs)
           (lg ++ [Exchanged t r])).
Proof.
  intros [Us He Pe Wa] Hr. split; cbn [held pending calls];
    try rewrite (exchanges_exchanged _ _ _ _ se (Some t) cs).
  - apply used_once_snoc; [done|by apply Pe].
  - intros t'. destruct (outcome_of r) as [| |token rot] eqn:Eo; cbn [settle refresh]; [|done|].
    + intros Ht'. apply fresh_after_snoc; [by apply He|]. intros _. by apply unread_lost.
    + specialize (Hr _ _ eq_refl). rewrite (store_refresh (posted (Sys se (Some t) cs lg))) by done.
      destruct Hr as (f & -> & _ & Hf). intros [= <-]. apply fresh_after_snoc; [by apply unposted_fresh|].
      intros ->. destruct Hf. unfold posted. apply elem_of_app. right. by apply list_elem_of_singleton.
  - done.
  - intros _. apply wake_not_waiting.
Qed.

Lemma step_sound s s' : sound s → step rotates s s' → sound s'.
Proof.
  intros S [St|St].
  - destruct St as [se p cs lg mk|se p cs lg i mk tok r Hi Hr|se t cs lg i mk tok fi Hi Hr
      |se cs lg i mk tok fi Hi Hr Hn|se t cs lg i mk tok fi Hi Hr Ht Hn|se t cs lg r Hr
      |se p cs lg i mk tok r Hi]; [| | | | |by apply settle_sound|];
      destruct S as [Us He Pe Wa]; split; cbn [held pending calls] in *;
      try rewrite (exchanges_requested _ _ _ _ se None cs); try done;
      try (intros Hp; by apply insert_finished_waiting, Wa).
    + intros Hp mk' fi. rewrite not_elem_of_app. split; [by apply Wa|]. by intros ?%list_elem_of_singleton.
    + intros t' [= <-]. by apply He.
  - destruct S as [Us He Pe Wa]. destruct St as [se p cs lg token rot Hr|se p cs lg]; split; cbn in *; try done.
    intros t'. change (refresh (store_pure token rot se) = Some t' → fresh_after (exchanges (Sys se p cs lg)) t').
    rewrite (store_refresh (posted (Sys se p cs lg))) by done. destruct Hr as (f & -> & _ & Hf).
    intros [= <-]. by apply unposted_fresh.
Qed.

Lemma start_sound se : sound (start se).
Proof. split; try done; intros t ? r Hin; by apply elem_of_nil in Hin. Qed.

Lemma reached_sound se s : rtc (step rotates) (start se) s → sound s.
Proof.
  intros R. assert (S0 : sound (start se)) by apply start_sound. revert S0.
  induction R; eauto using step_sound.
Qed.

(** The tokens of the exchanges the server answered. *)
Definition answered_token (x : str * res response) : option str :=
  match x.2 with Ok _ => Some x.1 | Throw _ => None end.

Lemma answered_once exs : used_once exs →
  (∀ t res, (t, Ok res) ∈ exs → ¬ unread (Ok res)) → NoDup (omap answered_token exs).
Proof.
  induction exs as [|[t r] exs IH]; intros U N; [apply NoDup_nil; done|].
  assert (N' : NoDup (omap answered_token exs)).
  { apply IH; [|intros t' res Hin; apply (N t'); by right].
    intros i j t' r1 r2 Hij Hi Hj. exact (U (S i) (S j) t' r1 r2 ltac:(lia) Hi Hj). }
  cbn. destruct r as [res|e]; cbn; [|done]. apply NoDup_cons. split; [|done].
  rewrite list_elem_of_omap. intros ([t' r'] & Hin & E). destruct r' as [res'|]; [|done]. cbn in E.
  injection E as ->. apply list_elem_of_lookup in Hin as [j Hj].
  apply (N t res); [by left|]. exact (U 0 (S j) t (Ok res) (Ok res') ltac:(lia) eq_refl Hj).
Qed.
End Rotating.

(** C2: against a server that rotates refresh tokens, however requests, renewals, logins
    and logouts interleave, a refresh token is never posted again once the client has read
    the server's answer for it: whenever the same token was exchanged before, and whenever
    the one stored or being exchanged was, that earlier exchange brought no answer or a 2xx
    one without readable content. So when every 2xx answer to an exchange carries JSON other than [null],
    every refresh token is answered at most once, the ones stored and pending never yet;
    and no call waits on a promise that has already settled. *)
Theorem refresh_tokens_single_use `{DashEnv} se s :
  rtc (step rotates) (start se) s →
  used_once (exchanges s) ∧
  (∀ t, pending s = Some t ∨ refresh (held s) = Some t → fresh_after (exchanges s) t) ∧
  ((∀ t res, (t, Ok res) ∈ exchanges s → ¬ unread (Ok res)) →
     NoDup (omap answered_token (exchanges s)) ∧
     ∀ t, pending s = Some t ∨ refresh (held s) = Some t → t ∉ omap answered_token (exchanges s)) ∧
  (pending s = None → ∀ make first, Waiting make first ∉ calls s).
Proof.
  intros R. destruct (reached_sound se s R) as [Us He Pe Wa].
  assert (F : ∀ t, pending s = Some t ∨ refresh (held s) = Some t → fresh_after (exchanges s) t).
  { intros t [Ht|Ht]; [by apply Pe|by apply He]. }
  split; [done|]. split; [done|]. split; [|done]. intros N. split; [by apply answered_once|].
  intros t Ht. rewrite list_elem_of_omap. intros ([t' r] & Hin & E).
  destruct r as [res|e]; [|done]. cbn in E. injection E as ->. apply (N t res Hin), (F t Ht). exact Hin.
Qed.

(** the exception is real: after a 2xx answer that cannot be read the token it answered
    for is still stored, and the next 401 posts it again. *)
Theorem unread_answer_reposts_token `{DashEnv} se t res first (make : option str → request) :
  refresh se = Some t → t ≠ [] → unread (Ok res) → unauthorised (Ok first) = true →
  ∃ s, rtc (step rotates) (start se) s ∧ exchanges s = [(t, Ok res)] ∧ pending s = Some t.
Proof.
  intros Hr Ht Hu H4. apply unread_lost in Hu.
  set (asked := Requested (make (access se)) (Ok first)).
  exists (Sys se (Some t) [Finished (Ok first); Waiting make first] [asked; Exchanged t (Ok res); asked]).
  split; [|by split]. eapply rtc_l; [left; by apply (call_starts rotates se None [] [] make)|]. eapply rtc_l.
  { left. by apply (call_refreshes rotates se t [Asked make (access se)] [] 0 make (access se) first). }
  eapply rtc_l. { left. apply (refresh_settles rotates se t _ _ (Ok res)). by rewrite Hu. }
  rewrite Hu. cbn. eapply rtc_l; [left; by apply (call_starts rotates se None _ _ make)|].
  eapply rtc_l; [|reflexivity]. left.
  by apply (call_refreshes rotates se t [Finished (Ok first); Asked make (access se)]
    [asked; Exchanged t (Ok res)] 1 make (access se) first).
Qed.

(** a logout while an exchange is pending does not last: when the server's answer
    arrives, the session it renews is stored again, although nobody logged in. *)
Theorem logout_undone_by_refresh `{DashEnv} se t r token rotated first (make : option str → request) :
  refresh se = Some t → t ≠ [] → outcome_of r = Renewed token rotated → unauthorised (Ok first) = true →
  ∃ out s,
    rtc (step any) (start se) out ∧ held out = Session None None ∧
    rtc (request_step any) out s ∧ access (held s) = Some token ∧ pending s = None.
Proof.
  intros Hr Ht Ho H4. set (asked := Requested (make (access se)) (Ok first)).
  exists (Sys (Session None None) (Some t) [Waiting make first] [asked]).
  exists (Sys (settle (outcome_of r) (Session None None)) None
            (wake (outcome_token (outcome_of r)) <$> [Waiting make first]) ([asked] ++ [Exchanged t r])).
  split.
  { eapply rtc_l; [left; by apply (call_starts any se None [] [] make)|]. eapply rtc_l.
    { left. by apply (call_refreshes any se t [Asked make (access se)] [] 0 make (access se) first). }
    eapply rtc_l; [right; apply logs_out|]. reflexivity. }
  split; [done|]. split; [eapply rtc_l; [by apply refresh_settles|reflexivity]|].
  by rewrite Ho.
Qed.

(** What a logged exchange is on the network. *)
Definition on_wire `{DashEnv} (m : sent) : request * res response :=
  match m with Requested rq r => (rq, r) | Exchanged t r => (refresh_request t, r) end.

(** One refresh of the code is the steps that take its waiting call on. *)
Lemma refreshed_steps `{HostLaws W, Browser, DashEnv} make first old (w1 w2 : W) x out :
  refreshed w1 x out w2 → unauthorised (Ok first) = true → ∃ lg,
  net_trace w2 = net_trace w1 ++ (on_wire <$> lg) ∧
  rtc (request_step any) (Sys (session_of w1) None [Asked make (access (session_of w1))] old)
    (Sys (session_of w2) None [wake out (Waiting make first)]
       (old ++ Requested (make (access (session_of w1))) (Ok first) :: lg)).
Proof.
  intros F H4. set (se := session_of w1). set (q := Requested _ _).
  destruct x as [[t r]|]; unfold refreshed in F; fold se in F.
  - destruct F as (Hr & Ht & -> & -> & ->). exists [Exchanged t r]. split; [done|].
    eapply rtc_l; [by apply (call_refreshes any se t [Asked make (access se)] old 0 make (access se) first)|].
    eapply rtc_l; [by apply (refresh_settles any se t _ _ r)|]. cbn. rewrite <-app_assoc. reflexivity.
  - destruct F as (Hr & -> & -> & ->). exists []. split; [by rewrite app_nil_r|].
    eapply rtc_l; [by apply (call_gives_up any se [Asked make (access se)] old 0 make (access se) first)|].
    reflexivity.
Qed.

(** C20: the code refines the step model: one [authedFetch] run on its own is a run of its
    request steps, none of which signs in or out, from the session it found to the session
    it left: the call ends with the very answer the code returns, nothing is left pending,
    and the requests and exchanges the steps log are, with their answers and in their
    order, what the code put on the network. *)
Theorem authed_fetch_refines `{HostLaws W, Browser, DashEnv, Multipart} url init build (w : W) old :
  in_browser = true → st_live w → ∃ r w' lg,
  authedFetch url init build (ApiState None, w) = (r, (ApiState None, w')) ∧
  net_trace w' = net_trace w ++ (on_wire <$> lg) ∧
  rtc (request_step any) (Sys (session_of w) None [] old)
    (Sys (session_of w') None [Finished r] (old ++ lg)).
Proof.
  intros B L. destruct (authedFetch_run B url init build w L) as (r & w' & E & R & _).
  exists r, w'. set (make := λ token, request_of url init (build token)) in *.
  set (se := session_of w) in *. assert (S1 := call_starts any se None [] old make).
  assert (U : ∀ res, rs_status res = 401%Z → unauthorised (Ok res) = true) by (intros res Hs; cbn; lia).
  destruct R as [r w' Hn Ew T|res x out w1 w' H4 E1 T F Ho|res x t r w1 w2 w' H4 E1 T F Ht Ew T'].
  - exists [Requested (make (access se)) r]. split; [done|]. split; [done|].
    eapply rtc_l; [exact S1|]. eapply rtc_l; [|rewrite Ew; reflexivity].
    apply (call_answered any se None [Asked make (access se)] old 0 make (access se) r); [done|].
    destruct r as [res|]; [|done]. cbn. specialize (Hn res eq_refl). lia.
  - destruct (refreshed_steps make res old w1 w' x out F (U res H4)) as (lg & T2 & S2). rewrite E1 in *.
    exists (Requested (make (access se)) (Ok res) :: lg). split; [done|].
    split; [by rewrite T2, T, <-app_assoc|]. eapply rtc_l; [exact S1|].
    replace (Finished (Ok res)) with (wake out (Waiting make res)); [exact S2|].
    destruct out as [t|]; [|done]. cbn in *. by rewrite Ho.
  - destruct (refreshed_steps make res old w1 w2 x (Some t) F (U res H4)) as (lg & T2 & S2). rewrite E1 in *.
    cbn [wake] in S2. assert (Ht' := Ht). apply truthy_true in Ht'. rewrite Ht' in S2.
    exists ((Requested (make (access se)) (Ok res) :: lg) ++ [Requested (make (Some t)) r]). split; [done|].
    split; [by rewrite T', T2, T, fmap_app, <-!app_assoc|]. rewrite Ew, app_assoc.
    eapply rtc_l; [exact S1|]. eapply rtc_r; [exact S2|].
    by apply (replay_answered any (session_of w2) None [Replaying make t] _ 0 make t r).
Qed.
End SharedRefresh.

(** ** Concrete runs *)

Module Runs.
#[local] Instance demo_env : DashEnv := {|
  NEXT_PUBLIC_API_URL := Some (js "https://api.zaps.app"); NEXT_PUBLIC_SERVER_URL := None;
  NEXT_PUBLIC_SDP_URL := None; NEXT_PUBLIC_SDP_ADMIN_TOKEN := Some (js "adm") |}.
#[local] Instance demo_browser : Browser := true.
#[local] Instance demo_multipart : Multipart := λ _, js "--form--".

Definition renewal : str :=
  stringify (JObj [(js "token", JStr (js "new")); (js "refresh_token", JStr (js "r2"))]).

Definition logged_in (replies : list (res response)) : scripted :=
  world [(LocalStorage, TOKEN_KEY, js "old"); (LocalStorage, REFRESH_TOKEN_KEY, js "r1")] replies.

(** The token expired: refresh, replay, rotated session. *)
Example demo_retry :
  let '(r, (s, w')) := dashboardStats
    (ApiState None, logged_in [reply 401 []; reply 200 renewal; reply 200 (js "{}")]) in
  r = Ok (JObj []) ∧ session_of w' = Session (Some (js "new")) (Some (js "r2")) ∧
  (λ t, (header (js "Authorization") (rq_headers t.1))) <$> net_trace w'
    = [Some (js "Bearer old"); None; Some (js "Bearer new")].
Proof. vm_compute. repeat split. Qed.

(** A refused refresh empties the session; the fallback figures are shown. *)
Example demo_refused :
  let '(r, (s, w')) := authProviderStats (ApiState None, logged_in [reply 401 []; reply 400 []]) in
  r = Ok providers_fallback ∧ session_of w' = Session None None ∧ length (net_trace w') = 2.
Proof. vm_compute. repeat split. Qed.

(** The bearer token and the admin token of the disbursement platform. *)
Example demo_sdp :
  let '(_, (_, w')) := uploadDisbursementCSV (File (js "a.csv") 2 (js "id")) (js "May")
    (ApiState None, logged_in [reply 200 (js "{}")]) in
  (rq_headers ∘ fst) <$> net_trace w'
    = [[bearer (js "old"); (js "SDP-Admin-Token", js "adm")]].
Proof. vm_compute. reflexivity. Qed.

Lemma authed_fetch_retries_once_witness :
  let w := logged_in [reply 401 []; reply 200 renewal; reply 200 (js "{}")] in
  ∃ r w', authedFetch (js "u") None (λ token, authHeaders token None []) (ApiState None, w)
      = (r, (ApiState None, w')) ∧
    retried (λ token, request_of (js "u") None (authHeaders token None [])) w r w' ∧
    (length (net_trace w') <= length (net_trace w) + 3)%nat.
Proof.
  apply (authed_fetch_retries_once eq_refl (js "u") None (λ token, authHeaders token None []));
    reflexivity.
Defined.

Lemma refresh_outcomes_witness :
  let w := logged_in [reply 200 renewal] in
  (∃ r out w', refreshAccessToken (ApiState None, w) = (Ok out, (ApiState None, w')) ∧
     refreshed w r out w') ∧
  (∀ v, refreshAccessToken (ApiState (Some v), w) = (Ok v, (ApiState (Some v), w))).
Proof. apply (refresh_outcomes eq_refl); reflexivity. Defined.

Lemma dashboard_session_round_trip_witness :
  let w := logged_in [] in ∃ w1 w2,
  storeSession (js "a b") None w = (Ok tt, w1) ∧
  session_of w1 = store_pure (js "a b") None (session_of w) ∧
  (st_peek w1 CookieJar TOKEN_KEY ≫= decodeURIComponent) = Some (js "a b") ∧
  clearSession w1 = (Ok tt, w2) ∧ session_of w2 = Session None None ∧
  st_peek w2 CookieJar TOKEN_KEY = None ∧ st_peek w2 CookieJar AUTH_COOKIE = None.
Proof.
  apply (dashboard_session_round_trip eq_refl); [reflexivity|].
  apply well_paired_ascii. vm_compute. reflexivity.
Defined.

Lemma helper_answers_witness :
  let w := logged_in [reply 500 []] in let init := None in
  let json_headers token := authHeaders token init [content_type_json] in
  (∃ r w', retried (λ token, request_of (BASE ++ js "/x") init (json_headers token)) w r w' ∧
     req (js "/x") init (ApiState None, w) = (answer_of r, (ApiState None, w'))) ∧
  (∃ r w', retried (λ token, request_of (SERVER_BASE ++ js "/x") init (json_headers token)) w r w' ∧
     serverReq (js "/x") init (ApiState None, w) = (answer_of r, (ApiState None, w'))) ∧
  (∃ r w', retried (λ token, request_of (SDP_BASE ++ js "/x") init (sdp_headers init token)) w r w' ∧
     sdpReq (js "/x") init (ApiState None, w) = (answer_of r, (ApiState None, w'))) ∧
  (default [] (ri_headers <$> init) = [] → ∀ t, t ≠ [] →
     header (js "Authorization") (json_headers (Some t)) = Some (js "Bearer " ++ t) ∧
     header (js "Authorization") (sdp_headers init (Some t)) = Some (js "Bearer " ++ t)).
Proof. apply (helper_answers eq_refl (js "/x") None). reflexivity. Defined.

Definition demo_query : YieldAuditQuery :=
  MkYieldAudit (Some (js "a&limit=9 b")) (Some (js "all")) (Some (num_of_Z 20)) None None (Some (js "2026-01-01")).

Example demo_query_text :
  suffix (yield_audit_params demo_query) = js "?q=a%26limit%3D9+b&limit=20&to=2026-01-01".
Proof. vm_compute. reflexivity. Qed.

Lemma audit_query_faithful_witness :
  parse_params (drop 1 (suffix (yield_audit_params demo_query))) = Some (yield_audit_params demo_query) ∧
  NoDup (yield_audit_params demo_query).*1.
Proof.
  apply (audit_query_faithful demo_query).
  repeat (apply Forall_cons; split); try (apply well_paired_ascii; vm_compute; reflexivity).
  apply Forall_nil. exact I.
Defined.

Definition demo_session : session := Session (Some (js "old")) (Some (js "r1")).

Definition expired : response := Response 401 [] [].
Definition plain (token : option str) : request := request_of (js "u") None (authHeaders token None []).

(** Two renewals: the first rotated [r1] to [r2], the second is under way. *)
Definition renewing_again : SharedRefresh.sys :=
  let old := Some (js "old") in let new := Some (js "new") in
  SharedRefresh.Sys (Session new (Some (js "r2"))) (Some (js "r2"))
    [SharedRefresh.Replaying plain (js "new"); SharedRefresh.Waiting plain expired]
    [SharedRefresh.Requested (plain old) (Ok expired); SharedRefresh.Exchanged (js "r1") (reply 200 renewal);
     SharedRefresh.Requested (plain new) (Ok expired)].

Lemma refresh_tokens_single_use_witness :
  let s := renewing_again in
  SharedRefresh.used_once (SharedRefresh.exchanges s) ∧
  (∀ t, SharedRefresh.pending s = Some t ∨ refresh (SharedRefresh.held s) = Some t →
     SharedRefresh.fresh_after (SharedRefresh.exchanges s) t) ∧
  ((∀ t res, (t, Ok res) ∈ SharedRefresh.exchanges s → ¬ SharedRefresh.unread (Ok res)) →
     NoDup (omap SharedRefresh.answered_token (SharedRefresh.exchanges s)) ∧
     ∀ t, SharedRefresh.pending s = Some t ∨ refresh (SharedRefresh.held s) = Some t →
       t ∉ omap SharedRefresh.answered_token (SharedRefresh.exchanges s)) ∧
  (SharedRefresh.pending s = None → ∀ make first, SharedRefresh.Waiting make first ∉ SharedRefresh.calls s).
Proof.
  apply (SharedRefresh.refresh_tokens_single_use demo_session).
  eapply rtc_l; [left; by apply (SharedRefresh.call_starts _ _ None [] [] plain)|]. eapply rtc_l.
  { left. apply (SharedRefresh.call_refreshes _ demo_session (js "r1") [SharedRefresh.Asked plain (Some (js "old"))]
      [] 0 plain (Some (js "old")) expired); [reflexivity..|discriminate]. }
  eapply rtc_l.
  { left. apply (SharedRefresh.refresh_settles _ demo_session (js "r1") _ _ (reply 200 renewal)).
    vm_compute. intros token rotated E. injection E as <- <-. exists (js "r2"). split; [reflexivity|].
    split; [discriminate|]. intros E%list_elem_of_singleton. discriminate E. }
  eapply rtc_l; [left; by apply (SharedRefresh.call_starts _ _ None _ _ plain)|]. eapply rtc_l.
  { left. by apply (SharedRefresh.call_refreshes _ _ (js "r2")
      [SharedRefresh.Replaying plain (js "new"); SharedRefresh.Asked plain (Some (js "new"))] _ 1 plain
      (Some (js "new")) expired). }
  reflexivity.
Defined.

Lemma unread_answer_reposts_token_witness : ∃ s,
  rtc (SharedRefresh.step SharedRefresh.rotates) (SharedRefresh.start demo_session) s ∧
  SharedRefresh.exchanges s = [(js "r1", reply 200 (js "<html>"))] ∧
  SharedRefresh.pending s = Some (js "r1").
Proof.
  apply (SharedRefresh.unread_answer_reposts_token demo_session (js "r1") _ expired plain);
    [reflexivity|discriminate| |reflexivity].
  vm_compute. split; [reflexivity|]. left. reflexivity.
Defined.

(** A [null] refresh token keeps the stored one. *)
Example demo_null_refresh_token :
  outcome_of (reply 200 (stringify (JObj [(js "token", JStr (js "new")); (js "refresh_token", JNull)])))
    = Renewed (js "new") None.
Proof. vm_compute. reflexivity. Qed.

Lemma logout_undone_by_refresh_witness : ∃ out s,
  rtc (SharedRefresh.step SharedRefresh.any) (SharedRefresh.start demo_session) out ∧
  SharedRefresh.held out = Session None None ∧
  rtc (SharedRefresh.request_step SharedRefresh.any) out s ∧
  access (SharedRefresh.held s) = Some (js "new") ∧ SharedRefresh.pending s = None.
Proof.
  apply (SharedRefresh.logout_undone_by_refresh demo_session (js "r1")
           (reply 200 renewal) (js "new") (Some (js "r2")) expired plain);
    [reflexivity|discriminate|vm_compute; reflexivity|reflexivity].
Defined.

Lemma authed_fetch_refines_witness :
  let w := logged_in [reply 401 []; reply 200 renewal; reply 200 (js "{}")] in ∃ r w' lg,
  authedFetch (js "u") None (λ token, authHeaders token None []) (ApiState None, w) = (r, (ApiState None, w')) ∧
  net_trace w' = net_trace w ++ (SharedRefresh.on_wire <$> lg) ∧
  rtc (SharedRefresh.request_step SharedRefresh.any) (SharedRefresh.Sys (session_of w) None [] [])
    (SharedRefresh.Sys (session_of w') None [SharedRefresh.Finished r] ([] ++ lg)).
Proof.
  apply (SharedRefresh.authed_fetch_refines (js "u") None (λ token, authHeaders token None []));
    reflexivity.
Defined.
End Runs.
