(* ===== verification/Export.v ===== *)
(** * Exports of the dashboard

    Model of the exports: [toCSV] of [dashboard/lib/utils.ts], [exportAuditRows] of
    [dashboard/app/dashboard/transactions/page.tsx] and the user export with its masking of
    [dashboard/app/dashboard/page.tsx]. What a CSV file says is given by a reader of
    RFC 4180; the date in a file name is a parameter. *)

From S2P Require Import Prelude JsString JsNumber Json UriCodec FormCodec Effects Scripts Decode DashboardApi.

(** ** A reader of CSV *)

Inductive csv_mode := CellStart | Bare | Quoted | QuoteSeen.

(** The records of a text, [None] when it is malformed. *)
Fixpoint csv_read (mode : csv_mode) (cell : str) (row : list str) (s : str) : option (list (list str)) :=
  match s with
  | [] => match mode with Quoted => None | _ => Some [row ++ [cell]] end
  | c :: s' =>
      if (c =? 34)%N then
        match mode with
        | CellStart => csv_read Quoted [] row s'
        | Bare => None
        | Quoted => csv_read QuoteSeen cell row s'
        | QuoteSeen => csv_read Quoted (cell ++ [34%N]) row s'
        end
      else
        match mode with
        | Quoted => csv_read Quoted (cell ++ [c]) row s'
        | _ =>
            if (c =? 44)%N then csv_read CellStart [] (row ++ [cell]) s'
            else if (c =? 10)%N then cons (row ++ [cell]) <$> csv_read CellStart [] [] s'
            else match mode with QuoteSeen => None | _ => csv_read Bare (cell ++ [c]) row s' end
        end
  end.

Definition csv_parse (s : str) : option (list (list str)) := csv_read CellStart [] [] s.

(** ** The code *)

(** Every quotation mark of the text doubled. *)
Definition double_quotes (v : str) : str := v ≫= λ c, if (c =? 34)%N then [34%N; 34%N] else [c].

Definition quoted (v : str) : str := [34%N] ++ v ++ [34%N].
Definition csv_cell (v : str) : str := quoted (double_quotes v).
Definition csv_row (texts : list str) : str := join [44%N] (csv_cell <$> texts).

(** A row: an object; [row[k]], and [String(row[k])], [String(row[k] ?? "")]. *)
Abbreviation row := (list (str * json)).

Definition js_text (o : option json) : str :=
  match o with None => js "undefined" | Some v => json_to_string v end.
Definition text_or_blank (o : option json) : str :=
  match o with None | Some JNull => [] | Some v => json_to_string v end.

Definition toCSV_headers : list str :=
  [js "id"; js "created_at"; js "from_address"; js "send_asset"; js "send_amount"; js "receive_amount";
   js "status"; js "memo"].

Definition toCSV_texts (r : row) : list str :=
  [js_text (obj_get (js "id") r); js_text (obj_get (js "created_at") r); js_text (obj_get (js "from_address") r);
   js_text (obj_get (js "send_asset") r); js_text (obj_get (js "send_amount") r);
   text_or_blank (obj_get (js "receive_amount") r); js_text (obj_get (js "status") r);
   text_or_blank (obj_get (js "memo") r)].

Definition toCSV (rows : list row) : str :=
  join [10%N] (join [44%N] toCSV_headers :: ((λ r, csv_row (toCSV_texts r)) <$> rows)).

(** [JSON.stringify(v, null, 2)] at an indentation. *)
Fixpoint stringify_indented (margin : nat) (v : json) : str :=
  let pad n := replicate n 32%N in
  let block (open close : N) (items : list str) :=
    match items with
    | [] => [open; close]
    | _ => [open; 10%N] ++ join [44%N; 10%N] (app (pad (margin + 2)) <$> items) ++ [10%N] ++ pad margin ++ [close]
    end in
  match v with
  | JArr l => block 91%N 93%N (map (stringify_indented (margin + 2)) l)
  | JObj fs => block 123%N 125%N (map (λ f, quote f.1 ++ [58%N; 32%N] ++ stringify_indented (margin + 2) f.2) fs)
  | _ => stringify v
  end.

(** A file handed to the user. *)
Record download := Download { dl_content : str; dl_filename : str; dl_mime : str }.

Inductive export_kind := ExportCsv | ExportJson.

Definition csv_mime : str := js "text/csv;charset=utf-8;".

(** Today's date in a file name, in the user's time zone. *)
Class FileStamp := today : str.

Definition stampFilename `{FileStamp} (prefix ext : str) : str := prefix ++ js "-" ++ today ++ js "." ++ ext.

(** The headers and rows of the general export: the keys of the first row. *)
Definition key_csv (rows : list row) : str :=
  let headers := match rows with first :: _ => first.*1 | [] => [] end in
  join [10%N] (join [44%N] headers
    :: ((λ r, csv_row ((λ key, text_or_blank (obj_get key r)) <$> headers)) <$> rows)).

Definition has_key (k : str) (r : row) : bool := bool_decide (k ∈ r.*1).

Definition exportAuditRows `{FileStamp} (rows : list row) (prefix : str) (kind : export_kind) : option download :=
  match rows with
  | [] => None
  | first :: _ =>
      Some match kind with
      | ExportJson =>
          Download (stringify_indented 0 (JArr (JObj <$> rows))) (stampFilename prefix (js "json")) (js "application/json")
      | ExportCsv =>
          Download (if has_key (js "from_address") first && has_key (js "send_amount") first then toCSV rows else key_csv rows)
            (stampFilename prefix (js "csv")) csv_mime
      end
  end.

(** *** Users *)

Record IdentityLink := MkIdentityLink {
  il_user_id : str; il_privy_did : str; il_stellar_address : str; il_display_name : option str;
  il_email : option str; il_linked_at : str; il_status : str }.

Definition identity_link (v : json) : option IdentityLink :=
  user_id ← field_str (js "user_id") v; privy_did ← field_str (js "privy_did") v;
  stellar_address ← field_str (js "stellar_address") v; display_name ← field_opt_str (js "display_name") v;
  email ← field_opt_str (js "email") v; linked_at ← field_str (js "linked_at") v; status ← field_str (js "status") v;
  Some (MkIdentityLink user_id privy_did stellar_address display_name email linked_at status).

Definition stars : str := js "***".

Definition maskEmail (email : str) : str :=
  match split_on 64 email with
  | local :: domain :: _ =>
      if truthy domain then
        (match local with c :: _ :: _ => [c] ++ stars | _ => js "*" end) ++ js "@" ++ domain
      else stars
  | _ => stars
  end.

Definition maskPhone (phone : str) : str :=
  if (length phone <=? 4)%nat then stars else take 3 phone ++ stars ++ slice_last 2 phone.

Definition user_headers : list str :=
  [js "User ID"; js "Privy DID"; js "Stellar Address"; js "Display Name"; js "Email"; js "Phone"; js "Status"; js "Linked At"].

Definition masked (mask : str → str) (o : option str) : str :=
  match o with Some v => if truthy v then mask v else [] | None => [] end.

Definition user_texts (l : IdentityLink) : list str :=
  [il_user_id l; il_privy_did l; il_stellar_address l; default [] (il_display_name l);
   masked maskEmail (il_email l); masked maskPhone (il_display_name l); il_status l; il_linked_at l].

(** The lines of the file: texts between quotes, their own quotes as they are. *)
Definition user_csv (links : list IdentityLink) : str :=
  join [10%N] (join [44%N] user_headers :: ((λ l, join [44%N] (quoted <$> user_texts l)) <$> links)).

Section UserExport.
Context `{Host W, DashEnv, Multipart, Browser}.
Abbreviation dash := (M (api_state * W)).

(** The file, or nothing after a failure. *)
Definition handleExportUsers (stamp : M W str) : dash (option download) :=
  try_catch
    (links ← identityLinks None;
     match field_arr (js "links") links ≫= mapM identity_link with
     | None => throw unchecked_cast
     | Some links =>
         date ← host stamp;
         mret (Some (Download (user_csv links) (js "privy-users-export-" ++ date ++ js ".csv") csv_mime))
     end)
    (λ _, mret None).
End UserExport.

(** ** Properties *)

Lemma read_quoted v cell row s :
  csv_read Quoted cell row (double_quotes v ++ s) = csv_read Quoted (cell ++ v) row s.
Proof.
  revert cell. induction v as [|c v IH]; intros cell; [by rewrite app_nil_r|].
  unfold double_quotes. rewrite bind_cons, <-app_assoc. fold (double_quotes v).
  destruct (N.eqb_spec c 34) as [->|Hc]; cbn [app csv_read].
  - change (34 =? 34)%N with true. cbn iota. rewrite IH, <-app_assoc. done.
  - rewrite (proj2 (N.eqb_neq c 34) Hc), IH, <-app_assoc. done.
Qed.

(** What can follow a cell: the end, a comma or a line feed. *)
Lemma read_cell v row s :
  (s = [] ∨ ∃ c t, s = c :: t ∧ (c = 44 ∨ c = 10)%N) →
  csv_read CellStart [] row (csv_cell v ++ s) = csv_read QuoteSeen v row s.
Proof.
  intros Hs. unfold csv_cell, quoted. rewrite <-!app_assoc. cbn [app csv_read].
  change (34 =? 34)%N with true. cbn iota. rewrite read_quoted. cbn [app csv_read]. done.
Qed.

Lemma read_cells vs : ∀ v row s,
  (s = [] ∨ ∃ t, s = 10%N :: t) →
  csv_read CellStart [] row (join [44%N] (csv_cell <$> v :: vs) ++ s)
    = match s with
      | [] => Some [row ++ v :: vs]
      | _ :: t => cons (row ++ v :: vs) <$> csv_parse t
      end.
Proof.
  induction vs as [|v' vs IH]; intros v row s Hs.
  - change (join [44%N] (csv_cell <$> [v])) with (csv_cell v). rewrite read_cell.
    + destruct Hs as [->|[t ->]]; done.
    + destruct Hs as [->|[t ->]]; [by left|right; eauto].
  - change (join [44%N] (csv_cell <$> v :: v' :: vs)) with (csv_cell v ++ [44%N] ++ join [44%N] (csv_cell <$> v' :: vs)).
    rewrite <-!app_assoc, read_cell by (right; eexists _, _; split; [reflexivity|by left]).
    cbn [app csv_read]. change (44 =? 34)%N with false. change (44 =? 44)%N with true. cbn iota.
    rewrite IH by done. destruct Hs as [->|[t ->]]; by rewrite <-app_assoc.
Qed.

(** Header texts that need no quotes. *)
Definition plain (h : str) : bool := truthy h && forallb (λ c, negb (existsb (N.eqb c) [34; 44; 10]%N)) h.

Lemma read_bare h cell row s :
  forallb (λ c, negb (existsb (N.eqb c) [34; 44; 10]%N)) h = true →
  csv_read Bare cell row (h ++ s) = csv_read Bare (cell ++ h) row s.
Proof.
  revert cell. induction h as [|c h IH]; intros cell Hh; [by rewrite app_nil_r|].
  cbn [forallb existsb] in Hh. apply andb_true_iff in Hh as [Hc Hh].
  apply negb_true_iff in Hc. rewrite !orb_false_iff in Hc. destruct Hc as (H1 & H2 & H3 & _).
  cbn [app csv_read]. rewrite H1, H2, H3, IH by done. by rewrite <-app_assoc.
Qed.

Lemma read_headers hs : ∀ h row s,
  forallb plain (h :: hs) = true → (s = [] ∨ ∃ t, s = 10%N :: t) →
  csv_read CellStart [] row (join [44%N] (h :: hs) ++ s)
    = match s with [] => Some [row ++ h :: hs] | _ :: t => cons (row ++ h :: hs) <$> csv_parse t end.
Proof.
  assert (One : ∀ h row s, plain h = true → csv_read CellStart [] row (h ++ s) = csv_read Bare h row s).
  { intros [|c h] row s [T0 Hh]%andb_true_iff; [done|]. cbn [forallb existsb] in Hh. apply andb_true_iff in Hh as [Hc Hh].
    apply negb_true_iff in Hc. rewrite !orb_false_iff in Hc. destruct Hc as (H1 & H2 & H3 & _).
    cbn [app csv_read]. rewrite H1, H2, H3. by rewrite (read_bare h [c]). }
  induction hs as [|h' hs IH]; intros h row s Hp Hs; cbn [forallb] in Hp; apply andb_true_iff in Hp as [Hh Hp].
  - change (join [44%N] [h]) with h. rewrite One by done. destruct Hs as [->|[t ->]]; done.
  - change (join [44%N] (h :: h' :: hs)) with (h ++ [44%N] ++ join [44%N] (h' :: hs)).
    rewrite <-!app_assoc, One by done.
    cbn [app csv_read]. change (44 =? 34)%N with false. change (44 =? 44)%N with true. cbn iota.
    rewrite IH by done. destruct Hs as [->|[t ->]]; by rewrite <-app_assoc.
Qed.

(** A file of a header line and quoted rows reads back as its texts. *)
Lemma read_table hs (rows : list (list str)) :
  hs ≠ [] → forallb plain hs = true → Forall (λ r, r ≠ []) rows →
  csv_parse (join [10%N] (join [44%N] hs :: (csv_row <$> rows))) = Some (hs :: rows).
Proof.
  intros Hne Hp Hr. destruct hs as [|h hs]; [done|].
  assert (R : ∀ r rows, Forall (λ r, r ≠ []) (r :: rows) →
    csv_parse (join [10%N] (csv_row r :: (csv_row <$> rows))) = Some (r :: rows)).
  { clear. intros r l. revert r. induction l as [|r' l IH]; intros r [Hr Hl]%Forall_cons; (destruct r as [|v vs]; [done|]).
    - change (join [10%N] _) with (csv_row (v :: vs)). rewrite <-(app_nil_r (csv_row _)).
      unfold csv_parse, csv_row. by rewrite read_cells by by left.
    - rewrite fmap_cons. change (join [10%N] (?a :: ?b :: ?l)) with (a ++ [10%N] ++ join [10%N] (b :: l)).
      unfold csv_parse, csv_row at 1. rewrite read_cells by (right; by eexists). cbn [app]. by rewrite IH. }
  destruct rows as [|r rows].
  - change (join [10%N] _) with (join [44%N] (h :: hs)). rewrite <-(app_nil_r (join _ _)).
    unfold csv_parse. by rewrite read_headers by (done || by left).
  - rewrite fmap_cons. change (join [10%N] (?a :: ?b :: ?l)) with (a ++ [10%N] ++ join [10%N] (b :: l)).
    unfold csv_parse. rewrite read_headers by (done || (right; by eexists)). cbn [app]. by rewrite R.
Qed.

Lemma read_table_of {A} hs (texts : A → list str) (rows : list A) :
  hs ≠ [] → forallb plain hs = true → (∀ r, texts r ≠ []) →
  csv_parse (join [10%N] (join [44%N] hs :: ((λ r, csv_row (texts r)) <$> rows))) = Some (hs :: (texts <$> rows)).
Proof.
  intros Hne Hp Ht. rewrite <-(read_table hs (texts <$> rows)); [by rewrite <-list_fmap_compose|done..|].
  apply Forall_fmap, Forall_true. exact Ht.
Qed.

(** C24: an export of table rows loses nothing: the CSV file of at least one row, read by the
    rules of RFC 4180, is the header line and the texts of every row in order, whatever
    quotation marks, commas and line breaks the texts hold; no file is made of no rows. *)
Theorem audit_export_reads_back `{FileStamp} prefix first rest :
  let rows := first :: rest in
  (∀ kind, exportAuditRows [] prefix kind = None) ∧
  ∃ d, exportAuditRows rows prefix ExportCsv = Some d ∧
    (has_key (js "from_address") first = true → has_key (js "send_amount") first = true →
     csv_parse (dl_content d) = Some (toCSV_headers :: (toCSV_texts <$> rows))) ∧
    (has_key (js "send_amount") first = false → first ≠ [] → forallb plain (first.*1) = true →
     csv_parse (dl_content d)
       = Some (first.*1 :: ((λ r, (λ key, text_or_blank (obj_get key r)) <$> first.*1) <$> rows))).
Proof.
  intros rows. split; [done|]. eexists. split; [reflexivity|]. cbn [dl_content]. split.
  - intros -> ->. cbn [andb]. by apply (read_table_of toCSV_headers toCSV_texts).
  - intros -> Hne Hp. rewrite andb_false_r. unfold key_csv, rows.
    assert (first.*1 ≠ []) by (by destruct first).
    apply (read_table_of (first.*1) (λ r, (λ key, text_or_blank (obj_get key r)) <$> first.*1)); [done..|].
    intros r E. by apply fmap_nil_inv in E.
Qed.

(** *** The user export *)

Lemma double_quotes_id v : 34%N ∉ v → double_quotes v = v.
Proof.
  induction v as [|c v IH]; [done|]. rewrite not_elem_of_cons. intros [Hc Hv].
  unfold double_quotes. rewrite bind_cons. fold (double_quotes v). rewrite IH by done.
  by rewrite (proj2 (N.eqb_neq c 34)) by congruence.
Qed.

Lemma quoted_row texts : Forall (λ t, 34%N ∉ t) texts → join [44%N] (quoted <$> texts) = csv_row texts.
Proof.
  intros Ht. unfold csv_row. f_equal. induction Ht as [|t texts Hq _ IH]; [done|].
  rewrite !fmap_cons, IH. unfold csv_cell. by rewrite double_quotes_id.
Qed.

(** the user export reads back as its texts as long as none of them holds a quotation
    mark. Its texts are not escaped: a display name of two parts around [","] is read as
    two columns, so that a user's own name can shift what the columns of the file say. *)
Theorem user_export_unescaped links l a b :
  Forall (λ l, Forall (λ t, 34%N ∉ t) (user_texts l)) links →
  csv_parse (user_csv links) = Some (user_headers :: (user_texts <$> links)) ∧
  (il_display_name l = Some (a ++ [34; 44; 34]%N ++ b) →
   Forall (λ t, 34%N ∉ t) [il_user_id l; il_privy_did l; il_stellar_address l; a; b; masked maskEmail (il_email l);
     masked maskPhone (il_display_name l); il_status l; il_linked_at l] →
   csv_parse (user_csv [l]) = Some [user_headers;
     [il_user_id l; il_privy_did l; il_stellar_address l; a; b; masked maskEmail (il_email l);
      masked maskPhone (il_display_name l); il_status l; il_linked_at l]]).
Proof.
  intros Hl. split.
  - rewrite <-(read_table_of user_headers user_texts links) by done. unfold user_csv. do 3 f_equal.
    induction Hl as [|x links Hx _ IH]; [done|]. by rewrite !fmap_cons, IH, quoted_row.
  - intros Hd Hq. set (texts := [_; _; _; a; b; _; _; _; _]) in *.
    rewrite <-(read_table user_headers [texts]) by (done || by repeat constructor). unfold user_csv. do 2 f_equal.
    rewrite !fmap_cons, !fmap_nil. do 2 f_equal. rewrite <-quoted_row by done.
    assert (Q : quoted (a ++ [34; 44; 34]%N ++ b) = quoted a ++ [44%N] ++ quoted b)
      by (unfold quoted; by rewrite <-!app_assoc).
    unfold user_texts, texts. rewrite Hd. cbn [default fmap list_fmap join]. unfold id. by rewrite Q, <-!app_assoc.
Qed.

Lemma maskEmail_parts local domain rest :
  64%N ∉ local → 64%N ∉ domain → domain ≠ [] → (rest = [] ∨ ∃ t, rest = 64%N :: t) →
  maskEmail (local ++ 64%N :: domain ++ rest) = (match local with c :: _ :: _ => [c] ++ stars | _ => js "*" end) ++ js "@" ++ domain.
Proof.
  intros Hl Hd Hne Hr. unfold maskEmail. rewrite split_on_app by done.
  assert (E : ∃ t, split_on 64 (domain ++ rest) = domain :: t).
  { destruct Hr as [->|[t ->]]; [rewrite app_nil_r, split_on_free by done|rewrite split_on_app by done]; by eexists. }
  destruct E as [t ->]. by rewrite (proj2 (truthy_true domain) Hne).
Qed.

(** a masked e-mail tells no more than the first character of the name, only when the
    name has a second one, and the domain; a masked phone number no more than its first
    three and last two characters. *)
Theorem masking_hides c local local' domain phone phone' :
  64%N ∉ c :: local → 64%N ∉ c :: local' → 64%N ∉ domain → domain ≠ [] →
  (local ≠ [] → local' ≠ [] → maskEmail ((c :: local) ++ 64%N :: domain) = maskEmail ((c :: local') ++ 64%N :: domain)) ∧
  maskEmail ([c] ++ 64%N :: domain) = js "*@" ++ domain ∧
  (4 < length phone → 4 < length phone' → take 3 phone = take 3 phone' → slice_last 2 phone = slice_last 2 phone' →
   maskPhone phone = maskPhone phone') ∧
  (length phone ≤ 4 → maskPhone phone = stars).
Proof.
  intros Hl Hl' Hd Hne.
  assert (E : ∀ l, 64%N ∉ l → maskEmail (l ++ 64%N :: domain)
    = (match l with c :: _ :: _ => [c] ++ stars | _ => js "*" end) ++ js "@" ++ domain).
  { intros l Hn. rewrite <-(app_nil_r domain) at 1. apply maskEmail_parts; [done..|by left]. }
  split; [|split; [|split]].
  - intros N1 N2. rewrite !E by done. by destruct local, local'.
  - rewrite E; [done|]. apply not_elem_of_cons in Hl as [Hc _]. by apply not_elem_of_cons; split; [|apply not_elem_of_nil].
  - intros L1 L2 Ht Hs. unfold maskPhone. rewrite !(proj2 (Nat.leb_gt _ 4)) by lia. by rewrite Ht, Hs.
  - intros L. unfold maskPhone. by rewrite (proj2 (Nat.leb_le _ 4)).
Qed.

Module Runs.
#[local] Instance demo_stamp : FileStamp := js "2026-01-01".

Definition tx (id memo : str) : row :=
  [(js "id", JStr id); (js "from_address", JStr (js "G1")); (js "send_asset", JStr (js "USDC"));
   (js "send_amount", JNum (num_of_Z 5)); (js "status", JStr (js "completed")); (js "memo", JStr memo)].

(** A memo of a comma and quotation marks, and a missing date. *)
Example exported_row :
  (exportAuditRows [tx (js "1") [44; 34]%N] (js "tx") ExportCsv ≫= λ d, csv_parse (dl_content d))
    = Some [toCSV_headers; [js "1"; js "undefined"; js "G1"; js "USDC"; js "5"; []; js "completed"; [44; 34]%N]].
Proof. vm_compute. reflexivity. Qed.

Example exported_json :
  dl_content <$> exportAuditRows [[(js "id", JStr (js "1")); (js "tags", JArr [])]] (js "feed") ExportJson
    = Some (js "[" ++ [10%N] ++ js "  {" ++ [10%N] ++ js "    " ++ quote (js "id") ++ js ": " ++ quote (js "1") ++ js ","
        ++ [10%N] ++ js "    " ++ quote (js "tags") ++ js ": []" ++ [10%N] ++ js "  }" ++ [10%N] ++ js "]").
Proof. vm_compute. reflexivity. Qed.

Definition link (name : str) : IdentityLink :=
  MkIdentityLink (js "u1") (js "did:privy:1") (js "GABC") (Some name) (Some (js "ada@zaps.app")) (js "2026-01-01") (js "active").

Lemma user_export_unescaped_witness :
  let l := link (js "x" ++ [34; 44; 34]%N ++ js "revoked") in
  csv_parse (user_csv [link (js "ada")]) = Some (user_headers :: (user_texts <$> [link (js "ada")])) ∧
  (il_display_name l = Some (js "x" ++ [34; 44; 34]%N ++ js "revoked") →
   Forall (λ t, 34%N ∉ t) [il_user_id l; il_privy_did l; il_stellar_address l; js "x"; js "revoked";
     masked maskEmail (il_email l); masked maskPhone (il_display_name l); il_status l; il_linked_at l] →
   csv_parse (user_csv [l]) = Some [user_headers;
     [il_user_id l; il_privy_did l; il_stellar_address l; js "x"; js "revoked"; masked maskEmail (il_email l);
      masked maskPhone (il_display_name l); il_status l; il_linked_at l]]).
Proof.
  apply (user_export_unescaped [link (js "ada")] (link (js "x" ++ [34; 44; 34]%N ++ js "revoked")) (js "x") (js "revoked")).
  apply (bool_decide_unpack _). vm_compute. exact I.
Defined.

Lemma masking_hides_witness :
  (js "da" ≠ [] → js "ndrea" ≠ [] → maskEmail (js "ada@zaps.app") = maskEmail (js "andrea@zaps.app")) ∧
  maskEmail (js "a@zaps.app") = js "*@zaps.app" ∧
  (4 < length (js "+15550001") → 4 < length (js "+15990001") → take 3 (js "+15550001") = take 3 (js "+15990001") →
   slice_last 2 (js "+15550001") = slice_last 2 (js "+15990001") → maskPhone (js "+15550001") = maskPhone (js "+15990001")) ∧
  (length (js "+15550001") ≤ 4 → maskPhone (js "+15550001") = stars).
Proof.
  apply (masking_hides 97%N (js "da") (js "ndrea") (js "zaps.app") (js "+15550001") (js "+15990001"));
    try (apply (bool_decide_unpack _); vm_compute; exact I).
Defined.
End Runs.
