(* ===== verification/SearchBox.v ===== *)
(** * The debounced user search of the dashboard

    Model of [SearchBarInner] of [dashboard/components/SearchBar.tsx] and of
    [UsernameSearchBar] of [dashboard/app/dashboard/page.tsx], which differ in what a failed
    search does and in the address bar. The timers and the requests of the box are pending
    steps that may happen in any order; what the backend knows is a parameter. *)

From stdpp Require Import relations.
From S2P Require Import Prelude JsString UriCodec FormCodec Scripts.

Record UserSearchResult := MkUser { us_username : str; us_public_key : str; us_registered_at : str }.

(** The state of a box, the search waiting for its 300 ms, the requests under way and the
    blur timers of 200 ms that have not run. *)
Record box := Box {
  bx_query : str;
  bx_results : list UserSearchResult;
  bx_loading : bool;
  bx_open : bool;
  bx_timer : option str;
  bx_inflight : list str;
  bx_blurs : nat;
}.

Definition initial_box (q : str) : box := Box q [] false false None [] 0.

(** What [api.searchUsers] answers. *)
Class Directory := users_like : str → list UserSearchResult.

Inductive search_bar := HeaderBar | LookupBar.

Section Box.
Context `{Directory} (bar : search_bar).

(** [onChange]: the query, and [debouncedSearch]. *)
Definition type_query (value : str) (s : box) : box :=
  if (length (trim value) <? 2)%nat
  then Box value [] (bx_loading s) false None (bx_inflight s) (bx_blurs s)
  else Box value (bx_results s) (bx_loading s) (bx_open s) (Some value) (bx_inflight s) (bx_blurs s).

(** The timer's callback, up to its request. *)
Definition send_search (value : str) (s : box) : box :=
  Box (bx_query s) (bx_results s) true (bx_open s) None (bx_inflight s ++ [trim value]) (bx_blurs s).

(** The rest of the callback, for the [i]-th request under way. *)
Definition search_answered (i : nat) (q : str) (s : box) : box :=
  let data := users_like q in
  Box (bx_query s) data false (match data with [] => false | _ => true end) (bx_timer s)
    (delete i (bx_inflight s)) (bx_blurs s).

Definition search_failed (i : nat) (s : box) : box :=
  Box (bx_query s) [] false (match bar with HeaderBar => bx_open s | LookupBar => false end) (bx_timer s)
    (delete i (bx_inflight s)) (bx_blurs s).

(** [handleSelect], without the navigation. *)
Definition handleSelect (s : box) : box :=
  Box [] (bx_results s) (bx_loading s) false (bx_timer s) (bx_inflight s) (bx_blurs s).

Definition selected_url (username : str) : option str :=
  app (js "/dashboard/transactions?user=") <$> encodeURIComponent username.

Definition focus (s : box) : box :=
  match bx_results s with
  | [] => s
  | _ => Box (bx_query s) (bx_results s) (bx_loading s) true (bx_timer s) (bx_inflight s) (bx_blurs s)
  end.

Definition blur (s : box) : box :=
  Box (bx_query s) (bx_results s) (bx_loading s) (bx_open s) (bx_timer s) (bx_inflight s) (S (bx_blurs s)).
Definition blur_timeout (s : box) : box :=
  Box (bx_query s) (bx_results s) (bx_loading s) false (bx_timer s) (bx_inflight s) (pred (bx_blurs s)).

(** What the user does. *)
Inductive input : box → box → Prop :=
  | In_type v s : input s (type_query v s)
  | In_select u s : u ∈ bx_results s → bx_open s = true → input s (handleSelect s)
  | In_focus s : input s (focus s)
  | In_blur s : input s (blur s).

(** What happens by itself. *)
Inductive progress : box → box → Prop :=
  | Pr_send v s : bx_timer s = Some v → progress s (send_search v s)
  | Pr_answer i q s : bx_inflight s !! i = Some q → progress s (search_answered i q s)
  | Pr_fail i q s : bx_inflight s !! i = Some q → progress s (search_failed i s)
  | Pr_blur s : bx_blurs s ≠ 0 → progress s (blur_timeout s).

Definition box_step (s s' : box) : Prop := input s s' ∨ progress s s'.

(** *** The address bar *)

Definition params_delete (k : str) (ps : list (str * str)) : list (str * str) := filter (λ p, p.1 ≠ k) ps.

(** [params.set(k, v)]: the first entry of the name changed, further ones removed. *)
Fixpoint params_set (k v : str) (ps : list (str * str)) : list (str * str) :=
  match ps with
  | [] => [(k, v)]
  | p :: ps' => if str_eqb p.1 k then (k, v) :: params_delete k ps' else p :: params_set k v ps'
  end.

Definition params_get (k : str) (ps : list (str * str)) : option str := snd <$> find (λ p, str_eqb p.1 k) ps.

(** The address [syncQueryToUrl] replaces the current one by. *)
Definition synced_params (params : list (str * str)) (value : str) : list (str * str) :=
  if truthy (trim value) then params_set (js "q") value params else params_delete (js "q") params.

Definition syncQueryToUrl (pathname : str) (params : list (str * str)) (value : str) : str :=
  let qs := params_to_string (synced_params params value) in
  if truthy qs then pathname ++ js "?" ++ qs else pathname.
End Box.

(** ** Properties *)

Section Properties.
Context `{Directory} (bar : search_bar).

(** Nothing left to happen. *)
Definition settled (s : box) : Prop := bx_timer s = None ∧ bx_inflight s = [] ∧ bx_blurs s = 0.

Definition work (s : box) : nat :=
  match bx_timer s with Some _ => 2 | None => 0 end + length (bx_inflight s) + bx_blurs s.

Lemma progress_works s s' : progress bar s s' → work s = S (work s').
Proof.
  destruct 1 as [v s Ht|i q s Hi|i q s Hi|s Hb]; unfold work; cbn.
  - rewrite Ht, length_app. cbn. lia.
  - pose proof (lookup_lt_Some _ _ _ Hi). rewrite length_delete by by eexists. destruct (bx_timer s); lia.
  - pose proof (lookup_lt_Some _ _ _ Hi). rewrite length_delete by by eexists. destruct (bx_timer s); lia.
  - destruct (bx_timer s); lia.
Qed.

Lemma progress_possible s : settled s ∨ ∃ s', progress bar s s'.
Proof.
  destruct (bx_timer s) as [v|] eqn:T; [right; eexists; by apply (Pr_send bar v)|].
  destruct (bx_inflight s) as [|q qs] eqn:Q; [|right; eexists; apply (Pr_fail bar 0 q); by rewrite Q].
  destruct (decide (bx_blurs s = 0)); [by left|right; eexists; by apply Pr_blur].
Qed.

(** The spinner turns only while a search is under way. *)
Definition spinner_ok (s : box) : Prop := bx_loading s = true → bx_inflight s ≠ [] .

Lemma settled_no_progress s s' : settled s → ¬ progress bar s s'.
Proof. intros (T & Q & B). destruct 1; congruence || (rewrite Q in *; done). Qed.

Lemma nsteps_work n s s' : nsteps (progress bar) n s s' → work s = n + work s'.
Proof. induction 1 as [s|n s1 s2 s3 H1 _ IH]; [done|]. rewrite (progress_works _ _ H1), IH. lia. Qed.

Lemma settles_by_work n s : work s = n → ∃ s', nsteps (progress bar) n s s' ∧ settled s'.
Proof.
  revert s. induction n as [|n IH]; intros s Hw.
  - exists s. split; [constructor|]. destruct (progress_possible s) as [|[s' P]]; [done|].
    apply progress_works in P. lia.
  - destruct (progress_possible s) as [(T & Q & B)|[s' P]].
    + unfold work in Hw. rewrite T, Q, B in Hw. done.
    + pose proof (progress_works _ _ P). destruct (IH s') as (s'' & R & S'); [lia|].
      exists s''. split; [by econstructor|done].
Qed.

Lemma step_spinner s s' : box_step bar s s' → spinner_ok s → spinner_ok s'.
Proof.
  intros [St|St] Ok; destruct St; unfold spinner_ok, type_query, focus in *; cbn; try done.
  - by case_match.
  - by destruct (bx_results s).
  - intros _ E. by apply app_eq_nil in E as [_ ?].
Qed.

Lemma reach_spinner q s : rtc (box_step bar) (initial_box q) s → spinner_ok s.
Proof.
  intros R. assert (I0 : spinner_ok (initial_box q)) by done. revert R I0.
  induction 1; eauto using step_spinner.
Qed.

(** the search box always comes to rest: from every state it can reach, whatever timers
    and requests are pending and in whatever order they finish, it takes exactly as many
    steps as there is work left until nothing is pending, some step is possible until then,
    and at rest the spinner is off. *)
Theorem search_settles q s : rtc (box_step bar) (initial_box q) s →
  (∃ s', nsteps (progress bar) (work s) s s' ∧ settled s') ∧
  (∀ n s', nsteps (progress bar) n s s' →
     n ≤ work s ∧ (n = work s ↔ settled s') ∧ (settled s' ∨ ∃ s'', progress bar s' s'') ∧
     (settled s' → bx_loading s' = false)).
Proof.
  intros R. split; [by apply settles_by_work|]. intros n s' Hn.
  pose proof (nsteps_work _ _ _ Hn) as W. split; [lia|]. split; [split|split].
  - intros ->. destruct (progress_possible s') as [|[s'' P]]; [done|]. apply progress_works in P. lia.
  - intros (T & Q & B). unfold work at 2 in W. rewrite T, Q, B in W. cbn in W. lia.
  - apply progress_possible.
  - intros (_ & Q & _). assert (Ok : spinner_ok s').
    { apply (reach_spinner q). etrans; [exact R|]. apply (rtc_subrel (progress bar)); [intros ? ?; by right|].
      by apply rtc_nsteps_2 with n. }
    unfold spinner_ok in Ok. rewrite Q in Ok. destruct (bx_loading s'); [by destruct Ok|done].
Qed.

(** No key is pressed, and no search sent, while another is under way. *)
Inductive orderly : box → box → Prop :=
  | Or_type v s : bx_inflight s = [] → orderly s (type_query v s)
  | Or_send v s : bx_timer s = Some v → bx_inflight s = [] → orderly s (send_search v s)
  | Or_answer i q s : bx_inflight s !! i = Some q → orderly s (search_answered i q s)
  | Or_fail i q s : bx_inflight s !! i = Some q → orderly s (search_failed bar i s)
  | Or_focus s : orderly s (focus s)
  | Or_blur s : orderly s (blur s)
  | Or_timeout s : bx_blurs s ≠ 0 → orderly s (blur_timeout s).

(** What the rows shown belong to. *)
Definition fresh (s : box) : Prop :=
  length (bx_inflight s) ≤ 1 ∧
  (∀ v, bx_timer s = Some v → v = bx_query s ∧ bx_inflight s = []) ∧
  (∀ q, q ∈ bx_inflight s → q = trim (bx_query s)) ∧
  (bx_timer s = None → bx_results s = [] ∨ bx_results s = users_like (trim (bx_query s)) ∨ bx_inflight s ≠ []).

#[local] Ltac no_elem := let E := fresh in intros ? E; by apply not_elem_of_nil in E.

Lemma orderly_fresh s s' : orderly s s' → fresh s → fresh s'.
Proof.
  intros St (L & Tm & Fl & Rs). destruct St as [v s Q|v s T Q|i q s Q|i q s Q|s|s|s Hb]; unfold fresh, type_query, focus.
  - clear Tm Fl Rs. rewrite Q. destruct (length (trim v) <? 2); cbn; (split; [cbn; lia|]).
    + split; [done|]. split; [no_elem|by left].
    + split; [by intros v' [= ->]|]. split; [no_elem|done].
  - destruct (Tm v T) as [-> _]. unfold send_search. cbn. rewrite Q. cbn. split_and!; [done|done| |by right; right].
    intros q' ->%list_elem_of_singleton. done.
  - assert (bx_inflight s = [q]) as E.
    { destruct (bx_inflight s) as [|q0 [|? ?]]; [done| |cbn in L; lia]. by destruct i; cbn in Q; [injection Q as ->|]. }
    rewrite E in *. assert (i = 0) as -> by (destruct i; done).
    unfold search_answered, search_failed. cbn. rewrite E. cbn. split_and!; [lia| |no_elem|].
    + intros v Hv. by destruct (Tm v Hv).
    + intros _. right. left. by rewrite (Fl q) by by apply list_elem_of_singleton.
  - assert (bx_inflight s = [q]) as E.
    { destruct (bx_inflight s) as [|q0 [|? ?]]; [done| |cbn in L; lia]. by destruct i; cbn in Q; [injection Q as ->|]. }
    rewrite E in *. assert (i = 0) as -> by (destruct i; done).
    unfold search_answered, search_failed. cbn. rewrite E. cbn. split_and!; [lia| |no_elem|by left].
    intros v Hv. by destruct (Tm v Hv).
  - by destruct (bx_results s) eqn:E; [|cbn]; split_and!; rewrite ?E.
  - by split_and!.
  - by split_and!.
Qed.

(** typing faster than the backend answers can leave a box at rest with the users of
    another query: two searches answered in the other order, or a query emptied while its
    search was under way, whose list then opens under an empty box. When no key is pressed
    and no search sent while another is under way, a box at rest shows the users of its
    query or none. *)
Theorem search_answers_match :
  (∀ q s, rtc orderly (initial_box q) s → settled s →
     bx_results s = [] ∨ bx_results s = users_like (trim (bx_query s))) ∧
  (∀ v v', 2 ≤ length (trim v) → 2 ≤ length (trim v') → ∃ s,
     rtc (box_step bar) (initial_box []) s ∧ settled s ∧
     bx_query s = v' ∧ bx_results s = users_like (trim v)) ∧
  (∀ v, 2 ≤ length (trim v) → users_like (trim v) ≠ [] → ∃ s,
     rtc (box_step bar) (initial_box []) s ∧ settled s ∧
     bx_query s = [] ∧ bx_open s = true ∧ bx_results s = users_like (trim v)).
Proof.
  split; [|split].
  - intros q s R (T & Q & _).
    assert (F : fresh s).
    { assert (F0 : fresh (initial_box q)) by (unfold fresh; cbn; split_and!; [lia|done|no_elem|by left]).
      revert R F0. clear T Q. induction 1; eauto using orderly_fresh. }
    destruct F as (_ & _ & _ & F). destruct (F T) as [|[|E]]; [by left|by right|by rewrite Q in E].
  - intros v v' Hv Hv'. eexists. split.
    + eapply rtc_l; [left; apply (In_type v)|]. unfold type_query. rewrite (proj2 (Nat.ltb_ge _ _) Hv).
      eapply rtc_l; [right; by apply (Pr_send _ v)|]. eapply rtc_l; [left; apply (In_type v')|].
      unfold type_query. rewrite (proj2 (Nat.ltb_ge _ _) Hv').
      eapply rtc_l; [right; by apply (Pr_send _ v')|].
      eapply rtc_l; [right; by apply (Pr_answer _ 1 (trim v'))|].
      eapply rtc_l; [right; by apply (Pr_answer _ 0 (trim v))|]. apply rtc_refl.
    + by repeat split.
  - intros v Hv Hu. eexists. split.
    + eapply rtc_l; [left; apply (In_type v)|]. unfold type_query. rewrite (proj2 (Nat.ltb_ge _ _) Hv).
      eapply rtc_l; [right; by apply (Pr_send _ v)|]. eapply rtc_l; [left; apply (In_type [])|].
      unfold type_query. cbn [length trim]. eapply rtc_l; [right; by apply (Pr_answer _ 0 (trim v))|]. apply rtc_refl.
    + cbn. repeat split. by destruct (users_like (trim v)).
Qed.
End Properties.

Lemma params_get_delete k k' ps :
  params_get k (params_delete k' ps) = if str_eqb k k' then None else params_get k ps.
Proof.
  unfold params_get, params_delete. induction ps as [|[k1 v1] ps IH]; [by destruct (str_eqb k k')|].
  rewrite filter_cons. cbn [fst]. case_decide as Hne; cbn [find fst].
  - destruct (str_eqb k1 k) eqn:E1; [|exact IH]. apply str_eqb_true in E1 as ->.
    by rewrite (proj2 (str_eqb_false k k')) by congruence.
  - subst k1. rewrite IH. destruct (str_eqb k k') eqn:E; [done|].
    rewrite (proj2 (str_eqb_false k' k)); [done|]. apply str_eqb_false in E. congruence.
Qed.

Lemma params_get_set k k' v ps : params_get k (params_set k' v ps) = if str_eqb k k' then Some v else params_get k ps.
Proof.
  induction ps as [|[k1 v1] ps IH]; cbn [params_set].
  - unfold params_get. cbn. destruct (str_eqb k k') eqn:E.
    + apply str_eqb_true in E as ->. by rewrite str_eqb_refl.
    + rewrite (proj2 (str_eqb_false k' k)); [done|]. apply str_eqb_false in E. congruence.
  - cbn [fst]. destruct (str_eqb k1 k') eqn:E1.
    + apply str_eqb_true in E1 as ->. unfold params_get at 1. cbn [find fst].
      destruct (str_eqb k k') eqn:E.
      * apply str_eqb_true in E as ->. by rewrite str_eqb_refl.
      * assert (Hk : str_eqb k' k = false) by (apply str_eqb_false; apply str_eqb_false in E; congruence).
        rewrite Hk. fold (params_get k (params_delete k' ps)). rewrite params_get_delete, E.
        unfold params_get at 2. cbn [find fst]. by rewrite Hk.
    + unfold params_get at 1 2. cbn [find fst]. destruct (str_eqb k1 k) eqn:E; [|exact IH].
      apply str_eqb_true in E as ->. by rewrite E1.
Qed.

Lemma synced_paired params value :
  Forall (λ p, well_paired p.1 ∧ well_paired p.2) params → well_paired value →
  Forall (λ p, well_paired p.1 ∧ well_paired p.2) (synced_params params value).
Proof.
  intros Hp Hv. unfold synced_params.
  assert (D : ∀ k, Forall (λ p, well_paired p.1 ∧ well_paired p.2) (params_delete k params)).
  { intros k. apply Forall_forall. intros p Hin. apply list_elem_of_filter in Hin as [_ Hin].
    by apply (proj1 (Forall_forall _ _) Hp). }
  destruct (truthy _); [|apply D].
  induction Hp as [|p ps Hhd Htl IH]; cbn [params_set].
  - constructor; [|constructor]. split; [by apply well_paired_ascii|done].
  - destruct (str_eqb p.1 _).
    + constructor; [split; [by apply well_paired_ascii|done]|].
      apply Forall_forall. intros p' Hin. apply list_elem_of_filter in Hin as [_ Hin].
      by apply (proj1 (Forall_forall _ _) Htl).
    + constructor; [done|]. apply IH. intros k. apply Forall_forall. intros p' Hin. apply list_elem_of_filter in Hin as [_ Hin].
      by apply (proj1 (Forall_forall _ _) Htl).
Qed.

(** what is typed reaches the table through the address: the address the box writes has
    the query as its [q], none for a blank query, every other parameter as it was, and
    parsing it gives these parameters back, whatever characters they hold. *)
Theorem query_reaches_table pathname params value :
  Forall (λ p, well_paired p.1 ∧ well_paired p.2) params → well_paired value →
  let ps := synced_params params value in
  params_get (js "q") ps = (if truthy (trim value) then Some value else None) ∧
  (∀ k, k ≠ js "q" → params_get k ps = params_get k params) ∧
  (ps ≠ [] → syncQueryToUrl pathname params value = pathname ++ js "?" ++ params_to_string ps ∧
     parse_params (params_to_string ps) = Some ps) ∧
  (ps = [] → syncQueryToUrl pathname params value = pathname).
Proof.
  intros Hp Hv ps. split; [|split; [|split]].
  - unfold ps, synced_params. destruct (truthy _); [rewrite params_get_set|rewrite params_get_delete]; by rewrite str_eqb_refl.
  - intros k Hk. unfold ps, synced_params.
    destruct (truthy _); [rewrite params_get_set|rewrite params_get_delete]; by rewrite (proj2 (str_eqb_false _ _) Hk).
  - intros Hne. pose proof (synced_paired params value Hp Hv) as Hs. fold ps in Hs. split; [|by apply parse_params_text].
    unfold syncQueryToUrl. fold ps. rewrite (proj2 (truthy_true _)); [done|].
    destruct ps as [|[k v] [|p ps']]; [done|..]; unfold params_to_string; cbn [fmap list_fmap join];
      unfold param_text; cbn [fst snd]; intros E; apply (f_equal length) in E; rewrite ?length_app in E; cbn in E; lia.
  - intros E. unfold syncQueryToUrl. fold ps. by rewrite E.
Qed.

Module Runs.
(** Users whose name starts with the query. *)
#[local] Instance demo_users : Directory := λ q,
  filter (λ u, starts_with q (us_username u) = true)
    [MkUser (js "alice") (js "GA") []; MkUser (js "bob") (js "GB") []].

Definition typed_over : box := type_query (js "bo") (send_search (js "al") (type_query (js "al") (initial_box []))).

Lemma typed_over_reached : rtc (box_step HeaderBar) (initial_box []) typed_over.
Proof.
  eapply rtc_l; [left; apply (In_type (js "al"))|]. eapply rtc_l; [right; apply (Pr_send _ (js "al")); reflexivity|].
  eapply rtc_l; [left; apply (In_type (js "bo"))|]. apply rtc_refl.
Qed.

Lemma search_settles_witness : work typed_over = 3 ∧
  (∃ s', nsteps (progress HeaderBar) (work typed_over) typed_over s' ∧ settled s') ∧
  (∀ n s', nsteps (progress HeaderBar) n typed_over s' →
     n ≤ work typed_over ∧ (n = work typed_over ↔ settled s') ∧ (settled s' ∨ ∃ s'', progress HeaderBar s' s'') ∧
     (settled s' → bx_loading s' = false)).
Proof. split; [vm_compute; reflexivity|]. apply (search_settles HeaderBar [] typed_over). apply typed_over_reached. Defined.

Example stale_users :
  bx_results (search_answered 0 (js "al") (search_answered 1 (js "bo") (send_search (js "bo") typed_over)))
    = [MkUser (js "alice") (js "GA") []].
Proof. vm_compute. reflexivity. Qed.

Lemma query_reaches_table_witness :
  let ps := synced_params [(js "user", js "a&b"); (js "q", js "old")] (js "x y") in
  params_get (js "q") ps = (if truthy (trim (js "x y")) then Some (js "x y") else None) ∧
  (∀ k, k ≠ js "q" → params_get k ps = params_get k [(js "user", js "a&b"); (js "q", js "old")]) ∧
  (ps ≠ [] → syncQueryToUrl (js "/t") [(js "user", js "a&b"); (js "q", js "old")] (js "x y") = js "/t" ++ js "?" ++ params_to_string ps ∧
     parse_params (params_to_string ps) = Some ps) ∧
  (ps = [] → syncQueryToUrl (js "/t") [(js "user", js "a&b"); (js "q", js "old")] (js "x y") = js "/t").
Proof.
  apply (query_reaches_table (js "/t") [(js "user", js "a&b"); (js "q", js "old")] (js "x y")).
  - repeat (constructor; [split; apply well_paired_ascii; reflexivity|]). constructor.
  - apply well_paired_ascii. reflexivity.
Defined.
End Runs.
