(* ===== verification/DashboardShell.v ===== *)
(** * Shared state of the dashboard's pages

    Models of [dashboard/lib/use-polling.ts], [dashboard/lib/notifications-context.tsx], the
    address and clipboard helpers of [dashboard/lib/utils.ts], the health summary of
    [dashboard/components/HealthStatusIndicator.tsx] and the state of
    [dashboard/app/dashboard/transactions/page.tsx]. *)

From stdpp Require Import gmap.
From S2P Require Import Prelude JsString JsNumber JsRound UriCodec FormCodec Json Decode Tables Effects Scripts SearchBox.

(** ** [usePolling] *)

Module Polling.
Record poll (A : Type) := Poll { pl_data : option A; pl_loading : bool; pl_error : option str }.
Arguments Poll {A}.
Arguments pl_data {A}.
Arguments pl_loading {A}.
Arguments pl_error {A}.

Definition initial_poll {A} : poll A := Poll None true None.

(** One [run], settled. *)
Definition poll_settled {A} (r : res A) (s : poll A) : poll A :=
  match r with
  | Ok result => Poll (Some result) false None
  | Throw e => Poll (pl_data s) false (Some (err_message e))
  end.

Definition poll_run {A} (rs : list (res A)) : poll A := foldl (λ s r, poll_settled r s) initial_poll rs.

Definition ok_value {A} (r : res A) : option A := match r with Ok a => Some a | Throw _ => None end.

(** a polled value is the latest that was fetched: failures keep it and only add their
    message, which the next success removes; there is a message exactly after a failure,
    and loading ends with the first answer. *)
Theorem poll_keeps_latest {A} (rs : list (res A)) r :
  let s := poll_run (rs ++ [r]) in
  pl_data s = last (omap ok_value (rs ++ [r])) ∧
  pl_error s = match r with Ok _ => None | Throw e => Some (err_message e) end ∧
  pl_loading s = false.
Proof.
  assert (D : ∀ rs : list (res A), pl_data (poll_run rs) = last (omap ok_value rs)).
  { intros l. induction l as [|r' l IH] using rev_ind; [done|].
    unfold poll_run in *. rewrite foldl_app, omap_app. cbn [foldl omap list_omap].
    destruct r' as [a|e]; cbn; [by rewrite last_snoc|by rewrite app_nil_r]. }
  intros s. split; [apply D|]. unfold s, poll_run. rewrite foldl_app. by destruct r.
Qed.
End Polling.

(** ** The notifications provider *)

Module Notifications.
Inductive severity := Info | Warning | Critical.

Record ContractAlert := MkAlert {
  ca_id : str; ca_severity : severity; ca_title : str; ca_message : str; ca_timestamp : str }.

Record AppNotification := MkNotification {
  nt_id : str; nt_title : str; nt_message : str; nt_severity : severity; nt_timestamp : str; nt_read : bool }.

Definition alertToNotification (a : ContractAlert) : AppNotification :=
  MkNotification (ca_id a) (ca_title a) (ca_message a) (ca_severity a) (ca_timestamp a) false.

Record center := Center { ct_notifications : list AppNotification; ct_seen : gset str }.

Definition initial_center : center := Center [] ∅.

(** The update of [fetchAlerts]; a failed poll leaves the state. *)
Definition fetchAlerts (answer : res (list ContractAlert)) (s : center) : center :=
  match answer with
  | Throw _ => s
  | Ok alerts =>
      match alertToNotification <$> filter (λ a, ca_id a ∉ ct_seen s) alerts with
      | [] => s
      | incoming => Center (incoming ++ ct_notifications s) (ct_seen s ∪ list_to_set (nt_id <$> incoming))
      end
  end.

Definition mark_read (n : AppNotification) : AppNotification :=
  MkNotification (nt_id n) (nt_title n) (nt_message n) (nt_severity n) (nt_timestamp n) true.

Definition markAllRead (s : center) : center := Center (mark_read <$> ct_notifications s) (ct_seen s).
Definition markRead (id : str) (s : center) : center :=
  Center ((λ n, if str_eqb (nt_id n) id then mark_read n else n) <$> ct_notifications s) (ct_seen s).

Definition unreadCount (s : center) : nat := length (filter (λ n, nt_read n = false) (ct_notifications s)).

Inductive center_op := OpPoll (answer : res (list ContractAlert)) | OpMarkAll | OpMark (id : str).

Definition center_step (s : center) (op : center_op) : center :=
  match op with OpPoll answer => fetchAlerts answer s | OpMarkAll => markAllRead s | OpMark id => markRead id s end.

Definition center_run : list center_op → center → center := flip (foldl center_step).

(** The ids an operation brings. *)
Definition received (op : center_op) : list str :=
  match op with OpPoll (Ok alerts) => ca_id <$> alerts | _ => [] end.

Definition ids (s : center) : list str := nt_id <$> ct_notifications s.

(** What is known is what is listed, once. *)
Definition center_ok (s : center) : Prop := NoDup (ids s) ∧ ct_seen s = list_to_set (ids s).

Lemma mark_ids (f : AppNotification → AppNotification) (l : list AppNotification) : (∀ n, nt_id (f n) = nt_id n) → nt_id <$> (f <$> l) = nt_id <$> l.
Proof. intros Hf. induction l as [|n l IH]; [done|]. rewrite !fmap_cons, Hf. by f_equal. Qed.

Lemma step_ids op s : NoDup (received op) → center_ok s →
  center_ok (center_step s op) ∧ (∀ i, i ∈ ids (center_step s op) ↔ i ∈ ids s ∨ i ∈ received op).
Proof.
  intros Hr [Hn Hs]. destruct op as [[alerts|e]| |id]; cbn [center_step fetchAlerts received].
  - set (incoming := alertToNotification <$> filter _ alerts).
    assert (Ei : nt_id <$> incoming = ca_id <$> filter (λ a, ca_id a ∉ ct_seen s) alerts) by by (unfold incoming; rewrite <-list_fmap_compose).
    assert (In : ∀ i, i ∈ nt_id <$> incoming ↔ i ∈ ca_id <$> alerts ∧ i ∉ ids s).
    { intros i. rewrite Ei, !list_elem_of_fmap. split.
      - intros (a & -> & [Ha Hin]%list_elem_of_filter). rewrite Hs, elem_of_list_to_set in Ha. split; [by exists a|done].
      - intros [(a & -> & Hin) Ha]. exists a. rewrite list_elem_of_filter, Hs, elem_of_list_to_set. done. }
    assert (Ni : NoDup (nt_id <$> incoming)) by (rewrite Ei; by apply NoDup_fmap_filter).
    destruct incoming as [|n l] eqn:E.
    + split; [done|]. intros i. specialize (In i). cbn in In. rewrite elem_of_nil in In.
      destruct (decide (i ∈ ids s)); tauto.
    + rewrite <-E in *. unfold ids in *. cbn [ct_notifications ct_seen]. split; [split|].
      * unfold ids. cbn [ct_notifications]. rewrite fmap_app. apply NoDup_app. split; [done|]. split; [|done].
        intros i Hi. by apply In.
      * unfold ids. cbn [ct_notifications ct_seen]. rewrite fmap_app, list_to_set_app_L, Hs. set_solver.
      * intros i. rewrite fmap_app, elem_of_app, In. destruct (decide (i ∈ nt_id <$> ct_notifications s)); tauto.
  - split; [done|]. intros i. rewrite elem_of_nil. tauto.
  - unfold center_ok, ids, markAllRead. cbn. rewrite mark_ids by done. split; [done|]. intros i. rewrite elem_of_nil. tauto.
  - unfold center_ok, ids, markRead. cbn. rewrite mark_ids by (intros n; by destruct (str_eqb _ _)).
    split; [done|]. intros i. rewrite elem_of_nil. tauto.
Qed.

(** An operation keeps every notification, and what was read stays read. *)
Lemma step_keeps op s n : n ∈ ct_notifications s →
  ∃ n', n' ∈ ct_notifications (center_step s op) ∧ nt_id n' = nt_id n ∧ nt_title n' = nt_title n ∧
        nt_message n' = nt_message n ∧ (nt_read n = true → nt_read n' = true).
Proof.
  intros Hn. destruct op as [[alerts|e]| |id]; cbn [center_step fetchAlerts].
  - destruct (alertToNotification <$> _) as [|x l]; exists n; [done|].
    split; [|done]. cbn [ct_notifications]. apply elem_of_app. by right.
  - by exists n.
  - exists (mark_read n). split; [by apply list_elem_of_fmap_2|done].
  - exists (if str_eqb (nt_id n) id then mark_read n else n). split; [by apply list_elem_of_fmap; exists n|].
    by destruct (str_eqb _ _).
Qed.

(** C28: through any polls and marks the bell lists every alert it was ever sent exactly
    once: ids stay distinct, none is lost and none invented, a notification keeps its
    texts, and one that was read never becomes unread again; marking all leaves none
    unread. *)
Theorem alerts_listed_once ops :
  Forall (λ op, NoDup (received op)) ops →
  let s := center_run ops initial_center in
  NoDup (ids s) ∧ (∀ i, i ∈ ids s ↔ ∃ op, op ∈ ops ∧ i ∈ received op) ∧
  unreadCount (markAllRead s) = 0 ∧
  (∀ later n, n ∈ ct_notifications s → ∃ n', n' ∈ ct_notifications (center_run later s) ∧
     nt_id n' = nt_id n ∧ nt_title n' = nt_title n ∧ nt_message n' = nt_message n ∧
     (nt_read n = true → nt_read n' = true)).
Proof.
  intros Hops s.
  assert (I : center_ok s ∧ ∀ i, i ∈ ids s ↔ ∃ op, op ∈ ops ∧ i ∈ received op).
  { unfold s. clear s. induction ops as [|op ops IH] using rev_ind.
    - split; [split; [constructor|done]|]. intros i. split; [by intros ?%elem_of_nil|intros (op & ?%elem_of_nil & _); done].
    - apply Forall_app in Hops as [Hops [Hop _]%Forall_cons]. destruct (IH Hops) as [Ok In].
      unfold center_run, flip in *. rewrite foldl_app. cbn [foldl].
      destruct (step_ids op _ Hop Ok) as [Ok' In']. split; [done|]. intros i. rewrite In', In.
      setoid_rewrite elem_of_app. setoid_rewrite list_elem_of_singleton. naive_solver. }
  destruct I as [[Hn _] In]. split; [done|]. split; [done|]. split.
  - unfold unreadCount, markAllRead. cbn. induction (ct_notifications s) as [|n l IH]; [done|].
    rewrite fmap_cons, filter_cons. cbn. done.
  - intros later. induction later as [|op later IH] using rev_ind; intros n Hin; [by exists n|].
    destruct (IH n Hin) as (n1 & H1 & E1 & T1 & M1 & R1). unfold center_run, flip in *. rewrite foldl_app.
    destruct (step_keeps op _ _ H1) as (n2 & H2 & E2 & T2 & M2 & R2). exists n2. split; [done|].
    split; [congruence|]. split; [congruence|]. split; [congruence|auto].
Qed.
End Notifications.

(** ** The health badge *)

Module Health.
Import Polling.

Definition status_ok (v : json) : bool := bool_decide (field_str (js "status") v = Some (js "ok")).

(** The status test on the answer as it came; an answer that is [null] is no data. *)
Definition healthy (data : option json) : bool := match data with Some v => status_ok v | None => false end.

Definition has_data (data : option json) : bool := json_truthy data.

Inductive badge_dot := Grey | Green | Red.

Record health_badge := Badge {
  hb_allOk : bool; hb_dot : badge_dot; hb_text : str; hb_label : str; hb_unreachable : bool }.

Definition HealthStatusIndicator (p : poll json) : health_badge :=
  let allOk := match pl_error p with
               | Some m => if truthy m then false else healthy (pl_data p)
               | None => healthy (pl_data p)
               end in
  let hasData := has_data (pl_data p) in
  Badge allOk (if negb hasData then Grey else if allOk then Green else Red)
    (if negb hasData then js "Health" else if allOk then js "All systems OK" else js "Degraded")
    (js "Backend health: " ++ if allOk then js "all systems operational" else js "degraded")
    (match pl_error p with Some m => truthy m && negb hasData | None => false end).

(** The dot of a component in the panel. *)
Definition component_ok (name : str) (p : poll json) : bool :=
  match pl_data p with
  | Some v => match json_get (js "components") v with
              | Some cs => match json_get name cs with
                           | Some c => status_ok c
                           | None => false end
              | None => false end
  | None => false
  end.

Lemma status_ok_iff v : status_ok v = true ↔ json_get (js "status") v = Some (JStr (js "ok")).
Proof.
  unfold status_ok, field_str. rewrite bool_decide_eq_true. destruct (json_get _ v) as [[]|]; cbn; split; congruence.
Qed.

Lemma healthy_truthy data : healthy data = true → has_data data = true.
Proof. destruct data as [[| | | | |]|]; try done. Qed.

(** the badge is green exactly when the latest poll was answered and its answer said
    [ok]; a failed poll turns it red at once, while the panel goes on showing the dots of the
    last answer. Before the first answer the dot is grey, but the label for screen readers
    already says that the backend is degraded. *)
Theorem badge_green_iff (rs : list (res json)) r :
  (∀ e, r = Throw e → err_message e ≠ []) →
  let before := poll_run rs in let p := poll_run (rs ++ [r]) in
  (hb_dot (HealthStatusIndicator p) = Green ↔
     ∃ v, r = Ok v ∧ json_get (js "status") v = Some (JStr (js "ok"))) ∧
  (∀ e, r = Throw e → (∀ name, component_ok name p = component_ok name before) ∧
     hb_dot (HealthStatusIndicator p) = (if has_data (pl_data before) then Red else Grey) ∧
     hb_unreachable (HealthStatusIndicator p) = negb (has_data (pl_data before))) ∧
  hb_dot (HealthStatusIndicator initial_poll) = Grey ∧
  hb_label (HealthStatusIndicator initial_poll) = js "Backend health: degraded".
Proof.
  intros He before p. unfold p, poll_run. rewrite foldl_app. cbn [foldl]. fold (poll_run rs). fold before.
  split; [|split; [|done]].
  - destruct r as [v|e]; unfold HealthStatusIndicator; cbn [poll_settled pl_error pl_data hb_dot].
    + destruct (healthy (Some v)) eqn:Hv.
      * rewrite (healthy_truthy _ Hv). cbn. split; [|done]. intros _. exists v. split; [done|]. by apply status_ok_iff.
      * split; [by destruct (negb _)|]. intros (v' & [= <-] & Hs%status_ok_iff). cbn in Hv. congruence.
    + specialize (He e eq_refl).
      destruct (err_message e) as [|c m]; [done|]. cbn [truthy].
      split; [by destruct (negb _)|by intros (v & [=] & _)].
  - intros e ->. split; [done|]. unfold HealthStatusIndicator. cbn [poll_settled pl_error pl_data hb_dot hb_unreachable].
    specialize (He e eq_refl). destruct (err_message e) as [|c m]; [done|]. cbn [truthy andb]. by destruct (has_data _).
Qed.
End Health.

(** ** Addresses and the clipboard *)

Module Address.
(** [address.slice(-tail)]: [-0] is [0]. *)
Definition slice_tail (tail : nat) (s : str) : str := match tail with 0 => s | _ => slice_last tail s end.

Definition truncateAddress (address : str) (head tail : nat) : str :=
  if negb (truthy address) then []
  else if (length address <=? head + tail)%nat then address
  else take head address ++ js "..." ++ slice_tail tail address.

(** What the browser has: the asynchronous clipboard, or the command of old documents. *)
Inductive copy_means := AsyncClipboard (writes : bool) | OldCommand (answer : res bool) | NoDocument.

Definition copyToClipboard (means : copy_means) (text : str) : bool :=
  if negb (truthy text) then false
  else match means with
       | AsyncClipboard writes => writes
       | OldCommand (Ok successful) => successful
       | OldCommand (Throw _) => false
       | NoDocument => false
       end.

(** [useAddressCopy]: the flag and the instant its timer runs. *)
Record feedback := Feedback { fb_copied : bool; fb_timeout : option Z }.

Definition initial_feedback : feedback := Feedback false None.

Definition copy_settled (durationMs now : Z) (success : bool) (s : feedback) : feedback :=
  if success then Feedback true (Some (now + durationMs)%Z) else s.

(** The timer, once its instant is reached. *)
Definition timer_due (now : Z) (s : feedback) : feedback :=
  match fb_timeout s with
  | Some t => if (t <=? now)%Z then Feedback false None else s
  | None => s
  end.

(** The state at an instant, after copies that settled at the given instants. *)
Definition feedback_at (durationMs : Z) (copies : list (Z * bool)) (now : Z) : feedback :=
  timer_due now (foldl (λ s c, copy_settled durationMs c.1 c.2 (timer_due c.1 s)) initial_feedback copies).

Lemma feedback_inv durationMs copies now :
  (0 < durationMs)%Z → StronglySorted (λ a b : Z * bool, (a.1 <= b.1)%Z) copies →
  Forall (λ c : Z * bool, (c.1 <= now)%Z) copies →
  let s := feedback_at durationMs copies now in
  (fb_copied s = true ↔ ∃ t, (t, true) ∈ copies ∧ (now < t + durationMs)%Z) ∧
  (fb_copied s = true → is_Some (fb_timeout s)).
Proof.
  intros Hd. revert now. induction copies as [|[t ok] copies IH] using rev_ind; intros now Hs Hf.
  { cbn. split; [|done]. split; [done|]. by intros (t & ?%elem_of_nil & _). }
  apply Forall_app in Hf as [Hf [Ht _]%Forall_cons]. cbn [fst] in Ht.
  assert (Hs' : StronglySorted (λ a b : Z * bool, (a.1 <= b.1)%Z) copies ∧ Forall (λ c : Z * bool, (c.1 <= t)%Z) copies).
  { clear -Hs. induction copies as [|c copies IH]; [by split; constructor|].
    cbn in Hs. apply StronglySorted_inv in Hs as [Hs Hc]. destruct (IH Hs) as [I1 I2].
    apply Forall_app in Hc as [Hc [Hc' _]%Forall_cons]. split; constructor; done. }
  destruct Hs' as [Hs1 Hs2]. destruct (IH t Hs1 Hs2) as [I1 I2]. unfold feedback_at. rewrite foldl_app. cbn [foldl fst snd].
  change (timer_due t (foldl _ initial_feedback copies)) with (feedback_at durationMs copies t).
  set (s0 := feedback_at durationMs copies t) in *.
  destruct ok; cbn [copy_settled].
  - unfold timer_due. cbn [fb_timeout]. destruct (Z.leb_spec (t + durationMs) now); cbn.
    + split; [|done]. split; [done|]. intros (t' & Hin & Hlt). exfalso. apply elem_of_app in Hin as [Hin|Hin].
      * pose proof (proj1 (Forall_forall _ _) Hs2 _ Hin). cbn in *. lia.
      * apply list_elem_of_singleton in Hin. simplify_eq. lia.
    + split; [|by eexists]. split; [|done]. intros _. exists t. split; [|done]. apply elem_of_app. right. by apply list_elem_of_singleton.
  - assert (E : (∃ t', (t', true) ∈ copies ++ [(t, false)] ∧ (now < t' + durationMs)%Z) ↔
              ∃ t', (t', true) ∈ copies ∧ (now < t' + durationMs)%Z).
    { setoid_rewrite elem_of_app. setoid_rewrite list_elem_of_singleton. naive_solver. }
    rewrite E. destruct (IH now Hs1 Hf) as [J1 J2]. revert J1 J2. unfold s0, feedback_at.
    set (l := foldl _ _ _). assert (D : timer_due now (timer_due t l) = timer_due now l).
    { unfold timer_due. destruct (fb_timeout l) as [u|] eqn:Eu; [|by rewrite Eu].
      destruct (Z.leb_spec u t); cbn; [by rewrite (proj2 (Z.leb_le _ _)) by lia|by rewrite Eu]. }
    rewrite D. done.
Qed.

(** the copied mark is shown exactly within [durationMs] of a successful copy, however
    the copies follow each other: a new one restarts the delay and a failed one changes
    nothing, so the mark never stays. *)
Theorem copied_mark_shown durationMs copies now :
  (0 < durationMs)%Z → StronglySorted (λ a b : Z * bool, (a.1 <= b.1)%Z) copies →
  Forall (λ c : Z * bool, (c.1 <= now)%Z) copies →
  fb_copied (feedback_at durationMs copies now) = true ↔
  ∃ t, (t, true) ∈ copies ∧ (now < t + durationMs)%Z.
Proof. intros Hd Hs Hf. by apply feedback_inv. Qed.
End Address.

(** ** The transactions page *)

Module TransactionsPage.
Section Page.
Context `{UnicodeCase} {T : Type} (view : T → TransactionFilterable).

Record tx_page := TxPage {
  tp_params : list (str * str); tp_search : str; tp_page : nat; tp_pageSize : nat;
  tp_selected : option str; tp_data : option (list T) }.

Definition headerQuery (s : tx_page) : str := default [] (params_get (js "q") (tp_params s)).
Definition userParam (s : tx_page) : str := default [] (params_get (js "user") (tp_params s)).
Definition activeQuery (s : tx_page) : str := if truthy (tp_search s) then tp_search s else headerQuery s.

Definition filtered (s : tx_page) : list T :=
  match tp_data s with None => [] | Some rows => filterTransactionRows view rows (activeQuery s) end.

Definition totalPages (s : tx_page) : nat := total_pages (tp_pageSize s) (length (filtered s)).
Definition paginated (s : tx_page) : list T := page_slice (tp_pageSize s) (tp_page s) (filtered s).
Definition footer_shown (s : tx_page) : bool := (1 <? totalPages s)%nat.
Definition footer_of (s : tx_page) : footer := PaginationFooter (length (filtered s)) (tp_page s) (tp_pageSize s).

Definition with_page (n : nat) (s : tx_page) : tx_page :=
  TxPage (tp_params s) (tp_search s) n (tp_pageSize s) (tp_selected s) (tp_data s).

(** The page as it is first rendered, its effects run. *)
Definition mount (params : list (str * str)) : tx_page :=
  let s := TxPage params [] 0 10 None None in
  if truthy (userParam s) then TxPage params [] 0 10 (Some (userParam s)) None else s.

(** The effects of a render: the page reset when the active query changed, the dialog opened
    when the [user] parameter changed. *)
Definition effects (before after : tx_page) : tx_page :=
  let s := if str_eqb (activeQuery before) (activeQuery after) then after else with_page 0 after in
  if str_eqb (userParam before) (userParam s) then s
  else if truthy (userParam s)
  then TxPage (tp_params s) (tp_search s) (tp_page s) (tp_pageSize s) (Some (userParam s)) (tp_data s)
  else s.

Inductive page_op :=
  OpSearch (value : str) | OpNavigate (params : list (str * str)) | OpPageSize (size : nat) |
  OpPrev | OpNext | OpRow (username : str) | OpClose | OpData (rows : list T).

Definition page_event (op : page_op) (s : tx_page) : tx_page :=
  match op with
  | OpSearch value => TxPage (tp_params s) value 0 (tp_pageSize s) (tp_selected s) (tp_data s)
  | OpNavigate params => TxPage params (tp_search s) (tp_page s) (tp_pageSize s) (tp_selected s) (tp_data s)
  | OpPageSize size =>
      if footer_shown s && bool_decide (size ∈ PAGE_SIZE_OPTIONS)
      then TxPage (tp_params s) (tp_search s) 0 size (tp_selected s) (tp_data s) else s
  | OpPrev => if footer_shown s && negb (ft_prev_disabled (footer_of s)) then with_page (tp_page s - 1) s else s
  | OpNext => if footer_shown s && negb (ft_next_disabled (footer_of s)) then with_page (tp_page s + 1) s else s
  | OpRow username => TxPage (tp_params s) (tp_search s) (tp_page s) (tp_pageSize s) (Some username) (tp_data s)
  | OpClose => TxPage (params_delete (js "user") (tp_params s)) (tp_search s) (tp_page s) (tp_pageSize s) None (tp_data s)
  | OpData rows => TxPage (tp_params s) (tp_search s) (tp_page s) (tp_pageSize s) (tp_selected s) (Some rows)
  end.

Definition page_step (op : page_op) (s : tx_page) : tx_page := effects s (page_event op s).

(** The address [handleDialogClose] goes to. *)
Definition close_url (pathname : str) (s : tx_page) : str :=
  let qs := params_to_string (params_delete (js "user") (tp_params s)) in
  if truthy qs then pathname ++ js "?" ++ qs else pathname.

Definition page_run (ops : list page_op) (s : tx_page) : tx_page := foldl (λ s op, page_step op s) s ops.

(** *** Lemmas *)

Lemma effects_keep b a : tp_pageSize (effects b a) = tp_pageSize a ∧ tp_data (effects b a) = tp_data a ∧
  tp_params (effects b a) = tp_params a ∧ tp_search (effects b a) = tp_search a.
Proof. unfold effects. destruct (str_eqb (activeQuery b) _); destruct (str_eqb (userParam b) _); try destruct (truthy _); done. Qed.

Lemma effects_same b a : activeQuery b = activeQuery a → userParam b = userParam a → effects b a = a.
Proof.
  intros Ea Eu. unfold effects, str_eqb. rewrite (bool_decide_true (activeQuery b = activeQuery a)) by done.
  by rewrite (bool_decide_true (userParam b = userParam a)).
Qed.

Lemma filtered_ext s s' : tp_data s = tp_data s' → tp_params s = tp_params s' → tp_search s = tp_search s' → filtered s = filtered s'.
Proof. unfold filtered, activeQuery, headerQuery. by intros -> -> ->. Qed.

Lemma page_size_step op s :
  tp_pageSize (page_step op s) = tp_pageSize s ∨ (footer_shown s = true ∧ ∃ n, op = OpPageSize n).
Proof.
  unfold page_step. rewrite (proj1 (effects_keep _ _)). destruct op; cbn [page_event]; try (by left).
  - destruct (footer_shown s); [right; split; [done|by eexists]|by left].
  - destruct (_ && _); by left.
  - destruct (_ && _); by left.
Qed.

Lemma one_page size n : 0 < size → total_pages size n = 1 ↔ n ≤ size.
Proof.
  intros Hs. split.
  - intros E. pose proof (total_pages_cover size Hs n). rewrite E in *. lia.
  - intros Hn. destruct (decide (1 < total_pages size n)) as [Hp|Hp]; [|unfold total_pages in *; lia].
    destruct (total_pages_tight size Hs n 1 Hp); lia.
Qed.

(** The parameter [user] is set only while a dialog is open. *)
Definition dialog_ok (s : tx_page) : Prop := tp_selected s = None → userParam s = [].

Lemma effects_dialog b a : tp_selected (effects b a) = None → tp_selected a = None ∧ (userParam a = [] ∨ userParam b = userParam a).
Proof.
  unfold effects. set (c := if str_eqb (activeQuery b) (activeQuery a) then a else with_page 0 a).
  assert (Ec : userParam c = userParam a ∧ tp_selected c = tp_selected a) by (unfold c; by destruct (str_eqb _ _)).
  destruct Ec as [-> Es]. destruct (str_eqb (userParam b) (userParam a)) eqn:E.
  - rewrite Es. intros Hn. split; [done|]. right. by apply bool_decide_eq_true in E.
  - destruct (truthy (userParam a)) eqn:Ht; [done|]. rewrite Es. intros Hn. split; [done|]. left. by apply truthy_false in Ht.
Qed.

Lemma effects_user b a : userParam (effects b a) = userParam a.
Proof. unfold userParam. by destruct (effects_keep b a) as (_ & _ & -> & _). Qed.

Lemma params_get_removed k ps : params_get k (params_delete k ps) = None.
Proof. rewrite params_get_delete. unfold str_eqb. by rewrite bool_decide_true. Qed.

Lemma dialog_step op s : dialog_ok s → dialog_ok (page_step op s).
Proof.
  unfold dialog_ok, page_step. intros Hs Hn. rewrite effects_user. apply effects_dialog in Hn as [Hn [?|Hu]]; [done|].
  destruct op; cbn [page_event] in *; try exact (Hs Hn).
  - rewrite <-Hu. by apply Hs.
  - destruct (_ && _); by apply Hs.
  - destruct (_ && _); by apply Hs.
  - destruct (_ && _); by apply Hs.
  - done.
  - unfold userParam. cbn [tp_params]. by rewrite params_get_removed.
Qed.

(** *** Properties *)

(** the address names a user only while a payment dialog is open, through any
    navigation, selection and refresh: closing the dialog takes the parameter out of the
    address and leaves every other one, so a reload does not open it again, and following
    the same link again does. *)
Theorem dialog_in_address params ops :
  let s := page_run ops (mount params) in
  (tp_selected s = None → userParam s = []) ∧
  (∀ k, let s' := page_step OpClose s in
     tp_selected s' = None ∧ tp_selected (mount (tp_params s')) = None ∧
     params_get k (tp_params s') = if str_eqb k (js "user") then None else params_get k (tp_params s)) ∧
  (∀ link u, tp_selected s = None → params_get (js "user") link = Some u → u ≠ [] →
     tp_selected (page_step (OpNavigate link) s) = Some u).
Proof.
  intros s.
  assert (I : dialog_ok s).
  { unfold s, page_run. clear s. induction ops as [|op ops IH] using rev_ind.
    - unfold mount, dialog_ok. cbn [foldl]. destruct (truthy _) eqn:E; [done|]. intros _. by apply truthy_false in E.
    - rewrite foldl_app. by apply dialog_step. }
  split; [exact I|]. split.
  - intros k s'. assert (P : tp_params s' = params_delete (js "user") (tp_params s)) by apply effects_keep.
    assert (U : ∀ b, userParam (TxPage (tp_params s') [] 0 10 b None) = []).
    { intros b. unfold userParam. cbn [tp_params]. by rewrite P, params_get_removed. }
    split; [|split; [by unfold mount; rewrite U|by rewrite P, params_get_delete]].
    unfold s', page_step, effects. cbn [page_event]. set (a := TxPage _ _ _ _ None _).
    set (c := if str_eqb _ _ then a else with_page 0 a).
    assert (tp_selected c = None ∧ userParam c = []) as [E1 E2].
    { unfold c. split; [by destruct (str_eqb _ _)|].
      destruct (str_eqb _ _); unfold userParam, a; cbn [tp_params with_page]; by rewrite params_get_removed. }
    rewrite E2. cbn [truthy]. clearbody c. by destruct (str_eqb _ _).
  - intros link u Hn Hl Hu. unfold page_step, effects. cbn [page_event]. set (a := TxPage link _ _ _ _ _).
    set (c := if str_eqb _ _ then a else with_page 0 a).
    assert (Ec : userParam c = u) by (unfold c; destruct (str_eqb _ _); unfold userParam, a; cbn [tp_params with_page]; by rewrite Hl).
    rewrite Ec, (I Hn). destruct u as [|x u]; [done|]. done.
Qed.

(** choosing a page size at least as large as the table is a choice for good: the page
    shows every row, the footer that holds the selector is gone, and whatever happens next
    leaves the size as it is while the rows fit. *)
Theorem page_size_sticks s n :
  footer_shown s = true → n ∈ PAGE_SIZE_OPTIONS → length (filtered s) ≤ n →
  let s' := page_step (OpPageSize n) s in
  tp_pageSize s' = n ∧ paginated s' = filtered s' ∧ footer_shown s' = false ∧
  (∀ ops, (∀ k, length (filtered (page_run (take k ops) s')) ≤ n) → tp_pageSize (page_run ops s') = n).
Proof.
  intros Hf Hn Hl s'.
  assert (Pos : 0 < n) by (unfold PAGE_SIZE_OPTIONS in Hn; set_unfold in Hn; lia).
  assert (Es : s' = TxPage (tp_params s) (tp_search s) 0 n (tp_selected s) (tp_data s)).
  { unfold s', page_step. cbn [page_event]. rewrite Hf, bool_decide_true by done. cbn [andb].
    by apply effects_same. }
  assert (Fs : filtered s' = filtered s) by (rewrite Es; by apply filtered_ext).
  assert (Ps : tp_pageSize s' = n) by (by rewrite Es).
  assert (G : ∀ t, tp_pageSize t = n → length (filtered t) ≤ n → footer_shown t = false).
  { intros t Et Ht. unfold footer_shown, totalPages. by rewrite Et, (proj2 (one_page n _ Pos)). }
  split; [done|]. split; [|split; [by apply G; [done|rewrite Fs]|]].
  - unfold paginated. rewrite Ps, Es. cbn [tp_page]. rewrite <-Es. unfold page_slice. cbn [Nat.mul]. rewrite drop_0.
    apply take_ge. by rewrite Fs.
  - intros ops. clearbody s'. clear Es Fs Hf Hl. revert s' Ps. induction ops as [|op ops IH]; intros s' Ps Hfit; [done|].
    cbn [page_run foldl]. apply IH.
    + pose proof (Hfit 0) as H0. cbn in H0. destruct (page_size_step op s') as [->|[Hs _]]; [done|].
      by rewrite G in Hs.
    + intros k. apply (Hfit (S k)).
Qed.
End Page.
End TransactionsPage.

Module Runs.
#[local] Existing Instance ascii_case.

Definition alert (id : str) : Notifications.ContractAlert :=
  Notifications.MkAlert id Notifications.Warning (js "lag") (js "poller behind") (js "2026-01-01").

Definition polls : list Notifications.center_op :=
  [Notifications.OpPoll (Ok [alert (js "a")]); Notifications.OpMarkAll;
   Notifications.OpPoll (Throw (new_error (js "down"))); Notifications.OpPoll (Ok [alert (js "b"); alert (js "a")])].

Lemma alerts_listed_once_witness :
  NoDup (Notifications.ids (Notifications.center_run polls Notifications.initial_center)) ∧
  Notifications.ids (Notifications.center_run polls Notifications.initial_center) = [js "b"; js "a"] ∧
  Notifications.unreadCount (Notifications.center_run polls Notifications.initial_center) = 1.
Proof.
  split; [|by vm_compute]. apply (Notifications.alerts_listed_once polls).
  apply (bool_decide_unpack _). vm_compute. exact I.
Defined.

Lemma badge_green_iff_witness :
  Health.hb_dot (Health.HealthStatusIndicator (Polling.poll_run [Ok (JObj [(js "status", JStr (js "ok"))]); Throw (new_error (js "down"))])) = Health.Red.
Proof.
  destruct (Health.badge_green_iff [Ok (JObj [(js "status", JStr (js "ok"))])] (Throw (new_error (js "down")))) as (_ & F & _).
  - by intros e [= <-].
  - by apply (F (new_error (js "down")) eq_refl).
Defined.

Lemma copied_mark_shown_witness :
  Address.fb_copied (Address.feedback_at 2000 [(0, true); (1500, true); (1600, false)]%Z 3400%Z) = true ∧
  Address.fb_copied (Address.feedback_at 2000 [(0, true); (1500, true); (1600, false)]%Z 3500%Z) = false.
Proof.
  split; [|by vm_compute].
  apply Address.copied_mark_shown.
  - lia.
  - repeat constructor; cbn; lia.
  - repeat constructor; cbn; lia.
  - exists 1500%Z. split; [apply (bool_decide_unpack _); vm_compute; exact I|lia].
Defined.

Definition feed (name : str) : TransactionFilterable := MkFilterable None None None (Some name) None None.
Definition feeds : list TransactionFilterable := feed ∘ (λ n, js "user" ++ Z_to_str (Z.of_nat n)) <$> seq 0 12.
Definition loaded : TransactionsPage.tx_page :=
  TransactionsPage.page_step id (TransactionsPage.OpData feeds) (TransactionsPage.mount []).

Lemma page_size_sticks_witness :
  TransactionsPage.footer_shown id loaded = true ∧ length (TransactionsPage.filtered id loaded) = 12 ∧
  TransactionsPage.footer_shown id (TransactionsPage.page_step id (TransactionsPage.OpPageSize 25) loaded) = false.
Proof.
  split; [by vm_compute|]. split; [by vm_compute|].
  apply (TransactionsPage.page_size_sticks id loaded 25).
  - by vm_compute.
  - apply (bool_decide_unpack _). vm_compute. exact I.
  - apply Nat.leb_le. by vm_compute.
Defined.

Example truncated : Address.truncateAddress (js "GABCDEFGHIJKLMNOP") 1 4 = js "G...MNOP".
Proof. by vm_compute. Qed.

(** With no trailing characters asked for, [slice(-0)] is the whole address. *)
Example truncated_tail_zero : Address.truncateAddress (js "GABCDEF") 1 0 = js "G...GABCDEF".
Proof. by vm_compute. Qed.
End Runs.
