(* ===== verification/ContractAdmin.v ===== *)
(** * Contract monitoring and administration (dashboard)

    Model of [dashboard/app/dashboard/contracts/page.tsx] and
    [dashboard/components/EmergencyPauseControl.tsx]: the fee coefficient form (module Fee), the
    table of usernames and the blacklist drawer (Usernames), the identity link search (Identity)
    and the freeze control (PauseControl), which no page renders. The wallet extension is a parameter. *)

From S2P Require Import Prelude JsString JsNumber JsRound Base64 JsDate Json UriCodec FormCodec Tables Effects Scripts Decode DashboardApi.

(** ** The fee coefficient *)

Module Fee.
Inductive fee_status :=
  | Idle
  | Submitting
  | Success (newValue txHash : option json)
  | Failed (message : str).

Record fee_form := FeeForm { ff_input : str; ff_status : fee_status }.

Definition initial_form : fee_form := FeeForm [] Idle.

(** [Number.isInteger(x)]: an integer is represented with exponent zero. *)
Definition isInteger (x : num) : bool := match x with Fin _ e => (e =? 0)%Z | _ => false end.

Definition basisPoints (s : fee_form) : num := Number (ff_input s).

Definition isValid (s : fee_form) : bool :=
  negb (str_eqb (ff_input s) []) && isInteger (basisPoints s) && num_leb (Fin 0 0) (basisPoints s)
  && num_leb (basisPoints s) (num_of_Z 10000).

Definition percent (bp : num) : str := num_to_fixed 2 (num_div bp (num_of_Z 100)) ++ js "%".

Definition percentDisplay (s : fee_form) : option str := if isValid s then Some (percent (basisPoints s)) else None.

(** Typing; the field is disabled without the role and while a submission runs. *)
Definition type_fee (isSuperAdmin : bool) (text : str) (s : fee_form) : fee_form :=
  match isSuperAdmin, ff_status s with
  | false, _ | _, Submitting => s
  | true, _ => FeeForm text Idle
  end.

Definition submit_disabled (isSuperAdmin : bool) (s : fee_form) : bool :=
  negb isSuperAdmin || negb (isValid s) || match ff_status s with Submitting => true | _ => false end.

Section Submit.
Context `{DashEnv, Browser, Multipart, Host W}.
Abbreviation form := (M (fee_form * (api_state * W))).

Definition set_status (st : fee_status) (s : fee_form) : fee_form := FeeForm (ff_input s) st.
Definition accepted (newValue txHash : option json) (s : fee_form) : fee_form := FeeForm [] (Success newValue txHash).

Definition handleSubmit : form unit :=
  s ← get_state;
  if negb (isValid s) then mret tt
  else
    modify_state (set_status Submitting);;
    try_catch
      (result ← host (setFeeCoefficient (basisPoints s));
       newValue ← read_prop (js "fee_coefficient") result;
       txHash ← read_prop (js "tx_hash") result;
       modify_state (accepted newValue txHash))
      (λ err, modify_state (set_status (Failed (err_message err)))).

Definition click_submit (isSuperAdmin : bool) : form unit :=
  s ← get_state; if submit_disabled isSuperAdmin s then mret tt else handleSubmit.
End Submit.

(** *** Properties *)

Lemma valid_integer s : isValid s = true ↔ ff_input s ≠ [] ∧ ∃ n, (0 <= n <= 10000)%Z ∧ Number (ff_input s) = Fin n 0.
Proof.
  assert (num_of_Z 10000 = Fin 10000 0) as Hm by (vm_compute; reflexivity).
  unfold isValid, basisPoints. rewrite Hm, !andb_true_iff, negb_true_iff, str_eqb_false.
  destruct (Number (ff_input s)) as [|b|n e]; [split; [naive_solver|intros (_ & ? & _ & [=])]..|].
  unfold isInteger. rewrite Z.eqb_eq. split.
  - intros [[[Hn ->] H1] H2]. split; [done|]. exists n. cbn in H1, H2. split; [lia|done].
  - intros [Hn (n' & Hr & [= -> ->])]. cbn. split_and!; [done|done|lia|lia].
Qed.

(** A hundredth of an integer prints with two places as it is. *)
Lemma percent_exact n : (0 <= n <= 10000)%Z → percent (Fin n 0) = fixed_text 2 n ++ js "%".
Proof.
  intros Hn. unfold percent. f_equal. unfold num_div, num_of_Z.
  replace (round_ratio 100 1) with (Fin 100 0) by (vm_compute; reflexivity).
  change (num_to_fixed 2 (round_ratio (1 * (n * 1)) (10 ^ Z.of_nat 2)) = fixed_text 2 n).
  rewrite Z.mul_1_r, Z.mul_1_l. apply to_fixed_decimal; lia.
Qed.

(** The form accepts exactly the texts of an integer from 0 to 10000; the percentage
    beside the field is exact to both its places, and the whole decimal form of every such integer
    is accepted. *)
Theorem fee_form_exact s :
  (isValid s = true → ∃ n, (0 <= n <= 10000)%Z ∧ basisPoints s = Fin n 0 ∧
     percentDisplay s = Some (fixed_text 2 n ++ js "%")) ∧
  (isValid s = false → percentDisplay s = None) ∧
  (∀ n, (n <= 10000)%N → ff_input s = N_to_str n → isValid s = true).
Proof.
  split_and!.
  - intros V. pose proof V as V'. apply valid_integer in V as (_ & n & Hn & E). exists n. split; [done|]. split; [done|].
    unfold percentDisplay. rewrite V'. unfold basisPoints. by rewrite E, percent_exact.
  - unfold percentDisplay. by intros ->.
  - intros n Hn E. apply valid_integer. rewrite E. split.
    + apply N_to_str_nonempty.
    + exists (Z.of_N n). split; [lia|]. rewrite Number_nat. apply num_of_Z_safe. unfold safe_int. lia.
Qed.

Section SubmitSpec.
Context `{DashEnv, Browser, Multipart, Host W}.

(** A submission always settles: the form is never left "submitting". It reports
    success, and is cleared, only when the server answered a fee object; otherwise the text stays in
    the field beside the error. An invalid text sends nothing. *)
Theorem fee_submit_settles s (a : api_state) (w : W) : ff_status s ≠ Submitting →
  ∃ s' aw', handleSubmit (s, (a, w)) = (Ok tt, (s', aw')) ∧ ff_status s' ≠ Submitting ∧
  (isValid s = false → s' = s ∧ aw' = (a, w)) ∧
  (isValid s = true →
     (∃ v, setFeeCoefficient (basisPoints s) (a, w) = (Ok v, aw') ∧ v ≠ JNull ∧
        s' = FeeForm [] (Success (json_get (js "fee_coefficient") v) (json_get (js "tx_hash") v))) ∨
     ((setFeeCoefficient (basisPoints s) (a, w)).2 = aw' ∧ ff_input s' = ff_input s ∧ ∃ m, ff_status s' = Failed m)).
Proof.
  intros Hs. unfold handleSubmit. rewrite (run_bind_ok _ _ _ _ _ (run_get_state s (a, w))).
  destruct (isValid s) eqn:V; cbn [negb]; [|by eexists s, (a, w)].
  rewrite (run_bind_ok _ _ _ _ _ (run_modify_state _ s (a, w))).
  destruct (setFeeCoefficient (basisPoints s) (a, w)) as [r aw] eqn:E.
  pose proof (run_host _ (set_status Submitting s) _ _ _ E) as R. unfold try_catch. destruct r as [v|e].
  - rewrite (run_bind_ok _ _ _ _ _ R). assert (v = JNull ∨ v ≠ JNull) as [->|Hv] by (destruct v; auto).
    + cbn. eexists _, aw. split; [reflexivity|]. split; [done|]. split; [done|]. intros _. right. eauto.
    + assert (∀ k s0, read_prop k v (s0 : fee_form * (api_state * W)) = (Ok (json_get k v), s0)) as P by (by destruct v).
      rewrite (run_bind_ok _ _ _ _ _ (P _ _)), (run_bind_ok _ _ _ _ _ (P _ _)), run_modify_state.
      eexists _, aw. split; [reflexivity|]. split; [done|]. split; [done|]. intros _. left. by exists v.
  - rewrite (run_bind_throw _ _ _ _ _ R), run_modify_state. eexists _, aw. split; [reflexivity|]. split; [done|].
    split; [done|]. intros _. right. eauto.
Qed.
End SubmitSpec.
End Fee.

(** ** Usernames and the blacklist *)

Module Usernames.
Record RegistryClaim := MkClaim { rc_username : str; rc_public_key : str; rc_registered_at : str; rc_tx_hash : option str }.

Inductive sort_key := ByUsername | ByRegistered.

#[export] Instance sort_key_eq_dec : EqDecision sort_key.
Proof. solve_decision. Defined.

Record sort_state := MkSort { so_key : sort_key; so_asc : bool }.

Definition initial_sort : sort_state := MkSort ByRegistered false.

Definition claim_cmp `{Collator, HostDates} (k : sort_key) (a b : RegistryClaim) : comparison :=
  match k with
  | ByUsername => localeCompare (rc_username a) (rc_username b)
  | ByRegistered => answer_sign (num_sub (date_ms (rc_registered_at a)) (date_ms (rc_registered_at b)))
  end.

Definition sorted `{Collator, HostDates} (s : sort_state) (data : option (list RegistryClaim)) : list RegistryClaim :=
  match data with
  | None => []
  | Some l => sort_by (directed (so_asc s) (claim_cmp (so_key s))) l
  end.

Definition toggleSort (key : sort_key) (s : sort_state) : sort_state :=
  if bool_decide (so_key s = key) then MkSort (so_key s) (negb (so_asc s)) else MkSort key true.

(** The badge under the table. *)
Definition registration_count (n : nat) : str :=
  num_to_str (num_of_nat n) ++ js " active registration" ++ (if (n =? 1)%nat then [] else js "s").

(** *** Signing with the extension

    The package [@stellar/freighter-api]: the answers by the properties the page reads, or the
    failure of loading it. An [error] property is [Some] when present. *)
Record sign_result := MkSigned { sg_error : option json; sg_signedTxXdr : option str }.

Record Freighter (W : Type) := MkFreighter {
  isConnected : M W bool;
  getAddress : M W str;
  signTransaction : str → str → M W sign_result;
}.
Arguments MkFreighter {W}.
Arguments isConnected {W}.
Arguments getAddress {W}.
Arguments signTransaction {W}.

Class FreighterPackage (W : Type) := freighter_package : res (Freighter W).

Definition NETWORK_PASSPHRASE : str := js "Test SDF Network ; September 2015".

Definition blacklist_payload (username publicKey admin : str) : json :=
  JObj [(js "fn", JStr (js "blacklist_user")); (js "username", JStr username);
        (js "public_key", JStr publicKey); (js "admin", JStr admin)].

Section Sign.
Context `{FreighterPackage W}.

(** The [try] block of [handleBlacklistConfirm], up to the signed text. *)
Definition sign_blacklist (username publicKey : str) : M W str :=
  api ← of_res freighter_package;
  connected ← isConnected api;
  if negb connected then throw (new_error (js "Freighter wallet not connected"))
  else
    addr ← getAddress api;
    if negb (truthy addr) then throw (new_error (js "Could not retrieve public key"))
    else
      placeholderXdr ← of_res (btoa (stringify (blacklist_payload username publicKey addr)));
      result ← signTransaction api placeholderXdr NETWORK_PASSPHRASE;
      match sg_error result with
      | Some e => throw (new_error (json_to_string e))
      | None => match sg_signedTxXdr result with Some x => mret x | None => throw type_error end
      end.
End Sign.

(** *** The drawer *)

Record drawer := MkDrawer {
  dw_show : bool;
  dw_username : option str;
  dw_publicKey : option str;
  dw_confirmed : bool;
  dw_signing : bool;
  dw_msg : option (bool * str);
}.

(** With it the targets whose signature is awaited, and the timers that will close it. *)
Record page := MkPage { pg_drawer : drawer; pg_awaited : list (str * str); pg_timers : nat }.

Definition opened : page := MkPage (MkDrawer false None None false false None) [] 0.

Definition handleBlacklistClick (username publicKey : str) (s : page) : page :=
  MkPage (MkDrawer true (Some username) (Some publicKey) false (dw_signing (pg_drawer s)) None) (pg_awaited s) (pg_timers s).

Definition set_confirmed (s : page) : page :=
  let d := pg_drawer s in
  MkPage (MkDrawer (dw_show d) (dw_username d) (dw_publicKey d) true (dw_signing d) (dw_msg d)) (pg_awaited s) (pg_timers s).

(** [handleBlacklistConfirm] until it awaits the extension, and the pair it then holds. *)
Definition confirmed_target (s : page) : option (str * str) :=
  let d := pg_drawer s in
  if negb (dw_confirmed d) then None
  else match dw_username d, dw_publicKey d with
    | Some u, Some k => if truthy u && truthy k then Some (u, k) else None
    | _, _ => None
    end.

Definition handleBlacklistConfirm (s : page) : page :=
  let d := pg_drawer s in
  if negb (dw_confirmed d) then set_confirmed s
  else match confirmed_target s with
    | None => s
    | Some t => MkPage (MkDrawer (dw_show d) (dw_username d) (dw_publicKey d) (dw_confirmed d) true None) (pg_awaited s ++ [t]) (pg_timers s)
    end.

Definition blacklisted_text (username signedTxXdr : str) : str :=
  js "User @" ++ username ++ js " has been blacklisted. Signed XDR: " ++ take 24 signedTxXdr ++ [8230%N].

(** The [catch] takes any failure: what is thrown here is always an [Error]. *)
Definition signing_settled (i : nat) (r : res str) (s : page) : page :=
  match pg_awaited s !! i with
  | None => s
  | Some (u, _) =>
      let d := pg_drawer s in
      let msg := match r with Ok x => (true, blacklisted_text u x) | Throw e => (false, err_message e) end in
      MkPage (MkDrawer (dw_show d) (dw_username d) (dw_publicKey d) (dw_confirmed d) false (Some msg))
        (delete i (pg_awaited s)) (match r with Ok _ => S (pg_timers s) | Throw _ => pg_timers s end)
  end.

(** The timer of two seconds, and the button that closes. *)
Definition timer_due (s : page) : page :=
  match pg_timers s with
  | O => s
  | S n => let d := pg_drawer s in MkPage (MkDrawer false None None false (dw_signing d) (dw_msg d)) (pg_awaited s) n
  end.

Definition close_drawer (s : page) : page :=
  MkPage (MkDrawer false None None false (dw_signing (pg_drawer s)) None) (pg_awaited s) (pg_timers s).

Inductive event :=
  | EClick (username publicKey : str) | EFirst | EFinal | ESigned (i : nat) (r : res str) | ETimer | EClose.

(** The drawer covers the table while it is shown; its button follows the confirmation. *)
Definition step (s : page) (e : event) : page :=
  let d := pg_drawer s in
  match e with
  | EClick u k => if dw_show d then s else handleBlacklistClick u k s
  | EFirst => if dw_show d && negb (dw_confirmed d) then set_confirmed s else s
  | EFinal => if dw_show d && dw_confirmed d && negb (dw_signing d) then handleBlacklistConfirm s else s
  | ESigned i r => signing_settled i r s
  | ETimer => timer_due s
  | EClose => if dw_show d then close_drawer s else s
  end.

Definition run (es : list event) : page := foldl step opened es.

(** *** Properties *)

(** [t] was clicked in [es] and confirmed afterwards. *)
Definition confirmed_once (es : list event) (t : str * str) : Prop :=
  ∃ pre post, es = pre ++ EClick t.1 t.2 :: post ∧ EFirst ∈ post.

Definition drawer_ok (es : list event) (s : page) : Prop :=
  (dw_show (pg_drawer s) = true → ∃ pre post u k, es = pre ++ EClick u k :: post ∧
     dw_username (pg_drawer s) = Some u ∧ dw_publicKey (pg_drawer s) = Some k ∧ (dw_confirmed (pg_drawer s) = true → EFirst ∈ post)) ∧
  Forall (confirmed_once es) (pg_awaited s).

Lemma confirmed_once_snoc es e t : confirmed_once es t → confirmed_once (es ++ [e]) t.
Proof.
  intros (pre & post & -> & Hp). exists pre, (post ++ [e]). rewrite <-app_assoc. split; [done|]. apply elem_of_app. auto.
Qed.

Lemma run_snoc es e : run (es ++ [e]) = step (run es) e.
Proof. unfold run. by rewrite foldl_app. Qed.

Lemma drawer_ok_snoc es e s s' : pg_awaited s' = pg_awaited s →
  (dw_show (pg_drawer s') = true → dw_show (pg_drawer s) = true ∧ dw_username (pg_drawer s') = dw_username (pg_drawer s) ∧
     dw_publicKey (pg_drawer s') = dw_publicKey (pg_drawer s) ∧ (dw_confirmed (pg_drawer s') = true → dw_confirmed (pg_drawer s) = true ∨ e = EFirst)) →
  drawer_ok es s → drawer_ok (es ++ [e]) s'.
Proof.
  intros Ea Ed [D A]. split.
  - intros Hs. destruct (Ed Hs) as (Hs' & -> & -> & Hc). destruct (D Hs') as (pre & post & u & k & -> & Hu & Hk & Hf).
    exists pre, (post ++ [e]), u, k. rewrite <-app_assoc. split_and!; [done|done|done|]. intros C. apply elem_of_app.
    destruct (Hc C) as [C'| ->]; [by left; apply Hf|right; by constructor].
  - rewrite Ea. eapply Forall_impl; [exact A|]. intros t. apply confirmed_once_snoc.
Qed.

Lemma drawer_ok_same es e s : drawer_ok es s → drawer_ok (es ++ [e]) s.
Proof. apply drawer_ok_snoc; [done|]. intros H. auto. Qed.

Lemma run_drawer_ok es : drawer_ok es (run es).
Proof.
  induction es as [|e es IH] using rev_ind; [by split|]. rewrite run_snoc. generalize (run es) IH. clear IH. intros s I.
  destruct e as [u k| | |i r| |]; cbn [step].
  - destruct (dw_show (pg_drawer s)) eqn:Hs; [by apply drawer_ok_same|]. destruct I as [_ A]. split.
    + intros _. exists es, [], u, k. cbn. split_and!; done.
    + cbn. eapply Forall_impl; [exact A|]. intros t. apply confirmed_once_snoc.
  - destruct (_ && _); [|by apply drawer_ok_same]. apply (drawer_ok_snoc es _ s); cbn; auto.
  - destruct (dw_show (pg_drawer s) && dw_confirmed (pg_drawer s) && negb (dw_signing (pg_drawer s))) eqn:G; [|by apply drawer_ok_same].
    apply andb_true_iff in G as [[Hs Hc]%andb_true_iff _]. unfold handleBlacklistConfirm. rewrite Hc. cbn [negb].
    destruct (confirmed_target s) as [t|] eqn:Et; [|by apply drawer_ok_same].
    assert (drawer_ok (es ++ [EFinal]) s) as [D A] by (by apply drawer_ok_same).
    split; [intros _; destruct (D Hs) as (pre & post & u & k & E & Hu & Hk & Hf); exists pre, post, u, k; split_and!; [exact E|exact Hu|exact Hk|intros _; by apply Hf]|]. cbn. apply Forall_app. split; [done|]. constructor; [|constructor].
    destruct (D Hs) as (pre & post & u & k & E & Hu & Hk & Hf). exists pre, post. unfold confirmed_target in Et.
    rewrite Hc, Hu, Hk in Et. cbn in Et. destruct (truthy u && truthy k); [|done]. injection Et as <-. split; [done|by apply Hf].
  - unfold signing_settled. destruct (pg_awaited s !! i) as [[u k]|]; [|by apply drawer_ok_same].
    assert (drawer_ok (es ++ [ESigned i r]) s) as [D A] by (by apply drawer_ok_same).
    split; cbn; [exact D|]. by apply Forall_delete.
  - unfold timer_due. destruct (pg_timers s); [by apply drawer_ok_same|]. by apply (drawer_ok_snoc es _ s).
  - destruct (dw_show (pg_drawer s)) eqn:Hs; [|by apply drawer_ok_same]. by apply (drawer_ok_snoc es _ s).
Qed.

(** No signature is asked for unless the drawer was opened for that very user and
    confirmed afterwards; the signature itself is the second confirmation. *)
Theorem blacklisting_confirmed_twice es : Forall (confirmed_once es) (pg_awaited (run es)).
Proof. apply run_drawer_ok. Qed.

(** Closing the drawer abandons neither the signature nor the timer: the answer for
    one user is reported in the drawer of the next, and the timer then closes that drawer and takes its
    confirmation back. *)
Theorem drawer_of_next_user u k u' k' x :
  truthy u = true → truthy k = true →
  let s := run [EClick u k; EFirst; EFinal; EClose; EClick u' k'; EFirst; ESigned 0 (Ok x)] in
  dw_show (pg_drawer s) = true ∧ dw_username (pg_drawer s) = Some u' ∧ dw_confirmed (pg_drawer s) = true ∧
  dw_msg (pg_drawer s) = Some (true, blacklisted_text u x) ∧
  dw_show (pg_drawer (step s ETimer)) = false ∧ dw_confirmed (pg_drawer (step s ETimer)) = false ∧
  dw_username (pg_drawer (step s ETimer)) = None.
Proof.
  intros Hu Hk s.
  assert (s = MkPage (MkDrawer true (Some u') (Some k') true false (Some (true, blacklisted_text u x))) [] 1) as ->; [|done].
  unfold s, run. cbn -[truthy blacklisted_text]. unfold handleBlacklistConfirm, confirmed_target. cbn -[truthy blacklisted_text].
  rewrite Hu, Hk. reflexivity.
Qed.

Lemma blacklist_reads u k a : json_parse (stringify (blacklist_payload u k a)) = Some (blacklist_payload u k a).
Proof. apply parse_stringify. split; [|done]. apply (bool_decide_unpack _). vm_compute. exact I. Qed.

(** What the extension is asked to sign decodes to the user and the key that were
    clicked and to the account it answered; a name outside Latin-1 cannot be encoded, and nothing is
    signed for it. *)
Theorem signs_what_was_clicked `{FreighterPackage W} api u k admin (w w1 w2 : W) :
  freighter_package = Ok api → isConnected api w = (Ok true, w1) → getAddress api w1 = (Ok admin, w2) → truthy admin = true →
  let payload := stringify (blacklist_payload u k admin) in
  (∃ xdr, btoa payload = Ok xdr ∧ (b64_decode xdr ≫= json_parse) = Some (blacklist_payload u k admin) ∧
     (sign_blacklist u k w).2 = (signTransaction api xdr NETWORK_PASSPHRASE w2).2) ∨
  (btoa payload = Throw invalid_character ∧ sign_blacklist u k w = (Throw invalid_character, w2)).
Proof.
  intros Hp Hc Ha Ht payload. unfold sign_blacklist. rewrite Hp.
  assert (of_res (Ok api) w = (Ok api, w)) as H0 by done.
  rewrite (run_bind_ok _ _ _ _ _ H0), (run_bind_ok _ _ _ _ _ Hc). cbn [negb]. rewrite (run_bind_ok _ _ _ _ _ Ha), Ht. cbn [negb].
  fold payload. destruct (btoa payload) as [xdr|e] eqn:Eb.
  - left. exists xdr. split; [done|]. split; [rewrite (btoa_decode _ _ Eb); apply blacklist_reads|].
    assert (of_res (Ok xdr) w2 = (Ok xdr, w2)) as H1 by done. rewrite (run_bind_ok _ _ _ _ _ H1), run_bind.
    destruct (signTransaction api xdr NETWORK_PASSPHRASE w2) as [[r|e] w3]; [|done].
    destruct (sg_error r); [done|]. by destruct (sg_signedTxXdr r).
  - right. assert (e = invalid_character) as -> by (unfold btoa in Eb; by destruct (forallb _ _); simplify_eq). done.
Qed.

(** *** The table *)

(** Rows whose date reads as a time of the years 0 to 9999. *)
Definition dated `{HostDates} (c : RegistryClaim) : Prop := ∃ t, date_ms (rc_registered_at c) = Fin t 0 ∧ iso_range t.

Lemma claim_cmp_consistent `{CollatorLaws, HostDates} k : consistent dated (claim_cmp k).
Proof.
  assert (D : ∀ a b t u, date_ms (rc_registered_at a) = Fin t 0 → date_ms (rc_registered_at b) = Fin u 0 → iso_range t → iso_range u →
    answer_sign (num_sub (date_ms (rc_registered_at a)) (date_ms (rc_registered_at b))) = (t ?= u)%Z).
  { intros a b t u -> -> Ht Hu. rewrite num_sub_safe by (unfold iso_range in *; unfold safe_int; lia). unfold answer_sign. cbn.
    rewrite !Z.mul_1_r. destruct (Z.compare_spec t u).
    - subst. rewrite Z.sub_diag. done.
    - rewrite (proj2 (Z.ltb_ge 0 _)), (proj2 (Z.ltb_lt _ 0)) by lia. done.
    - rewrite (proj2 (Z.ltb_lt 0 _)) by lia. done. }
  destruct k.
  - pose proof collator_consistent as [opp tr]. split; cbn; intros; [by apply opp|by eapply tr].
  - split.
    + intros a b (t & Et & Rt) (u & Eu & Ru). cbn. rewrite (D a b t u), (D b a u t) by done. apply Z.compare_antisym.
    + intros a b c (t & Et & Rt) (u & Eu & Ru) (v & Ev & Rv). cbn. rewrite (D a b t u), (D b c u v), (D a c t v) by done.
      intros L1 L2. change (t <= v)%Z. change (t <= u)%Z in L1. change (u <= v)%Z in L2. lia.
Qed.

(** The table holds every registration once, in the chosen order, and rows that the
    column does not tell apart keep theirs; pressing a heading twice flips the order from ascending to
    descending. *)
Theorem usernames_sorted `{CollatorLaws, HostDates} s data : Forall dated data →
  let cmp := directed (so_asc s) (claim_cmp (so_key s)) in
  sorted s (Some data) ≡ₚ data ∧ StronglySorted (λ a b, cmp a b ≠ Gt) (sorted s (Some data)) ∧
  (∀ x, dated x → filter (λ y, cmp x y = Eq) (sorted s (Some data)) = filter (λ y, cmp x y = Eq) data) ∧
  (∀ key, so_asc (toggleSort key (toggleSort key s)) = if decide (so_key s = key) then so_asc s else false).
Proof.
  intros Hd cmp. assert (C : consistent dated cmp) by apply directed_consistent, claim_cmp_consistent.
  split; [apply sort_by_perm|]. split; [by apply (sort_by_sorted dated)|]. split; [intros x Hx; by apply (sort_by_stable dated)|].
  intros key. unfold toggleSort. destruct (decide (so_key s = key)) as [E|E].
  - rewrite (bool_decide_eq_true_2 _ E). cbn. rewrite (bool_decide_eq_true_2 _ E). cbn. apply negb_involutive.
  - rewrite (bool_decide_eq_false_2 _ E). cbn. by rewrite bool_decide_eq_true_2.
Qed.
End Usernames.

(** ** Identity links *)

Module Identity.
Record search := Search { se_input : str; se_committed : str }.

Definition initial_search : search := Search [] [].
Definition type_search (text : str) (s : search) : search := Search text (se_committed s).
Definition handleSearch (s : search) : search := Search (se_input s) (trim (se_input s)).
Definition clearSearch (s : search) : search := Search [] [].

(** [{ query: committedQuery || undefined, limit: 50 }] *)
Definition links_query (s : search) : IdentityQuery :=
  MkIdentityQuery (if truthy (se_committed s) then Some (se_committed s) else None) (Some (num_of_Z 50)) None.

Section Poll.
Context `{DashEnv, Browser, Multipart, Host W}.
Definition poll_links (s : search) : M (api_state * W) json := identityLinks (Some (links_query s)).
End Poll.

(** The line under the rows, for [total] as the server sent it. *)
Definition shown_line (n : nat) (total : option num) (s : search) : str :=
  js "Showing " ++ num_to_str (num_of_nat n)
  ++ match total with
     | Some t => if num_ltb (num_of_nat n) t then js " of " ++ num_to_str t else []
     | None => []
     end ++ js " identity link" ++ (if (n =? 1)%nat then [] else js "s")
  ++ (if truthy (se_committed s) then js " matching " ++ [34%N] ++ se_committed s ++ [34%N] else []).

Definition empty_line (s : search) : str :=
  if truthy (se_committed s) then js "No identity links match " ++ [34%N] ++ se_committed s ++ [34%N]
  else js "No identity links found " ++ [8212%N] ++ js " ensure the backend admin API is connected".
End Identity.

(** ** The freeze control *)

Module PauseControl.
Record control := Control { ct_open : bool; ct_ack : bool; ct_typed : str; ct_submitting : bool }.

Definition closed : control := Control false false [] false.

Definition requiredPhrase (paused : bool) : str := if paused then js "RESUME" else js "FREEZE".

Definition isDoubleVerified `{UnicodeCase} (paused : bool) (s : control) : bool :=
  ct_ack s && str_eqb (to_upper (trim (ct_typed s))) (requiredPhrase paused).

(** [isSuperAdmin] and [disabled] as the parent gives them. *)
Definition handleOpenDrawer (isSuperAdmin disabled : bool) (s : control) : control :=
  if negb isSuperAdmin || disabled then s else Control true false [] (ct_submitting s).

Definition handleCloseDrawer (s : control) : control := Control false false [] (ct_submitting s).
Definition set_ack (b : bool) (s : control) : control := Control (ct_open s) b (ct_typed s) (ct_submitting s).
Definition set_typed (t : str) (s : control) : control := Control (ct_open s) (ct_ack s) t (ct_submitting s).
Definition set_submitting (b : bool) (s : control) : control := Control (ct_open s) (ct_ack s) (ct_typed s) b.

(** The control in its parent: whether the vault is paused, the calls of [onTogglePause] made, each
    with the phrase that was typed, and how many of them are still awaited. *)
Record page := MkPage { pc_control : control; pc_paused : bool; pc_calls : list (str * bool); pc_awaited : nat }.

Definition opened (paused : bool) : page := MkPage closed paused [] 0.
Definition set_control (c : control) (s : page) : page := MkPage c (pc_paused s) (pc_calls s) (pc_awaited s).

Section Control.
Context `{UnicodeCase}.

(** [handleExecute] until it awaits the parent, and once the parent's promise settled: only a
    fulfilled one closes the drawer. *)
Definition handleExecute (s : page) : page :=
  let c := pc_control s in
  if negb (isDoubleVerified (pc_paused s) c) || ct_submitting c then s
  else MkPage (set_submitting true c) (pc_paused s) (pc_calls s ++ [(ct_typed c, negb (pc_paused s))]) (S (pc_awaited s)).

Definition execute_settled (fulfilled : bool) (s : page) : page :=
  match pc_awaited s with
  | O => s
  | S n => MkPage (set_submitting false (if fulfilled then handleCloseDrawer (pc_control s) else pc_control s)) (pc_paused s) (pc_calls s) n
  end.

Inductive event :=
  | EPaused (b : bool) | EOpen (isSuperAdmin disabled : bool) | EClose | EEscape
  | EAck (b : bool) | EType (t : str) | EExecute | ESettled (fulfilled : bool).

Definition step (s : page) (e : event) : page :=
  let c := pc_control s in
  match e with
  | EPaused b => MkPage c b (pc_calls s) (pc_awaited s)
  | EOpen a d => set_control (handleOpenDrawer a d c) s
  | EClose | EEscape => if ct_open c then set_control (handleCloseDrawer c) s else s
  | EAck b => if ct_open c then set_control (set_ack b c) s else s
  | EType t => if ct_open c then set_control (set_typed t c) s else s
  | EExecute => if ct_open c then handleExecute s else s
  | ESettled f => execute_settled f s
  end.

Definition run (paused : bool) (es : list event) : page := foldl step (opened paused) es.

(** *** Properties *)

(** The event [e], in the state [s], leaves an open drawer open with what was entered in it. *)
Definition stays (s : page) (e : event) : bool :=
  match e with
  | EOpen a d => negb a || d
  | EClose | EEscape => false
  | ESettled fulfilled => negb fulfilled || (pc_awaited s =? 0)%nat
  | _ => true
  end.

(** Every one of [es] is such an event, taken one after the other from [s]. *)
Fixpoint all_stay (s : page) (es : list event) : bool :=
  match es with [] => true | e :: es' => stays s e && all_stay (step s e) es' end.

(** The box and the text as the events [es] leave them, from blank ones. *)
Definition acknowledged (es : list event) : bool := foldl (λ b e, match e with EAck v => v | _ => b end) false es.
Definition phrase (es : list event) : str := foldl (λ t e, match e with EType v => v | _ => t end) [] es.

(** In the events [es], a superadmin opened the drawer after [before], and it was not left in [after]. *)
Definition open_since (paused : bool) (es before after : list event) : Prop :=
  es = before ++ EOpen true false :: after ∧ all_stay (run paused (before ++ [EOpen true false])) after = true.

(** Since the drawer was opened and not left, the box was ticked and the phrase that the vault now asks for was typed, as [t]. *)
Definition verified (paused : bool) (es : list event) (t : str) : Prop := ∃ before after, open_since paused es before after ∧
  acknowledged after = true ∧ phrase after = t ∧ to_upper (trim t) = requiredPhrase (pc_paused (run paused es)).

(** A press of the last button after [es] calls the parent. *)
Definition calls (paused : bool) (es : list event) (t : str) : Prop :=
  pc_calls (run paused (es ++ [EExecute])) = pc_calls (run paused es) ++ [(t, negb (pc_paused (run paused es)))].

Record control_ok (s : page) : Prop := {
  co_closed : ct_open (pc_control s) = false → ct_ack (pc_control s) = false ∧ ct_typed (pc_control s) = [];
  co_awaited : pc_awaited s = if ct_submitting (pc_control s) then 1 else 0;
}.

Lemma history_snoc paused es e : run paused (es ++ [e]) = step (run paused es) e.
Proof. unfold run. by rewrite foldl_app. Qed.

Lemma step_control_ok s e : control_ok s → control_ok (step s e).
Proof.
  intros I. pose proof I as [C W]. destruct e; cbn [step].
  - by split.
  - unfold handleOpenDrawer. destruct isSuperAdmin, disabled; by split.
  - destruct (ct_open (pc_control s)); [by split|done].
  - destruct (ct_open (pc_control s)); [by split|done].
  - destruct (ct_open (pc_control s)) eqn:Eo; [|done]. split; cbn; [by rewrite Eo|done].
  - destruct (ct_open (pc_control s)) eqn:Eo; [|done]. split; cbn; [by rewrite Eo|done].
  - destruct (ct_open (pc_control s)) eqn:Eo; [|done]. unfold handleExecute. destruct (isDoubleVerified _ _); [|done].
    destruct (ct_submitting (pc_control s)) eqn:Es; [done|]. split; cbn; [by rewrite Eo|by rewrite W].
  - unfold execute_settled. rewrite W. destruct (ct_submitting (pc_control s)) eqn:Es; [|done]. destruct fulfilled; by split.
Qed.

Lemma run_control_ok paused es : control_ok (run paused es).
Proof. induction es as [|e es IH] using rev_ind; [by split|]. rewrite history_snoc. by apply step_control_ok. Qed.

(** What an open drawer holds was entered since it was opened. *)
Lemma stays_step s e : control_ok s → ct_open (pc_control s) = true → stays s e = true →
  ct_open (pc_control (step s e)) = true ∧
  ct_ack (pc_control (step s e)) = match e with EAck v => v | _ => ct_ack (pc_control s) end ∧
  ct_typed (pc_control (step s e)) = match e with EType v => v | _ => ct_typed (pc_control s) end.
Proof.
  intros [_ W] O St. destruct e; cbn [step stays] in *; rewrite ?O; try done.
  - unfold handleOpenDrawer. by rewrite St.
  - unfold handleExecute. by destruct (_ || _).
  - unfold execute_settled. rewrite W in *. destruct (ct_submitting _); [|done]. by destruct fulfilled.
Qed.

Lemma leaves_step s e : stays s e = false → ct_open (pc_control (step s e)) = true → e = EOpen true false.
Proof.
  intros St. destruct e; cbn [step stays] in *; try done.
  - by destruct isSuperAdmin, disabled.
  - by destruct (ct_open (pc_control s)) eqn:O; [|rewrite O].
  - by destruct (ct_open (pc_control s)) eqn:O; [|rewrite O].
  - apply orb_false_iff in St as [St1 St2]. unfold execute_settled. destruct fulfilled; [|done]. by destruct (pc_awaited s).
Qed.

Lemma opens_step s e : stays s e = true → ct_open (pc_control s) = false → ct_open (pc_control (step s e)) = false.
Proof.
  intros St O. destruct e; cbn [step stays] in *; rewrite ?O; try done.
  - unfold handleOpenDrawer. by rewrite St.
  - unfold execute_settled. destruct (pc_awaited s); [done|]. by destruct fulfilled.
Qed.

Lemma all_stay_app s es1 es2 : all_stay s (es1 ++ es2) = all_stay s es1 && all_stay (foldl step s es1) es2.
Proof. revert s. induction es1 as [|e es1 IH]; intros s; cbn; [done|]. by rewrite IH, andb_assoc. Qed.

Lemma run_split paused before after : run paused (before ++ EOpen true false :: after) =
  foldl step (run paused (before ++ [EOpen true false])) after.
Proof. unfold run. by rewrite (cons_middle _ before), app_assoc, foldl_app. Qed.

Lemma open_holds paused es before after : open_since paused es before after →
  ct_open (pc_control (run paused es)) = true ∧ ct_ack (pc_control (run paused es)) = acknowledged after ∧
  ct_typed (pc_control (run paused es)) = phrase after.
Proof.
  intros [-> St]. revert St. induction after as [|e after IH] using rev_ind; [by rewrite history_snoc|].
  rewrite all_stay_app. intros [St1 St2]%andb_true_iff. destruct (IH St1) as (O & A & T).
  rewrite app_comm_cons, app_assoc, history_snoc. cbn in St2. rewrite andb_true_r, <-run_split in St2.
  destruct (stays_step _ e (run_control_ok _ _) O St2) as (O' & A' & T'). split; [done|].
  unfold acknowledged, phrase in *. rewrite !foldl_app. cbn [foldl]. rewrite A', T', <-A, <-T. done.
Qed.

Lemma open_found paused es : ct_open (pc_control (run paused es)) = true → ∃ before after, open_since paused es before after.
Proof.
  induction es as [|e es IH] using rev_ind; [done|]. rewrite history_snoc. intros O.
  destruct (stays (run paused es) e) eqn:St.
  - destruct (ct_open (pc_control (run paused es))) eqn:O'; [|by rewrite (opens_step _ _ St O') in O].
    destruct (IH eq_refl) as (before & after & -> & A). exists before, (after ++ [e]).
    split; [by rewrite <-app_assoc|]. rewrite all_stay_app, A, <-run_split. cbn. by rewrite St.
  - apply leaves_step in O as ->; [|done]. by exists es, [].
Qed.

Lemma execute_calls paused es t : calls paused es t ↔ pc_awaited (run paused es) = 0 ∧ verified paused es t.
Proof.
  unfold calls. rewrite history_snoc. pose proof (run_control_ok paused es) as [C W]. set (s := run paused es) in *. cbn [step].
  assert (N : ∀ l (c : str * bool), l ≠ l ++ [c]) by (intros l c E%(f_equal length); rewrite length_app in E; cbn in E; lia).
  split.
  - intros Ec. destruct (ct_open (pc_control s)) eqn:O; [|by apply N in Ec]. unfold handleExecute in Ec.
    destruct (isDoubleVerified _ _) eqn:V; [|by apply N in Ec]. destruct (ct_submitting _) eqn:Es; [by apply N in Ec|].
    cbn [negb orb pc_calls] in Ec. apply app_inv_head in Ec. injection Ec as <-. split; [by rewrite W|].
    destruct (open_found paused es O) as (before & after & Sp). destruct (open_holds _ _ _ _ Sp) as (_ & A & T).
    apply andb_true_iff in V as [Va Vt]. apply str_eqb_true in Vt. exists before, after. fold s in A, T. by rewrite <-A, <-T.
  - intros (Z0 & before & after & Sp & A & T & P). destruct (open_holds paused es before after Sp) as (O & A' & T').
    fold s in O, A', T', P. rewrite O. unfold handleExecute, isDoubleVerified. rewrite A', A, T', T, P, str_eqb_refl.
    rewrite W in Z0. destruct (ct_submitting _); [done|]. done.
Qed.

Lemma calls_awaited paused es t : calls paused es t → 0 < pc_awaited (run paused (es ++ [EExecute])).
Proof.
  unfold calls. rewrite history_snoc. cbn [step]. intros E%(f_equal length). revert E. rewrite length_app. cbn [length].
  destruct (ct_open _); [|lia]. unfold handleExecute. destruct (_ || _); [lia|]. cbn. lia.
Qed.

(** Only an answer ends the waiting. *)
Lemma awaited_kept s es : (∀ b, ESettled b ∉ es) → pc_awaited s ≤ pc_awaited (foldl step s es).
Proof.
  revert s. induction es as [|e es IH]; intros s N; [done|]. cbn [foldl]. etrans; [|apply IH; intros b Hb; by eapply N, list_elem_of_further].
  destruct e; cbn [step]; try (destruct (ct_open _)); cbn; try lia.
  - unfold handleExecute. destruct (_ || _); cbn; lia.
  - exfalso. eapply N, list_elem_of_here.
Qed.

Lemma first_answer es : (∀ b, ESettled b ∉ es) ∨ ∃ m1 b m2, es = m1 ++ ESettled b :: m2 ∧ ∀ c, ESettled c ∉ m1.
Proof.
  induction es as [|e es IH]; [left; by intros b ?%elem_of_nil|].
  assert (D : (∃ c, e = ESettled c) ∨ ∀ c, ESettled c ≠ e) by (destruct e; eauto; by right).
  destruct D as [[c ->]|N]; [right; exists [], c, es; split; [done|by intros c' ?%elem_of_nil]|].
  destruct IH as [F|(m1 & b & m2 & -> & Hm)]; [left|right; exists (e :: m1), b, m2; split; [done|]];
    intros c [Hc|Hc]%elem_of_cons; first [by eapply N|by eapply F|by eapply Hm].
Qed.

(** C40: Were the control on a page: the parent is called by nothing but the last button, and
    exactly when no call is awaited and, since a superadmin opened the drawer and without leaving it, the box was
    ticked and the phrase of that very change typed. A verification is good for one change: between
    two calls the answer to the first arrives, and unless it failed, the drawer is opened, the box
    ticked and the phrase typed again after it. A closed drawer keeps neither. *)
Theorem toggles_double_verified paused es :
  (∀ e, e ≠ EExecute → pc_calls (run paused (es ++ [e])) = pc_calls (run paused es)) ∧
  (∀ t, calls paused es t ↔ pc_awaited (run paused es) = 0 ∧ verified paused es t) ∧
  (pc_calls (run paused (es ++ [EExecute])) = pc_calls (run paused es) ∨ ∃ t, calls paused es t) ∧
  (∀ t mid t', calls paused es t → calls paused (es ++ EExecute :: mid) t' → ∃ m1 fulfilled m2,
     mid = m1 ++ ESettled fulfilled :: m2 ∧ (∀ b, ESettled b ∉ m1) ∧
     (fulfilled = true → ∃ before after, m2 = before ++ EOpen true false :: after ∧ acknowledged after = true ∧ phrase after = t')) ∧
  (ct_open (pc_control (run paused es)) = false →
     ct_ack (pc_control (run paused es)) = false ∧ ct_typed (pc_control (run paused es)) = []).
Proof.
  split_and!.
  - intros e Ne. rewrite history_snoc. destruct e; cbn [step]; try (by destruct (ct_open _)); [done..|].
    unfold execute_settled. by destruct (pc_awaited _).
  - apply execute_calls.
  - unfold calls. rewrite history_snoc. cbn [step]. destruct (ct_open _); [|by left]. unfold handleExecute.
    destruct (_ || _); [by left|]. right. by eexists.
  - intros t mid t' C1 C2. apply calls_awaited in C1. apply execute_calls in C2 as [W (before & after & [E St] & A & T & _)].
    set (s := run paused (es ++ [EExecute])) in *.
    assert (R : ∀ m, run paused (es ++ EExecute :: m) = foldl step s m) by (intros m; unfold s, run; by rewrite (cons_middle _ es), app_assoc, foldl_app).
    destruct (first_answer mid) as [Hs|(m1 & b & m2 & -> & Hm)]; [rewrite R in W; pose proof (awaited_kept s mid Hs); lia|].
    exists m1, b, m2. split_and!; [done|done|]. intros ->.
    pose proof (awaited_kept s m1 Hm) as W1. rewrite app_comm_cons, app_assoc in E. apply app_eq_inv in E as [(k & E1 & E2)|(k & E1 & E2)].
    + destruct k as [|o k]; [by inversion E2|]. injection E2 as <- E2. exfalso. revert St. rewrite E2, all_stay_app. cbn [all_stay stays].
      rewrite <-run_split, <-E1, R. destruct (pc_awaited (foldl step s m1)); [lia|]. by rewrite andb_false_r.
    + destruct k as [|x k]; [by inversion E2|]. injection E2 as _ E2. by exists k, after.
  - apply run_control_ok.
Qed.
End Control.
End PauseControl.

(** ** Concrete runs *)

Module Runs.
#[local] Instance env : DashEnv :=
  {| NEXT_PUBLIC_API_URL := None; NEXT_PUBLIC_SERVER_URL := None; NEXT_PUBLIC_SDP_URL := None; NEXT_PUBLIC_SDP_ADMIN_TOKEN := None |}.
#[local] Instance on : Browser := true.
#[local] Instance no_forms : Multipart := λ _, [].
#[local] Existing Instance ascii_case.
#[local] Existing Instance unit_collation.
#[local] Existing Instance unit_order_laws.
#[local] Existing Instance iso_only.

Definition idle : api_state := ApiState None.
Definition server : scripted :=
  world [] [reply 200 (stringify (JObj [(js "fee_coefficient", JNum (Fin 50 0)); (js "tx_hash", JStr (js "ab12"))]))].
Definition fifty : Fee.fee_form := Fee.FeeForm (js "50") Fee.Idle.

Example percent_demo : Fee.percentDisplay fifty = Some (js "0.50%").
Proof. vm_compute. reflexivity. Qed.

Lemma fee_submit_settles_witness : ∃ s' aw', Fee.handleSubmit (fifty, (idle, server)) = (Ok tt, (s', aw')) ∧
  Fee.ff_status s' ≠ Fee.Submitting.
Proof.
  destruct (Fee.fee_submit_settles fifty idle server) as (s' & aw' & E & N & _); [discriminate|].
  exists s', aw'. split; [exact E|exact N].
Defined.

Example fee_sent : (Fee.ff_status (Fee.handleSubmit (fifty, (idle, server))).2.1, rq_body ∘ fst <$> head (net_trace (Fee.handleSubmit (fifty, (idle, server))).2.2.2))
  = (Fee.Success (Some (JNum (Fin 50 0))) (Some (JStr (js "ab12"))), Some (Some (stringify (JObj [(js "fee_coefficient", JNum (Fin 50 0))])))).
Proof. vm_compute. reflexivity. Qed.

Lemma drawer_of_next_user_witness :
  Usernames.dw_msg (Usernames.pg_drawer (Usernames.run [Usernames.EClick (js "ann") (js "GA"); Usernames.EFirst; Usernames.EFinal; Usernames.EClose;
    Usernames.EClick (js "bob") (js "GB"); Usernames.EFirst; Usernames.ESigned 0 (Ok (js "AAAA"))]))
  = Some (true, Usernames.blacklisted_text (js "ann") (js "AAAA")).
Proof.
  destruct (Usernames.drawer_of_next_user (js "ann") (js "GA") (js "bob") (js "GB") (js "AAAA")) as (_ & _ & _ & M & _); [reflexivity..|exact M].
Defined.

Definition signer : Usernames.Freighter scripted :=
  Usernames.MkFreighter (mret true) (mret (js "GADMIN")) (λ xdr _, mret (Usernames.MkSigned None (Some (js "signed:" ++ xdr)))).
#[local] Instance package : Usernames.FreighterPackage scripted := Ok signer.

Lemma signs_what_was_clicked_witness :
  (∃ xdr, btoa (stringify (Usernames.blacklist_payload (js "ann") (js "GA") (js "GADMIN"))) = Ok xdr ∧
     (b64_decode xdr ≫= json_parse) = Some (Usernames.blacklist_payload (js "ann") (js "GA") (js "GADMIN")) ∧
     (Usernames.sign_blacklist (js "ann") (js "GA") server).2 = (Usernames.signTransaction signer xdr Usernames.NETWORK_PASSPHRASE server).2) ∨
  (btoa (stringify (Usernames.blacklist_payload (js "ann") (js "GA") (js "GADMIN"))) = Throw invalid_character ∧
     Usernames.sign_blacklist (js "ann") (js "GA") server = (Throw invalid_character, server)).
Proof. apply (Usernames.signs_what_was_clicked signer (js "ann") (js "GA") (js "GADMIN") server server server); reflexivity. Defined.

Definition claims : list Usernames.RegistryClaim := [
  Usernames.MkClaim (js "bob") (js "GB") (js "2026-01-02T00:00:00.000Z") None;
  Usernames.MkClaim (js "ann") (js "GA") (js "2026-03-01T00:00:00.000Z") None ].

Lemma usernames_sorted_witness : Usernames.sorted Usernames.initial_sort (Some claims) ≡ₚ claims ∧
  head (Usernames.rc_username <$> Usernames.sorted Usernames.initial_sort (Some claims)) = Some (js "ann").
Proof.
  destruct (Usernames.usernames_sorted Usernames.initial_sort claims) as (P & _).
  { constructor; [|constructor; [|constructor]]; (eexists; split; [vm_compute; reflexivity|split; vm_compute; congruence]). }
  split; [exact P|vm_compute; reflexivity].
Defined.

Example frozen_once : PauseControl.pc_calls (PauseControl.run false
  [PauseControl.EOpen true false; PauseControl.EAck true; PauseControl.EType (js " freeze "); PauseControl.EExecute; PauseControl.EExecute])
  = [(js " freeze ", true)].
Proof. vm_compute. reflexivity. Qed.

(** After a call that failed the button may be pressed again; after one that went through the drawer is closed. *)
Example frozen_again :
  let ask := [PauseControl.EOpen true false; PauseControl.EAck true; PauseControl.EType (js "FREEZE"); PauseControl.EExecute] in
  length (PauseControl.pc_calls (PauseControl.run false (ask ++ [PauseControl.ESettled false; PauseControl.EExecute]))) = 2 ∧
  length (PauseControl.pc_calls (PauseControl.run false (ask ++ [PauseControl.ESettled true; PauseControl.EExecute]))) = 1.
Proof. vm_compute. by split. Qed.
End Runs.
