(* ===== verification/PaymentDetails.v ===== *)
(** * The payment dialog of the dashboard

    Model of [dashboard/components/PaymentDetailDialog.tsx]: bytes and contract values as text
    (module Display), the conversion of decoded XDR to plain JSON and its printing (Xdr), the choice
    of the decoder and the transaction summary (Decoding), and the dialog with its loading and its
    error handling (Dialog). The classes of the Stellar SDK are parameters: an XDR object is seen
    through the properties and methods that the code reads. *)

From S2P Require Import Prelude JsString JsNumber Json Effects Decode Scripts Hashing.

(** ** Bytes and contract values *)

Module Display.
(** [TextDecoder] drops a leading byte order mark. *)
Definition without_bom (bytes : list N) : list N :=
  match bytes with 239%N :: 187%N :: 191%N :: rest => rest | _ => bytes end.

(** One unit of [/^[\x20-\x7E\n\r\t]+$/]. *)
Definition printable (c : N) : bool := ((32 <=? c) && (c <=? 126))%N || existsb (N.eqb c) [10; 13; 9]%N.

Definition ellipsis : str := [8230%N].

(** Text with units above 127 fails the pattern, so that only ASCII bytes pass whatever the decoder
    makes of the others. *)
Definition bufferToDisplay (buf : list N) : str :=
  match buf with
  | [] => []
  | _ =>
      let text := without_bom buf in
      if truthy text && forallb printable text then text
      else
        let hex := bytes_hex buf in
        if (length hex <=? 64)%nat then js "0x" ++ hex
        else js "0x" ++ take 32 hex ++ ellipsis ++ drop (length hex - 16) hex
               ++ js " (" ++ Z_to_str (Z.of_nat (length buf)) ++ js " bytes)"
  end.

(** A contract value, by its arm; addresses carry what StrKey makes of them. *)
Inductive ScVal :=
  | ScBool (b : bool) | ScVoid | ScError (code : str) (msg : option str)
  | ScU32 (n : Z) | ScI32 (n : Z) | ScU64 (n : Z) | ScI64 (n : Z) | ScTimepoint (n : Z) | ScDuration (n : Z)
  | ScU128 (hi lo : Z) | ScI128 (hi lo : Z) | ScU256 | ScI256
  | ScBytes (b : list N) | ScString (s : str) | ScSymbol (s : str)
  | ScVec (items : option nat) | ScMap (entries : option nat)
  | ScAccount (key : res str) | ScContract (key : res str)
  | ScLedgerKeyContractInstance | ScLedgerKeyNonce | ScContractInstance | ScOther.

(** The arm accessors of the SDK's class: [None] when the value has no such method, otherwise what
    calling it gives (high and low part, or an error). *)
Class ArmAccess := arm_call : str → ScVal → option (res (Z * Z)).

Definition type_error : js_error := new_error (js "TypeError").

(** [val.u128 ? val.u128() : val.i128 ? val.i128() : val.u256 ? val.u256() : val.i256()] *)
Definition wide_parts `{ArmAccess} (v : ScVal) : res (Z * Z) :=
  match arm_call (js "u128") v with
  | Some r => r
  | None =>
      match arm_call (js "i128") v with
      | Some r => r
      | None =>
          match arm_call (js "u256") v with
          | Some r => r
          | None => default (Throw type_error) (arm_call (js "i256") v)
          end
      end
  end.

(** [String((hi << 64n) | lo)] *)
Definition wide_text (parts : Z * Z) : str := Z_to_str (Z.lor (Z.shiftl parts.1 64) parts.2).

Definition ok_text (r : res str) : option str := match r with Ok s => Some s | Throw _ => None end.

Definition scValToHuman `{ArmAccess} (v : ScVal) : option str :=
  match v with
  | ScBool b => Some (if b then js "true" else js "false")
  | ScVoid => Some (js "void")
  | ScError code msg => Some (js "error(" ++ code ++ js ": " ++ default [] msg ++ js ")")
  | ScU32 n | ScI32 n | ScU64 n | ScI64 n => Some (Z_to_str n)
  | ScTimepoint n => Some (js "timepoint(" ++ Z_to_str n ++ js ")")
  | ScDuration n => Some (js "duration(" ++ Z_to_str n ++ js ")")
  | ScU128 _ _ | ScI128 _ _ | ScU256 | ScI256 =>
      match wide_parts v with Ok parts => Some (wide_text parts) | Throw _ => None end
  | ScBytes b => Some (bufferToDisplay b)
  | ScString s => Some s
  | ScSymbol s => Some (js "Symbol(" ++ s ++ js ")")
  | ScVec items => Some (js "vec(" ++ Z_to_str (Z.of_nat (default 0 items)) ++ js " items)")
  | ScMap entries => Some (js "map(" ++ Z_to_str (Z.of_nat (default 0 entries)) ++ js " entries)")
  | ScAccount key | ScContract key => ok_text key
  | ScLedgerKeyContractInstance => Some (js "LedgerKeyContractInstance")
  | ScLedgerKeyNonce => Some (js "LedgerKeyNonce")
  | ScContractInstance => Some (js "ContractInstance")
  | ScOther => None
  end.

(** *** Properties *)

(** The SDK's class has every accessor on every value: the one of the held arm answers its parts, the
    others throw. *)
Class SdkArms `{ArmAccess} := {
  u128_call : ∀ hi lo, arm_call (js "u128") (ScU128 hi lo) = Some (Ok (hi, lo));
  u128_missed : ∀ v, (∃ hi lo, v = ScI128 hi lo) ∨ v = ScU256 ∨ v = ScI256 → ∃ e, arm_call (js "u128") v = Some (Throw e);
}.

Lemma wide_text_value hi lo : (0 ≤ lo < 2 ^ 64)%Z → wide_text (hi, lo) = Z_to_str (hi * 2 ^ 64 + lo).
Proof.
  intros Hlo. unfold wide_text. cbn [fst snd]. f_equal. rewrite Z.shiftl_mul_pow2 by lia.
  assert (L : Z.land (hi * 2 ^ 64) lo = 0%Z).
  { apply Z.bits_inj'. intros n Hn. rewrite Z.land_spec, Z.bits_0. destruct (Z.lt_ge_cases n 64).
    - by rewrite Z.mul_pow2_bits_low.
    - destruct (Z.eq_dec lo 0) as [->|Hz]; [by rewrite Z.bits_0, andb_false_r|].
      rewrite (Z.bits_above_log2 lo), andb_false_r; [done|lia|]. apply Z.log2_lt_pow2; [lia|].
      apply Z.lt_le_trans with (2 ^ 64)%Z; [lia|]. apply Z.pow_le_mono_r; lia. }
  rewrite <-Z.lxor_lor by done. symmetry. by apply Z.add_nocarry_lxor.
Qed.

(** an unsigned 128-bit value is shown exactly, for every pair of 64-bit parts; but
    signed 128-bit values (the token amounts of Soroban) and 256-bit values are never shown: the
    first accessor exists on every value and throws on theirs. *)
Theorem wide_integers `{SdkArms} :
  (∀ hi lo, (0 ≤ lo < 2 ^ 64)%Z → scValToHuman (ScU128 hi lo) = Some (Z_to_str (hi * 2 ^ 64 + lo))) ∧
  (∀ hi lo, scValToHuman (ScI128 hi lo) = None) ∧ scValToHuman ScU256 = None ∧ scValToHuman ScI256 = None.
Proof.
  assert (K : ∀ v, (∃ hi lo, v = ScI128 hi lo) ∨ v = ScU256 ∨ v = ScI256 → ∃ e, wide_parts v = Throw e).
  { intros v Hv. destruct (u128_missed v Hv) as (e & E). exists e. unfold wide_parts. by rewrite E. }
  split; [|split; [|split]].
  - intros hi lo Hlo. cbn [scValToHuman]. unfold wide_parts. rewrite u128_call. f_equal. by apply wide_text_value.
  - intros hi lo. cbn [scValToHuman]. destruct (K (ScI128 hi lo)) as (e & ->); [|done]. left. by exists hi, lo.
  - cbn [scValToHuman]. destruct (K ScU256) as (e & ->); [|done]. auto.
  - cbn [scValToHuman]. destruct (K ScI256) as (e & ->); [|done]. auto.
Qed.

Lemma take_bytes_hex n bytes : take (2 * n) (bytes_hex bytes) = bytes_hex (take n bytes).
Proof.
  revert n. induction bytes as [|b bytes IH]; intros [|n]; try done.
  replace (2 * S n) with (S (S (2 * n))) by lia. unfold bytes_hex in *. cbn [fmap list_fmap concat byte_hex app take].
  by rewrite IH.
Qed.

Lemma drop_bytes_hex n bytes : drop (2 * n) (bytes_hex bytes) = bytes_hex (drop n bytes).
Proof.
  revert n. induction bytes as [|b bytes IH]; intros [|n]; try done.
  replace (2 * S n) with (S (S (2 * n))) by lia. unfold bytes_hex in *. cbn [fmap list_fmap concat byte_hex app drop].
  by rewrite IH.
Qed.

Lemma length_bytes_hex bytes : length (bytes_hex bytes) = 2 * length bytes.
Proof. induction bytes as [|b bytes IH]; [done|]. unfold bytes_hex in *. cbn. lia. Qed.

(** bytes are shown as the ASCII text they are, or else completely in hexadecimal up
    to 32 bytes; of more bytes the first 16 and the last 8 are shown, with their number. *)
Theorem bytes_displayed buf : buf ≠ [] →
  let text := without_bom buf in
  if truthy text && forallb printable text then bufferToDisplay buf = text
  else if (length buf <=? 32)%nat then bufferToDisplay buf = js "0x" ++ bytes_hex buf
  else bufferToDisplay buf = js "0x" ++ bytes_hex (take 16 buf) ++ ellipsis ++ bytes_hex (drop (length buf - 8) buf)
         ++ js " (" ++ Z_to_str (Z.of_nat (length buf)) ++ js " bytes)".
Proof.
  intros Hne. destruct buf as [|b buf]; [done|]. cbv zeta. unfold bufferToDisplay. cbv zeta.
  destruct (truthy _ && forallb _ _); [done|]. rewrite length_bytes_hex.
  destruct (Nat.leb_spec (length (b :: buf)) 32) as [L|L].
  - by rewrite (proj2 (Nat.leb_le _ _)) by lia.
  - rewrite (proj2 (Nat.leb_gt _ _)) by lia.
    replace (2 * length (b :: buf) - 16) with (2 * (length (b :: buf) - 8)) by lia.
    by rewrite drop_bytes_hex, (take_bytes_hex 16).
Qed.
End Display.

(** ** XDR as JSON *)

Module Xdr.
Import Display.

(** What [xdrToJson] reads of a discriminated union: [switch()] (its name, or the value itself), [arm()]
    and [armType()] ([Some None]: truthy, but no text). *)
Record union_view (V : Type) := MkUnion {
  un_switch : res (str + V); un_arm : res (option V); un_armType : res (option (option str)) }.
Arguments MkUnion {V} un_switch un_arm un_armType.
Arguments un_switch {V} u.
Arguments un_arm {V} u.
Arguments un_armType {V} u.

(** What it reads of an object: the parts of a [Long], the contract value, the name of the
    constructor, the own entries, the union, the keys of [_attributes] or [_fields] with the call of
    the method of that name ([None]: no method), [toXDR("base64")] and [toString()]. *)
Record obj_view (V : Type) := MkObj {
  ob_long : option (Z * Z); ob_scval : option ScVal; ob_ctor : option str; ob_entries : list (str * V);
  ob_union : option (union_view V); ob_attributes : option (list (str * option (res V)));
  ob_toXDR : option (res str); ob_toString : option (res str) }.
Arguments MkObj {V} ob_long ob_scval ob_ctor ob_entries ob_union ob_attributes ob_toXDR ob_toString.
Arguments ob_long {V} o.
Arguments ob_scval {V} o.
Arguments ob_ctor {V} o.
Arguments ob_entries {V} o.
Arguments ob_union {V} o.
Arguments ob_attributes {V} o.
Arguments ob_toXDR {V} o.
Arguments ob_toString {V} o.

(** [VOther]: a function or a symbol, by the text [String] makes of it. *)
Inductive jsval :=
  | VUndefined | VNull | VStr (s : str) | VNum (n : num) | VBool (b : bool) | VBig (z : Z)
  | VBytes (b : list N) | VArr (l : list jsval) | VObj (o : obj_view jsval) | VOther (text : str).

(** The result: JSON with bigints. *)
Inductive out :=
  | ONull | OStr (s : str) | ONum (n : num) | OBool (b : bool) | OBig (z : Z)
  | OArr (l : list out) | OObj (fields : list (str * out)).

(** [result[k] = v] *)
Fixpoint put (k : str) (v : out) (fs : list (str * out)) : list (str * out) :=
  match fs with
  | [] => [(k, v)]
  | (k', v') :: fs' => if str_eqb k k' then (k', v) :: fs' else (k', v') :: put k v fs'
  end.

(** [l.map(f)], where [f] may throw. *)
Fixpoint res_map {A B} (f : A → res B) (l : list A) : res (list B) :=
  match l with
  | [] => Ok []
  | a :: l' =>
      match f a with
      | Throw e => Throw e
      | Ok b => match res_map f l' with Ok bs => Ok (b :: bs) | Throw e => Throw e end
      end
  end.

Definition is_xdr {V} (o : obj_view V) : bool :=
  match ob_ctor o with
  | Some c => starts_with (js "xdr$") c || starts_with (js "Xdr") c || match ob_toXDR o with Some _ => true | None => false end
  | None => false
  end.

(** [ctorName.replace(/^xdr\$/, "")] *)
Definition type_name (ctor : str) : str := if starts_with (js "xdr$") ctor then drop 4 ctor else ctor.

Definition typed_fields {V} (o : obj_view V) : list (str * out) :=
  match ob_ctor o with Some c => if truthy c then [(js "_type", OStr (type_name c))] else [] | None => [] end.

Section Object.
Context (rec : jsval → res out).

Definition plain_json (o : obj_view jsval) : res out :=
  match res_map (λ f, match rec f.2 with Ok v => Ok (f.1, v) | Throw e => Throw e end) (ob_entries o) with
  | Ok fields => Ok (OObj fields)
  | Throw e => Throw e
  end.

(** The [try] block of a union: the fields written, and whether it reached its [return]. *)
Definition union_fields (u : union_view jsval) (result : list (str * out)) : list (str * out) * bool :=
  let switch := match un_switch u with Throw e => Throw e | Ok (inl name) => Ok (OStr name) | Ok (inr v) => rec v end in
  match switch with
  | Throw _ => (result, false)
  | Ok sw =>
      let result := put (js "_switch") sw result in
      match un_arm u with
      | Throw _ => (result, false)
      | Ok arm =>
          match un_armType u with
          | Throw _ => (result, false)
          | Ok armType =>
              match arm, armType with
              | Some VNull, _ | Some VUndefined, _ => (result, true)
              | Some v, Some name =>
                  match rec v with
                  | Ok o => (put (default (js "_value") name) o result, true)
                  | Throw _ => (result, false)
                  end
              | _, _ => (result, true)
              end
          end
      end
  end.

(** The value written for one attribute. *)
Definition attribute_json (call : res jsval) : out :=
  match (match call with Ok v => rec v | Throw e => Throw e end) with
  | Ok o => o
  | Throw e => OStr (js "[decode error: " ++ err_message e ++ js "]")
  end.

Fixpoint attribute_fields (attrs : list (str * option (res jsval))) (result : list (str * out)) : list (str * out) :=
  match attrs with
  | [] => result
  | (key, Some call) :: attrs' => attribute_fields attrs' (put key (attribute_json call) result)
  | (_, None) :: attrs' => attribute_fields attrs' result
  end.

Definition struct_json (o : obj_view jsval) (result : list (str * out)) : out :=
  match ob_attributes o with
  | Some (a :: attrs) => OObj (attribute_fields (a :: attrs) result)
  | _ =>
      match ob_toXDR o with
      | Some (Ok text) => OStr text
      | _ =>
          match ob_toString o with
          | Some (Ok text) => if str_eqb text (js "[object Object]") then OObj result else OStr text
          | _ => OObj result
          end
      end
  end.

(** [BigInt(obj.low) >>> 0n]: the unsigned shift of bigints throws whatever its operands are. *)
Definition long_json (parts : Z * Z) : res out :=
  Throw (new_error (js "BigInts have no unsigned right shift, use >> instead")).

Definition object_json `{ArmAccess} (o : obj_view jsval) : res out :=
  match ob_long o with
  | Some parts => long_json parts
  | None =>
      match ob_scval o ≫= scValToHuman with
      | Some human => Ok (OObj [(js "_type", OStr (js "ScVal")); (js "_value", OStr human)])
      | None =>
          if negb (is_xdr o) then plain_json o
          else
            match ob_union o with
            | None => Ok (struct_json o (typed_fields o))
            | Some u =>
                match union_fields u (typed_fields o) with
                | (fields, true) => Ok (OObj fields)
                | (fields, false) => Ok (struct_json o fields)
                end
            end
      end
  end.
End Object.

Definition maxDepth : nat := 12.

(** [xdrToJson] at a depth that leaves [left] levels; [left] is 13 at depth 0. *)
Fixpoint xdrToJson_at `{ArmAccess} (left : nat) (v : jsval) : res out :=
  match left with
  | O => Ok (OStr (js "[Max depth exceeded]"))
  | S left' =>
      match v with
      | VNull | VUndefined => Ok ONull
      | VStr s => Ok (OStr s) | VNum n => Ok (ONum n) | VBool b => Ok (OBool b) | VBig z => Ok (OBig z)
      | VBytes b => Ok (OStr (bufferToDisplay b))
      | VArr l => match res_map (xdrToJson_at left') l with Ok os => Ok (OArr os) | Throw e => Throw e end
      | VObj o => object_json (xdrToJson_at left') o
      | VOther text => Ok (OStr text)
      end
  end.

Definition xdrToJson `{ArmAccess} (v : jsval) : res out := xdrToJson_at (S maxDepth) v.

(** *** Printing *)

Fixpoint has_bigint (o : out) : bool :=
  match o with
  | OBig _ => true | OArr l => existsb has_bigint l | OObj fs => existsb (λ f, has_bigint f.2) fs | _ => false
  end.

Definition indent (n : nat) : str := replicate n 32%N.

(** [JSON.stringify(o, null, 2)], indented by [n], for a value without bigints. *)
Fixpoint pretty (n : nat) (o : out) : str :=
  match o with
  | ONull | OBig _ => js "null"
  | OStr s => quote s
  | ONum x => if is_finite x then num_to_str x else js "null"
  | OBool b => if b then js "true" else js "false"
  | OArr [] => js "[]"
  | OArr l => js "[" ++ [10%N] ++ join [44; 10]%N (map (λ x, indent (n + 2) ++ pretty (n + 2) x) l) ++ [10%N] ++ indent n ++ js "]"
  | OObj [] => js "{}"
  | OObj fs => js "{" ++ [10%N]
      ++ join [44; 10]%N (map (λ f, indent (n + 2) ++ quote f.1 ++ js ": " ++ pretty (n + 2) f.2) fs) ++ [10%N] ++ indent n ++ js "}"
  end.

Definition jsonString (o : out) : res str :=
  if has_bigint o then Throw (new_error (js "Do not know how to serialize a BigInt")) else Ok (pretty 0 o).

(** The heading of an object in the tree: [_type] counts as a field, but is not listed. *)
Definition node_title (fs : list (str * out)) : str :=
  match find (λ f, str_eqb f.1 (js "_type")) fs with Some (_, OStr t) => if truthy t then t else js "Object" | _ => js "Object" end.
Definition node_count (fs : list (str * out)) : str :=
  Z_to_str (Z.of_nat (length fs)) ++ js " field" ++ (if (length fs =? 1)%nat then [] else js "s").
Definition node_children (fs : list (str * out)) : list (str * out) :=
  List.filter (λ f, negb (str_eqb f.1 (js "_type"))) fs.

(** *** Properties *)

(** At most [n] levels of arrays and objects. *)
Fixpoint shallow (n : nat) (o : out) : Prop :=
  match o with
  | OArr l => match n with O => False | S n' => Forall (shallow n') l end
  | OObj fs => match n with O => False | S n' => Forall (λ f, shallow n' f.2) fs end
  | _ => True
  end.

Lemma shallow_text n s : shallow n (OStr s).
Proof. by destruct n. Qed.

Lemma put_shallow n k v fs : shallow n v → Forall (λ f, shallow n f.2) fs → Forall (λ f, shallow n f.2) (put k v fs).
Proof.
  intros Hv. induction 1 as [|[k' v'] fs Hf Hfs IH]; cbn [put]; [by repeat constructor|].
  destruct (str_eqb k k'); constructor; done.
Qed.

Lemma res_map_forall {A B} (f : A → res B) (P : B → Prop) l bs :
  (∀ a b, f a = Ok b → P b) → res_map f l = Ok bs → Forall P bs.
Proof.
  intros Hf. revert bs. induction l as [|a l IH]; intros bs; cbn [res_map]; [by intros [= <-]|].
  destruct (f a) eqn:Ea; [|done]. destruct (res_map f l) as [bs'|]; [|done]. intros [= <-].
  constructor; [by eapply Hf|by apply IH].
Qed.

Section Depth.
Context `{ArmAccess} (n : nat) (rec : jsval → res out).
Context (Hrec : ∀ v o, rec v = Ok o → shallow n o).

Lemma typed_shallow (o : obj_view jsval) : Forall (λ f, shallow n f.2) (typed_fields o).
Proof. unfold typed_fields. destruct (ob_ctor o) as [c|]; [destruct (truthy c)|]; repeat constructor. apply shallow_text. Qed.

Lemma union_shallow u fs : Forall (λ f, shallow n f.2) fs → Forall (λ f, shallow n f.2) (union_fields rec u fs).1.
Proof.
  intros Hfs. unfold union_fields. cbv zeta.
  assert (Hsw : ∀ sw, (match un_switch u with Throw e => Throw e | Ok (inl name) => Ok (OStr name) | Ok (inr v) => rec v end) = Ok sw →
    shallow n sw).
  { destruct (un_switch u) as [[name|v]|]; [intros sw [= <-]; apply shallow_text|apply Hrec|done]. }
  destruct (match un_switch u with Throw e => Throw e | Ok (inl name) => Ok (OStr name) | Ok (inr v) => rec v end) as [sw|]; [|done].
  pose proof (put_shallow n (js "_switch") sw fs (Hsw sw eq_refl) Hfs) as Hp.
  destruct (un_arm u) as [[v|]|]; [|by destruct (un_armType u)|done].
  destruct (un_armType u) as [[name|]|]; [| by destruct v|done].
  destruct v; try done; (destruct (rec _) eqn:Er; [apply put_shallow; [by eapply Hrec|done]|done]).
Qed.

Lemma attributes_shallow attrs fs : Forall (λ f, shallow n f.2) fs → Forall (λ f, shallow n f.2) (attribute_fields rec attrs fs).
Proof.
  revert fs. induction attrs as [|[key [call|]] attrs IH]; intros fs Hfs; cbn [attribute_fields]; [done| |by apply IH].
  apply IH, put_shallow; [|done]. unfold attribute_json. destruct call as [v|]; [|apply shallow_text].
  destruct (rec v) eqn:Er; [by eapply Hrec|apply shallow_text].
Qed.

Lemma struct_shallow o fs : Forall (λ f, shallow n f.2) fs → shallow (S n) (struct_json rec o fs).
Proof.
  intros Hfs. unfold struct_json.
  assert (K : shallow (S n) match ob_toXDR o with
    | Some (Ok text) => OStr text
    | _ => match ob_toString o with
           | Some (Ok text) => if str_eqb text (js "[object Object]") then OObj fs else OStr text
           | _ => OObj fs end end).
  { destruct (ob_toXDR o) as [[text|e]|]; [exact I|..]; (destruct (ob_toString o) as [[text|e']|]; [|exact Hfs|exact Hfs]);
      by destruct (str_eqb text _). }
  destruct (ob_attributes o) as [[|a attrs]|]; [exact K| |exact K]. by apply attributes_shallow.
Qed.

Lemma object_shallow o r : object_json rec o = Ok r → shallow (S n) r.
Proof.
  unfold object_json. destruct (ob_long o); [done|]. destruct (_ ≫= _).
  { intros [= <-]. repeat constructor; apply shallow_text. }
  destruct (is_xdr o); cbn [negb].
  - destruct (ob_union o) as [u|]; [|intros [= <-]; apply struct_shallow, typed_shallow].
    pose proof (union_shallow u _ (typed_shallow o)) as Hu. destruct (union_fields rec u _) as [fs []]; intros [= <-]; [done|].
    by apply struct_shallow.
  - unfold plain_json. destruct (res_map _ _) as [fs|] eqn:Em; [|done]. intros [= <-].
    eapply res_map_forall; [|exact Em]. intros [k v] [k' v'] Ek. destruct (rec (k, v).2) eqn:Er; [|done].
    injection Ek as <- <-. by eapply Hrec.
Qed.
End Depth.

(** C34: the conversion ends on every value, however deep or strange, and what it answers
    is never nested more than 13 levels deep. *)
Theorem json_depth_bounded `{ArmAccess} v o : xdrToJson v = Ok o → shallow 13 o.
Proof.
  assert (K : ∀ left v o, xdrToJson_at left v = Ok o → shallow left o).
  { clear. induction left as [|left IH]; intros v o; cbn [xdrToJson_at]; [by intros [= <-]|].
    destruct v; try (intros [= <-]; exact I).
    - destruct (res_map _ _) as [os|] eqn:Em; [|done]. intros [= <-]. by eapply res_map_forall.
    - by apply object_shallow. }
  apply K.
Qed.

Definition shift_error : js_error := new_error (js "BigInts have no unsigned right shift, use >> instead").

Lemma res_map_throws {A B} (f : A → res B) l1 a l2 e : f a = Throw e → ∃ e', res_map f (l1 ++ a :: l2) = Throw e'.
Proof.
  intros Hf. induction l1 as [|b l1 (e' & IH)]; cbn [app res_map]; [rewrite Hf; by eexists|].
  destruct (f b); [rewrite IH|]; by eexists.
Qed.

(** a 64-bit number of the [Long] kind is never shown: its conversion always throws,
    with it that of every array and every plain object that holds it directly; as an attribute of a
    structure it becomes a decode error text. *)
Theorem longs_never_shown `{ArmAccess} left o parts : ob_long o = Some parts →
  xdrToJson_at (S left) (VObj o) = Throw shift_error ∧
  (∀ l1 l2, ∃ e, xdrToJson_at (S (S left)) (VArr (l1 ++ VObj o :: l2)) = Throw e) ∧
  (∀ p k l1 l2, ob_long p = None → ob_scval p = None → is_xdr p = false → ob_entries p = l1 ++ (k, VObj o) :: l2 →
     ∃ e, xdrToJson_at (S (S left)) (VObj p) = Throw e) ∧
  attribute_json (xdrToJson_at (S left)) (Ok (VObj o)) =
    OStr (js "[decode error: BigInts have no unsigned right shift, use >> instead]").
Proof.
  intros Hl. assert (E : xdrToJson_at (S left) (VObj o) = Throw shift_error).
  { cbn [xdrToJson_at]. unfold object_json. by rewrite Hl. }
  split; [done|]. split; [|split].
  - intros l1 l2.
    change (xdrToJson_at (S (S left)) (VArr (l1 ++ VObj o :: l2))) with
      (match res_map (xdrToJson_at (S left)) (l1 ++ VObj o :: l2) with Ok os => Ok (OArr os) | Throw e => Throw e end).
    destruct (res_map_throws (xdrToJson_at (S left)) l1 (VObj o) l2 _ E) as (e & ->). by exists e.
  - intros p k l1 l2 H1 H2 H3 He. change (xdrToJson_at (S (S left)) (VObj p)) with (object_json (xdrToJson_at (S left)) p).
    unfold object_json. rewrite H1, H2, H3. cbn [mbind option_bind negb]. unfold plain_json. rewrite He.
    destruct (res_map_throws (λ f, match xdrToJson_at (S left) f.2 with Ok v => Ok (f.1, v) | Throw e => Throw e end) l1 (k, VObj o) l2 shift_error)
      as (e & ->); [cbn [fst snd]; by rewrite E|]. by exists e.
  - unfold attribute_json. rewrite E. reflexivity.
Qed.

(** the decoded structure is copied, and printed at all, only when it holds no bigint;
    otherwise the rendering itself throws. And a typed object announces one field more than it lists. *)
Theorem json_of_typed_objects o :
  (has_bigint o = true ↔ ∃ e, jsonString o = Throw e) ∧
  ∀ t fs, (∀ f, f ∈ fs → f.1 ≠ js "_type") →
    node_children ((js "_type", OStr t) :: fs) = fs ∧
    node_count ((js "_type", OStr t) :: fs) = Z_to_str (Z.of_nat (S (length fs))) ++ js " field" ++ (if (length fs =? 0)%nat then [] else js "s").
Proof.
  split.
  - unfold jsonString. destruct (has_bigint o); split; intros; try done; [by eexists|]. by destruct H.
  - intros t fs Hfs. split; [|done]. unfold node_children. cbn [List.filter fst]. rewrite str_eqb_refl. cbn [negb].
    induction fs as [|f fs IH]; [done|]. cbn [List.filter].
    rewrite (proj2 (str_eqb_false _ _) (Hfs f (list_elem_of_here _ _))). cbn [negb]. f_equal. apply IH.
    intros g Hg. apply Hfs. by apply list_elem_of_further.
Qed.
End Xdr.

(** ** Choosing the decoder *)

Module Decoding.
Import Display Xdr.

(** The types of [DECODE_STRATEGIES], in order. *)
Definition DECODE_STRATEGIES : list str :=
  [js "TransactionEnvelope"; js "Transaction"; js "TransactionResult"; js "TransactionMeta"; js "SorobanTransactionData";
   js "LedgerEntry"; js "LedgerKey"; js "ScVal"; js "Operation"].
Definition NETWORKS : list str := [js "TESTNET"; js "PUBLIC"].

Inductive memo := MemoText (s : str) | MemoId (s : str) | MemoHash (s : str) | MemoReturn (s : str) | MemoNone.

(** An operation, as far as its summary goes; codes and issuers may be undefined. *)
Inductive operation :=
  | Payment (destination amount : str) (code issuer : option str)
  | CreateAccount (destination startingBalance : str)
  | InvokeHostFunction (function : option str)
  | ExtendFootprintTtl (extendTo : str)
  | RestoreFootprint
  | BumpSequence (bumpTo : str)
  | SetOptions
  | ChangeTrust (code issuer : option str) (limit : str)
  | AllowTrust
  | OtherOperation (type : str).

(** What [TransactionBuilder.fromXDR] builds; a fee bump has no sequence, memo and operations. *)
Record built := MkBuilt {
  bt_source : option str; bt_fee : str; bt_sequence : option str; bt_memo : option memo; bt_operations : option (list operation) }.

(** [X.fromXDR(text, "base64")] by the name of the type, and the builder by the name of the network. *)
Class XdrCodec := {
  xdr_decode : str → str → res jsval;
  tx_build : str → str → res built;
}.

Definition shown (o : option str) : str := default (js "undefined") o.

Definition summarizeMemo (m : memo) : str :=
  match m with
  | MemoText s => js "text(" ++ s ++ js ")" | MemoId s => js "id(" ++ s ++ js ")"
  | MemoHash s => js "hash(0x" ++ s ++ js ")" | MemoReturn s => js "return(0x" ++ s ++ js ")"
  | MemoNone => js "none"
  end.

(** [issuer ? ":" + issuer : ""] *)
Definition issuer_suffix (issuer : option str) : str := if truthy_opt issuer then js ":" ++ default [] issuer else [].

Definition op_type (op : operation) : str :=
  match op with
  | Payment _ _ _ _ => js "payment" | CreateAccount _ _ => js "createAccount" | InvokeHostFunction _ => js "invokeHostFunction"
  | ExtendFootprintTtl _ => js "extendFootprintTtl" | RestoreFootprint => js "restoreFootprint" | BumpSequence _ => js "bumpSequence"
  | SetOptions => js "setOptions" | ChangeTrust _ _ _ => js "changeTrust" | AllowTrust => js "allowTrust" | OtherOperation t => t
  end.

Definition summarizeOperation (op : operation) : str :=
  match op with
  | Payment destination amount code issuer =>
      destination ++ js " " ++ [8592%N] ++ js " " ++ amount ++ js " " ++ shown code ++ issuer_suffix issuer
  | CreateAccount destination balance => destination ++ js " starting balance " ++ balance ++ js " XLM"
  | InvokeHostFunction (Some f) => js "hostFn: " ++ f
  | InvokeHostFunction None => js "invokeHostFunction"
  | ExtendFootprintTtl n => js "extend TTL by " ++ n
  | RestoreFootprint => js "restore footprint"
  | BumpSequence n => js "bump to " ++ n
  | SetOptions => js "set options"
  | ChangeTrust code issuer limit => js "trust " ++ shown code ++ issuer_suffix issuer ++ js " (limit " ++ limit ++ js ")"
  | AllowTrust => js "allow trust"
  | OtherOperation t => t
  end.

Record summary := MkSummary {
  sm_source : option str; sm_fee : str; sm_sequence : str; sm_memo : str; sm_operations : list (str * str); sm_network : str }.

Section Decode.
Context `{ArmAccess, XdrCodec}.

(** The body of the loop for one network; a missing memo throws. *)
Definition summary_of (network : str) (tx : built) : res summary :=
  let ops := (λ op, (op_type op, summarizeOperation op)) <$> default [] (bt_operations tx) in
  match bt_memo tx with
  | None => Throw type_error
  | Some m => Ok (MkSummary (bt_source tx) (bt_fee tx) (shown (bt_sequence tx)) (summarizeMemo m) ops network)
  end.

Fixpoint try_networks (networks : list str) (xdr : str) : option summary :=
  match networks with
  | [] => None
  | network :: networks' =>
      match tx_build network xdr with
      | Ok tx => match summary_of network tx with Ok s => Some s | Throw _ => try_networks networks' xdr end
      | Throw _ => try_networks networks' xdr
      end
  end.
Definition tryDecodeAsTransaction : str → option summary := try_networks NETWORKS.

Record XdrDecodeResult := MkDecoded { xd_type : str; xd_data : out; xd_summary : option summary }.

Fixpoint decode_loop (strategies : list str) (xdr : str) (lastErr : option js_error) : res XdrDecodeResult :=
  match strategies with
  | [] => Throw (default (new_error (js "Unknown XDR format")) lastErr)
  | strategy :: strategies' =>
      match xdr_decode strategy xdr with
      | Throw e => decode_loop strategies' xdr (Some e)
      | Ok decoded =>
          let summary := if str_eqb strategy (js "TransactionEnvelope") then tryDecodeAsTransaction xdr else None in
          match xdrToJson decoded with
          | Throw e => decode_loop strategies' xdr (Some e)
          | Ok data => Ok (MkDecoded strategy data summary)
          end
      end
  end.
Definition decodeXdr (xdr : str) : res XdrDecodeResult := decode_loop DECODE_STRATEGIES xdr None.

(** *** Properties *)

(** What a strategy makes of a text. *)
Definition attempt (xdr strategy : str) : res out :=
  match xdr_decode strategy xdr with Ok v => xdrToJson v | Throw e => Throw e end.

Lemma decode_loop_ok ss xdr last r : decode_loop ss xdr last = Ok r ↔
  ∃ before after, ss = before ++ xd_type r :: after ∧ Forall (λ s, ∃ e, attempt xdr s = Throw e) before ∧
    attempt xdr (xd_type r) = Ok (xd_data r) ∧
    xd_summary r = if str_eqb (xd_type r) (js "TransactionEnvelope") then tryDecodeAsTransaction xdr else None.
Proof.
  revert last. induction ss as [|s ss IH]; intros last; cbn [decode_loop].
  { split; [done|]. intros (b & a & E & _). by destruct b. }
  assert (K : ∀ e, attempt xdr s = Throw e → decode_loop ss xdr (Some e) = Ok r ↔
    ∃ before after, s :: ss = before ++ xd_type r :: after ∧ Forall (λ s, ∃ e, attempt xdr s = Throw e) before ∧
      attempt xdr (xd_type r) = Ok (xd_data r) ∧
      xd_summary r = if str_eqb (xd_type r) (js "TransactionEnvelope") then tryDecodeAsTransaction xdr else None).
  { intros e Ha. rewrite IH. split.
    - intros (b & a & -> & Hb & Hr). exists (s :: b), a. split; [done|]. split; [|done]. constructor; [by eexists|done].
    - intros (b & a & E & Hb & Hd & Hs). destruct b as [|b0 b]; injection E as -> ->; [congruence|].
      exists b, a. split; [done|]. split; [by inversion Hb|done]. }
  destruct (xdr_decode s xdr) as [v|e] eqn:Ed.
  2:{ apply K. unfold attempt. by rewrite Ed. }
  cbv zeta. destruct (xdrToJson v) as [data|e] eqn:Ej.
  2:{ apply K. unfold attempt. by rewrite Ed. }
  assert (Ha : attempt xdr s = Ok data) by (unfold attempt; by rewrite Ed). split.
  - intros [= <-]. exists [], ss. cbn. split; [done|]. split; [constructor|done].
  - intros (b & a & E & Hb & Hd & Hs). destruct b as [|b0 b]; injection E as -> ->.
    + destruct r as [ty da su]. cbn in *. assert (data = da) by congruence. by subst.
    + inversion Hb as [|? ? (e & He)]. congruence.
Qed.

(** a text is shown as the first of the nine types under which it both decodes and
    converts; a transaction whose conversion fails is therefore shown as another type or not at all;
    and only an envelope has a summary. *)
Theorem decoded_as_first_type xdr r : decodeXdr xdr = Ok r ↔
  ∃ before after, DECODE_STRATEGIES = before ++ xd_type r :: after ∧ Forall (λ s, ∃ e, attempt xdr s = Throw e) before ∧
    attempt xdr (xd_type r) = Ok (xd_data r) ∧
    xd_summary r = if str_eqb (xd_type r) (js "TransactionEnvelope") then tryDecodeAsTransaction xdr else None.
Proof. apply decode_loop_ok. Qed.

(** the builder decodes an envelope under any passphrase (it is needed for the hash
    only); so the network of a summary is always the first one tried, [TESTNET], for transactions of
    the public network as well. *)
Theorem network_always_testnet xdr s :
  (∀ e, tx_build (js "TESTNET") xdr = Throw e → ∃ e', tx_build (js "PUBLIC") xdr = Throw e') →
  (∀ tx tx', tx_build (js "TESTNET") xdr = Ok tx → tx_build (js "PUBLIC") xdr = Ok tx' → tx = tx') →
  tryDecodeAsTransaction xdr = Some s → sm_network s = js "TESTNET".
Proof.
  intros H1 H2. unfold tryDecodeAsTransaction, NETWORKS. cbn [try_networks].
  destruct (tx_build (js "TESTNET") xdr) as [tx|e] eqn:Et.
  - destruct (summary_of (js "TESTNET") tx) as [s'|e] eqn:Es.
    + intros [= <-]. revert Es. unfold summary_of. destruct (bt_memo tx); [by intros [= <-]|done].
    + destruct (tx_build (js "PUBLIC") xdr) as [tx'|e'] eqn:Ep; [|done].
      rewrite <-(H2 tx tx' eq_refl eq_refl). revert Es. unfold summary_of. by destruct (bt_memo tx).
  - destruct (H1 e eq_refl) as (e' & ->). done.
Qed.
End Decode.
End Decoding.

(** ** The dialog *)

Module Dialog.
Import Display Xdr Decoding.

Record props := MkProps { pr_username : option str; pr_xdr : option str; pr_title : option str }.

(** A payment as the table lists it. *)
Record payment := MkPayment {
  pm_id : str; pm_sender : str; pm_receiver : str; pm_amount : str; pm_currency : str; pm_created_at : str }.

(** The state, and whether [onClose] was called. The loads are numbered as they are started:
    [dg_started] of them so far, [dg_pending] not yet answered, [dg_cancelled] those whose variable
    [cancelled] is set. *)
Record dialog := MkDialog {
  dg_props : props; dg_payments : list payment; dg_loading : bool; dg_error : option str;
  dg_selected : option str; dg_started : nat; dg_pending : list nat; dg_cancelled : list nat; dg_closed : bool }.

Definition set_shown (p : props) (x : option str) (d : dialog) : dialog :=
  MkDialog p (dg_payments d) (dg_loading d) (dg_error d) x (dg_started d) (dg_pending d) (dg_cancelled d) (dg_closed d).
Definition set_selected (x : option str) (d : dialog) : dialog := set_shown (dg_props d) x d.
Definition setPayments (l : list payment) (d : dialog) : dialog :=
  MkDialog (dg_props d) l (dg_loading d) (dg_error d) (dg_selected d) (dg_started d) (dg_pending d) (dg_cancelled d) (dg_closed d).
Definition setLoading (b : bool) (d : dialog) : dialog :=
  MkDialog (dg_props d) (dg_payments d) b (dg_error d) (dg_selected d) (dg_started d) (dg_pending d) (dg_cancelled d) (dg_closed d).
Definition setError (e : option str) (d : dialog) : dialog :=
  MkDialog (dg_props d) (dg_payments d) (dg_loading d) e (dg_selected d) (dg_started d) (dg_pending d) (dg_cancelled d) (dg_closed d).
Definition set_loads (started : nat) (pending cancelled : list nat) (d : dialog) : dialog :=
  MkDialog (dg_props d) (dg_payments d) (dg_loading d) (dg_error d) (dg_selected d) started pending cancelled (dg_closed d).
Definition close (d : dialog) : dialog :=
  MkDialog (dg_props d) (dg_payments d) (dg_loading d) (dg_error d) (dg_selected d) (dg_started d) (dg_pending d) (dg_cancelled d) true.

(** The effect on [username]: it starts the next load, or none; and what it left to be run before
    the next effect, which cancels the load it started. *)
Definition load_effect (d : dialog) : dialog :=
  if truthy_opt (pr_username (dg_props d))
  then set_loads (S (dg_started d)) (dg_pending d ++ [S (dg_started d)]) (dg_cancelled d) (setLoading true d)
  else setLoading false d.

Definition cleanup (d : dialog) : dialog :=
  if truthy_opt (pr_username (dg_props d))
  then set_loads (dg_started d) (dg_pending d) (dg_started d :: dg_cancelled d) d else d.

(** The first rendering, with its effects. *)
Definition mount (p : props) : dialog := load_effect (MkDialog p [] true None (pr_xdr p) 0 [] [] false).

(** New properties: the effects run for those that changed. *)
Definition set_props (p : props) (d : dialog) : dialog :=
  let selected := if bool_decide (pr_xdr p = pr_xdr (dg_props d)) then dg_selected d else pr_xdr p in
  if bool_decide (pr_username p = pr_username (dg_props d)) then set_shown p selected d
  else load_effect (set_shown p selected (cleanup d)).

(** The promise of the load number [load] settles, once: [then], [catch] and [finally]. *)
Definition answer (load : nat) (r : res (list payment)) (d : dialog) : dialog :=
  if bool_decide (load ∈ dg_pending d) then
    let d0 := set_loads (dg_started d) (filter (λ n, n ≠ load) (dg_pending d)) (dg_cancelled d) d in
    let cancelled := bool_decide (load ∈ dg_cancelled d) in
    let d1 := match r with
      | Ok data => if negb cancelled then setPayments data d0 else d0
      | Throw e => if negb cancelled then setError (Some (err_message e)) d0 else d0
      end in
    if negb cancelled then setLoading false d1 else d1
  else d.

Definition can_go_back (d : dialog) : bool := truthy_opt (dg_selected d) && negb (truthy_opt (pr_xdr (dg_props d))).

Definition escape (d : dialog) : dialog := if can_go_back d then set_selected None d else close d.

Inductive event :=
  | NewProps (p : props) | Answer (load : nat) (r : res (list payment)) | Escape | Back | Close.

Definition step (e : event) (d : dialog) : dialog :=
  match e with
  | NewProps p => set_props p d
  | Answer load r => answer load r d
  | Escape => escape d
  | Back => if can_go_back d then set_selected None d else d
  | Close => close d
  end.
Definition run (es : list event) (d : dialog) : dialog := foldl (λ d e, step e d) d es.

(** What is rendered; [Crash]: the rendering throws. *)
Inductive view :=
  | XdrView (decoded : XdrDecodeResult) (json : str) | DecodeFailed (message : str) | Crash (e : js_error)
  | Loading | LoadError (message : str) | NoPayments | Payments (rows : list payment).

Definition headerTitle (d : dialog) : str :=
  let p := dg_props d in
  if truthy_opt (dg_selected d)
  then default (if truthy_opt (pr_xdr p) then js "Transaction Details" else js "Decoded XDR Payload") (pr_title p)
  else default (js "Payment History") (pr_title p).

Section Render.
Context `{ArmAccess, XdrCodec}.

(** [XdrViewer] decodes and prints while it renders. *)
Definition xdr_viewer (xdr : str) : view :=
  match decodeXdr xdr with
  | Throw e => Crash e
  | Ok decoded => match jsonString (xd_data decoded) with Ok json => XdrView decoded json | Throw e => Crash e end
  end.

(** [try { content = <XdrViewer/> } catch ...]: making the element runs nothing of the component. *)
Definition create_element (xdr : str) : res (unit → view) := Ok (λ _, xdr_viewer xdr).

Definition render (d : dialog) : view :=
  if truthy_opt (dg_selected d) then
    match create_element (default [] (dg_selected d)) with
    | Ok component => component tt
    | Throw e => DecodeFailed (err_message e)
    end
  else if dg_loading d then Loading
  else if truthy_opt (dg_error d) then LoadError (default [] (dg_error d))
  else match dg_payments d with [] => NoPayments | rows => Payments rows end.

(** What the copy buttons hand to the clipboard. *)
Definition copied_text (raw : bool) (xdr json : str) : str := if raw then xdr else json.

(** *** Properties *)

(** a text that no type decodes, or whose structure holds a bigint, makes the
    rendering of the dialog throw; its own failure box, written in a [catch] around the making of the
    element, is never shown. *)
Theorem decode_errors_escape d : 
  (∀ m, render d ≠ DecodeFailed m) ∧
  ∀ xdr, dg_selected d = Some xdr → xdr ≠ [] →
    (∀ e, decodeXdr xdr = Throw e → render d = Crash e) ∧
    (∀ r, decodeXdr xdr = Ok r → has_bigint (xd_data r) = true → ∃ e, render d = Crash e).
Proof.
  unfold render, create_element. split.
  - intros m. destruct (truthy_opt _).
    + unfold xdr_viewer. destruct (decodeXdr _) as [r|]; [|done]. by destruct (jsonString _).
    + destruct (dg_loading d); [done|]. destruct (truthy_opt _); [done|]. by destruct (dg_payments d).
  - intros xdr Es Hx. rewrite Es. destruct xdr as [|c xdr]; [done|]. cbn [truthy_opt truthy default].
    change (id (c :: xdr)) with (c :: xdr). unfold xdr_viewer. split; [by intros e ->|]. intros r -> Hb. unfold jsonString. rewrite Hb. by eexists.
Qed.
End Render.

Lemma step_error e d : truthy_opt (dg_error d) = true → (∀ load x, e = Answer load (Throw x) → err_message x ≠ []) →
  truthy_opt (dg_error (step e d)) = true.
Proof.
  intros Hd He. destruct e as [p|load r| | |]; cbn [step].
  - unfold set_props, load_effect, cleanup. by repeat case_match.
  - unfold answer. destruct (bool_decide (load ∈ dg_pending d)); [|done].
    destruct (bool_decide _), r as [data|x]; cbn; try done. pose proof (He load x eq_refl). by destruct (err_message x).
  - unfold escape. by destruct (can_go_back d).
  - by destruct (can_go_back d).
  - done.
Qed.

(** after one failed load the dialog never lists payments again: whatever users it is
    given and whatever loads succeed, the old error (or a newer one) stands in their place. *)
Theorem error_outlives_user `{ArmAccess, XdrCodec} d es : truthy_opt (dg_error d) = true →
  Forall (λ e, ∀ load x, e = Answer load (Throw x) → err_message x ≠ []) es →
  truthy_opt (dg_error (run es d)) = true ∧ ∀ rows, render (run es d) ≠ Payments rows.
Proof.
  intros He Hes. assert (K : truthy_opt (dg_error (run es d)) = true).
  { unfold run. revert d He. induction Hes as [|e es Hx _ IH]; intros d He; [done|]. cbn [foldl]. by apply IH, step_error. }
  split; [done|]. intros rows. unfold render, create_element. destruct (truthy_opt (dg_selected _)).
  - unfold xdr_viewer. destruct (decodeXdr _) as [r|]; [|done]. by destruct (jsonString _).
  - destruct (dg_loading _); [done|]. by rewrite K.
Qed.

(** What the list depends on. *)
Definition seen (d : dialog) := (dg_payments d, dg_error d, dg_loading d).

Definition has_user (d : dialog) : bool := truthy_opt (pr_username (dg_props d)).

(** Every load that is still awaited is cancelled, but for the load of the present user. *)
Record loads_ok (d : dialog) : Prop := {
  lo_pending : ∀ n, n ∈ dg_pending d → n ≤ dg_started d;
  lo_cancelled : ∀ n, n ∈ dg_cancelled d → n ≤ dg_started d;
  lo_stale : ∀ n, n ∈ dg_pending d → n ∈ dg_cancelled d ∨ has_user d = true ∧ n = dg_started d;
  lo_live : has_user d = true → dg_started d ∉ dg_cancelled d;
}.

(** The load of the present user is not answered yet. *)
Definition waits (d : dialog) : bool := has_user d && bool_decide (dg_started d ∈ dg_pending d).

(** What an answer to it leaves. *)
Definition outcome (r : res (list payment)) (d : dialog) :=
  match r with
  | Ok data => (data, dg_error d, false)
  | Throw e => (dg_payments d, Some (err_message e), false)
  end.

Lemma outcome_seen r d d' : seen d' = seen d → outcome r d' = outcome r d.
Proof. unfold seen, outcome. intros [= -> -> _]. done. Qed.

(** The first answer to the load [n] in [es]. *)
Definition answer_to (n : nat) (es : list event) : option (res (list payment)) :=
  head (omap (λ e, match e with Answer load r => if (load =? n)%nat then Some r else None | _ => None end) es).

(** No change of the user. *)
Definition same_user (u : option str) (e : event) : Prop :=
  match e with NewProps p => pr_username p = u | _ => True end.

Lemma cleanup_stale d : loads_ok d → ∀ n, n ∈ dg_pending (cleanup d) → n ∈ dg_cancelled (cleanup d).
Proof.
  intros [_ _ T _] n. unfold cleanup, has_user in *. destruct (truthy_opt _); intros Hn%T; set_solver.
Qed.

Lemma set_props_ok p d : loads_ok d → loads_ok (set_props p d).
Proof.
  intros I. unfold set_props. case_bool_decide as E.
  { destruct I as [P C T L]. unfold has_user in *. split; cbn; try done; unfold has_user; cbn; by rewrite E. }
  pose proof (cleanup_stale d I) as T. destruct I as [P C _ _].
  assert (K : dg_started (cleanup d) = dg_started d ∧ dg_pending (cleanup d) = dg_pending d ∧
    ∀ n, n ∈ dg_cancelled (cleanup d) → n ≤ dg_started d).
  { unfold cleanup. case_match; cbn; [|done]. split_and!; [done|done|]. intros n [->|Hn]%elem_of_cons; [lia|by apply C]. }
  destruct K as (K1 & K2 & K3). unfold load_effect. cbn [dg_props set_shown].
  destruct (truthy_opt (pr_username p)) eqn:U; split; unfold has_user; cbn; rewrite ?U, ?K1; try done.
  - intros n [Hn| ->%list_elem_of_singleton]%elem_of_app; [|lia]. rewrite K2 in Hn. apply P in Hn. lia.
  - intros n Hn%K3. lia.
  - intros n [Hn%T| ->%list_elem_of_singleton]%elem_of_app; auto.
  - intros _ Hn%K3. lia.
  - intros n Hn. rewrite K2 in Hn. by apply P.
  - intros n Hn. left. by apply T.
Qed.

(** One step, for the state and for what is seen. *)
Lemma answer_ok load r d : loads_ok d → loads_ok (answer load r d) ∧
  dg_props (answer load r d) = dg_props d ∧ dg_started (answer load r d) = dg_started d ∧
  (seen (answer load r d), waits (answer load r d)) =
    if waits d && (load =? dg_started d)%nat then (outcome r d, false) else (seen d, waits d).
Proof.
  intros [P C T L]. unfold answer. set (d0 := set_loads _ _ _ _). unfold waits.
  assert (F : ∀ n, n ∈ filter (λ n, n ≠ load) (dg_pending d) ↔ n ≠ load ∧ n ∈ dg_pending d) by (intros n; by rewrite list_elem_of_filter).
  assert (O : ∀ d', dg_props d' = dg_props d → dg_started d' = dg_started d → dg_pending d' = dg_pending d0 → dg_cancelled d' = dg_cancelled d → loads_ok d').
  { intros d' E1 E2 E3 E4. split; unfold has_user in *; rewrite ?E1, ?E2, ?E3, ?E4; cbn; try done; intros n [_ Hn]%F; [by apply P|by apply T]. }
  destruct (bool_decide (load ∈ dg_pending d)) eqn:B; [apply bool_decide_eq_true in B|apply bool_decide_eq_false in B].
  2:{ split_and!; [by split|done|done|]. destruct (Nat.eqb_spec load (dg_started d)) as [->|]; [|by rewrite andb_false_r].
      rewrite (bool_decide_eq_false_2 _ B). by rewrite andb_false_r. }
  destruct (bool_decide (load ∈ dg_cancelled d)) eqn:X; [apply bool_decide_eq_true in X|apply bool_decide_eq_false in X]; cbn [negb].
  - assert (N : has_user d = true → load ≠ dg_started d) by (intros U ->; by apply L in U).
    assert (E : match r with Ok _ | Throw _ => d0 end = d0) by by destruct r. rewrite E. split_and!; [by apply O|done|done|].
    change (has_user d0) with (has_user d). destruct (has_user d); cbn [andb]; [|done]. specialize (N eq_refl).
    apply Nat.eqb_neq in N as N'. rewrite N', andb_false_r. change (seen d0) with (seen d). do 2 f_equal.
    apply bool_decide_ext. cbn. rewrite F. naive_solver.
  - destruct (T _ B) as [|[U ->]]; [done|]. rewrite U, Nat.eqb_refl, (bool_decide_eq_true_2 _ B). cbn [andb].
    split_and!; [by destruct r; apply O|by destruct r|by destruct r|].
    assert (N : bool_decide (dg_started d ∈ dg_pending d0) = false) by (apply bool_decide_eq_false; cbn; rewrite F; naive_solver).
    by destruct r; cbn in *; rewrite N, andb_false_r.
Qed.

Lemma dialog_step_ok e d : loads_ok d → loads_ok (step e d).
Proof.
  intros I. destruct e as [p|load r| | |]; cbn [step]; [by apply set_props_ok|by apply answer_ok|unfold escape; case_match| |]; try by destruct I.
  case_match; [by destruct I|done].
Qed.

Lemma dialog_run_ok es p : loads_ok (run es (mount p)).
Proof.
  assert (M : loads_ok (mount p)).
  { unfold mount, load_effect. cbn. destruct (truthy_opt (pr_username p)) eqn:U; split; unfold has_user; cbn; rewrite ?U; set_solver. }
  unfold run. revert M. generalize (mount p). induction es as [|e es IH]; intros d I; [done|]. by apply IH, dialog_step_ok.
Qed.

(** While the user stays, nothing but the first answer to their load counts. *)
Lemma run_seen es d : loads_ok d → Forall (same_user (pr_username (dg_props d))) es →
  seen (run es d) = match (if waits d then answer_to (dg_started d) es else None) with Some r => outcome r d | None => seen d end.
Proof.
  intros I Hes. revert d I Hes. induction es as [|e es IH]; intros d I Hes; [by destruct (waits d)|].
  apply Forall_cons in Hes as [He Hes].
  assert (K : ∀ d', loads_ok d' → pr_username (dg_props d') = pr_username (dg_props d) → dg_started d' = dg_started d →
    seen d' = seen d → dg_pending d' = dg_pending d → step e d = d' → answer_to (dg_started d) (e :: es) = answer_to (dg_started d) es →
    seen (run (e :: es) d) = match (if waits d then answer_to (dg_started d) (e :: es) else None) with Some r => outcome r d | None => seen d end).
  { intros d' I' U E S P St A. cbn [run foldl]. rewrite St. fold (run es d'). rewrite IH by (by rewrite ?U).
    assert (W : waits d' = waits d) by (unfold waits, has_user; by rewrite U, E, P). rewrite W, E, A, S.
    destruct (if waits d then _ else _) as [r|]; [by apply outcome_seen|done]. }
  destruct e as [p|load r| | |].
  - apply (K (set_props p d)); [by apply set_props_ok|..]; cbn in He; cbn [step]; unfold set_props; rewrite ?(bool_decide_eq_true_2 _ He); done.
  - destruct (answer_ok load r d I) as (I' & E1 & E2 & E3). cbn [run foldl step]. fold (run es (answer load r d)).
    rewrite IH by (by rewrite ?E1). rewrite E2.
    assert (A : answer_to (dg_started d) (Answer load r :: es) = if (load =? dg_started d)%nat then Some r else answer_to (dg_started d) es)
      by (unfold answer_to; cbn [omap list_omap]; destruct (load =? dg_started d)%nat; reflexivity).
    rewrite A. clear A. revert E3. destruct (waits d), (load =? dg_started d)%nat; cbn [andb]; intros [S ->]%pair_equal_spec; try exact S.
    destruct (answer_to _ es) as [r'|]; [by apply outcome_seen|done].
  - apply (K (step Escape d)); [by apply dialog_step_ok|..]; cbn [step]; unfold escape; by destruct (can_go_back d).
  - apply (K (step Back d)); [by apply dialog_step_ok|..]; cbn [step]; by destruct (can_go_back d).
  - apply (K (step Close d)); [by apply dialog_step_ok|done..].
Qed.

(** C36: when the dialog turns to another user, whatever happened before and until the user
    changes again, nothing but the first answer to the load of that user counts: its payments, or its
    error, are shown and the loading ends. The answers of all earlier loads, payments and errors, are
    dropped whenever they arrive, before it or after it; until it arrives, and if there is no user to
    load for, the list and the error stay as they were. *)
Theorem latest_load_decides p0 before p es :
  let d := run before (mount p0) in
  let d1 := set_props p d in
  let d2 := run es d1 in
  pr_username p ≠ pr_username (dg_props d) → Forall (same_user (pr_username p)) es →
  match (if has_user d1 then answer_to (dg_started d1) es else None) with
  | Some (Ok data) => (dg_payments d2, dg_error d2, dg_loading d2) = (data, dg_error d, false)
  | Some (Throw e) => (dg_payments d2, dg_error d2, dg_loading d2) = (dg_payments d, Some (err_message e), false)
  | None => (dg_payments d2, dg_error d2, dg_loading d2) = (dg_payments d, dg_error d, has_user d1)
  end.
Proof.
  intros d d1 d2 Hn Hes. pose proof (dialog_run_ok before p0 : loads_ok d) as I. pose proof (set_props_ok p d I) as I1.
  assert (E : pr_username (dg_props d1) = pr_username p ∧ seen d1 = (dg_payments d, dg_error d, has_user d1) ∧ waits d1 = has_user d1).
  { unfold d1, set_props, waits, has_user, load_effect. rewrite (bool_decide_eq_false_2 _ Hn). cbn [dg_props set_shown].
    assert (seen (cleanup d) = seen d) as [= S1 S2 _] by (unfold cleanup; by case_match).
    destruct (truthy_opt (pr_username p)) eqn:U; cbn; rewrite U; unfold seen; cbn; rewrite S1, S2; split_and!; try done.
    rewrite bool_decide_eq_true_2; [done|]. set_solver. }
  destruct E as (E1 & E2 & E3). change (dg_payments d2, dg_error d2, dg_loading d2) with (seen d2).
  unfold d2. rewrite run_seen, E3 by (by rewrite ?E1). unfold outcome. injection E2 as E4 E5 E6. rewrite E4, E5.
  destruct (if has_user d1 then _ else _) as [[data|e]|]; [done|done|]. unfold seen. by rewrite E4, E5, E6.
Qed.

(** the decoded view is open exactly while the property [xdr] says so: no press opens
    it, the way back is never offered, and Escape always closes the dialog. *)
Theorem selection_follows_property p es :
  let d := run es (mount p) in
  dg_selected d = pr_xdr (dg_props d) ∧ can_go_back d = false ∧ dg_closed (step Escape d) = true.
Proof.
  assert (K : ∀ d, dg_selected d = pr_xdr (dg_props d) → can_go_back d = false).
  { intros d E. unfold can_go_back. rewrite E. by destruct (truthy_opt _). }
  assert (S : ∀ e d, dg_selected d = pr_xdr (dg_props d) → dg_selected (step e d) = pr_xdr (dg_props (step e d))).
  { intros e d E. destruct e as [q|load r| | |]; cbn [step].
    - unfold set_props. cbv zeta. case_bool_decide as H1; (case_bool_decide as H2; unfold load_effect; cbn; repeat case_match; cbn; congruence).
    - unfold answer. by repeat case_match.
    - unfold escape. by rewrite K.
    - by rewrite K.
    - done. }
  assert (R : ∀ d, dg_selected d = pr_xdr (dg_props d) → dg_selected (run es d) = pr_xdr (dg_props (run es d))).
  { unfold run. clear -S. induction es as [|e es IH]; intros d E; [done|]. cbn [foldl]. by apply IH, S. }
  cbv zeta. assert (E : dg_selected (mount p) = pr_xdr (dg_props (mount p))) by (unfold mount, load_effect; cbn; by case_match).
  apply R in E. split; [done|]. split; [by apply K|]. cbn [step]. unfold escape. by rewrite K.
Qed.
End Dialog.

(** ** Concrete runs *)

Module Runs.
Import Display Xdr Decoding Dialog.

(** Accessors as the SDK's class has them. *)
#[local] Instance sdk_access : ArmAccess := λ arm v,
  if str_eqb arm (js "u128") then
    Some match v with ScU128 hi lo => Ok (hi, lo) | _ => Throw (new_error (js "u128 not set")) end
  else None.
#[local] Instance sdk_arms : SdkArms.
Proof. split; [done|]. intros v [(hi & lo & ->)|[-> | ->]]; by eexists. Qed.

Lemma wide_integers_witness :
  scValToHuman (ScU128 1 5) = Some (js "18446744073709551621") ∧ scValToHuman (ScI128 0 5) = None ∧ scValToHuman ScU256 = None.
Proof.
  destruct wide_integers as (H1 & H2 & H3 & _). split; [|split; [apply H2|exact H3]].
  assert (Z_to_str (1 * 2 ^ 64 + 5) = js "18446744073709551621") as <- by (vm_compute; reflexivity).
  apply H1. split; [discriminate|reflexivity].
Defined.

Lemma bytes_displayed_witness : bufferToDisplay [0; 255]%N = js "0x00ff" ∧ bufferToDisplay [72; 105]%N = js "Hi".
Proof.
  split; [exact (bytes_displayed [0; 255]%N ltac:(discriminate))|exact (bytes_displayed [72; 105]%N ltac:(discriminate))].
Defined.

Definition blank (fields : list (str * jsval)) : obj_view jsval := MkObj None None (Some (js "Object")) fields None None None None.
(** [{a: [1, {}]}] and a [Long]. *)
Definition nested : jsval := VObj (blank [(js "a", VArr [VNum (Fin 1 0); VObj (blank [])])]).
Definition a_long : obj_view jsval := MkObj (Some (0, 7)%Z) None (Some (js "Long")) [] None None None None.

Definition nested_json : out := OObj [(js "a", OArr [ONum (Fin 1 0); OObj []])].

Lemma json_depth_bounded_witness : xdrToJson nested = Ok nested_json ∧ shallow 13 nested_json.
Proof.
  assert (E : xdrToJson nested = Ok nested_json) by (vm_compute; reflexivity). split; [exact E|].
  exact (json_depth_bounded nested nested_json E).
Defined.

Definition lines (l : list str) : str := join [10%N] l.
Example printed : jsonString nested_json =
  Ok (lines [js "{"; js "  " ++ quote (js "a") ++ js ": ["; js "    1,"; js "    {}"; js "  ]"; js "}"]).
Proof. vm_compute. reflexivity. Qed.

Lemma longs_never_shown_witness : xdrToJson_at 13 (VObj a_long) = Throw shift_error ∧
  attribute_json (xdrToJson_at 13) (Ok (VObj a_long)) =
    OStr (js "[decode error: BigInts have no unsigned right shift, use >> instead]").
Proof. destruct (longs_never_shown 12 a_long (0, 7)%Z eq_refl) as (H1 & _ & _ & H4). split; [exact H1|exact H4]. Defined.

Definition tx : built := MkBuilt (Some (js "GA")) (js "100") (Some (js "7")) (Some (MemoText (js "hi")))
  (Some [Payment (js "GB") (js "5") (Some (js "XLM")) None]).

(** The text [E] is an envelope, [N] an operation; the builder takes any envelope. *)
#[local] Instance letter_codec : XdrCodec := {|
  xdr_decode type x :=
    if str_eqb type (js "TransactionEnvelope") && str_eqb x (js "E") then Ok (VObj (blank []))
    else if str_eqb type (js "Operation") && str_eqb x (js "N") then Ok (VBig 5)
    else Throw (new_error (js "bad"));
  tx_build _ x := if str_eqb x (js "E") then Ok tx else Throw (new_error (js "bad")) |}.

Lemma network_always_testnet_witness : ∃ s, tryDecodeAsTransaction (js "E") = Some s ∧ sm_network s = js "TESTNET".
Proof.
  eexists. assert (E : tryDecodeAsTransaction (js "E") = Some (MkSummary (Some (js "GA")) (js "100") (js "7") (js "text(hi)")
    [(js "payment", js "GB " ++ [8592%N] ++ js " 5 XLM")] (js "TESTNET"))) by (vm_compute; reflexivity).
  split; [exact E|]. apply (network_always_testnet (js "E") _); [| |exact E].
  - intros e. vm_compute. discriminate.
  - intros t t' [= <-] [= <-]. reflexivity.
Defined.

Lemma decoded_as_first_type_witness : ∃ before after,
  DECODE_STRATEGIES = before ++ js "Operation" :: after ∧ Forall (λ s, ∃ e, attempt (js "N") s = Throw e) before ∧
  attempt (js "N") (js "Operation") = Ok (OBig 5) ∧ None = @None summary.
Proof.
  assert (E : decodeXdr (js "N") = Ok (MkDecoded (js "Operation") (OBig 5) None)) by (vm_compute; reflexivity).
  exact (proj1 (decoded_as_first_type (js "N") (MkDecoded (js "Operation") (OBig 5) None)) E).
Defined.

Definition xdr_dialog (x : str) : dialog := mount (MkProps None (Some x) None).

Lemma decode_errors_escape_witness :
  render (xdr_dialog (js "?")) = Crash (new_error (js "bad")) ∧ ∃ e, render (xdr_dialog (js "N")) = Crash e.
Proof.
  split.
  - apply (proj2 (decode_errors_escape (xdr_dialog (js "?"))) (js "?") eq_refl ltac:(discriminate)). vm_compute. reflexivity.
  - apply (proj2 (decode_errors_escape (xdr_dialog (js "N"))) (js "N") eq_refl ltac:(discriminate)) with (MkDecoded (js "Operation") (OBig 5) None);
      [vm_compute; reflexivity|reflexivity].
Defined.

Definition row : payment := MkPayment (js "1") (js "ann") (js "bob") (js "5") (js "XLM") [].
Definition of_user (u : str) : props := MkProps (Some u) None None.
Definition failed : dialog := run [Answer 1 (Throw (new_error (js "offline")))] (mount (of_user (js "ann"))).

Lemma error_outlives_user_witness :
  let es := [NewProps (of_user (js "bob")); Answer 2 (Ok [row])] in
  truthy_opt (dg_error (run es failed)) = true ∧ ∀ rows, render (run es failed) ≠ Payments rows.
Proof.
  apply (error_outlives_user failed [NewProps (of_user (js "bob")); Answer 2 (Ok [row])]); [reflexivity|].
  repeat constructor; discriminate.
Defined.

(** The load of the first user is answered after that of the second, and their refusal as well. *)
Lemma latest_load_decides_witness :
  let d2 := run [NewProps (of_user (js "bob")); Answer 2 (Ok [row]); Answer 1 (Ok [])] (mount (of_user (js "ann"))) in
  let d3 := run [NewProps (of_user (js "bob")); Answer 1 (Throw (new_error (js "offline"))); Escape] (mount (of_user (js "ann"))) in
  (dg_payments d2, dg_error d2, dg_loading d2) = ([row], None, false) ∧
  (dg_payments d3, dg_error d3, dg_loading d3) = ([], None, true).
Proof.
  assert (N : pr_username (of_user (js "bob")) ≠ pr_username (of_user (js "ann"))) by (vm_compute; discriminate).
  pose proof (latest_load_decides (of_user (js "ann")) [] (of_user (js "bob")) [Answer 2 (Ok [row]); Answer 1 (Ok [])] N ltac:(repeat constructor)) as A.
  pose proof (latest_load_decides (of_user (js "ann")) [] (of_user (js "bob")) [Answer 1 (Throw (new_error (js "offline"))); Escape] N ltac:(repeat constructor)) as B.
  vm_compute in A, B. vm_compute. exact (conj A B).
Defined.
End Runs.
