(* ===== verification/Payouts.v ===== *)
(** * The payouts page (dashboard)

    Model of [dashboard/app/dashboard/payouts/page.tsx] without its upload tab, which is
    Disbursement.v: the payout request form and its amounts (module Request), the figures of the
    batch tab and the hooks the page calls (Batches), the retry of failed recipients (Retry) and the
    badge of the disbursement platform (SdpBadge). *)

From S2P Require Import Prelude JsString JsNumber JsRound UriCodec JsDate Json Tables Effects Scripts Decode DashboardApi DashboardShell.

(** ** Requesting a payout *)

Module Request.
Import DashboardShell.Polling.

Record payout_form := PayoutForm { pf_amount : str; pf_asset : str; pf_bankAccountId : str; pf_anchorId : str }.

Definition assets : list str := [js "USDC"; js "USDT"; js "XLM"].

(** [form.reset()]: the first option is the default. *)
Definition empty_form : payout_form := PayoutForm [] (js "USDC") [] [].

(** [String(Math.round(Number(amount) * 1_000_000))] *)
Definition request_amount (amount : str) : str := num_to_str (num_round (num_mul (Number amount) (num_of_Z 1000000))).

(** [(Number(p.amount) / 1_000_000).toFixed(2)] *)
Definition history_amount (amount : str) : str := num_to_fixed 2 (num_div (Number amount) (num_of_Z 1000000)).

Definition payout_request (f : payout_form) : PayoutRequest :=
  MkPayoutRequest (request_amount (pf_amount f)) (pf_asset f) (pf_bankAccountId f) (pf_anchorId f).

Record history_tab := HistoryTab { ht_form : payout_form; ht_payouts : poll json }.

Definition reset_form (s : history_tab) : history_tab := HistoryTab empty_form (ht_payouts s).
Definition refreshed (r : res json) (s : history_tab) : history_tab := HistoryTab (ht_form s) (poll_settled r (ht_payouts s)).

Section Submit.
Context `{DashEnv, Browser, Multipart, Host W}.
Abbreviation tab := (M (history_tab * (api_state * W))).

(** The promise of [m], settled. *)
Definition attempt {P A} (m : M P A) : M P (res A) := λ w, let '(r, w') := m w in (Ok r, w').

Definition refreshPayouts : tab unit :=
  r ← host (attempt (payoutHistory (Some (num_of_Z 20)) (Some (num_of_Z 0))));
  modify_state (refreshed r).

Definition handleSubmitPayout : tab unit :=
  s ← get_state;
  try_catch
    (_ ← host (requestPayout (payout_request (ht_form s)));
     modify_state reset_form;;
     refreshPayouts)
    (λ _, mret tt).
End Submit.

(** *** Properties *)

Lemma million : num_of_Z 1000000 = Fin 1000000 0.
Proof. vm_compute. reflexivity. Qed.

(** Two decimals, as read, come out of the product as whole millionths. *)
Lemma micros_exact k : (0 <= k <= 10 ^ 11)%Z → num_round (num_mul (round_ratio k 100) (num_of_Z 1000000)) = Fin (k * 10000) 0.
Proof.
  intros Hk. rewrite million. destruct (Z.eq_dec k 0) as [->|Hk0]; [vm_compute; reflexivity|].
  destruct (round_ratio_error 30 k 100) as (m & e & -> & He & Hm & E1); [lia..|].
  cbn [num_mul]. change (2 ^ (- 0))%Z with 1%Z. rewrite Z.mul_1_r.
  assert (P : (0 < 2 ^ (- e))%Z) by (apply Z.pow_pos_nonneg; lia). set (E := (2 ^ (- e))%Z) in *.
  change (2 ^ (54 - 30))%Z with 16777216%Z in E1.
  destruct (round_ratio_error 50 (m * 1000000) E) as (m' & e' & -> & He' & _ & E2).
  - lia.
  - assert (m ≠ 0)%Z; [|lia]. intros ->. nia.
  - lia.
  - change (2 ^ 50)%Z with 1125899906842624%Z. nia.
  - apply num_round_near; [done|]. assert (P' : (0 < 2 ^ (- e'))%Z) by (apply Z.pow_pos_nonneg; lia). set (E' := (2 ^ (- e'))%Z) in *.
    change (2 ^ (54 - 50))%Z with 16%Z in E2.
    assert (T : (Z.abs ((m' - k * 10000 * E') * E) <= Z.abs (m' * E - m * 1000000 * E') + 10000 * E' * Z.abs (m * 100 - k * E))%Z).
    { rewrite <-(Z.abs_eq (10000 * E')) by lia. rewrite <-Z.abs_mul. etrans; [|apply Z.abs_triangle]. apply Z.eq_le_incl. f_equal. ring. }
    rewrite Z.abs_mul, (Z.abs_eq E) in T by lia.
    set (X := Z.abs (m' - k * 10000 * E')) in *. set (Y := Z.abs (m' * E - m * 1000000 * E')) in *. set (Q := Z.abs (m * 100 - k * E)) in *.
    assert (0 <= Q)%Z by (unfold Q; lia). clearbody X Y Q. 
    assert (16777216 * (10000 * E' * Q) <= 1000000 * (E * E'))%Z by nia.
    assert (16777216 * (X * E) <= 1048576 * (E * E') + 1000000 * (E * E'))%Z by nia.
    nia.
Qed.

(** C38: An amount of up to a thousand million with two decimals is requested as exactly
    its millionths, and the history shows that request again as it was entered. *)
Theorem payout_amount_exact k : (0 <= k <= 10 ^ 11)%Z →
  request_amount (fixed_text 2 k) = Z_to_str (k * 10000) ∧
  history_amount (request_amount (fixed_text 2 k)) = fixed_text 2 k.
Proof.
  intros Hk. assert (R : request_amount (fixed_text 2 k) = Z_to_str (k * 10000)).
  { unfold request_amount. rewrite Number_fixed_text by lia. change (10 ^ Z.of_nat 2)%Z with 100%Z.
    rewrite micros_exact by done. apply num_to_str_int. lia. }
  split; [done|]. rewrite R. unfold history_amount. rewrite million.
  assert (Z_to_str (k * 10000) = N_to_str (Z.to_N (k * 10000))) as -> by (unfold Z_to_str; by destruct (k * 10000)%Z eqn:E; [| |lia]).
  rewrite Number_nat, Z2N.id by lia. rewrite num_of_Z_safe by (unfold safe_int; lia).
  change (num_to_fixed 2 (round_ratio (1 * (k * 10000 * 1)) 1000000) = fixed_text 2 k). rewrite Z.mul_1_r, Z.mul_1_l.
  assert (round_ratio (k * 10000) 1000000 = round_ratio k 100) as ->; [|by apply to_fixed_decimal; lia].
  destruct (Z.eq_dec k 0) as [->|]; [done|]. apply round_ratio_scale with (10 ^ 11)%Z; lia.
Qed.

Section SubmitSpec.
Context `{DashEnv, Browser, Multipart, Host W}.

(** A failed request leaves the form as it is and shows nothing: the history's error is
    untouched. A successful one empties the form and shows what the history then answers. *)
Theorem failed_payout_silent s (a : api_state) (w : W) :
  let '(r, aw) := requestPayout (payout_request (ht_form s)) (a, w) in
  match r with
  | Throw _ => handleSubmitPayout (s, (a, w)) = (Ok tt, (s, aw))
  | Ok _ =>
      let '(h, aw2) := payoutHistory (Some (num_of_Z 20)) (Some (num_of_Z 0)) aw in
      handleSubmitPayout (s, (a, w)) = (Ok tt, (HistoryTab empty_form (poll_settled h (ht_payouts s)), aw2))
  end.
Proof.
  destruct (requestPayout (payout_request (ht_form s)) (a, w)) as [r aw] eqn:E.
  pose proof (run_host _ s _ _ _ E) as R. unfold handleSubmitPayout. destruct r as [v|e].
  - destruct (payoutHistory (Some (num_of_Z 20)) (Some (num_of_Z 0)) aw) as [h aw2] eqn:Eh.
    rewrite (run_bind_ok _ _ _ _ _ (run_get_state s (a, w))). unfold try_catch.
    rewrite (run_bind_ok _ _ _ _ _ R), (run_bind_ok _ _ _ _ _ (run_modify_state reset_form s aw)). unfold refreshPayouts.
    assert (attempt (payoutHistory (Some (num_of_Z 20)) (Some (num_of_Z 0))) aw = (Ok h, aw2)) as Ea by (unfold attempt; by rewrite Eh).
    by rewrite (run_bind_ok _ _ _ _ _ (run_host _ _ _ _ _ Ea)).
  - rewrite (run_bind_ok _ _ _ _ _ (run_get_state s (a, w))). unfold try_catch. by rewrite (run_bind_throw _ _ _ _ _ R).
Qed.
End SubmitSpec.
End Request.

(** ** Batches *)

Module Batches.
Record BatchPayout := MkBatch {
  ba_id : str; ba_status : str; ba_currency : str; ba_total_recipients : num; ba_total_amount : num;
  ba_succeeded_count : num; ba_failed_count : num; ba_created_at : str; ba_started_at : option str; ba_completed_at : option str;
}.

(** [x || 0] *)
Definition or_zero (x : num) : num := if num_truthy x then x else Fin 0 0.

(** [batches.reduce((sum, b) => sum + (b.f || 0), 0)] *)
Definition sum_by (f : BatchPayout → num) (batches : list BatchPayout) : num :=
  foldl (λ sum b, num_add sum (or_zero (f b))) (Fin 0 0) batches.

Definition totalRecipients (batches : list BatchPayout) : num := sum_by ba_total_recipients batches.
Definition totalSucceeded (batches : list BatchPayout) : num := sum_by ba_succeeded_count batches.
Definition totalVolume (batches : list BatchPayout) : num := num_div (sum_by ba_total_amount batches) (num_of_Z 1000000).

Definition successRate (batches : list BatchPayout) : num :=
  if num_ltb (Fin 0 0) (totalRecipients batches) then num_div (totalSucceeded batches) (totalRecipients batches) else Fin 0 0.

Definition ring_sublabel (batches : list BatchPayout) : str :=
  num_to_str (totalSucceeded batches) ++ js " of " ++ num_to_str (totalRecipients batches) ++ js " recipients".

(** [ProgressRing]: the clamped share and the percentage in the middle. *)
Definition clamped (percent : num) : num := num_max (Fin 0 0) (num_min (Fin 1 0) percent).
Definition ring_text (percent : num) : str := num_to_str (num_round (num_mul (clamped percent) (num_of_Z 100))) ++ js "%".

(** [skeletonRows(rows, cols)]: how many cells. *)
Definition skeletonRows (rows cols : nat) : list (list unit) := replicate rows (replicate cols tt).

(** *** The hooks of the page

    In the order they are called: a state cell, a ref or an effect each. *)
Inductive hook := HState | HRef | HEffect.

(** [usePolling]: data, loading, error, the timer and the effect. *)
Definition polling_hooks : list hook := [HState; HState; HState; HRef; HEffect].

Inductive PayoutTab := THistory | TBatch | TSdp.
Record page := MkPage { pg_tab : PayoutTab; pg_selectedBatch : option str }.

Definition initial_page : page := MkPage THistory None.
Definition choose_tab (t : PayoutTab) (s : page) : page := MkPage t None.
Definition select_batch (id : str) (s : page) : page := MkPage (pg_tab s) (Some id).
Definition close_batch (s : page) : page := MkPage (pg_tab s) None.

(** [selectedBatch ? usePolling(...) : { data: null }] *)
Definition page_hooks (s : page) : list hook :=
  [HState; HState] ++ polling_hooks ++ polling_hooks ++ (if truthy_opt (pg_selectedBatch s) then polling_hooks else []).

(** *** Properties *)

Definition counts (f : BatchPayout → num) (n : BatchPayout → Z) (b : BatchPayout) : Prop := f b = Fin (n b) 0 ∧ (0 <= n b)%Z.

Definition total (n : BatchPayout → Z) (batches : list BatchPayout) : Z := foldr Z.add 0%Z (n <$> batches).

Lemma sum_by_exact f n batches : Forall (counts f n) batches → (total n batches < 2 ^ 53)%Z →
  sum_by f batches = Fin (total n batches) 0 ∧ (0 <= total n batches)%Z.
Proof.
  intros F B. assert (N : ∀ l, Forall (counts f n) l → (0 <= total n l)%Z).
  { clear. intros l F. induction F as [|b l [_ N] F IH]; cbn in *; [done|unfold total in IH; lia]. }
  split; [|by apply N]. unfold sum_by.
  assert (G : ∀ acc, (0 <= acc)%Z → (acc + total n batches < 2 ^ 53)%Z →
    foldl (λ sum b, num_add sum (or_zero (f b))) (Fin acc 0) batches = Fin (acc + total n batches) 0).
  { clear B. induction F as [|b l [E Nb] F IH]; intros acc Ha B; cbn [total fmap list_fmap foldr foldl] in *; [by rewrite Z.add_0_r|].
    pose proof (N l F) as Nl. unfold total in Nl, IH.
    assert (or_zero (f b) = Fin (n b) 0) as ->.
    { unfold or_zero. rewrite E. cbn. destruct (Z.eqb_spec (n b) 0) as [->|]; done. }
    assert (num_add (Fin acc 0) (Fin (n b) 0) = Fin (acc + n b) 0) as ->.
    { cbn. rewrite !Z.mul_1_r. apply num_of_Z_safe. unfold safe_int. lia. }
    rewrite IH; [f_equal; lia|lia|lia]. }
  rewrite (G 0%Z) by lia. done.
Qed.

Lemma clamped_between x : is_nan x = false → (match x with Fin _ e => e <= 0 | _ => True end)%Z → between 0 1 (clamped x).
Proof.
  intros Hn He. unfold clamped, num_max, num_min. rewrite Hn. cbn [is_nan orb].
  assert (between 0 1 (Fin 0 0) ∧ between 0 1 (Fin 1 0)) as [B0 B1] by (vm_compute; repeat split; discriminate).
  destruct x as [|[]|m e]; [done|exact B0|exact B1|]. assert (0 < 2 ^ (- e))%Z by (apply Z.pow_pos_nonneg; lia).
  destruct (num_ltb (Fin m e) (Fin 1 0)) eqn:L1.
  - cbn [is_nan orb]. destruct (num_ltb (Fin 0 0) (Fin m e)) eqn:L0; [|exact B0].
    unfold num_ltb in L0, L1. rewrite Z.ltb_lt in L0, L1. change (2 ^ (- 0))%Z with 1%Z in *. split; lia.
  - exact B1.
Qed.

(** The middle of the ring is a whole percentage from 0 to 100, whatever share it is given. *)
Lemma ring_bounds x : is_nan x = false → (match x with Fin _ e => e <= 0 | _ => True end)%Z →
  ∃ k, (0 <= k <= 100)%Z ∧ ring_text x = Z_to_str k ++ js "%".
Proof.
  intros Hn He. pose proof (clamped_between x Hn He) as B. unfold ring_text.
  assert (num_of_Z 100 = Fin 100 0) as -> by (vm_compute; reflexivity).
  assert (between 0 100 (num_mul (clamped x) (Fin 100 0))) as B2.
  { change 100%Z with (1 * 100)%Z at 1. apply num_mul_between; [exact B|cbn; lia|lia]. }
  destruct (num_mul (clamped x) (Fin 100 0)) as [| |m e]; [done..|]. destruct B2 as [He2 Hm].
  assert (0 < 2 ^ (- e))%Z by (apply Z.pow_pos_nonneg; lia).
  exists (fixed_units 0 m e). assert (0 <= fixed_units 0 m e <= 100)%Z as Hk.
  { unfold fixed_units. change (10 ^ Z.of_nat 0)%Z with 1%Z. split; [apply Z.div_le_lower_bound; lia|].
    apply Z.lt_succ_r, Z.div_lt_upper_bound; lia. }
  split; [done|]. unfold num_round. by rewrite num_to_str_int by lia.
Qed.

(** While the totals stay below [2^53], the counts under the ring are the exact sums,
    and the ring shows a whole percentage from 0 to 100, which is 100 when every recipient was paid. *)
Theorem batch_figures total_of paid_of batches :
  Forall (counts ba_total_recipients total_of) batches → Forall (counts ba_succeeded_count paid_of) batches →
  (total total_of batches < 2 ^ 53)%Z → (total paid_of batches < 2 ^ 53)%Z →
  ring_sublabel batches = Z_to_str (total paid_of batches) ++ js " of " ++ Z_to_str (total total_of batches) ++ js " recipients" ∧
  (∃ k, (0 <= k <= 100)%Z ∧ ring_text (successRate batches) = Z_to_str k ++ js "%") ∧
  ((0 < total total_of batches)%Z → total paid_of batches = total total_of batches → ring_text (successRate batches) = js "100%").
Proof.
  intros Ft Fp Bt Bp. destruct (sum_by_exact _ _ _ Ft Bt) as [Et Nt], (sum_by_exact _ _ _ Fp Bp) as [Ep Np].
  unfold ring_sublabel, successRate, totalRecipients, totalSucceeded. rewrite Et, Ep, !num_to_str_int by lia.
  split; [done|]. split.
  - destruct (num_ltb _ _) eqn:L; [|exists 0%Z; split; [lia|vm_compute; reflexivity]]. cbn in L.
    unfold num_div. rewrite (proj2 (Z.eqb_neq _ _)) by lia. apply ring_bounds.
    + apply round_ratio_not_nan.
    + apply round_ratio_exponent.
  - intros Hp ->. set (t := total total_of batches) in *.
    assert (num_ltb (Fin 0 0) (Fin t 0) = true) as -> by (apply Z.ltb_lt; change (2 ^ (- 0))%Z with 1%Z; lia).
    rewrite num_div_self by lia. vm_compute. reflexivity.
Qed.

(** The number of hooks of a render depends on the selected batch: selecting one calls
    five more than the render before, and closing it five fewer, which the rules of hooks forbid between
    renders of one component. *)
Theorem selection_changes_hooks s id : truthy id = true →
  (truthy_opt (pg_selectedBatch s) = false → length (page_hooks (select_batch id s)) = length (page_hooks s) + 5) ∧
  (truthy_opt (pg_selectedBatch s) = true →
     length (page_hooks s) = length (page_hooks (close_batch s)) + 5 ∧ ∀ t, length (page_hooks s) = length (page_hooks (choose_tab t s)) + 5).
Proof.
  intros Hid. unfold page_hooks. rewrite !length_app. cbn [pg_selectedBatch select_batch close_batch choose_tab truthy_opt]. rewrite Hid.
  split; intros ->; [|split; [|intros t]]; reflexivity.
Qed.
End Batches.

(** ** Retrying a recipient *)

Module Retry.
Record BatchRecipient := MkRecipient {
  re_id : str; re_user_id : option str; re_destination_address : option str; re_amount : num; re_status : str;
  re_tx_hash : option str; re_attempt_count : num; re_created_at : str;
}.

Definition with_status (st : str) (r : BatchRecipient) : BatchRecipient :=
  MkRecipient (re_id r) (re_user_id r) (re_destination_address r) (re_amount r) st (re_tx_hash r) (re_attempt_count r) (re_created_at r).

(** What [retryBatchItem] answers. *)
Record retry_answer := MkAnswer { an_status : option str; an_recipient : option BatchRecipient }.

(** The modal, and the positions whose retry is awaited. *)
Record modal := MkModal {
  mo_rows : list BatchRecipient;
  mo_retryingIndex : option nat;
  mo_retryError : option str;
  mo_awaited : list nat;
}.

Definition opened (recipients : list BatchRecipient) : modal := MkModal recipients None None [].

(** [setRows((prev) => prev.map((row, i) => i === itemIndex ? f(row) : row))] *)
Definition update_row (itemIndex : nat) (f : BatchRecipient → BatchRecipient) (rows : list BatchRecipient) : list BatchRecipient :=
  alter f itemIndex rows.

Definition handleRetry (itemIndex : nat) (s : modal) : modal :=
  MkModal (update_row itemIndex (with_status (js "retrying")) (mo_rows s)) (Some itemIndex) None (mo_awaited s ++ [itemIndex]).

Definition answered (a : retry_answer) (row : BatchRecipient) : BatchRecipient :=
  match an_recipient a with
  | Some r => r
  | None => with_status (default (js "pending") (an_status a)) row
  end.

(** The [k]-th awaited retry settles. *)
Definition retry_settled (k : nat) (r : res retry_answer) (s : modal) : modal :=
  match mo_awaited s !! k with
  | None => s
  | Some itemIndex =>
      match r with
      | Ok a => MkModal (update_row itemIndex (answered a) (mo_rows s)) None (mo_retryError s) (delete k (mo_awaited s))
      | Throw e => MkModal (update_row itemIndex (with_status (js "failed")) (mo_rows s)) None (Some (err_message e)) (delete k (mo_awaited s))
      end
  end.

(** The effect on [recipients]: the rows of a poll replace those shown. *)
Definition polled (recipients : list BatchRecipient) (s : modal) : modal :=
  MkModal recipients (mo_retryingIndex s) (mo_retryError s) (mo_awaited s).

(** A position is there no more once its only occurrence is deleted. *)
Lemma delete_other (l : list nat) k i j : NoDup l → l !! k = Some i → j ∈ delete k l → j ≠ i.
Proof.
  intros N E Hj ->. apply list_elem_of_lookup in Hj as [m Hm]. rewrite NoDup_alt in N.
  destruct (decide (m < k)) as [Hlt|Hge].
  - rewrite list_lookup_delete_lt in Hm by done. pose proof (N _ _ _ Hm E). lia.
  - rewrite list_lookup_delete_ge in Hm by lia. pose proof (N _ _ _ Hm E). lia.
Qed.

Section Buttons.
Context `{UnicodeCase}.

Definition failed_status (st : str) : bool := str_eqb (to_lower st) (js "failed").

(** The button of a row is there and enabled. *)
Definition can_retry (itemIndex : nat) (s : modal) : bool :=
  match mo_rows s !! itemIndex with
  | Some r => failed_status (re_status r) && negb (bool_decide (mo_retryingIndex s = Some itemIndex))
  | None => false
  end.

Inductive event := ERetry (itemIndex : nat) | ESettled (k : nat) (r : res retry_answer) | EPoll (recipients : list BatchRecipient).

Definition step (s : modal) (e : event) : modal :=
  match e with
  | ERetry i => if can_retry i s then handleRetry i s else s
  | ESettled k r => retry_settled k r s
  | EPoll rows => polled rows s
  end.

Definition run (s : modal) (es : list event) : modal := foldl step s es.

(** *** Properties *)

Lemma retried i s : can_retry i s = true → step s (ERetry i) = handleRetry i s.
Proof. cbn [step]. by intros ->. Qed.

Definition not_poll (e : event) : bool := match e with EPoll _ => false | _ => true end.

(** Every awaited position is there once, and its row does not offer another retry. *)
Record retry_ok (s : modal) : Prop := {
  ro_once : NoDup (mo_awaited s);
  ro_busy : ∀ i, i ∈ mo_awaited s → ∃ r, mo_rows s !! i = Some r ∧ failed_status (re_status r) = false;
}.

Lemma step_retry_ok s e : not_poll e = true → retry_ok s → retry_ok (step s e).
Proof.
  intros N [O B]. destruct e as [i|k r|rows]; [| |done]; cbn [step].
  - unfold can_retry. destruct (mo_rows s !! i) as [row|] eqn:E; [|by split].
    destruct (failed_status (re_status row)) eqn:F; [|by split]. cbn [andb].
    destruct (negb _); [|by split]. split; cbn.
    + apply NoDup_app. split; [done|]. split; [|apply NoDup_singleton]. intros j Hj ->%list_elem_of_singleton.
      destruct (B i Hj) as (r & E' & F'). congruence.
    + intros j [Hj| ->%list_elem_of_singleton]%elem_of_app.
      * destruct (B j Hj) as (r & E' & F'). exists r. split; [|done]. unfold update_row. rewrite list_lookup_alter_ne; [done|]. intros ->. congruence.
      * exists (with_status (js "retrying") row). unfold update_row. rewrite list_lookup_alter_eq, E. split; reflexivity.
  - unfold retry_settled. destruct (mo_awaited s !! k) as [i|] eqn:Ek; [|by split].
    assert (K : ∀ f e, retry_ok (MkModal (update_row i f (mo_rows s)) None e (delete k (mo_awaited s)))).
    { intros f e. split; cbn.
      - eapply sublist_NoDup; [exact O|apply sublist_delete].
      - intros j Hj. assert (j ≠ i) as Hne by (by eapply delete_other). unfold update_row. rewrite list_lookup_alter_ne by congruence.
        apply B. eapply list_elem_of_delete_inv. exact Hj. }
    destruct r; apply K.
Qed.

(** Between two polls of the batch, no recipient is retried again before the retry of
    it that is on its way has settled. *)
Theorem one_retry_at_a_time rows es : forallb not_poll es = true → NoDup (mo_awaited (run (opened rows) es)).
Proof.
  assert (G : ∀ es s, retry_ok s → forallb not_poll es = true → retry_ok (run s es)).
  { clear. unfold run. induction es as [|e es IH]; intros s I N; [done|]. cbn in *. apply andb_true_iff in N as [N1 N2].
    by apply IH; [apply step_retry_ok|]. }
  intros N. apply (G es (opened rows)); [split; [apply NoDup_nil_2|by intros i ?%elem_of_nil]|done].
Qed.

(** A poll puts the server's rows back, and one index is all that marks the rows in
    flight: with a second retry begun, the first recipient can be sent a second time while its first
    retry is unanswered. *)
Theorem poll_allows_second_retry a b :
  failed_status (re_status a) = true → failed_status (re_status b) = true →
  mo_awaited (run (opened [a; b]) [ERetry 0; EPoll [a; b]; ERetry 1; ERetry 0]) = [0; 1; 0].
Proof.
  intros Fa Fb.
  assert (S1 : step (opened [a; b]) (ERetry 0) = handleRetry 0 (opened [a; b])) by (apply retried; unfold can_retry; cbn; by rewrite Fa).
  set (s2 := polled [a; b] (handleRetry 0 (opened [a; b]))).
  assert (S3 : step s2 (ERetry 1) = handleRetry 1 s2) by (apply retried; unfold can_retry; cbn; by rewrite Fb).
  assert (S4 : step (handleRetry 1 s2) (ERetry 0) = handleRetry 0 (handleRetry 1 s2)) by (apply retried; unfold can_retry; cbn; by rewrite Fa).
  unfold run. cbn [foldl]. rewrite S1. change (step (handleRetry 0 (opened [a; b])) (EPoll [a; b])) with s2. by rewrite S3, S4.
Qed.

(** The answer of a retry replaces the row at the position that was pressed, whatever
    recipient a poll has put there: one is shown twice and the other not at all. *)
Theorem answer_replaces_position a b a' :
  failed_status (re_status a) = true →
  mo_rows (run (opened [a; b]) [ERetry 0; EPoll [b; a]; ESettled 0 (Ok (MkAnswer None (Some a')))]) = [a'; a].
Proof.
  intros Fa.
  assert (S1 : step (opened [a; b]) (ERetry 0) = handleRetry 0 (opened [a; b])) by (apply retried; unfold can_retry; cbn; by rewrite Fa).
  unfold run. cbn [foldl]. by rewrite S1.
Qed.
End Buttons.
End Retry.

(** ** The badge of the disbursement platform *)

Module SdpBadge.
Import DashboardShell.Polling.

Inductive label := Checking | Synced | Syncing | Degraded | Offline.

Section Badge.
Context `{UnicodeCase}.

(** [data.status?.toLowerCase()] for a status of the declared type. *)
Definition lower_status (data : json) : option str := to_lower <$> field_str (js "status") data.

Definition status_is (p : poll json) (names : list str) : bool :=
  negb (truthy_opt (pl_error p))
  && match pl_data p with
     | Some v => json_truthy (Some v) && match lower_status v with Some s => existsb (str_eqb s) names | None => false end
     | None => false
     end.

Definition isSynced (p : poll json) : bool := status_is p [js "operational"; js "synced"; js "ok"].
Definition isSyncing (p : poll json) : bool := status_is p [js "syncing"].
Definition isDegraded (p : poll json) : bool := status_is p [js "degraded"].

Definition badge_label (p : poll json) : label :=
  if pl_loading p && negb (json_truthy (pl_data p)) then Checking
  else if isSynced p then Synced
  else if isSyncing p then Syncing
  else if isDegraded p then Degraded
  else Offline.

(** The label for an answered status. *)
Definition label_of (status : str) : label :=
  let s := to_lower status in
  if existsb (str_eqb s) [js "operational"; js "synced"; js "ok"] then Synced
  else if str_eqb s (js "syncing") then Syncing
  else if str_eqb s (js "degraded") then Degraded else Offline.

(** After any polls the badge tells the last answer only: a failure with a message, an
    answer without a status and an unknown status all read "Offline", in any letter case. *)
Theorem badge_of_last_answer (rs : list (res json)) r :
  (∀ e, r = Throw e → truthy (err_message e) = true) →
  badge_label (poll_run (rs ++ [r])) = match r with
    | Throw _ => Offline
    | Ok v => match field_str (js "status") v with Some s => label_of s | None => Offline end
    end.
Proof.
  intros Hm. unfold poll_run. rewrite foldl_app. cbn [foldl]. set (s := foldl _ initial_poll rs).
  unfold badge_label, isSynced, isSyncing, isDegraded, status_is. destruct r as [v|e]; cbn [poll_settled pl_loading pl_data pl_error andb truthy_opt].
  - unfold lower_status, label_of. destruct (field_str (js "status") v) as [st|] eqn:E; cbn [fmap option_fmap option_map].
    + assert (json_truthy (Some v) = true) as -> by (by destruct v). cbn [andb negb existsb]. by rewrite !orb_false_r.
    + by rewrite !andb_false_r.
  - rewrite (Hm e eq_refl). reflexivity.
Qed.
End Badge.
End SdpBadge.

(** ** Concrete runs *)

Module Runs.
Import DashboardShell.Polling.
#[local] Existing Instance ascii_case.

Lemma payout_amount_exact_witness : Request.request_amount (fixed_text 2 1999) = js "19990000" ∧
  Request.history_amount (Request.request_amount (fixed_text 2 1999)) = js "19.99".
Proof. destruct (Request.payout_amount_exact 1999) as [E1 E2]; [lia|]. rewrite E2, E1. split; vm_compute; reflexivity. Defined.

Definition batch (n m : Z) : Batches.BatchPayout :=
  Batches.MkBatch (js "b") (js "completed") (js "USDC") (Fin n 0) (Fin 1000000 0) (Fin m 0) (Fin (n - m) 0) (js "2026-01-02T00:00:00.000Z") None None.

Lemma batch_figures_witness : Batches.ring_sublabel [batch 3 2; batch 1 0] = js "2 of 4 recipients".
Proof.
  destruct (Batches.batch_figures (λ b, match Batches.ba_total_recipients b with Fin z _ => z | _ => 0%Z end)
    (λ b, match Batches.ba_succeeded_count b with Fin z _ => z | _ => 0%Z end) [batch 3 2; batch 1 0]) as (E & _ & _).
  - repeat constructor; cbn; lia.
  - repeat constructor; cbn; lia.
  - vm_compute. reflexivity.
  - vm_compute. reflexivity.
  - rewrite E. vm_compute. reflexivity.
Defined.

(** One failure among three hundred still rounds to the full ring. *)
Example rounded_up : Batches.ring_text (Batches.successRate [batch 300 299]) = js "100%".
Proof. vm_compute. reflexivity. Qed.

Lemma selection_changes_hooks_witness :
  length (Batches.page_hooks (Batches.select_batch (js "b1") Batches.initial_page)) = length (Batches.page_hooks Batches.initial_page) + 5.
Proof. apply (Batches.selection_changes_hooks Batches.initial_page (js "b1")); reflexivity. Defined.

Definition recipient (id st : str) : Retry.BatchRecipient := Retry.MkRecipient id None None (Fin 5 0) st None (Fin 1 0) [].
Definition ann : Retry.BatchRecipient := recipient (js "ann") (js "Failed").
Definition bob : Retry.BatchRecipient := recipient (js "bob") (js "failed").

Lemma one_retry_at_a_time_witness : NoDup (Retry.mo_awaited (Retry.run (Retry.opened [ann; bob]) [Retry.ERetry 0; Retry.ERetry 1; Retry.ERetry 0])).
Proof. apply (Retry.one_retry_at_a_time [ann; bob]). reflexivity. Defined.

Lemma poll_allows_second_retry_witness :
  Retry.mo_awaited (Retry.run (Retry.opened [ann; bob]) [Retry.ERetry 0; Retry.EPoll [ann; bob]; Retry.ERetry 1; Retry.ERetry 0]) = [0; 1; 0].
Proof. apply (Retry.poll_allows_second_retry ann bob); vm_compute; reflexivity. Defined.

Lemma answer_replaces_position_witness :
  Retry.mo_rows (Retry.run (Retry.opened [ann; bob]) [Retry.ERetry 0; Retry.EPoll [bob; ann];
    Retry.ESettled 0 (Ok (Retry.MkAnswer None (Some (recipient (js "ann") (js "sent")))))]) = [recipient (js "ann") (js "sent"); ann].
Proof. apply (Retry.answer_replaces_position ann bob). vm_compute. reflexivity. Defined.

Lemma badge_of_last_answer_witness :
  SdpBadge.badge_label (poll_run [Throw sc_offline; Ok (JObj [(js "status", JStr (js "OK"))])]) = SdpBadge.Synced.
Proof.
  etrans; [apply (SdpBadge.badge_of_last_answer [Throw sc_offline] (Ok (JObj [(js "status", JStr (js "OK"))]))); discriminate|].
  vm_compute. reflexivity.
Defined.
End Runs.
