(* ===== verification/PayoutTables.v ===== *)
(** * The tables of the payouts page

    What [dashboard/app/dashboard/payouts/page.tsx] shows of its data: the payout history, the batches, the
    dialog of a batch with its recipients (module Batch), the disbursements and the log of one of them (module
    Sdp), over the states of Payouts. [date-fns]' [format] and the number format of the browser are parameters;
    [format] throws on a text that is no date, and then the whole page does not render ([None]). *)

From S2P Require Import Prelude JsString JsNumber JsRound UriCodec Json Effects Decode Scripts DashboardShell Payouts.

(** ** Tables *)

(** [format(new Date(text), pattern)]; [None] when it throws. *)
Class DateFormat := format_date : str → str → option str.
(** [x.toLocaleString()] *)
Class NumberFormat := locale_number : num → str.

(** A table body: placeholders, one line of text, or rows of cells. *)
Inductive table := Skeleton (rows cols : nat) | Line (text : str) | Rows (cells : list (list str)).

Definition ellipsis : str := [8230%N].
Definition short (n : nat) (s : str) : str := take n s ++ ellipsis.

Section Tables.
Context {A : Type}.
Variables (row : A → option (list str)) (skeleton : nat * nat) (empty : str).

(** [loading && items.length === 0 ? skeleton : items.length === 0 ? line : rows]; [None]: the render throws. *)
Definition table_of (loading : bool) (items : list A) : option table :=
  match items with
  | [] => Some (if loading then Skeleton skeleton.1 skeleton.2 else Line empty)
  | _ => Rows <$> mapM row items
  end.

(** A table renders all its rows in order or takes the page down with one of them. *)
Lemma table_of_rows loading items : items ≠ [] →
  (∀ cells, table_of loading items = Some (Rows cells) ↔ Forall2 (λ x c, row x = Some c) items cells) ∧
  (table_of loading items = None ↔ Exists (λ x, row x = None) items).
Proof.
  intros Hne. assert (E : table_of loading items = Rows <$> mapM row items) by by destruct items. rewrite E. split.
  - intros cells. rewrite <-mapM_Some. destruct (mapM row items); cbn; naive_solver.
  - rewrite <-mapM_None. by destruct (mapM row items).
Qed.
End Tables.

(** ** Payouts and batches *)

Module Batch.
Import Payouts.Batches Payouts.Retry.

Record Payout := MkPayout { po_id : str; po_createdAt : str; po_amount : str; po_asset : str; po_status : str; po_anchorId : str }.

Section Views.
Context `{DateFormat, NumberFormat}.

Definition history_headings : list str := [js "ID"; js "Date"; js "Amount"; js "Asset"; js "Status"; js "Anchor"].
Definition history_row (p : Payout) : option (list str) :=
  d ← format_date (js "MMM d, yyyy") (po_createdAt p);
  Some [short 8 (po_id p); d; Request.history_amount (po_amount p); po_asset p; po_status p; po_anchorId p].
Definition history_table (loading : bool) (payouts : list Payout) : option table :=
  table_of history_row (5, 6) (js "No payouts yet") loading payouts.

Definition millions (x : num) : str := locale_number (num_div x (num_of_Z 1000000)).

Definition batch_headings : list str := [js "Batch ID"; js "Date"; js "Recipients"; js "Total"; js "Status"; js "Results"].
Definition batch_row (b : BatchPayout) : option (list str) :=
  d ← format_date (js "MMM d, yyyy HH:mm") (ba_created_at b);
  Some [short 8 (ba_id b); d; num_to_str (ba_total_recipients b); millions (ba_total_amount b) ++ js " " ++ ba_currency b; ba_status b;
        num_to_str (ba_succeeded_count b) ++ js " succeeded, " ++ num_to_str (ba_failed_count b) ++ js " failed"].
Definition batch_table (loading : bool) (batches : list BatchPayout) : option table :=
  table_of batch_row (5, 6) (js "No batch disbursements yet") loading batches.

(** A cell shown only when its date is given. *)
Definition dated (label pattern : str) (o : option str) : option (list (str * str)) :=
  match o with
  | Some t => if truthy t then (λ d, [(label, d)]) <$> format_date pattern t else Some []
  | None => Some []
  end.

(** The cells at the head of the dialog: label and value. *)
Definition info_cells (b : BatchPayout) : option (list (str * str)) :=
  created ← format_date (js "MMM d, yyyy HH:mm") (ba_created_at b);
  started ← dated (js "Started") (js "MMM d, HH:mm") (ba_started_at b);
  completed ← dated (js "Completed") (js "MMM d, HH:mm") (ba_completed_at b);
  Some ([(js "Batch ID", ba_id b); (js "Status", ba_status b); (js "Currency", ba_currency b);
         (js "Total Recipients", num_to_str (ba_total_recipients b));
         (js "Total Amount", millions (ba_total_amount b) ++ js " " ++ ba_currency b); (js "Created", created);
         (js "Succeeded", num_to_str (ba_succeeded_count b)); (js "Failed", num_to_str (ba_failed_count b))]
        ++ started ++ completed).

Definition recipient_headings : list str := [js "Status"; js "Amount"; js "Destination"; js "Attempts"; js "Tx Hash"; js "Action"].

(** [a || b || "N/A"] *)
Definition first_given (a b : option str) : str :=
  if truthy_opt a then default [] a else if truthy_opt b then default [] b else js "N/A".

(** The button of a row: its label and whether it is disabled. *)
Definition retry_button `{UnicodeCase} (s : modal) (index : nat) (r : BatchRecipient) : option (str * bool) :=
  if failed_status (re_status r) then
    let busy := bool_decide (mo_retryingIndex s = Some index) in
    Some (if busy then js "Retrying" ++ ellipsis else js "Retry", busy)
  else None.

Definition recipient_row `{UnicodeCase} (s : modal) (index : nat) (r : BatchRecipient) : list str * option (str * bool) :=
  ([re_status r; millions (re_amount r); first_given (re_destination_address r) (re_user_id r); num_to_str (re_attempt_count r);
    if truthy_opt (re_tx_hash r) then short 16 (default [] (re_tx_hash r)) else js "Pending"], retry_button s index r).

(** The recipients with their heading, when there are any. *)
Definition recipients_view `{UnicodeCase} (s : modal) : option (str * list (list str * option (str * bool))) :=
  match mo_rows s with
  | [] => None
  | rows => Some (js "Recipients (" ++ N_to_str (N.of_nat (length rows)) ++ js ")", imap (recipient_row s) rows)
  end.

(** The positions whose button can be pressed. *)
Definition pressable `{UnicodeCase} (s : modal) (index : nat) : Prop :=
  ∃ cells label heading rows, recipients_view s = Some (heading, rows) ∧ rows !! index = Some (cells, Some (label, false)).

Lemma recipients_at `{UnicodeCase} (s : modal) index cells button :
  (∃ heading rows, recipients_view s = Some (heading, rows) ∧ rows !! index = Some (cells, button)) ↔
  (recipient_row s index <$> mo_rows s !! index) = Some (cells, button).
Proof.
  unfold recipients_view. rewrite <-list_lookup_imap. destruct (mo_rows s) as [|x l]; [naive_solver|].
  split; [intros (h & rows & [= _ <-] & E); exact E|]. intros E. do 2 eexists. by split.
Qed.

(** the pressable "Retry" buttons are exactly those of the failed recipients that are not
    being retried, which are the retries the dialog's state allows; every recipient has its row, at its
    position. *)
Theorem retry_buttons `{UnicodeCase} (s : modal) index :
  (pressable s index ↔ can_retry index s = true) ∧
  (∀ heading rows, recipients_view s = Some (heading, rows) → length rows = length (mo_rows s)).
Proof.
  split.
  - unfold pressable, can_retry. setoid_rewrite recipients_at. destruct (mo_rows s !! index) as [r|]; [|naive_solver].
    change (recipient_row s index <$> Some r) with (Some (recipient_row s index r)). unfold recipient_row, retry_button.
    destruct (failed_status (re_status r)); [|naive_solver]. case_bool_decide; naive_solver.
  - unfold recipients_view. destruct (mo_rows s) as [|x l] eqn:El; [done|]. intros h rows [= _ <-].
    cbn. by rewrite length_imap.
Qed.

(** a batch whose date cannot be read takes the whole page down, and only such a batch
    does; otherwise every batch has its row, in order. *)
Theorem batch_table_all_or_nothing loading batches : batches ≠ [] →
  (batch_table loading batches = None ↔ ∃ b, b ∈ batches ∧ format_date (js "MMM d, yyyy HH:mm") (ba_created_at b) = None) ∧
  (∀ t, batch_table loading batches = Some t → ∃ cells, t = Rows cells ∧ length cells = length batches ∧
     ∀ i b c, batches !! i = Some b → cells !! i = Some c → head c = Some (short 8 (ba_id b))).
Proof.
  intros Hne. destruct (table_of_rows batch_row (5, 6) (js "No batch disbursements yet") loading batches Hne) as [R N]. split.
  - unfold batch_table. rewrite N, Exists_exists. split; intros (b & Hb & E); exists b; (split; [done|]).
    + unfold batch_row in E. by destruct (format_date _ _).
    + unfold batch_row. by rewrite E.
  - intros t Ht. assert (∃ cells, t = Rows cells) as [cells ->].
    { unfold batch_table, table_of in Ht. destruct batches; [done|]. destruct (mapM _ _); [|done]. injection Ht as <-. by eexists. }
    apply R in Ht. exists cells. split; [done|]. split; [symmetry; by eapply Forall2_length|].
    intros i b c Hb Hc. pose proof (Forall2_lookup_lr _ _ _ _ _ _ Ht Hb Hc) as E. cbn in E. unfold batch_row in E.
    destruct (format_date _ _); [|done]. by injection E as <-.
Qed.
End Views.
End Batch.

(** ** Disbursements and logs *)

Module Sdp.
Import DashboardShell.Polling.

Record SdpDisbursement := MkDisbursement {
  di_id : str; di_name : str; di_status : str; di_asset_code : str; di_asset_issuer : option str;
  di_total : num; di_successful : num; di_failed : num; di_cancelled : num;
  di_total_amount : str; di_disbursed_amount : str; di_created_at : str }.

Record SdpExecutionLog := MkLog {
  lg_id : str; lg_level : str; lg_message : str; lg_metadata : option (list (str * json)); lg_created_at : str }.

Section Views.
Context `{UnicodeCase, DateFormat, NumberFormat}.

Definition listing_headings : list str := [js "Name"; js "Status"; js "Asset"; js "Payments"; js "Amount"; js "Created"].

Definition listing_row (d : SdpDisbursement) : option (list str) :=
  created ← format_date (js "MMM d, yyyy HH:mm") (di_created_at d);
  Some [di_name d; short 12 (di_id d); to_lower (di_status d);
        di_asset_code d ++ (if truthy_opt (di_asset_issuer d) then short 6 (default [] (di_asset_issuer d)) else []);
        num_to_str (di_successful d) ++ js " ok";
        num_to_str (di_total d) ++ js " total " ++ [183%N] ++ js " " ++ num_to_str (di_failed d) ++ js " failed " ++ [183%N] ++ js " "
          ++ num_to_str (di_cancelled d) ++ js " cancelled";
        locale_number (Number (di_disbursed_amount d)); js "of " ++ locale_number (Number (di_total_amount d)); created].

(** [None] of the state: nothing has answered yet. *)
Definition listing (disbursements : option (list SdpDisbursement)) : option table :=
  match disbursements with
  | None => Some (Skeleton 4 7)
  | Some ds => table_of listing_row (4, 7) (js "No SDP disbursements yet " ++ [8212%N] ++ js " upload a CSV above to create one.") false ds
  end.

(** The log dialog: a line, or the entries. *)
Inductive tone := TError | TWarning | TInfo.
Definition log_tone (level : str) : tone :=
  if str_eqb level (js "error") then TError else if str_eqb level (js "warning") then TWarning else TInfo.
Record log_entry := MkEntry { en_tone : tone; en_level : str; en_when : str; en_message : str; en_metadata : bool }.

Definition log_row (l : SdpExecutionLog) : option log_entry :=
  d ← format_date (js "MMM d, HH:mm:ss") (lg_created_at l);
  Some (MkEntry (log_tone (lg_level l)) (lg_level l) d (lg_message l) (match lg_metadata l with Some (_ :: _) => true | _ => false end)).

Inductive log_view := LogLine (text : str) | LogError (message : str) | LogEntries (entries : list log_entry).

Definition log_modal (p : poll (list SdpExecutionLog)) : option log_view :=
  let logs := default [] (pl_data p) in
  let empty := match logs with [] => true | _ => false end in
  if pl_loading p && empty then Some (LogLine (js "Loading logs" ++ ellipsis))
  else if truthy_opt (pl_error p) then Some (LogError (default [] (pl_error p)))
  else if empty then Some (LogLine (js "No logs recorded yet."))
  else LogEntries <$> mapM log_row logs.

(** one failed poll hides the log: while a poll's error stands, the dialog shows the error
    alone, whatever entries it has; and entries, once read, stay through polls that succeed. *)
Theorem failed_poll_hides_log logs loading e : truthy e = true → logs ≠ [] →
  log_modal (Poll (Some logs) loading (Some e)) = Some (LogError e) ∧
  (∀ entries, mapM log_row logs = Some entries → log_modal (Poll (Some logs) loading None) = Some (LogEntries entries)) ∧
  (log_modal (Poll (Some logs) loading None) = None ↔ Exists (λ l, log_row l = None) logs).
Proof.
  intros He Hne. unfold log_modal. cbn [pl_data pl_loading pl_error default from_option truthy_opt].
  destruct logs as [|l logs]; [done|]. rewrite andb_false_r. cbn [truthy_opt]. rewrite He. split; [done|].
  change (id (l :: logs)) with (l :: logs). split.
  - intros entries E. by rewrite E.
  - rewrite <-mapM_None. by destruct (mapM log_row (l :: logs)).
Qed.
End Views.
End Sdp.

(** ** Concrete runs *)

Module Runs.
#[local] Existing Instance ascii_case.
(** Texts that start with a digit are dates. *)
#[local] Instance some_dates : DateFormat := λ _ text, match text with c :: _ => if is_digit c then Some text else None | [] => None end.
#[local] Instance plain_numbers : NumberFormat := num_to_str.

Definition batch (created : string) : Batches.BatchPayout :=
  Batches.MkBatch (js "batch-0001") (js "completed") (js "USDC") (Fin 2 0) (Fin 1500000 0) (Fin 2 0) (Fin 0 0) (js created) None None.

Lemma batch_table_all_or_nothing_witness :
  (Batch.batch_table false [batch "2026-01-02"; batch "soon"] = None ↔
     ∃ b, b ∈ [batch "2026-01-02"; batch "soon"] ∧ format_date (js "MMM d, yyyy HH:mm") (Batches.ba_created_at b) = None) ∧
  (∀ t, Batch.batch_table false [batch "2026-01-02"; batch "soon"] = Some t → ∃ cells, t = Rows cells ∧ length cells = 2 ∧
     ∀ i b c, [batch "2026-01-02"; batch "soon"] !! i = Some b → cells !! i = Some c → head c = Some (short 8 (Batches.ba_id b))).
Proof. apply (Batch.batch_table_all_or_nothing false [batch "2026-01-02"; batch "soon"]). discriminate. Defined.

Example batch_demo : Batch.batch_table true [batch "2026-01-02"] = Some (Rows
  [[short 8 (js "batch-0001"); js "2026-01-02"; js "2"; js "1.5 USDC"; js "completed"; js "2 succeeded, 0 failed"]]).
Proof. vm_compute. reflexivity. Qed.

Definition entry : Sdp.SdpExecutionLog := Sdp.MkLog (js "1") (js "info") (js "sent") None (js "2026-01-02").

Lemma failed_poll_hides_log_witness :
  Sdp.log_modal (Polling.Poll (Some [entry]) false (Some (js "HTTP 500"))) = Some (Sdp.LogError (js "HTTP 500")) ∧
  (∀ entries, mapM Sdp.log_row [entry] = Some entries →
     Sdp.log_modal (Polling.Poll (Some [entry]) false None) = Some (Sdp.LogEntries entries)) ∧
  (Sdp.log_modal (Polling.Poll (Some [entry]) false None) = None ↔ Exists (λ l, Sdp.log_row l = None) [entry]).
Proof. apply (Sdp.failed_poll_hides_log [entry] false (js "HTTP 500")); [reflexivity|discriminate]. Defined.
End Runs.
