(* ===== verification/DashboardPages.v ===== *)
(** * The analytics page, the QR page and the statistics cards (dashboard)

    Models of [dashboard/app/dashboard/analytics/page.tsx] (module Analytics: what its charts sum,
    as objects keyed by a text), of [dashboard/app/dashboard/qr/page.tsx] (Qr) and of
    [dashboard/components/StatCard.tsx] (Trend). [date-fns], the number format of the browser and the
    drawing of a code are parameters. *)

From S2P Require Import Prelude JsString JsNumber JsRound Json Tables Effects Scripts Decode DashboardApi DashboardShell Payouts.

(** ** Objects used as maps from texts *)

Module Keyed.
(** A record of sums, in the order its keys were added; [None] is a value that is no number. *)
Abbreviation sums := (list (str * option num)).

Fixpoint own (k : str) (o : sums) : option (option num) :=
  match o with
  | [] => None
  | (k', v) :: o' => if str_eqb k k' then Some v else own k o'
  end.

Fixpoint put (k : str) (v : option num) (o : sums) : sums :=
  match o with
  | [] => [(k, v)]
  | (k', v') :: o' => if str_eqb k k' then (k', v) :: o' else (k', v') :: put k v o'
  end.

(** [o[k] = (o[k] ?? 0) + v]: an inherited member makes the sum a text, and the prototype
    cannot be set to one. *)
Definition bump (k : str) (v : num) (o : sums) : sums :=
  if str_eqb k (js "__proto__") then o
  else match own k o with
       | Some (Some n) => put k (Some (num_add n v)) o
       | Some None => o
       | None => put k (if inherited k then None else Some (num_add (Fin 0 0) v)) o
       end.

(** Keys that are array indices are listed first, in their own order. *)
Definition index_key (k : str) : option N :=
  let n := digits_val 0 k in
  if forallb is_digit k && str_eqb (N_to_str n) k && (n <? 4294967295)%N then Some n else None.

Definition index_above (x y : str * option num) : bool :=
  match index_key x.1, index_key y.1 with Some i, Some j => (j <? i)%N | _, _ => false end.

Definition is_index (x : str * option num) : bool := match index_key x.1 with Some _ => true | None => false end.

(** [Object.entries(o)] *)
Definition entries (o : sums) : sums :=
  stable_sort index_above (filter (λ x, is_index x = true) o) ++ filter (λ x, is_index x = false) o.

(** *** Properties *)

(** The keys in the order they first come. *)
Fixpoint first_seen (seen : list str) (ks : list str) : list str :=
  match ks with
  | [] => []
  | k :: ks' => if bool_decide (k ∈ seen) then first_seen seen ks' else k :: first_seen (k :: seen) ks'
  end.

Lemma own_put k v o k' : own k' (put k v o) = if str_eqb k' k then Some v else own k' o.
Proof.
  induction o as [|[q w] o IH]; cbn; [done|]. destruct (str_eqb k q) eqn:E; cbn.
  - apply str_eqb_true in E as ->. by destruct (str_eqb k' q).
  - rewrite IH. destruct (str_eqb k' q) eqn:E1, (str_eqb k' k) eqn:E2; try done.
    apply str_eqb_true in E1 as ->, E2 as ->. by rewrite str_eqb_refl in E.
Qed.

Lemma own_keys k o : k ∈ o.*1 ↔ own k o ≠ None.
Proof.
  induction o as [|[q w] o IH]; cbn; [by split; [intros ?%elem_of_nil|]|]. rewrite elem_of_cons, IH.
  destruct (str_eqb k q) eqn:E; [apply str_eqb_true in E as ->; split; [done|by left]|].
  apply str_eqb_false in E. split; [intros [?|?]; done|by right].
Qed.

Lemma put_keys k v o : (put k v o).*1 = if bool_decide (k ∈ o.*1) then o.*1 else o.*1 ++ [k].
Proof.
  induction o as [|[q w] o IH]; cbn; [done|]. destruct (str_eqb k q) eqn:E; cbn.
  - apply str_eqb_true in E as ->. rewrite bool_decide_eq_true_2 by left. done.
  - apply str_eqb_false in E. rewrite IH. repeat case_bool_decide; try done; set_solver.
Qed.

(** A fold of [bump]s. *)
Definition summed (kvs : list (str * num)) (o : sums) : sums := foldl (λ o kv, bump kv.1 kv.2 o) o kvs.

Definition values_of (k : str) (kvs : list (str * num)) : list num := (filter (λ kv, kv.1 = k) kvs).*2.

Definition plain_keys (kvs : list (str * num)) : Prop := Forall (λ kv, inherited kv.1 = false) kvs.

Lemma bump_plain k v o : inherited k = false → Forall (λ e, e.2 ≠ None) o →
  bump k v o = put k (Some (num_add (default (Fin 0 0) (mjoin (own k o))) v)) o.
Proof.
  intros I F. unfold bump. assert (str_eqb k (js "__proto__") = false) as ->.
  { apply str_eqb_false. intros ->. revert I. vm_compute. done. }
  rewrite I. destruct (own k o) as [[n|]|] eqn:E; cbn; [done| |done]. exfalso.
  clear I. induction o as [|[q w] o IH]; cbn in E; [done|]. apply Forall_cons in F as [H F].
  destruct (str_eqb k q); [by injection E as ->|]. by apply IH.
Qed.

Lemma put_numbers k n o : Forall (λ e : str * option num, e.2 ≠ None) o → Forall (λ e : str * option num, e.2 ≠ None) (put k (Some n) o).
Proof. induction 1 as [|[q w] o H F IH]; cbn; [by repeat constructor|]. destruct (str_eqb k q); by constructor. Qed.

Lemma elem_of_first_seen k seen ks : k ∈ first_seen seen ks ↔ k ∈ ks ∧ k ∉ seen.
Proof.
  revert seen. induction ks as [|q ks IH]; intros seen; cbn; [split; [by intros ?%elem_of_nil|by intros [?%elem_of_nil _]]|].
  case_bool_decide as H; [rewrite IH; set_solver|]. rewrite elem_of_cons, IH, elem_of_cons. destruct (decide (k = q)) as [->|]; set_solver.
Qed.

Lemma first_seen_NoDup seen ks : NoDup (first_seen seen ks).
Proof.
  revert seen. induction ks as [|q ks IH]; intros seen; cbn; [constructor|]. case_bool_decide; [done|].
  apply NoDup_cons. split; [|done]. rewrite elem_of_first_seen. set_solver.
Qed.

Lemma first_seen_snoc seen ks k :
  first_seen seen (ks ++ [k]) = first_seen seen ks ++ (if bool_decide (k ∈ seen ++ ks) then [] else [k]).
Proof.
  revert seen. induction ks as [|q ks IH]; intros seen; cbn.
  - rewrite app_nil_r. by case_bool_decide.
  - case_bool_decide as H; rewrite IH; [|cbn]; do 2 f_equal; repeat case_bool_decide; try done; set_solver.
Qed.

Lemma values_of_snoc k kvs q v : values_of k (kvs ++ [(q, v)]) = values_of k kvs ++ (if str_eqb k q then [v] else []).
Proof.
  unfold values_of. rewrite filter_app, fmap_app. f_equal. rewrite filter_cons. cbn.
  destruct (str_eqb k q) eqn:E; [apply str_eqb_true in E as ->; by rewrite decide_True|].
  apply str_eqb_false in E. by rewrite decide_False by done.
Qed.

(** What a sum of plain keys holds: every key once, in the order of first appearance, with the sum of its
    values from left to right. *)
Lemma summed_spec kvs : plain_keys kvs →
  (summed kvs []).*1 = first_seen [] kvs.*1 ∧ Forall (λ e, e.2 ≠ None) (summed kvs []) ∧
  ∀ k, own k (summed kvs []) = match values_of k kvs with [] => None | vs => Some (Some (foldl num_add (Fin 0 0) vs)) end.
Proof.
  induction kvs as [|[q v] kvs IH] using rev_ind; intros P; [done|].
  apply Forall_app in P as [P Pq]. apply Forall_cons in Pq as [Pq _]. change (inherited q = false) in Pq. destruct (IH P) as (K & F & O).
  unfold summed in *. rewrite foldl_app. cbn [foldl fst snd]. set (o := foldl _ [] kvs) in *. rewrite (bump_plain q v o Pq F).
  assert (M : q ∈ o.*1 ↔ q ∈ kvs.*1) by (rewrite K, elem_of_first_seen; set_solver). split_and!.
  - rewrite put_keys, K, fmap_app. change ([(q, v)].*1) with [q]. rewrite first_seen_snoc. cbn [app]. rewrite <-K. repeat case_bool_decide; try done; try (by rewrite app_nil_r); tauto.
  - by apply put_numbers.
  - intros k. rewrite own_put, values_of_snoc. destruct (str_eqb k q) eqn:E; [|by rewrite O, app_nil_r].
    apply str_eqb_true in E as ->. rewrite O. destruct (values_of q kvs) as [|x xs] eqn:V; cbn; [done|].
    by rewrite foldl_app.
Qed.

Lemma own_entry k v o : NoDup o.*1 → (k, v) ∈ o ↔ own k o = Some v.
Proof.
  induction o as [|[q w] o IH]; cbn; intros D; [by split; [intros ?%elem_of_nil|]|].
  apply NoDup_cons in D as [Hq D]. rewrite elem_of_cons, IH by done. destruct (str_eqb k q) eqn:E.
  - apply str_eqb_true in E as ->. split; [|intros [= ->]; by left]. intros [[= ->]|H]; [done|].
    exfalso. apply Hq. by rewrite own_keys, H.
  - apply str_eqb_false in E. naive_solver.
Qed.

Lemma entries_perm o : entries o ≡ₚ o.
Proof.
  unfold entries. rewrite stable_sort_perm. induction o as [|x o IH]; [done|]. rewrite !filter_cons.
  destruct (is_index x); [rewrite decide_True, decide_False by done|rewrite decide_False, decide_True by done]; cbn.
  - by rewrite IH.
  - by rewrite <-Permutation_middle, IH.
Qed.

(** Names that are no indices keep the order they were added in. *)
Lemma entries_names o : Forall (λ k, index_key k = None) o.*1 → entries o = o.
Proof.
  intros F. unfold entries. assert (G : Forall (λ x, is_index x = false) o).
  { rewrite Forall_fmap in F. eapply Forall_impl; [exact F|]. intros x H. unfold is_index. cbn in H. by rewrite H. }
  rewrite (filter_Forall_id _ _ G). rewrite filter_Forall_nil; [done|]. eapply Forall_impl; [exact G|]. by intros x ->.
Qed.
End Keyed.

(** ** The analytics page *)

Module Analytics.
Import Keyed DashboardShell.Polling.

Record Transaction := MkTransaction {
  tx_created_at : str; tx_send_amount : num; tx_send_asset : str; tx_status : str }.

(** [format(startOfDay(parseISO(text)), "MMM d")] and [format(startOfMonth(parseISO(text)), "MMM yyyy")];
    [None] when they throw. *)
Class ChartDates := { day_label : str → option str; month_label : str → option str }.
Class NumberFormat := locale_number : num → str.

Record distributions := Distributions {
  dailyVolume : list (str * num); statusDist : sums; assetDist : list (str * num); monthlyYield : list (str * num) }.

Definition no_distributions : distributions := Distributions [] [] [] [].

(** [t.send_amount / 1_000_000] *)
Definition volume (t : Transaction) : num := num_div (tx_send_amount t) (num_of_Z 1000000).

(** [txs.forEach((t) => ...)] over a record of sums, with the key computed first. *)
Definition sum_by (key : Transaction → option str) (amount : Transaction → num) (txs : list Transaction) : option sums :=
  kvs ← mapM (λ t, k ← key t; Some (k, amount t)) txs; Some (summed kvs []).

(** [Number(value.toFixed(2))]; a text has no [toFixed]. *)
Definition two_places (e : str * option num) : option (str * num) :=
  n ← e.2; Some (e.1, Number (num_to_fixed 2 n)).

(** [entries.slice(-30)] *)
Definition last_30 {A} (l : list A) : list A := drop (length l - 30) l.

Section Page.
Context `{ChartDates, NumberFormat}.

Definition completed (txs : list Transaction) : list Transaction :=
  filter (λ t, tx_status t = js "completed") txs.

(** The memo; [None] when it throws, and the page with it. *)
Definition charts_of (txs : list Transaction) : option distributions :=
  byDay ← sum_by (day_label ∘ tx_created_at) volume txs;
  days ← mapM two_places (last_30 (entries byDay));
  bySt ← sum_by (Some ∘ tx_status) (λ _, Fin 1 0) txs;
  byAsset ← sum_by (Some ∘ tx_send_asset) volume txs;
  assets ← mapM two_places (entries byAsset);
  byMonth ← sum_by (month_label ∘ tx_created_at) volume (completed txs);
  months ← mapM two_places (entries byMonth);
  Some (Distributions days (entries bySt) assets months).

Definition memo (txs : option (list Transaction)) : option distributions :=
  match txs with None => Some no_distributions | Some txs => charts_of txs end.

(** *** The figures of the sign-up providers *)

Record AuthProviderStats := MkStats {
  as_total_users : option num; as_privy_signups : option num; as_standard_signups : option num; as_keypair_signups : option num;
  as_breakdown : option (list (str * num)) }.

(** [authStats?.f?.toLocaleString() ?? text] *)
Definition figure (f : AuthProviderStats → option num) (text : string) (stats : option AuthProviderStats) : str :=
  default (js text) (locale_number <$> (stats ≫= f)).

Definition cards (stats : option AuthProviderStats) : list (str * str) :=
  [(js "Total Users", figure as_total_users "2,340" stats); (js "Privy Auth", figure as_privy_signups "1,420" stats);
   (js "Standard (PIN)", figure as_standard_signups "680" stats); (js "Keypair / Freighter", figure as_keypair_signups "240" stats)].

Definition rows (l : list (string * Z)) : list (str * num) := (λ e, (js e.1, num_of_Z e.2)) <$> l.

Definition pie_data (stats : option AuthProviderStats) : list (str * num) :=
  default (rows [("Privy (Web3/Social)"%string, 1420%Z); ("Standard (PIN/ID)"%string, 680%Z); ("Keypair/Freighter"%string, 240%Z)])
    (stats ≫= as_breakdown).
Definition bar_data (stats : option AuthProviderStats) : list (str * num) :=
  default (rows [("Privy"%string, 1420%Z); ("Standard"%string, 680%Z); ("Keypair"%string, 240%Z)]) (stats ≫= as_breakdown).

(** [`${name} ${((percent ?? 0) * 100).toFixed(0)}%`] *)
Definition status_label (name : str) (percent : option num) : str :=
  name ++ js " " ++ num_to_fixed 0 (num_mul (default (Fin 0 0) percent) (Fin 100 0)) ++ js "%".
(** [`${name?.toString().split(" ")[0]} ...`] *)
Definition provider_label (name : str) (percent : option num) : str :=
  status_label (default [] (head (split_on 32 name))) percent.

Inductive view :=
  | Skeletons (n : nat)
  | Charts (d : distributions) (providers : list (str * str)) (pie bar : list (str * num)).

(** [None]: nothing is rendered. *)
Definition AnalyticsPage (txs : poll (list Transaction)) (stats : poll AuthProviderStats) : option view :=
  d ← memo (pl_data txs);
  Some (match pl_data txs with
        | None => if pl_loading txs then Skeletons 3
                  else Charts d (cards (pl_data stats)) (pie_data (pl_data stats)) (bar_data (pl_data stats))
        | Some _ => Charts d (cards (pl_data stats)) (pie_data (pl_data stats)) (bar_data (pl_data stats))
        end).
End Page.

(** *** Properties *)

Lemma values_of_map (f : Transaction → str) (a : Transaction → num) k txs :
  values_of k ((λ t, (f t, a t)) <$> txs) = a <$> filter (λ t, f t = k) txs.
Proof.
  unfold values_of. induction txs as [|t txs IH]; [done|]. rewrite fmap_cons, !filter_cons. cbn.
  destruct (decide (f t = k)); cbn; by rewrite IH.
Qed.

Lemma sum_by_labels key amount labels txs : Forall2 (λ t k, key t = Some k) txs labels →
  sum_by key amount txs = Some (summed (zip labels (amount <$> txs)) []).
Proof.
  intros F. unfold sum_by. rewrite (mapM_Some_2 _ _ (zip labels (amount <$> txs))); [done|].
  induction F as [|t k txs labels E F IH]; [constructor|]. cbn. constructor; [|done]. by rewrite E.
Qed.

Lemma sum_by_total (f : Transaction → str) amount txs :
  sum_by (Some ∘ f) amount txs = Some (summed ((λ t, (f t, amount t)) <$> txs) []).
Proof.
  rewrite (sum_by_labels _ _ (f <$> txs)).
  - do 2 f_equal. induction txs as [|t txs IH]; [done|]. cbn. by f_equal.
  - induction txs; by constructor.
Qed.

(** A sum over plain names: a name is listed exactly when an element has it, once, with the sum of its amounts. *)
Lemma total_spec (f : Transaction → str) amount txs : Forall (λ t, inherited (f t) = false) txs →
  let o := entries (summed ((λ t, (f t, amount t)) <$> txs) []) in
  NoDup o.*1 ∧
  (∀ k v, (k, v) ∈ o ↔ k ∈ f <$> txs ∧ v = Some (foldl num_add (Fin 0 0) (amount <$> filter (λ t, f t = k) txs))).
Proof.
  intros P o. destruct (summed_spec ((λ t, (f t, amount t)) <$> txs)) as (K & _ & O); [by apply Forall_fmap|].
  set (o' := summed _ []) in *. assert (o ≡ₚ o') as Pm by apply entries_perm.
  assert (E : ((λ t, (f t, amount t)) <$> txs).*1 = f <$> txs) by (by rewrite <-list_fmap_compose).
  assert (N : NoDup o'.*1) by (rewrite K; apply first_seen_NoDup). split; [by rewrite Pm|].
  intros k v. rewrite Pm, own_entry, O, values_of_map by done.
  assert (M : k ∈ f <$> txs ↔ filter (λ t, f t = k) txs ≠ []).
  { rewrite list_elem_of_fmap. split.
    - intros (t & -> & Ht) H. apply (not_elem_of_nil t). rewrite <-H. by apply list_elem_of_filter.
    - intros H. destruct (filter _ txs) as [|t l] eqn:Ef; [done|]. exists t.
      assert (t ∈ filter (λ t, f t = k) txs) as [? ?]%list_elem_of_filter by (rewrite Ef; left). done. }
  rewrite M. destruct (filter (λ t, f t = k) txs) as [|t l]; cbn; [naive_solver|]. naive_solver.
Qed.

Lemma count_ones n : (Z.of_nat n < 2 ^ 53)%Z → foldl num_add (Fin 0 0) (replicate n (Fin 1 0)) = num_of_nat n.
Proof.
  intros H. assert (G : ∀ a, (0 <= a)%Z → (a + Z.of_nat n < 2 ^ 53)%Z → foldl num_add (Fin a 0) (replicate n (Fin 1 0)) = Fin (a + Z.of_nat n) 0).
  { clear H. induction n as [|n IH]; intros a Ha Hb; cbn [replicate foldl]; [f_equal; lia|].
    change (num_add (Fin a 0) (Fin 1 0)) with (num_sub (Fin a 0) (Fin (-1) 0)).
    rewrite num_sub_safe by (unfold safe_int; lia). rewrite IH by lia. f_equal; lia. }
  rewrite G by lia. unfold num_of_nat. by rewrite num_of_Z_safe by (unfold safe_int; lia).
Qed.

Lemma count_by_name (f : Transaction → str) names txs : NoDup names → (∀ t, t ∈ txs → f t ∈ names) →
  sum_list ((λ k, length (filter (λ t, f t = k) txs)) <$> names) = length txs.
Proof.
  revert txs. induction names as [|k names IH]; intros txs D H.
  - destruct txs as [|t txs]; [done|]. by destruct (not_elem_of_nil (f t)); apply H; left.
  - apply NoDup_cons in D as [Hk D]. rewrite fmap_cons. cbn [sum_list].
    assert (L : length txs = length (filter (λ t, f t = k) txs) + length (filter (λ t, f t ≠ k) txs)).
    { clear. induction txs as [|t txs IH]; [done|]. rewrite !filter_cons. destruct (decide (f t = k)); [rewrite decide_False by naive_solver|rewrite decide_True by done]; cbn; lia. }
    rewrite L. f_equal. rewrite <-(IH (filter (λ t, f t ≠ k) txs)); [|done|].
    + f_equal. apply list_fmap_ext. intros i k' Hk'. f_equal. rewrite list_filter_filter. apply list_filter_iff. intros t.
      split; [intros <-|naive_solver]. split; [done|]. intros E. apply Hk. rewrite <-E. by eapply list_elem_of_lookup_2.
    + intros t [Hn Ht]%list_elem_of_filter. apply H in Ht. apply elem_of_cons in Ht. naive_solver.
Qed.

Section PageSpec.
Context `{ChartDates, NumberFormat}.

Lemma charts_parts txs d : charts_of txs = Some d → ∃ labels,
  Forall2 (λ t k, day_label (tx_created_at t) = Some k) txs labels ∧
  mapM two_places (last_30 (entries (summed (zip labels (volume <$> txs)) []))) = Some (dailyVolume d) ∧
  statusDist d = entries (summed ((λ t, (tx_status t, Fin 1 0)) <$> txs) []) ∧
  mapM two_places (entries (summed ((λ t, (tx_send_asset t, volume t)) <$> txs) [])) = Some (assetDist d).
Proof.
  unfold charts_of. rewrite !sum_by_total. destruct (sum_by (day_label ∘ tx_created_at) volume txs) as [o|] eqn:E; [|done]. cbn.
  destruct (mapM two_places (last_30 (entries o))) as [days|] eqn:Ed; [|done]. cbn.
  destruct (mapM two_places (entries _)) as [assets|] eqn:Ea; [|done]. cbn.
  destruct (sum_by (month_label ∘ tx_created_at) volume (completed txs)) as [om|]; [|done]. cbn.
  destruct (mapM two_places (entries om)) as [months|]; [|done]. cbn. intros [= <-]. cbn.
  unfold sum_by in E. destruct (mapM _ txs) as [kvs|] eqn:M; [|done]. injection E as <-. apply mapM_Some_1 in M.
  exists (kvs.*1). assert (Q : Forall2 (λ t k, day_label (tx_created_at t) = Some k) txs kvs.*1 ∧ kvs = zip kvs.*1 (volume <$> txs)).
  { clear -M. induction M as [|t kv txs kvs Hk M [IH1 IH2]]; [done|]. cbn in Hk.
    destruct (day_label (tx_created_at t)) as [k|] eqn:Ek; [|done]. injection Hk as <-. cbn. split; [by constructor|by f_equal]. }
  destruct Q as [Q1 Q2]. by rewrite <-Q2.
Qed.

(** C39: The status chart counts: a status has one sector, which holds the number of transactions
    with that status, and the sectors together are all the transactions. *)
Theorem status_chart_counts txs d :
  (Z.of_nat (length txs) < 2 ^ 53)%Z → Forall (λ t, inherited (tx_status t) = false) txs → charts_of txs = Some d →
  NoDup (statusDist d).*1 ∧
  (∀ k v, (k, v) ∈ statusDist d ↔
     k ∈ tx_status <$> txs ∧ v = Some (num_of_nat (length (filter (λ t, tx_status t = k) txs)))) ∧
  sum_list ((λ k, length (filter (λ t, tx_status t = k) txs)) <$> (statusDist d).*1) = length txs.
Proof.
  intros L P C. destruct (charts_parts txs d C) as (_ & _ & _ & E & _). rewrite E.
  destruct (total_spec tx_status (λ _, Fin 1 0) txs P) as [N T]. set (o := entries _) in *. split_and!; [done| |].
  - intros k v. rewrite T, (const_fmap _ _ (Fin 1 0)) by done. rewrite count_ones; [done|].
    pose proof (length_filter (λ t, tx_status t = k) txs). lia.
  - apply count_by_name; [done|]. intros t Ht. apply list_elem_of_fmap.
    exists (tx_status t, Some (foldl num_add (Fin 0 0) ((λ _, Fin 1 0) <$> filter (λ t', tx_status t' = tx_status t) txs))).
    split; [done|]. apply T. split; [|done]. by apply list_elem_of_fmap_2.
Qed.

(** The asset chart sums: an asset has one bar, with the sum of its transactions' volumes in the
    order of the list, rounded to two places. *)
Theorem asset_chart_sums txs d : Forall (λ t, inherited (tx_send_asset t) = false) txs → charts_of txs = Some d →
  NoDup (assetDist d).*1 ∧
  (∀ k x, (k, x) ∈ assetDist d ↔
     k ∈ tx_send_asset <$> txs ∧
     x = Number (num_to_fixed 2 (foldl num_add (Fin 0 0) (volume <$> filter (λ t, tx_send_asset t = k) txs)))).
Proof.
  intros P C. destruct (charts_parts txs d C) as (_ & _ & _ & _ & E).
  destruct (total_spec tx_send_asset volume txs P) as [N T]. set (o := entries _) in *. apply mapM_Some_1 in E.
  assert (K : (assetDist d).*1 = o.*1).
  { clear -E. induction E as [|[k [v|]] y l l' Hy E IH]; [done| |done]. injection Hy as <-. cbn. by f_equal. }
  split; [by rewrite K|]. intros k x. split.
  - intros (i & Hi)%list_elem_of_lookup. destruct (Forall2_lookup_r _ _ _ _ _ E Hi) as ([k' v] & Ho & Hy).
    apply list_elem_of_lookup_2, T in Ho as [Hk ->]. cbn in Hy. by injection Hy as -> <-.
  - intros [Hk ->]. assert (Ho := proj2 (T k _) (conj Hk eq_refl)). apply list_elem_of_lookup in Ho as [i Hi].
    destruct (Forall2_lookup_l _ _ _ _ _ E Hi) as (y & Hl & Hy). injection Hy as <-. by eapply list_elem_of_lookup_2.
Qed.

Lemma zip_keys {A} (labels : list str) (l : list A) : length labels = length l → (zip labels l).*1 = labels.
Proof. revert l. induction labels as [|k labels IH]; intros [|a l]; cbn; [done..|]. intros [= E]. f_equal. by apply IH. Qed.

(** The chart of daily volumes shows the thirty days that come last in the order the list first names
    them: from a list with its newest transaction first and more than thirty days, the day of that newest
    transaction is left out. *)
Theorem daily_chart_tail txs labels d :
  Forall2 (λ t k, day_label (tx_created_at t) = Some k) txs labels →
  Forall (λ k, inherited k = false ∧ index_key k = None) labels → charts_of txs = Some d →
  (dailyVolume d).*1 = last_30 (first_seen [] labels) ∧
  (∀ t txs', txs = t :: txs' → 30 < length (first_seen [] labels) →
     ∀ k, day_label (tx_created_at t) = Some k → k ∉ (dailyVolume d).*1).
Proof.
  intros F P C. destruct (charts_parts txs d C) as (labels' & F' & E & _ & _).
  assert (labels' = labels) as ->.
  { clear -F F'. revert labels F. induction F' as [|t k txs l' Hk F' IH]; intros labels F; inversion F; subst; [done|]. f_equal; [congruence|auto]. }
  assert (length labels = length (volume <$> txs)) as L by (rewrite length_fmap; symmetry; by eapply Forall2_length).
  destruct (summed_spec (zip labels (volume <$> txs))) as (K & _ & _).
  { unfold plain_keys. apply (Forall_fmap fst (λ k, inherited k = false)). rewrite zip_keys by done.
    eapply Forall_impl; [exact P|]. by intros k []. }
  rewrite zip_keys in K by done. rewrite entries_names in E.
  2: { rewrite K. apply Forall_forall. intros k [Hk _]%elem_of_first_seen. by eapply Forall_forall in P as [_ ?]. }
  assert (D : (dailyVolume d).*1 = last_30 (first_seen [] labels)).
  { apply mapM_Some_1 in E. rewrite <-K. unfold last_30 in *. rewrite length_fmap, <-fmap_drop.
    clear -E. induction E as [|[k [v|]] y l l' Hy E IH]; [done| |done]. injection Hy as <-. cbn. by f_equal. }
  split; [done|]. intros t txs' -> Lg k Hk. rewrite D. inversion F as [|? k' ? labels' Hk' F1]; subst.
  rewrite Hk in Hk'. injection Hk' as <-. cbn [first_seen] in *. rewrite bool_decide_eq_false_2 in * by set_solver.
  intros Hin. pose proof (first_seen_NoDup [] (k :: labels')) as N. cbn [first_seen] in N. rewrite bool_decide_eq_false_2 in N by set_solver.
  apply NoDup_cons in N as [N _]. apply N. unfold last_30 in Hin. cbn [length] in *.
  destruct (S (length (first_seen [k] labels')) - 30) as [|n] eqn:En; [lia|]. cbn in Hin.
  rewrite <-(take_drop n (first_seen [k] labels')). apply elem_of_app. by right.
Qed.

(** The texts of a chart's axis are no names an object inherits. *)
Class PlainLabels := {
  day_label_plain text k : day_label text = Some k → inherited k = false;
  month_label_plain text k : month_label text = Some k → inherited k = false;
}.

Lemma two_places_all (o : sums) : Forall (λ e, e.2 ≠ None) o → mapM two_places o ≠ None.
Proof.
  intros F E. apply mapM_None in E. apply Exists_exists in E as ([k [n|]] & He & E); [done|].
  by apply (proj1 (Forall_forall _ _) F _ He).
Qed.

Lemma sum_by_dates key txs : (∀ t k, key t = Some k → inherited k = false) →
  match sum_by key volume txs with
  | None => ∃ t, t ∈ txs ∧ key t = None
  | Some o => (∀ t, t ∈ txs → key t ≠ None) ∧ Forall (λ e, e.2 ≠ None) o
  end.
Proof.
  intros P. unfold sum_by. destruct (mapM _ txs) as [kvs|] eqn:E; cbn.
  - apply mapM_Some_1 in E. split.
    + intros t Ht Hn. apply list_elem_of_lookup in Ht as [i Hi]. destruct (Forall2_lookup_l _ _ _ _ _ E Hi) as (y & _ & Hy). by rewrite Hn in Hy.
    + apply summed_spec. unfold plain_keys. clear -E P. induction E as [|t y txs l Hy E IH]; constructor; [|done].
      destruct (key t) as [k|] eqn:Ek; [|done]. injection Hy as <-. by apply (P t).
  - apply mapM_None in E. apply Exists_exists in E as (t & Ht & E). exists t. split; [done|]. by destruct (key t).
Qed.

Lemma sum_by_names (f : Transaction → str) txs : Forall (λ t, inherited (f t) = false) txs →
  ∃ o, sum_by (Some ∘ f) volume txs = Some o ∧ Forall (λ e, e.2 ≠ None) o.
Proof. intros P. rewrite sum_by_total. eexists. split; [done|]. by apply summed_spec, Forall_fmap. Qed.

(** The page renders exactly when every date it labels can be read: one transaction with an unreadable
    date takes all the charts down. *)
Theorem unreadable_date_takes_page `{PlainLabels} txs stats :
  Forall (λ t, inherited (tx_send_asset t) = false) txs →
  AnalyticsPage (Poll (Some txs) false None) stats = None ↔
  ∃ t, t ∈ txs ∧ (day_label (tx_created_at t) = None ∨
                  (tx_status t = js "completed" ∧ month_label (tx_created_at t) = None)).
Proof.
  intros P. unfold AnalyticsPage, memo, charts_of. cbn [pl_data].
  pose proof (sum_by_dates (day_label ∘ tx_created_at) txs (λ t k, day_label_plain _ k)) as D.
  pose proof (sum_by_dates (month_label ∘ tx_created_at) (completed txs) (λ t k, month_label_plain _ k)) as Mo.
  destruct (sum_by_names tx_send_asset txs P) as (oa & Ea & Fa). rewrite Ea, sum_by_total.
  destruct (sum_by (day_label ∘ tx_created_at) volume txs) as [od|]; cbn.
  2: { split; [intros _|done]. destruct D as (t & Ht & E). exists t. split; [done|]. by left. }
  destruct D as [Dr Fd].
  destruct (mapM two_places (last_30 (entries od))) as [days|] eqn:E1; [|exfalso; revert E1; apply two_places_all; unfold last_30; apply Forall_drop; by rewrite entries_perm].
  cbn. destruct (mapM two_places (entries oa)) as [assets|] eqn:E2; [|exfalso; revert E2; apply two_places_all; by rewrite entries_perm].
  cbn. destruct (sum_by (month_label ∘ tx_created_at) volume (completed txs)) as [om|]; cbn.
  - destruct Mo as [Mr Fm].
    destruct (mapM two_places (entries om)) as [months|] eqn:E3; [|exfalso; revert E3; apply two_places_all; by rewrite entries_perm].
    split; [done|]. intros (t & Ht & [E|[Es E]]); exfalso; [by apply (Dr t Ht)|]. apply (Mr t); [|done]. by apply list_elem_of_filter.
  - split; [intros _|done]. destruct Mo as (t & [Hs Ht]%list_elem_of_filter & E). exists t. split; [done|]. by right.
Qed.

(** The provider figures are made up until an answer comes. *)
Definition placeholder_stats : AuthProviderStats :=
  MkStats (Some (num_of_Z 2340)) (Some (num_of_Z 1420)) (Some (num_of_Z 680)) (Some (num_of_Z 240)) None.

(** No answer cannot be told from an answer: where thousands are written with a comma, the cards and
    charts without data are those of a backend that counts 2340 users. *)
Theorem missing_stats_look_real :
  locale_number (num_of_Z 2340) = js "2,340" → locale_number (num_of_Z 1420) = js "1,420" →
  locale_number (num_of_Z 680) = js "680" → locale_number (num_of_Z 240) = js "240" →
  cards None = cards (Some placeholder_stats) ∧ pie_data None = pie_data (Some placeholder_stats) ∧
  bar_data None = bar_data (Some placeholder_stats).
Proof. intros E1 E2 E3 E4. unfold cards, figure. cbn [mbind option_bind fmap option_fmap option_map default placeholder_stats as_total_users as_privy_signups as_standard_signups as_keypair_signups]. by rewrite E1, E2, E3, E4. Qed.
End PageSpec.
End Analytics.

(** ** The QR page *)

Module Qr.
Record qr_form := QrForm { qf_merchant_id : str; qf_amount : str; qf_asset : str; qf_memo : str; qf_expiry : str }.

Definition initial_form : qr_form := QrForm [] [] (js "USDC") [] (js "3600").

Record qr_page := QrPage {
  qp_form : qr_form; qp_dataUrl : option str; qp_data : option str; qp_loading : bool; qp_error : option str }.

Definition initial_page : qr_page := QrPage initial_form None None false None.

Definition set_form (f : qr_form) (s : qr_page) : qr_page := QrPage f (qp_dataUrl s) (qp_data s) (qp_loading s) (qp_error s).
Definition start (s : qr_page) : qr_page := QrPage (qp_form s) (qp_dataUrl s) (qp_data s) true None.
Definition set_data (d : str) (s : qr_page) : qr_page := QrPage (qp_form s) (qp_dataUrl s) (Some d) (qp_loading s) (qp_error s).
Definition set_dataUrl (u : str) (s : qr_page) : qr_page := QrPage (qp_form s) (Some u) (qp_data s) (qp_loading s) (qp_error s).
Definition set_error (e : str) (s : qr_page) : qr_page := QrPage (qp_form s) (qp_dataUrl s) (qp_data s) (qp_loading s) (Some e).
Definition stop (s : qr_page) : qr_page := QrPage (qp_form s) (qp_dataUrl s) (qp_data s) false (qp_error s).

Definition assets : list str := [js "USDC"; js "USDT"; js "XLM"].

(** [Math.round(Number(form.amount) * 1_000_000)] *)
Definition micros (amount : str) : num := num_round (num_mul (Number amount) (num_of_Z 1000000)).

Definition qr_request (f : qr_form) : QrRequest :=
  MkQrRequest (qf_merchant_id f) (micros (qf_amount f)) (qf_asset f)
    (if truthy (qf_memo f) then Some (qf_memo f) else None) (Number (qf_expiry f)).

(** [QRCode.toDataURL(text, { width: 300, margin: 2 })] *)
Class QrCode := toDataURL : str → res str.

Section Page.
Context `{DashEnv, Browser, Multipart, Host W, QrCode}.
Abbreviation page := (M (qr_page * (api_state * W))).

Definition generate : page unit :=
  modify_state start;;
  s ← get_state;
  try_catch
    (v ← host (generateQr (qr_request (qp_form s)));
     field ← read_prop (js "qr_data") v;
     qr_data ← as_string field;
     modify_state (set_data qr_data);;
     dataUrl ← of_res (toDataURL qr_data);
     modify_state (set_dataUrl dataUrl))
    (λ e, modify_state (set_error (err_message e)));;
  modify_state stop.
End Page.

(** The link of [download] and the name of its file. *)
Definition download (now : Z) (s : qr_page) : option (str * str) :=
  match qp_dataUrl s with
  | Some u => if truthy u then Some (u, js "qr-" ++ qf_merchant_id (qp_form s) ++ js "-" ++ Z_to_str now ++ js ".png") else None
  | None => None
  end.

Definition submit_label (s : qr_page) : str := if qp_loading s then js "Generating" ++ [8230%N] else js "Generate QR Code".

(** The picture and the caption below it. *)
Definition picture (s : qr_page) : option (str * str) :=
  match qp_dataUrl s with
  | Some u => if truthy u then Some (u, take 60 (default [] (qp_data s)) ++ [8230%N]) else None
  | None => None
  end.

(** *** Properties *)

(** An amount with two decimals, up to a thousand million, is asked for in exactly its millionths. *)
Theorem qr_amount_exact k f : (0 <= k <= 10 ^ 11)%Z → qf_amount f = fixed_text 2 k →
  qr_amount (qr_request f) = Fin (k * 10000) 0.
Proof.
  intros Hk E. cbn [qr_amount qr_request]. rewrite E. unfold micros. rewrite Number_fixed_text by lia.
  change (10 ^ Z.of_nat 2)%Z with 100%Z. by apply Request.micros_exact.
Qed.

Section PageSpec.
Context `{DashEnv, Browser, Multipart, Host W, QrCode}.

(** What is read of an answer, in the order the code reads it. *)
Definition answer_text (v : json) : res str :=
  match v with
  | JNull => Throw type_error
  | _ => match json_get (js "qr_data") v with Some (JStr s) => Ok s | _ => Throw unchecked_cast end
  end.

(** How a request for a code ends: the page is never left loading. A refused request keeps the last code, its caption
    and its download beside the new error; an answer that cannot be drawn changes the caption below the old
    picture; else picture and caption are those of the answer. *)
Theorem qr_outcomes s (a : api_state) (w : W) :
  let '(r, aw) := generateQr (qr_request (qp_form s)) (a, w) in
  ∃ s', generate (s, (a, w)) = (Ok tt, (s', aw)) ∧ qp_loading s' = false ∧ qp_form s' = qp_form s ∧
    match r with
    | Throw e => qp_error s' = Some (err_message e) ∧ qp_dataUrl s' = qp_dataUrl s ∧ qp_data s' = qp_data s
    | Ok v =>
        match answer_text v with
        | Throw e => qp_error s' = Some (err_message e) ∧ qp_dataUrl s' = qp_dataUrl s ∧ qp_data s' = qp_data s
        | Ok t =>
            qp_data s' = Some t ∧
            match toDataURL t with
            | Ok u => qp_dataUrl s' = Some u ∧ qp_error s' = None
            | Throw e => qp_dataUrl s' = qp_dataUrl s ∧ qp_error s' = Some (err_message e)
            end
        end
    end.
Proof.
  destruct (generateQr (qr_request (qp_form s)) (a, w)) as [r aw] eqn:E. pose proof (run_host _ (start s) _ _ _ E) as R.
  unfold generate. rewrite (run_bind_ok _ _ _ _ _ (run_modify_state start s (a, w))), (run_bind_ok _ _ _ _ _ (run_get_state (start s) (a, w))).
  rewrite run_bind. unfold try_catch. change (qp_form (start s)) with (qp_form s). destruct r as [v|e].
  2: { rewrite (run_bind_throw _ _ _ _ _ R). eexists. by split_and!. }
  rewrite (run_bind_ok _ _ _ _ _ R), run_bind. unfold answer_text.
  assert (P : (read_prop (js "qr_data") v (start s, aw)) = (match v with JNull => Throw type_error | _ => Ok (json_get (js "qr_data") v) end, (start s, aw))) by (by destruct v).
  rewrite P. destruct v eqn:Ev; [eexists; by split_and!|..]; rewrite <-Ev;
    (rewrite run_bind; destruct (json_get (js "qr_data") v) as [[]|]; try (eexists; by split_and!); cbn [as_string];
     rewrite run_ret; cbv beta iota; rewrite (run_bind_ok _ _ _ _ _ (run_modify_state _ _ _)), run_bind; unfold of_res;
     destruct (toDataURL _) as [u|e]; eexists; by split_and!).
Qed.
End PageSpec.
End Qr.

(** ** The trend badge of a statistics card *)

Module Trend.
Record trend := MkTrend { tr_value : num; tr_percent : option num; tr_positive : option bool }.

Definition isPositive (t : trend) : bool := default (num_leb (Fin 0 0) (tr_value t)) (tr_positive t).

Definition sign (t : trend) : str :=
  if num_ltb (Fin 0 0) (tr_value t) then js "+" else if num_ltb (tr_value t) (Fin 0 0) then [] else [177%N].

Definition pct (t : trend) : str :=
  match tr_percent t with
  | None => []
  | Some p => js " (" ++ (if num_ltb (Fin 0 0) p then js "+" else []) ++ num_to_fixed 1 p ++ js "%)"
  end.

Definition badge `{Analytics.NumberFormat} (t : trend) : bool * str :=
  (isPositive t, sign t ++ Analytics.locale_number (tr_value t) ++ pct t).
End Trend.

(** ** Runs *)

Module Runs.
Import DashboardShell.Polling Analytics.
#[local] Existing Instance ascii_case.

(** A calendar of two-digit days: the label of ["2026-03-07"] is ["03-07"]. *)
Definition demo_dates : ChartDates :=
  {| day_label text := if bool_decide (length text = 10) then Some (drop 5 text) else None;
     month_label text := if bool_decide (length text = 10) then Some (js "in " ++ take 7 text) else None |}.
#[local] Existing Instance demo_dates.
#[local] Instance plain_numbers : NumberFormat := num_to_str.

Definition sent (date : string) (asset : string) (status : string) (micros : Z) : Transaction :=
  MkTransaction (js date) (Fin micros 0) (js asset) (js status).

Definition some_txs : list Transaction :=
  [sent "2026-03-07" "USDC" "completed" 1500000; sent "2026-03-06" "XLM" "failed" 2000000; sent "2025-03-07" "USDC" "completed" 250000].

(** Transactions of two years on one day of the calendar share a bar. *)
Example years_merged : dailyVolume <$> charts_of some_txs =
  Some [(js "03-07", dec_value false 175 (-2)); (js "03-06", Fin 2 0)].
Proof. vm_compute. reflexivity. Qed.

Lemma status_chart_counts_witness : (js "completed", Some (num_of_nat 2)) ∈ default [] (statusDist <$> charts_of some_txs).
Proof.
  destruct (charts_of some_txs) as [d|] eqn:E; [|vm_compute in E; discriminate E].
  destruct (status_chart_counts some_txs d) as (_ & C & _); [vm_compute; reflexivity| |exact E|].
  - apply (bool_decide_unpack _). vm_compute. exact I.
  - apply C. split; [apply (bool_decide_unpack _); vm_compute; exact I|vm_compute; reflexivity].
Defined.

Lemma asset_chart_sums_witness : (js "USDC", dec_value false 175 (-2)) ∈ default [] (assetDist <$> charts_of some_txs).
Proof.
  destruct (charts_of some_txs) as [d|] eqn:E; [|vm_compute in E; discriminate E].
  destruct (asset_chart_sums some_txs d) as (_ & C); [|exact E|].
  - apply (bool_decide_unpack _). vm_compute. exact I.
  - apply C. split; [apply (bool_decide_unpack _); vm_compute; exact I|vm_compute; reflexivity].
Defined.

(** Forty days in a row, the newest first. *)
Definition forty : list Transaction :=
  (λ n, MkTransaction (js "2026-0" ++ Z_to_str (Z.of_nat (8 - n / 10)) ++ js "-1" ++ Z_to_str (Z.of_nat (9 - n mod 10))) (Fin 1000000 0) (js "XLM") (js "pending")) <$> seq 0 40.

Lemma daily_chart_tail_witness : js "08-19" ∉ (default [] (dailyVolume <$> charts_of forty)).*1.
Proof.
  destruct (charts_of forty) as [d|] eqn:E; [|vm_compute in E; discriminate E].
  destruct (daily_chart_tail forty (drop 5 <$> (tx_created_at <$> forty)) d) as (_ & C).
  - apply Forall2_fmap_r, Forall2_fmap_r, Forall_Forall2_diag.
    change (Forall (λ x, day_label (tx_created_at x) = Some (drop 5 (tx_created_at x))) forty).
    apply (bool_decide_unpack _). vm_compute. exact I.
  - apply (bool_decide_unpack _). vm_compute. exact I.
  - exact E.
  - apply (C (default (sent "" "" "" 0) (head forty)) (tail forty)); [vm_compute; reflexivity|vm_compute; lia|vm_compute; reflexivity].
Defined.

Lemma short_label_plain k : length k = 5 ∨ length k = 10 → inherited k = false.
Proof.
  intros L. apply bool_decide_eq_false_2. intros Hk.
  assert (F : Forall (λ k, length k ≠ 5 ∧ length k ≠ 10) inherited_names) by (apply (bool_decide_unpack _); vm_compute; exact I).
  apply (proj1 (Forall_forall _ _) F) in Hk. lia.
Qed.

#[local] Instance demo_labels : PlainLabels.
Proof.
  split; intros text k; cbn [day_label month_label demo_dates]; case_bool_decide as L; [|done| |done];
    intros [= <-]; apply short_label_plain; [left; by rewrite length_drop, L|right].
  change (length (js "in " ++ take 7 text) = 10). rewrite length_app, length_take, L. done.
Qed.

Lemma unreadable_date_takes_page_witness :
  AnalyticsPage (Poll (Some (sent "soon" "XLM" "failed" 1 :: some_txs)) false None) initial_poll = None.
Proof.
  apply (unreadable_date_takes_page (sent "soon" "XLM" "failed" 1 :: some_txs) initial_poll).
  - apply (bool_decide_unpack _). vm_compute. exact I.
  - exists (sent "soon" "XLM" "failed" 1). split; [left|left; vm_compute; reflexivity].
Defined.

Definition comma_numbers : NumberFormat := λ n,
  let s := num_to_str n in if bool_decide (length s = 4) then take 1 s ++ js "," ++ drop 1 s else s.

Lemma missing_stats_look_real_witness :
  @cards comma_numbers None = @cards comma_numbers (Some placeholder_stats).
Proof. apply (@missing_stats_look_real comma_numbers); vm_compute; reflexivity. Defined.

Lemma qr_amount_exact_witness :
  qr_amount (Qr.qr_request (Qr.QrForm (js "m1") (js "19.99") (js "XLM") [] (js "3600"))) = Fin 19990000 0.
Proof. apply (Qr.qr_amount_exact 1999); [lia|vm_compute; reflexivity]. Defined.

Example falling_badge :
  Trend.badge (Trend.MkTrend (Fin (-5) 0) (Some (Fin (-5) (-1))) None) = (false, js "-5 (-2.5%)").
Proof. vm_compute. reflexivity. Qed.
End Runs.
