(* ===== verification/DashboardNav.v ===== *)
(** * The frame of the dashboard

    Models of [dashboard/lib/nav.ts] and of the links of [components/Sidebar.tsx] (module Nav),
    [components/CommandPalette.tsx] (Palette), [components/MobileNavDrawer.tsx] with its focus trap (Drawer), the
    keys of [app/dashboard/layout.tsx] over both (Shell), [components/NotificationBell.tsx] (Bell) over the
    notifications of DashboardShell, and [components/TruncatedAddress.tsx] with [ThemeSelector.tsx]
    (Small). The browser's own movement of the focus, the matching of [cmdk] and [date-fns] are parameters. *)

From S2P Require Import Prelude JsString JsNumber Tables Effects Scripts DashboardShell.

(** ** The routes *)

Module Nav.
Record DashboardNavItem := MkNav { nv_href : str; nv_label : str; nv_icon : str }.

Definition DASHBOARD_NAV : list DashboardNavItem :=
  [MkNav (js "/dashboard") (js "Overview") [11035%N];
   MkNav (js "/dashboard/transactions") (js "Transactions") [55357%N; 56523%N];
   MkNav (js "/dashboard/payouts") (js "Payouts") [55357%N; 56504%N];
   MkNav (js "/dashboard/qr") (js "QR Codes") [11036%N];
   MkNav (js "/dashboard/analytics") (js "Analytics") [55357%N; 56520%N];
   MkNav (js "/dashboard/contracts") (js "Contracts") [55357%N; 56599%N];
   MkNav (js "/dashboard/yield") (js "Yield Vault") [55356%N; 57318%N]].

(** The links of the sidebar and of the drawer; the flag is [path === href]. *)
Definition nav_links (path : str) : list (DashboardNavItem * bool) :=
  (λ i, (i, str_eqb path (nv_href i))) <$> DASHBOARD_NAV.

(** The entries of the command palette, written down a second time there. *)
Record NavItem := MkPaletteItem { ni_label : str; ni_href : str; ni_icon : str; ni_keywords : option str }.

Definition NAV_ITEMS : list NavItem :=
  [MkPaletteItem (js "Overview") (js "/dashboard") [11035%N] (Some (js "home summary stats"));
   MkPaletteItem (js "Transactions") (js "/dashboard/transactions") [55357%N; 56523%N] (Some (js "payments social feed"));
   MkPaletteItem (js "Payouts") (js "/dashboard/payouts") [55357%N; 56504%N] (Some (js "batch disburse withdraw"));
   MkPaletteItem (js "QR Codes") (js "/dashboard/qr") [11036%N] (Some (js "scan generate merchant"));
   MkPaletteItem (js "Analytics") (js "/dashboard/analytics") [55357%N; 56520%N] (Some (js "charts reports graph"));
   MkPaletteItem (js "Contracts") (js "/dashboard/contracts") [55357%N; 56599%N] (Some (js "soroban smart contract health"));
   MkPaletteItem (js "Yield Vault") (js "/dashboard/yield") [55356%N; 57318%N] (Some (js "apy tvl deposit"))].

(** [`${item.label} ${item.keywords ?? ""}`] *)
Definition item_value (i : NavItem) : str := ni_label i ++ js " " ++ default [] (ni_keywords i).

(** *** Properties *)

Lemma hrefs_distinct : NoDup (nv_href <$> DASHBOARD_NAV).
Proof. apply (bool_decide_unpack _). vm_compute. exact I. Qed.

(** On a route of the dashboard exactly one link is marked as the current one, its own; elsewhere none is. The
    palette, which keeps its own list, leads to the same pages. *)
Theorem one_current_link path :
  (∀ i, i ∈ DASHBOARD_NAV → nv_href i = path → filter (λ l, l.2 = true) (nav_links path) = [(i, true)]) ∧
  (path ∉ nv_href <$> DASHBOARD_NAV → filter (λ l, l.2 = true) (nav_links path) = []) ∧
  (λ i, MkNav (ni_href i) (ni_label i) (ni_icon i)) <$> NAV_ITEMS = DASHBOARD_NAV.
Proof.
  unfold nav_links. pose proof hrefs_distinct as N. split_and!; [| |by vm_compute].
  - intros i Hi <-. revert N Hi. generalize DASHBOARD_NAV as l. induction l as [|j l IH]; [by intros _ ?%elem_of_nil|].
    rewrite fmap_cons. intros [Hj N]%NoDup_cons [->|Hi]%elem_of_cons; cbn [fmap list_fmap]; rewrite filter_cons; cbn [snd].
    + rewrite str_eqb_refl, decide_True by done. f_equal. apply filter_Forall_nil, Forall_fmap, Forall_forall.
      intros k Hk. cbn. rewrite (proj2 (str_eqb_false _ _)); [done|]. intros E. apply Hj. rewrite E. by apply list_elem_of_fmap_2.
    + rewrite (proj2 (str_eqb_false (nv_href i) (nv_href j))); [rewrite decide_False by done; by apply IH|].
      intros E. apply Hj. rewrite <-E. by apply list_elem_of_fmap_2.
  - intros H. apply filter_Forall_nil, Forall_fmap, Forall_forall. intros k Hk. cbn.
    rewrite (proj2 (str_eqb_false _ _)); [done|]. intros ->. apply H. by apply list_elem_of_fmap_2.
Qed.
End Nav.

(** ** Keys *)

Record key_event := KeyEvent { ke_key : str; ke_shift : bool; ke_ctrl : bool; ke_meta : bool }.

Definition is_escape (e : key_event) : bool := str_eqb (ke_key e) (js "Escape").
Definition is_tab (e : key_event) : bool := str_eqb (ke_key e) (js "Tab").

(** ** The drawer *)

Module Drawer.
(** What may have the focus: an element of the page, an item of the panel, or nothing. *)
Inductive focus := FPage (e : nat) | FPanel (i : nat) | FBody.

#[export] Instance focus_eq_dec : EqDecision focus.
Proof. solve_decision. Defined.

(** The close button, the links and the sign-out button. *)
Definition panel_items : nat := S (length Nav.DASHBOARD_NAV + 1).

Record drawer := MkDrawer {
  dr_open : bool; dr_focus : focus; dr_opener : option focus; dr_overflow : str; dr_previous : option str; dr_frame : bool }.

Definition initial_drawer (f : focus) (overflow : str) : drawer := MkDrawer false f None overflow None false.

Definition with_focus (f : focus) (s : drawer) : drawer :=
  MkDrawer (dr_open s) f (dr_opener s) (dr_overflow s) (dr_previous s) (dr_frame s).
Definition with_open (b : bool) (s : drawer) : drawer :=
  MkDrawer b (dr_focus s) (dr_opener s) (dr_overflow s) (dr_previous s) (dr_frame s).

(** [element.focus()]: the body takes no focus. *)
Definition move_focus (f : focus) (s : drawer) : drawer := match f with FBody => s | _ => with_focus f s end.

(** Where the browser moves the focus by itself, backwards with Shift, and which elements of the page there are. *)
Class Page := {
  next_focus : bool → focus → focus;
  page_has : nat → bool;
}.

(** Inside the panel the default goes to the neighbour in document order. *)
Class PageLaws `{Page} := {
  tab_forward i : S i < panel_items → next_focus false (FPanel i) = FPanel (S i);
  tab_backward i : S i < panel_items → next_focus true (FPanel (S i)) = FPanel i;
}.

Section Drawer.
Context `{Page}.

Definition isConnected (f : focus) (s : drawer) : bool :=
  match f with FPage e => page_has e | FPanel i => dr_open s | FBody => true end.

(** The effect of an open drawer. *)
Definition effect (s : drawer) : drawer :=
  MkDrawer (dr_open s) (dr_focus s) (Some (dr_focus s)) (js "hidden") (Some (dr_overflow s)) true.

Definition cleanup (s : drawer) : drawer :=
  let s := MkDrawer (dr_open s) (dr_focus s) (dr_opener s) (default (dr_overflow s) (dr_previous s)) (dr_previous s) false in
  match dr_opener s with Some f => if isConnected f s then move_focus f s else s | None => s end.

(** The panel leaves the document, and takes the focus it held with it. *)
Definition unmount_panel (s : drawer) : drawer :=
  match dr_focus s with FPanel _ => with_focus FBody s | _ => s end.

Definition open_drawer (s : drawer) : drawer := if dr_open s then s else effect (with_open true s).
Definition close_drawer (s : drawer) : drawer := if dr_open s then cleanup (unmount_panel (with_open false s)) else s.

(** The parent renders again: [onClose] is a new function, so the effect runs again. *)
Definition rerender (s : drawer) : drawer := if dr_open s then effect (cleanup s) else s.

(** [requestAnimationFrame]: the first item gets the focus. *)
Definition frame (s : drawer) : drawer :=
  if dr_frame s then with_focus (FPanel 0) (MkDrawer (dr_open s) (dr_focus s) (dr_opener s) (dr_overflow s) (dr_previous s) false) else s.

(** A Tab key: the handler of the open drawer, else the browser. *)
Definition tab (shift : bool) (s : drawer) : drawer :=
  if dr_open s && (shift && bool_decide (dr_focus s = FPanel 0)) then with_focus (FPanel (panel_items - 1)) s
  else if dr_open s && (negb shift && bool_decide (dr_focus s = FPanel (panel_items - 1))) then with_focus (FPanel 0) s
  else with_focus (next_focus shift (dr_focus s)) s.

(** [handleKeyDown] and what the browser does after it. *)
Definition handleKeyDown (e : key_event) (s : drawer) : drawer :=
  if dr_open s && is_escape e then close_drawer s else if is_tab e then tab (ke_shift e) s else s.

Inductive event :=
  | EOpen | EClose | ERender | EFrame
  | EKey (e : key_event)
  | EFocus (i : nat).   (** an item of the panel is clicked that keeps it open *)

Definition step (s : drawer) (ev : event) : drawer :=
  match ev with
  | EOpen => open_drawer s
  | EClose => close_drawer s
  | ERender => rerender s
  | EFrame => frame s
  | EKey e => handleKeyDown e s
  | EFocus i => if dr_open s && (i <? panel_items)%nat then with_focus (FPanel i) s else s
  end.

Definition run (s : drawer) (evs : list event) : drawer := foldl step s evs.

(** *** Properties *)

(** The abstract trap: a position that turns in a circle. *)
Definition turn (n : nat) (shift : bool) (i : nat) : nat := if shift then (i + (n - 1)) mod n else (i + 1) mod n.

Lemma tab_turns `{!PageLaws} shift s i : dr_open s = true → dr_focus s = FPanel i → i < panel_items →
  tab shift s = with_focus (FPanel (turn panel_items shift i)) s.
Proof.
  intros Ho Hf Hi. unfold tab, turn. rewrite Ho, Hf. cbn [andb]. destruct shift; cbn [negb andb].
  - destruct i as [|i].
    + rewrite bool_decide_eq_true_2 by done. by rewrite Nat.mod_small by (unfold panel_items; lia).
    + rewrite bool_decide_eq_false_2 by done. rewrite tab_backward by done.
      replace (S i + (panel_items - 1)) with (i + 1 * panel_items) by (unfold panel_items; lia). by rewrite Nat.Div0.mod_add, Nat.mod_small by lia.
  - destruct (decide (i = panel_items - 1)) as [->|Hn].
    + rewrite bool_decide_eq_true_2 by done. by replace (panel_items - 1 + 1) with panel_items by (unfold panel_items; lia).
    + rewrite bool_decide_eq_false_2 by congruence. rewrite tab_forward, Nat.mod_small by lia. by rewrite Nat.add_1_r.
Qed.

(** The open drawer traps the focus: once it is on an item of the panel, any sequence of Tab and
    Shift+Tab turns it around the items in a circle and never lets it out. *)
Theorem focus_is_trapped `{!PageLaws} shifts s i : dr_open s = true → dr_focus s = FPanel i → i < panel_items →
  run s ((λ b, EKey (KeyEvent (js "Tab") b false false)) <$> shifts)
  = with_focus (FPanel (foldl (λ i b, turn panel_items b i) i shifts)) s ∧
  foldl (λ i b, turn panel_items b i) i shifts < panel_items.
Proof.
  revert s i. induction shifts as [|b shifts IH]; intros s i Ho Hf Hi; cbn [foldl fmap list_fmap].
  - split; [|done]. unfold run, with_focus. cbn. rewrite <-Hf. by destruct s.
  - unfold run in *. cbn [foldl]. assert (turn panel_items b i < panel_items) as Ht.
    { unfold turn. destruct b; apply Nat.mod_upper_bound; unfold panel_items; lia. }
    assert (step s (EKey (KeyEvent (js "Tab") b false false)) = with_focus (FPanel (turn panel_items b i)) s) as ->.
    { cbn [step]. unfold handleKeyDown. change (is_escape _) with false. change (is_tab _) with true. rewrite andb_false_r. by apply tab_turns. }
    destruct (IH (with_focus (FPanel (turn panel_items b i)) s) (turn panel_items b i)) as [E L]; [done..|].
    rewrite E. split; [|done]. by destruct s.
Qed.

(** What holds from the moment the drawer opens, over an opener that stays on the page. *)
Definition held (e : nat) (overflow : str) (s : drawer) : Prop :=
  if dr_open s then dr_opener s = Some (FPage e) ∧ dr_previous s = Some overflow ∧ dr_overflow s = js "hidden"
  else dr_focus s = FPage e ∧ dr_overflow s = overflow ∧ dr_frame s = false.

(** Events that do not touch a closed drawer's page. *)
Definition within_drawer (ev : event) : bool := match ev with EKey e => negb (is_tab e) | _ => true end.

Lemma held_step e overflow s ev : page_has e = true → (dr_open s = true ∨ within_drawer ev = true) → held e overflow s → held e overflow (step s ev).
Proof.
  intros Hp. destruct s as [o f op ov pv fr]. unfold held. destruct o; cbn.
  - intros _ (-> & -> & ->). destruct ev; cbn; try done.
    + unfold close_drawer, cleanup, unmount_panel. cbn. by destruct f; cbn; rewrite Hp.
    + unfold rerender, cleanup. cbn. by rewrite Hp.
    + unfold frame. cbn. by destruct fr.
    + unfold handleKeyDown. cbn. destruct (is_escape e0); cbn.
      * unfold close_drawer, cleanup, unmount_panel. cbn. by destruct f; cbn; rewrite Hp.
      * destruct (is_tab e0); [|done]. unfold tab. cbn. by repeat case_match.
    + by destruct (Nat.leb i _).
  - intros [?|Hw] (-> & -> & ->); [done|]. destruct ev; try done. cbn in Hw. cbn. unfold handleKeyDown. cbn.
    by destruct (is_tab e0).
Qed.

(** Tab is pressed only while the drawer is open. *)
Fixpoint tabs_inside (s : drawer) (evs : list event) : bool :=
  match evs with [] => true | ev :: evs' => (dr_open s || within_drawer ev) && tabs_inside (step s ev) evs' end.

(** C33: Closing puts back what opening took: whatever happened while the drawer was open (keys, frames, clicks and
    renders of the parent), once it is closed the page scrolls as before and the button that opened it has
    the focus. *)
Theorem closing_restores e overflow evs : page_has e = true →
  tabs_inside (initial_drawer (FPage e) overflow) evs = true →
  let s := run (initial_drawer (FPage e) overflow) evs in
  dr_open s = false → dr_focus s = FPage e ∧ dr_overflow s = overflow ∧ dr_frame s = false.
Proof.
  intros Hp F s Hs. assert (held e overflow s) as Hh.
  { unfold s, run. clear s Hs. assert (G : held e overflow (initial_drawer (FPage e) overflow)) by done.
    revert G F. generalize (initial_drawer (FPage e) overflow). induction evs as [|ev evs IH]; intros s G F; [done|].
    cbn [foldl]. cbn [tabs_inside] in F. apply andb_true_iff in F as [Hev F]. apply orb_true_iff in Hev. apply IH; [|done]. by apply held_step. }
  unfold held in Hh. by rewrite Hs in Hh.
Qed.

(** A render of the parent while the drawer is open sends the focus back to the first item. *)
Lemma render_moves_focus s e : dr_open s = true → dr_opener s = Some (FPage e) → page_has e = true →
  dr_focus (step s ERender) = FPage e ∧ dr_focus (run s [ERender; EFrame]) = FPanel 0.
Proof. destruct s as [o f op ov pv fr]. cbn. intros -> -> Hp. unfold run. cbn. unfold rerender, cleanup. cbn. by rewrite Hp. Qed.
End Drawer.
End Drawer.

(** ** The palette and the keys of the layout *)

Module Shell.
Import Nav Drawer.

Record shell := MkShell { sh_palette : bool; sh_search : str; sh_drawer : drawer; sh_pushed : list str }.

Definition initial_shell (f : focus) (overflow : str) : shell := MkShell false [] (initial_drawer f overflow) [].

(** How [cmdk] matches the value of an entry with the search; the number of the search field among the
    elements of the page. *)
Class Palette := { matches : str → str → bool; search_field : nat }.

Section Shell.
Context `{Page, Palette}.

Definition shown_items (s : shell) : list NavItem :=
  if sh_palette s then filter (λ i, matches (item_value i) (sh_search s) = true) NAV_ITEMS else [].

(** The palette as it is next: a search field that appears takes the focus and is emptied, one that
    goes loses it; and a drawer that stays open runs its effect again when the layout renders. *)
Definition set_palette (open : bool) (d : drawer) (s : shell) : shell :=
  if Bool.eqb open (sh_palette s) then MkShell open (sh_search s) d (sh_pushed s)
  else
    let d := if open then with_focus (FPage search_field) d
             else if bool_decide (dr_focus d = FPage search_field) then with_focus FBody d else d in
    MkShell open (if open then [] else sh_search s)
      (if dr_open (sh_drawer s) && dr_open d then rerender d else d) (sh_pushed s).

Definition is_shortcut (e : key_event) : bool := (ke_meta e || ke_ctrl e) && str_eqb (ke_key e) (js "k").

(** A key: the listeners of the layout, of an open palette and of an open drawer. *)
Definition key (e : key_event) (s : shell) : shell :=
  set_palette (if is_shortcut e then negb (sh_palette s) else if is_escape e && sh_palette s then false else sh_palette s)
    (handleKeyDown e (sh_drawer s)) s.

Inductive shell_event :=
  | SKey (e : key_event)
  | SPaletteButton | SBackdrop
  | SSelect (i : NavItem)
  | SSearch (text : str)
  | SHamburger | SDrawerClose | SFrame.

Definition with_drawer (d : drawer) (s : shell) : shell := MkShell (sh_palette s) (sh_search s) d (sh_pushed s).

Definition shell_step (s : shell) (ev : shell_event) : shell :=
  match ev with
  | SKey e => key e s
  | SPaletteButton => set_palette true (sh_drawer s) s
  | SBackdrop => set_palette false (sh_drawer s) s
  | SSelect i => if sh_palette s then set_palette false (sh_drawer s) (MkShell (sh_palette s) (sh_search s) (sh_drawer s) (sh_pushed s ++ [ni_href i])) else s
  | SSearch text => if sh_palette s then MkShell true text (sh_drawer s) (sh_pushed s) else s
  | SHamburger => with_drawer (open_drawer (sh_drawer s)) s
  | SDrawerClose => with_drawer (close_drawer (sh_drawer s)) s
  | SFrame => with_drawer (frame (sh_drawer s)) s
  end.

(** *** Properties *)

Definition ctrl_k : key_event := KeyEvent (js "k") false true false.
Definition escape : key_event := KeyEvent (js "Escape") false false false.

Lemma close_closes s : dr_open (close_drawer s) = false.
Proof.
  destruct s as [[] f op ov pv fr]; [|done]. unfold close_drawer, cleanup, unmount_panel. cbn.
  destruct f, op as [[]|]; cbn; try done; by case_match.
Qed.

Lemma rerender_open s : dr_open (rerender s) = dr_open s.
Proof. destruct s as [[] f op ov pv fr]; [|done]. unfold rerender. cbn. unfold cleanup. cbn. destruct op as [f'|]; [|done]. destruct f'; cbn; by repeat case_match. Qed.

Lemma shortcut_keeps_drawer d : handleKeyDown ctrl_k d = d.
Proof. unfold handleKeyDown. change (is_escape ctrl_k) with false. change (is_tab ctrl_k) with false. by rewrite andb_false_r. Qed.

(** The shortcut turns the palette on and off and leaves the drawer as open as it was; a palette that
    opens has an empty search, so every page is offered that matches nothing typed; Escape closes both. *)
Theorem shell_keys s :
  sh_palette (key ctrl_k s) = negb (sh_palette s) ∧
  dr_open (sh_drawer (key ctrl_k s)) = dr_open (sh_drawer s) ∧
  (∀ ev, sh_palette s = false → sh_palette (shell_step s ev) = true → sh_search (shell_step s ev) = []) ∧
  sh_palette (key escape s) = false ∧ dr_open (sh_drawer (key escape s)) = false.
Proof.
  assert (Pal : ∀ b d, sh_palette (set_palette b d s) = b).
  { intros b d. unfold set_palette. by destruct (Bool.eqb b (sh_palette s)). }
  split_and!.
  - unfold key. change (is_shortcut ctrl_k) with true. apply Pal.
  - unfold key. rewrite shortcut_keeps_drawer. change (is_shortcut ctrl_k) with true. cbn [andb]. unfold set_palette.
    destruct (sh_palette s); cbn [negb Bool.eqb].
    + case_bool_decide; cbn [sh_drawer]; case_match; by rewrite ?rerender_open.
    + cbn [sh_drawer]. case_match; by rewrite ?rerender_open.
  - assert (E : ∀ b d s, sh_palette s = false → b = true → sh_search (set_palette b d s) = []) by (intros b d s' Hs ->; unfold set_palette; by rewrite Hs).
    intros ev Hs Hp. destruct ev; cbn [shell_step] in *; rewrite ?Hs in *; try done;
      [unfold key in *; apply E; [done|]; by rewrite Pal in Hp|by apply E|by rewrite Pal in Hp|cbn in Hp; congruence..].
  - unfold key. rewrite Pal. change (is_shortcut escape) with false. change (is_escape escape) with true. by destruct (sh_palette s).
  - assert (Cl : dr_open (handleKeyDown escape (sh_drawer s)) = false).
    { unfold handleKeyDown. change (is_escape escape) with true. rewrite andb_true_r. change (is_tab escape) with false.
      destruct (dr_open (sh_drawer s)) eqn:Eo; [apply close_closes|done]. }
    unfold key. change (is_shortcut escape) with false. change (is_escape escape) with true. cbn [andb].
    set (d := handleKeyDown _ _) in *. unfold set_palette. destruct (sh_palette s); cbn [Bool.eqb sh_drawer]; [|done].
    case_bool_decide; cbn [dr_open with_focus]; by rewrite Cl, andb_false_r.
Qed.

(** With the drawer open the palette opens without the focus: the drawer's effect takes it back, and
    after the next frame it is on the first item of the drawer. *)
Theorem palette_loses_focus s e : dr_open (sh_drawer s) = true → dr_opener (sh_drawer s) = Some (FPage e) →
  page_has e = true → sh_palette s = false →
  sh_palette (key ctrl_k s) = true ∧ dr_focus (sh_drawer (key ctrl_k s)) = FPage e ∧
  dr_focus (sh_drawer (shell_step (key ctrl_k s) SFrame)) = FPanel 0.
Proof.
  destruct s as [pa se [o f op ov pv fr] pu]. cbn. intros -> -> Hp ->. unfold key. rewrite shortcut_keeps_drawer. change (is_shortcut ctrl_k) with true. cbn.
  unfold set_palette. cbn. unfold rerender, cleanup. cbn. by rewrite Hp.
Qed.
End Shell.
End Shell.

(** ** The notification bell *)

Module Bell.
Import DashboardShell.Notifications.

(** [format(new Date(n.timestamp), "MMM d, yyyy HH:mm")]; [None] when it throws. *)
Class NoticeDates := format_time : str → option str.

Record bell_row := BellRow { br_severity : severity; br_title : str; br_message : str; br_time : str; br_unread : bool }.

Inductive listing := NoNotices | Notices (l : list bell_row).

Record bell := MkBell { be_label : str; be_badge : option str; be_mark_all : bool; be_list : option listing }.

(** [`Notifications${unreadCount > 0 ? ` — ${unreadCount} unread` : ""}`] *)
Definition aria_label (n : nat) : str :=
  js "Notifications" ++ (if (0 <? n)%nat then js " " ++ [8212%N] ++ js " " ++ N_to_str (N.of_nat n) ++ js " unread" else []).

Definition badge_text (n : nat) : option str :=
  if (0 <? n)%nat then Some (if (99 <? n)%nat then js "99+" else N_to_str (N.of_nat n)) else None.

(** A press outside the bell closes the list. *)
Inductive bell_event := BToggle | BMouseDown (inside : bool).

Definition bell_open (open : bool) (ev : bell_event) : bool :=
  match ev with BToggle => negb open | BMouseDown inside => open && inside end.

Section Bell.
Context `{NoticeDates}.

Definition row_of (n : AppNotification) : option bell_row :=
  t ← format_time (nt_timestamp n);
  Some (BellRow (nt_severity n) (nt_title n) (nt_message n) t (negb (nt_read n))).

Definition listing_of (c : center) : option listing :=
  match ct_notifications c with [] => Some NoNotices | l => Notices <$> mapM row_of l end.

(** [None]: rendering throws. *)
Definition NotificationBell (open : bool) (c : center) : option bell :=
  let n := unreadCount c in
  if open then l ← listing_of c; Some (MkBell (aria_label n) (badge_text n) (0 <? n)%nat (Some l))
  else Some (MkBell (aria_label n) (badge_text n) false None).

(** *** Properties *)

Lemma unread_all c : unreadCount (markAllRead c) = 0.
Proof. unfold unreadCount, markAllRead. cbn. induction (ct_notifications c) as [|n l IH]; [done|]. rewrite fmap_cons, filter_cons_False; [done|]. by cbn. Qed.

Lemma unread_one c n : NoDup (ids c) → n ∈ ct_notifications c → nt_read n = false →
  S (unreadCount (markRead (nt_id n) c)) = unreadCount c.
Proof.
  unfold ids, unreadCount, markRead. cbn [ct_notifications]. induction (ct_notifications c) as [|m l IH]; [by intros _ ?%elem_of_nil|].
  rewrite !fmap_cons. intros [Hm N]%NoDup_cons [->|Hn]%elem_of_cons Hr.
  - rewrite str_eqb_refl. rewrite filter_cons_False by (by cbn). rewrite filter_cons_True by done. cbn [length]. do 2 f_equal.
    assert (E : (λ n, if str_eqb (nt_id n) (nt_id m) then mark_read n else n) <$> l = l); [|by rewrite E].
    rewrite <-(list_fmap_id l) at 2. apply list_fmap_ext. intros i k Hk. rewrite (proj2 (str_eqb_false _ _)); [done|].
    intros E. apply Hm. rewrite <-E. apply list_elem_of_fmap_2. by eapply list_elem_of_lookup_2.
  - rewrite (proj2 (str_eqb_false (nt_id m) _)).
    2: { intros E. apply Hm. rewrite E. by apply list_elem_of_fmap_2. }
    rewrite !filter_cons. destruct (decide (nt_read m = false)); cbn [length]; by rewrite <-(IH N Hn Hr).
Qed.

(** The bell counts what is unread: there is a badge exactly when something is, "99+" above ninety-nine;
    pressing an unread notification takes one from the count, marking all removes the badge. *)
Theorem bell_counts_unread c : NoDup (ids c) →
  (badge_text (unreadCount c) = None ↔ ∀ n, n ∈ ct_notifications c → nt_read n = true) ∧
  (99 < unreadCount c → badge_text (unreadCount c) = Some (js "99+")) ∧
  (∀ n, n ∈ ct_notifications c → nt_read n = false → S (unreadCount (markRead (nt_id n) c)) = unreadCount c) ∧
  badge_text (unreadCount (markAllRead c)) = None.
Proof.
  intros N. split_and!.
  - unfold badge_text, unreadCount. destruct (Nat.ltb_spec 0 (length (filter (λ n, nt_read n = false) (ct_notifications c)))) as [L|L].
    + split; [done|]. intros A. exfalso. destruct (filter _ _) as [|n l] eqn:E; [cbn in L; lia|].
      assert (n ∈ filter (λ n, nt_read n = false) (ct_notifications c)) as [Hn Hin]%list_elem_of_filter by (rewrite E; left).
      rewrite A in Hn; done.
    + split; [intros _ n Hn|done]. destruct (nt_read n) eqn:E; [done|]. exfalso.
      assert (n ∈ filter (λ n, nt_read n = false) (ct_notifications c)) as Hin by by apply list_elem_of_filter.
      destruct (filter _ _); [by apply elem_of_nil in Hin|cbn in L; lia].
  - intros L. unfold badge_text. rewrite (proj2 (Nat.ltb_lt _ _)), (proj2 (Nat.ltb_lt 99 _)) by lia. done.
  - intros n. by apply unread_one.
  - by rewrite unread_all.
Qed.

(** The closed bell always renders; opening it renders every notification in order, or takes the dashboard down
    when one has an unreadable time. *)
Theorem bell_list_all_or_nothing c :
  NotificationBell false c ≠ None ∧
  (NotificationBell true c = None ↔ ∃ n, n ∈ ct_notifications c ∧ format_time (nt_timestamp n) = None) ∧
  (∀ b rows, NotificationBell true c = Some b → be_list b = Some (Notices rows) →
     br_title <$> rows = nt_title <$> ct_notifications c ∧ length (filter (λ r, br_unread r = true) rows) = unreadCount c).
Proof.
  split; [done|]. unfold NotificationBell, listing_of, unreadCount. destruct (ct_notifications c) as [|n l]; cbn -[mapM filter].
  { split; [split; [done|by intros (n & ?%elem_of_nil & _)]|]. by intros b rows [= <-]. }
  destruct (mapM row_of (n :: l)) as [rows|] eqn:E; cbn -[filter].
  - apply mapM_Some_1 in E. split.
    + split; [done|]. intros (m & Hm & Ht). exfalso. apply list_elem_of_lookup in Hm as [i Hi].
      destruct (Forall2_lookup_l _ _ _ _ _ E Hi) as (r & _ & Hr). unfold row_of in Hr. by rewrite Ht in Hr.
    + intros b rows' [= <-] [= <-]. change (nt_title n :: (nt_title <$> l)) with (nt_title <$> (n :: l)). revert E. generalize (n :: l). intros k. induction 1 as [|m r k rs Hr F [IH1 IH2]]; [done|].
      unfold row_of in Hr. destruct (format_time _); [|done]. injection Hr as <-. rewrite !fmap_cons. cbn [br_title].
      split; [by f_equal|]. rewrite !filter_cons. cbn [br_unread]. destruct (nt_read m); cbn [negb].
      * by rewrite !decide_False by done.
      * rewrite !decide_True by done. cbn [length]. by f_equal.
  - split; [|done]. split; [intros _|done]. apply mapM_None, Exists_exists in E as (m & Hm & E). exists m. split; [done|].
    unfold row_of in E. by destruct (format_time _).
Qed.
End Bell.
End Bell.

(** ** The address button and the theme *)

Module Small.
Import DashboardShell.Address.

(** The props of [TruncatedAddress] with their defaults. *)
Record address_button := AddressButton { ab_label : str; ab_text : str; ab_icon : option bool; ab_tooltip : bool }.

Definition TruncatedAddress (address : str) (head tail : option nat) (showCopyIcon : option bool) (s : feedback) : address_button :=
  AddressButton (js "Copy address " ++ address) (truncateAddress address (default 1 head) (default 4 tail))
    (if default true showCopyIcon then Some (fb_copied s) else None) (fb_copied s).

(** The keys that copy, as a press does. *)
Definition key_copies (e : key_event) : bool := str_eqb (ke_key e) (js "Enter") || str_eqb (ke_key e) (js " ").

Inductive theme_icon := Sun | Moon | Laptop.

(** [getIcon], once mounted. *)
Definition getIcon (theme : option str) : theme_icon :=
  match theme with
  | Some t => if str_eqb t (js "light") then Sun else if str_eqb t (js "dark") then Moon else Laptop
  | None => Laptop
  end.

Definition theme_options : list (str * str) :=
  [(js "light", js "Light"); (js "dark", js "Dark"); (js "system", js "System")].

Definition ThemeSelector (mounted : bool) (theme : option str) : option theme_icon :=
  if mounted then Some (getIcon theme) else None.
End Small.

(** ** Runs *)

Module Runs.
Import Nav Drawer Shell.
#[local] Existing Instance ascii_case.

Definition demo_next (shift : bool) (f : focus) : focus :=
  match f with
  | FPanel i => if shift then match i with S j => FPanel j | 0 => FPage 5 end
                else if (S i <? panel_items)%nat then FPanel (S i) else FBody
  | FPage e => FPage (if shift then pred e else S e)
  | FBody => FPage 0
  end.

#[local] Instance demo_page : Page := {| next_focus := demo_next; page_has e := (e <? 6)%nat |}.
#[local] Instance demo_page_laws : PageLaws.
Proof. split; [|done]. intros i Hi. cbn [next_focus demo_page demo_next]. by rewrite (proj2 (Nat.ltb_lt _ _) Hi). Qed.
#[local] Instance demo_palette : Palette := {| matches v q := includes (to_lower q) (to_lower v); search_field := 9 |}.

Definition opened : drawer := run (initial_drawer (FPage 0) (js "auto")) [EOpen; EFrame].

Lemma focus_is_trapped_witness :
  dr_focus (run opened ((λ b, EKey (KeyEvent (js "Tab") b false false)) <$> [true; true; false; false; false])) = FPanel 1.
Proof.
  destruct (focus_is_trapped [true; true; false; false; false] opened 0) as [E _]; [reflexivity..|unfold panel_items; lia|].
  rewrite E. vm_compute. reflexivity.
Defined.

Lemma closing_restores_witness :
  dr_focus (run (initial_drawer (FPage 0) (js "auto")) [EOpen; EFrame; EKey (KeyEvent (js "Tab") false false false); ERender; EClose]) = FPage 0.
Proof. apply (closing_restores 0 (js "auto")); vm_compute; reflexivity. Defined.

(** Before its first frame the drawer does not hold the focus: a Tab goes on through the page behind it. *)
Example early_tab_escapes :
  dr_focus (run (initial_drawer (FPage 0) (js "auto")) [EOpen; EKey (KeyEvent (js "Tab") false false false)]) = FPage 1.
Proof. vm_compute. reflexivity. Qed.

Lemma one_current_link_witness :
  filter (λ l, l.2 = true) (nav_links (js "/dashboard/qr")) = [(MkNav (js "/dashboard/qr") (js "QR Codes") [11036%N], true)].
Proof. apply one_current_link; [do 3 right; left|reflexivity]. Defined.

(** On a page below a route no link is current. *)
Example nothing_current_below : filter (λ l, l.2 = true) (nav_links (js "/dashboard/payouts/7")) = [].
Proof. vm_compute. reflexivity. Qed.

Lemma palette_loses_focus_witness :
  let s := with_drawer opened (initial_shell (FPage 0) (js "auto")) in
  dr_focus (sh_drawer (shell_step (key ctrl_k s) SFrame)) = FPanel 0.
Proof. intros s. apply (palette_loses_focus s 0); first [vm_compute; reflexivity|done]. Defined.

Lemma shell_keys_witness : sh_palette (key ctrl_k (initial_shell FBody (js "auto"))) = true ∧
  dr_open (sh_drawer (key escape (with_drawer opened (initial_shell FBody (js "auto"))))) = false.
Proof. split; [apply shell_keys|apply shell_keys]. Defined.

Definition notice (id : string) (read : bool) : DashboardShell.Notifications.AppNotification :=
  DashboardShell.Notifications.MkNotification (js id) (js "High fee") (js "The fee is above its mean.") DashboardShell.Notifications.Warning (js "2026-01-02") read.
Definition two_notices : DashboardShell.Notifications.center :=
  DashboardShell.Notifications.Center [notice "a" false; notice "b" true] {[js "a"; js "b"]}.

Lemma bell_counts_unread_witness :
  Bell.badge_text (DashboardShell.Notifications.unreadCount (DashboardShell.Notifications.markRead (js "a") two_notices)) = None.
Proof.
  destruct (Bell.bell_counts_unread two_notices) as (_ & _ & C & _).
  - apply (bool_decide_unpack _). vm_compute. exact I.
  - pose proof (C (notice "a" false) ltac:(left) eq_refl) as E. change (DashboardShell.Notifications.nt_id (notice "a" false)) with (js "a") in E.
    change (DashboardShell.Notifications.unreadCount two_notices) with 1 in E. apply eq_add_S in E. by rewrite E.
Defined.

Lemma bell_list_all_or_nothing_witness : @Bell.NotificationBell (λ _, None) true two_notices = None.
Proof.
  apply (@Bell.bell_list_all_or_nothing (λ _, None) two_notices). exists (notice "a" false). split; [left|reflexivity].
Defined.
End Runs.
