(* ===== verification/AuditLog.v ===== *)
(** * The ledger audit log of the yield page

    Model of the audit tab of [dashboard/app/dashboard/yield/page.tsx]: the seeded records,
    the query to the backend and the merge of its answer, the filters, the sort, the pages
    and the summary figures. What its records can be is shown in AuditLedger. *)

From S2P Require Import Prelude JsString JsNumber JsRound JsDate Json UriCodec FormCodec Tables Effects Scripts Decode DashboardApi.

Inductive yield_action := ADeposit | AWithdraw | AYieldAccrual | AConfig.

#[export] Instance yield_action_eq_dec : EqDecision yield_action.
Proof. solve_decision. Defined.

Definition action_text (a : yield_action) : str :=
  match a with
  | ADeposit => js "deposit" | AWithdraw => js "withdraw"
  | AYieldAccrual => js "yield_accrual" | AConfig => js "config"
  end.

Record YieldTx := MkYieldTx {
  yt_id : str;
  yt_txHash : str;
  yt_timestamp : str;
  yt_address : str;
  yt_action : yield_action;
  yt_tokenVolume : num;
  yt_asset : str;
  yt_blockHeight : option num;
  yt_fee : option num;
  yt_yieldIndex : option num;
  yt_details : option str;
}.

Definition em_dash : str := [8212%N].
Definition default_fee : num := round_ratio 1 100000.
(** An index literal in units of [1e-8]. *)
Definition index8 (k : Z) : num := round_ratio k 100000000.

Definition mock_tx (id txHash timestamp address : str) (action : yield_action) (volume : num) (asset : str)
    (block index : Z) (details : option str) : YieldTx :=
  MkYieldTx id txHash timestamp address action volume asset (Some (num_of_Z block)) (Some default_fee)
    (Some (index8 index)) details.

Definition MOCK_TXS : list YieldTx :=
  [mock_tx (js "1") (js "abc123def456789012345678901234567890abcd") (js "2026-06-25T10:00:00Z")
     (js "GD3XABCDEFGHIJKLMNOPQRSTUVWXYZ12345678ABCD") ADeposit (num_of_Z 1000) (js "USDC") 48231902 104285012 None;
   mock_tx (js "2") (js "bcd234efg5678901234567890123456789012345") (js "2026-06-24T15:30:00Z")
     (js "GA1YEFGHIJKLMNOPQRSTUVWXYZ1234567890EFGH") AYieldAccrual (round_ratio 255 10) (js "USDC") 48198344 104261295 None;
   mock_tx (js "3") (js "cde345fgh6789012345678901234567890123456") (js "2026-06-23T09:15:00Z")
     (js "GB2ZIJKLMNOPQRSTUVWXYZ1234567890ABCDIJKL") AWithdraw (num_of_Z 500) (js "USDC") 48164721 104238714 None;
   mock_tx (js "4") (js "def456ghi7890123456789012345678901234567") (js "2026-06-22T12:00:00Z")
     (js "GD3XABCDEFGHIJKLMNOPQRSTUVWXYZ12345678ABCD") AConfig (num_of_Z 0) em_dash 48131050 104215433
     (Some (js "Admin updated APY parameters and yield curve"));
   mock_tx (js "5") (js "efg567hij8901234567890123456789012345678") (js "2026-06-21T08:45:00Z")
     (js "GC4AMNOPQRSTUVWXYZ1234567890ABCDEFGHMNOP") ADeposit (num_of_Z 2500) (js "USDC") 48097389 104192015 None;
   mock_tx (js "6") (js "fgh678ijk9012345678901234567890123456789") (js "2026-06-20T17:20:00Z")
     (js "GE5BOPQRSTUVWXYZ1234567890ABCDEFGHIJOPQR") AYieldAccrual (round_ratio 623 10) (js "USDC") 48063728 104168924 None;
   mock_tx (js "7") (js "ghi789jkl0123456789012345678901234567890") (js "2026-06-19T11:05:00Z")
     (js "GF6CQRSTUVWXYZ1234567890ABCDEFGHIJKLQRST") AWithdraw (num_of_Z 1200) (js "USDC") 48030067 104145781 None;
   mock_tx (js "8") (js "hij890klm1234567890123456789012345678901") (js "2026-06-18T14:55:00Z")
     (js "GA1YEFGHIJKLMNOPQRSTUVWXYZ1234567890EFGH") ADeposit (num_of_Z 750) (js "USDC") 47996406 104122509 None].

Definition PAGE_SIZE : nat := 6.

Inductive SortKey := KTimestamp | KAddress | KAction | KTokenVolume.

#[export] Instance SortKey_eq_dec : EqDecision SortKey.
Proof. solve_decision. Defined.

(** The state of the tab; [None] is the filter "all", pages count from one. *)
Record audit_state := AuditState {
  au_rows : list YieldTx;
  au_loading : bool;
  au_search : str;
  au_action : option yield_action;
  au_from : str;
  au_to : str;
  au_sortKey : SortKey;
  au_sortAsc : bool;
  au_page : nat;
}.

Definition initial_audit : audit_state := AuditState MOCK_TXS false [] None [] [] KTimestamp false 1.

Definition setRows v s := AuditState v (au_loading s) (au_search s) (au_action s) (au_from s) (au_to s) (au_sortKey s) (au_sortAsc s) (au_page s).
Definition setAuditLoading v s := AuditState (au_rows s) v (au_search s) (au_action s) (au_from s) (au_to s) (au_sortKey s) (au_sortAsc s) (au_page s).
Definition setSearch v s := AuditState (au_rows s) (au_loading s) v (au_action s) (au_from s) (au_to s) (au_sortKey s) (au_sortAsc s) (au_page s).
Definition setActionFilter v s := AuditState (au_rows s) (au_loading s) (au_search s) v (au_from s) (au_to s) (au_sortKey s) (au_sortAsc s) (au_page s).
Definition setDateFrom v s := AuditState (au_rows s) (au_loading s) (au_search s) (au_action s) v (au_to s) (au_sortKey s) (au_sortAsc s) (au_page s).
Definition setDateTo v s := AuditState (au_rows s) (au_loading s) (au_search s) (au_action s) (au_from s) v (au_sortKey s) (au_sortAsc s) (au_page s).
Definition setSort k v s := AuditState (au_rows s) (au_loading s) (au_search s) (au_action s) (au_from s) (au_to s) k v (au_page s).
Definition setPage v s := AuditState (au_rows s) (au_loading s) (au_search s) (au_action s) (au_from s) (au_to s) (au_sortKey s) (au_sortAsc s) v.

(** ** The backend's records *)

Record AuditItem := MkAuditItem {
  ai_id : str; ai_tx_hash : str; ai_type : str; ai_amount : num; ai_created_at : str;
  ai_address : option str; ai_asset : option str; ai_block_height : option num; ai_fee : option num }.

Definition field_num (k : str) (v : json) : option num :=
  match json_get k v with Some (JNum n) => Some n | _ => None end.

(** Absent or a number. *)
Definition field_opt_num (k : str) (v : json) : option (option num) :=
  match json_get k v with None => Some None | Some (JNum n) => Some (Some n) | Some _ => None end.

Definition audit_item (v : json) : option AuditItem :=
  id ← field_str (js "id") v; tx_hash ← field_str (js "tx_hash") v; type ← field_str (js "type") v;
  amount ← field_num (js "amount") v; created_at ← field_str (js "created_at") v;
  address ← field_opt_str (js "address") v; asset ← field_opt_str (js "asset") v;
  block_height ← field_opt_num (js "block_height") v; fee ← field_opt_num (js "fee") v;
  Some (MkAuditItem id tx_hash type amount created_at address asset block_height fee).

(** [o || d] *)
Definition or_default (o : option str) (d : str) : str :=
  match o with Some s => if truthy s then s else d | None => d end.

Section Audit.
Context `{UnicodeCase, HostDates, Collator}.

Definition action_of_type (type : str) : yield_action :=
  if includes (js "deposit") (to_lower type) then ADeposit
  else if includes (js "withdraw") (to_lower type) then AWithdraw
  else if includes (js "config") (to_lower type) then AConfig
  else AYieldAccrual.

Definition row_of_item (item : AuditItem) : YieldTx :=
  MkYieldTx (ai_id item) (ai_tx_hash item) (ai_created_at item)
    (or_default (ai_address item) (js "GD3XABCDEFGHIJKLMNOPQRSTUVWXYZ12345678ABCD"))
    (action_of_type (ai_type item))
    (num_div (num_abs (ai_amount item)) (num_of_Z 10000000))
    (or_default (ai_asset item) (js "USDC"))
    (ai_block_height item)
    (Some (default default_fee (ai_fee item)))
    None None.

(** The rows after an answer: the configuration records shown before whose ids the answer
    does not have, then the answer. *)
Definition merge_rows (prev mapped : list YieldTx) : list YieldTx :=
  let configItems := filter (λ p, yt_action p = AConfig) prev in
  let existingIds := yt_id <$> mapped in
  filter (λ c, yt_id c ∉ existingIds) configItems ++ mapped.

(** ** Filters, sort, pages *)

Definition row_texts (t : YieldTx) : list str :=
  [yt_txHash t; yt_address t; action_text (yt_action t);
   match yt_blockHeight t with Some h => num_to_str h | None => [] end; default [] (yt_details t)].

Definition has_term (term : str) (t : YieldTx) : bool :=
  existsb (λ v, includes term (to_lower v)) (row_texts t).

Definition row_cmp (key : SortKey) (a b : YieldTx) : comparison :=
  match key with
  | KTimestamp => localeCompare (yt_timestamp a) (yt_timestamp b)
  | KAddress => localeCompare (yt_address a) (yt_address b)
  | KAction => localeCompare (action_text (yt_action a)) (action_text (yt_action b))
  | KTokenVolume => answer_sign (num_sub (yt_tokenVolume a) (yt_tokenVolume b))
  end.

Definition filtered (s : audit_state) : list YieldTx :=
  let term := to_lower (trim (au_search s)) in
  let rows := au_rows s in
  let rows := if truthy term then filter (λ t, has_term term t = true) rows else rows in
  let rows := match au_action s with Some a => filter (λ t, yt_action t = a) rows | None => rows end in
  let rows := if truthy (au_from s) then
                filter (λ t, num_leb (date_ms (au_from s)) (date_ms (yt_timestamp t)) = true) rows else rows in
  let rows := if truthy (au_to s) then
                filter (λ t, num_leb (date_ms (yt_timestamp t)) (date_ms (au_to s ++ js "T23:59:59Z")) = true) rows
              else rows in
  sort_by (directed (au_sortAsc s) (row_cmp (au_sortKey s))) rows.

Definition totalPages (s : audit_state) : nat := total_pages PAGE_SIZE (length (filtered s)).
Definition paginated (s : audit_state) : list YieldTx := page_slice PAGE_SIZE (au_page s - 1) (filtered s).

Definition toggleSort (key : SortKey) (s : audit_state) : audit_state :=
  setPage 1 (if decide (au_sortKey s = key) then setSort key (negb (au_sortAsc s)) s else setSort key true s).

Definition clearFilters (s : audit_state) : audit_state :=
  setPage 1 (setDateTo [] (setDateFrom [] (setActionFilter None (setSearch [] s)))).

Definition hasActiveFilters (s : audit_state) : bool :=
  truthy (au_search s) || bool_decide (au_action s ≠ None) || truthy (au_from s) || truthy (au_to s).

(** What the user does; the pager is shown with more than one page only. *)
Inductive audit_op :=
  | OpSearch (v : str) | OpAction (a : option yield_action) | OpFrom (v : str) | OpTo (v : str)
  | OpSort (k : SortKey) | OpClear | OpPrev | OpPage (n : nat) | OpNext.

Definition pager_shown (s : audit_state) : bool := (1 <? totalPages s)%nat.

Definition audit_step (op : audit_op) (s : audit_state) : audit_state :=
  match op with
  | OpSearch v => setPage 1 (setSearch v s)
  | OpAction a => setPage 1 (setActionFilter a s)
  | OpFrom v => setPage 1 (setDateFrom v s)
  | OpTo v => setPage 1 (setDateTo v s)
  | OpSort k => toggleSort k s
  | OpClear => if hasActiveFilters s then clearFilters s else s
  | OpPrev => if pager_shown s && negb (au_page s =? 1)%nat then setPage (Nat.max 1 (au_page s - 1)) s else s
  | OpPage n =>
      if pager_shown s && (1 <=? n)%nat && (n <=? totalPages s)%nat then setPage n s else s
  | OpNext =>
      if pager_shown s && negb (au_page s =? totalPages s)%nat
      then setPage (Nat.min (totalPages s) (au_page s + 1)) s else s
  end.

(** ** Summary *)

Definition volume_of (a : yield_action) (rows : list YieldTx) : num :=
  foldl (λ s t, num_add s (yt_tokenVolume t)) (Fin 0 0) (filter (λ t, yt_action t = a) rows).

Record audit_stats := AuditStats {
  as_deposits : num; as_withdrawals : num; as_yieldAcc : num; as_total : nat; as_currentYieldIndex : num }.

Definition stats (currentYieldIndex : num) (s : audit_state) : audit_stats :=
  AuditStats (volume_of ADeposit (au_rows s)) (volume_of AWithdraw (au_rows s))
    (volume_of AYieldAccrual (au_rows s)) (length (au_rows s)) currentYieldIndex.
End Audit.

(** ** The query *)

Section Fetch.
Context `{Host W, DashEnv, Multipart, Browser, UnicodeCase}.
Abbreviation tab := (M (audit_state * (api_state * W))).

Definition non_empty (s : str) : option str := if truthy s then Some s else None.

Definition audit_query (s : audit_state) : YieldAuditQuery :=
  MkYieldAudit (non_empty (trim (au_search s))) (action_text <$> au_action s) (Some (num_of_Z 50)) None
    (non_empty (au_from s)) (non_empty (au_to s)).

(** [res && Array.isArray(res.items) && res.items.length > 0] *)
Definition listed_items (res : json) : list json :=
  match json_get (js "items") res with Some (JArr items) => items | _ => [] end.

Definition fetchAuditHistory : tab unit :=
  modify_state (setAuditLoading true);;
  try_catch
    (s ← get_state;
     res ← host (yieldAuditLogs (Some (audit_query s)));
     match listed_items res with
     | [] => mret tt
     | items =>
         match mapM audit_item items with
         | None => throw unchecked_cast
         | Some items => modify_state (λ s, setRows (merge_rows (au_rows s) (row_of_item <$> items)) s)
         end
     end)
    (λ _, mret tt);;
  modify_state (setAuditLoading false).
End Fetch.

(** ** Properties *)

(** A record of the table: a quantity of tokens, and a fee to show. *)
Definition row_ok (t : YieldTx) : Prop := quantity (yt_tokenVolume t) ∧ is_Some (yt_fee t).

(** An amount the API answers: a finite number of safe magnitude. *)
Definition amount_ok (n : num) : Prop :=
  match n with Fin m e => (e <= 0 ∧ Z.abs m <= (2 ^ 53 - 1) * 2 ^ (- e))%Z | _ => False end.

Lemma quantity_ratio n d : (0 <= n → 0 < d → n <= (2 ^ 53 - 1) * d → quantity (round_ratio n d))%Z.
Proof.
  intros Hn Hd Hb. split; [by apply (round_ratio_double n d (2 ^ 53 - 1))|].
  apply round_ratio_between; lia.
Qed.

Lemma mock_ok id txHash timestamp address action n d asset block index details :
  (0 <= n → 0 < d → n <= (2 ^ 53 - 1) * d →
   row_ok (mock_tx id txHash timestamp address action (round_ratio n d) asset block index details))%Z.
Proof. intros. split; [by apply quantity_ratio|by eexists]. Qed.

Lemma mocks_ok : Forall row_ok MOCK_TXS.
Proof. unfold MOCK_TXS, num_of_Z. rewrite !Forall_cons, Forall_nil. repeat (split; [apply mock_ok; lia|]). exact I. Qed.

(** *** Figures of an arbitrary answer *)

(** A number of JSON text: not [NaN]; and one that is not negative, possibly infinite. *)
Definition plain_num (x : num) : bool := match x with NaN => false | Inf _ => true | Fin _ e => (e <=? 0)%Z end.
Definition volume (x : num) : Prop :=
  match x with NaN => False | Inf s => s = false | Fin m e => (0 <= m ∧ e <= 0)%Z end.

Fixpoint plain_nums (v : json) : bool :=
  match v with
  | JNum n => plain_num n
  | JArr l => forallb plain_nums l
  | JObj fs => forallb (λ kv, plain_nums kv.2) fs
  | _ => true
  end.

Lemma round_ratio_plain n d : plain_num (round_ratio n d) = true.
Proof.
  pose proof (round_ratio_exponent n d) as E. pose proof (round_ratio_not_nan n d) as N.
  destruct (round_ratio n d); cbn in *; [done|done|lia].
Qed.

Lemma round_ratio_volume n d : (0 <= n)%Z → (0 < d)%Z → volume (round_ratio n d).
Proof.
  intros Hn Hd. unfold round_ratio. destruct (Z.eqb_spec n 0) as [->|Hz]; [done|].
  destruct (1024 <=? _)%Z; [cbn; lia|]. rewrite Z.sgn_pos, Z.mul_1_l by lia.
  assert (Q : (0 <= ratio_significand (Z.abs n) d)%Z).
  { unfold ratio_significand. set (q := (d * _)%Z). set (p := (Z.abs n * _)%Z).
    assert (0 < q)%Z by (apply Z.mul_pos_pos; [lia|apply Z.pow_pos_nonneg; lia]).
    assert (0 <= p)%Z by (apply Z.mul_nonneg_nonneg; [lia|apply Z.pow_nonneg; lia]).
    unfold round_half_even. pose proof (Z.div_pos p q). destruct (Z.compare _ _); [destruct (Z.even _)|..]; lia. }
  unfold norm. destruct (Z.leb_spec 0 (ratio_ulp (Z.abs n) d)).
  - cbn. split; [|lia]. apply Z.mul_nonneg_nonneg; [done|apply Z.pow_nonneg; lia].
  - destruct (strip_fin (Z.to_nat (- ratio_ulp (Z.abs n) d)) (ratio_significand (Z.abs n) d)) as (m & e & E).
    rewrite E. destruct (strip_value _ _ _ _ E) as [He Hv]. cbn. split; [|lia].
    assert (0 < 2 ^ (Z.of_nat (Z.to_nat (- ratio_ulp (Z.abs n) d)) + e))%Z by (apply Z.pow_pos_nonneg; lia). nia.
Qed.

Lemma num_add_volume x y : volume x → volume y → volume (num_add x y).
Proof.
  destruct x as [|s|m e], y as [|s'|m' e']; cbn; try done; [by intros -> ->|]. intros [Hm He] [Hm' He'].
  assert (0 < 2 ^ (- e))%Z by (apply Z.pow_pos_nonneg; lia). assert (0 < 2 ^ (- e'))%Z by (apply Z.pow_pos_nonneg; lia).
  apply round_ratio_volume; nia.
Qed.

Lemma parsed_plain_num s n r : parse_num s = Some (n, r) → plain_num n = true.
Proof.
  unfold parse_num, dec_value. intros E. repeat case_match; simplify_eq; apply round_ratio_plain.
Qed.

Lemma obj_set_plain k v fs : plain_nums v = true → forallb (λ kv, plain_nums kv.2) fs = true →
  forallb (λ kv : str * json, plain_nums kv.2) (obj_set k v fs) = true.
Proof.
  intros Hv. induction fs as [|[k' v'] fs IH]; cbn; [by rewrite Hv|]. intros [H1 H2]%andb_true_iff.
  destruct (str_eqb k k'); cbn; [by rewrite Hv|by rewrite H1, IH].
Qed.

Lemma parsed_plain fuel : ∀ s,
  (∀ v r, parse_value fuel s = Some (v, r) → plain_nums v = true) ∧
  (∀ l r, parse_elems fuel s = Some (l, r) → forallb plain_nums l = true) ∧
  (∀ acc fs r, forallb (λ kv, plain_nums kv.2) acc = true → parse_members fuel acc s = Some (fs, r) →
     forallb (λ kv, plain_nums kv.2) fs = true).
Proof.
  induction fuel as [|fuel IH]; [done|]. intros s. split_and!.
  - intros v r. cbn [parse_value]. unfold parse_keyword. intros E.
    repeat match type of E with
      | match ?x with _ => _ end = _ => destruct x eqn:?; try discriminate E
      end; simplify_eq; cbn; try done;
      try (match goal with H : parse_elems _ _ = _ |- _ => by apply IH in H end);
      try (match goal with H : parse_members _ _ _ = _ |- _ => by apply IH in H end);
      try (match goal with H : parse_num _ = _ |- _ => by apply parsed_plain_num in H end).
  - intros l r. cbn [parse_elems]. intros E.
    repeat match type of E with
      | match ?x with _ => _ end = _ => destruct x eqn:?; try discriminate E
      end; simplify_eq; cbn;
      match goal with H : parse_value _ _ = _ |- _ => apply IH in H as -> end; [done|].
    match goal with H : parse_elems _ _ = _ |- _ => by apply IH in H end.
  - intros acc fs r Ha. cbn [parse_members]. intros E.
    repeat match type of E with
      | match ?x with _ => _ end = _ => destruct x eqn:?; try discriminate E
      end; simplify_eq;
      match goal with H : parse_value _ _ = _ |- _ => apply IH in H end; [by apply obj_set_plain|].
    match goal with H : parse_members _ _ _ = _ |- _ => apply IH in H; [done|] end. by apply obj_set_plain.
Qed.

Lemma json_parse_plain text v : json_parse text = Some v → plain_nums v = true.
Proof. unfold json_parse. intros E. repeat case_match; simplify_eq. by eapply parsed_plain. Qed.

Lemma get_plain k v x : plain_nums v = true → json_get k v = Some x → plain_nums x = true.
Proof.
  destruct v as [| | | | |fs]; try done. cbn [plain_nums json_get]. induction fs as [|[k' v'] fs IH]; [done|].
  cbn. intros [H1 H2]%andb_true_iff. destruct (str_eqb k k'); [by intros [= <-]|by apply IH].
Qed.

Lemma item_plain v i : plain_nums v = true → audit_item v = Some i → plain_num (ai_amount i) = true.
Proof.
  intros Hp E. unfold audit_item in E.
  repeat (apply bind_Some in E as (? & ? & E)). simplify_eq/=.
  match goal with H : field_num _ _ = _ |- _ => unfold field_num in H; destruct (json_get _ _) as [[]|] eqn:G in H; simplify_eq end.
  by apply get_plain in G.
Qed.

Lemma items_plain text res items : json_parse text = Some res → mapM audit_item (listed_items res) = Some items →
  Forall (λ i, plain_num (ai_amount i) = true) items.
Proof.
  intros Hp%json_parse_plain E. unfold listed_items in E.
  destruct (json_get (js "items") res) as [[| | | |l|]|] eqn:G; try (by injection E as <-).
  apply get_plain in G; [|done]. cbn in G. apply mapM_Some_1 in E. rewrite forallb_forall in G.
  apply Forall_forall. intros i Hi. apply list_elem_of_lookup in Hi as [j Hj].
  destruct (Forall2_lookup_r _ _ _ _ _ E Hj) as (v & Hv & Ei). apply (item_plain v); [|done].
  apply G, list_elem_of_In. by eapply list_elem_of_lookup_2.
Qed.

(** A record of the table, whatever the backend answered. *)
Definition row_typed (t : YieldTx) : Prop := volume (yt_tokenVolume t) ∧ is_Some (yt_fee t).

Lemma quantity_volume x : quantity x → volume x.
Proof. intros [D B]. destruct x as [| |m e]; try done. cbn in *. assert (0 < 2 ^ (- e))%Z by (apply Z.pow_pos_nonneg; lia). nia. Qed.

Lemma volume_of_typed a rows : Forall row_typed rows → volume (volume_of a rows).
Proof.
  intros Hr. unfold volume_of. assert (Hf : Forall row_typed (filter (λ t, yt_action t = a) rows)).
  { rewrite Forall_forall in *. intros t Ht. apply list_elem_of_filter in Ht as [_ Ht]. by apply Hr. }
  assert (H0 : volume (Fin 0 0)) by done. revert H0. generalize (Fin 0 0).
  induction Hf as [|t l [Ht _] _ IH]; intros x Hx; [done|]. cbn. by apply IH, num_add_volume.
Qed.

Section Properties.
Context `{UnicodeCase, HostDates, Collator}.

Lemma row_of_item_ok item : amount_ok (ai_amount item) → row_ok (row_of_item item).
Proof.
  intros Ha. split; [|by eexists]. cbn [row_of_item yt_tokenVolume].
  destruct (ai_amount item) as [| |m e]; [destruct Ha..|]. destruct Ha as [He Hm].
  replace (num_of_Z 10000000) with (Fin 10000000 0) by (vm_compute; reflexivity).
  cbn [num_abs num_div]. change (10000000 =? 0)%Z with false. cbn [Z.sgn].
  change (2 ^ (- 0))%Z with 1%Z. change (Z.abs 10000000) with 10000000%Z.
  assert (0 < 2 ^ (- e))%Z by (apply Z.pow_pos_nonneg; lia).
  rewrite Z.mul_1_l, Z.mul_1_r. apply quantity_ratio; nia.
Qed.

Lemma row_of_item_typed item : plain_num (ai_amount item) = true → row_typed (row_of_item item).
Proof.
  intros Ha. split; [|by eexists]. cbn [row_of_item yt_tokenVolume].
  replace (num_of_Z 10000000) with (Fin 10000000 0) by (vm_compute; reflexivity).
  destruct (ai_amount item) as [|s|m e]; [done|done|]. apply Z.leb_le in Ha.
  cbn [num_abs num_div]. change (10000000 =? 0)%Z with false. cbn [Z.sgn].
  change (2 ^ (- 0))%Z with 1%Z. change (Z.abs 10000000) with 10000000%Z.
  assert (0 < 2 ^ (- e))%Z by (apply Z.pow_pos_nonneg; lia). apply round_ratio_volume; lia.
Qed.

Lemma merge_elem prev mapped t :
  t ∈ merge_rows prev mapped ↔
  t ∈ mapped ∨ (t ∈ prev ∧ yt_action t = AConfig ∧ yt_id t ∉ yt_id <$> mapped).
Proof. unfold merge_rows. rewrite elem_of_app, !list_elem_of_filter. tauto. Qed.

Lemma merge_ids prev mapped :
  NoDup (yt_id <$> prev) → NoDup (yt_id <$> mapped) → NoDup (yt_id <$> merge_rows prev mapped).
Proof.
  intros Hp Hm. unfold merge_rows. rewrite fmap_app. apply NoDup_app. split; [|split; [|done]].
  - by do 2 apply NoDup_fmap_filter.
  - intros i Hi. apply list_elem_of_fmap in Hi as (c & -> & Hc). by apply list_elem_of_filter in Hc as [Hc _].
Qed.

Lemma audit_step_rows op s : au_rows (audit_step op s) = au_rows s.
Proof. destruct op; cbn; repeat case_match; try done; by destruct (decide _). Qed.

Lemma audit_step_page op s : 1 ≤ au_page s → 1 ≤ au_page (audit_step op s).
Proof.
  intros Hp. destruct op; cbn [audit_step]; try done.
  - by destruct (hasActiveFilters s).
  - destruct (_ && _); cbn; lia.
  - destruct (_ && _) eqn:E; cbn [setPage au_page]; [|done]. apply andb_true_iff in E as [[_ E%Nat.leb_le]%andb_true_iff _]. lia.
  - destruct (_ && _); cbn; [|done]. unfold totalPages, total_pages. lia.
Qed.

(** The rows a filter setting asks for. *)
Definition matches (s : audit_state) (t : YieldTx) : Prop :=
  (to_lower (trim (au_search s)) = [] ∨ has_term (to_lower (trim (au_search s))) t = true) ∧
  (au_action s = None ∨ au_action s = Some (yt_action t)) ∧
  (au_from s = [] ∨ num_leb (date_ms (au_from s)) (date_ms (yt_timestamp t)) = true) ∧
  (au_to s = [] ∨ num_leb (date_ms (yt_timestamp t)) (date_ms (au_to s ++ js "T23:59:59Z")) = true).

#[export] Instance matches_dec s t : Decision (matches s t).
Proof. unfold matches. apply _. Defined.

Lemma filter_unless (b : str) (P : YieldTx → Prop) `{!∀ t, Decision (P t)} (rows : list YieldTx) :
  (if truthy b then filter P rows else rows) = filter (λ t, b = [] ∨ P t) rows.
Proof.
  destruct (truthy b) eqn:T0.
  - apply truthy_true in T0. apply list_filter_iff. naive_solver.
  - apply truthy_false in T0. symmetry. apply filter_Forall_id. apply Forall_true. by left.
Qed.

Lemma filtered_reference s :
  filtered s = sort_by (directed (au_sortAsc s) (row_cmp (au_sortKey s))) (filter (matches s) (au_rows s)).
Proof.
  unfold filtered. f_equal. rewrite !filter_unless.
  assert (E : ∀ rows : list YieldTx, match au_action s with Some a => filter (λ t, yt_action t = a) rows | None => rows end
              = filter (λ t, au_action s = None ∨ au_action s = Some (yt_action t)) rows).
  { intros. destruct (au_action s) as [a|].
    - apply list_filter_iff. naive_solver.
    - symmetry. apply filter_Forall_id. apply Forall_true. by left. }
  rewrite E, !list_filter_filter. apply list_filter_iff. intros t. unfold matches. tauto.
Qed.

Lemma row_cmp_consistent `{!CollatorLaws} key : consistent row_ok (row_cmp key).
Proof.
  pose proof collator_consistent as [opp tr].
  destruct key; [split; intros; cbn; eauto..|].
  apply (quantity_consistent row_ok yt_tokenVolume). by intros t [Hq _].
Qed.

(** C22: the table's chain of filters, sort and pages is its reference definition: the rows
    that satisfy all four filters, in one pass, sorted by the chosen column in the chosen
    direction, rows that the column does not tell apart keeping their order; the pages in
    order are exactly these rows. *)
Theorem audit_view_reference `{!CollatorLaws} s :
  Forall row_ok (au_rows s) →
  let cmp := directed (au_sortAsc s) (row_cmp (au_sortKey s)) in
  let wanted := filter (matches s) (au_rows s) in
  concat ((λ p, page_slice PAGE_SIZE p (filtered s)) <$> seq 0 (totalPages s)) = filtered s ∧
  filtered s ≡ₚ wanted ∧ StronglySorted (λ x y, cmp x y ≠ Gt) (filtered s) ∧
  (∀ x, row_ok x → filter (λ y, cmp x y = Eq) (filtered s) = filter (λ y, cmp x y = Eq) wanted).
Proof.
  intros Hr cmp wanted.
  assert (C : consistent row_ok cmp) by apply directed_consistent, row_cmp_consistent.
  assert (Hw : Forall row_ok wanted).
  { apply Forall_forall. intros t Ht. apply list_elem_of_filter in Ht as [_ Ht]. by apply (proj1 (Forall_forall _ _) Hr). }
  split; [apply pages_concat; unfold PAGE_SIZE; lia|]. rewrite filtered_reference. split; [apply sort_by_perm|].
  split; [by apply (sort_by_sorted row_ok)|]. intros x Hx. by apply (sort_by_stable row_ok).
Qed.

(** what the user does keeps the page within the pages: changing a filter or the sort
    goes back to the first page, and the pager never leaves them. An answer of the backend
    does not: with the table down to one page and a later one selected, no row is shown,
    the pager is gone, and neither its buttons nor a page number changes anything. *)
Theorem page_in_range_until_refresh s :
  (∀ op, 1 ≤ au_page s ≤ totalPages s → let s' := audit_step op s in 1 ≤ au_page s' ≤ totalPages s') ∧
  (∀ rows, let s' := setRows rows s in
     2 ≤ au_page s' → length (filtered s') ≤ PAGE_SIZE →
     paginated s' = [] ∧ pager_shown s' = false ∧
     ∀ n, audit_step OpPrev s' = s' ∧ audit_step OpNext s' = s' ∧ audit_step (OpPage n) s' = s').
Proof.
  assert (One : ∀ s', 1 ≤ totalPages s') by (intros; unfold totalPages, total_pages; lia).
  split.
  - intros op Hp. destruct op; cbn [audit_step]; try (split; [done|apply One]).
    + destruct (hasActiveFilters s); [split; [done|apply One]|done].
    + destruct (_ && _); [|done]. change (totalPages (setPage _ s)) with (totalPages s). cbn [setPage au_page]. lia.
    + destruct (_ && _) eqn:E; [|done]. change (totalPages (setPage _ s)) with (totalPages s).
      apply andb_true_iff in E as [[_ E1%Nat.leb_le]%andb_true_iff E2%Nat.leb_le]. done.
    + destruct (_ && _); [|done]. change (totalPages (setPage _ s)) with (totalPages s). cbn [setPage au_page].
      specialize (One s). lia.
  - intros rows s' Hp Hl.
    assert (T1 : totalPages s' = 1).
    { unfold totalPages, total_pages, PAGE_SIZE in *. set (n := length (filtered s')) in *.
      clearbody n.
      do 7 (destruct n as [|n]; [done|]). lia. }
    assert (Sh : pager_shown s' = false) by (unfold pager_shown; by rewrite T1).
    split; [|split; [done|]].
    + apply page_beyond; [unfold PAGE_SIZE; lia|]. fold (totalPages s'). lia.
    + intros n. cbn [audit_step]. by rewrite Sh.
Qed.

(** an answer of the backend replaces the table by its own records, in their order,
    preceded by the configuration records shown before whose ids it does not use; ids
    stay distinct. The seeded configuration record is one of these: it stays in the table
    among the records of the real ledger. *)
Theorem answer_replaces_rows prev items :
  let rows := merge_rows prev (row_of_item <$> items) in
  (∃ kept, rows = kept ++ (row_of_item <$> items) ∧ Forall (λ t, yt_action t = AConfig) kept ∧ kept `sublist_of` prev) ∧
  (∀ t, t ∈ prev → yt_action t = AConfig → yt_id t ∉ ai_id <$> items → t ∈ rows) ∧
  (NoDup (yt_id <$> prev) → NoDup (ai_id <$> items) → NoDup (yt_id <$> rows)) ∧
  (js "4" ∉ ai_id <$> items → ∀ seeded, MOCK_TXS !! 3 = Some seeded → seeded ∈ prev → seeded ∈ rows).
Proof.
  assert (Ids : yt_id <$> (row_of_item <$> items) = ai_id <$> items) by by rewrite <-list_fmap_compose.
  cbn zeta.
  assert (Keep : ∀ t, t ∈ prev → yt_action t = AConfig → yt_id t ∉ ai_id <$> items →
            t ∈ merge_rows prev (row_of_item <$> items)).
  { intros t Ht Ha Hn. apply merge_elem. right. rewrite Ids. done. }
  split; [|split; [done|split]].
  - eexists. split; [reflexivity|]. split.
    + apply Forall_forall. intros t Ht. by apply list_elem_of_filter in Ht as [_ [Ha _]%list_elem_of_filter].
    + transitivity (filter (λ p, yt_action p = AConfig) prev); apply sublist_filter.
  - intros Hp Hi. apply merge_ids; [done|]. by rewrite Ids.
  - intros H4 seeded [= <-] Hin. by apply Keep.
Qed.
End Properties.

(** querying the backend never fails the tab and touches nothing but its records: the
    query carries the four filters, an answer with records that have their declared shape
    is merged, and an empty or malformed answer, an error status or an unreachable backend
    leave the records as they were. *)
Theorem fetch_audit_outcome `{Host W, DashEnv, Multipart, Browser, UnicodeCase} s (a : api_state) (w : W) :
  let (r, aw) := yieldAuditLogs (Some (audit_query s)) (a, w) in
  fetchAuditHistory (s, (a, w)) =
    (Ok tt, (setAuditLoading false
      (match r with
       | Ok res =>
           match mapM audit_item (listed_items res) with
           | Some (i :: items) => setRows (merge_rows (au_rows s) (row_of_item <$> i :: items)) s
           | _ => s
           end
       | Throw _ => s
       end), aw)).
Proof.
  destruct (yieldAuditLogs _ _) as [r [a' w']] eqn:E. unfold fetchAuditHistory.
  rewrite (run_bind_ok _ _ _ _ _ (run_modify_state _ s (a, w))).
  assert (Hh : host (yieldAuditLogs (Some (audit_query s))) (setAuditLoading true s, (a, w))
               = (r, (setAuditLoading true s, (a', w')))) by by apply run_host.
  unfold try_catch. rewrite run_bind.
  rewrite (run_bind_ok _ _ _ _ _ (run_get_state (setAuditLoading true s) (a, w))).
  change (audit_query (setAuditLoading true s)) with (audit_query s).
  destruct r as [res|e]; [rewrite (run_bind_ok _ _ _ _ _ Hh)|by rewrite (run_bind_throw _ _ _ _ _ Hh)].
  destruct (listed_items res) as [|v vs]; [done|].
  destruct (mapM audit_item (v :: vs)) as [[|i items]|] eqn:M; [|done|done].
  by apply mapM_Some_1, Forall2_nil_inv_r in M.
Qed.

Module Runs.
#[local] Existing Instance ascii_case.
#[local] Existing Instance iso_only.
#[local] Existing Instance unit_collation.
#[local] Existing Instance unit_order_laws.
#[local] Existing Instance DashboardApi.Runs.demo_env.
#[local] Existing Instance DashboardApi.Runs.demo_browser.
#[local] Existing Instance DashboardApi.Runs.demo_multipart.

Definition by_volume : audit_state :=
  audit_step (OpSort KTokenVolume) (audit_step (OpFrom (js "2026-06-20")) (audit_step (OpSearch (js " GD3x")) initial_audit)).

(** Newest first; searching is case-insensitive, and the records of one address remain. *)
Example views :
  (yt_id <$> paginated initial_audit) = [js "1"; js "2"; js "3"; js "4"; js "5"; js "6"] ∧
  (yt_id <$> filtered by_volume) = [js "4"; js "1"] ∧ pager_shown initial_audit = true.
Proof. vm_compute. repeat split. Qed.

Definition page_two : audit_state := audit_step OpNext initial_audit.
Definition item (id : str) : json :=
  JObj [(js "id", JStr id); (js "tx_hash", JStr (js "t")); (js "type", JStr (js "Vault_Deposit"));
        (js "amount", JNum (num_of_Z (-25000000))); (js "created_at", JStr (js "2026-07-01T00:00:00Z"))].
Definition answer : json := JObj [(js "items", JArr [item (js "a"); item (js "b")])].
Definition answered : audit_state :=
  (fetchAuditHistory (page_two, (ApiState None, world [] [reply 200 (stringify answer)]))).2.1.

(** Two deposits of 2.5 USDC arrive while the second page is shown: no row is. *)
Example answer_strands :
  (λ t, (yt_id t, num_to_str (yt_tokenVolume t))) <$> au_rows answered
    = [(js "4", js "0"); (js "a", js "2.5"); (js "b", js "2.5")] ∧
  paginated answered = [] ∧ au_page answered = 2.
Proof. vm_compute. repeat split. Qed.

Lemma audit_view_reference_witness :
  let s := by_volume in
  let cmp := directed (au_sortAsc s) (row_cmp (au_sortKey s)) in
  let wanted := filter (matches s) (au_rows s) in
  concat ((λ p, page_slice PAGE_SIZE p (filtered s)) <$> seq 0 (totalPages s)) = filtered s ∧
  filtered s ≡ₚ wanted ∧ StronglySorted (λ x y, cmp x y ≠ Gt) (filtered s) ∧
  (∀ x, row_ok x → filter (λ y, cmp x y = Eq) (filtered s) = filter (λ y, cmp x y = Eq) wanted).
Proof. apply (audit_view_reference by_volume). apply mocks_ok. Defined.
End Runs.
