(* ===== verification/Disbursement.v ===== *)
(** * CSV disbursements

    Model of the CSV part of [dashboard/app/dashboard/payouts/page.tsx]: header
    normalisation, the check of the header groups, the check of every row, the
    summary shown to the admin, and the handlers of the upload tab as state passing
    over the tab's state, the API client's and the host's. Reading the file into
    rows is Papa Parse, a parameter. *)

From S2P Require Import Prelude JsString JsNumber UriCodec FormCodec JsDate Json Effects Decode Scripts Sep0007 DashboardApi.

(** ** Headers *)

Record header_alias := HeaderAlias { canonical : str; accepted : list str }.

Definition SDP_HEADER_ALIASES : list header_alias :=
  [HeaderAlias (js "phone") [js "phone"; js "phone_number"; js "msisdn"];
   HeaderAlias (js "id") [js "id"; js "user_id"; js "identifier"];
   HeaderAlias (js "amount") [js "amount"];
   HeaderAlias (js "verification") [js "verification"; js "verification_code"; js "code"];
   HeaderAlias (js "stellar_address")
     [js "stellar_address"; js "recipient_address"; js "destination"; js "destination_address"];
   HeaderAlias (js "currency") [js "currency"; js "asset"; js "asset_code"];
   HeaderAlias (js "recipient_name") [js "recipient_name"; js "name"; js "recipient"]].

Record header_group := HeaderGroup { group_label : str; required : list str }.

Definition REQUIRED_CSV_HEADER_GROUPS : list header_group :=
  [HeaderGroup (js "phone + id + amount + verification")
     [js "phone"; js "id"; js "amount"; js "verification"];
   HeaderGroup (js "stellar_address + amount") [js "stellar_address"; js "amount"]].

(** [xs.includes(x)] *)
Definition has (x : str) (xs : list str) : bool := existsb (str_eqb x) xs.

(** A row as Papa Parse gives it, with its number. *)
Record ParsedCsvRow := MkRow { row_number : Z; row_cells : list (str * json) }.

Record ValidatedRow := MkValidated {
  vr_rowNumber : Z;
  vr_raw : ParsedCsvRow;
  vr_valid : bool;
  vr_errors : list str;
  vr_stellarAddress : option str;
  vr_amount : option num;
  vr_currency : option str;
}.

Record ParsedCsvSummary := MkSummary {
  sm_fileName : str;
  sm_fileSizeKb : num;
  sm_headers : list str;
  sm_totalRows : nat;
  sm_validRows : nat;
  sm_invalidRows : nat;
  sm_headerErrors : list str;
  sm_amountTotal : option num;
  sm_currencyCounts : list (str * nat);
  sm_addressFoundCount : nat;
  sm_rows : list ValidatedRow;
}.

Inductive ValidationStatus :=
  | VIdle | VParsing | VOk (summary : ParsedCsvSummary) | VError (message : str).

Section Validation.
Context `{UC : UnicodeCase}.

Definition normalizeHeader (raw : str) : str :=
  let clean := to_lower (trim raw) in
  match find (λ group, has clean (accepted group)) SDP_HEADER_ALIASES with
  | Some group => canonical group
  | None => clean
  end.

(** The map from canonical names to column positions: a later header wins. *)
Definition buildHeaderMap (rawHeaders : list str) : gmap str nat :=
  foldl (λ m ih, <[normalizeHeader ih.2 := ih.1]> m) ∅ (imap pair rawHeaders).

Definition getCell (row : ParsedCsvRow) (column : str) : str :=
  match obj_get column (row_cells row) with
  | None | Some JNull => []
  | Some raw => trim (json_to_string raw)
  end.

Definition detectHeaderErrors (headers : list str) : list str :=
  let normalized := normalizeHeader <$> headers in
  match find (λ g, forallb (λ h, has h normalized) (required g)) REQUIRED_CSV_HEADER_GROUPS with
  | Some _ => []
  | None =>
      let groupStr := join (js " OR ")
        ((λ g, js "[" ++ join (js ", ") (required g) ++ js "] (" ++ group_label g ++ js ")")
           <$> REQUIRED_CSV_HEADER_GROUPS) in
      let found := join (js ", ") headers in
      [js "Missing required column group. SDP expects any of: " ++ groupStr ++ js ".";
       js "Headers found: " ++ (if truthy found then found else js "(none)")]
  end.

(** [headerMap.has(c) ? getCell(row, headers[headerMap.get(c)!]) : undefined] *)
Definition cell (headers : list str) (row : ParsedCsvRow) (column : str) : option str :=
  match buildHeaderMap headers !! column with
  | Some i => getCell row <$> headers !! i
  | None => None
  end.

Definition ERR_RECIPIENT : str := js "Row must provide either stellar_address OR (phone + id + verification).".
Definition ERR_ADDRESS : str := js "stellar_address is not a valid G-address.".
Definition ERR_AMOUNT_MISSING : str := js "amount is required.".
Definition ERR_AMOUNT : str := js "amount must be a positive number.".

Definition zero : num := Fin 0 0.

Definition non_empty (s : str) : option str := if truthy s then Some s else None.

Definition validateRow (headers : list str) (row : ParsedCsvRow) : ValidatedRow :=
  let text c := default [] (cell headers row (js c)) in
  let stellarAddress := text "stellar_address" in
  let phone := text "phone" in
  let id := text "id" in
  let verification := text "verification" in
  let amountRaw := text "amount" in
  let currency := to_upper <$> cell headers row (js "currency") in
  let hasStellar := truthy stellarAddress in
  let hasPhoneId := truthy phone && truthy id && truthy verification in
  let num := Number amountRaw in
  let errors :=
    (if negb hasStellar && negb hasPhoneId then [ERR_RECIPIENT] else [])
    ++ (if hasStellar && negb (isStellarAddress stellarAddress) then [ERR_ADDRESS] else [])
    ++ (if negb (truthy amountRaw) then [ERR_AMOUNT_MISSING]
        else if negb (is_finite num) || num_leb num zero then [ERR_AMOUNT] else []) in
  MkValidated (row_number row) row (match errors with [] => true | _ => false end) errors
    (non_empty stellarAddress)
    (if is_finite num && num_ltb zero num then Some num else None)
    (currency ≫= non_empty).

Definition validateRows (rows : list ParsedCsvRow) (headers : list str) : list ValidatedRow :=
  validateRow headers <$> rows.
End Validation.

(** [currencyCounts[k] = (currencyCounts[k] ?? 0) + 1] *)
Fixpoint count_up (k : str) (counts : list (str * nat)) : list (str * nat) :=
  match counts with
  | [] => [(k, 1)]
  | (k', n) :: counts' => if str_eqb k k' then (k', S n) :: counts' else (k', n) :: count_up k counts'
  end.

Record totals := Totals { t_counts : list (str * nat); t_amount : num; t_addresses : nat }.

(** The body of the summing loop. *)
Definition add_row (t : totals) (r : ValidatedRow) : totals :=
  if negb (vr_valid r) then t
  else
    Totals
      (count_up (match vr_currency r with
                 | Some c => if truthy c then c else js "(default)"
                 | None => js "(default)"
                 end) (t_counts t))
      (match vr_amount r with Some a => num_add (t_amount t) a | None => t_amount t end)
      (match vr_stellarAddress r with
       | Some a => if truthy a then S (t_addresses t) else t_addresses t
       | None => t_addresses t
       end).

(** ** Papa Parse *)

Record parse_error := ParseError { pe_row : option Z; pe_message : str }.
Record parse_result := ParseResult {
  pr_fields : option (list str);
  pr_data : list (list (str * json));
  pr_errors : list parse_error;
}.
Class CsvParser := parseCsvFile : file → res parse_result.

Definition parse_error_text (e : parse_error) : str :=
  js "Parse" ++ match pe_row e with Some r => js " (row " ++ Z_to_str (r + 1) ++ js ")" | None => [] end
    ++ js ": " ++ pe_message e.

(** [(row, idx) => ({ ...row, __rowNumber: idx + 2 })] *)
Definition numbered (idx : nat) (row : list (str * json)) : ParsedCsvRow :=
  let n := (Z.of_nat idx + 2)%Z in
  MkRow n (obj_set (js "__rowNumber") (JNum (num_of_Z n)) row).

Definition summarize `{UnicodeCase} (f : file) (parsed : parse_result) : ParsedCsvSummary :=
  let rawHeaders := default [] (pr_fields parsed) in
  let headerErrors := detectHeaderErrors rawHeaders in
  let dataRows := imap numbered (pr_data parsed) in
  let parseErrors := headerErrors ++ (parse_error_text <$> pr_errors parsed) in
  let validatedRows := match headerErrors with [] => validateRows dataRows rawHeaders | _ => [] end in
  let validCount := length (List.filter vr_valid validatedRows) in
  let t := foldl add_row (Totals [] zero 0) validatedRows in
  MkSummary (file_name f) (num_div (num_of_Z (file_size f)) (num_of_Z 1024)) rawHeaders
    (length dataRows) validCount (length validatedRows - validCount) parseErrors
    (if num_ltb zero (t_amount t) then Some (t_amount t) else None)
    (t_counts t) (t_addresses t) validatedRows.

(** ** The upload tab *)

Inductive UploadResult := UploadSuccess (disbursement : json) | UploadError (message : str).

Record tab := Tab {
  disbursements : option json;
  disbursementName : str;
  selectedFile : option file;
  validation : ValidationStatus;
  uploading : bool;
  uploadResult : option UploadResult;
}.

Definition setDisbursements v s := Tab v (disbursementName s) (selectedFile s) (validation s) (uploading s) (uploadResult s).
Definition setDisbursementName v s := Tab (disbursements s) v (selectedFile s) (validation s) (uploading s) (uploadResult s).
Definition setSelectedFile v s := Tab (disbursements s) (disbursementName s) v (validation s) (uploading s) (uploadResult s).
Definition setValidation v s := Tab (disbursements s) (disbursementName s) (selectedFile s) v (uploading s) (uploadResult s).
Definition setUploading v s := Tab (disbursements s) (disbursementName s) (selectedFile s) (validation s) v (uploadResult s).
Definition setUploadResult v s := Tab (disbursements s) (disbursementName s) (selectedFile s) (validation s) (uploading s) v.

Definition clear_file (s : tab) : tab := setUploadResult None (setValidation VIdle (setSelectedFile None s)).

(** [submissionAllowed] of a render. *)
Definition submissionAllowed (s : tab) : bool :=
  match selectedFile s, validation s with
  | Some _, VOk summary =>
      match sm_headerErrors summary with [] => (sm_invalidRows summary =? 0)%nat | _ => false end
  | _, _ => false
  end.

(** The text before the last dot, if the dot is not the first unit. *)
Definition fileBasename (name : str) : str :=
  match index_of [46%N] (rev name) with
  | Some i => let idx := length name - 1 - i in if (0 <? idx)%nat then take idx name else name
  | None => name
  end.

Section Tab.
Context `{UnicodeCase, CsvParser, Host W, Browser, DashEnv, Multipart}.
Abbreviation page := (M (tab * (api_state * W))).

Definition onDrop (acceptedFiles : list file) : page unit :=
  modify_state (setUploadResult None);;
  match acceptedFiles with
  | [] => mret tt
  | f :: _ =>
      modify_state (setSelectedFile (Some f));;
      modify_state (setValidation VParsing);;
      try_catch
        (parsed ← of_res (parseCsvFile f);
         modify_state (setValidation (VOk (summarize f parsed))))
        (λ err, modify_state (setValidation (VError (err_message err))))
  end.

Definition clearFile : page unit := modify_state clear_file.

Definition refreshSdp : page unit :=
  try_catch
    (res ← host (listDisbursements (Some (num_of_Z 20)) (Some (num_of_Z 0)));
     list ← read_prop (js "disbursements") res;
     modify_state (setDisbursements list))
    (λ _, mret tt).

Definition upload_name (s : tab) (f : file) : page str :=
  let name := trim (disbursementName s) in
  if truthy name then mret name
  else now ← host (host date_now); mret (fileBasename (file_name f) ++ js "-" ++ Z_to_str now).

Definition handleUpload : page unit :=
  s ← get_state;
  match selectedFile s with
  | Some f =>
      if negb (submissionAllowed s) then mret tt else
      modify_state (setUploading true);;
      modify_state (setUploadResult None);;
      name ← upload_name s f;
      try_finally
        (try_catch
          (disbursement ← host (transmitBatchParameters
             (MkBatchParams (Some f) (Some name) None None None None));
           modify_state (setUploadResult (Some (UploadSuccess disbursement)));;
           clearFile;;
           modify_state (setDisbursementName []);;
           refreshSdp)
          (λ err, modify_state (setUploadResult (Some (UploadError (err_message err))))))
        (λ sw, (setUploading false sw.1, sw.2))
  | None => mret tt
  end.
End Tab.

(** ** Properties *)

Section Properties.
Context `{UC : UnicodeCase}.

Lemma positive_spec x : num_ltb zero x = true ∧ is_finite x = true ↔ ∃ m e, x = Fin m e ∧ (0 < m)%Z.
Proof.
  destruct x as [|s|m e]; cbn; [naive_solver..|]. rewrite Z.mul_1_r, Z.ltb_lt. naive_solver.
Qed.

Lemma not_positive_leb m e : num_leb (Fin m e) zero = negb (0 <? m)%Z.
Proof. cbn. rewrite Z.mul_1_r. destruct (Z.leb_spec m 0), (Z.ltb_spec 0 m); cbn; lia. Qed.

Lemma address_truthy a : isStellarAddress a = true → truthy a = true.
Proof. by destruct a. Qed.

Lemma nil_flag {A} (l : list A) : match l with [] => true | _ => false end = true ↔ l = [].
Proof. by destruct l. Qed.

(** The text of a row under a canonical column, empty when the column is missing. *)
Definition text headers row (c : string) : str := default [] (cell headers row (js c)).

Definition names_recipient headers row : Prop :=
  isStellarAddress (text headers row "stellar_address") = true ∨
  (text headers row "stellar_address" = [] ∧ text headers row "phone" ≠ [] ∧
   text headers row "id" ≠ [] ∧ text headers row "verification" ≠ []).

Definition pays headers row (m e : Z) : Prop :=
  Number (text headers row "amount") = Fin m e ∧ (0 < m)%Z.

Lemma amount_check amountRaw :
  (if negb (truthy amountRaw) then [ERR_AMOUNT_MISSING]
   else if negb (is_finite (Number amountRaw)) || num_leb (Number amountRaw) zero then [ERR_AMOUNT] else [])
    = [] ↔ ∃ m e, Number amountRaw = Fin m e ∧ (0 < m)%Z.
Proof.
  destruct amountRaw as [|c s].
  { cbn. split; [done|]. intros (m & e & [= <- <-] & ?). lia. }
  cbn [truthy negb]. destruct (Number (c :: s)) as [|sg|m e]; cbn [is_finite negb orb];
    [split; [done|naive_solver]..|].
  rewrite not_positive_leb. destruct (Z.ltb_spec 0 m); cbn [negb]; naive_solver lia.
Qed.

Lemma recipient_check headers row :
  let stellar := text headers row "stellar_address" in
  let hasPhoneId := truthy (text headers row "phone") && truthy (text headers row "id")
                      && truthy (text headers row "verification") in
  (if negb (truthy stellar) && negb hasPhoneId then [ERR_RECIPIENT] else [])
    ++ (if truthy stellar && negb (isStellarAddress stellar) then [ERR_ADDRESS] else []) = []
  ↔ names_recipient headers row.
Proof.
  cbn zeta. unfold names_recipient. rewrite <-!truthy_true, <-truthy_false.
  pose proof (address_truthy (text headers row "stellar_address")) as A.
  destruct (isStellarAddress _), (truthy (text headers row "stellar_address")),
    (truthy (text headers row "phone")), (truthy (text headers row "id")),
    (truthy (text headers row "verification")); cbn; intuition congruence.
Qed.

(** An accepted row names a recipient. *)
Lemma row_valid_recipient headers row : vr_valid (validateRow headers row) = true → names_recipient headers row.
Proof.
  intros V. apply recipient_check. cbn [vr_valid validateRow] in V. fold (text headers row) in V.
  rewrite app_assoc in V. apply nil_flag, app_nil in V as [V _]. exact V.
Qed.

(** C6: a row is accepted exactly when it names a recipient (a well-formed Stellar address,
    or no address but phone, id and verification) and a finite positive amount; the
    amount of an accepted row is the number its cell reads as, and a rejected row carries
    at least one message. *)
Theorem row_accepted_iff headers row :
  (vr_valid (validateRow headers row) = true ↔
     names_recipient headers row ∧ ∃ m e, pays headers row m e) ∧
  (∀ m e, pays headers row m e → vr_amount (validateRow headers row) = Some (Fin m e)) ∧
  (vr_valid (validateRow headers row) = false ↔ vr_errors (validateRow headers row) ≠ []).
Proof.
  split; [|split].
  - rewrite <-recipient_check. unfold pays. rewrite <-amount_check. cbn [vr_valid validateRow].
    fold (text headers row). rewrite app_assoc, nil_flag, app_nil. reflexivity.
  - intros m e [E Hm]. unfold text in E. cbn [vr_amount validateRow]. rewrite E.
    destruct (proj2 (positive_spec (Fin m e))) as [-> ->]; [by eauto|done].
  - cbn [vr_valid vr_errors validateRow].
    match goal with |- context [match ?l with _ => _ end = false] => destruct l end; naive_solver.
Qed.

(** *** Headers *)

Lemma header_map_snoc hs h :
  buildHeaderMap (hs ++ [h]) = <[normalizeHeader h := length hs]> (buildHeaderMap hs).
Proof.
  unfold buildHeaderMap. rewrite imap_app, foldl_app. cbn. by rewrite Nat.add_0_r.
Qed.

Lemma lookup_snoc_normal hs h i :
  normalizeHeader <$> (hs ++ [h]) !! i =
    if (i <? length hs)%nat then normalizeHeader <$> hs !! i
    else if (i =? length hs)%nat then Some (normalizeHeader h) else None.
Proof.
  destruct (Nat.ltb_spec i (length hs)); [by rewrite lookup_app_l|].
  rewrite lookup_app_r by done. destruct (Nat.eqb_spec i (length hs)) as [->|].
  - by rewrite Nat.sub_diag.
  - by rewrite lookup_ge_None_2 by (cbn; lia).
Qed.

(** The last header of a canonical name gives its column. *)
Lemma header_map_spec hs c i :
  buildHeaderMap hs !! c = Some i ↔
    normalizeHeader <$> hs !! i = Some c ∧ ∀ j, i < j → normalizeHeader <$> hs !! j ≠ Some c.
Proof.
  revert i. induction hs as [|h hs IH] using rev_ind; intros i.
  { cbn. rewrite lookup_empty. naive_solver. }
  rewrite header_map_snoc. setoid_rewrite lookup_snoc_normal.
  destruct (decide (normalizeHeader h = c)) as [<-|Hc].
  - rewrite lookup_insert_eq. split.
    + intros [= <-]. rewrite Nat.ltb_irrefl, Nat.eqb_refl. split; [done|]. intros j Hj.
      destruct (Nat.ltb_spec j (length hs)); [lia|]. destruct (Nat.eqb_spec j (length hs)); [lia|done].
    + intros [Hi Hlast]. destruct (Nat.ltb_spec i (length hs)).
      * exfalso. apply (Hlast (length hs)); [done|]. by rewrite Nat.ltb_irrefl, Nat.eqb_refl.
      * destruct (Nat.eqb_spec i (length hs)); [by subst|done].
  - rewrite lookup_insert_ne by done. rewrite IH. split; intros [Hi Hlast].
    + assert (i < length hs) as Hlt.
      { apply lookup_lt_is_Some_1. destruct (hs !! i); [by eexists|done]. }
      rewrite (proj2 (Nat.ltb_lt _ _) Hlt). split; [done|]. intros j Hj.
      destruct (j <? length hs)%nat; [by apply Hlast|]. by destruct (j =? length hs)%nat; [congruence|].
    + destruct (Nat.ltb_spec i (length hs)) as [Hlt|]; [|destruct (i =? length hs)%nat; congruence].
      split; [done|]. intros j Hj E. apply (Hlast j Hj).
      assert (j < length hs) as Hj'.
      { apply lookup_lt_is_Some_1. destruct (hs !! j); [by eexists|done]. }
      by rewrite (proj2 (Nat.ltb_lt _ _) Hj').
Qed.

Lemma header_map_present hs c : is_Some (buildHeaderMap hs !! c) ↔ c ∈ (normalizeHeader <$> hs).
Proof.
  induction hs as [|h hs IH] using rev_ind.
  { cbn. rewrite lookup_empty. split; [by intros [? ?]|by intros ?%not_elem_of_nil]. }
  rewrite header_map_snoc, fmap_app, elem_of_app. cbn. rewrite list_elem_of_singleton.
  destruct (decide (normalizeHeader h = c)) as [<-|Hc].
  - rewrite lookup_insert_eq. naive_solver.
  - rewrite lookup_insert_ne by done. rewrite IH. naive_solver.
Qed.

Lemma has_elem x xs : has x xs = true ↔ x ∈ xs.
Proof.
  unfold has. rewrite existsb_exists. setoid_rewrite str_eqb_true. setoid_rewrite <-list_elem_of_In.
  naive_solver.
Qed.

Definition group_covered hs (g : header_group) : Prop :=
  ∀ c, c ∈ required g → is_Some (buildHeaderMap hs !! c).

(** the header check accepts a file exactly when the columns of one required group are
    all found, whatever the case, the surrounding space and the alias of their headers; a
    found column is the last header of that name, and the text read for a row under it
    is that of the row's own cell, trimmed. *)
Theorem header_check_iff hs :
  (detectHeaderErrors hs = [] ↔ ∃ g, g ∈ REQUIRED_CSV_HEADER_GROUPS ∧ group_covered hs g) ∧
  (∀ c row t, cell hs row c = Some t ↔
     ∃ i h, hs !! i = Some h ∧ normalizeHeader h = c ∧ getCell row h = t ∧
       ∀ j h', i < j → hs !! j = Some h' → normalizeHeader h' ≠ c).
Proof.
  split.
  - unfold detectHeaderErrors, group_covered.
    destruct (find _ _) as [g|] eqn:F.
    + split; [|done]. intros _. apply find_some in F as [Hin Hall]. exists g.
      split; [by apply list_elem_of_In|]. intros c Hc. apply header_map_present, has_elem.
      rewrite forallb_forall in Hall. by apply Hall, list_elem_of_In.
    + split; [done|]. intros (g & Hin & Hall). exfalso. apply list_elem_of_In in Hin.
      eapply find_none in F; [|exact Hin]. apply not_true_iff_false in F. apply F, forallb_forall.
      intros c Hc. apply has_elem, header_map_present, Hall. by apply list_elem_of_In.
  - intros c row t. unfold cell. split.
    + destruct (buildHeaderMap hs !! c) as [i|] eqn:E; [|done].
      apply header_map_spec in E as [Hi Hlast]. intros (h & Hh & ->)%fmap_Some.
      exists i, h. rewrite Hh in Hi. cbn in Hi. split; [done|]. split; [congruence|]. split; [done|].
      intros j h' Hj Hh' Hc. apply (Hlast j Hj). rewrite Hh'. cbn. congruence.
    + intros (i & h & Hh & Hc & <- & Hlast). assert (E : buildHeaderMap hs !! c = Some i).
      { apply header_map_spec. rewrite Hh. cbn. split; [congruence|]. intros j Hj E.
        apply fmap_Some in E as (h' & Hh' & Ec). by apply (Hlast j h'). }
      by rewrite E, Hh.
Qed.
(** *** Summary *)

Definition count_total (counts : list (str * nat)) : nat := sum_list (counts.*2).

Lemma count_up_total k counts : count_total (count_up k counts) = S (count_total counts).
Proof.
  unfold count_total. induction counts as [|[k' n] l IH]; cbn; [done|].
  destruct (str_eqb k k'); cbn; [done|]. rewrite IH. lia.
Qed.

Lemma count_up_in k counts x : x ∈ (count_up k counts).*1 → x = k ∨ x ∈ counts.*1.
Proof.
  induction counts as [|[k' n] l IH]; cbn; [intros ->%list_elem_of_singleton; by left|].
  destruct (str_eqb k k'); cbn; rewrite !elem_of_cons; [by right|]. intros [?|?]; [by right; left|].
  destruct IH; auto.
Qed.

Lemma count_up_keys k counts : NoDup (counts.*1) → NoDup ((count_up k counts).*1).
Proof.
  induction counts as [|[k' n] l IH]; cbn; [intros _; apply NoDup_singleton|].
  intros [Hk Hl]%NoDup_cons. destruct (str_eqb k k') eqn:E; cbn; apply NoDup_cons; [done|].
  split; [|by apply IH]. intros [->|?]%count_up_in; [|done]. by rewrite str_eqb_refl in E.
Qed.

Definition valid_rows (rows : list ValidatedRow) : list ValidatedRow := List.filter vr_valid rows.

Lemma totals_spec rows : ∀ t,
  let t' := foldl add_row t rows in
  count_total (t_counts t') = count_total (t_counts t) + length (valid_rows rows) ∧
  (NoDup ((t_counts t).*1) → NoDup ((t_counts t').*1)) ∧
  t_amount t' = foldl num_add (t_amount t) (omap vr_amount (valid_rows rows)) ∧
  t_addresses t' = t_addresses t
    + length (List.filter (λ r, truthy_opt (vr_stellarAddress r)) (valid_rows rows)).
Proof.
  unfold valid_rows. induction rows as [|r rows IH]; intros t; cbn; [by rewrite !Nat.add_0_r|].
  specialize (IH (add_row t r)). cbn zeta in IH. destruct IH as (I1 & I2 & I3 & I4).
  rewrite I1, I3, I4. unfold add_row in *. destruct (vr_valid r); cbn [negb List.filter] in *.
  2:{ done. }
  cbn [t_counts t_amount t_addresses length]. rewrite count_up_total. split; [lia|].
  split; [intros Hnd; by apply I2, count_up_keys|]. split; [cbn [omap list_omap]; by destruct (vr_amount r)|].
  destruct (vr_stellarAddress r) as [a|]; cbn; [destruct (truthy a); cbn|]; lia.
Qed.

(** the summary the admin confirms is consistent: the valid and the invalid rows are
    all the checked rows, the currency counts have distinct keys and add up to the valid
    rows, the amount is the running sum over the valid rows and nothing else, addresses are
    counted over valid rows, and a file with a header error has no checked row at all. *)
Theorem summary_consistent f parsed :
  let sm := summarize f parsed in
  let valid := valid_rows (sm_rows sm) in
  sm_validRows sm + sm_invalidRows sm = length (sm_rows sm) ∧
  sm_validRows sm = length valid ∧
  count_total (sm_currencyCounts sm) = sm_validRows sm ∧
  NoDup ((sm_currencyCounts sm).*1) ∧
  (∀ a, sm_amountTotal sm = Some a → a = foldl num_add zero (omap vr_amount valid)) ∧
  sm_addressFoundCount sm = length (List.filter (λ r, truthy_opt (vr_stellarAddress r)) valid) ∧
  (sm_rows sm = [] ∨ length (sm_rows sm) = sm_totalRows sm) ∧
  (detectHeaderErrors (default [] (pr_fields parsed)) ≠ [] → sm_rows sm = []).
Proof.
  cbn zeta. unfold summarize. set (rows := match detectHeaderErrors _ with [] => _ | _ => _ end).
  destruct (totals_spec rows (Totals [] zero 0)) as (T1 & T2 & T3 & T4).
  cbn [sm_validRows sm_invalidRows sm_rows sm_currencyCounts sm_amountTotal sm_addressFoundCount sm_totalRows].
  fold (valid_rows rows). cbn [t_counts t_amount t_addresses] in *.
  assert (Hle : length (valid_rows rows) <= length rows) by apply List.filter_length_le.
  split; [lia|]. split; [done|]. split; [done|]. split; [apply T2, NoDup_nil_2|].
  split; [|split; [done|split]].
  - intros a. destruct (num_ltb _ _); [|done]. intros [= <-]. exact T3.
  - subst rows. destruct (detectHeaderErrors _); [|by left]. right.
    unfold validateRows. by rewrite length_fmap.
  - subst rows. by destruct (detectHeaderErrors _).
Qed.
End Properties.

(** *** The gate *)

Section Gate.
Context `{UnicodeCase, CsvParser, HostLaws W, Browser, DashEnv, Multipart}.
Context (B : in_browser = true).
Implicit Types (w : W) (s : tab).

Definition all_valid (parsed : parse_result) : Prop :=
  let headers := default [] (pr_fields parsed) in
  detectHeaderErrors headers = [] ∧ pr_errors parsed = [] ∧
  Forall (λ r, vr_valid (validateRow headers r) = true) (imap numbered (pr_data parsed)).

Lemma none_invalid rows : length rows - length (valid_rows rows) = 0 ↔ Forall (λ r, vr_valid r = true) rows.
Proof.
  unfold valid_rows. induction rows as [|r rows IH]; cbn; [by split|].
  rewrite Forall_cons, <-IH. pose proof (List.filter_length_le vr_valid rows).
  destruct (vr_valid r); cbn; [naive_solver lia|]. split; [lia|]. by intros [? _].
Qed.

Lemma gate_summary f parsed s :
  submissionAllowed (setValidation (VOk (summarize f parsed)) (setSelectedFile (Some f) s)) = true
    ↔ all_valid parsed.
Proof.
  unfold submissionAllowed, all_valid. cbn [selectedFile validation setValidation setSelectedFile summarize
    sm_headerErrors sm_invalidRows].
  destruct (detectHeaderErrors _) as [|e es] eqn:Eh; cbn [app].
  - destruct (pr_errors parsed) as [|pe pes]; cbn [fmap list_fmap].
    + rewrite Nat.eqb_eq, (none_invalid (validateRows _ _)). unfold validateRows. rewrite Forall_fmap. naive_solver.
    + split; [done|]. naive_solver.
  - split; [done|]. naive_solver.
Qed.

(** C10: whatever the tab held before, after a file is dropped the upload button works
    exactly when the file could be parsed without errors, its header passed the check and
    every one of its rows was accepted; a file that cannot be parsed leaves its message. *)
Theorem drop_opens_gate_iff f fs s (sw : DashboardApi.api_state * W) : ∃ s',
  onDrop (f :: fs) (s, sw) = (Ok tt, (s', sw)) ∧
  selectedFile s' = Some f ∧ uploadResult s' = None ∧
  match parseCsvFile f with
  | Ok parsed => validation s' = VOk (summarize f parsed) ∧ (submissionAllowed s' = true ↔ all_valid parsed)
  | Throw e => validation s' = VError (err_message e) ∧ submissionAllowed s' = false
  end.
Proof.
  unfold onDrop, of_res, try_catch. cbn. destruct (parseCsvFile f) as [parsed|e] eqn:E; cbn.
  - eexists. split; [done|]. split; [done|]. split; [done|]. split; [done|]. apply gate_summary.
  - eexists. split; [done|]. by repeat split.
Qed.

(** What an upload leaves behind. *)
Definition uploaded s s' (r : res json) : Prop :=
  uploading s' = false ∧
  match r with
  | Ok _ => uploadResult s' = None ∧ selectedFile s' = None ∧ validation s' = VIdle ∧ disbursementName s' = []
  | Throw e => uploadResult s' = Some (UploadError (err_message e)) ∧
      selectedFile s' = selectedFile s ∧ validation s' = validation s ∧
      disbursementName s' = disbursementName s
  end.

Abbreviation idle := (DashboardApi.ApiState None).

Lemma setDisbursements_same s : setDisbursements (disbursements s) s = s.
Proof. by destruct s. Qed.

Lemma refreshSdp_run s w : st_live w → ∃ l w',
  refreshSdp (s, (idle, w)) = (Ok tt, (setDisbursements l s, (idle, w'))).
Proof.
  intros L. unfold refreshSdp, listDisbursements, try_catch.
  set (path := js "/api/disbursements" ++ _).
  destruct (sdpReq_run B path None w L) as (r & w' & _ & E & _).
  destruct (answer_of r) as [v|e].
  2:{ exists (disbursements s), w'. rewrite (run_bind_throw _ _ _ _ _ (run_host _ s _ _ _ E)).
      by rewrite setDisbursements_same. }
  rewrite (run_bind_ok _ _ _ _ _ (run_host _ s _ _ _ E)).
  assert (D : v = JNull ∨ v ≠ JNull) by (destruct v; auto; by right).
  destruct D as [->|D].
  - exists (disbursements s), w'. by rewrite setDisbursements_same.
  - exists (json_get (js "disbursements") v), w'.
    rewrite (run_bind_ok _ _ _ (s, (idle, w')) (json_get (js "disbursements") v)) by (by destruct v).
    reflexivity.
Qed.

(** The name an upload is given: the trimmed input, or one made from the file's. *)
Lemma upload_name_run s s0 f w : st_live w → ∃ name w',
  upload_name s0 f (s, (idle, w)) = (Ok name, (s, (idle, w'))) ∧ kept w w' ∧ name ≠ [] ∧
  (trim (disbursementName s0) ≠ [] → name = trim (disbursementName s0)).
Proof.
  intros L. unfold upload_name. destruct (truthy (trim (disbursementName s0))) eqn:Et.
  - eexists _, w. split; [done|]. split; [done|]. by apply truthy_true in Et.
  - destruct (now_spec w) as (t & w' & E & K & _). eexists _, w'.
    rewrite (run_bind_ok _ _ _ _ _ (run_host _ s _ _ _ (run_host _ idle _ _ _ E))).
    split; [done|]. split; [done|]. split; [|by apply truthy_false in Et].
    intros Hn. apply app_nil in Hn as [_ Hn]. done.
Qed.

(** The request an upload makes with a given access token. *)
Definition upload_request (f : file) (name : str) (token : option str) : request :=
  let init := multipart_post (batch_form f (MkBatchParams (Some f) (Some name) None None None None)) in
  request_of (SDP_BASE ++ js "/api/disbursements") init (sdp_headers init token).

Lemma handleUpload_open s w : st_live w → submissionAllowed s = true → ∃ f name r w0 w1 s' w',
     selectedFile s = Some f ∧ name ≠ [] ∧
     (trim (disbursementName s) ≠ [] → name = trim (disbursementName s)) ∧ kept w w0 ∧
     retried (upload_request f name) w0 r w1 ∧
     handleUpload (s, (idle, w)) = (Ok tt, (s', (idle, w'))) ∧ uploaded s s' (answer_of r).
Proof.
  intros L G. assert (Hf : ∃ f, selectedFile s = Some f).
  { unfold submissionAllowed in G. destruct (selectedFile s); [eauto|done]. }
  destruct Hf as [f Hf]. set (s1 := setUploadResult None (setUploading true s)).
  destruct (upload_name_run s1 s f w L) as (name & w0 & En & K & Hn & Hn').
  assert (L0 : st_live w0) by by apply K.
  set (init := multipart_post (batch_form f (MkBatchParams (Some f) (Some name) None None None None))).
  destruct (sdpReq_run B (js "/api/disbursements") init w0 L0) as (r & w1 & R & E & L1).
  unfold handleUpload. rewrite (run_bind_ok _ _ _ _ _ (run_get_state _ _)), Hf, G. cbn [negb].
  rewrite (run_bind_ok _ _ _ _ _ (run_modify_state _ _ _)),
    (run_bind_ok _ _ _ _ _ (run_modify_state _ _ _)), (run_bind_ok _ _ _ _ _ En).
  unfold try_finally, try_catch.
  change (transmitBatchParameters _) with (sdpReq (js "/api/disbursements") init).
  destruct (answer_of r) as [v|e] eqn:Ea.
  - rewrite (run_bind_ok _ _ _ _ _ (run_host _ s1 _ _ _ E)),
      (run_bind_ok _ _ _ _ _ (run_modify_state _ _ _)). unfold clearFile.
    rewrite (run_bind_ok _ _ _ _ _ (run_modify_state _ _ _)),
      (run_bind_ok _ _ _ _ _ (run_modify_state _ _ _)).
    match goal with |- context [refreshSdp (?s2, _)] => destruct (refreshSdp_run s2 w1 L1) as (l & w2 & E2) end.
    rewrite E2. eexists f, name, r, w0, w1, _, w2. repeat (split; [done|]). rewrite Ea. by repeat split.
  - rewrite (run_bind_throw _ _ _ _ _ (run_host _ s1 _ _ _ E)), run_modify_state.
    eexists f, name, r, w0, w1, _, w1. repeat (split; [done|]). rewrite Ea. by repeat split.
Qed.

(** the upload handler does nothing while the gate is closed; when it is open the
    selected file is posted once (twice with a renewed token after a 401) under a name that
    is never empty, the busy flag is always released, a failure keeps the file and shows its
    message, and a success empties the form. *)
Theorem upload_gated s w : st_live w →
  (submissionAllowed s = false → handleUpload (s, (idle, w)) = (Ok tt, (s, (idle, w)))) ∧
  (submissionAllowed s = true → ∃ f name r w0 w1 s' w',
     selectedFile s = Some f ∧ name ≠ [] ∧
     (trim (disbursementName s) ≠ [] → name = trim (disbursementName s)) ∧ kept w w0 ∧
     retried (upload_request f name) w0 r w1 ∧
     handleUpload (s, (idle, w)) = (Ok tt, (s', (idle, w'))) ∧ uploaded s s' (answer_of r)).
Proof.
  intros L. split; [|by apply handleUpload_open].
  intros G. unfold handleUpload. rewrite (run_bind_ok _ _ _ _ _ (run_get_state _ _)).
  destruct (selectedFile s); [by rewrite G|done].
Qed.

(** the outcome of a successful upload is never shown: clearing the form also clears
    the result that was just recorded, so that after the handler the tab holds either no
    result or a failure. *)
Theorem upload_success_forgotten s w : st_live w → submissionAllowed s = true → ∃ s' w',
  handleUpload (s, (idle, w)) = (Ok tt, (s', (idle, w'))) ∧
  ∀ v, uploadResult s' ≠ Some (UploadSuccess v).
Proof.
  intros L G. destruct (handleUpload_open s w L G) as (f & name & r & w0 & w1 & s' & w' & _ & _ & _ & _ & _ & E & _ & U).
  exists s', w'. split; [done|]. intros v. destruct (answer_of r); destruct_and? U; congruence.
Qed.
End Gate.

(** ** Concrete runs *)

Module Runs.
#[local] Existing Instance ascii_case.
#[local] Existing Instance DashboardApi.Runs.demo_env.
#[local] Existing Instance DashboardApi.Runs.demo_browser.
#[local] Existing Instance DashboardApi.Runs.demo_multipart.

Abbreviation idle := (DashboardApi.ApiState None).

Definition demo_address : str := js "G" ++ replicate 55 65%N.
Definition demo_row (address amount : str) : list (str * json) :=
  [(js "Destination", JStr address); (js " Amount", JStr amount); (js "asset", JStr (js "usdc"))].
Definition demo_headers : list str := [js "Destination"; js " Amount"; js "asset"].
#[local] Instance demo_parser : CsvParser := λ f,
  Ok (ParseResult (Some demo_headers) [demo_row demo_address (js " 12.5 ")] []).

Definition demo_file : file := File (js "may.batch.csv") 512 (js "...").
Definition empty_tab : tab := Tab None [] None VIdle false None.
Definition demo_world (replies : list (res response)) : scripted := DashboardApi.Runs.logged_in replies.

(** A dropped file opens the gate; the upload succeeds and its result is gone. *)
Example demo_upload :
  let run := (onDrop [demo_file];; handleUpload)
    (empty_tab, (DashboardApi.ApiState None, demo_world [reply 200 (js "{}"); reply 200 (js "{}")])) in
  run.1 = Ok tt ∧ uploadResult run.2.1 = None ∧ selectedFile run.2.1 = None ∧
  length (net_trace run.2.2.2) = 2.
Proof. vm_compute. by repeat split. Qed.

Example demo_rejected :
  vr_errors (validateRow demo_headers (numbered 0 (demo_row (js "GABC") (js "-1")))) = [ERR_ADDRESS; ERR_AMOUNT].
Proof. vm_compute. reflexivity. Qed.

Example demo_name : fileBasename (js "may.batch.csv") = js "may.batch" ∧ fileBasename (js ".csv") = js ".csv".
Proof. by vm_compute. Qed.

Definition ready : tab :=
  setValidation (VOk (summarize demo_file
    (ParseResult (Some demo_headers) [demo_row demo_address (js " 12.5 ")] [])))
    (setSelectedFile (Some demo_file) empty_tab).

Lemma ready_allowed : submissionAllowed ready = true.
Proof. vm_compute. reflexivity. Qed.

Lemma upload_gated_witness :
  let s := ready in let w := demo_world [reply 200 (js "{}")] in ∃ f name r w0 w1 s' w',
     selectedFile s = Some f ∧ name ≠ [] ∧
     (trim (disbursementName s) ≠ [] → name = trim (disbursementName s)) ∧ kept w w0 ∧
     retried (upload_request f name) w0 r w1 ∧
     handleUpload (s, (idle, w)) = (Ok tt, (s', (idle, w'))) ∧ uploaded s s' (answer_of r).
Proof.
  apply (upload_gated eq_refl ready (demo_world [reply 200 (js "{}")])); [reflexivity|apply ready_allowed].
Defined.

Lemma upload_success_forgotten_witness : ∃ s' w',
  handleUpload (ready, (idle, demo_world [reply 200 (js "{}")])) = (Ok tt, (s', (idle, w'))) ∧
  ∀ v, uploadResult s' ≠ Some (UploadSuccess v).
Proof.
  apply (upload_success_forgotten eq_refl ready (demo_world [reply 200 (js "{}")]));
    [reflexivity|apply ready_allowed].
Defined.
End Runs.
