(* ===== verification/UploadReview.v ===== *)
(** * The review of a CSV upload

    What [dashboard/app/dashboard/payouts/page.tsx] shows of an upload before it is sent: the drop zone, the
    tiles, the banner, the review grid and the buttons (module Review), and the table and the log of the
    disbursements that were sent (module Listing), over the state and the summary of Disbursement. The number
    formats of the browser and [date-fns] are parameters. *)

From S2P Require Import Prelude JsString JsNumber JsRound UriCodec FormCodec Json Effects Decode Scripts Sep0007 DashboardApi Disbursement.

Module Review.
Inductive tone := Slate | Emerald | Red | Indigo | Amber.
#[export] Instance tone_eq_dec : EqDecision tone.
Proof. solve_decision. Defined.

(** [StatTile] *)
Record tile := MkTile { ti_label : str; ti_value : str; ti_tone : tone }.
(** [Banner] *)
Inductive banner_tone := Success | Warning | Error.
#[export] Instance banner_tone_eq_dec : EqDecision banner_tone.
Proof. solve_decision. Defined.
Record banner := MkBanner { bn_tone : banner_tone; bn_title : str; bn_lines : list str }.

Definition nat_text (n : nat) : str := N_to_str (N.of_nat n).

(** *** The drop zone *)

Definition drop_zone_lines (s : tab) (isDragActive : bool) : list str :=
  match selectedFile s with
  | Some f => [file_name f; num_to_fixed 1 (num_div (num_of_Z (file_size f)) (num_of_Z 1024)) ++ js " KB"]
              ++ (if isDragActive then [js "Drop to replace" ++ [8230%N]] else [])
  | None => [js "Browse or drag & drop a CSV file";
             js "Required columns: stellar_address, amount OR phone, id, amount, verification"]
  end.

Definition drop_zone_tone (s : tab) (isDragActive : bool) : tone :=
  if isDragActive then Indigo else match selectedFile s with Some _ => Emerald | None => Slate end.

(** *** Tiles and banner *)

Definition tiles (summary : ParsedCsvSummary) : list tile :=
  [MkTile (js "Rows parsed") (nat_text (sm_totalRows summary)) Slate;
   MkTile (js "Valid") (nat_text (sm_validRows summary)) (if (sm_invalidRows summary =? 0)%nat then Emerald else Slate);
   MkTile (js "Invalid") (nat_text (sm_invalidRows summary)) (if (0 <? sm_invalidRows summary)%nat then Red else Slate);
   MkTile (js "Currency groups") (nat_text (length (sm_currencyCounts summary))) Indigo].

Section Display.
(** [toLocaleString()] of the browser. *)
Variable locale : num → str.

Definition amount_line (summary : ParsedCsvSummary) : str :=
  match sm_amountTotal summary with
  | Some total =>
      js "Total amount across valid rows: " ++ locale total ++ js " (currency counts: "
      ++ join (js ", ") ((λ kv : str * nat, kv.1 ++ [32; 215; 32]%N ++ nat_text kv.2) <$> sm_currencyCounts summary) ++ js ")"
  | None => js "Amounts parsed successfully."
  end.

Definition route_line (summary : ParsedCsvSummary) : str :=
  if (0 <? sm_addressFoundCount summary)%nat
  then nat_text (sm_addressFoundCount summary) ++ js " row(s) target Stellar addresses directly."
  else js "Rows target phone/id route (phone + id + verification).".

Definition header_banner (summary : ParsedCsvSummary) : banner :=
  match sm_headerErrors summary with
  | _ :: _ => MkBanner Error (js "CSV header validation failed") (sm_headerErrors summary)
  | [] =>
      if (0 <? sm_invalidRows summary)%nat then
        MkBanner Warning (nat_text (sm_invalidRows summary) ++ js " row(s) have validation issues " ++ [8212%N] ++ js " fix before submitting")
          [js "Review the rows table below. " ++ nat_text (sm_validRows summary) ++ js " of " ++ nat_text (sm_totalRows summary) ++ js " rows are valid."]
      else
        MkBanner Success (nat_text (sm_validRows summary) ++ js " recipient row(s) ready for upload") [amount_line summary; route_line summary]
  end.

(** *** The review grid *)

Inductive checkoutFilter := All | Valid | Invalid.

Definition filter_labels (summary : ParsedCsvSummary) : list str :=
  [js "All (" ++ nat_text (sm_totalRows summary) ++ js ")"; js "Valid (" ++ nat_text (sm_validRows summary) ++ js ")";
   js "Flagged (" ++ nat_text (sm_invalidRows summary) ++ js ")"].

Definition warning (summary : ParsedCsvSummary) : option str :=
  if (0 <? sm_invalidRows summary)%nat then
    Some (js "Warning: " ++ nat_text (sm_invalidRows summary) ++ js " row"
      ++ (if (1 <? sm_invalidRows summary)%nat then js "s contain" else js " contains")
      ++ js " validation or address format errors (highlighted in orange/red below). Correct these rows in your CSV to enable batch submission.")
  else None.

Definition passes (f : checkoutFilter) (r : ValidatedRow) : bool :=
  match f with All => true | Valid => vr_valid r | Invalid => negb (vr_valid r) end.

Definition MAX_SHOWN : nat := 100.
Definition shown_rows (f : checkoutFilter) (summary : ParsedCsvSummary) : list ValidatedRow :=
  take MAX_SHOWN (List.filter (passes f) (sm_rows summary)).

(** [(r.raw as any)[k]] when it is neither [null] nor [undefined]. *)
Definition raw_text (k : str) (r : ValidatedRow) : option str :=
  match obj_get k (row_cells (vr_raw r)) with None | Some JNull => None | Some v => Some (json_to_string v) end.

Definition dash : str := [8212%N].
Definition or_else {A} (o o' : option A) : option A := match o with Some _ => o | None => o' end.

Definition destination (r : ValidatedRow) : str :=
  default dash (or_else (vr_stellarAddress r) (or_else (raw_text (js "phone") r) (raw_text (js "id") r))).
Definition amount_text (r : ValidatedRow) : str :=
  match vr_amount r with Some a => locale a | None => default dash (raw_text (js "amount") r) end.
Definition address_status (r : ValidatedRow) : list str :=
  if vr_valid r then [js "Valid Recipient"]
  else js "Invalid Address / Format" :: match vr_errors r with [] => [] | es => [join (js ", ") es] end.

Inductive lookup := Verified | LookupFailed | NotApplicable.
#[export] Instance lookup_eq_dec : EqDecision lookup.
Proof. solve_decision. Defined.
Definition registry_lookup (r : ValidatedRow) : lookup :=
  match vr_stellarAddress r with
  | Some a => if truthy a then if isStellarAddress a then Verified else LookupFailed else NotApplicable
  | None => NotApplicable
  end.

Record grid_row := MkGridRow {
  gr_number : str; gr_destination : str; gr_amount : str; gr_currency : str; gr_status : list str; gr_lookup : lookup; gr_tone : tone }.
Definition grid_row_of (r : ValidatedRow) : grid_row :=
  MkGridRow (js "#" ++ Z_to_str (vr_rowNumber r)) (destination r) (amount_text r) (default dash (vr_currency r))
    (address_status r) (registry_lookup r) (if vr_valid r then Emerald else Red).
Definition grid (f : checkoutFilter) (summary : ParsedCsvSummary) : list grid_row := grid_row_of <$> shown_rows f summary.
End Display.

(** *** Result and buttons *)

Definition result_lines (r : UploadResult) : list str :=
  match r with
  | UploadSuccess d =>
      [js "Disbursement created";
       default [] (field_str (js "name") d) ++ js " " ++ [183%N] ++ js " " ++ take 12 (default [] (field_str (js "id") d)) ++ [8230; 32; 183]%N
         ++ js " status: " ++ default [] (field_str (js "status") d)]
  | UploadError message => [message]
  end.

Record actions := MkActions { ac_submit_disabled : bool; ac_submit_label : str; ac_clear : bool; ac_hint : bool }.
Definition actions_of (s : tab) : actions :=
  MkActions (negb (submissionAllowed s) || uploading s)
    (if uploading s then js "Submitting to SDP" ++ [8230%N] else js "Submit to SDP")
    (match selectedFile s with Some _ => true | None => false end)
    (negb (submissionAllowed s) &&
     match validation s with
     | VOk summary => match sm_headerErrors summary with [] => (0 <? sm_invalidRows summary)%nat | _ => true end
     | _ => false
     end).

(** *** Properties *)

Section Spec.
Context `{UC : UnicodeCase}.
Variable locale : num → str.

(** the screen and the gate agree: with a file chosen, the banner promises an upload exactly
    when one can be submitted, the hint to fix the file stands exactly when it does not, and the button is
    pressable exactly when the promise stands and no upload runs; a file of no rows is promised too. *)
Theorem banner_tells_gate s summary : validation s = VOk summary → is_Some (selectedFile s) →
  (bn_tone (header_banner locale summary) = Success ↔ submissionAllowed s = true) ∧
  ac_hint (actions_of s) = negb (submissionAllowed s) ∧
  (ac_submit_disabled (actions_of s) = false ↔ bn_tone (header_banner locale summary) = Success ∧ uploading s = false) ∧
  (sm_headerErrors summary = [] → sm_rows summary = [] → sm_invalidRows summary = 0 → submissionAllowed s = true).
Proof.
  intros Hv [f Hf]. unfold actions_of, header_banner, submissionAllowed. cbn [ac_hint ac_submit_disabled]. rewrite Hv, Hf.
  destruct (sm_headerErrors summary) as [|e es]; cbn.
  - destruct (sm_invalidRows summary) as [|n]; cbn; destruct (uploading s); cbn; naive_solver.
  - split_and!; naive_solver.
Qed.

Lemma rows_numbered f parsed : NoDup (vr_rowNumber <$> sm_rows (summarize f parsed)).
Proof.
  unfold summarize. cbn [sm_rows]. destruct (detectHeaderErrors _); [|constructor]. unfold validateRows.
  rewrite <-list_fmap_compose. rewrite fmap_imap.
  assert (G : ∀ (l : list (list (str * json))) k, NoDup (imap (λ i r, (Z.of_nat (k + i) + 2)%Z) l)).
  { induction l as [|x l IH]; intros k; [constructor|]. cbn [imap]. constructor.
    - intros Hin. apply elem_of_lookup_imap_1 in Hin as (i & y & E & Hi). cbn in E. lia.
    - specialize (IH (S k)). erewrite imap_ext; [exact IH|]. intros i y _. cbn. lia. }
  specialize (G (pr_data parsed) 0). exact G.
Qed.

(** up to a hundred rows the grid shows every row, and each flagged one under "Flagged"; of a
    longer file the rows from the hundred and first are sent without ever having been shown, under any
    filter, once all rows are valid. *)
Theorem review_is_partial f parsed :
  let summary := summarize f parsed in
  (length (sm_rows summary) ≤ MAX_SHOWN →
     shown_rows All summary = sm_rows summary ∧
     ∀ r, r ∈ sm_rows summary → (r ∈ shown_rows Invalid summary ↔ vr_valid r = false) ∧ (r ∈ shown_rows Valid summary ↔ vr_valid r = true)) ∧
  (Forall (λ r, vr_valid r = true) (sm_rows summary) →
     ∀ fl r, r ∈ drop MAX_SHOWN (sm_rows summary) → r ∉ shown_rows fl summary).
Proof.
  cbn zeta. pose proof (rows_numbered f parsed) as ND. set (rows := sm_rows (summarize f parsed)) in *.
  assert (FA : ∀ l : list ValidatedRow, List.filter (passes All) l = l) by (induction l as [|x l IH]; cbn; [done|by rewrite IH]).
  split.
  - intros L. unfold shown_rows. fold rows. split; [by rewrite FA, take_ge|]. intros r Hr.
    assert (M : ∀ fl, r ∈ take MAX_SHOWN (List.filter (passes fl) rows) ↔ passes fl r = true).
    { intros fl. rewrite take_ge by (etrans; [apply filter_length_le|done]). rewrite !list_elem_of_In, filter_In.
      rewrite <-list_elem_of_In. naive_solver. }
    split; rewrite M; cbn; [by destruct (vr_valid r)|done].
  - intros V fl r Hr Hs. unfold shown_rows in Hs. fold rows in Hs.
    assert (Hs' : r ∈ take MAX_SHOWN rows).
    { destruct fl.
      - by rewrite FA in Hs.
      - assert (List.filter (passes Valid) rows = rows) as E; [|by rewrite E in Hs].
        clear -V. induction V as [|x l Hx _ IH]; cbn; [done|]. by rewrite Hx, IH.
      - assert (List.filter (passes Invalid) rows = []) as E; [|rewrite E in Hs; by apply not_elem_of_nil in Hs].
        clear -V. induction V as [|x l Hx _ IH]; cbn; [done|]. by rewrite Hx, IH. }
    rewrite <-(take_drop MAX_SHOWN rows), fmap_app, NoDup_app in ND. destruct ND as (_ & D & _).
    apply (D (vr_rowNumber r)); by apply list_elem_of_fmap_2.
Qed.

(** the two last columns never contradict each other: a row said to have a valid recipient
    is verified or needs no address; but a recipient named by a phone column under one of its other accepted
    headings is shown as a dash. *)
Theorem columns_agree headers row :
  (vr_valid (validateRow headers row) = true → registry_lookup (validateRow headers row) ≠ LookupFailed) ∧
  (registry_lookup (validateRow headers row) = Verified ↔
     isStellarAddress (text headers row "stellar_address") = true) ∧
  (text headers row "stellar_address" = [] → obj_get (js "phone") (row_cells row) = None → obj_get (js "id") (row_cells row) = None →
     destination (validateRow headers row) = dash).
Proof.
  assert (E : vr_stellarAddress (validateRow headers row) = non_empty (text headers row "stellar_address")) by done.
  split; [|split].
  - intros V. destruct (row_valid_recipient headers row V) as [A|A]; unfold registry_lookup; rewrite E; unfold non_empty.
    + rewrite (address_truthy _ A), (address_truthy _ A), A. done.
    + destruct A as (-> & _). done.
  - unfold registry_lookup. rewrite E. unfold non_empty. pose proof (address_truthy (text headers row "stellar_address")) as A.
    destruct (isStellarAddress (text headers row "stellar_address")) eqn:Ei.
    + rewrite A by done. rewrite A, Ei by done. done.
    + destruct (truthy (text headers row "stellar_address")) eqn:T; rewrite ?T, ?Ei; naive_solver.
  - intros Hs Hp Hi. unfold destination, raw_text. rewrite E, Hs. cbn [vr_raw validateRow non_empty truthy or_else].
    change (vr_raw (validateRow headers row)) with row. by rewrite Hp, Hi.
Qed.
End Spec.
End Review.

(** ** Concrete runs *)

Module Runs.
Import Review.
#[local] Existing Instance ascii_case.

Definition file_ : file := File (js "may.csv") 2048 (js "...").
Definition summary_of (rows : list ValidatedRow) : ParsedCsvSummary :=
  MkSummary (js "may.csv") (Fin 2 0) [] (length rows) (length rows) 0 [] None [] 0 rows.
Definition chosen : tab := Tab None [] (Some file_) (VOk (summary_of [])) false None.

Lemma banner_tells_gate_witness :
  (bn_tone (header_banner num_to_str (summary_of [])) = Success ↔ submissionAllowed chosen = true) ∧
  ac_hint (actions_of chosen) = negb (submissionAllowed chosen) ∧
  (ac_submit_disabled (actions_of chosen) = false ↔ bn_tone (header_banner num_to_str (summary_of [])) = Success ∧ uploading chosen = false) ∧
  (sm_headerErrors (summary_of []) = [] → sm_rows (summary_of []) = [] → sm_invalidRows (summary_of []) = 0 → submissionAllowed chosen = true).
Proof. apply (banner_tells_gate num_to_str chosen (summary_of [])); [reflexivity|eexists; reflexivity]. Defined.

Example promised_without_rows : bn_title (header_banner num_to_str (summary_of [])) = js "0 recipient row(s) ready for upload".
Proof. vm_compute. reflexivity. Qed.

(** A recipient under another accepted heading of the phone column. *)
Definition by_msisdn : ParsedCsvRow :=
  MkRow 2 [(js "msisdn", JStr (js "+2348012345678")); (js "user_id", JStr (js "u1")); (js "amount", JStr (js "5")); (js "code", JStr (js "77"))].
Definition msisdn_headers : list str := [js "msisdn"; js "user_id"; js "amount"; js "code"].

Example dash_demo : vr_valid (validateRow msisdn_headers by_msisdn) = true ∧ destination (validateRow msisdn_headers by_msisdn) = dash.
Proof. split; vm_compute; reflexivity. Qed.
End Runs.
