(* ===== verification/DashboardAuth.v ===== *)
(** * Dashboard sign-in, route guard and wallet session

    Models of [dashboard/lib/auth-context.tsx] (login, logout, the role),
    [dashboard/middleware.ts] (which requests reach the dashboard), the session test of
    [dashboard/app/dashboard/layout.tsx], and of [dashboard/lib/freighter.ts] with
    [dashboard/lib/wallet-context.tsx] (the Freighter wallet and its persisted flag). *)

From S2P Require Import Prelude JsString JsNumber UriCodec FormCodec JsDate Json Effects Decode Scripts DashboardApi.

(** ** Sign-in *)

Definition ROLE_SUPERADMIN : str := js "superadmin".
Definition ROLE_KEY : str := js "role".

Record auth_state := AuthState { auth_token : option str; auth_role : option str }.

Definition set_token (t : option str) (s : auth_state) : auth_state := AuthState t (auth_role s).
Definition set_role (r : option str) (s : auth_state) : auth_state := AuthState (auth_token s) r.

Definition useSuperAdmin (s : auth_state) : bool := bool_decide (auth_role s = Some ROLE_SUPERADMIN).

Section Auth.
Context `{Host W, Browser, DashEnv, Multipart}.
Abbreviation auth := (M (auth_state * (api_state * W))).

Definition readStoredRole : M W (option str) :=
  if in_browser then st_get LocalStorage ROLE_KEY else mret None.

(** The effect of [AuthProvider] on mount. *)
Definition auth_mounts : auth unit :=
  token ← host (host (st_get LocalStorage TOKEN_KEY));
  modify_state (set_token token);;
  role ← host (host readStoredRole);
  modify_state (set_role role).

Definition auth_login (user_id pin : str) : auth unit :=
  data ← host (login user_id pin);
  token ← read_prop (js "token") data;
  token ← as_string token;
  host (host (storeSession token (text_field (js "refresh_token") data)));;
  modify_state (set_token (Some token));;
  let role := json_get (js "role") data in
  if json_truthy role then
    role ← as_string role;
    host (host (st_set LocalStorage ROLE_KEY role));;
    modify_state (set_role (Some role))
  else mret tt.

Definition auth_logout : auth unit :=
  host (host clearSession);;
  host (host (st_del LocalStorage ROLE_KEY));;
  modify_state (set_token None);;
  modify_state (set_role None).
End Auth.

(** ** Route guard *)

Definition AUTH_COOKIES : list str :=
  [js "token"; js "zaps-auth"; js "privy-token"; js "privy-id-token"; js "privy-session"].

(** [AUTH_COOKIES.some(...)] on the cookies a request carries. *)
Definition isAuthenticated (cookies : str → option str) : bool :=
  existsb (λ name, truthy_opt (cookies name)) AUTH_COOKIES.

Inductive verdict := Next | Redirect (path : str).

Definition middleware (cookies : str → option str) : verdict :=
  if isAuthenticated cookies then Next else Redirect (js "/login").

(** [config.matcher] *)
Definition guarded (path : str) : bool :=
  str_eqb path (js "/dashboard") || starts_with (js "/dashboard/") path.

Definition serve (cookies : str → option str) (path : str) : verdict :=
  if guarded path then middleware cookies else Next.

(** The session test of the layout, on [document.cookie]. *)
Definition cookie_part (part : str) : bool :=
  let name := default [] (head (split_on 61 (trim part))) in
  existsb (str_eqb name) AUTH_COOKIES && includes (js "=") part.

Definition hasSession (token : option str) (document_cookie : str) : bool :=
  truthy_opt token || existsb cookie_part (split_on 59 document_cookie).

(** ** Freighter *)

Record FreighterWalletState := MkWallet {
  installed : bool;
  connected : bool;
  publicKey : option str;
  network : option str;
}.

Definition DEFAULT_WALLET_STATE : FreighterWalletState := MkWallet false false None None.

(** The extension's API: a value, or [undefined]; [requestAccess] and [signTransaction]
    answer a value and an error. *)
Record FreighterApi (W : Type) := MkFreighter {
  isConnected : M W bool;
  getAddress : M W (option str);
  getNetwork : M W (option str);
  requestAccess : M W (option str * option str);
  freighter_sign : str → str → M W (option str * option str);
}.
Arguments MkFreighter {W}.
Arguments isConnected {W}.
Arguments getAddress {W}.
Arguments getNetwork {W}.
Arguments requestAccess {W}.
Arguments freighter_sign {W}.

(** [process.env.NODE_ENV], the injected stand-in, and the package import. *)
Class FreighterEnv (W : Type) := {
  NODE_ENV : str;
  injected : option (FreighterApi W);
  imported : res (FreighterApi W);
}.

Definition WALLET_SESSION_KEY : str := js "zaps.wallet.connected".

Section Freighter.
Context `{Host W, Browser, FreighterEnv W}.

Definition loadFreighterApi : M W (FreighterApi W) :=
  if negb (str_eqb (NODE_ENV (W := W)) (js "production")) && in_browser then
    match injected (W := W) with Some mock => mret mock | None => of_res imported end
  else of_res imported.

(** One promise of [Promise.allSettled]: a non-empty value, or [null]. *)
Definition settled_value (m : M W (option str)) : M W (option str) :=
  try_catch (v ← m; mret (if truthy_opt v then v else None)) (λ _, mret None).

Definition detectFreighter : M W FreighterWalletState :=
  try_catch
    (api ← loadFreighterApi;
     conn ← isConnected api;
     if negb conn then mret (MkWallet true false None None)
     else
       key ← settled_value (getAddress api);
       net ← settled_value (getNetwork api);
       mret (MkWallet true true key net))
    (λ _, mret DEFAULT_WALLET_STATE).

Definition connectFreighter : M W FreighterWalletState :=
  api ← loadFreighterApi;
  result ← requestAccess api;
  if truthy_opt result.2 then throw (new_error (default [] result.2)) else detectFreighter.

Definition signWithFreighter (xdr networkPassphrase : str) : M W (option str) :=
  api ← loadFreighterApi;
  result ← freighter_sign api xdr networkPassphrase;
  if truthy_opt result.2 then throw (new_error (default [] result.2)) else mret result.1.

Definition hasWalletSession : M W bool :=
  try_catch
    (if negb in_browser then mret false
     else v ← st_get LocalStorage WALLET_SESSION_KEY; mret (bool_decide (v = Some (js "true"))))
    (λ _, mret false).

Definition setWalletSession (conn : bool) : M W unit :=
  try_catch
    (if negb in_browser then mret tt
     else if conn then st_set LocalStorage WALLET_SESSION_KEY (js "true")
     else st_del LocalStorage WALLET_SESSION_KEY)
    (λ _, mret tt).
End Freighter.

Definition ellipsis : N := 8230.
Definition truncateKey (key : str) (head tail : nat) : str :=
  if (length key <=? head + tail + 3)%nat then key
  else take head key ++ [ellipsis] ++ (if (tail =? 0)%nat then key else slice_last tail key).

(** ** The wallet provider *)

Record wallet_state := WalletState {
  ws_wallet : FreighterWalletState;
  ws_restoring : bool;
  ws_connecting : bool;
  ws_error : option str;
  ws_mounted : bool;
}.

Definition initial_wallet : wallet_state := WalletState DEFAULT_WALLET_STATE true false None true.

Definition setWallet v s := WalletState v (ws_restoring s) (ws_connecting s) (ws_error s) (ws_mounted s).
Definition setRestoring v s := WalletState (ws_wallet s) v (ws_connecting s) (ws_error s) (ws_mounted s).
Definition setConnecting v s := WalletState (ws_wallet s) (ws_restoring s) v (ws_error s) (ws_mounted s).
Definition setError v s := WalletState (ws_wallet s) (ws_restoring s) (ws_connecting s) v (ws_mounted s).

Section Provider.
Context `{Host W, Browser, FreighterEnv W}.
Abbreviation wallet := (M (wallet_state * W)).

(** A state update skipped after unmount. *)
Definition if_mounted (m : wallet unit) : wallet unit :=
  s ← get_state; if ws_mounted s then m else mret tt.

(** The effect on mount; [detectFreighter] does not throw. *)
Definition restore : wallet unit :=
  known ← host hasWalletSession;
  (if (known : bool) then
     detected ← host detectFreighter;
     if_mounted (modify_state (setWallet detected);;
       if negb (connected detected) then host (setWalletSession false) else mret tt)
   else mret tt);;
  if_mounted (modify_state (setRestoring false)).

Definition connect : wallet unit :=
  modify_state (setConnecting true);;
  modify_state (setError None);;
  try_catch
    (next ← host connectFreighter;
     if_mounted (modify_state (setWallet next);; host (setWalletSession (connected next))))
    (λ err, if_mounted (modify_state (setWallet DEFAULT_WALLET_STATE);;
       host (setWalletSession false);; modify_state (setError (Some (err_message err)))));;
  if_mounted (modify_state (setConnecting false)).

Definition disconnect : wallet unit :=
  modify_state (setWallet DEFAULT_WALLET_STATE);;
  host (setWalletSession false);;
  modify_state (setError None).

Definition signTransaction (xdr networkPassphrase : str) : wallet (option str) :=
  s ← get_state;
  if negb (connected (ws_wallet s)) then throw (new_error (js "Connect a wallet before signing"))
  else
    modify_state (setError None);;
    try_catch (host (signWithFreighter xdr networkPassphrase))
      (λ err, if_mounted (modify_state (setError (Some (err_message err))));; throw err).
End Provider.

(** ** Sign-in: properties *)

Section AuthProperties.
Context `{HostLaws W, Browser, DashEnv, Multipart}.
Context (B : in_browser = true).
Implicit Types (w : W) (s : auth_state).

Definition stored_role w : option str := st_peek w LocalStorage ROLE_KEY.

(** The cookies the browser sends. *)
Definition sent_cookies w (name : str) : option str := st_peek w CookieJar name.

Definition privy_cookie w : bool :=
  existsb (λ name, truthy_opt (sent_cookies w name)) [js "privy-token"; js "privy-id-token"; js "privy-session"].

Lemma serve_token w path t : sent_cookies w TOKEN_KEY = Some t → t ≠ [] → serve (sent_cookies w) path = Next.
Proof.
  intros E Ht. unfold serve, middleware, isAuthenticated. change AUTH_COOKIES with (TOKEN_KEY :: tail AUTH_COOKIES).
  cbn [existsb]. rewrite E. cbn [truthy_opt]. apply truthy_true in Ht as ->. by destruct (guarded path).
Qed.

Lemma signed_out_verdict w path :
  sent_cookies w TOKEN_KEY = None → sent_cookies w AUTH_COOKIE = None → guarded path = true →
  serve (sent_cookies w) path = if privy_cookie w then Next else Redirect (js "/login").
Proof.
  intros E1 E2 G. unfold serve, middleware, isAuthenticated. rewrite G.
  change AUTH_COOKIES with (TOKEN_KEY :: AUTH_COOKIE :: [js "privy-token"; js "privy-id-token"; js "privy-session"]).
  cbn [existsb]. rewrite E1, E2. reflexivity.
Qed.

(** The server's answer to a login. *)
Record login_answer (data : json) (t : str) (role : option str) : Prop := LoginAnswer {
  la_token : json_get (js "token") data = Some (JStr t);
  la_nonempty : t ≠ [];
  la_paired : well_paired t;
  la_role : json_get (js "role") data = str_value role;
}.

Lemma login_answer_read (data : json) t role : login_answer data t role → data ≠ JNull.
Proof. by intros [E _ _ _] ->. Qed.

Lemma storeSession_role token rotated w w' :
  storeSession token rotated w = (Ok tt, w') → st_live w → stored_role w' = stored_role w.
Proof.
  intros E L. unfold stored_role, storeSession in *. rewrite B in E. cbn [negb] in E.
  destruct (set_live LocalStorage TOKEN_KEY token w L) as (w1 & E1 & [e1 n1 t1 l1]).
  rewrite (run_bind_ok _ _ _ _ _ E1) in E. assert (L1 : st_live w1) by auto.
  assert (P : ∀ k, k ≠ TOKEN_KEY → st_peek w1 LocalStorage k = st_peek w LocalStorage k).
  { intros k Hk. apply n1. congruence. }
  apply run_bind_inv in E as ([] & w2 & E2 & E). apply run_bind_inv in E as (enc & w3 & E3 & E).
  assert (w3 = w2) as -> by (unfold encode_uri in E3; destruct (encodeURIComponent token); by inversion E3).
  assert (L2P : st_live w2 ∧ st_peek w2 LocalStorage ROLE_KEY = st_peek w1 LocalStorage ROLE_KEY).
  { destruct rotated as [[|c r]|]; [by inversion E2; subst| |by inversion E2; subst]. cbn [truthy] in E2.
    destruct (set_live LocalStorage REFRESH_TOKEN_KEY (c :: r) w1 L1) as (w4 & E4 & [e4 n4 t4 l4]).
    rewrite E2 in E4. injection E4 as <-. split; [auto|]. apply n4. vm_compute. congruence. }
  destruct L2P as [L2 P2]. destruct (set_live CookieJar TOKEN_KEY enc w2 L2) as (w4 & E4 & [e4 n4 t4 l4]).
  rewrite E in E4. injection E4 as <-. rewrite n4 by (vm_compute; congruence). rewrite P2.
  apply P. vm_compute. congruence.
Qed.

(** a login the server answers with a token stores the session, opens every dashboard
    route and keeps the role the answer names; an answer without a role leaves the role
    of whoever was signed in before. *)
Theorem login_opens_dashboard user_id pin s w w1 data t role :
  st_live w1 → login user_id pin (DashboardApi.ApiState None, w) = (Ok data, (DashboardApi.ApiState None, w1)) →
  login_answer data t role → ∃ w',
  auth_login user_id pin (s, (DashboardApi.ApiState None, w))
    = (Ok tt, (AuthState (Some t) (if truthy_opt role then role else auth_role s),
               (DashboardApi.ApiState None, w'))) ∧
  session_of w' = store_pure t (text_field (js "refresh_token") data) (session_of w1) ∧
  stored_role w' = (if truthy_opt role then role else stored_role w1) ∧
  (∀ path, serve (sent_cookies w') path = Next).
Proof.
  intros L1 El A. pose proof (login_answer_read _ _ _ A) as Hn. destruct A as [At Hne Hwp Ar].
  unfold auth_login. rewrite (run_bind_ok _ _ _ _ _ (run_host _ s _ _ _ El)).
  rewrite (run_bind_ok _ _ _ (s, (DashboardApi.ApiState None, w1)) (json_get (js "token") data))
    by (by destruct data).
  rewrite At. rewrite (run_bind_ok _ _ _ (s, (DashboardApi.ApiState None, w1)) t) by done.
  destruct (storeSession_run t (text_field (js "refresh_token") data) w1 B L1) as (w2 & E2 & S2 & C2 & T2 & L2).
  destruct Hwp as [Hwf [enc Henc]]. rewrite Henc in E2. specialize (C2 enc Henc).
  assert (Hec : enc ≠ []). { apply truthy_true. apply (encode_truthy t); [done|]. by apply truthy_true. }
  pose proof (storeSession_role _ _ _ _ E2 L1) as R2.
  rewrite (run_bind_ok _ _ _ _ _ (run_host _ s _ _ _ (run_host _ (DashboardApi.ApiState None) _ _ _ E2))).
  rewrite (run_bind_ok _ _ _ _ _ (run_modify_state _ _ _)), Ar.
  destruct role as [[|c role]|]; cbn [str_value json_truthy truthy truthy_opt].
  2:{ destruct (set_live LocalStorage ROLE_KEY (c :: role) w2 L2) as (w3 & E3 & [e3 n3 t3 l3]).
      exists w3. rewrite (run_bind_ok _ _ _ (set_token (Some t) s, (DashboardApi.ApiState None, w2)) (c :: role)) by done.
      rewrite (run_bind_ok _ _ _ _ _ (run_host _ _ _ _ _ (run_host _ (DashboardApi.ApiState None) _ _ _ E3))).
      rewrite run_modify_state. split; [done|]. unfold session_of in *.
      rewrite !n3 by (vm_compute; congruence). split; [done|]. split; [exact e3|].
      intros path. apply (serve_token _ _ enc); [|done]. unfold sent_cookies. by rewrite n3. }
  all: exists w2; split; [done|]; split; [done|]; split; [done|]; intros path; by apply (serve_token _ _ enc).
Qed.

(** What logging out leaves behind. *)
Record logged_out w w' : Prop := LoggedOut {
  lo_session : session_of w' = Session None None;
  lo_role : stored_role w' = None;
  lo_token : sent_cookies w' TOKEN_KEY = None;
  lo_auth : sent_cookies w' AUTH_COOKIE = None;
  lo_privy : privy_cookie w' = privy_cookie w;
  lo_live : st_live w';
}.

Lemma logout_run s a w : st_live w → ∃ w', auth_logout (s, (a, w)) = (Ok tt, (AuthState None None, (a, w'))) ∧ logged_out w w'.
Proof.
  intros L. unfold auth_logout.
  destruct (clearSession_run w B L) as (w1 & E1 & S1 & C1 & C1' & P1 & _ & L1).
  rewrite (run_bind_ok _ _ _ _ _ (run_host _ s _ _ _ (run_host _ a _ _ _ E1))).
  destruct (del_live LocalStorage ROLE_KEY w1 L1) as (w2 & E2 & [e2 n2 t2 l2]).
  rewrite (run_bind_ok _ _ _ _ _ (run_host _ s _ _ _ (run_host _ a _ _ _ E2))).
  rewrite (run_bind_ok _ _ _ _ _ (run_modify_state _ _ _)), run_modify_state.
  assert (Cj : ∀ k, sent_cookies w2 k = sent_cookies w1 k) by (intros k; by apply n2).
  exists w2. split; [done|]. split; [|exact e2|by rewrite Cj|by rewrite Cj| |by apply l2].
  - rewrite <-S1. unfold session_of. by rewrite !n2 by (vm_compute; congruence).
  - unfold privy_cookie. cbn [existsb]. rewrite !Cj. unfold sent_cookies. by rewrite !P1 by (vm_compute; set_solver).
Qed.

(** logging out empties the session, the role and the provider's state; every dashboard
    route then redirects to the login page, unless the browser still carries a
    cookie of the Privy identity, which logging out does not remove. *)
Theorem logout_closes_dashboard s a w : st_live w → ∃ w',
  auth_logout (s, (a, w)) = (Ok tt, (AuthState None None, (a, w'))) ∧
  session_of w' = Session None None ∧ stored_role w' = None ∧
  privy_cookie w' = privy_cookie w ∧
  (∀ path, guarded path = true →
     serve (sent_cookies w') path = if privy_cookie w then Next else Redirect (js "/login")).
Proof.
  intros L. destruct (logout_run s a w L) as (w' & E & [S R T A P _]). exists w'. split_and!; [done..|].
  intros path G. rewrite <-P. by apply signed_out_verdict.
Qed.

(** the role outlives a session that the server ended: after a refused refresh has
    cleared the session, a page load restores the superadmin role without any token. *)
Theorem role_outlives_session w : st_live w → stored_role w = Some ROLE_SUPERADMIN → ∃ w1 s w2,
  clearSession w = (Ok tt, w1) ∧
  auth_mounts (AuthState None None, (DashboardApi.ApiState None, w1)) = (Ok tt, (s, (DashboardApi.ApiState None, w2))) ∧
  auth_token s = None ∧ useSuperAdmin s = true.
Proof.
  intros L R. destruct (clearSession_run w B L) as (w1 & E1 & S1 & _ & _ & P1 & _ & L1).
  destruct (get_live LocalStorage TOKEN_KEY w1 L1) as (w2 & E2 & K2).
  assert (L2 : st_live w2) by by apply K2.
  destruct (get_live LocalStorage ROLE_KEY w2 L2) as (w3 & E3 & K3).
  exists w1, (AuthState None (Some ROLE_SUPERADMIN)), w3. split; [done|]. split; [|done].
  unfold auth_mounts, readStoredRole. rewrite B.
  rewrite (run_bind_ok _ _ _ _ _ (run_host _ _ _ _ _ (run_host _ (DashboardApi.ApiState None) _ _ _ E2))).
  rewrite (run_bind_ok _ _ _ _ _ (run_modify_state _ _ _)).
  rewrite (run_bind_ok _ _ _ _ _ (run_host _ _ _ _ _ (run_host _ (DashboardApi.ApiState None) _ _ _ E3))).
  rewrite run_modify_state, (kept_peek _ _ K2), P1 by (vm_compute; set_solver).
  unfold stored_role in R. rewrite R. injection S1 as S1 _. by rewrite S1.
Qed.
End AuthProperties.

(** ** Wallet: properties *)

(** The extension touches neither the stores nor the services' requests. *)
Definition inert `{Host W} {A} (m : M W A) : Prop := ∀ w, kept w (m w).2.

Record inert_api `{Host W} (api : FreighterApi W) : Prop := InertApi {
  ia_connected : inert (isConnected api);
  ia_address : inert (getAddress api);
  ia_network : inert (getNetwork api);
  ia_access : inert (requestAccess api);
  ia_sign x n : inert (freighter_sign api x n);
}.

Class FreighterLaws (W : Type) `{Host W, FreighterEnv W} := {
  injected_inert api : injected = Some api → inert_api api;
  imported_inert api : imported = Ok api → inert_api api;
}.

Section Inert.
Context `{Host W}.

Lemma inert_ret {A} (a : A) : inert (mret a : M W A).
Proof. by intros w. Qed.
Lemma inert_throw {A} e : inert (throw e : M W A).
Proof. by intros w. Qed.
Lemma inert_bind {A C} (m : M W A) (f : A → M W C) : inert m → (∀ a, inert (f a)) → inert (m ≫= f).
Proof.
  intros Hm Hf w. rewrite run_bind. specialize (Hm w). destruct (m w) as [[a|e] w1]; [|done].
  cbn in Hm. etransitivity; [exact Hm|apply Hf].
Qed.
Lemma inert_try {A} (m : M W A) h : inert m → (∀ e, inert (h e)) → inert (try_catch m h).
Proof.
  intros Hm Hh w. unfold try_catch. specialize (Hm w). destruct (m w) as [[a|e] w1]; [done|].
  cbn in Hm. etransitivity; [exact Hm|apply Hh].
Qed.
End Inert.

#[local] Hint Resolve inert_ret inert_throw inert_bind inert_try : zaps.
#[local] Hint Resolve ia_connected ia_address ia_network ia_access ia_sign : zaps.

Section WalletProperties.
Context `{HostLaws W, Browser, FreighterEnv W, !FreighterLaws W}.
Context (B : in_browser = true).
Implicit Types (w : W) (s : wallet_state).

(** Loading yields an API of the environment, or rejects, and does nothing else. *)
Lemma load_run w : ∃ r, loadFreighterApi w = (r, w) ∧ (∀ api, r = Ok api → inert_api api).
Proof.
  unfold loadFreighterApi. destruct (_ && _); [destruct injected as [mock|] eqn:E|].
  - exists (Ok mock). split; [done|]. intros api [= <-]. by apply injected_inert.
  - exists imported. split; [done|]. apply imported_inert.
  - exists imported. split; [done|]. apply imported_inert.
Qed.

Lemma load_inert {A} (f : FreighterApi W → M W A) :
  (∀ api, inert_api api → inert (f api)) → inert (loadFreighterApi ≫= f).
Proof.
  intros Hf w. destruct (load_run w) as ([api|e] & E & Ha).
  - rewrite (run_bind_ok _ _ _ _ _ E). by apply Hf, Ha.
  - by rewrite (run_bind_throw _ _ _ _ _ E).
Qed.

Lemma settled_inert m : inert m → inert (settled_value (W := W) m).
Proof. intros Hm. unfold settled_value. auto with zaps. Qed.

Lemma detect_inert : inert (detectFreighter (W := W)).
Proof.
  unfold detectFreighter. apply inert_try; [|auto with zaps]. apply load_inert. intros api Ha.
  apply inert_bind; [by apply Ha|]. intros conn. destruct conn; cbn; [|apply inert_ret].
  apply inert_bind; [by apply settled_inert, Ha|]. intros key.
  apply inert_bind; [by apply settled_inert, Ha|]. intros net. apply inert_ret.
Qed.

Lemma connect_inert : inert (connectFreighter (W := W)).
Proof.
  apply load_inert. intros api Ha. apply inert_bind; [by apply Ha|]. intros r.
  destruct (truthy_opt r.2); [apply inert_throw|apply detect_inert].
Qed.

Lemma sign_inert x n : inert (signWithFreighter (W := W) x n).
Proof.
  apply load_inert. intros api Ha. apply inert_bind; [by apply Ha|]. intros r.
  destruct (truthy_opt r.2); [apply inert_throw|apply inert_ret].
Qed.

(** Detection answers a state and never throws. *)
Lemma detect_run w : ∃ d w', detectFreighter w = (Ok d, w') ∧ kept w w'.
Proof.
  pose proof (detect_inert w) as K. unfold detectFreighter, try_catch in *.
  match type of K with context [match ?m with _ => _ end] => destruct m as [[d|e] w'] end;
    eexists _, _; by split.
Qed.

Definition flag w : option str := st_peek w LocalStorage WALLET_SESSION_KEY.

Lemma hasWalletSession_run w : st_live w → ∃ w',
  hasWalletSession w = (Ok (bool_decide (flag w = Some (js "true"))), w') ∧ kept w w'.
Proof.
  intros L. unfold hasWalletSession, try_catch. rewrite B. cbn [negb].
  destruct (get_live LocalStorage WALLET_SESSION_KEY w L) as (w' & E & K).
  exists w'. by rewrite (run_bind_ok _ _ _ _ _ E).
Qed.

Lemma setWalletSession_run b w : st_live w → ∃ w',
  setWalletSession b w = (Ok tt, w') ∧ flag w' = (if b then Some (js "true") else None) ∧ st_live w'.
Proof.
  intros L. unfold setWalletSession, try_catch, flag. rewrite B. cbn [negb]. destruct b.
  - destruct (set_live LocalStorage WALLET_SESSION_KEY (js "true") w L) as (w' & E & [e n t l]).
    exists w'. rewrite E. by auto.
  - destruct (del_live LocalStorage WALLET_SESSION_KEY w L) as (w' & E & [e n t l]).
    exists w'. rewrite E. by auto.
Qed.

(** The persisted flag says whether the shown wallet is connected. *)
Definition in_sync s w : Prop :=
  st_live w ∧ ws_mounted s = true ∧ (flag w = Some (js "true") ↔ connected (ws_wallet s) = true).

Lemma sync_flag s w (b : bool) : st_live w → ws_mounted s = true → connected (ws_wallet s) = b →
  flag w = (if b then Some (js "true") else None) → in_sync s w.
Proof. intros L Mt Hb Hf. split; [done|]. split; [done|]. rewrite Hf, Hb. by destruct b. Qed.

Lemma sync_kept s s' w w' : in_sync s w → kept w w' →
  ws_wallet s' = ws_wallet s → ws_mounted s' = ws_mounted s → in_sync s' w'.
Proof.
  intros (L & Mt & F) K E1 E2. split; [by apply K|]. split; [congruence|].
  unfold flag in *. by rewrite (kept_peek _ _ K), E1.
Qed.

Lemma if_mounted_run m s w : ws_mounted s = true → if_mounted (W := W) m (s, w) = m (s, w).
Proof. intros Mt. unfold if_mounted. by rewrite (run_bind_ok _ _ _ _ _ (run_get_state _ _)), Mt. Qed.

Lemma restore_wallet_run s w : st_live w → ws_mounted s = true → ws_wallet s = DEFAULT_WALLET_STATE →
  ∃ s' w', restore (s, w) = (Ok tt, (s', w')) ∧ in_sync s' w' ∧ ws_restoring s' = false ∧
    (flag w ≠ Some (js "true") → kept w w' ∧ ws_wallet s' = DEFAULT_WALLET_STATE).
Proof.
  intros L Mt Hd. unfold restore. destruct (hasWalletSession_run w L) as (w1 & E1 & K1).
  rewrite (run_bind_ok _ _ _ _ _ (run_host _ s _ _ _ E1)).
  assert (L1 : st_live w1) by by apply K1.
  destruct (bool_decide_reflect (flag w = Some (js "true"))) as [Hf|Hf].
  2:{ rewrite run_bind. cbn. rewrite if_mounted_run, run_modify_state by done.
      eexists _, w1. split; [done|]. split; [|split; [done|by intros _; split]].
      apply (sync_kept s _ w); [|done..].
      split; [done|]. split; [done|]. rewrite Hd. naive_solver. }
  destruct (detect_run w1) as (d & w2 & E2 & K2). assert (L2 : st_live w2) by by apply K2.
  rewrite run_bind, (run_bind_ok _ _ _ _ _ (run_host _ s _ _ _ E2)), if_mounted_run by done.
  rewrite (run_bind_ok _ _ _ _ _ (run_modify_state _ _ _)).
  assert (F2 : flag w2 = Some (js "true")).
  { unfold flag in *. by rewrite (kept_peek _ _ K2), (kept_peek _ _ K1). }
  destruct (connected d) eqn:Hc; cbn [negb].
  - rewrite run_ret, if_mounted_run, run_modify_state by done. eexists _, w2. split; [done|].
    split; [|by split]. by apply (sync_flag _ _ true).
  - destruct (setWalletSession_run false w2 L2) as (w3 & E3 & F3 & L3).
    rewrite (run_host _ _ _ _ _ E3), if_mounted_run, run_modify_state by done.
    eexists _, w3. split; [done|]. split; [|by split]. by apply (sync_flag _ _ false).
Qed.

(** What an explicit connect shows for the answer [r] of the extension. *)
Definition connect_shows (r : res FreighterWalletState) s' : Prop :=
  ws_connecting s' = false ∧
  match r with
  | Ok next => ws_wallet s' = next ∧ ws_error s' = None
  | Throw e => ws_wallet s' = DEFAULT_WALLET_STATE ∧ ws_error s' = Some (err_message e)
  end.

Lemma connect_run s w : st_live w → ws_mounted s = true →
  ∃ s' w', connect (s, w) = (Ok tt, (s', w')) ∧ in_sync s' w' ∧ connect_shows (connectFreighter w).1 s'.
Proof.
  intros L Mt. unfold connect.
  rewrite (run_bind_ok _ _ _ _ _ (run_modify_state _ _ _)), (run_bind_ok _ _ _ _ _ (run_modify_state _ _ _)).
  set (s1 := setError None (setConnecting true s)). pose proof (connect_inert w) as K.
  destruct (connectFreighter w) as [[next|e] w1] eqn:E; cbn [snd fst] in *; unfold try_catch;
    assert (L1 : st_live w1) by (by apply K).
  - destruct (setWalletSession_run (connected next) w1 L1) as (w2 & E2 & F2 & L2).
    rewrite run_bind, (run_bind_ok _ _ _ _ _ (run_host _ s1 _ _ _ E)), if_mounted_run by done.
    rewrite (run_bind_ok _ _ _ _ _ (run_modify_state _ _ _)), (run_host _ _ _ _ _ E2).
    rewrite if_mounted_run, run_modify_state by done. eexists _, w2. split; [done|].
    split; [by eapply sync_flag|by repeat split].
  - destruct (setWalletSession_run false w1 L1) as (w2 & E2 & F2 & L2).
    rewrite run_bind, (run_bind_throw _ _ _ _ _ (run_host _ s1 _ _ _ E)), if_mounted_run by done.
    rewrite (run_bind_ok _ _ _ _ _ (run_modify_state _ _ _)),
      (run_bind_ok _ _ _ _ _ (run_host _ _ _ _ _ E2)), run_modify_state.
    rewrite if_mounted_run, run_modify_state by done. eexists _, w2. split; [done|].
    split; [by apply (sync_flag _ _ false)|by repeat split].
Qed.

Lemma disconnect_run s w : st_live w → ws_mounted s = true →
  ∃ s' w', disconnect (s, w) = (Ok tt, (s', w')) ∧ in_sync s' w' ∧ ws_wallet s' = DEFAULT_WALLET_STATE.
Proof.
  intros L Mt. unfold disconnect. rewrite (run_bind_ok _ _ _ _ _ (run_modify_state _ _ _)).
  destruct (setWalletSession_run false w L) as (w1 & E1 & F1 & L1).
  rewrite (run_bind_ok _ _ _ _ _ (run_host _ _ _ _ _ E1)), run_modify_state.
  eexists _, w1. split; [done|]. split; [|done]. by apply (sync_flag _ _ false).
Qed.

Lemma sign_run x n s w : in_sync s w → ∃ r s' w',
  signTransaction x n (s, w) = (r, (s', w')) ∧ in_sync s' w' ∧
  (connected (ws_wallet s) = false →
     r = Throw (new_error (js "Connect a wallet before signing")) ∧ s' = s ∧ w' = w).
Proof.
  intros S. pose proof S as (L & Mt & _). unfold signTransaction.
  rewrite (run_bind_ok _ _ _ _ _ (run_get_state _ _)). destruct (connected (ws_wallet s)) eqn:Hc; cbn [negb].
  2:{ by eexists _, s, w. }
  rewrite (run_bind_ok _ _ _ _ _ (run_modify_state _ _ _)). pose proof (sign_inert x n w) as K.
  destruct (signWithFreighter x n w) as [[v|e] w1] eqn:E; cbn in K; unfold try_catch;
    rewrite (run_host _ _ _ _ _ E).
  - eexists _, _, w1. split; [done|]. split; [by eapply sync_kept|done].
  - rewrite run_bind, if_mounted_run, run_modify_state by done. eexists _, _, w1. split; [done|].
    split; [by eapply sync_kept|done].
Qed.

(** *** Sessions *)

Inductive wallet_op := OpConnect | OpDisconnect | OpSign (xdr passphrase : str).

(** The handlers as the page calls them; a rejected signature ends only its own call. *)
Definition wallet_handler (op : wallet_op) : M (wallet_state * W) unit :=
  match op with
  | OpConnect => connect
  | OpDisconnect => disconnect
  | OpSign x n => try_catch (signTransaction x n;; mret tt) (λ _, mret tt)
  end.

Definition wallet_session (ops : list wallet_op) : M (wallet_state * W) unit :=
  restore;; for_each (λ _ op, wallet_handler op) tt ops.

Lemma handler_sync op s w : in_sync s w → ∃ s' w', wallet_handler op (s, w) = (Ok tt, (s', w')) ∧ in_sync s' w'.
Proof.
  intros S. pose proof S as (L & Mt & _). destruct op as [| |x n]; cbn [wallet_handler].
  - destruct (connect_run s w L Mt) as (s' & w' & ? & ? & _); eauto.
  - destruct (disconnect_run s w L Mt) as (s' & w' & ? & ? & _); eauto.
  - destruct (sign_run x n s w S) as (r & s' & w' & E & S' & _). exists s', w'. split; [|done].
    unfold try_catch. rewrite run_bind, E. by destruct r.
Qed.

(** C17: from page load on, through any sequence of connects, disconnects and signatures and
    whatever the extension answers, the flag kept for the next page load says exactly
    whether the wallet shown now is connected. *)
Theorem wallet_flag_invariant ops w : st_live w → ∃ s' w',
  wallet_session ops (initial_wallet, w) = (Ok tt, (s', w')) ∧ in_sync s' w'.
Proof.
  intros L. unfold wallet_session. destruct (restore_wallet_run initial_wallet w L) as (s1 & w1 & E1 & S1 & _); [done..|].
  rewrite (run_bind_ok _ _ _ _ _ E1). clear E1 L. revert s1 w1 S1.
  induction ops as [|op ops IH]; intros s w1 S; cbn [for_each]; [eauto|].
  destruct (handler_sync op s w1 S) as (s2 & w2 & E2 & S2).
  rewrite (run_bind_ok _ _ _ _ _ E2). by apply IH.
Qed.

(** a page load without the flag never consults the extension and changes nothing; an
    explicit connect shows what the extension answered, or the default state and its
    message, and is never left busy; nothing is signed while no wallet is connected. *)
Theorem wallet_operations s w : in_sync s w →
  (flag w ≠ Some (js "true") → ∃ s' w', restore (initial_wallet, w) = (Ok tt, (s', w')) ∧
     kept w w' ∧ ws_wallet s' = DEFAULT_WALLET_STATE ∧ ws_restoring s' = false) ∧
  (∃ s' w', connect (s, w) = (Ok tt, (s', w')) ∧ connect_shows (connectFreighter w).1 s') ∧
  (∀ x n, connected (ws_wallet s) = false →
     signTransaction x n (s, w) = (Throw (new_error (js "Connect a wallet before signing")), (s, w))).
Proof.
  intros S. pose proof S as (L & Mt & _). split; [|split].
  - intros Hf. destruct (restore_wallet_run initial_wallet w L) as (s' & w' & E & _ & R & K); [done..|].
    destruct (K Hf) as [K1 K2]. eauto 6.
  - destruct (connect_run s w L Mt) as (s' & w' & E & _ & C). eauto.
  - intros x n Hc. destruct (sign_run x n s w S) as (r & s' & w' & E & _ & F).
    destruct (F Hc) as (-> & -> & ->). exact E.
Qed.
End WalletProperties.

(** ** Concrete runs *)

Module Runs.
#[local] Existing Instance DashboardApi.Runs.demo_env.
#[local] Existing Instance DashboardApi.Runs.demo_browser.
#[local] Existing Instance DashboardApi.Runs.demo_multipart.

Abbreviation idle := (DashboardApi.ApiState None).

(** An extension that grants access and signs by prefixing. *)
Definition demo_api : FreighterApi scripted :=
  MkFreighter (mret true) (mret (Some (js "GABC"))) (throw (new_error (js "no network")))
    (mret (Some (js "GABC"), None)) (λ xdr _, mret (Some (js "signed:" ++ xdr), None)).
Definition fake_api : FreighterApi scripted :=
  MkFreighter (mret false) (mret None) (mret None) (mret (None, Some (js "denied"))) (λ _ _, mret (None, None)).

#[local] Instance demo_freighter : FreighterEnv scripted :=
  {| NODE_ENV := js "production"; injected := Some fake_api; imported := Ok demo_api |}.
#[local] Instance demo_laws : FreighterLaws scripted.
Proof. split; intros api [= <-]; split; intros; by intros w. Qed.

(** In production the injected stand-in is not used. *)
Example demo_connect :
  let '(r, (s, w)) := wallet_session [OpConnect; OpSign (js "AAAA") (js "net")] (initial_wallet, world [] []) in
  r = Ok tt ∧ ws_wallet s = MkWallet true true (Some (js "GABC")) None ∧ flag w = Some (js "true").
Proof. vm_compute. by repeat split. Qed.

Lemma demo_sync : in_sync initial_wallet (world [] []).
Proof. split; [reflexivity|]. split; [reflexivity|]. vm_compute. by split. Qed.

Lemma wallet_flag_invariant_witness : ∃ s' w',
  wallet_session [OpConnect; OpDisconnect] (initial_wallet, world [] []) = (Ok tt, (s', w')) ∧ in_sync s' w'.
Proof. apply (wallet_flag_invariant eq_refl [OpConnect; OpDisconnect] (world [] [])). reflexivity. Defined.

Lemma wallet_operations_witness :
  let s := initial_wallet in let w := world [] [] in
  (flag w ≠ Some (js "true") → ∃ s' w', restore (initial_wallet, w) = (Ok tt, (s', w')) ∧
     kept w w' ∧ ws_wallet s' = DEFAULT_WALLET_STATE ∧ ws_restoring s' = false) ∧
  (∃ s' w', connect (s, w) = (Ok tt, (s', w')) ∧ connect_shows (connectFreighter w).1 s') ∧
  (∀ x n, connected (ws_wallet s) = false →
     signTransaction x n (s, w) = (Throw (new_error (js "Connect a wallet before signing")), (s, w))).
Proof. apply (wallet_operations eq_refl initial_wallet (world [] [])). apply demo_sync. Defined.

Definition login_data : json :=
  JObj [(js "token", JStr (js "t1")); (js "refresh_token", JStr (js "r1")); (js "role", JStr (js "admin"))].
Definition login_world : scripted := world [] [reply 200 (stringify login_data)].

Lemma login_opens_dashboard_witness :
  let w1 := (login (js "u") (js "1234") (idle, login_world)).2.2 in ∃ w',
  auth_login (js "u") (js "1234") (AuthState None None, (idle, login_world))
    = (Ok tt, (AuthState (Some (js "t1")) (Some (js "admin")), (idle, w'))) ∧
  session_of w' = store_pure (js "t1") (text_field (js "refresh_token") login_data) (session_of w1) ∧
  stored_role w' = Some (js "admin") ∧ (∀ path, serve (sent_cookies w') path = Next).
Proof.
  apply (login_opens_dashboard eq_refl (js "u") (js "1234") (AuthState None None) login_world
           (login (js "u") (js "1234") (idle, login_world)).2.2 login_data (js "t1") (Some (js "admin"))).
  - reflexivity.
  - vm_compute. reflexivity.
  - split; [reflexivity|discriminate| |reflexivity]. apply well_paired_ascii. reflexivity.
Defined.

Lemma logout_closes_dashboard_witness :
  let w := world [(CookieJar, TOKEN_KEY, js "t"); (LocalStorage, TOKEN_KEY, js "t")] [] in ∃ w',
  auth_logout (AuthState (Some (js "t")) None, (idle, w)) = (Ok tt, (AuthState None None, (idle, w'))) ∧
  session_of w' = Session None None ∧ stored_role w' = None ∧
  privy_cookie w' = privy_cookie w ∧
  (∀ path, guarded path = true →
     serve (sent_cookies w') path = if privy_cookie w then Next else Redirect (js "/login")).
Proof. apply (logout_closes_dashboard eq_refl (AuthState (Some (js "t")) None) idle). reflexivity. Defined.

Lemma role_outlives_session_witness :
  let w := world [(LocalStorage, ROLE_KEY, ROLE_SUPERADMIN)] [] in ∃ w1 s w2,
  clearSession w = (Ok tt, w1) ∧
  auth_mounts (AuthState None None, (idle, w1)) = (Ok tt, (s, (idle, w2))) ∧
  auth_token s = None ∧ useSuperAdmin s = true.
Proof. apply (role_outlives_session eq_refl); [reflexivity|vm_compute; reflexivity]. Defined.

(** The layout counts a cookie by its name, the middleware by its value. *)
Example layout_accepts_empty_cookie :
  hasSession None (js "a=1; zaps-auth=") = true ∧
  isAuthenticated (λ k, if str_eqb k AUTH_COOKIE then Some [] else None) = false.
Proof. vm_compute. by split. Qed.
End Runs.
