(* ===== verification/DashboardLogin.v ===== *)
(** * Signing in and out of the dashboard

    Models of the two sign-in pages [dashboard/app/login/page.tsx] and [dashboard/app/page.tsx] (modules Form
    and Pages) and of the session test of [dashboard/app/dashboard/layout.tsx] over time (Layout). They are
    composed with the provider and the route guard of [DashboardAuth]. The Privy SDK, whose session lies in the
    stores of the browser beside that of the application, and the text of [document.cookie] are parameters. *)

From S2P Require Import Prelude JsString JsNumber UriCodec FormCodec JsDate Json Effects Decode Scripts DashboardApi DashboardAuth.

Definition LOGIN_ROUTE : str := js "/login".
Definition DASHBOARD_ROUTE : str := js "/dashboard".

(** The assignment [document.cookie = "zaps-auth=1; path=/; SameSite=Lax"]. *)
Definition set_auth_cookie `{Host W} : M W unit := st_set CookieJar AUTH_COOKIE (js "1").

(** The rest of the application, beside the state of a page. *)
Abbreviation app W := (auth_state * (api_state * W))%type.

(** ** The form *)

Module Form.
Record form := MkForm { lf_userId : str; lf_pin : str; lf_error : option str; lf_loading : bool; lf_routes : list str }.

Definition opened : form := MkForm [] [] None false [].
Definition set_userId (v : str) (f : form) : form := MkForm v (lf_pin f) (lf_error f) (lf_loading f) (lf_routes f).
Definition set_pin (v : str) (f : form) : form := MkForm (lf_userId f) v (lf_error f) (lf_loading f) (lf_routes f).
Definition set_error (v : option str) (f : form) : form := MkForm (lf_userId f) (lf_pin f) v (lf_loading f) (lf_routes f).
Definition set_loading (v : bool) (f : form) : form := MkForm (lf_userId f) (lf_pin f) (lf_error f) v (lf_routes f).
Definition replace (route : str) (f : form) : form := MkForm (lf_userId f) (lf_pin f) (lf_error f) (lf_loading f) (lf_routes f ++ [route]).

Definition INVALID : str := js "Invalid user ID or PIN. Please try again.".

Section Submit.
Context `{Host W, Browser, DashEnv, Multipart}.

Definition submit : M (form * app W) unit :=
  modify_state (set_loading true);;
  modify_state (set_error None);;
  f ← get_state;
  try_finally
    (try_catch (host (auth_login (lf_userId f) (lf_pin f));; modify_state (replace DASHBOARD_ROUTE))
       (λ _, modify_state (set_error (Some INVALID))))
    (λ s, (set_loading false s.1, s.2)).

(** a sign-in with the form never throws and never leaves the button busy. It leads to the dashboard exactly when
    the login of the provider went through; whatever else happened, a lost connection as well, is shown as an invalid
    PIN. *)
Theorem submit_settles f (x : app W) :
  let '(r, x') := auth_login (lf_userId f) (lf_pin f) x in
  submit (f, x) = (Ok tt, (match r with
    | Ok _ => MkForm (lf_userId f) (lf_pin f) None false (lf_routes f ++ [DASHBOARD_ROUTE])
    | Throw _ => MkForm (lf_userId f) (lf_pin f) (Some INVALID) false (lf_routes f)
    end, x')).
Proof.
  destruct (auth_login (lf_userId f) (lf_pin f) x) as [r x'] eqn:E. unfold submit.
  rewrite !(run_bind_ok _ _ _ _ _ (run_modify_state _ _ _)), (run_bind_ok _ _ _ _ _ (run_get_state _ _)).
  unfold try_finally, try_catch. rewrite run_bind, (run_host _ _ _ _ _ E). by destruct r as [[]|e].
Qed.
End Submit.
End Form.

(** ** The sign-in pages, once Privy knows the visitor *)

(** Whether Privy knows the visitor, once it is ready, and signing out of it. *)
Class Privy (W : Type) := {
  privy_authenticated : W → bool;
  privy_logout : M W unit;
}.

(** Privy keeps its session in entries of its own, which alone decide whether it knows the
    visitor; signing out of it empties them and leaves the cookie of the application. *)
Class PrivyLaws (W : Type) `{Host W, !Privy W} : Prop := {
  privy_keeps_cookie : ∀ w : W, sent_cookies (privy_logout w).2 AUTH_COOKIE = sent_cookies w AUTH_COOKIE;
  privy_signs_out : ∀ w w' : W, privy_logout w = (Ok tt, w') → privy_authenticated w' = false;
  privy_own_set : ∀ s k v (w : W), starts_with (js "privy") k = false → privy_authenticated (st_set s k v w).2 = privy_authenticated w;
  privy_own_del : ∀ s k (w : W), starts_with (js "privy") k = false → privy_authenticated (st_del s k w).2 = privy_authenticated w;
}.

Module Pages.
Section Effects.
Context `{Host W, PV : !Privy W}.

(** [usePrivy().authenticated] *)
Definition usePrivy : M W bool := λ w, (Ok (privy_authenticated w), w).

(** The effect of both sign-in pages; the state is the list of routes they replaced. *)
Definition signed_in : M (list str * W) unit :=
  authenticated ← host usePrivy;
  if (authenticated : bool) then host set_auth_cookie;; modify_state (λ routes, routes ++ [DASHBOARD_ROUTE]) else mret tt.

(** The button of the first page; nobody waits for Privy. *)
Definition sign_out : M (list str * W) unit :=
  host (swallow privy_logout);; modify_state (λ routes, routes ++ [js "/"]).
End Effects.

Section Spec.
Context `{HostLaws W, Browser, DashEnv, Multipart, PV : !Privy W, !PrivyLaws W}.
Context (B : in_browser = true).
Implicit Types (w : W) (s : auth_state).

Lemma serve_cookie w path t : sent_cookies w AUTH_COOKIE = Some t → t ≠ [] → serve (sent_cookies w) path = Next.
Proof.
  intros E Ht. unfold serve, middleware, isAuthenticated. change AUTH_COOKIES with (TOKEN_KEY :: AUTH_COOKIE :: drop 2 AUTH_COOKIES).
  cbn [existsb]. rewrite E. cbn [truthy_opt]. apply truthy_true in Ht as ->. rewrite orb_true_r. by destruct (guarded path).
Qed.

Lemma set_cookie_run w : st_live w → ∃ w', set_auth_cookie w = (Ok tt, w') ∧ stored w w' CookieJar AUTH_COOKIE (Some (js "1")).
Proof. apply set_live. Qed.

(** The effect on a visitor Privy knows, and on another. *)
Lemma signed_in_run routes w : st_live w → ∃ w', signed_in (routes, w) =
    (Ok tt, (if privy_authenticated w then routes ++ [DASHBOARD_ROUTE] else routes, w')) ∧
  if privy_authenticated w then stored w w' CookieJar AUTH_COOKIE (Some (js "1")) else w' = w.
Proof.
  intros L. unfold signed_in. rewrite (run_bind_ok _ _ _ _ _ (run_host usePrivy routes w _ w eq_refl)).
  destruct (privy_authenticated w); [|by exists w]. destruct (set_cookie_run w L) as (w' & E & S). exists w'. split; [|done].
  by rewrite (run_bind_ok _ _ _ _ _ (run_host _ routes _ _ _ E)), run_modify_state.
Qed.

Lemma signed_in_privy routes w : privy_authenticated (signed_in (routes, w)).2.2 = privy_authenticated w.
Proof.
  unfold signed_in. rewrite (run_bind_ok _ _ _ _ _ (run_host usePrivy routes w _ w eq_refl)).
  destruct (privy_authenticated w) eqn:P; [|exact P]. rewrite run_bind, <-P. unfold host, set_auth_cookie. cbn.
  assert (F := privy_own_set CookieJar AUTH_COOKIE (js "1") w ltac:(vm_compute; reflexivity)).
  destruct (st_set CookieJar AUTH_COOKIE (js "1") w) as [[u|e] w1]; exact F.
Qed.

(** Signing out of the dashboard touches nothing of Privy. *)
Lemma bind_privy {A C} (m : M W A) (k : A → M W C) w :
  (∀ w, privy_authenticated (m w).2 = privy_authenticated w) → (∀ a w, privy_authenticated (k a w).2 = privy_authenticated w) →
  privy_authenticated ((m ≫= k) w).2 = privy_authenticated w.
Proof. intros Hm Hk. rewrite run_bind. specialize (Hm w). destruct (m w) as [[a|e] w1]; [by rewrite Hk|exact Hm]. Qed.

Lemma clear_privy w : privy_authenticated (clearSession w).2 = privy_authenticated w.
Proof.
  unfold clearSession. rewrite B. cbn [negb].
  repeat (apply bind_privy; [intros ?; by apply privy_own_del|intros _ ?]). by apply privy_own_del.
Qed.

Lemma logout_privy s a w : privy_authenticated (auth_logout (s, (a, w))).2.2.2 = privy_authenticated w.
Proof.
  unfold auth_logout. rewrite run_bind. unfold host at 1 2. cbn [fst snd]. pose proof (clear_privy w) as C.
  destruct (clearSession w) as [[u|e] w1]; cbn [fst snd] in *; [|done]. rewrite run_bind. unfold host at 1 2. cbn [fst snd].
  pose proof (privy_own_del LocalStorage ROLE_KEY w1 ltac:(vm_compute; reflexivity)) as D.
  destruct (st_del LocalStorage ROLE_KEY w1) as [[u'|e] w2]; cbn [fst snd] in *; (etrans; [exact D|exact C]).
Qed.

(** C35: signing out of the dashboard signs out of nothing else, and is undone at the next
    sight of a sign-in page by whoever Privy still knows. In a browser without a cookie of
    Privy, every page of the dashboard first leads to the sign-in page; its effect then sends
    exactly a visitor whom Privy knew before the sign-out back to the dashboard, with every
    page served again though no token is left, and any other visitor stays out. It is the
    same after every further sign-out; had Privy been signed out of as well, nobody would be
    sent back. *)
Theorem logout_undone s a w : st_live w → privy_cookie w = false → ∃ w1 w2,
  auth_logout (s, (a, w)) = (Ok tt, (AuthState None None, (a, w1))) ∧
  (∀ path, guarded path = true → serve (sent_cookies w1) path = Redirect LOGIN_ROUTE) ∧
  signed_in ([], w1) = (Ok tt, (if privy_authenticated w then [DASHBOARD_ROUTE] else [], w2)) ∧
  (∀ path, guarded path = true →
     serve (sent_cookies w2) path = if privy_authenticated w then Next else Redirect LOGIN_ROUTE) ∧
  session_of w2 = Session None None ∧
  (st_live w2 ∧ privy_cookie w2 = false ∧ privy_authenticated w2 = privy_authenticated w) ∧
  (∀ w3, privy_logout w1 = (Ok tt, w3) → signed_in ([], w3) = (Ok tt, ([], w3))).
Proof.
  intros L P. destruct (logout_run B s a w L) as (w1 & E1 & [S1 _ T1 A1 P1 L1]).
  pose proof (logout_privy s a w) as A. rewrite E1 in A. cbn [snd] in A.
  destruct (signed_in_run [] w1 L1) as (w2 & E2 & S2). pose proof (signed_in_privy [] w1) as A2. rewrite E2 in A2. cbn [snd] in A2.
  assert (R : ∀ path, guarded path = true → serve (sent_cookies w1) path = Redirect LOGIN_ROUTE).
  { intros path G. rewrite (signed_out_verdict w1 path) by done. by rewrite P1, P. }
  rewrite A in *. exists w1, w2. split; [done|]. split; [done|]. split; [exact E2|].
  assert (Last : ∀ w3, privy_logout w1 = (Ok tt, w3) → signed_in ([], w3) = (Ok tt, ([], w3))).
  { intros w3 E3%privy_signs_out. unfold signed_in. rewrite (run_bind_ok _ _ _ _ _ (run_host usePrivy [] w3 _ w3 eq_refl)). by rewrite E3. }
  destruct (privy_authenticated w).
  - destruct S2 as [e2 n2 _ l2]. split; [intros path _; by apply (serve_cookie _ _ (js "1"))|]. split.
    { rewrite <-S1. unfold session_of. by rewrite !n2 by (vm_compute; congruence). }
    split; [|done]. split; [auto|]. split; [|done]. rewrite <-P, <-P1. unfold privy_cookie, sent_cookies. cbn [existsb].
    by rewrite !n2 by (vm_compute; congruence).
  - subst w2. split; [done|]. split; [done|]. split; [|done]. split; [done|]. by rewrite P1.
Qed.

(** signing out of Privy on the first page does not close the dashboard either: the cookie that an earlier visit of the page
    set stays, and with it every page is served. *)
Theorem privy_logout_leaves_dashboard w w1 routes : st_live w →
  signed_in ([], w) = (Ok tt, ([DASHBOARD_ROUTE], w1)) → ∃ w2,
  sign_out (routes, w1) = (Ok tt, (routes ++ [js "/"], w2)) ∧ ∀ path, serve (sent_cookies w2) path = Next.
Proof.
  intros L E. destruct (signed_in_run [] w L) as (w1' & E' & C). rewrite E in E'.
  destruct (privy_authenticated w); [|done]. injection E' as <-. destruct C as [e _ _ _].
  destruct (swallow_ok privy_logout w1) as (w2 & E2 & <-). exists (privy_logout w1).2. split.
  - unfold sign_out. by rewrite (run_bind_ok _ _ _ _ _ (run_host _ routes _ _ _ E2)), run_modify_state.
  - intros path. apply (serve_cookie _ _ (js "1")); [|done]. rewrite privy_keeps_cookie. exact e.
Qed.
End Spec.
End Pages.

(** ** The layout *)

Module Layout.
(** The state of the layout, what Privy says, and the routes it replaced. *)
Record layout := MkLayout { ly_sessionReady : bool; ly_hasSession : bool; ly_authenticated : bool; ly_routes : list str }.

Definition mounting (authenticated : bool) : layout := MkLayout false false authenticated [].

(** The text of [document.cookie]. *)
Class DocumentCookie (W : Type) := document_cookie : M W str.

(** Reading it neither fails nor changes anything. *)
Class CookieLaws (W : Type) `{Host W, !DocumentCookie W} : Prop :=
  cookie_read : ∀ w : W, ∃ text w', document_cookie w = (Ok text, w') ∧ kept w w'.

Definition allowed (l : layout) : bool := ly_authenticated l || ly_hasSession l.

Definition set_session (v : bool) (l : layout) : layout := MkLayout true v (ly_authenticated l) (ly_routes l).
Definition set_authenticated (v : bool) (l : layout) : layout := MkLayout (ly_sessionReady l) (ly_hasSession l) v (ly_routes l).

(** The effect on [sessionReady] and [allowed], after a change of the state. *)
Definition guard (before l : layout) : layout :=
  let same := Bool.eqb (ly_sessionReady before) (ly_sessionReady l) && Bool.eqb (allowed before) (allowed l) in
  if negb same && (ly_sessionReady l && negb (allowed l))
  then MkLayout (ly_sessionReady l) (ly_hasSession l) (ly_authenticated l) (ly_routes l ++ [LOGIN_ROUTE]) else l.

Inductive view := Blank | SignIn | Shell.
Definition render (l : layout) : view := if negb (ly_sessionReady l) then Blank else if allowed l then Shell else SignIn.

Section Events.
Context `{Host W, Browser, DashEnv, Multipart, !DocumentCookie W}.

(** The effect on [authenticated]. *)
Definition privy_effect (authenticated : bool) : M (layout * app W) unit :=
  if authenticated then host (host (host set_auth_cookie)) else mret tt.

Definition mounts : M (layout * app W) unit :=
  before ← get_state;
  token ← host (host (host (st_get LocalStorage TOKEN_KEY)));
  cookie ← host (host (host document_cookie));
  modify_state (set_session (hasSession token cookie));;
  privy_effect (ly_authenticated before);;
  modify_state (guard before).

(** Privy settles or ends its session; or the button of the sidebar or of the drawer is pressed, which leaves the page
    where it is. *)
Inductive event := EPrivy (authenticated : bool) | ESignOut.

Definition step (e : event) : M (layout * app W) unit :=
  match e with
  | EPrivy authenticated =>
      before ← get_state;
      modify_state (set_authenticated authenticated);;
      (if Bool.eqb (ly_authenticated before) authenticated then mret tt else privy_effect authenticated);;
      modify_state (guard before)
  | ESignOut => host auth_logout
  end.

Definition run (es : list event) : M (layout * app W) unit := foldr (λ e m, step e;; m) (mret tt) es.
End Events.

(** What Privy said last. *)
Definition last_said (b : bool) (es : list event) : bool :=
  foldl (λ b e, match e with EPrivy v => v | ESignOut => b end) b es.

Section Spec.
Context `{HostLaws W, Browser, DashEnv, Multipart, !DocumentCookie W}.
Context (B : in_browser = true).
Implicit Types (w : W) (l : layout) (s : auth_state) (a : api_state).

Lemma privy_effect_run v l s a w : st_live w → ∃ w', privy_effect v (l, (s, (a, w))) = (Ok tt, (l, (s, (a, w')))) ∧ st_live w' ∧
  session_of w' = session_of w.
Proof.
  intros L. destruct v; [|by exists w]. destruct (Pages.set_cookie_run w L) as (w' & E & [_ n _ l']).
  exists w'. split; [|split; [by apply l'|unfold session_of; by rewrite !n by (vm_compute; congruence)]]. unfold privy_effect, host. cbn. by rewrite E.
Qed.

Lemma guard_keeps before l : ly_sessionReady (guard before l) = ly_sessionReady l ∧
  ly_hasSession (guard before l) = ly_hasSession l ∧ ly_authenticated (guard before l) = ly_authenticated l ∧
  (allowed l = true → guard before l = l).
Proof. unfold guard. destruct (_ && _) eqn:E; split_and!; try done. intros A. rewrite A, andb_false_r, andb_false_r in E. done. Qed.

Lemma step_run e l s a w : st_live w → ∃ l' s' w', step e (l, (s, (a, w))) = (Ok tt, (l', (s', (a, w')))) ∧ st_live w' ∧
  ly_sessionReady l' = ly_sessionReady l ∧ ly_hasSession l' = ly_hasSession l ∧
  ly_authenticated l' = last_said (ly_authenticated l) [e] ∧ (ly_hasSession l = true → ly_routes l' = ly_routes l) ∧
  session_of w' = match e with EPrivy _ => session_of w | ESignOut => Session None None end.
Proof.
  intros L. destruct e as [v|]; cbn [step last_said foldl].
  - rewrite (run_bind_ok _ _ _ _ _ (run_get_state _ _)), (run_bind_ok _ _ _ _ _ (run_modify_state _ _ _)).
    assert (∃ w', (if Bool.eqb (ly_authenticated l) v then mret tt else privy_effect v) (set_authenticated v l, (s, (a, w)))
      = (Ok tt, (set_authenticated v l, (s, (a, w')))) ∧ st_live w' ∧ session_of w' = session_of w)
      as (w' & E & L' & S').
    { destruct (Bool.eqb _ _); [by exists w|by apply privy_effect_run]. }
    rewrite (run_bind_ok _ _ _ _ _ E), run_modify_state. destruct (guard_keeps l (set_authenticated v l)) as (G1 & G2 & G3 & G4).
    exists (guard l (set_authenticated v l)), s, w'. split_and!; [done|done|by rewrite G1|by rewrite G2|by rewrite G3| |done].
    intros Hs. rewrite G4; [done|]. unfold allowed. cbn. by rewrite Hs, orb_true_r.
  - destruct (logout_run B s a w L) as (w' & E & [S' _ _ _ _ L']). exists l, (AuthState None None), w'.
    split; [by apply run_host|]. by split_and!.
Qed.

(** the layout decides about the session once, when it is mounted: whatever is pressed and whatever Privy says afterwards, it
    shows the dashboard exactly while Privy knows the visitor or a session was there at the start. Where one was, signing out
    changes nothing that is shown, and leads nowhere. *)
Theorem layout_decides_once es l s a w : st_live w → ly_sessionReady l = true → ∃ l' s' w',
  run es (l, (s, (a, w))) = (Ok tt, (l', (s', (a, w')))) ∧
  render l' = (if last_said (ly_authenticated l) es || ly_hasSession l then Shell else SignIn) ∧
  (ly_hasSession l = true → ly_routes l' = ly_routes l) ∧
  (ESignOut ∈ es → session_of w' = Session None None).
Proof.
  intros L R. assert (G : ∃ l' s' w', run es (l, (s, (a, w))) = (Ok tt, (l', (s', (a, w')))) ∧ ly_sessionReady l' = true ∧
    ly_hasSession l' = ly_hasSession l ∧ ly_authenticated l' = last_said (ly_authenticated l) es ∧
    (ly_hasSession l = true → ly_routes l' = ly_routes l) ∧
    (ESignOut ∈ es ∨ session_of w = Session None None → session_of w' = Session None None)).
  { revert l s w L R. induction es as [|e es IH]; intros l s w L R.
    { exists l, s, w. split_and!; try done. by intros [?%elem_of_nil|?]. }
    destruct (step_run e l s a w L) as (l1 & s1 & w1 & E1 & L1 & R1 & H1' & A1 & T1 & S1).
    destruct (IH l1 s1 w1 L1) as (l' & s' & w' & E' & R' & H' & A' & T' & S'); [congruence|].
    exists l', s', w'. cbn [run foldr]. rewrite run_bind, E1. split; [exact E'|]. split; [done|]. split; [congruence|]. split; [|split].
    - rewrite A', A1. by destruct e.
    - intros Hs. rewrite T', T1 by congruence. done.
    - intros Hs. apply S'. rewrite S1. destruct e; [|by right]. rewrite elem_of_cons in Hs. destruct Hs as [[?|?]|?]; [done|by left|by right]. }
  destruct G as (l' & s' & w' & E' & R' & H' & A' & T' & S'). exists l', s', w'. split_and!; [done| |done|by auto].
  unfold render, allowed. by rewrite R', H', A'.
Qed.

(** mounted, the layout sends a guest to the sign-in page, once, and shows the dashboard to anyone else: to a visitor whom
    Privy knows, who has a token, or whose browser shows one of the cookies by its name. *)
Theorem guest_turned_away `{!CookieLaws W} v s a w : st_live w → ∃ text w',
  let known := hasSession (access (session_of w)) text in
  mounts (mounting v, (s, (a, w))) =
    (Ok tt, (MkLayout true known v (if v || known then [] else [LOGIN_ROUTE]), (s, (a, w')))) ∧
  render (MkLayout true known v (if v || known then [] else [LOGIN_ROUTE])) = (if v || known then Shell else SignIn) ∧
  (v = true → serve (sent_cookies w') DASHBOARD_ROUTE = Next).
Proof.
  intros L. destruct (get_live LocalStorage TOKEN_KEY w L) as (w1 & E1 & K1). destruct (cookie_read w1) as (text & w2 & E2 & K2).
  assert (L2 : st_live w2) by by apply (kept_live _ _ K2), (kept_live _ _ K1). exists text.
  unfold mounts. rewrite (run_bind_ok _ _ _ _ _ (run_get_state _ _)).
  assert (D : ∀ A (m : M W A) l w0 r w0', m w0 = (r, w0') → host (host (host m)) (l, (s, (a, w0))) = (r, (l, (s, (a, w0'))) : layout * app W))
    by (intros A m l w0 r w0' Em; unfold host; cbn; by rewrite Em).
  rewrite (run_bind_ok _ _ _ _ _ (D _ _ _ _ _ _ E1)), (run_bind_ok _ _ _ _ _ (D _ _ _ _ _ _ E2)), (run_bind_ok _ _ _ _ _ (run_modify_state _ _ _)).
  change (st_peek w LocalStorage TOKEN_KEY) with (access (session_of w)). cbn [ly_authenticated mounting].
  set (known := hasSession _ _). set (l := set_session known (mounting v)).
  assert (G : guard (mounting v) l = MkLayout true known v (if v || known then [] else [LOGIN_ROUTE])) by by destruct v, known.
  destruct v; cbn [privy_effect orb].
  - destruct (Pages.set_cookie_run w2 L2) as (w3 & E4 & [e3 _ _ _]).
    rewrite (run_bind_ok _ _ _ _ _ (D _ _ _ _ _ _ E4)), run_modify_state, G. exists w3. split_and!; [done|by destruct known|].
    intros _. by apply (Pages.serve_cookie _ _ (js "1")).
  - rewrite run_bind. cbn [mret M_ret]. rewrite run_modify_state, G. exists w2. split_and!; [done|by destruct known|done].
Qed.
End Spec.
End Layout.

(** ** Concrete runs *)

Module Runs.
#[local] Existing Instance DashboardApi.Runs.demo_env.
#[local] Existing Instance DashboardApi.Runs.demo_browser.
#[local] Existing Instance DashboardApi.Runs.demo_multipart.

Abbreviation idle := (DashboardApi.ApiState None).
Definition guest : auth_state := AuthState None None.
Definition admin : scripted := world [(LocalStorage, TOKEN_KEY, js "t"); (CookieJar, TOKEN_KEY, js "t")] [].

Definition PRIVY_KEY : str := js "privy:token".
#[local] Instance demo_privy : Privy scripted := {|
  privy_authenticated w := truthy_opt (st_peek w LocalStorage PRIVY_KEY);
  privy_logout := st_del LocalStorage PRIVY_KEY |}.
#[local] Instance demo_privy_laws : PrivyLaws scripted.
Proof.
  split.
  - intros w. cbn. destruct (del_spec LocalStorage PRIVY_KEY w) as (r & w' & E & [[_ S]|(_ & K & _)]); cbn in E; rewrite E;
      [apply (stored_ne _ _ _ _ _ S); discriminate|apply K].
  - intros w w'. cbn. destruct (del_spec LocalStorage PRIVY_KEY w) as (r & w1 & E & [[-> S]|([e ->] & _)]); cbn in E; rewrite E; [|done].
    intros [= <-]. pose proof (stored_eq _ _ _ _ _ S) as Q. cbn in Q. by rewrite Q.
  - intros s k v w Hk. cbn. assert (N : (LocalStorage, PRIVY_KEY) ≠ (s, k)) by (intros [= <- <-]; discriminate Hk).
    destruct (set_spec s k v w) as (r & w' & E & [[_ S]|(_ & K & _)]); cbn in E; rewrite E; cbn [snd]; f_equal;
      [by apply (stored_ne _ _ _ _ _ S)|apply K].
  - intros s k w Hk. cbn. assert (N : (LocalStorage, PRIVY_KEY) ≠ (s, k)) by (intros [= <- <-]; discriminate Hk).
    destruct (del_spec s k w) as (r & w' & E & [[_ S]|(_ & K & _)]); cbn in E; rewrite E; cbn [snd]; f_equal;
      [by apply (stored_ne _ _ _ _ _ S)|apply K].
Qed.

(** A browser with no other cookie than the ones of the store, by their names. *)
#[local] Instance demo_cookies : Layout.DocumentCookie scripted := λ w,
  (Ok (join (js "; ") ((λ name, match sent_cookies w name with Some v => name ++ js "=" ++ v | None => [] end) <$> AUTH_COOKIES)), w).
#[local] Instance demo_cookies_laws : Layout.CookieLaws scripted.
Proof. intros w. by eexists _, w. Qed.

(** An administrator whom Privy knows. *)
Definition known : scripted := world [(LocalStorage, TOKEN_KEY, js "t"); (CookieJar, TOKEN_KEY, js "t"); (LocalStorage, PRIVY_KEY, js "p")] [].

Lemma logout_undone_witness : ∃ w1 w2,
  auth_logout (AuthState (Some (js "t")) None, (idle, known)) = (Ok tt, (AuthState None None, (idle, w1))) ∧
  (∀ path, guarded path = true → serve (sent_cookies w1) path = Redirect LOGIN_ROUTE) ∧
  Pages.signed_in ([], w1) = (Ok tt, ([DASHBOARD_ROUTE], w2)) ∧
  (∀ path, guarded path = true → serve (sent_cookies w2) path = Next) ∧ session_of w2 = Session None None.
Proof.
  destruct (Pages.logout_undone eq_refl (AuthState (Some (js "t")) None) idle known ltac:(exact (eq_refl false)) eq_refl)
    as (w1 & w2 & E1 & R & E2 & N & S & _).
  exists w1, w2. exact (conj E1 (conj R (conj E2 (conj N S)))).
Defined.

Lemma privy_logout_leaves_dashboard_witness : ∃ w2,
  Pages.sign_out ([], (Pages.signed_in ([], known)).2.2) = (Ok tt, ([js "/"], w2)) ∧
  ∀ path, serve (sent_cookies w2) path = Next.
Proof. apply (Pages.privy_logout_leaves_dashboard known (Pages.signed_in ([], known)).2.2 []); reflexivity. Defined.

Definition shown : Layout.layout := Layout.MkLayout true true false [].

Lemma layout_decides_once_witness : ∃ l' s' w',
  Layout.run [Layout.ESignOut; Layout.EPrivy true; Layout.EPrivy false] (shown, (guest, (idle, admin))) = (Ok tt, (l', (s', (idle, w')))) ∧
  Layout.render l' = Layout.Shell ∧ (true = true → Layout.ly_routes l' = []) ∧
  (Layout.ESignOut ∈ [Layout.ESignOut; Layout.EPrivy true; Layout.EPrivy false] → session_of w' = Session None None).
Proof. apply (Layout.layout_decides_once eq_refl [Layout.ESignOut; Layout.EPrivy true; Layout.EPrivy false] shown guest idle admin); reflexivity. Defined.

Lemma guest_turned_away_witness : ∃ text w',
  let known := hasSession (access (session_of (world [] []))) text in
  Layout.mounts (Layout.mounting false, (guest, (idle, world [] []))) =
    (Ok tt, (Layout.MkLayout true known false (if false || known then [] else [LOGIN_ROUTE]), (guest, (idle, w')))) ∧
  Layout.render (Layout.MkLayout true known false (if false || known then [] else [LOGIN_ROUTE])) = (if false || known then Layout.Shell else Layout.SignIn) ∧
  (false = true → serve (sent_cookies w') DASHBOARD_ROUTE = Next).
Proof. apply (Layout.guest_turned_away false guest idle (world [] [])). reflexivity. Defined.

(** A guest is turned away, a signed-in visitor is not, and a refused PIN is shown. *)
Example mounted_guest :
  (Layout.mounts (Layout.mounting false, (guest, (idle, world [] [])))).2.1 = Layout.MkLayout true false false [LOGIN_ROUTE] ∧
  (Layout.mounts (Layout.mounting false, (guest, (idle, admin)))).2.1 = Layout.MkLayout true true false [].
Proof. vm_compute. by split. Qed.

Example refused_pin :
  (Form.submit (Form.MkForm (js "ada") (js "0000") None false [], (guest, (idle, world [] [reply 401 (js "{}")])))).2.1
  = Form.MkForm (js "ada") (js "0000") (Some Form.INVALID) false [].
Proof. vm_compute. reflexivity. Qed.
End Runs.
