(* ===== verification/YieldVault.v ===== *)
(** * The yield vault's configuration form

    Model of the configuration tab of [dashboard/app/dashboard/yield/page.tsx]: the index
    and rate arithmetic, the validation, the form and its gates, and the signing of a
    configuration with Freighter. The hexadecimal text of a random fraction is a
    parameter; the audit table the form writes to is that of AuditLog. *)

From S2P Require Import Prelude JsString JsNumber JsRound JsDate Json UriCodec Base64 Tables Effects Scripts Decode DashboardApi DashboardAuth AuditLog.

Inductive rule_type := Utilization | Tiered | Performance.

#[export] Instance rule_type_eq_dec : EqDecision rule_type.
Proof. solve_decision. Defined.

Definition rule_text (r : rule_type) : str :=
  match r with Utilization => js "utilization" | Tiered => js "tiered" | Performance => js "performance" end.

Record VaultParams := MkVaultParams {
  vp_apy : str;
  vp_baseInterestRate : str;
  vp_dynamicApyEnabled : bool;
  vp_dynamicRuleType : rule_type;
  vp_targetUtilization : str;
  vp_utilizationMultiplier : str;
  vp_maxApyCap : str;
  vp_paused : bool;
  vp_adminAddress : str;
}.

Record FormErrors := MkFormErrors {
  er_apy : option str;
  er_baseInterestRate : option str;
  er_adminAddress : option str;
  er_targetUtilization : option str;
  er_utilizationMultiplier : option str;
}.

(** ** Rates and index *)

Definition INITIAL_YIELD_INDEX : num := index8 104285012.

Record index_metrics := IndexMetrics {
  im_effectiveRate : num; im_projected30d : num; im_projected1y : num; im_newYieldIndex : num }.

Definition hundred : num := num_of_Z 100.

(** The rate before the cap. *)
Definition raw_rate (apyPercent baseRatePercent : num) (dynamicEnabled : bool) (ruleType : rule_type)
    (targetUtilization multiplier : num) : num :=
  if dynamicEnabled then
    match ruleType with
    | Utilization =>
        let spread := num_max (Fin 0 0) (num_sub apyPercent baseRatePercent) in
        num_add baseRatePercent (num_mul (num_mul spread (num_div targetUtilization hundred)) multiplier)
    | Tiered => num_mul apyPercent (round_ratio 115 100)
    | Performance => num_mul apyPercent (round_ratio 11 10)
    end
  else apyPercent.

Definition capped (rate : num) : num := num_min (num_of_Z 25) (num_max (Fin 0 0) rate).

(** [baseIndex * (1 + rate / 100 * fraction)] *)
Definition accrue (baseIndex rate fraction : num) : num :=
  num_mul baseIndex (num_add (num_of_Z 1) (num_mul (num_div rate hundred) fraction)).
Definition accrue_year (baseIndex rate : num) : num :=
  num_mul baseIndex (num_add (num_of_Z 1) (num_div rate hundred)).

Definition calculateYieldIndexMetrics (baseIndex apyPercent baseRatePercent : num) (dynamicEnabled : bool)
    (ruleType : rule_type) (targetUtilization multiplier : num) : index_metrics :=
  let effectiveRate := capped (raw_rate apyPercent baseRatePercent dynamicEnabled ruleType targetUtilization multiplier) in
  let projected30d := accrue baseIndex effectiveRate (num_div (num_of_Z 30) (num_of_Z 365)) in
  let projected1y := accrue_year baseIndex effectiveRate in
  let newlyAccruedIndex := accrue baseIndex effectiveRate (num_div (num_of_Z 1) (num_of_Z 365)) in
  IndexMetrics (Number (num_to_fixed 3 effectiveRate)) (Number (num_to_fixed 8 projected30d))
    (Number (num_to_fixed 8 projected1y)) (Number (num_to_fixed 8 newlyAccruedIndex)).

(** [x || d] of numbers *)
Definition num_or (x d : num) : num := if num_truthy x then x else d.

(** The metrics of the form's texts, for the preview and on submission. *)
Definition params_metrics (currentYieldIndex : num) (p : VaultParams) : index_metrics :=
  calculateYieldIndexMetrics currentYieldIndex
    (num_or (parseFloat (vp_apy p)) (Fin 0 0)) (num_or (parseFloat (vp_baseInterestRate p)) (Fin 0 0))
    (vp_dynamicApyEnabled p) (vp_dynamicRuleType p)
    (num_or (parseFloat (vp_targetUtilization p)) (num_of_Z 80))
    (num_or (parseFloat (vp_utilizationMultiplier p)) (round_ratio 125 100)).

(** ** Validation *)

(** [/^G[A-Z0-9]{55}$/] *)
Definition stellar_address (s : str) : bool :=
  match s with
  | 71%N :: t => (length t =? 55)%nat && forallb (λ c, is_upper c || is_digit c) t
  | _ => false
  end.

Definition apy_error (apyNum : num) : option str :=
  if is_nan apyNum || num_ltb apyNum (Fin 0 0) then Some (js "APY must be a positive number (minimum 0%).")
  else if num_ltb (num_of_Z 25) apyNum then Some (js "APY cannot exceed 25.0% (Soroban contract safety ceiling).")
  else None.

Definition base_error (apyNum baseNum : num) : option str :=
  if is_nan baseNum || num_ltb baseNum (Fin 0 0) then Some (js "Base interest rate must be 0% or higher.")
  else if num_ltb (if is_nan apyNum then Fin 0 0 else apyNum) baseNum then
    Some (js "Base interest rate cannot exceed Target APY.")
  else None.

Definition admin_error (address : str) : option str :=
  if negb (truthy (trim address)) then Some (js "Admin address is required.")
  else if negb (stellar_address (trim address)) then
    Some (js "Invalid Stellar address (must be 56 uppercase alphanumeric chars starting with G).")
  else None.

Definition range_error (lo hi x : num) (message : str) : option str :=
  if is_nan x || num_ltb x lo || num_ltb hi x then Some message else None.

Definition validateVaultParams (p : VaultParams) : FormErrors :=
  let apyNum := parseFloat (vp_apy p) in
  let scaled := vp_dynamicApyEnabled p && bool_decide (vp_dynamicRuleType p = Utilization) in
  MkFormErrors (apy_error apyNum) (base_error apyNum (parseFloat (vp_baseInterestRate p)))
    (admin_error (vp_adminAddress p))
    (if scaled then range_error (num_of_Z 0) (num_of_Z 100) (parseFloat (vp_targetUtilization p))
       (js "Target utilization must be between 0% and 100%.") else None)
    (if scaled then range_error (num_of_Z 1) (num_of_Z 5) (parseFloat (vp_utilizationMultiplier p))
       (js "Multiplier must be between 1.0x and 5.0x.") else None).

(** [Object.keys(errors).length > 0] *)
Definition has_errors (e : FormErrors) : bool :=
  existsb (λ o, match o with Some _ => true | None => false end)
    [er_apy e; er_baseInterestRate e; er_adminAddress e; er_targetUtilization e; er_utilizationMultiplier e].

(** ** The page *)

Record vault_page := VaultPage {
  pg_wallet : FreighterWalletState;
  pg_walletLoading : bool;
  pg_params : VaultParams;
  pg_index : num;
  pg_errors : FormErrors;
  pg_confirmed : bool;
  pg_signing : bool;
  pg_msg : option (bool * str);   (** whether it is a success *)
  pg_audit : list YieldTx;
}.

Definition no_errors : FormErrors := MkFormErrors None None None None None.

Definition initial_params : VaultParams :=
  MkVaultParams (js "5.0") (js "3.5") true Utilization (js "80") (js "1.25") (js "25.0") false [].

Definition initial_page : vault_page :=
  VaultPage DEFAULT_WALLET_STATE false initial_params INITIAL_YIELD_INDEX no_errors false false None MOCK_TXS.

Definition putWallet v s := VaultPage v (pg_walletLoading s) (pg_params s) (pg_index s) (pg_errors s) (pg_confirmed s) (pg_signing s) (pg_msg s) (pg_audit s).
Definition setWalletLoading v s := VaultPage (pg_wallet s) v (pg_params s) (pg_index s) (pg_errors s) (pg_confirmed s) (pg_signing s) (pg_msg s) (pg_audit s).
Definition setParams v s := VaultPage (pg_wallet s) (pg_walletLoading s) v (pg_index s) (pg_errors s) (pg_confirmed s) (pg_signing s) (pg_msg s) (pg_audit s).
Definition setIndex v s := VaultPage (pg_wallet s) (pg_walletLoading s) (pg_params s) v (pg_errors s) (pg_confirmed s) (pg_signing s) (pg_msg s) (pg_audit s).
Definition setFormErrors v s := VaultPage (pg_wallet s) (pg_walletLoading s) (pg_params s) (pg_index s) v (pg_confirmed s) (pg_signing s) (pg_msg s) (pg_audit s).
Definition setConfirmed v s := VaultPage (pg_wallet s) (pg_walletLoading s) (pg_params s) (pg_index s) (pg_errors s) v (pg_signing s) (pg_msg s) (pg_audit s).
Definition setSigning v s := VaultPage (pg_wallet s) (pg_walletLoading s) (pg_params s) (pg_index s) (pg_errors s) (pg_confirmed s) v (pg_msg s) (pg_audit s).
Definition setMsg v s := VaultPage (pg_wallet s) (pg_walletLoading s) (pg_params s) (pg_index s) (pg_errors s) (pg_confirmed s) (pg_signing s) v (pg_audit s).
Definition setAudit v s := VaultPage (pg_wallet s) (pg_walletLoading s) (pg_params s) (pg_index s) (pg_errors s) (pg_confirmed s) (pg_signing s) (pg_msg s) v.

(** *** The form *)

Inductive edit :=
  | EditApy (v : str) | EditBase (v : str) | EditDynamic (v : bool) | EditRule (r : rule_type)
  | EditUtilization (v : str) | EditMultiplier (v : str) | EditAdmin (v : str) | UseWalletAddress
  | TogglePause | EditConfirm (v : bool).

Definition with_apy v p := MkVaultParams v (vp_baseInterestRate p) (vp_dynamicApyEnabled p) (vp_dynamicRuleType p) (vp_targetUtilization p) (vp_utilizationMultiplier p) (vp_maxApyCap p) (vp_paused p) (vp_adminAddress p).
Definition with_base v p := MkVaultParams (vp_apy p) v (vp_dynamicApyEnabled p) (vp_dynamicRuleType p) (vp_targetUtilization p) (vp_utilizationMultiplier p) (vp_maxApyCap p) (vp_paused p) (vp_adminAddress p).
Definition with_dynamic v p := MkVaultParams (vp_apy p) (vp_baseInterestRate p) v (vp_dynamicRuleType p) (vp_targetUtilization p) (vp_utilizationMultiplier p) (vp_maxApyCap p) (vp_paused p) (vp_adminAddress p).
Definition with_rule v p := MkVaultParams (vp_apy p) (vp_baseInterestRate p) (vp_dynamicApyEnabled p) v (vp_targetUtilization p) (vp_utilizationMultiplier p) (vp_maxApyCap p) (vp_paused p) (vp_adminAddress p).
Definition with_utilization v p := MkVaultParams (vp_apy p) (vp_baseInterestRate p) (vp_dynamicApyEnabled p) (vp_dynamicRuleType p) v (vp_utilizationMultiplier p) (vp_maxApyCap p) (vp_paused p) (vp_adminAddress p).
Definition with_multiplier v p := MkVaultParams (vp_apy p) (vp_baseInterestRate p) (vp_dynamicApyEnabled p) (vp_dynamicRuleType p) (vp_targetUtilization p) v (vp_maxApyCap p) (vp_paused p) (vp_adminAddress p).
Definition with_paused v p := MkVaultParams (vp_apy p) (vp_baseInterestRate p) (vp_dynamicApyEnabled p) (vp_dynamicRuleType p) (vp_targetUtilization p) (vp_utilizationMultiplier p) (vp_maxApyCap p) v (vp_adminAddress p).
Definition with_admin v p := MkVaultParams (vp_apy p) (vp_baseInterestRate p) (vp_dynamicApyEnabled p) (vp_dynamicRuleType p) (vp_targetUtilization p) (vp_utilizationMultiplier p) (vp_maxApyCap p) (vp_paused p) v.

(** An edit that validates: the parameters and the errors of the parameters. *)
Definition validated (p : VaultParams) (s : vault_page) : vault_page :=
  setFormErrors (validateVaultParams p) (setParams p s).

(** An edit by a superadmin or not; the inputs of the parameters are disabled otherwise. *)
Definition edit_step (isSuperAdmin : bool) (e : edit) (s : vault_page) : vault_page :=
  let p := pg_params s in
  let gated (s' : vault_page) := if isSuperAdmin then s' else s in
  match e with
  | EditApy v => gated (validated (with_apy v p) s)
  | EditBase v => gated (validated (with_base v p) s)
  | EditDynamic v => gated (setParams (with_dynamic v p) s)
  | EditRule r => gated (setParams (with_rule r p) s)
  | EditUtilization v => gated (validated (with_utilization v p) s)
  | EditMultiplier v => gated (validated (with_multiplier v p) s)
  | EditAdmin v => validated (with_admin v p) s
  | UseWalletAddress =>
      match er_adminAddress (pg_errors s), publicKey (pg_wallet s) with
      | None, Some k =>
          if truthy k && negb (str_eqb (vp_adminAddress p) k) then validated (with_admin k p) s else s
      | _, _ => s
      end
  | TogglePause => gated (setParams (with_paused (negb (vp_paused p)) p) s)
  | EditConfirm v => setConfirmed v s
  end.

(** The effect on a change of the wallet's key: an empty admin address is filled in. *)
Definition prefill (s : vault_page) : vault_page :=
  match publicKey (pg_wallet s) with
  | Some k =>
      if truthy k && negb (truthy (vp_adminAddress (pg_params s)))
      then setParams (with_admin k (pg_params s)) s else s
  | None => s
  end.

Definition wallet_changed (next : FreighterWalletState) (s : vault_page) : vault_page :=
  let s' := putWallet next s in
  if decide (publicKey next = publicKey (pg_wallet s)) then s' else prefill s'.

(** *** Signing *)

(** [Math.random().toString(16)]: digits the language leaves to the implementation. *)
Class RadixText := hex_text : num → str.

Definition NETWORK_PASSPHRASE : str := js "Test SDF Network ; September 2015".

Definition vault_payload (p : VaultParams) (m : index_metrics) (admin : str) : json :=
  literal
    [present (js "fn") (JStr (js "set_vault_params"));
     present (js "apy") (JStr (vp_apy p));
     present (js "base_interest_rate") (JStr (vp_baseInterestRate p));
     present (js "dynamic_apy_enabled") (JBool (vp_dynamicApyEnabled p));
     present (js "dynamic_rule_type") (JStr (rule_text (vp_dynamicRuleType p)));
     present (js "target_utilization") (JStr (vp_targetUtilization p));
     present (js "utilization_multiplier") (JStr (vp_utilizationMultiplier p));
     present (js "new_yield_index") (JStr (num_to_str (im_newYieldIndex m)));
     present (js "effective_annual_apy") (JStr (num_to_str (im_effectiveRate m) ++ js "%"));
     present (js "paused") (JBool (vp_paused p));
     present (js "admin") (JStr admin)].

Definition config_details (p : VaultParams) : str :=
  js "APY adjusted to " ++ vp_apy p ++ js "%, Base Rate: " ++ vp_baseInterestRate p ++ js "%, Dynamic Rules: "
    ++ (if vp_dynamicApyEnabled p then rule_text (vp_dynamicRuleType p) else js "disabled").

Section Page.
Context `{Host W, Browser, FE : !FreighterEnv W, RadixText}.
Abbreviation page := (M (vault_page * W)).

(** The record of a signed configuration. *)
Definition config_record (p : VaultParams) (m : index_metrics) (admin signedTxXdr : str) : M W YieldTx :=
  t1 ← date_now; r1 ← math_random; t2 ← date_now; r2 ← math_random;
  mret (MkYieldTx (js "cfg-" ++ Z_to_str t1)
    (js "tx_" ++ take 8 (drop 2 (hex_text r1)) ++ take 20 signedTxXdr)
    (to_iso t2) admin AConfig (Fin 0 0) em_dash
    (Some (num_add (num_of_Z 48240000) (num_floor (num_mul r2 (num_of_Z 5000)))))
    (Some default_fee) (Some (im_newYieldIndex m)) (Some (config_details p))).

Definition fail_msg (text : str) : page unit := modify_state (setMsg (Some (false, text))).

(** The [try] block of the submission. *)
Definition sign_config (s : vault_page) (key : str) : page unit :=
  let p := pg_params s in
  let updatedMetrics := params_metrics (pg_index s) p in
  modify_state (setIndex (im_newYieldIndex updatedMetrics));;
  placeholderXdr ← of_res (btoa (stringify (vault_payload p updatedMetrics key)));
  result ← host (signWithFreighter placeholderXdr NETWORK_PASSPHRASE);
  match result with
  | None => throw type_error
  | Some signedTxXdr =>
      modify_state (setMsg (Some (true, js "Transaction signed and submitted. Signed XDR: " ++ take 24 signedTxXdr
        ++ [ellipsis] ++ js " (Updated Yield Index: " ++ num_to_fixed 8 (im_newYieldIndex updatedMetrics) ++ js ")")));;
      modify_state (setConfirmed false);;
      newAuditEntry ← host (config_record p updatedMetrics key signedTxXdr);
      modify_state (λ s, setAudit (newAuditEntry :: pg_audit s) s)
  end.

Definition signAndSubmit : page unit :=
  s ← get_state;
  if negb (pg_confirmed s) then mret tt
  else
    let errors := validateVaultParams (pg_params s) in
    if has_errors errors then
      modify_state (setFormErrors errors);;
      fail_msg (js "Please fix input validation errors before submitting.")
    else if negb (installed (pg_wallet s)) then
      fail_msg (js "Freighter wallet is not installed. Please install it from freighter.app.")
    else
      match connected (pg_wallet s), publicKey (pg_wallet s) with
      | true, Some key =>
          if truthy key then
            modify_state (setSigning true);;
            modify_state (setMsg None);;
            try_catch (sign_config s key) (λ err, fail_msg (err_message err));;
            modify_state (setSigning false)
          else fail_msg (js "Wallet not connected. Please connect Freighter first.")
      | _, _ => fail_msg (js "Wallet not connected. Please connect Freighter first.")
      end.

(** The submit button. *)
Definition submit_disabled (isSuperAdmin : bool) (s : vault_page) : bool :=
  negb isSuperAdmin || negb (pg_confirmed s) || pg_signing s || negb (connected (pg_wallet s)) || has_errors (pg_errors s).

Definition click_submit (isSuperAdmin : bool) : page unit :=
  s ← get_state;
  if submit_disabled isSuperAdmin s then mret tt else signAndSubmit.

Definition handleConnectWallet : page unit :=
  modify_state (setWalletLoading true);;
  try_catch (state ← host connectFreighter; modify_state (wallet_changed state)) (λ _, mret tt);;
  modify_state (setWalletLoading false).

(** The effect on mount. *)
Definition detect_on_mount : page unit :=
  state ← host detectFreighter; modify_state (wallet_changed state).
End Page.

(** ** Rates: properties *)

Section Rates.
Local Open Scope Z_scope.

Lemma parseFloat_between s lo hi :
  0 <= lo → is_nan (parseFloat s) = false → num_ltb (parseFloat s) (Fin lo 0) = false →
  num_ltb (Fin hi 0) (parseFloat s) = false → between lo hi (parseFloat s).
Proof.
  pose proof (parseFloat_exponent s) as He. destruct (parseFloat s) as [|[]|m e]; cbn; try done.
  intros H0 _. change (2 ^ (- 0)) with 1. rewrite !Z.ltb_ge. lia.
Qed.

Lemma num_or_between lo hi x d : between lo hi x → between lo hi d → between lo hi (num_or x d).
Proof. intros. unfold num_or. by destruct (num_truthy x). Qed.

(** What validation accepts. *)
Record accepted (p : VaultParams) : Prop := Accepted {
  ac_apy : between 0 25 (parseFloat (vp_apy p));
  ac_base : between 0 25 (parseFloat (vp_baseInterestRate p));
  ac_base_le : num_leb (parseFloat (vp_baseInterestRate p)) (parseFloat (vp_apy p)) = true;
  ac_admin : stellar_address (trim (vp_adminAddress p)) = true;
  ac_scaled : vp_dynamicApyEnabled p = true → vp_dynamicRuleType p = Utilization →
    between 0 100 (parseFloat (vp_targetUtilization p)) ∧ between 1 5 (parseFloat (vp_utilizationMultiplier p));
}.

Lemma range_error_none lo hi s msg :
  0 <= lo → range_error (num_of_Z lo) (num_of_Z hi) (parseFloat s) msg = None →
  num_of_Z lo = Fin lo 0 → num_of_Z hi = Fin hi 0 → between lo hi (parseFloat s).
Proof.
  intros Hlo E E1 E2. rewrite E1, E2 in E. unfold range_error in E. destruct (is_nan _ || _ || _) eqn:T0; [done|].
  apply orb_false_iff in T0 as [[T1 T2]%orb_false_iff T3]. by apply parseFloat_between.
Qed.

Lemma validate_accepted p : has_errors (validateVaultParams p) = false → accepted p.
Proof.
  unfold has_errors, validateVaultParams. cbn [existsb er_apy er_baseInterestRate er_adminAddress er_targetUtilization er_utilizationMultiplier].
  destruct (apy_error _) eqn:Ea; [done|]. destruct (base_error _ _) eqn:Eb; [done|].
  destruct (admin_error _) eqn:Ed; [done|]. cbn [orb]. intros Hs.
  assert (A : between 0 25 (parseFloat (vp_apy p)) ∧ is_nan (parseFloat (vp_apy p)) = false).
  { unfold apy_error in Ea. destruct (is_nan _) eqn:N; [done|]. cbn [orb] in Ea.
    destruct (num_ltb (parseFloat _) _) eqn:L; [done|]. destruct (num_ltb (num_of_Z 25) _) eqn:U; [done|].
    split; [|done]. by apply parseFloat_between. }
  destruct A as [A N].
  assert (B : between 0 25 (parseFloat (vp_baseInterestRate p)) ∧
    num_leb (parseFloat (vp_baseInterestRate p)) (parseFloat (vp_apy p)) = true).
  { unfold base_error in Eb. rewrite N in Eb. destruct (is_nan (parseFloat (vp_baseInterestRate p))) eqn:N'; [done|].
    cbn [orb] in Eb. destruct (num_ltb (parseFloat (vp_baseInterestRate p)) _) eqn:L; [done|].
    destruct (num_ltb (parseFloat (vp_apy p)) _) eqn:U; [done|]. clear Eb Ea Ed Hs.
    pose proof (parseFloat_exponent (vp_baseInterestRate p)) as He.
    destruct (parseFloat (vp_apy p)) as [| |m e]; try done.
    destruct (parseFloat (vp_baseInterestRate p)) as [|[]|m' e']; try done. cbn in *.
    rewrite Z.ltb_ge in L, U. rewrite Z.leb_le. change (2 ^ (- 0)) with 1 in L.
    assert (0 < 2 ^ (- e)) by (apply Z.pow_pos_nonneg; lia). assert (0 < 2 ^ (- e')) by (apply Z.pow_pos_nonneg; lia). nia. }
  destruct B as [B L]. split; [done..| |].
  - unfold admin_error in Ed. destruct (truthy _); [|done]. cbn [negb] in Ed. by destruct (stellar_address _).
  - intros Hd Hr. rewrite Hd, Hr, bool_decide_true in Hs by done. cbn [andb] in Hs.
    destruct (range_error _ _ (parseFloat (vp_targetUtilization p)) _) eqn:E1; [done|].
    destruct (range_error _ _ (parseFloat (vp_utilizationMultiplier p)) _) eqn:E2; [done|].
    split; (eapply range_error_none; [lia|eassumption|vm_compute; reflexivity..]).
Qed.

Lemma capped_between hi x : between 0 hi x → between 0 25 (capped x).
Proof.
  unfold capped, num_min, num_max. replace (num_of_Z 25) with (Fin 25 0) by (vm_compute; reflexivity).
  destruct x as [| |m e]; try done. intros [He Hm]. cbn [is_nan orb num_ltb].
  assert (0 < 2 ^ (- e)) by (apply Z.pow_pos_nonneg; lia). change (2 ^ (- 0)) with 1.
  destruct (Z.ltb_spec (0 * 2 ^ (- e)) (m * 1)); cbn [is_nan orb num_ltb]; change (2 ^ (- 0)) with 1.
  - destruct (Z.ltb_spec (m * 1) (25 * 2 ^ (- e))); cbn [between]; [lia|]. change (2 ^ (- 0)) with 1. lia.
  - change (0 * 1) with 0. rewrite (proj2 (Z.ltb_lt 0 _)) by lia. cbn. lia.
Qed.

Lemma raw_rate_between p :
  accepted p → ∃ hi, between 0 hi (raw_rate (num_or (parseFloat (vp_apy p)) (Fin 0 0))
    (num_or (parseFloat (vp_baseInterestRate p)) (Fin 0 0)) (vp_dynamicApyEnabled p) (vp_dynamicRuleType p)
    (num_or (parseFloat (vp_targetUtilization p)) (num_of_Z 80))
    (num_or (parseFloat (vp_utilizationMultiplier p)) (round_ratio 125 100))).
Proof.
  intros [Ha Hb Hle _ Hs].
  assert (A : between 0 25 (num_or (parseFloat (vp_apy p)) (Fin 0 0))) by (apply num_or_between; cbn; [done|lia]).
  assert (B : between 0 25 (num_or (parseFloat (vp_baseInterestRate p)) (Fin 0 0))) by (apply num_or_between; cbn; [done|lia]).
  unfold raw_rate. destruct (vp_dynamicApyEnabled p); [|by eexists].
  destruct (vp_dynamicRuleType p).
  - destruct (Hs eq_refl eq_refl) as [Hu Hm].
    assert (U : between 0 100 (num_or (parseFloat (vp_targetUtilization p)) (num_of_Z 80))).
    { apply num_or_between; [done|]. replace (num_of_Z 80) with (Fin 80 0) by (vm_compute; reflexivity). cbn. lia. }
    assert (Mu : between 0 5 (num_or (parseFloat (vp_utilizationMultiplier p)) (round_ratio 125 100))).
    { apply num_or_between; [by apply (between_weaken 1 5)|]. apply round_ratio_between; lia. }
    set (apy := num_or _ _) in *. set (base := num_or (parseFloat (vp_baseInterestRate p)) _) in *.
    assert (Sp : between 0 25 (num_max (Fin 0 0) (num_sub apy base))).
    { destruct apy as [| |m e], base as [| |m' e']; try done. cbn in A, B. unfold num_sub. cbn [num_opp num_add].
      assert (P : 0 < 2 ^ (- e)) by (apply Z.pow_pos_nonneg; lia). assert (P' : 0 < 2 ^ (- e')) by (apply Z.pow_pos_nonneg; lia).
      set (n := m * 2 ^ (- e') + - m' * 2 ^ (- e)). destruct (Z_le_gt_dec 0 n).
      - assert (Bn : between 0 25 (round_ratio n (2 ^ (- e) * 2 ^ (- e')))) by (apply round_ratio_between; nia).
        unfold num_max. destruct (round_ratio n _); try done. cbn [is_nan orb]. destruct (num_ltb _ _); [done|cbn; lia].
      - assert (Bn : between 0 25 (round_ratio (- n) (2 ^ (- e) * 2 ^ (- e')))) by (apply round_ratio_between; nia).
        rewrite <-(Z.opp_involutive n), round_ratio_opp. destruct (round_ratio (- n) _) as [| |q u]; try done.
        unfold num_max. cbn [is_nan orb num_ltb]. cbn in Bn. rewrite (proj2 (Z.ltb_ge _ _)) by lia. cbn. lia. }
    exists (25 + 25 * 1 * 5). apply (num_add_between 0 25 0); [done..| |lia].
    apply num_mul_between; [|done|lia]. apply num_mul_between; [done| |lia].
    unfold hundred. replace (num_of_Z 100) with (Fin 100 0) by (vm_compute; reflexivity). by apply num_div_between.
  - exists (25 * 2). apply num_mul_between; [done| |lia]. apply round_ratio_between; lia.
  - exists (25 * 2). apply num_mul_between; [done| |lia]. apply round_ratio_between; lia.
Qed.

(** An index text is that of a whole number of units of [1e-8]. *)
Lemma index_of_units lo x :
  between 0 (2 ^ 52) x → 0 <= lo < 2 ^ 52 → num_leb (index8 lo) x = true →
  ∃ k, Number (num_to_fixed 8 x) = index8 k ∧ lo <= k ∧ (∀ m e, x = Fin m e → k = fixed_units 8 m e).
Proof.
  destruct x as [| |m e]; try done. intros [He Hm] Hlo Hle.
  assert (P : 0 < 2 ^ (- e)) by (apply Z.pow_pos_nonneg; lia).
  exists (fixed_units 8 m e). split; [|split; [|by intros ? ? [= <- <-]]].
  - rewrite Number_to_fixed; [done|lia|lia| |done]. change (2 ^ 52) with 4503599627370496 in Hm.
    change (10 ^ 21) with 1000000000000000000000. nia.
  - pose proof (round_ratio_exponent lo 100000000) as Hx. fold (index8 lo) in Hx.
    destruct (index8 lo) as [|[]|m' e'] eqn:E; [done|..|].
    + exfalso. pose proof (round_ratio_between 0 (2 ^ 52) lo 100000000) as B. fold (index8 lo) in B. rewrite E in B. destruct B; lia.
    + done.
    + rewrite <-(fixed_units_round 8 lo m' e'); [by apply fixed_units_mono|lia|lia|].
      exact E.
Qed.

Lemma year_fraction n :
  0 < n <= 365 → num_of_Z n = Fin n 0 → between 0 1 (num_div (num_of_Z n) (num_of_Z 365)).
Proof.
  intros Hn ->. replace (num_of_Z 365) with (Fin 365 0) by (vm_compute; reflexivity).
  apply num_div_between; cbn; lia.
Qed.

Section Accrual.
Context (k : Z) (rate : num) (Hk : 0 <= k < 2 ^ 50) (Hr : between 0 25 rate).

Lemma index8_base : double (index8 k) ∧ between 0 (2 ^ 24) (index8 k).
Proof.
  assert (k <= 2 ^ 24 * 100000000) by (change (2 ^ 50) with 1125899906842624 in Hk; lia). split.
  - apply (round_ratio_double k 100000000 (2 ^ 24)); lia.
  - apply round_ratio_between; lia.
Qed.

Lemma hundredth : between 0 1 (num_div rate hundred) ∧ double (num_div rate hundred).
Proof.
  unfold hundred. replace (num_of_Z 100) with (Fin 100 0) by (vm_compute; reflexivity).
  assert (between 0 (1 * 100) rate) by (by apply (between_weaken 0 25)).
  split; [by apply num_div_between|by apply (num_div_double 1)].
Qed.

Lemma factor_between x : between 0 1 x → between 1 2 (num_add (num_of_Z 1) x).
Proof.
  replace (num_of_Z 1) with (Fin 1 0) by (vm_compute; reflexivity). intros Hx.
  apply (num_add_between 1 1 0 1); [lia|lia|cbn; lia|done|lia].
Qed.

(** Multiplying the index by a factor from one to two. *)
Lemma index_times y : between 1 2 y →
  between 0 (2 ^ 25) (num_mul (index8 k) y) ∧ num_leb (index8 k) (num_mul (index8 k) y) = true.
Proof.
  destruct index8_base as [D B]. intros Hy. split.
  - apply (num_mul_between (2 ^ 24) 2); [done|by apply (between_weaken 1 2)|lia].
  - by apply (num_mul_grows (2 ^ 24) 2).
Qed.

Lemma index_times_mono y y' : between 1 2 y → between 1 2 y' → num_leb y y' = true →
  num_leb (num_mul (index8 k) y) (num_mul (index8 k) y') = true.
Proof.
  destruct index8_base as [D B]. intros Hy Hy' Hle.
  apply (num_mul_mono (2 ^ 24) 2); [done|by apply (between_weaken 1 2)|lia|done|by apply (between_weaken 1 2)| |done].
  apply num_leb_refl. destruct (index8 k); try done; destruct B.
Qed.

Lemma accrue_steps f f' :
  between 0 1 f → between 0 1 f' → num_leb f f' = true → num_leb f' (Fin 1 0) = true →
  let x := accrue (index8 k) rate f in let x' := accrue (index8 k) rate f' in let x'' := accrue_year (index8 k) rate in
  num_leb (index8 k) x = true ∧ num_leb x x' = true ∧ num_leb x' x'' = true ∧
  between 0 (2 ^ 25) x ∧ between 0 (2 ^ 25) x' ∧ between 0 (2 ^ 25) x''.
Proof.
  intros Hf Hf' Hle H1. unfold accrue, accrue_year. destruct hundredth as [Hh Dh]. set (r := num_div rate hundred) in *.
  assert (R : num_leb r r = true) by (apply num_leb_refl; destruct r; try done; destruct Hh).
  assert (G : ∀ f, between 0 1 f → between 0 1 (num_mul r f)) by (intros; by apply (num_mul_between 1 1)).
  assert (One : num_leb (num_of_Z 1) (num_of_Z 1) = true) by (vm_compute; reflexivity).
  assert (B1 : between 0 1 (num_of_Z 1)) by (replace (num_of_Z 1) with (Fin 1 0) by (vm_compute; reflexivity); cbn; lia).
  assert (M1 : num_leb (num_mul r f) (num_mul r f') = true) by (by apply (num_mul_mono 1 1)).
  assert (M2 : num_leb (num_mul r f') r = true).
  { rewrite <-(num_mul_1 r Dh) at 2. apply (num_mul_mono 1 1); [done|cbn; lia|lia|done..]. }
  pose proof (factor_between _ (G f Hf)) as F. pose proof (factor_between _ (G f' Hf')) as F'. pose proof (factor_between _ Hh) as F''.
  destruct (index_times _ F) as [X1 X2]. destruct (index_times _ F') as [X1' _]. destruct (index_times _ F'') as [X1'' _].
  split; [exact X2|]. split; [|split; [|split; [exact X1|split; [exact X1'|exact X1'']]]].
  - apply index_times_mono; [exact F|exact F'|]. apply (num_add_mono 1 1); [exact B1|by apply G|lia|exact B1|by apply G|exact One|exact M1].
  - apply index_times_mono; [exact F'|exact F''|]. apply (num_add_mono 1 1); [exact B1|exact Hh|lia|exact B1|by apply G|exact One|exact M2].
Qed.
End Accrual.

(** C19: for parameters that validation accepts, the effective rate is between 0 and 25% in
    steps of a thousandth, and in binary floating point with eight decimals kept the index
    never falls: the new index, the 30-day and the one-year projection are whole units of
    [1e-8] in this order, none below the current index. *)
Theorem yield_index_never_falls p k :
  has_errors (validateVaultParams p) = false → 0 <= k < 2 ^ 50 →
  let m := params_metrics (index8 k) p in ∃ k1 k30 k365 r,
  im_newYieldIndex m = index8 k1 ∧ im_projected30d m = index8 k30 ∧ im_projected1y m = index8 k365 ∧
  k <= k1 <= k30 ∧ k30 <= k365 ∧
  im_effectiveRate m = round_ratio r 1000 ∧ 0 <= r <= 25000.
Proof.
  intros Hv Hk m. destruct (raw_rate_between p (validate_accepted p Hv)) as [hi Hraw].
  pose proof (capped_between hi _ Hraw) as Hc. unfold m, params_metrics, calculateYieldIndexMetrics.
  set (rate := capped _) in *. cbn [im_newYieldIndex im_projected30d im_projected1y im_effectiveRate].
  destruct (accrue_steps k rate Hk Hc (num_div (num_of_Z 1) (num_of_Z 365)) (num_div (num_of_Z 30) (num_of_Z 365)))
    as (L0 & L1 & L2 & B1 & B2 & B3); [apply year_fraction; [lia|reflexivity]..|vm_compute; reflexivity|vm_compute; reflexivity|].
  set (x1 := accrue _ _ _) in *. set (x30 := accrue _ _ (num_div (num_of_Z 30) _)) in *. set (x365 := accrue_year _ _) in *.
  assert (K52 : 0 <= k < 2 ^ 52) by lia.
  pose proof (num_leb_trans _ _ _ _ _ B1 L0 L1) as L01. pose proof (num_leb_trans _ _ _ _ _ B2 L01 L2) as L02.
  assert (W : ∀ x, between 0 (2 ^ 25) x → between 0 (2 ^ 52) x) by (intros ?; apply between_weaken; lia).
  destruct (index_of_units k x1) as (k1 & E1 & Hk1 & U1); [by apply W|done|done|].
  destruct (index_of_units k x30) as (k30 & E30 & _ & U30); [by apply W|done|done|].
  destruct (index_of_units k x365) as (k365 & E365 & _ & U365); [by apply W|done|done|].
  destruct rate as [| |q e]; [destruct Hc..|].
  exists k1, k30, k365, (fixed_units 3 q e).
  split; [done|]. split; [done|]. split; [done|].
  destruct x1 as [| |m1 e1], x30 as [| |m2 e2], x365 as [| |m3 e3]; try done.
  rewrite (U1 _ _ eq_refl), (U30 _ _ eq_refl), (U365 _ _ eq_refl) in *.
  split; [split; [done|apply fixed_units_mono; [apply B1|apply B2|done]]|].
  split; [apply fixed_units_mono; [apply B2|apply B3|done]|].
  destruct Hc as [He Hq]. assert (P : 0 < 2 ^ (- e)) by (apply Z.pow_pos_nonneg; lia).
  split; [apply Number_to_fixed; [lia|lia| |done]; change (10 ^ 21) with 1000000000000000000000; nia|].
  unfold fixed_units. change (10 ^ Z.of_nat 3) with 1000. split; [apply Z.div_pos; nia|].
  apply Z.lt_succ_r, Z.div_lt_upper_bound; nia.
Qed.
End Rates.

(** ** Signing: properties *)

Section PageProperties.
Context `{Host W, Browser, FE : !FreighterEnv W, RadixText}.
Implicit Types (s : vault_page) (w : W).

(** When the button signs. *)
Definition may_sign (isSuperAdmin : bool) s (key : str) : Prop :=
  isSuperAdmin = true ∧ pg_confirmed s = true ∧ pg_signing s = false ∧ accepted (pg_params s) ∧
  installed (pg_wallet s) = true ∧ connected (pg_wallet s) = true ∧ publicKey (pg_wallet s) = Some key ∧ key ≠ [].

(** What the wallet is asked to sign: the Base64 of the payload. *)
Definition signing_text s (key : str) : str :=
  stringify (vault_payload (pg_params s) (params_metrics (pg_index s) (pg_params s)) key).

Lemma payload_reads p m key : json_parse (stringify (vault_payload p m key)) = Some (vault_payload p m key).
Proof. apply parse_stringify. unfold vault_payload. solve_literal_ok. Qed.

(** The outcome of the handler once the gates are open. *)
Definition signed_page s (key : str) (w : W) : vault_page * W :=
  let new := im_newYieldIndex (params_metrics (pg_index s) (pg_params s)) in
  let begun := setIndex new (setMsg None (setSigning true s)) in
  match btoa (signing_text s key) with
  | Throw e => (setSigning false (setMsg (Some (false, err_message e)) begun), w)
  | Ok xdr =>
      match signWithFreighter xdr NETWORK_PASSPHRASE w with
      | (Throw e, w1) => (setSigning false (setMsg (Some (false, err_message e)) begun), w1)
      | (Ok None, w1) => (setSigning false (setMsg (Some (false, err_message type_error)) begun), w1)
      | (Ok (Some signed), w1) =>
          let shown := setConfirmed false (setMsg (Some (true,
            js "Transaction signed and submitted. Signed XDR: " ++ take 24 signed ++ [ellipsis]
              ++ js " (Updated Yield Index: " ++ num_to_fixed 8 new ++ js ")")) begun) in
          match config_record (pg_params s) (params_metrics (pg_index s) (pg_params s)) key signed w1 with
          | (Ok entry, w2) => (setSigning false (setAudit (entry :: pg_audit s) shown), w2)
          | (Throw e, w2) => (setSigning false (setMsg (Some (false, err_message e)) shown), w2)
          end
      end
  end.

Lemma envelope_sign_run s key w :
  pg_confirmed s = true → has_errors (validateVaultParams (pg_params s)) = false →
  installed (pg_wallet s) = true → connected (pg_wallet s) = true → publicKey (pg_wallet s) = Some key → truthy key = true →
  signAndSubmit (s, w) = (Ok tt, signed_page s key w).
Proof.
  intros Hc Hv Hi Hn Hk Ht. unfold signAndSubmit. rewrite (run_bind_ok _ _ _ _ _ (run_get_state s w)).
  rewrite Hc, Hv, Hi, Hn, Hk, Ht. cbn [negb]. unfold signed_page, signing_text.
  rewrite !(run_bind_ok _ _ _ _ _ (run_modify_state _ _ w)). unfold try_catch at 1. rewrite run_bind.
  unfold sign_config at 1. rewrite (run_bind_ok _ _ _ _ _ (run_modify_state _ _ w)).
  set (begun := setIndex _ _). unfold of_res. rewrite run_bind.
  destruct (btoa _) as [xdr|e]; [|done]. rewrite run_bind.
  destruct (signWithFreighter xdr _ w) as [r w1] eqn:E. rewrite (run_host _ begun _ _ _ E).
  destruct r as [[signed|]|e]; [|done|done].
  rewrite !(run_bind_ok _ _ _ _ _ (run_modify_state _ _ w1)). rewrite run_bind.
  destruct (config_record _ _ key signed w1) as [r2 w2] eqn:E2. rewrite (run_host _ _ _ _ _ E2).
  by destruct r2.
Qed.

(** the wallet is asked to sign only for a superadmin, after confirmation, with a
    connected key and parameters that validation accepts; then what it is asked to sign
    decodes to the JSON of exactly these parameters, the new index and the wallet's key. In
    every other case nothing is signed, the index and the records stay as they are. *)
Theorem signs_only_accepted isSuperAdmin s w : ∃ s' w',
  click_submit isSuperAdmin (s, w) = (Ok tt, (s', w')) ∧
  ((w' = w ∧ pg_index s' = pg_index s ∧ pg_audit s' = pg_audit s) ∨
   ∃ key, may_sign isSuperAdmin s key ∧ (s', w') = signed_page s key w ∧
     ∀ xdr, btoa (signing_text s key) = Ok xdr →
       (b64_decode xdr ≫= json_parse)
         = Some (vault_payload (pg_params s) (params_metrics (pg_index s) (pg_params s)) key)).
Proof.
  unfold click_submit. rewrite (run_bind_ok _ _ _ _ _ (run_get_state s w)).
  destruct (submit_disabled isSuperAdmin s) eqn:D; [exists s, w; split; [done|by left]|].
  unfold submit_disabled in D. rewrite !orb_false_iff, !negb_false_iff in D.
  destruct D as [[[[Ha Hc] Hg] Hn] _].
  destruct (has_errors (validateVaultParams (pg_params s))) eqn:V.
  { unfold signAndSubmit. rewrite (run_bind_ok _ _ _ _ _ (run_get_state s w)), Hc, V. cbn [negb].
    eexists _, w. split; [reflexivity|]. by left. }
  destruct (installed (pg_wallet s)) eqn:Hi.
  2:{ unfold signAndSubmit. rewrite (run_bind_ok _ _ _ _ _ (run_get_state s w)), Hc, V, Hi. cbn [negb].
      eexists _, w. split; [reflexivity|]. by left. }
  destruct (publicKey (pg_wallet s)) as [key|] eqn:Hk.
  2:{ unfold signAndSubmit. rewrite (run_bind_ok _ _ _ _ _ (run_get_state s w)), Hc, V, Hi, Hn, Hk. cbn [negb].
      eexists _, w. split; [reflexivity|]. by left. }
  destruct (truthy key) eqn:Ht.
  2:{ unfold signAndSubmit. rewrite (run_bind_ok _ _ _ _ _ (run_get_state s w)), Hc, V, Hi, Hn, Hk, Ht. cbn [negb].
      eexists _, w. split; [reflexivity|]. by left. }
  rewrite (envelope_sign_run s key w) by done. destruct (signed_page s key w) as [s' w'] eqn:E.
  exists s', w'. split; [done|]. right. exists key. split; [|split; [done|]].
  - repeat (split; [done|]). split; [by apply validate_accepted|]. repeat (split; [done|]). by apply truthy_true.
  - intros xdr Hx. rewrite (btoa_decode _ _ Hx). apply payload_reads.
Qed.

(** the index moves even when nothing was signed: if the wallet refuses, the page reports
    the failure but keeps the new index, and the form stays confirmed, so that every further
    attempt accrues once more. *)
Theorem refused_signature_moves_index isSuperAdmin s key w xdr e w1 :
  may_sign isSuperAdmin s key → has_errors (pg_errors s) = false →
  has_errors (validateVaultParams (pg_params s)) = false →
  btoa (signing_text s key) = Ok xdr → signWithFreighter xdr NETWORK_PASSPHRASE w = (Throw e, w1) →
  ∃ s', click_submit isSuperAdmin (s, w) = (Ok tt, (s', w1)) ∧
    pg_msg s' = Some (false, err_message e) ∧ pg_audit s' = pg_audit s ∧
    pg_index s' = im_newYieldIndex (params_metrics (pg_index s) (pg_params s)) ∧
    may_sign isSuperAdmin s' key ∧ pg_params s' = pg_params s.
Proof.
  intros (-> & Hc & Hg & Ac & Hi & Hn & Hk & Hne) He V Hx Es.
  unfold click_submit. rewrite (run_bind_ok _ _ _ _ _ (run_get_state s w)).
  unfold submit_disabled. rewrite Hc, Hg, Hn, He. cbn [negb orb].
  rewrite (envelope_sign_run s key w) by (done || by apply truthy_true).
  unfold signed_page. rewrite Hx, Es. eexists. split; [reflexivity|].
  do 3 (split; [done|]). split; [|done]. do 3 (split; [done|]). split; [exact Ac|]. by do 3 (split; [done|]).
Qed.

(** fields of the form that do not do what they say. The admin address is validated and
    required, yet the payload does not depend on it. A target utilization of zero is
    accepted, and computed as 80%. An error of a dynamic rule outlives the rule: with the
    rule switched off the parameters are accepted, and the button stays disabled. *)
Theorem form_fields_ignored p s key v :
  stringify (vault_payload (with_admin v p) (params_metrics (pg_index s) (with_admin v p)) key)
    = stringify (vault_payload p (params_metrics (pg_index s) p) key) ∧
  (er_targetUtilization (validateVaultParams (with_utilization (js "0") p)) = None ∧
   params_metrics (pg_index s) (with_utilization (js "0") p) = params_metrics (pg_index s) (with_utilization (js "80") p)) ∧
  (vp_dynamicRuleType (pg_params s) = Utilization → vp_dynamicApyEnabled (pg_params s) = true →
   has_errors (validateVaultParams (with_dynamic false (pg_params s))) = false →
   let s' := edit_step true (EditDynamic false) (edit_step true (EditUtilization (js "101")) s) in
   has_errors (validateVaultParams (pg_params s')) = false ∧ submit_disabled true s' = true).
Proof.
  split; [done|]. split; [split|].
  - unfold validateVaultParams. cbn [er_targetUtilization]. by destruct (_ && _).
  - unfold params_metrics. cbn [vp_apy vp_baseInterestRate vp_dynamicApyEnabled vp_dynamicRuleType vp_targetUtilization
      vp_utilizationMultiplier with_utilization].
    assert (num_or (parseFloat (js "0")) (num_of_Z 80) = num_or (parseFloat (js "80")) (num_of_Z 80)) as ->
      by (vm_compute; reflexivity). done.
  - intros Hr Hd V s'. split; [exact V|]. unfold submit_disabled.
    assert (E : pg_errors s' = validateVaultParams (with_utilization (js "101") (pg_params s))) by done.
    assert (U : er_targetUtilization (pg_errors s') = Some (js "Target utilization must be between 0% and 100%.")).
    { rewrite E. unfold validateVaultParams. cbn [er_targetUtilization with_utilization vp_dynamicApyEnabled vp_dynamicRuleType vp_targetUtilization].
      rewrite Hd, Hr, bool_decide_true by done. vm_compute. reflexivity. }
    unfold has_errors. cbn [existsb]. rewrite U. by rewrite !orb_true_r.
Qed.
End PageProperties.

Module Runs.
#[local] Existing Instance DashboardApi.Runs.demo_browser.

Definition g_key : str := js "G" ++ replicate 55 65%N.
Definition declined : js_error := new_error (js "User declined access").

Definition signing_api : FreighterApi scripted :=
  MkFreighter (mret true) (mret (Some g_key)) (mret None) (mret (Some g_key, None)) (λ xdr _, mret (Some xdr, None)).
Definition declining_api : FreighterApi scripted :=
  MkFreighter (mret true) (mret (Some g_key)) (mret None) (mret (Some g_key, None))
    (λ _ _, mret (None, Some (js "User declined access"))).

Definition env (api : FreighterApi scripted) : FreighterEnv scripted :=
  {| NODE_ENV := js "production"; injected := None; imported := Ok api |}.
#[local] Instance demo_radix : RadixText := λ _, js "0.8".

Definition w0 : scripted := world [] [].

(** The wallet is connected, its key is filled in, and the form confirmed. *)
Definition ready : vault_page :=
  edit_step true (EditConfirm true) (handleConnectWallet (FE := env signing_api) (initial_page, w0)).2.1.

Example a_signature :
  let '(r, (s, _)) := click_submit (FE := env signing_api) true (ready, w0) in
  r = Ok tt ∧ pg_index s = index8 104299298 ∧ pg_confirmed s = false ∧ length (pg_audit s) = 9 ∧
  (yt_details <$> head (pg_audit s)) = Some (Some (js "APY adjusted to 5.0%, Base Rate: 3.5%, Dynamic Rules: utilization")).
Proof. vm_compute. repeat split. Qed.

(** Text after the number is accepted and signed as it is. *)
Example trailing_text :
  has_errors (validateVaultParams (pg_params (edit_step true (EditApy (js "5abc")) ready))) = false.
Proof. vm_compute. reflexivity. Qed.

Lemma yield_index_never_falls_witness :
  let m := params_metrics (index8 104285012) (pg_params ready) in ∃ k1 k30 k365 r,
  im_newYieldIndex m = index8 k1 ∧ im_projected30d m = index8 k30 ∧ im_projected1y m = index8 k365 ∧
  (104285012 <= k1 <= k30 ∧ k30 <= k365)%Z ∧
  im_effectiveRate m = round_ratio r 1000 ∧ (0 <= r <= 25000)%Z.
Proof.
  destruct (yield_index_never_falls (pg_params ready) 104285012) as (k1 & k30 & k365 & r & E1 & E2 & E3 & L1 & L2 & E4 & L3);
    [vm_compute; reflexivity|lia|].
  exists k1, k30, k365, r. exact (conj E1 (conj E2 (conj E3 (conj (conj L1 L2) (conj E4 L3))))).
Defined.


Lemma refused_signature_moves_index_witness :
  let w := w0 in ∃ s', click_submit (FE := env declining_api) true (ready, w) = (Ok tt, (s', w)) ∧
    pg_msg s' = Some (false, err_message declined) ∧ pg_audit s' = pg_audit ready ∧
    pg_index s' = im_newYieldIndex (params_metrics (pg_index ready) (pg_params ready)) ∧
    may_sign true s' g_key ∧ pg_params s' = pg_params ready.
Proof.
  assert (V : has_errors (validateVaultParams (pg_params ready)) = false) by (vm_compute; reflexivity).
  apply (refused_signature_moves_index (FE := env declining_api) true ready g_key w0
           (default [] (match btoa (signing_text ready g_key) with Ok x => Some x | Throw _ => None end)) declined w0).
  - split; [reflexivity|]. split; [vm_compute; reflexivity|]. split; [vm_compute; reflexivity|].
    split; [exact (validate_accepted _ V)|]. repeat (split; [vm_compute; reflexivity|]). discriminate.
  - vm_compute. reflexivity.
  - exact V.
  - vm_compute. reflexivity.
  - vm_compute. reflexivity.
Defined.
End Runs.
