(* ===== verification/AuditLedger.v ===== *)
(** * The records of the yield page's audit table

    The table of AuditLog is written by three pieces of code of [dashboard/app/dashboard/yield/page.tsx]:
    the seeded state, the merge of an answer of the backend (AuditLog) and the form that signs a
    configuration (YieldVault). What its records can be, whatever they do in whatever order. *)

From S2P Require Import Prelude JsString JsNumber JsRound JsDate Json Base64 Tables Effects Scripts Decode DashboardApi DashboardAuth AuditLog YieldVault.

Section Ledger.
Context `{Host W, Browser, FE : !FreighterEnv W, RadixText, DashEnv, Multipart, UnicodeCase, HostDates, Collator}.
Implicit Types (s : audit_state) (w : W).

(** [accepted] restricts the items of an answer; an answer is any JSON text. *)
Inductive audit_reach (accepted : AuditItem → Prop) : audit_state → Prop :=
  | reach_initial : audit_reach accepted initial_audit
  | reach_op op s : audit_reach accepted s → audit_reach accepted (audit_step op s)
  | reach_loading b s : audit_reach accepted s → audit_reach accepted (setAuditLoading b s)
  | reach_answer text res items s :
      audit_reach accepted s → json_parse text = Some res →
      mapM audit_item (listed_items res) = Some items → Forall accepted items →
      audit_reach accepted (setRows (merge_rows (au_rows s) (row_of_item <$> items)) s)
  | reach_submit isSuperAdmin pg w new s :
      audit_reach accepted s →
      pg_audit (click_submit isSuperAdmin (pg, w)).2.1 = new ++ pg_audit pg →
      audit_reach accepted (setRows (new ++ au_rows s) s).

Lemma signed_page_audit pg key w :
  pg_audit (signed_page pg key w).1 = pg_audit pg ∨
  ∃ t m signed w1 w2, config_record (pg_params pg) m key signed w1 = (Ok t, w2) ∧
    pg_audit (signed_page pg key w).1 = t :: pg_audit pg.
Proof.
  unfold signed_page. destruct (btoa _) as [xdr|e]; [|by left].
  destruct (signWithFreighter _ _ w) as [[[signed|]|e] w1]; [|by left..].
  destruct (config_record _ _ key signed w1) as [[t|e] w2] eqn:R; [|by left]. right. by eexists _, _, _, _, _.
Qed.

Lemma answered_value {A X} (a b : A) (x y : X) : (Ok a, x) = (Ok b, y) → a = b.
Proof. by intros [= -> _]. Qed.

Lemma config_record_row p m key signed w t w' : config_record p m key signed w = (Ok t, w') →
  yt_action t = AConfig ∧ yt_tokenVolume t = Fin 0 0 ∧ is_Some (yt_fee t).
Proof.
  unfold config_record. intros R. apply run_bind_inv in R as (t1 & w1 & _ & R). apply run_bind_inv in R as (r1 & w2 & _ & R).
  apply run_bind_inv in R as (t2 & w3 & _ & R). apply run_bind_inv in R as (r2 & w4 & _ & R).
  rewrite run_ret in R. apply answered_value in R as <-. split_and!; [done..|by eexists].
Qed.

(** What a submission puts before the records: nothing, or a configuration record. *)
Lemma submit_records isSuperAdmin pg w new :
  pg_audit (click_submit isSuperAdmin (pg, w)).2.1 = new ++ pg_audit pg →
  new = [] ∨ ∃ t, new = [t] ∧ yt_action t = AConfig ∧ yt_tokenVolume t = Fin 0 0 ∧ is_Some (yt_fee t).
Proof.
  destruct (signs_only_accepted isSuperAdmin pg w) as (pg' & w' & -> & C). cbn [fst snd].
  assert (Nil : pg_audit pg = new ++ pg_audit pg → new = []).
  { intros E. apply (f_equal length) in E. rewrite length_app in E. destruct new; [done|cbn in E; lia]. }
  destruct C as [(_ & _ & ->)|(key & _ & E & _)]; [by left; apply Nil|].
  replace pg' with (signed_page pg key w).1 by by rewrite <-E.
  destruct (signed_page_audit pg key w) as [->|(t & m & signed & w1 & w2 & R & ->)]; [by left; apply Nil|].
  intros E2. right. exists t. split; [|by eapply config_record_row].
  change (t :: pg_audit pg) with ([t] ++ pg_audit pg) in E2. by apply app_inv_tail in E2.
Qed.

Lemma reached_rows (accepted : AuditItem → Prop) (typed : YieldTx → Prop) s :
  Forall typed MOCK_TXS → (∀ i, accepted i → plain_num (ai_amount i) = true → typed (row_of_item i)) →
  (∀ t, yt_action t = AConfig → yt_tokenVolume t = Fin 0 0 → is_Some (yt_fee t) → typed t) →
  audit_reach accepted s → Forall typed (au_rows s) ∧ 1 ≤ au_page s.
Proof.
  intros M A C. induction 1 as [|op s _ [IR IP]|b s _ [IR IP]|text res items s _ [IR IP] Hp Hm Hi|b pg w new s _ [IR IP] E];
    cbn [au_rows au_page setRows setAuditLoading].
  - by split.
  - rewrite audit_step_rows. split; [done|]. by apply audit_step_page.
  - done.
  - split; [|done]. pose proof (items_plain _ _ _ Hp Hm) as Pl. rewrite Forall_forall in *. intros t [Ht|(Ht & _)]%merge_elem; [|auto].
    apply list_elem_of_fmap in Ht as (i & -> & Hin).
    apply A; [exact (proj1 (Forall_forall _ _) Hi i Hin)|exact (proj1 (Forall_forall _ _) Pl i Hin)].
  - split; [|done]. apply Forall_app. split; [|done].
    destruct (submit_records _ _ _ _ E) as [->|(t & -> & Ha & Hv & Hf)]; [done|]. apply Forall_singleton. by apply C.
Qed.

Definition from_ledger (t : YieldTx) : Prop := yt_action t ≠ AConfig.
#[local] Instance from_ledger_dec t : Decision (from_ledger t).
Proof. unfold from_ledger. apply _. Defined.

(** The deposits, withdrawals and accruals shown are those of one source. *)
Definition one_source s : Prop :=
  ∃ source, filter from_ledger (au_rows s) = filter from_ledger source ∧
  (source = MOCK_TXS ∨ ∃ text res items, json_parse text = Some res ∧
     mapM audit_item (listed_items res) = Some items ∧ source = row_of_item <$> items).

Lemma reached_source accepted s : audit_reach accepted s → one_source s.
Proof.
  induction 1 as [|op s _ IH|b s _ IH|text res items s _ IH Hp Hm Hi|b pg w new s _ IH E]; unfold one_source in *;
    cbn [au_rows setRows setAuditLoading]; rewrite ?audit_step_rows; try done.
  - exists MOCK_TXS. split; [done|by left].
  - exists (row_of_item <$> items). split; [|right; by eexists _, _, _].
    unfold merge_rows. rewrite filter_app. rewrite (filter_Forall_nil _ (filter _ (filter _ (au_rows s)))); [done|].
    apply Forall_forall. intros t Ht Hl. apply list_elem_of_filter in Ht as [_ Ht]. apply list_elem_of_filter in Ht as [Ha _]. by apply Hl.
  - destruct IH as (source & Es & Hs). exists source. split; [|done]. rewrite filter_app, Es.
    destruct (submit_records _ _ _ _ E) as [->|(t & -> & Ha & _)]; [done|]. rewrite filter_cons_False; [done|]. by intros N.
Qed.
Definition any_item (_ : AuditItem) : Prop := True.

Lemma merged_reach text res s : audit_reach any_item s → json_parse text = Some res →
  audit_reach any_item
    match mapM audit_item (listed_items res) with
    | Some (i :: items) => setRows (merge_rows (au_rows s) (row_of_item <$> i :: items)) s
    | _ => s
    end.
Proof.
  intros R Hp. destruct (mapM audit_item (listed_items res)) as [[|i items]|] eqn:Hm; [done| |done].
  apply (reach_answer _ text res); [done..|]. by apply Forall_true.
Qed.

(** The tab's query, run alone, is one of the answers. *)
Lemma fetch_reach s (a : api_state) w : audit_reach any_item s → audit_reach any_item (fetchAuditHistory (s, (a, w))).2.1.
Proof.
  intros R. pose proof (fetch_audit_outcome s a w) as F.
  destruct (yieldAuditLogs (Some (audit_query s)) (a, w)) as [r aw] eqn:E. rewrite F. cbn [fst snd]. apply reach_loading.
  destruct r as [res|e]; [|done]. unfold yieldAuditLogs, req in E. apply run_bind_inv in E as (rs & w1 & _ & E).
  unfold json_result in E. destruct (negb (rs_ok rs)); [done|]. unfold JSON_parse in E.
  destruct (json_parse (rs_body rs)) as [v|] eqn:Ep; [|done]. injection E as <- _. by apply (merged_reach (rs_body rs)).
Qed.

End Ledger.

(** ** Runs on a scripted host *)

Module Runs.
#[local] Existing Instance ascii_case.
#[local] Existing Instance iso_only.
#[local] Existing Instance unit_collation.
#[local] Existing Instance DashboardApi.Runs.demo_env.
#[local] Existing Instance DashboardApi.Runs.demo_browser.
#[local] Existing Instance DashboardApi.Runs.demo_multipart.
#[local] Existing Instance YieldVault.Runs.demo_radix.

Definition demo_wallet : FreighterEnv scripted := YieldVault.Runs.env YieldVault.Runs.signing_api.

(** An answer with amounts no one checks. *)
Definition huge_item (id : str) (amount : str) : str :=
  js "{`id`:`" ++ id ++ js "`,`tx_hash`:`t`,`type`:`vault_deposit`,`created_at`:`2026-07-01T00:00:00Z`,`amount`:" ++ amount ++ js "}".
Definition huge_answer : str :=
  (λ c, if (c =? 96)%N then 34%N else c) <$> js "{`items`:[" ++ huge_item (js "a") (js "-1e30") ++ js "," ++ huge_item (js "b") (js "1e400") ++ js "]}".
Definition huge : audit_state :=
  (fetchAuditHistory (audit_step OpNext initial_audit, (ApiState None, world [] [reply 200 huge_answer]))).2.1.

Lemma huge_reach : audit_reach (FE := demo_wallet) any_item huge.
Proof. apply fetch_reach, reach_op, reach_initial. Qed.


(** Amounts are taken as they come: the volumes leave the safe integers, one is infinite, and
    so is the sum of the deposits. *)
Theorem huge_amount_shown : ∃ s, audit_reach (FE := demo_wallet) any_item s ∧
  ¬ Forall row_ok (au_rows s) ∧ (yt_tokenVolume <$> last (au_rows s)) = Some (Inf false) ∧
  as_deposits (stats INITIAL_YIELD_INDEX s) = Inf false.
Proof.
  exists huge. split; [apply huge_reach|]. split; [|by split; vm_compute].
  intros Hr. assert (E : ∃ t, last (au_rows huge) = Some t ∧ yt_tokenVolume t = Inf false) by (vm_compute; eexists; split; reflexivity).
  destruct E as (t & Ht & Ev). apply last_Some_elem_of in Ht. rewrite Forall_forall in Hr. destruct (Hr t Ht) as [[Q _] _]. by rewrite Ev in Q.
Qed.
End Runs.
