(* ===== verification/YieldViews.v ===== *)
(** * What the yield page shows

    The parts of [dashboard/app/dashboard/yield/page.tsx] beside the form's arithmetic (YieldVault) and the query
    of the audit log (AuditLog): the wallet badge and card, the fields with their errors, the submit button and the
    simulation (module Config), the audit table with its headers, expanded rows and pager (Table), and the APY
    history with the requests of its visits (Rates). Number formats and [date-fns] are parameters. *)

From S2P Require Import Prelude JsString JsNumber JsRound JsDate Json Tables Effects Scripts Decode DashboardApi AuditLog DashboardAuth YieldVault.

(** ** The configuration tab *)

Module Config.
(** The badge: its text and the network beside it. *)
Definition WalletBadge (w : FreighterWalletState) : str * option str :=
  if negb (installed w) then (js "Freighter not installed " ++ em_dash ++ js " Install", None)
  else if negb (connected w) then (js "Freighter detected " ++ em_dash ++ js " not connected", None)
  else (match publicKey w with Some k => if truthy k then truncateKey k 6 6 else js "Connected" | None => js "Connected" end,
        match network w with Some n => if truthy n then Some (183%N :: js " " ++ n) else None | None => None end).

Inductive wallet_card := InstallNotice | ConnectButton (label : str) (disabled : bool) | WalletConnected (key : str) (network : option str).

Definition given (o : option str) : option str := match o with Some s => if truthy s then Some s else None | None => None end.

Definition wallet_cards (s : vault_page) : list wallet_card :=
  let w := pg_wallet s in
  (if installed w then [] else [InstallNotice]) ++
  (if installed w && negb (connected w)
   then [ConnectButton (if pg_walletLoading s then js "Connecting" ++ [ellipsis] else js "Connect Freighter") (pg_walletLoading s)] else []) ++
  match given (publicKey w) with
  | Some k => if connected w then [WalletConnected k (given (network w))] else []
  | None => []
  end.

(** The notice of the form for others than superadmins. *)
Definition access_notice (isSuperAdmin : bool) : option str :=
  if isSuperAdmin then None else Some ([55357%N; 56594%N] ++ js " Superadmin access required to modify vault parameters.").

(** The line below a field: its error, or a hint. *)
Definition apy_line (s : vault_page) : str := default (js "Target baseline vault yield") (er_apy (pg_errors s)).
Definition base_line (s : vault_page) : str :=
  default (js "Guaranteed floor yield regardless of utilization") (er_baseInterestRate (pg_errors s)).

(** The fields of the utilization rule are shown under that rule only. *)
Definition utilization_shown (p : VaultParams) : bool :=
  vp_dynamicApyEnabled p && bool_decide (vp_dynamicRuleType p = Utilization).

Definition rule_lines (p : VaultParams) : list str :=
  if negb (vp_dynamicApyEnabled p) then []
  else match vp_dynamicRuleType p with
       | Utilization => [js "Target Utilization (%)"; js "Surge Multiplier"]
       | Tiered => [js "Configured Tier Multipliers:"; 8226%N :: js " Tier 1 (<10k USDC): 1.00x Base Yield";
                    8226%N :: js " Tier 2 (10k" ++ [8211%N] ++ js "100k USDC): 1.15x Effective Yield"; 8226%N :: js " Tier 3 (>100k USDC): 1.25x Maximum Yield"]
       | Performance => [js "Performance Index Parameters:"; 8226%N :: js " Fee Distribution Ratio: 15% protocol earnings distributed";
                         8226%N :: js " Auto-compounding trigger: every 720 Soroban ledgers (~1 hour)"]
       end.

Definition errors_of (l : list (option str)) : list str := omap id l.

(** The errors that can be read on the page. *)
Definition visible_errors (s : vault_page) : list str :=
  let e := pg_errors s in
  errors_of ([er_apy e; er_baseInterestRate e]
    ++ (if utilization_shown (pg_params s) then [er_targetUtilization e; er_utilizationMultiplier e] else [])
    ++ [er_adminAddress e]).

(** "Use connected wallet address", in the place of the address field's error. *)
Definition address_button (s : vault_page) : bool :=
  match er_adminAddress (pg_errors s), given (publicKey (pg_wallet s)) with
  | None, Some k => negb (str_eqb (vp_adminAddress (pg_params s)) k)
  | _, _ => false
  end.

Definition pause_text (s : vault_page) : str := if vp_paused (pg_params s) then js "Paused" else js "Active".

Definition submit_label (isSuperAdmin : bool) (s : vault_page) : str :=
  if pg_signing s then js "Signing with Freighter" ++ [ellipsis]
  else if negb isSuperAdmin then js "Superadmin access required"
  else if negb (connected (pg_wallet s)) then js "Connect wallet to sign"
  else if has_errors (pg_errors s) then js "Fix form validation errors"
  else js "Sign & Submit via Freighter".

(** The simulation card. *)
Definition simulation (s : vault_page) : list (str * str) :=
  let m := params_metrics (pg_index s) (pg_params s) in
  [(js "Current Yield Index", num_to_fixed 8 (pg_index s));
   (js "Effective Annual APY", num_to_fixed 2 (im_effectiveRate m) ++ js "%");
   (js "Rule", if vp_dynamicApyEnabled (pg_params s) then js "Rule active: " ++ rule_text (vp_dynamicRuleType (pg_params s)) else js "Flat baseline rate");
   (js "Projected Index (30d):", num_to_fixed 8 (im_projected30d m));
   (js "Projected Index (1y):", num_to_fixed 8 (im_projected1y m));
   (js "Next Submit Target Index:", num_to_fixed 8 (im_newYieldIndex m))].

(** *** Properties *)

(** The submit button tells its gate: it can be pressed exactly when it says so and the box is
    ticked, and every other label names what is missing. *)
Theorem submit_label_tells_gate isSuperAdmin s :
  (submit_disabled isSuperAdmin s = false ↔
     submit_label isSuperAdmin s = js "Sign & Submit via Freighter" ∧ pg_confirmed s = true) ∧
  (submit_label isSuperAdmin s = js "Signing with Freighter" ++ [ellipsis] ↔ pg_signing s = true) ∧
  (submit_label isSuperAdmin s = js "Superadmin access required" → isSuperAdmin = false) ∧
  (submit_label isSuperAdmin s = js "Connect wallet to sign" → connected (pg_wallet s) = false) ∧
  (submit_label isSuperAdmin s = js "Fix form validation errors" → has_errors (pg_errors s) = true).
Proof.
  unfold submit_disabled, submit_label.
  destruct (pg_signing s), isSuperAdmin, (pg_confirmed s), (connected (pg_wallet s)), (has_errors (pg_errors s)); cbn [negb orb];
    split_and!; try split; try done; try (by intros []); vm_compute; try done; by intros [].
Qed.

(** The edits that validate. *)
Definition validating (e : edit) : bool :=
  match e with EditApy _ | EditBase _ | EditUtilization _ | EditMultiplier _ | EditAdmin _ => true | _ => false end.

Lemma errors_visible p s : let s' := validated p s in
  has_errors (pg_errors s') = true ↔ visible_errors s' ≠ [].
Proof.
  cbn. unfold has_errors, visible_errors, utilization_shown, validateVaultParams. cbn [pg_errors pg_params validated setFormErrors setParams er_apy er_baseInterestRate er_adminAddress er_targetUtilization er_utilizationMultiplier existsb].
  destruct (_ && _); cbn [app];
    repeat match goal with |- context [errors_of (?o :: _)] => destruct o; cbn end; try done;
    repeat match goal with |- context [match ?o with Some _ => _ | None => _ end] => destruct o; cbn end; done.
Qed.

(** After every edit that validates, the page shows an error exactly when one keeps the form from
    being submitted. *)
Theorem no_hidden_error_after_validation s e : validating e = true →
  let s' := edit_step true e s in has_errors (pg_errors s') = true ↔ visible_errors s' ≠ [].
Proof. destruct e; try done; intros _; apply errors_visible. Qed.

(** Hiding the fields of the utilization rule does not: an error of theirs stays, the button asks to fix
    it and none can be read, until another field is edited. *)
Theorem hidden_error_locks_form s r text :
  utilization_shown (pg_params s) = true → r ≠ Utilization →
  pg_errors s = MkFormErrors None None None (Some text) None → connected (pg_wallet s) = true → pg_signing s = false →
  let s' := edit_step true (EditRule r) s in
  visible_errors s' = [] ∧ submit_disabled true s' = true ∧ submit_label true s' = js "Fix form validation errors" ∧
  (∀ v, er_targetUtilization (pg_errors (edit_step true (EditAdmin v) s')) = None).
Proof.
  intros Hu Hr He Hc Hs. unfold submit_disabled, submit_label, visible_errors, utilization_shown in *.
  cbn [edit_step setParams pg_errors pg_params pg_wallet pg_signing pg_confirmed with_rule vp_dynamicApyEnabled vp_dynamicRuleType validated setFormErrors validateVaultParams with_admin er_targetUtilization].
  rewrite He, Hc, Hs, (bool_decide_eq_false_2 (r = Utilization)) by done. rewrite !andb_false_r. cbn. by rewrite !orb_true_r.
Qed.

(** The button "Use connected wallet address" is shown exactly when pressing it has an effect: it puts the key of the wallet
    into the form and is gone; where it is not shown there is nothing to put. *)
Theorem address_button_works isSuperAdmin s :
  let s' := edit_step isSuperAdmin UseWalletAddress s in
  (address_button s = true → Some (vp_adminAddress (pg_params s')) = publicKey (pg_wallet s) ∧
     vp_adminAddress (pg_params s') ≠ vp_adminAddress (pg_params s) ∧ address_button s' = false) ∧
  (address_button s = false → s' = s).
Proof.
  unfold address_button, given. cbn [edit_step]. destruct (er_adminAddress (pg_errors s)) eqn:Ee; [done|].
  destruct (publicKey (pg_wallet s)) as [k|] eqn:Ek; [|done].
  destruct (truthy k) eqn:Et; cbn [andb]; [|done].
  destruct (str_eqb (vp_adminAddress (pg_params s)) k) eqn:Eq; cbn [negb]; [done|].
  apply str_eqb_false in Eq. split; [|done]. intros _.
  cbn [validated setFormErrors setParams pg_params with_admin vp_adminAddress pg_wallet pg_errors]. split; [done|]. split; [done|].
  rewrite Ek, Et. case_match; [done|]. by rewrite str_eqb_refl.
Qed.

(** At most one wallet card is shown of a wallet that is connected only when it is installed, and
    none exactly for a connected wallet without a key. *)
Theorem one_wallet_card s : (connected (pg_wallet s) = true → installed (pg_wallet s) = true) →
  length (wallet_cards s) ≤ 1 ∧
  (wallet_cards s = [] ↔ connected (pg_wallet s) = true ∧ truthy_opt (publicKey (pg_wallet s)) = false).
Proof.
  unfold wallet_cards, given, truthy_opt. destruct (pg_wallet s) as [i c k n]. cbn. intros H.
  destruct i, c, k as [[|x k]|]; cbn; try (by specialize (H eq_refl)); split; try lia; split; try done; by intros [].
Qed.
End Config.

(** ** The audit table *)

Module Table.
Definition action_label (a : yield_action) : str :=
  match a with
  | ADeposit => js "Deposit" | AWithdraw => js "Withdraw" | AYieldAccrual => js "Yield Accrual" | AConfig => js "Config"
  end.

(** The arrow of a sortable column. *)
Definition sort_arrow (k sortKey : SortKey) (sortAsc : bool) : str :=
  if decide (sortKey = k) then (if sortAsc then [9650%N] else [9660%N]) else [8645%N].

Class Formats := {
  format_date : str → str → option str;   (** [format(new Date(text), pattern)]; [None] when it throws *)
  locale_number : num → str;
  locale_volume : num → str;              (** with at most four decimals *)
}.

Section Table.
Context `{Formats}.

Definition or_dash (o : option num) : str := match o with Some n => locale_number n | None => em_dash end.

Definition hash_text (h : str) : str := take 10 h ++ [ellipsis] ++ slice_last 6 h.

Record audit_row := AuditRow {
  ar_id : str; ar_hash : str; ar_date : str; ar_time : str; ar_address : str; ar_action : str; ar_volume : str; ar_asset : str; ar_block : str;
  ar_details : option (list (str * str)) }.

Definition index_text (i : option num) : str :=
  match i with Some n => if num_truthy n then num_to_fixed 8 n else js "1.04285012" | None => js "1.04285012" end.

(** The panel of an expanded row. *)
Definition details_of (tx : YieldTx) : list (str * str) :=
  [(js "Full Tx Hash", yt_txHash tx); (js "Full Address", yt_address tx);
   (js "Network Fee", match yt_fee tx with Some f => num_to_str f ++ js " XLM" | None => em_dash end);
   (js "Yield Index at Accrual", index_text (yt_yieldIndex tx));
   (js "Block Height", or_dash (yt_blockHeight tx)); (js "Timestamp (UTC)", yt_timestamp tx);
   (js "Event Details / Log",
    match yt_details tx with Some d => if truthy d then d else action_label (yt_action tx) ++ js " transaction verified on Soroban testnet"
    | None => action_label (yt_action tx) ++ js " transaction verified on Soroban testnet" end)].

Definition is_expanded (expandedRow : option str) (tx : YieldTx) : bool := bool_decide (expandedRow = Some (yt_id tx)).

Definition row_of (expandedRow : option str) (tx : YieldTx) : option audit_row :=
  d ← format_date (yt_timestamp tx) (js "MMM d, yyyy");
  t ← format_date (yt_timestamp tx) (js "HH:mm:ss");
  Some (AuditRow (yt_id tx) (hash_text (yt_txHash tx)) d (t ++ js " UTC") (truncateKey (yt_address tx) 6 6) (action_label (yt_action tx))
    (if num_ltb (Fin 0 0) (yt_tokenVolume tx) then locale_volume (yt_tokenVolume tx) else em_dash) (yt_asset tx) (or_dash (yt_blockHeight tx))
    (if is_expanded expandedRow tx then Some (details_of tx) else None)).

(** The body of the table; [None] when a date cannot be formatted. *)
Definition table_body (expandedRow : option str) (page : list YieldTx) : option (list audit_row + str) :=
  match page with [] => Some (inr (js "No transactions match your filters")) | _ => inl <$> mapM (row_of expandedRow) page end.

(** A press on a row. *)
Definition press (id : str) (expandedRow : option str) : option str :=
  if bool_decide (expandedRow = Some id) then None else Some id.

Definition count_text (n : nat) : str := N_to_str (N.of_nat n) ++ js " record" ++ (if (n =? 1)%nat then [] else js "s").

(** The tiles above the table. *)
Definition tiles (st : audit_stats) : list (str * str) :=
  [(js "Total Events", N_to_str (N.of_nat (as_total st)));
   (js "Total Deposits", locale_number (as_deposits st) ++ js " USDC");
   (js "Total Withdrawals", locale_number (as_withdrawals st) ++ js " USDC");
   (js "Yield Accrued", locale_number (as_yieldAcc st) ++ js " USDC");
   (js "Active Yield Index", num_to_fixed 6 (as_currentYieldIndex st))].

(** The pager: the line, whether Prev is disabled, the numbers with the marked one, whether Next is disabled. *)
Record pager := Pager { pr_line : str; pr_prev_off : bool; pr_numbers : list (nat * bool); pr_next_off : bool }.

Definition pager_of (page totalPages records : nat) : option pager :=
  if (1 <? totalPages)%nat then
    Some (Pager (js "Page " ++ N_to_str (N.of_nat page) ++ js " of " ++ N_to_str (N.of_nat totalPages) ++ js " " ++ [183%N] ++ js " "
                   ++ N_to_str (N.of_nat records) ++ js " records")
            (page =? 1)%nat ((λ n, (n, (n =? page)%nat)) <$> seq 1 totalPages) (page =? totalPages)%nat)
  else None.

(** *** Properties *)

(** The table shows its page or nothing: every record of the page has its row, in order, or one that cannot be
    dated takes the page down; a press opens one record at most and a second press closes it. *)
Theorem table_shows_page expandedRow page :
  (table_body expandedRow page = None ↔
     ∃ tx, tx ∈ page ∧ (format_date (yt_timestamp tx) (js "MMM d, yyyy") = None ∨ format_date (yt_timestamp tx) (js "HH:mm:ss") = None)) ∧
  (∀ rows, table_body expandedRow page = Some (inl rows) →
     ar_id <$> rows = yt_id <$> page ∧
     (NoDup (yt_id <$> page) → length (filter (λ r, ar_details r ≠ None) rows) ≤ 1)) ∧
  (∀ id, expandedRow = None → press id (press id expandedRow) = expandedRow).
Proof.
  split_and!.
  - unfold table_body. destruct page as [|tx page]; [split; [done|by intros (tx & ?%elem_of_nil & _)]|].
    destruct (mapM (row_of expandedRow) (tx :: page)) as [rows|] eqn:E; cbn.
    + split; [done|]. intros (t & Ht & D). exfalso. apply mapM_Some_1 in E. apply list_elem_of_lookup in Ht as [i Hi].
      destruct (Forall2_lookup_l _ _ _ _ _ E Hi) as (r & _ & Hr). unfold row_of in Hr. destruct D as [D|D]; rewrite D in Hr; [done|].
      revert Hr. by destruct (format_date _ (js "MMM d, yyyy")).
    + split; [intros _|done]. apply mapM_None, Exists_exists in E as (t & Ht & E). exists t. split; [done|]. unfold row_of in E.
      destruct (format_date _ (js "MMM d, yyyy")); [|by left]. destruct (format_date _ (js "HH:mm:ss")); [done|by right].
  - intros rows E. assert (F : Forall2 (λ tx r, row_of expandedRow tx = Some r) page rows).
    { unfold table_body in E. destruct page as [|tx page]; [done|]. destruct (mapM _ _) as [l|] eqn:M; [|done]. injection E as <-. by apply mapM_Some_1. }
    clear E. assert (P : ∀ tx r, row_of expandedRow tx = Some r → ar_id r = yt_id tx ∧ (ar_details r ≠ None → expandedRow = Some (yt_id tx))).
    { intros tx r. unfold row_of. destruct (format_date _ (js "MMM d, yyyy")); [|done]. destruct (format_date _ (js "HH:mm:ss")); [|done].
      intros [= <-]. split; [done|]. unfold is_expanded. cbn. by case_bool_decide. }
    assert (K : ar_id <$> rows = yt_id <$> page).
    { clear -F P. induction F as [|tx r page rows Hr F IH]; [done|]. cbn. destruct (P _ _ Hr) as [-> _]. by f_equal. }
    split; [done|]. rewrite <-K. intros N. assert (A : ∀ r, r ∈ rows → ar_details r ≠ None → expandedRow = Some (ar_id r)).
    { intros r Hr Hd. apply list_elem_of_lookup in Hr as [i Hi]. destruct (Forall2_lookup_r _ _ _ _ _ F Hi) as (tx & _ & Hx).
      destruct (P _ _ Hx) as [-> ?]. auto. }
    clear -N A. induction rows as [|r rows IH]; [cbn; lia|]. apply NoDup_cons in N as [Hr N]. rewrite filter_cons. case_decide as D.
    + cbn [length]. rewrite filter_Forall_nil; [done|]. apply Forall_forall. intros q Hq Hd. apply Hr.
      assert (expandedRow = Some (ar_id r)) as E1 by (apply A; [left|done]). assert (expandedRow = Some (ar_id q)) as E2 by (apply A; [by right|done]).
      rewrite E1 in E2. injection E2 as ->. by apply list_elem_of_fmap_2.
    + apply IH; [done|]. intros q Hq. apply A. by right.
  - intros id ->. unfold press. rewrite (bool_decide_eq_false_2 (None = Some id)) by done. by rewrite bool_decide_eq_true_2.
Qed.

(** A record without an index, or with the index zero, shows the seeded index of the page: the panel cannot be told from one that recorded it. *)
Theorem missing_index_made_up tx i : yt_yieldIndex tx = None ∨ yt_yieldIndex tx = Some (Fin 0 0) →
  yt_yieldIndex i = Some INITIAL_YIELD_INDEX →
  index_text (yt_yieldIndex tx) = index_text (yt_yieldIndex i).
Proof. intros [-> | ->] ->; vm_compute; reflexivity. Qed.

Lemma marked_in page n : filter (λ x : nat * bool, x.2 = true) ((λ n, (n, (n =? page)%nat)) <$> seq 1 n)
  = if ((1 <=? page)%nat && (page <=? n)%nat)%bool then [(page, true)] else [].
Proof.
  induction n as [|n IH]; [by destruct page|]. rewrite seq_S, fmap_app, filter_app, IH. cbn [fmap list_fmap]. rewrite filter_cons. cbn [snd].
  destruct (Nat.eqb_spec (1 + n) page) as [<-|Hn].
  - rewrite decide_True by done. destruct (Nat.leb_spec 1 (1 + n)), (Nat.leb_spec (1 + n) n), (Nat.leb_spec (1 + n) (S n)); try lia. done.
  - rewrite decide_False by done. cbn [filter list_filter]. rewrite app_nil_r.
    destruct (Nat.leb_spec 1 page), (Nat.leb_spec page n), (Nat.leb_spec page (S n)); cbn; try done; lia.
Qed.

(** The pager marks the page shown, and its ends are disabled there; a page past the last, which a refresh can leave
    behind, is marked nowhere, and Next then leads back to the last page. *)
Theorem pager_marks_page `{UnicodeCase, Collator, HostDates} (s : audit_state) p :
  1 ≤ au_page s → pager_of (au_page s) (totalPages s) (length (filtered s)) = Some p →
  (au_page s ≤ totalPages s → filter (λ x, x.2 = true) (pr_numbers p) = [(au_page s, true)] ∧
     (pr_prev_off p = true ↔ au_page s = 1) ∧ (pr_next_off p = true ↔ au_page s = totalPages s)) ∧
  (totalPages s < au_page s → filter (λ x, x.2 = true) (pr_numbers p) = [] ∧ paginated s = [] ∧
     pr_next_off p = false ∧ au_page (audit_step OpNext s) = totalPages s).
Proof.
  unfold pager_of. intros Hpage. destruct (Nat.ltb_spec 1 (totalPages s)) as [Hl|]; [|done]. intros [= <-].
  cbn [pr_numbers pr_prev_off pr_next_off]. rewrite marked_in, !Nat.eqb_eq. split.
  - intros Hp. rewrite (proj2 (Nat.leb_le 1 _)), (proj2 (Nat.leb_le (au_page s) _)) by lia. done.
  - intros Hp. rewrite (proj2 (Nat.leb_gt (au_page s) _)), andb_false_r by lia.
    rewrite (proj2 (Nat.eqb_neq _ _)) by lia. split; [done|]. split; [|split; [done|]].
    + unfold paginated. apply page_beyond; [unfold PAGE_SIZE; lia|]. fold (totalPages s). lia.
    + cbn [audit_step]. unfold pager_shown. rewrite (proj2 (Nat.ltb_lt _ _) Hl), (proj2 (Nat.eqb_neq _ _)) by lia. cbn. lia.
Qed.
End Table.
End Table.

(** ** The APY history *)

Module Rates.
Inductive page_tab := TConfig | TAudit | TApy.

#[export] Instance page_tab_eq_dec : EqDecision page_tab.
Proof. solve_decision. Defined.

Definition tab_label (t : page_tab) : str :=
  match t with TConfig => js "Vault Configuration" | TAudit => js "Audit History" | TApy => js "APY History" end.

Record rate := MkRate { ra_apy : num; ra_created_at : str }.

(** The state, and the requests under way with what [cancelled] says of each. *)
Record rates := MkRates {
  rt_tab : page_tab; rt_history : list (str * num); rt_loading : bool; rt_error : option str;
  rt_pending : list (nat * bool); rt_next : nat }.

Definition initial_rates : rates := MkRates TConfig [] false None [] 0.

(** The message of the [RangeError] of [toISOString]. *)
Class Engine := invalid_time : str.

Section Rates.
Context `{HostDates, Engine}.

(** The year of [toISOString]: four digits, or a sign and six. *)
Definition iso_text (t : Z) : str :=
  if (-62167219200000 <=? t)%Z && (t <? 253402300800000)%Z then to_iso t
  else
    let '(y, _, _) := civil_from_days (t / ms_per_day)%Z in
    (if (y <? 0)%Z then js "-" else js "+") ++ pad_start 6 48 (Z_to_str (Z.abs y)) ++ drop 4 (to_iso t).

(** [new Date(text).toISOString().slice(0, 10)] *)
Definition iso_day (text : str) : res str :=
  match date_ms text with
  | Fin t 0 => if (Z.abs t <=? 8640000000000000)%Z then Ok (take 10 (iso_text t)) else Throw (new_error invalid_time)
  | _ => Throw (new_error invalid_time)
  end.

(** [res.rates.map(...)]: the first unreadable date throws. *)
Fixpoint formatted (l : list rate) : res (list (str * num)) :=
  match l with
  | [] => Ok []
  | r :: l' => match iso_day (ra_created_at r) with
               | Throw e => Throw e
               | Ok d => match formatted l' with Throw e => Throw e | Ok fs => Ok ((d, ra_apy r) :: fs) end
               end
  end.

Definition cancel (l : list (nat * bool)) : list (nat * bool) := (λ r, (r.1, true)) <$> l.

Inductive event := ETab (t : page_tab) | ESettle (id : nat) (answer : res (list rate)).

(** A tab: the effect of the one before is cleaned up, that of the history begins a request. *)
Definition set_tab (t : page_tab) (s : rates) : rates :=
  if decide (t = rt_tab s) then s
  else
    let pending := if decide (rt_tab s = TApy) then cancel (rt_pending s) else rt_pending s in
    if decide (t = TApy)
    then MkRates t (rt_history s) true None (pending ++ [(rt_next s, false)]) (S (rt_next s))
    else MkRates t (rt_history s) (rt_loading s) (rt_error s) pending (rt_next s).

(** An answer: of a cancelled request nothing is kept. *)
Definition settle (id : nat) (answer : res (list rate)) (s : rates) : rates :=
  let pending := filter (λ r, r.1 ≠ id) (rt_pending s) in
  if bool_decide ((id, false) ∈ rt_pending s) then
    match (match answer with Ok l => formatted l | Throw e => Throw e end) with
    | Ok fs => MkRates (rt_tab s) fs false (rt_error s) pending (rt_next s)
    | Throw e => MkRates (rt_tab s) (rt_history s) false (Some (err_message e)) pending (rt_next s)
    end
  else MkRates (rt_tab s) (rt_history s) (rt_loading s) (rt_error s) pending (rt_next s).

Definition step (s : rates) (ev : event) : rates :=
  match ev with ETab t => set_tab t s | ESettle id answer => settle id answer s end.

Definition run (evs : list event) : rates := foldl step initial_rates evs.

Inductive chart := Placeholder | NoHistory | Chart (l : list (str * num)).

(** The tab: its banner and its chart. *)
Definition history_view (s : rates) : option (option str * chart) :=
  if decide (rt_tab s = TApy) then
    Some (rt_error s, if rt_loading s then Placeholder else match rt_history s with [] => NoHistory | l => Chart l end)
  else None.

(** *** Properties *)

Definition active (s : rates) : list nat := (filter (λ r, r.2 = false) (rt_pending s)).*1.

(** One request is awaited while the tab is shown and loads, and none else. *)
Definition visit_ok (s : rates) : Prop :=
  NoDup (rt_pending s).*1 ∧ Forall (λ i, i < rt_next s) (rt_pending s).*1 ∧
  if decide (rt_tab s = TApy) then (if rt_loading s then length (active s) = 1 else active s = []) else active s = [].

Lemma active_cancel l : filter (λ r : nat * bool, r.2 = false) (cancel l) = [].
Proof. apply filter_Forall_nil, Forall_fmap, Forall_forall. by intros r _. Qed.

Lemma cancel_keys l : (cancel l).*1 = l.*1.
Proof. unfold cancel. rewrite <-list_fmap_compose. by apply list_fmap_ext. Qed.

Lemma settle_active id s answer : NoDup (rt_pending s).*1 → active (settle id answer s) = filter (λ i, i ≠ id) (active s).
Proof.
  intros _. assert (E : rt_pending (settle id answer s) = filter (λ r, r.1 ≠ id) (rt_pending s)).
  { unfold settle. case_bool_decide; [|done]. by destruct (match answer with Ok l => formatted l | Throw e => Throw e end). }
  unfold active. rewrite E. clear E. induction (rt_pending s) as [|[i b] l IH]; [done|].
  rewrite !filter_cons. cbn [fst snd]. destruct (decide (i ≠ id)) as [Hi|Hi], (decide (b = false)) as [Hb|Hb]; rewrite ?filter_cons; cbn [fst snd];
    rewrite ?decide_True, ?decide_False by done; cbn [fmap list_fmap fst]; rewrite ?filter_cons; rewrite ?decide_True, ?decide_False by done; by rewrite ?IH.
Qed.

Lemma elem_of_active i s : i ∈ active s ↔ (i, false) ∈ rt_pending s.
Proof.
  unfold active. rewrite list_elem_of_fmap. split.
  - intros ([j b] & -> & [Hb Hj]%list_elem_of_filter). cbn in Hb. by subst b.
  - intros Hi. exists (i, false). split; [done|]. by apply list_elem_of_filter.
Qed.

Lemma settle_keys id answer s : (rt_pending (settle id answer s)).*1 = filter (λ i, i ≠ id) (rt_pending s).*1 ∧
  rt_tab (settle id answer s) = rt_tab s ∧ rt_next (settle id answer s) = rt_next s.
Proof.
  assert (K : (filter (λ r : nat * bool, r.1 ≠ id) (rt_pending s)).*1 = filter (λ i, i ≠ id) (rt_pending s).*1).
  { induction (rt_pending s) as [|[i b] l IH]; [done|]. rewrite fmap_cons, !filter_cons. cbn [fst].
    destruct (decide (i ≠ id)); [|done]. rewrite fmap_cons. by rewrite IH. }
  unfold settle. case_bool_decide; [|done]. by destruct (match answer with Ok l => formatted l | Throw e => Throw e end).
Qed.

Lemma visit_step s ev : visit_ok s → visit_ok (step s ev).
Proof.
  intros (N & F & A). destruct ev as [t|id answer]; cbn [step].
  - unfold set_tab. destruct (decide (t = rt_tab s)); [done|].
    destruct (decide (rt_tab s = TApy)) as [E|E].
    + rewrite decide_False by congruence. unfold visit_ok, active. cbn [rt_pending rt_next rt_tab rt_loading].
      rewrite active_cancel, cancel_keys, decide_False by congruence. done.
    + destruct (decide (t = TApy)) as [->|Et]; unfold visit_ok, active in *; cbn [rt_pending rt_next rt_tab rt_loading].
      * rewrite decide_True by done. rewrite fmap_app, filter_app, fmap_app, A. cbn. split; [|split; [|done]].
        -- apply NoDup_app. split; [done|]. split; [|apply NoDup_singleton]. intros i Hi ->%list_elem_of_singleton.
           apply (proj1 (Forall_forall _ _) F) in Hi. lia.
        -- apply Forall_app. split; [eapply Forall_impl; [exact F|]; cbn; lia|]. repeat constructor.
      * rewrite decide_False by done. done.
  - destruct (settle_keys id answer s) as (K & T & X). unfold visit_ok. rewrite K, T, X, settle_active by done.
    split; [by apply NoDup_filter|]. split; [apply Forall_forall; intros i [_ Hi]%list_elem_of_filter; by apply (proj1 (Forall_forall _ _) F) in Hi|].
    destruct (decide ((id, false) ∈ rt_pending s)) as [Hin|Hout].
    + assert (Ha : id ∈ active s) by by apply elem_of_active.
      destruct (decide (rt_tab s = TApy)); [|rewrite A in Ha; by apply elem_of_nil in Ha].
      destruct (rt_loading s) eqn:L; [|rewrite A in Ha; by apply elem_of_nil in Ha].
      assert (rt_loading (settle id answer s) = false) as ->.
      { unfold settle. rewrite bool_decide_eq_true_2 by done. by destruct (match answer with Ok l => formatted l | Throw e => Throw e end). }
      destruct (active s) as [|i [|]] eqn:Ea; [done| |done]. apply list_elem_of_singleton in Ha as ->.
      rewrite filter_cons_False; [done|]. tauto.
    + assert (Hn : filter (λ i, i ≠ id) (active s) = active s).
      { apply filter_Forall_id, Forall_forall. intros i Hi ->. by apply Hout, elem_of_active. }
      rewrite Hn. assert (rt_loading (settle id answer s) = rt_loading s) as ->; [|done].
      unfold settle. by rewrite bool_decide_eq_false_2.
Qed.

Lemma visit_run evs : visit_ok (run evs).
Proof.
  unfold run. assert (V : visit_ok initial_rates) by (repeat split; constructor).
  revert V. generalize initial_rates. induction evs as [|ev evs IH]; intros s V; [done|]. cbn. by apply IH, visit_step.
Qed.

(** C26: Only the visit under way decides what the history shows: whatever the order of visits and answers, the tab loads
    exactly while one request of this visit is awaited, no other request is awaited, and the answer of any other
    request changes nothing that is shown. *)
Theorem visit_decides evs id answer : let s := run evs in
  (rt_tab s = TApy → (rt_loading s = true ↔ ∃ i, active s = [i])) ∧
  (rt_tab s ≠ TApy → active s = []) ∧
  (id ∉ active s → history_view (step s (ESettle id answer)) = history_view s) ∧
  (id ∈ active s → ∃ e c, history_view (step s (ESettle id answer)) = Some (e, c) ∧ c ≠ Placeholder).
Proof.
  intros s. destruct (visit_run evs) as (N & _ & A). fold s in N, A. split_and!.
  - intros T. rewrite decide_True in A by done. destruct (rt_loading s).
    + split; [intros _|done]. destruct (active s) as [|i [|]]; try done. by exists i.
    + split; [done|]. intros [i Hi]. by rewrite A in Hi.
  - intros T. by rewrite decide_False in A.
  - intros Hn. rewrite elem_of_active in Hn. cbn [step]. unfold settle. by rewrite bool_decide_eq_false_2.
  - intros Ha. cbn [step]. unfold history_view. destruct (settle_keys id answer s) as (_ & -> & _).
    destruct (decide (rt_tab s = TApy)); [|rewrite A in Ha; by apply elem_of_nil in Ha].
    rewrite elem_of_active in Ha. eexists _, _. split; [done|]. unfold settle. rewrite bool_decide_eq_true_2 by done.
    destruct (match answer with Ok l => formatted l | Throw e => Throw e end) as [fs|err]; cbn; [by destruct fs|by destruct (rt_history s)].
Qed.

(** One unreadable date discards the whole answer: the history stays what it was and the error is shown. *)
Theorem bad_date_discards_answer s id l r : (id, false) ∈ rt_pending s → r ∈ l →
  iso_day (ra_created_at r) = Throw (new_error invalid_time) →
  rt_history (settle id (Ok l) s) = rt_history s ∧ rt_error (settle id (Ok l) s) = Some invalid_time.
Proof.
  intros Hin Hr Hd. assert (F : formatted l = Throw (new_error invalid_time)).
  { assert (D : ∀ text, iso_day text = Throw (new_error invalid_time) ∨ ∃ d, iso_day text = Ok d).
    { intros text. unfold iso_day. destruct (date_ms text) as [| |m []]; try by left. case_match; [right; by eexists|by left]. }
    induction l as [|q l IH]; [by apply elem_of_nil in Hr|]. cbn [formatted]. apply elem_of_cons in Hr as [->|Hr]; [by rewrite Hd|].
    destruct (D (ra_created_at q)) as [-> | [d ->]]; [done|]. by rewrite IH. }
  unfold settle. rewrite bool_decide_eq_true_2, F by done. done.
Qed.
End Rates.
End Rates.

(** ** Runs *)

Module Runs.
#[local] Existing Instance ascii_case.
#[local] Existing Instance unit_collation.
#[local] Existing Instance iso_only.
#[local] Instance demo_time : Rates.Engine := js "Invalid time value".
#[local] Instance demo_formats : Table.Formats :=
  {| Table.format_date text pattern := if (10 <=? length text)%nat then Some (take 10 text) else None;
     Table.locale_number := num_to_str; Table.locale_volume := num_to_str |}.

Definition key : str := js "G" ++ replicate 55 65%N.
Definition connected_page : vault_page := putWallet (MkWallet true true (Some key) (Some (js "TESTNET"))) initial_page.

Lemma submit_label_tells_gate_witness : Config.submit_label true connected_page = js "Sign & Submit via Freighter" ∧ submit_disabled true connected_page = true.
Proof.
  destruct (Config.submit_label_tells_gate true connected_page) as ([_ E] & _ & _ & _ & X).
  split; [vm_compute; reflexivity|]. destruct (submit_disabled true connected_page) eqn:D; [reflexivity|].
  destruct (proj1 (proj1 (Config.submit_label_tells_gate true connected_page)) D) as [_ C]. vm_compute in C. discriminate C.
Defined.

Lemma no_hidden_error_witness : Config.visible_errors (edit_step true (EditUtilization (js "400")) connected_page) ≠ [].
Proof. apply (Config.no_hidden_error_after_validation connected_page (EditUtilization (js "400"))); vm_compute; reflexivity. Defined.

(** The error of a utilization out of range outlives the rule. *)
Definition text400 : str := js "Target utilization must be between 0% and 100%.".
Definition locked_page : vault_page := edit_step true (EditUtilization (js "400")) (edit_step true UseWalletAddress connected_page).

Lemma hidden_error_locks_form_witness :
  Config.visible_errors (edit_step true (EditRule Tiered) locked_page) = [] ∧ submit_disabled true (edit_step true (EditRule Tiered) locked_page) = true.
Proof.
  destruct (Config.hidden_error_locks_form locked_page Tiered text400) as (E1 & E2 & _);
    [vm_compute; reflexivity|discriminate|vm_compute; reflexivity..|]. split; [exact E1|exact E2].
Defined.

Lemma address_button_works_witness : vp_adminAddress (pg_params (edit_step false UseWalletAddress connected_page)) = key.
Proof. destruct (Config.address_button_works false connected_page) as [A _]. destruct A as [E _]; [vm_compute; reflexivity|]. exact (f_equal (default []) E). Defined.

Lemma one_wallet_card_witness : length (Config.wallet_cards connected_page) ≤ 1.
Proof. apply Config.one_wallet_card. intros _. vm_compute. reflexivity. Defined.

Lemma table_shows_page_witness : ∃ rows, Table.table_body (Some (js "1")) MOCK_TXS = Some (inl rows) ∧ length (filter (λ r, Table.ar_details r ≠ None) rows) ≤ 1.
Proof.
  destruct (Table.table_shows_page (Some (js "1")) MOCK_TXS) as (_ & B & _).
  destruct (Table.table_body (Some (js "1")) MOCK_TXS) as [[rows|t]|] eqn:E; [|vm_compute in E; discriminate E..].
  exists rows. split; [reflexivity|]. apply (B rows); [reflexivity|]. apply (bool_decide_unpack _). vm_compute. exact I.
Defined.

Lemma missing_index_made_up_witness : Table.index_text None = js "1.04285012".
Proof.
  pose proof (Table.missing_index_made_up
    (MkYieldTx [] [] [] [] ADeposit (Fin 0 0) [] None None None None)
    (MkYieldTx [] [] [] [] ADeposit (Fin 0 0) [] None None (Some INITIAL_YIELD_INDEX) None) (or_introl eq_refl) eq_refl) as E.
  cbn [yt_yieldIndex] in E. rewrite E. vm_compute. reflexivity.
Defined.

Lemma pager_marks_page_witness : ∃ p, Table.pager_of 1 2 8 = Some p ∧ filter (λ x, x.2 = true) (Table.pr_numbers p) = [(1, true)].
Proof.
  destruct (Table.pager_of (au_page initial_audit) (totalPages initial_audit) (length (filtered initial_audit))) as [p|] eqn:E; [|vm_compute in E; discriminate E].
  exists p. destruct (Table.pager_marks_page initial_audit p) as [A _]; [vm_compute; lia|exact E|].
  destruct A as [A _]; [vm_compute; lia|]. split; [rewrite <-E; vm_compute; reflexivity|exact A].
Defined.

(** The answer of a visit that was left is ignored. *)
Lemma visit_decides_witness :
  let s := Rates.run [Rates.ETab Rates.TApy; Rates.ETab Rates.TAudit; Rates.ETab Rates.TApy] in
  Rates.history_view (Rates.step s (Rates.ESettle 0 (Ok [Rates.MkRate (Fin 5 0) (js "2026-01-02T00:00:00.000Z")]))) = Some (None, Rates.Placeholder).
Proof.
  intros s. destruct (Rates.visit_decides [Rates.ETab Rates.TApy; Rates.ETab Rates.TAudit; Rates.ETab Rates.TApy] 0
    (Ok [Rates.MkRate (Fin 5 0) (js "2026-01-02T00:00:00.000Z")])) as (_ & _ & C & _).
  unfold s. rewrite C; [vm_compute; reflexivity|]. apply (bool_decide_unpack _). vm_compute. exact I.
Defined.

Lemma bad_date_discards_answer_witness :
  Rates.rt_error (Rates.settle 0 (Ok [Rates.MkRate (Fin 5 0) (js "soon")]) (Rates.run [Rates.ETab Rates.TApy])) = Some (js "Invalid time value").
Proof.
  apply (Rates.bad_date_discards_answer (Rates.run [Rates.ETab Rates.TApy]) 0 [Rates.MkRate (Fin 5 0) (js "soon")] (Rates.MkRate (Fin 5 0) (js "soon")));
    [apply (bool_decide_unpack _); vm_compute; exact I|left|vm_compute; reflexivity].
Defined.

Example day_of_rate : Rates.iso_day (js "2026-01-02T10:00:00.000Z") = Ok (js "2026-01-02").
Proof. vm_compute. reflexivity. Qed.
End Runs.
